(* ===== verification/_CoqProject ===== *)
-Q . S2P
Prelude.v
MerkleDamgard.v
Ripemd160.v
Sha256.v
Block.v
TxParse.v
Base58.v
Sql.v
SqlServer.v
Calendar.v
Entity.v
TxStore.v
Unzip.v
Streams.v
Timerange.v
Report.v
ReportServer.v
StatTables.v
Statistical.v
StatResults.v
Chain.v
Console.v
Program.v
Coding.v
Crc32c.v
Crc32cWin.v
LogFile.v
SkipList.v
DbFormat.v
MemTable.v
WriteBatch.v
DbImpl.v
DbProps.v
Bloom.v
FilterBlock.v
TableBlock.v
TableFile.v
VersionEdit.v
VersionSet.v
VersionBuilder.v
Level0.v
TableLaws.v
FileName.v
Manifest.v
CompactMem.v
SnappyFormat.v
SnappyWriter.v
SnappyDecompress.v
SnappyMatch.v
SnappyCompress.v
SnappyIOVec.v
SnappyPort.v
SnappyC.v
Merger.v
DbIter.v
