(* ===== verification/Prelude.v ===== *)
(** * Verification of BitcoinAnalysis

    BitcoinAnalysis (src/BitcoinAnalysis) reads the block files of a Bitcoin
    client month by month, keeps the outputs of all transactions in LevelDB and
    the addresses, entities, transactions and blocks in four MySQL tables, and
    writes monthly statistics to text files.  This library models the program and
    proves what it does.

    ** The parts of the program and their files

    - Prelude.v: machine integers as [Z] with the reductions written out, bytes,
      the notations of [word_scope], the hint databases, and lemmas on lists that
      the other files share.
    - MerkleDamgard.v: what an iterated hash function is (class [BlockHash]).
    - Ripemd160.v and Sha256.v: the two hash functions of hash.h, transcribed
      with their unrolled rounds, buffers and padding ([compress], [MDfinish],
      [computeRIPEMD160]; [sha256_update], [sha256_finalize], [SHA256Guts],
      [computeSHA256]), against the published definitions.
    - Block.v: block.h, the readers [readU8] .. [readVarLen], the structures,
      [twiceSHA256] and [outAddress], and the address of a public key of hash.h.
    - TxParse.v: the parser of a transaction in unzipBlocks.h, against the
      serialization format.
    - Base58.v: the big numbers, the Base58 coder and the address texts of hash.h.
    - Sql.v: the interface to MySQL (classes [Schema] and [MySQL]): the forms of
      the program's statements, their texts and their effect on the tables.
      SqlServer.v: a server that satisfies it, so that the program can be run.
    - Calendar.v: [getTimeString] of TransactionProcess.h.
    - Entity.v: EntityProcess.h, the clustering of addresses into entities.
    - TxStore.v: TransactionProcess.h, with the interface [LevelDB].
    - Unzip.v: unzipBlocks.h and BlockProcess.h, the loops over files, blocks and
      transactions, the saved position and its resumption.
    - Chain.v: the abstract ledger of a chain, and that a run implements it.
    - Streams.v: the text files and streams of the C++ library.
    - Timerange.v: timerange.h, BlockFileName.h, the parameter files.
    - Report.v: the form and meaning of the statistics queries, and the interface
      [Reporting] that extends [MySQL] by them.  ReportServer.v: a server that
      satisfies it.
    - StatTables.v: the query texts of Statistical.h as the source writes them.
    - Statistical.v: the function [statistical] and the abstract report.
      StatResults.v: its theorems.
    - Console.v: console.cpp, [main] with the parameter files.
    - Program.v: the program as a whole.

    LevelDB comes with the repository (src/packages/LevelDB.1.16.0.5); these files
    model the parts of it that a write, a read and a restart go through:

    - Coding.v and Crc32c.v: util/coding.cc and util/crc32c.cc.  Crc32cWin.v: the
      package Crc32C (src/packages/Crc32C.1.0.4), from which LevelDB takes the checksum on
      Windows, with the CRC instruction as a class ([Crc32Instruction]).
    - LogFile.v: the writer and the reader of log files, db/log_writer.cc and
      db/log_reader.cc.
    - SkipList.v: db/skiplist.h over an arena of nodes, for every comparison that is
      an order (class [KeyOrder]).
    - DbFormat.v: internal keys and comparators, db/dbformat.cc, util/comparator.cc.
    - MemTable.v and WriteBatch.v: db/memtable.cc and db/write_batch.cc.
    - DbImpl.v: db/db_impl.cc, the queue of writers, the switch of tables and logs,
      reads at a sequence number and recovery, as steps between the points where the
      mutex is free; tables on disk are behind the class [TableStore], whose laws
      TableLaws.v proves of the table files.  DbProps.v: its theorems.
    - Bloom.v and FilterBlock.v: util/bloom.cc, util/hash.cc and
      table/filter_block.cc, for every filter policy (class [FilterPolicy]).
    - TableBlock.v: table/block_builder.cc and table/block.cc.
    - TableFile.v: table/format.cc, table_builder.cc and table.cc, a whole table file,
      for every compression that can be undone (class [Compression]).
    - VersionEdit.v: db/version_edit.cc.  VersionBuilder.v: the builder of versions in
      db/version_set.cc.
    - VersionSet.v: the levels of a version, its search and the choice of a level, in
      db/version_set.cc.  Level0.v: db/builder.cc and [WriteLevel0Table] of
      db/db_impl.cc, and what a version that holds a history answers.  TableLaws.v: the
      laws of [TableStore], for any instance of it and for the levels of table files.
    - FileName.v: db/filename.cc.  Manifest.v: [LogAndApply], [Recover] and the
      descriptor of db/version_set.cc.  CompactMem.v: [CompactMemTable] of db/db_impl.cc
      on top of them.
    - Merger.v: what an iterator promises (classes [InternalIterator] and [IteratorLaws]),
      and table/merger.cc over any iterators that keep it.  DbIter.v: db/db_iter.cc over
      any iterator of internal keys.

    Snappy, with which LevelDB compresses the blocks of tables, comes with the
    repository too (src/packages/Snappy.1.1.1.7):

    - SnappyFormat.v: loads and stores in arrays, the tables of tags of snappy.cc, and the
      compressed format by itself ([meaning]), apart from the code that reads it.
    - SnappyWriter.v: the copies of overlapping bytes, what the decompressor asks of a
      writer (classes [Writer] and [WriterLaws]), the writer of an array and the
      validator.  SnappyIOVec.v: the writer of several arrays.
    - SnappyDecompress.v: the decompressor, for every source (class [Source]) and every
      writer, and the functions for arrays and strings.
    - SnappyMatch.v: the bit operations and [FindMatchLength] of snappy-internal.h.
      SnappyCompress.v: the compressor.
    - SnappyPort.v: the functions of port_win.h through which LevelDB calls it, as an
      instance of [Compression].  SnappyC.v: snappy-c.cc.

    The program's [main] calls [set_parameter] (Timerange.v), [unzipBlocks]
    (Unzip.v; with its parameter file, [run_unzip] of Console.v) and
    [statistical] (Statistical.v) for each month.  [unzipBlocks] parses
    transactions (TxParse.v, on Block.v and the hash functions) and calls
    [TransactionProcess] (TxStore.v), which calls the functions of Entity.v, and
    [BlockProcess].  What TxStore.v assumes of LevelDB, the law of its class
    [LevelDB], is what [get_put] of DbProps.v proves of the implementation.

    ** Conventions

    Fallible code returns [option]: [None] is undefined behaviour of the source (a
    read outside a buffer, a null pointer, an index outside a table) or a number
    that cannot be read.  State is passed explicitly: the connection, the LevelDB
    handle and the global variables are the record [state]; the files of the text
    streams are a map from paths to contents.  Integers have the width of the
    source: an unsigned operation wraps around, and a file position or a counter
    of blocks and transactions, which are [int]s, is [None] when it leaves their
    range ([as_int]).  The theorems about runs ask for block files of less than
    2^31 bytes and for chains whose blocks and transactions can be counted.
    Buffers for hashes and transactions are lists of bytes.  The assertions of
    LevelDB and Snappy are those of debug builds: where a comment says so, a
    definition leaves them out, and its theorems hold whether or not they are met.

    The MySQL server, its table definitions, LevelDB, [mktime], the text of the
    current time and the floating-point difficulty are parameters.  Their laws are
    the fields of the classes [MySQL], [Schema], [LevelDB] and [Reporting], which
    state the documented effect of the statements and calls that the program
    makes; each class has an instance that computes.

    Loops are structural in their count.  The loop over the blocks of a file takes
    fuel, one more than the file has bytes; every block advances by at least 88
    bytes, and [block_loop_terminates] shows that more fuel changes nothing.  The
    fuel of the Base58 encoder is two characters for each byte, of which each turn
    writes one ([encode_loop_spec]); that of the calendar is 140 years and 11
    months, which covers the 32-bit times ([civil_day]).  The loops of LevelDB take
    the number of bytes, nodes or entries they can pass, and [None] stands for missing fuel
    as well: the theorems show a result, [Some], and [ReadRecord_terminates] does so
    for every file.  Its 32-bit offsets and lengths wrap around; the theorems ask
    for keys, values and blocks below 4 GB and for sequence numbers below the
    largest one, 2^56 - 1.  In the Snappy files a load or store outside its array is
    [None], and so is missing fuel, which is the number of bytes that are left; the
    machine is little-endian, with or without the code for x86-64 ([arch_k8]), and
    texts are below 4 GB.

    ** What is proved

    - The whole program: over any sequence of months the databases follow the
      ledger of the chain, and only a crash of [statistical] ends it earlier
      ([months_chain]); the parameter files carry the position over
      ([months_resume]).
    - A run: [unzipBlocks_chain] (refinement of the ledger, with resumption),
      [run_file_blocks], [walk_resume], [block_loop_terminates],
      [saved_block_number], [BlockProcess_record].
    - LevelDB as a whole: reads see exactly the writes that have returned
      ([reads_see_returned_writes]), snapshots do not change
      ([snapshot_reads_stable]), a crash at any point and any byte of the log keeps a
      prefix with everything that was on disk ([crash_recovery]), a waiting writer
      can finish while there is room in level 0 ([writers_progress]), the law that the
      program uses, for every schedule ([get_put]), and an error that recovery loses
      ([recovery_error_lost]).
    - Its parts: [log_crash_recovery] and [ReadRecord_terminates] for log files,
      [skiplist_sorted_set], [memtable_get_newest], [batch_roundtrip] and
      [damaged_batch_refused], [block_iterates] and [block_seek] for blocks of
      tables, [filter_block_no_false_negative] and [bloom_no_false_negative],
      [index_keys_between], [coding_roundtrip], [Extend_is_crc32c], for both
      implementations of the checksum ([win_Extend_is_Extend]), and
      [checksum_detects_byte].
    - Its files: a table file answers searches ([table_get]); a version answers with the
      newest write ([version_get_newest]); a table in memory becomes a file of a version
      ([flush_refines]); so the levels of files keep the laws that the database relies on,
      as long as the formats can hold the tables ([level_tables_laws]); this is durable ([compact_memtable_durable]); the descriptor
      survives crashes ([manifest_crash_recovery]) and failures of the environment
      ([log_and_apply_failure]); one builder does for many edits
      ([edits_in_one_builder]); [version_edit_roundtrip] and [file_names_parsed].
    - Its iterators: no client can tell the merging iterator from one over the sorted
      union ([merging_iterator_merges]), nor the iterator of the database from one over
      the keys and values that searches find ([database_iterator_shows_newest]).
    - Snappy: decompression of any text stays inside its arrays and does what the
      format says ([uncompress_meaning], [uncompress_iovec], [uncompress_string]), the
      validator agrees ([valid_iff_uncompressed], but see [valid_but_refused]);
      compression stays inside arrays of [MaxCompressedLength] bytes and writes a text
      that means its input ([compress_meaning], [snappy_roundtrip]), whichever machine
      finds the matches ([match_length_longest]); a compressed block of a table is safe
      to read ([block_uncompress_safe]); the C interface ([c_interface_status]).  The
      length of a literal is computed in 32 bits, so that the longest one counts as
      empty ([longest_literal_empty]).
    - Transactions: [TransactionProcess_inv], [_ledger], [_outputs], [_fee];
      entities: merging, fresh entities, aggregates, and the invariant between
      the tables ([input_entity_mysql_merges], [_inv], [output_entity_mysql_fresh],
      [_known], [update_entity_mysql_aggregates]).
    - Hash functions: [computeSHA256_correct], [sha256_update_pieces],
      [computeRIPEMD160_correct], [compress_unrolled_correct].
    - Parsing: [read_transaction_roundtrip], [readVarLen_roundtrip], and the
      addresses of scripts ([outAddress_standard], [_total], [_last_offset]).
    - Text: Base58 and address round trips with their limits, time texts that sort
      like times and follow the calendar.
    - Statistics: the report that [statistical] writes, the distributions as
      partitions, and three defects of it; the tables of months and block files.

    ** What is not modelled

    Of LevelDB: the caches of tables and blocks, the compaction of tables with the
    scores and seek counts that start it, the two-level iterators of tables and versions
    (the iterators of Merger.v and DbIter.v go over any lawful ones), the status of
    iterators, obsolete files, the environments of the platforms (files do not fail,
    except that the creation of a log and the calls of [LogAndApply] may), readers that
    walk a skip list while it grows, the memory estimate of the arena (a parameter), the
    C interface, tests and benchmarks.  Of Snappy: sinks other than arrays, tests and
    benchmarks.  The test of the package Crc32C.

    Of the program: Txprocess.h, the [main] of an
    earlier version whose headers are not in the repository; [fast_log] and
    [difficulty] of TransactionProcess.h, which compute the difficulty column in
    floating point; [start_database], which opens the databases; output to the
    console and to the log file (except the events for undecodable scripts), and
    [printHash] and [printAddress], which only print; the parts of Statistical.h
    that are inside comments.  Opening a text file is taken to succeed. *)
From Stdlib Require Import ZArith Lia.
From stdpp Require Import base tactics numbers list option sorting strings.
Open Scope Z_scope.

#[global] Arguments Nat.mul : simpl never.
#[global] Arguments Nat.div : simpl never.
#[global] Arguments Nat.modulo : simpl never.

(** ** Machine integers

    A [w]-bit unsigned integer of the C++ source is a [Z] in [0, 2^w); every
    operation writes out the reduction that the C++ type performs. *)

Definition w8 (x : Z) : Z := x mod 0x100.
Definition w16 (x : Z) : Z := x mod 0x1_0000.
Definition w32 (x : Z) : Z := x mod 0x1_0000_0000.
Definition w64 (x : Z) : Z := x mod 0x1_0000_0000_0000_0000.

Definition add32 (x y : Z) : Z := w32 (x + y).
Definition shl32 (x n : Z) : Z := w32 (Z.shiftl x n).
Definition not32 (x : Z) : Z := Z.lxor x 0xffff_ffff.

Declare Scope word_scope.
Delimit Scope word_scope with word.
Infix "+w" := add32 (at level 50, left associativity) : word_scope.
Infix "<<" := shl32 (at level 45, left associativity) : word_scope.
Infix ">>" := Z.shiftr (at level 45, left associativity) : word_scope.
Infix ".&" := Z.land (at level 46, left associativity) : word_scope.
Infix ".^" := Z.lxor (at level 47, left associativity) : word_scope.
Infix ".|" := Z.lor (at level 48, left associativity) : word_scope.
Notation "~w x" := (not32 x) (at level 35, right associativity) : word_scope.

Definition is8 (x : Z) : Prop := 0 <= x < 0x100.
Definition is32 (x : Z) : Prop := 0 <= x < 0x1_0000_0000.
Definition is64 (x : Z) : Prop := 0 <= x < 0x1_0000_0000_0000_0000.

(** Signed [int]s.  Arithmetic on them that overflows is undefined, and an unsigned value that
    is too large for one is assigned in an implementation-defined way: both are [None]. *)
Definition INT_MAX : Z := 2147483647.
Definition in_int (x : Z) : bool := (- 2 ^ 31 <=? x) && (x <? 2 ^ 31).
Definition as_int (x : Z) : option Z := if in_int x then Some x else None.

Create HintDb words discriminated.

Lemma is32_pow x : is32 x <-> 0 <= x < 2 ^ 32.
Proof. reflexivity. Qed.

Lemma is8_w8 x : is8 (w8 x).
Proof. unfold is8, w8. apply Z.mod_pos_bound. lia. Qed.

Lemma is32_w32 x : is32 (w32 x).
Proof. unfold is32, w32. apply Z.mod_pos_bound. lia. Qed.

Lemma is64_w64 x : is64 (w64 x).
Proof. unfold is64, w64. apply Z.mod_pos_bound. lia. Qed.

Lemma w8_small x : is8 x -> w8 x = x.
Proof. apply Z.mod_small. Qed.

Lemma w32_small x : is32 x -> w32 x = x.
Proof. apply Z.mod_small. Qed.

Lemma w64_small x : is64 x -> w64 x = x.
Proof. apply Z.mod_small. Qed.

Lemma in_int_spec x : in_int x = true <-> - 2 ^ 31 <= x <= INT_MAX.
Proof. unfold in_int, INT_MAX. rewrite andb_true_iff, Z.leb_le, Z.ltb_lt. lia. Qed.
Lemma as_int_Some x : - 2 ^ 31 <= x <= INT_MAX -> as_int x = Some x.
Proof. intros H. unfold as_int. by rewrite (proj2 (in_int_spec x) H). Qed.
Lemma as_int_inv x y : as_int x = Some y -> y = x /\ - 2 ^ 31 <= x <= INT_MAX.
Proof.
  unfold as_int. destruct (in_int x) eqn:E; [|done]. intros [= <-]. split; [done|]. by apply in_int_spec.
Qed.
Lemma is32_add x y : is32 (add32 x y).
Proof. apply is32_w32. Qed.

Lemma is32_shl x n : is32 (shl32 x n).
Proof. apply is32_w32. Qed.

(** A nonnegative number is below [2^n] exactly when its high bits are clear. *)
Lemma lt_pow2_testbit x n :
  0 <= x -> 0 <= n -> (x < 2 ^ n <-> forall i, n <= i -> Z.testbit x i = false).
Proof.
  intros Hx Hn. split.
  - intros Hlt i Hi. destruct (decide (x = 0)) as [->|Hne]; [apply Z.bits_0|].
    apply Z.bits_above_log2; [lia|].
    enough (Z.log2 x < n) by lia. apply Z.log2_lt_pow2; lia.
  - intros Hb. destruct (decide (x = 0)) as [->|Hne]; [apply Z.pow_pos_nonneg; lia|].
    apply Z.log2_lt_pow2; [lia|].
    destruct (decide (Z.log2 x < n)) as [|Hge]; [done|].
    specialize (Hb (Z.log2 x) ltac:(lia)). rewrite Z.bit_log2 in Hb by lia. done.
Qed.

Lemma is32_testbit x :
  is32 x <-> 0 <= x /\ forall i, 32 <= i -> Z.testbit x i = false.
Proof.
  rewrite is32_pow. split.
  - intros [H1 H2]. split; [done|]. apply lt_pow2_testbit; lia.
  - intros [H1 H2]. split; [done|]. apply lt_pow2_testbit; [lia..|done].
Qed.

Lemma is32_lor x y : is32 x -> is32 y -> is32 (Z.lor x y).
Proof.
  rewrite !is32_testbit. intros [Hx1 Hx2] [Hy1 Hy2]. split.
  - by apply Z.lor_nonneg.
  - intros i Hi. by rewrite Z.lor_spec, Hx2, Hy2.
Qed.

Lemma is32_land x y : is32 x -> is32 y -> is32 (Z.land x y).
Proof.
  rewrite !is32_testbit. intros [Hx1 Hx2] [Hy1 Hy2]. split.
  - apply Z.land_nonneg. by left.
  - intros i Hi. by rewrite Z.land_spec, Hx2, Hy2.
Qed.

Lemma is32_lxor x y : is32 x -> is32 y -> is32 (Z.lxor x y).
Proof.
  rewrite !is32_testbit. intros [Hx1 Hx2] [Hy1 Hy2]. split.
  - apply Z.lxor_nonneg. lia.
  - intros i Hi. by rewrite Z.lxor_spec, Hx2, Hy2.
Qed.

Lemma is32_not x : is32 x -> is32 (not32 x).
Proof. intros H. apply is32_lxor; [done|]. unfold is32. lia. Qed.

Lemma is32_shiftr x n : 0 <= n -> is32 x -> is32 (Z.shiftr x n).
Proof.
  intros Hn. rewrite !is32_testbit. intros [Hx1 Hx2]. split.
  - by apply Z.shiftr_nonneg.
  - intros i Hi. rewrite Z.shiftr_spec by lia. apply Hx2. lia.
Qed.

#[export] Hint Resolve is8_w8 is32_w32 is64_w64 is32_add is32_shl is32_lor
  is32_land is32_lxor is32_not is32_shiftr : words.
#[export] Hint Extern 1 (is32 (Zpos _)) => (unfold is32; lia) : words.
#[export] Hint Extern 1 (is32 0) => (unfold is32; lia) : words.
#[export] Hint Extern 1 (_ <= _) => lia : words.

(** Modular addition is associative and commutative, and absorbs an inner
    reduction: the lemmas that normalise the sums of the hash rounds. *)
Lemma add32_comm x y : add32 x y = add32 y x.
Proof. unfold add32. by rewrite Z.add_comm. Qed.

Lemma add32_assoc x y z : add32 x (add32 y z) = add32 (add32 x y) z.
Proof.
  unfold add32, w32. rewrite Zplus_mod_idemp_r, Zplus_mod_idemp_l.
  f_equal. lia.
Qed.

Lemma w32_add_l x y : w32 (w32 x + y) = w32 (x + y).
Proof. apply Zplus_mod_idemp_l. Qed.

Lemma w32_add_r x y : w32 (x + w32 y) = w32 (x + y).
Proof. apply Zplus_mod_idemp_r. Qed.

Lemma add32_is_w32 x y : w32 (add32 x y) = add32 x y.
Proof. apply w32_small, is32_add. Qed.

(** Disjoint bit fields: [lxor] and [lor] with a shifted value are a sum. *)
Lemma land_shiftl_disjoint x y n :
  0 <= n -> 0 <= x < 2 ^ n -> Z.land x (Z.shiftl y n) = 0.
Proof.
  intros Hn Hx. apply Z.bits_inj'. intros i Hi. rewrite Z.land_spec, Z.bits_0.
  destruct (decide (i < n)).
  - rewrite Z.shiftl_spec_low by lia. by rewrite andb_false_r.
  - rewrite (proj1 (lt_pow2_testbit x n (proj1 Hx) Hn)); [done|lia..].
Qed.

Lemma lxor_shiftl_add x y n :
  0 <= n -> 0 <= x < 2 ^ n -> Z.lxor x (Z.shiftl y n) = x + y * 2 ^ n.
Proof.
  intros Hn Hx. rewrite <- Z.shiftl_mul_pow2 by done.
  symmetry. by apply Z.add_nocarry_lxor, land_shiftl_disjoint.
Qed.

Lemma lor_shiftl_add x y n :
  0 <= n -> 0 <= x < 2 ^ n -> Z.lor x (Z.shiftl y n) = x + y * 2 ^ n.
Proof.
  intros Hn Hx. rewrite <- lxor_shiftl_add by done.
  symmetry. by apply Z.lxor_lor, land_shiftl_disjoint.
Qed.

Lemma not32_spec x i : 0 <= i -> is32 x -> Z.testbit (not32 x) i = (i <? 32) && negb (Z.testbit x i).
Proof.
  intros Hi Hx. unfold not32. rewrite Z.lxor_spec.
  change 0xffff_ffff with (Z.ones 32). destruct (Z.ltb_spec i 32).
  - rewrite Z.ones_spec_low by lia. by rewrite xorb_true_r.
  - rewrite Z.ones_spec_high by lia. apply is32_testbit in Hx as [_ Hx]. by rewrite Hx.
Qed.

Lemma w32_land x : w32 x = Z.land x 0xffff_ffff.
Proof. change 0xffff_ffff with (Z.ones 32). by rewrite Z.land_ones by lia. Qed.

Lemma w32_lor x y : w32 (Z.lor x y) = Z.lor (w32 x) (w32 y).
Proof. rewrite !w32_land. apply Z.land_lor_distr_l. Qed.

Lemma shl32_lor x y n : shl32 (Z.lor x y) n = Z.lor (shl32 x n) (shl32 y n).
Proof. unfold shl32. by rewrite Z.shiftl_lor, w32_lor. Qed.

(** Bitwise equality goals on 32-bit words: compare every bit, where [not32]
    needs its argument to be a word. *)
Ltac bitwise :=
  apply Z.bits_inj'; let i := fresh "i" in let Hi := fresh "Hi" in intros i Hi;
  repeat first
    [ rewrite Z.lor_spec | rewrite Z.land_spec | rewrite Z.lxor_spec
    | rewrite Z.shiftr_spec by lia | rewrite not32_spec by done ];
  repeat match goal with
  | H : is32 ?x |- context [Z.testbit ?x i] =>
      let Hb := fresh "Hb" in
      pose proof (proj2 (proj1 (is32_testbit x) H) i) as Hb; clear H;
      destruct (Z.testbit x i)
  end;
  destruct (Z.ltb_spec i 32); simpl; try done;
  repeat match goal with Hb : 32 <= i -> _ |- _ => specialize (Hb ltac:(lia)) end; try done.

(** ** Bytes and little-endian numbers

    Memory is a list of bytes; the program runs on a little-endian host, so a
    [memcpy] into an integer reads [le_val] and one out of it writes
    [le_bytes]. *)

Definition bytes (l : list Z) : Prop := Forall is8 l.

Fixpoint le_val (l : list Z) : Z :=
  match l with
  | [] => 0
  | b :: l' => b + 0x100 * le_val l'
  end.

Fixpoint le_bytes (n : nat) (z : Z) : list Z :=
  match n with
  | O => []
  | S n' => z mod 0x100 :: le_bytes n' (z / 0x100)
  end.

Lemma length_le_bytes n z : length (le_bytes n z) = n.
Proof. revert z. induction n as [|n IH]; intros z; simpl; [done|]. by rewrite IH. Qed.

Lemma bytes_le_bytes n z : bytes (le_bytes n z).
Proof.
  revert z. induction n as [|n IH]; intros z; constructor; [apply is8_w8|apply IH].
Qed.

Lemma le_val_le_bytes n z : le_val (le_bytes n z) = z mod 0x100 ^ Z.of_nat n.
Proof.
  revert z. induction n as [|n IH]; intros z; cbn [le_bytes le_val].
  - by rewrite Z.mod_1_r.
  - rewrite IH, Nat2Z.inj_succ, Z.pow_succ_r by lia.
    rewrite Z.rem_mul_r by lia. lia.
Qed.

Lemma le_val_bound l : bytes l -> 0 <= le_val l < 0x100 ^ Z.of_nat (length l).
Proof.
  induction 1 as [|b l Hb Hl IH]; cbn [le_val length]; [simpl; lia|].
  unfold is8 in Hb. rewrite Nat2Z.inj_succ, Z.pow_succ_r by lia. lia.
Qed.

Lemma le_bytes_le_val n l : bytes l -> length l = n -> le_bytes n (le_val l) = l.
Proof.
  intros Hl <-. induction Hl as [|b l Hb Hl IH]; cbn [le_val le_bytes length]; [done|].
  unfold is8 in Hb. f_equal.
  - rewrite Z.mul_comm, Z_mod_plus_full. apply Z.mod_small. lia.
  - rewrite Z.mul_comm, Z.div_add by lia. rewrite Z.div_small by lia. done.
Qed.

Lemma le_val_app l1 l2 :
  le_val (l1 ++ l2) = le_val l1 + 0x100 ^ Z.of_nat (length l1) * le_val l2.
Proof.
  induction l1 as [|b l1 IH]; cbn [le_val app length]; [simpl; lia|].
  rewrite IH, Nat2Z.inj_succ, Z.pow_succ_r by lia. lia.
Qed.

Lemma le_val_inj l1 l2 :
  bytes l1 -> bytes l2 -> length l1 = length l2 -> le_val l1 = le_val l2 -> l1 = l2.
Proof.
  intros H1 H2 Hlen Heq.
  by rewrite <- (le_bytes_le_val (length l1) l1), Heq, le_bytes_le_val.
Qed.

Lemma le_bytes_app n m z :
  le_bytes (n + m) z = le_bytes n z ++ le_bytes m (z / 0x100 ^ Z.of_nat n).
Proof.
  revert z. induction n as [|n IH]; intros z; cbn [le_bytes app Nat.add].
  - by rewrite Z.div_1_r.
  - rewrite IH, Nat2Z.inj_succ, Z.pow_succ_r, Z.div_div by lia. done.
Qed.

Lemma le_bytes_8 z : le_bytes 8 z = le_bytes 4 z ++ le_bytes 4 (z / 0x1_0000_0000).
Proof. exact (le_bytes_app 4 4 z). Qed.

Lemma le_bytes_mod n z : le_bytes n (z mod 0x100 ^ Z.of_nat n) = le_bytes n z.
Proof.
  rewrite <- le_val_le_bytes.
  apply le_bytes_le_val; [apply bytes_le_bytes|apply length_le_bytes].
Qed.

Lemma bytes_app l1 l2 : bytes (l1 ++ l2) <-> bytes l1 /\ bytes l2.
Proof. apply Forall_app. Qed.

Lemma bytes_cons b l : bytes (b :: l) <-> is8 b /\ bytes l.
Proof. split; [by inversion 1|intros [??]; by constructor]. Qed.

Lemma bytes_nil : bytes [].
Proof. by apply Forall_nil. Qed.

Lemma bytes_1 b : is8 b -> bytes [b].
Proof. intros H. by constructor. Qed.

Lemma bytes_take n l : bytes l -> bytes (take n l).
Proof. apply Forall_take. Qed.

Lemma bytes_drop n l : bytes l -> bytes (drop n l).
Proof. apply Forall_drop. Qed.

Lemma bytes_replicate n : bytes (replicate n 0).
Proof. apply Forall_replicate. unfold is8. lia. Qed.

#[export] Hint Resolve bytes_nil bytes_1 bytes_take bytes_drop bytes_replicate bytes_le_bytes : words.

Lemma bytes_flat_map {A} (f : A -> list Z) l :
  (forall x, bytes (f x)) -> bytes (flat_map f l).
Proof. intros Hf. induction l as [|x l IH]; simpl; [apply bytes_nil|]. by apply bytes_app. Qed.

(** Big-endian readings are the little-endian ones of the reversed bytes. *)
Definition be_val (l : list Z) : Z := le_val (reverse l).
Definition be_bytes (n : nat) (z : Z) : list Z := reverse (le_bytes n z).

Lemma length_be_bytes n z : length (be_bytes n z) = n.
Proof. unfold be_bytes. by rewrite length_reverse, length_le_bytes. Qed.

Lemma bytes_be_bytes n z : bytes (be_bytes n z).
Proof. unfold be_bytes, bytes. rewrite Forall_reverse. apply bytes_le_bytes. Qed.

#[export] Hint Resolve bytes_be_bytes : words.

(** ** Splitting memory into chunks *)

Fixpoint chunks (k n : nat) (l : list Z) : list (list Z) :=
  match n with
  | O => []
  | S n' => take k l :: chunks k n' (drop k l)
  end.

Lemma length_chunks k n l : length (chunks k n l) = n.
Proof. revert l. induction n as [|n IH]; intros l; simpl; [done|]. by rewrite IH. Qed.

Lemma chunks_app k n m l1 l2 :
  length l1 = (n * k)%nat -> chunks k (n + m) (l1 ++ l2) = chunks k n l1 ++ chunks k m l2.
Proof.
  revert l1. induction n as [|n IH]; intros l1 Hl; simpl in *.
  - by destruct l1.
  - rewrite take_app_le, drop_app_le by lia. f_equal. apply IH.
    rewrite length_drop. lia.
Qed.

Lemma lookup_chunks k n l i :
  (i < n)%nat -> chunks k n l !! i = Some (take k (drop (i * k) l)).
Proof.
  revert l i. induction n as [|n IH]; intros l [|i] Hi; simpl; try lia; [done|].
  rewrite IH by lia. by rewrite drop_drop.
Qed.

Lemma chunks_prefix k n l m :
  (n * k <= length l)%nat -> chunks k n (l ++ m) = chunks k n l.
Proof.
  revert l. induction n as [|n IH]; intros l Hl; simpl; [done|].
  rewrite take_app_le, drop_app_le by lia. f_equal. apply IH. rewrite length_drop. lia.
Qed.

Lemma chunks_snoc k n l : chunks k (S n) l = chunks k n l ++ [take k (drop (n * k) l)].
Proof.
  revert l. induction n as [|n IH]; intros l; [done|].
  change (chunks k (S (S n)) l) with (take k l :: chunks k (S n) (drop k l)).
  rewrite IH, drop_drop. done.
Qed.

(** [nth]-style reads used for C arrays whose index is known to be in range. *)
Definition nthZ (l : list Z) (i : Z) : Z := default 0 (l !! Z.to_nat i).

Lemma nthZ_lookup l i x : l !! Z.to_nat i = Some x -> nthZ l i = x.
Proof. unfold nthZ. by intros ->. Qed.

Lemma w32_shiftl_byte b n : is8 b -> 0 <= n <= 24 -> w32 (Z.shiftl b n) = Z.shiftl b n.
Proof.
  intros Hb Hn. apply w32_small. unfold is8, is32 in *.
  rewrite Z.shiftl_mul_pow2 by lia.
  pose proof (Z.pow_le_mono_r 2 n 24 ltac:(lia) ltac:(lia)).
  pose proof (Z.pow_pos_nonneg 2 n ltac:(lia) ltac:(lia)).
  change (2 ^ 24) with 0x100_0000 in *. nia.
Qed.

Lemma le_val_zeros n : le_val (replicate n 0) = 0.
Proof. induction n as [|n IH]; simpl; lia. Qed.

Lemma le_val_app_zeros l n : le_val (l ++ replicate n 0) = le_val l.
Proof. rewrite le_val_app, le_val_zeros. lia. Qed.

(** Reading past a run of zeros sees only zeros. *)
Lemma take_drop_zeros a b m l :
  (b + a <= m)%nat -> take a (drop b (replicate m 0 ++ l)) = replicate a (0 : Z).
Proof.
  intros H. rewrite drop_app_le by (rewrite length_replicate; lia).
  rewrite take_app_le by (rewrite length_drop, length_replicate; lia).
  rewrite drop_replicate, take_replicate. f_equal. lia.
Qed.

(** The value of an aligned window does not see the zero padding after it. *)
Lemma le_val_window k n q m l :
  (n + k <= length q + m)%nat ->
  le_val (take k (drop n (q ++ replicate m 0 ++ l))) = le_val (take k (drop n q)).
Proof.
  intros H. rewrite drop_app, take_app, take_drop_zeros.
  - apply le_val_app_zeros.
  - rewrite length_drop. lia.
Qed.

Lemma nth_seq_map {A} (f : nat -> A) n k :
  (k < n)%nat -> map f (seq 0 n) !! k = Some (f k).
Proof. intros H. rewrite list_lookup_fmap, lookup_seq_lt by done. done. Qed.

Lemma map_nthZ_seq h : map (fun i : nat => nthZ h (Z.of_nat i)) (seq 0 (length h)) = h.
Proof.
  apply list_eq_same_length with (length h); [done|by rewrite length_map, length_seq|].
  intros i x y Hi Hx Hy. rewrite nth_seq_map in Hx by done. injection Hx as <-.
  apply nthZ_lookup. by rewrite Nat2Z.id.
Qed.

(** The 16 words of a 64-byte block, as a little-endian host loads them (a
    short block reads as if it were followed by zeros). *)
Definition le_words (block : list Z) : list Z :=
  map (fun k : nat => le_val (take 4 (drop (4 * k) block))) (seq 0 16).

Lemma length_le_words p : length (le_words p) = 16%nat.
Proof. unfold le_words. by rewrite length_map, length_seq. Qed.

Lemma lookup_le_words p k :
  (k < 16)%nat -> le_words p !! k = Some (le_val (take 4 (drop (4 * k) p))).
Proof. intros Hk. unfold le_words. by rewrite nth_seq_map. Qed.

Lemma nthZ_le_words p k :
  (k < 16)%nat -> nthZ (le_words p) (Z.of_nat k) = le_val (take 4 (drop (4 * k) p)).
Proof. intros Hk. apply nthZ_lookup. rewrite Nat2Z.id. by apply lookup_le_words. Qed.

(** Sorted lists, by position. *)
Lemma sorted_lookup {A} (R : A -> A -> Prop) l i j x y :
  StronglySorted R l -> (i < j)%nat -> l !! i = Some x -> l !! j = Some y -> R x y.
Proof.
  intros Hs Hij Hx Hy. rewrite <- (take_drop_middle l i x Hx) in Hs. apply StronglySorted_app_1_r in Hs.
  apply StronglySorted_cons in Hs as [Hs _]. rewrite Forall_forall in Hs. apply Hs.
  apply (list_elem_of_lookup_2 _ (j - S i)). rewrite lookup_drop. by replace (S i + (j - S i))%nat with j by lia.
Qed.

Lemma sorted_of_lookup {A} (R : A -> A -> Prop) l :
  (forall i j x y, (i < j)%nat -> l !! i = Some x -> l !! j = Some y -> R x y) -> StronglySorted R l.
Proof.
  induction l as [|x l IH]; intros Hl; constructor.
  - apply IH. intros i j y z Hij Hi Hj. by apply (Hl (S i) (S j)); [lia|..].
  - apply Forall_lookup. intros i y Hi. by apply (Hl 0%nat (S i)); [lia|..].
Qed.

Lemma sorted_strict {A} (R R' : A -> A -> Prop) l :
  StronglySorted R l -> (forall x y, x ∈ l -> y ∈ l -> R x y -> R' x y) -> StronglySorted R' l.
Proof.
  intros Hs Himp. apply sorted_of_lookup. intros i j x y Hij Hx Hy.
  apply Himp; [by eapply list_elem_of_lookup_2..|]. by apply (sorted_lookup R l i j).
Qed.

Lemma sorted_filter {A} (R : A -> A -> Prop) (P : A -> Prop) `{!forall x, Decision (P x)} l :
  StronglySorted R l -> StronglySorted R (filter P l).
Proof.
  induction 1 as [|x l Hl IH Hx]; [constructor|]. rewrite filter_cons. destruct (decide (P x)); [|done]. constructor; [done|].
  rewrite Forall_forall in *. intros y [_ Hy]%list_elem_of_filter. by apply Hx.
Qed.

(** Lists in a strict order are given by their elements. *)
Lemma sorted_ext {A} (R : A -> A -> Prop) l1 l2 :
  (forall x, ~ R x x) -> Transitive R -> StronglySorted R l1 -> StronglySorted R l2 -> (forall x, x ∈ l1 <-> x ∈ l2) -> l1 = l2.
Proof.
  intros Hirr Htr H1 H2 He.
  assert (forall l, StronglySorted R l -> NoDup l) as Hnd.
  { induction 1 as [|x l Hl IH Hx]; constructor; [|done]. intros Hin. rewrite Forall_forall in Hx. by apply (Hirr x), Hx. }
  apply (StronglySorted_unique_strong R); [|done|done|by apply NoDup_Permutation; auto].
  intros x y _ _ Hxy Hyx. destruct (Hirr x). by apply (Htr x y).
Qed.

(** Concatenation of texts. *)
Lemma append_assoc (a b c : string) : (a +:+ b) +:+ c = a +:+ (b +:+ c).
Proof.
  induction a as [|x a IH]; [done|].
  change (String x ((a +:+ b) +:+ c) = String x (a +:+ (b +:+ c))). by rewrite IH.
Qed.

Lemma append_nil_r (a : string) : a +:+ EmptyString = a.
Proof.
  induction a as [|x a IH]; [done|].
  change (String x (a +:+ EmptyString) = String x a). by rewrite IH.
Qed.

#[global] Arguments le_val : simpl never.
#[global] Arguments le_bytes : simpl never.
