(* ===== verification/MerkleDamgard.v ===== *)
(** * The Merkle-Damgard construction

    SHA-256 and RIPEMD-160 (namespaces [BLOCKCHAIN_SHA256] and
    [BLOCKCHAIN_RIPEMD160] of src/BitcoinAnalysis/hash.h) are both iterated
    hash functions over 64-byte blocks.  This file states what such a function
    is, as a class: a chaining state, a compression function of one block, the
    byte order of the length field and the output encoding.  [md_hash] is the
    specification both implementations are proved to compute. *)
From S2P Require Import Prelude.
From stdpp Require Import list.
Open Scope Z_scope.

Class BlockHash (St : Type) := {
  md_iv : St;
  md_compress : St -> list Z -> St;
  md_length_field : Z -> list Z;
  md_output : St -> list Z;
  md_length_field_8 : forall n, length (md_length_field n) = 8%nat
}.

Section md.
Context {St : Type} `{!BlockHash St}.

(** Absorb [n] blocks of 64 bytes. *)
Definition md_absorb (n : nat) (h : St) (l : list Z) : St :=
  foldl md_compress h (chunks 64 n l).

(** The number of zero bytes between the 0x80 marker and the length field. *)
Definition md_zeros (len : nat) : nat := ((119 - len mod 64) mod 64)%nat.

Definition md_pad (msg : list Z) : list Z :=
  msg ++ [0x80] ++ replicate (md_zeros (length msg)) 0
      ++ md_length_field (8 * Z.of_nat (length msg)).

Definition md_hash (msg : list Z) : list Z :=
  md_output (md_absorb (length (md_pad msg) / 64) md_iv (md_pad msg)).

Lemma md_zeros_spec len : ((len + 1 + md_zeros len + 8) mod 64 = 0)%nat.
Proof.
  unfold md_zeros.
  pose proof (Nat.mod_upper_bound len 64 ltac:(lia)) as Hb.
  pose proof (Nat.div_mod_eq len 64) as Hd.
  set (r := (len mod 64)%nat) in *. set (q := (len / 64)%nat) in *.
  destruct (decide (r <= 55)%nat).
  - replace (119 - r)%nat with ((55 - r) + 1 * 64)%nat by lia.
    rewrite Nat.Div0.mod_add, (Nat.mod_small (55 - r)) by lia.
    replace (len + 1 + (55 - r) + 8)%nat with ((q + 1) * 64)%nat by lia.
    apply Nat.Div0.mod_mul.
  - rewrite (Nat.mod_small (119 - _)) by lia.
    replace (len + 1 + (119 - r) + 8)%nat with ((q + 2) * 64)%nat by lia.
    apply Nat.Div0.mod_mul.
Qed.

Lemma md_zeros_cases n :
  md_zeros n = if decide (n mod 64 <= 55)%nat then (55 - n mod 64)%nat
               else (119 - n mod 64)%nat.
Proof.
  unfold md_zeros. pose proof (Nat.mod_upper_bound n 64 ltac:(lia)).
  case_decide; [|by rewrite Nat.mod_small by lia].
  replace (119 - n mod 64)%nat with (55 - n mod 64 + 1 * 64)%nat by lia.
  by rewrite Nat.Div0.mod_add, Nat.mod_small by lia.
Qed.

Lemma length_md_pad msg :
  length (md_pad msg) = (length msg + 1 + md_zeros (length msg) + 8)%nat.
Proof.
  unfold md_pad. rewrite !length_app, length_replicate, md_length_field_8. simpl. lia.
Qed.

(** The padded message is a whole number of blocks. *)
Lemma md_pad_blocks msg : length (md_pad msg) = (length (md_pad msg) / 64 * 64)%nat.
Proof.
  pose proof (md_zeros_spec (length msg)) as Hz. rewrite <- length_md_pad in Hz.
  pose proof (Nat.div_mod_eq (length (md_pad msg)) 64). lia.
Qed.

Lemma md_absorb_app n m h l1 l2 :
  length l1 = (n * 64)%nat ->
  md_absorb (n + m) h (l1 ++ l2) = md_absorb m (md_absorb n h l1) l2.
Proof. intros Hl. unfold md_absorb. by rewrite chunks_app, foldl_app. Qed.

Lemma md_absorb_1 h l : length l = 64%nat -> md_absorb 1 h l = md_compress h l.
Proof. intros Hl. unfold md_absorb. simpl. by rewrite take_ge by lia. Qed.

Lemma md_absorb_prefix n h l m :
  (n * 64 <= length l)%nat -> md_absorb n h (l ++ m) = md_absorb n h l.
Proof. intros Hl. unfold md_absorb. by rewrite chunks_prefix. Qed.

Lemma md_absorb_S n h l :
  md_absorb (S n) h l = md_absorb n (md_compress h (take 64 l)) (drop 64 l).
Proof. done. Qed.

Lemma md_absorb_snoc n h l :
  md_absorb (S n) h l = md_compress (md_absorb n h l) (take 64 (drop (n * 64) l)).
Proof. unfold md_absorb. rewrite chunks_snoc, foldl_app. done. Qed.

(** The specification in the form the implementations meet it: any way to cut
    the padded message into whole blocks gives its hash. *)
Lemma md_hash_unfold msg n :
  length (md_pad msg) = (n * 64)%nat ->
  md_hash msg = md_output (md_absorb n md_iv (md_pad msg)).
Proof. intros Hn. unfold md_hash. by rewrite Hn, Nat.div_mul by lia. Qed.
End md.
