(* ===== verification/Ripemd160.v ===== *)
(** * RIPEMD-160: namespace BLOCKCHAIN_RIPEMD160 of src/BitcoinAnalysis/hash.h

    The unrolled compression function is transcribed step by step (module
    [Impl]); the specification ([Spec]) is the one of the RIPEMD-160 paper, by
    the permutations rho and pi and the table of shifts.  [compress_spec] shows
    the two agree, [md_finish_spec] that [MDfinish] pads the way the
    Merkle-Damgard construction asks, and [ripemd160_correct] that
    [computeRIPEMD160] computes the specified hash of the first [length] bytes
    of its message. *)
From S2P Require Import Prelude MerkleDamgard.
From stdpp Require Import list numbers.
Open Scope Z_scope.
Open Scope word_scope.

Module RIPEMD160.

(** ** The implementation *)

Definition BYTES_TO_DWORD (strptr : list Z) : Z :=
  (nthZ strptr 3 << 24) .| (nthZ strptr 2 << 16) .| (nthZ strptr 1 << 8) .| nthZ strptr 0.

Definition ROL (x n : Z) : Z := (x << n) .| (x >> (32 - n)).

(** The five basic functions. *)
Definition F (x y z : Z) : Z := x .^ y .^ z.
Definition G (x y z : Z) : Z := (x .& y) .| (~w x .& z).
Definition H (x y z : Z) : Z := (x .| ~w y) .^ z.
Definition I (x y z : Z) : Z := (x .& z) .| (y .& ~w z).
Definition J (x y z : Z) : Z := x .^ (y .| ~w z).

(** The working variables: [aa] to [ee] of the left line, which the source
    names [aaa] to [eee] on the parallel line. *)
Inductive reg := aa | bb | cc | dd | ee.
Abbreviation aaa := aa (only parsing).
Abbreviation bbb := bb (only parsing).
Abbreviation ccc := cc (only parsing).
Abbreviation ddd := dd (only parsing).
Abbreviation eee := ee (only parsing).

Record regs := Regs { v_aa : Z; v_bb : Z; v_cc : Z; v_dd : Z; v_ee : Z }.

Definition get (v : reg) (r : regs) : Z :=
  match v with
  | aa => v_aa r | bb => v_bb r | cc => v_cc r | dd => v_dd r | ee => v_ee r
  end.

Definition set (v : reg) (x : Z) (r : regs) : regs :=
  let '(Regs a b c d e) := r in
  match v with
  | aa => Regs x b c d e | bb => Regs a x c d e | cc => Regs a b x d e
  | dd => Regs a b c x e | ee => Regs a b c d x
  end.

(** The ten macros [FF] to [JJJ]: what each adds to its first argument. *)
Inductive macro := mFF | mGG | mHH | mII | mJJ | mFFF | mGGG | mHHH | mIII | mJJJ.

Definition macro_sum (m : macro) (b c d x : Z) : Z :=
  match m with
  | mFF => F b c d +w x
  | mGG => G b c d +w x +w 0x5a82_7999
  | mHH => H b c d +w x +w 0x6ed9_eba1
  | mII => I b c d +w x +w 0x8f1b_bcdc
  | mJJ => J b c d +w x +w 0xa953_fd4e
  | mFFF => F b c d +w x
  | mGGG => G b c d +w x +w 0x7a6d_76e9
  | mHHH => H b c d +w x +w 0x6d70_3ef3
  | mIII => I b c d +w x +w 0x5c4d_d124
  | mJJJ => J b c d +w x +w 0x50a2_8be6
  end.

Record step := Step {
  st_macro : macro; st_a : reg; st_b : reg; st_c : reg; st_d : reg; st_e : reg;
  st_word : Z; st_shift : Z }.

Definition FF := Step mFF.
Definition GG := Step mGG.
Definition HH := Step mHH.
Definition II := Step mII.
Definition JJ := Step mJJ.
Definition FFF := Step mFFF.
Definition GGG := Step mGGG.
Definition HHH := Step mHHH.
Definition III := Step mIII.
Definition JJJ := Step mJJJ.

(** One macro call, statement by statement. *)
Definition exec_step (X : list Z) (r : regs) (st : step) : regs :=
  let r := set (st_a st)
             (get (st_a st) r +w
              macro_sum (st_macro st) (get (st_b st) r) (get (st_c st) r)
                        (get (st_d st) r) (nthZ X (st_word st))) r in
  let r := set (st_a st) (ROL (get (st_a st) r) (st_shift st) +w get (st_e st) r) r in
  set (st_c st) (ROL (get (st_c st) r) 10) r.

Definition round1 : list step :=
  [ FF aa bb cc dd ee 0 11;
    FF ee aa bb cc dd 1 14;
    FF dd ee aa bb cc 2 15;
    FF cc dd ee aa bb 3 12;
    FF bb cc dd ee aa 4 5;
    FF aa bb cc dd ee 5 8;
    FF ee aa bb cc dd 6 7;
    FF dd ee aa bb cc 7 9;
    FF cc dd ee aa bb 8 11;
    FF bb cc dd ee aa 9 13;
    FF aa bb cc dd ee 10 14;
    FF ee aa bb cc dd 11 15;
    FF dd ee aa bb cc 12 6;
    FF cc dd ee aa bb 13 7;
    FF bb cc dd ee aa 14 9;
    FF aa bb cc dd ee 15 8 ].

Definition round2 : list step :=
  [ GG ee aa bb cc dd 7 7;
    GG dd ee aa bb cc 4 6;
    GG cc dd ee aa bb 13 8;
    GG bb cc dd ee aa 1 13;
    GG aa bb cc dd ee 10 11;
    GG ee aa bb cc dd 6 9;
    GG dd ee aa bb cc 15 7;
    GG cc dd ee aa bb 3 15;
    GG bb cc dd ee aa 12 7;
    GG aa bb cc dd ee 0 12;
    GG ee aa bb cc dd 9 15;
    GG dd ee aa bb cc 5 9;
    GG cc dd ee aa bb 2 11;
    GG bb cc dd ee aa 14 7;
    GG aa bb cc dd ee 11 13;
    GG ee aa bb cc dd 8 12 ].

Definition round3 : list step :=
  [ HH dd ee aa bb cc 3 11;
    HH cc dd ee aa bb 10 13;
    HH bb cc dd ee aa 14 6;
    HH aa bb cc dd ee 4 7;
    HH ee aa bb cc dd 9 14;
    HH dd ee aa bb cc 15 9;
    HH cc dd ee aa bb 8 13;
    HH bb cc dd ee aa 1 15;
    HH aa bb cc dd ee 2 14;
    HH ee aa bb cc dd 7 8;
    HH dd ee aa bb cc 0 13;
    HH cc dd ee aa bb 6 6;
    HH bb cc dd ee aa 13 5;
    HH aa bb cc dd ee 11 12;
    HH ee aa bb cc dd 5 7;
    HH dd ee aa bb cc 12 5 ].

Definition round4 : list step :=
  [ II cc dd ee aa bb 1 11;
    II bb cc dd ee aa 9 12;
    II aa bb cc dd ee 11 14;
    II ee aa bb cc dd 10 15;
    II dd ee aa bb cc 0 14;
    II cc dd ee aa bb 8 15;
    II bb cc dd ee aa 12 9;
    II aa bb cc dd ee 4 8;
    II ee aa bb cc dd 13 9;
    II dd ee aa bb cc 3 14;
    II cc dd ee aa bb 7 5;
    II bb cc dd ee aa 15 6;
    II aa bb cc dd ee 14 8;
    II ee aa bb cc dd 5 6;
    II dd ee aa bb cc 6 5;
    II cc dd ee aa bb 2 12 ].

Definition round5 : list step :=
  [ JJ bb cc dd ee aa 4 9;
    JJ aa bb cc dd ee 0 15;
    JJ ee aa bb cc dd 5 5;
    JJ dd ee aa bb cc 9 11;
    JJ cc dd ee aa bb 7 6;
    JJ bb cc dd ee aa 12 8;
    JJ aa bb cc dd ee 2 13;
    JJ ee aa bb cc dd 10 12;
    JJ dd ee aa bb cc 14 5;
    JJ cc dd ee aa bb 1 12;
    JJ bb cc dd ee aa 3 13;
    JJ aa bb cc dd ee 8 14;
    JJ ee aa bb cc dd 11 11;
    JJ dd ee aa bb cc 6 8;
    JJ cc dd ee aa bb 15 5;
    JJ bb cc dd ee aa 13 6 ].

Definition parallel_round1 : list step :=
  [ JJJ aaa bbb ccc ddd eee 5 8;
    JJJ eee aaa bbb ccc ddd 14 9;
    JJJ ddd eee aaa bbb ccc 7 9;
    JJJ ccc ddd eee aaa bbb 0 11;
    JJJ bbb ccc ddd eee aaa 9 13;
    JJJ aaa bbb ccc ddd eee 2 15;
    JJJ eee aaa bbb ccc ddd 11 15;
    JJJ ddd eee aaa bbb ccc 4 5;
    JJJ ccc ddd eee aaa bbb 13 7;
    JJJ bbb ccc ddd eee aaa 6 7;
    JJJ aaa bbb ccc ddd eee 15 8;
    JJJ eee aaa bbb ccc ddd 8 11;
    JJJ ddd eee aaa bbb ccc 1 14;
    JJJ ccc ddd eee aaa bbb 10 14;
    JJJ bbb ccc ddd eee aaa 3 12;
    JJJ aaa bbb ccc ddd eee 12 6 ].

Definition parallel_round2 : list step :=
  [ III eee aaa bbb ccc ddd 6 9;
    III ddd eee aaa bbb ccc 11 13;
    III ccc ddd eee aaa bbb 3 15;
    III bbb ccc ddd eee aaa 7 7;
    III aaa bbb ccc ddd eee 0 12;
    III eee aaa bbb ccc ddd 13 8;
    III ddd eee aaa bbb ccc 5 9;
    III ccc ddd eee aaa bbb 10 11;
    III bbb ccc ddd eee aaa 14 7;
    III aaa bbb ccc ddd eee 15 7;
    III eee aaa bbb ccc ddd 8 12;
    III ddd eee aaa bbb ccc 12 7;
    III ccc ddd eee aaa bbb 4 6;
    III bbb ccc ddd eee aaa 9 15;
    III aaa bbb ccc ddd eee 1 13;
    III eee aaa bbb ccc ddd 2 11 ].

Definition parallel_round3 : list step :=
  [ HHH ddd eee aaa bbb ccc 15 9;
    HHH ccc ddd eee aaa bbb 5 7;
    HHH bbb ccc ddd eee aaa 1 15;
    HHH aaa bbb ccc ddd eee 3 11;
    HHH eee aaa bbb ccc ddd 7 8;
    HHH ddd eee aaa bbb ccc 14 6;
    HHH ccc ddd eee aaa bbb 6 6;
    HHH bbb ccc ddd eee aaa 9 14;
    HHH aaa bbb ccc ddd eee 11 12;
    HHH eee aaa bbb ccc ddd 8 13;
    HHH ddd eee aaa bbb ccc 12 5;
    HHH ccc ddd eee aaa bbb 2 14;
    HHH bbb ccc ddd eee aaa 10 13;
    HHH aaa bbb ccc ddd eee 0 13;
    HHH eee aaa bbb ccc ddd 4 7;
    HHH ddd eee aaa bbb ccc 13 5 ].

Definition parallel_round4 : list step :=
  [ GGG ccc ddd eee aaa bbb 8 15;
    GGG bbb ccc ddd eee aaa 6 5;
    GGG aaa bbb ccc ddd eee 4 8;
    GGG eee aaa bbb ccc ddd 1 11;
    GGG ddd eee aaa bbb ccc 3 14;
    GGG ccc ddd eee aaa bbb 11 14;
    GGG bbb ccc ddd eee aaa 15 6;
    GGG aaa bbb ccc ddd eee 0 14;
    GGG eee aaa bbb ccc ddd 5 6;
    GGG ddd eee aaa bbb ccc 12 9;
    GGG ccc ddd eee aaa bbb 2 12;
    GGG bbb ccc ddd eee aaa 13 9;
    GGG aaa bbb ccc ddd eee 9 12;
    GGG eee aaa bbb ccc ddd 7 5;
    GGG ddd eee aaa bbb ccc 10 15;
    GGG ccc ddd eee aaa bbb 14 8 ].

Definition parallel_round5 : list step :=
  [ FFF bbb ccc ddd eee aaa 12 8;
    FFF aaa bbb ccc ddd eee 15 5;
    FFF eee aaa bbb ccc ddd 10 12;
    FFF ddd eee aaa bbb ccc 4 9;
    FFF ccc ddd eee aaa bbb 1 12;
    FFF bbb ccc ddd eee aaa 5 5;
    FFF aaa bbb ccc ddd eee 8 14;
    FFF eee aaa bbb ccc ddd 7 6;
    FFF ddd eee aaa bbb ccc 6 8;
    FFF ccc ddd eee aaa bbb 2 13;
    FFF bbb ccc ddd eee aaa 13 6;
    FFF aaa bbb ccc ddd eee 14 5;
    FFF eee aaa bbb ccc ddd 0 15;
    FFF ddd eee aaa bbb ccc 3 13;
    FFF ccc ddd eee aaa bbb 9 11;
    FFF bbb ccc ddd eee aaa 11 11 ].

Definition regs_of (MDbuf : list Z) : regs :=
  Regs (nthZ MDbuf 0) (nthZ MDbuf 1) (nthZ MDbuf 2) (nthZ MDbuf 3) (nthZ MDbuf 4).

Definition MDinit : list Z :=
  [0x6745_2301; 0xefcd_ab89; 0x98ba_dcfe; 0x1032_5476; 0xc3d2_e1f0].

Definition compress (MDbuf X : list Z) : list Z :=
  let l := foldl (exec_step X) (regs_of MDbuf)
             (round1 ++ round2 ++ round3 ++ round4 ++ round5) in
  let p := foldl (exec_step X) (regs_of MDbuf)
             (parallel_round1 ++ parallel_round2 ++ parallel_round3
              ++ parallel_round4 ++ parallel_round5) in
  let ddd' := get ddd p +w (get cc l +w nthZ MDbuf 1) in
  let MDbuf := <[1%nat := nthZ MDbuf 2 +w get dd l +w get eee p]> MDbuf in
  let MDbuf := <[2%nat := nthZ MDbuf 3 +w get ee l +w get aaa p]> MDbuf in
  let MDbuf := <[3%nat := nthZ MDbuf 4 +w get aa l +w get bbb p]> MDbuf in
  let MDbuf := <[4%nat := nthZ MDbuf 0 +w get bb l +w get ccc p]> MDbuf in
  <[0%nat := ddd']> MDbuf.

(** The loop of [MDfinish] that moves the remaining bytes into the words. *)
Fixpoint put_bytes (n : nat) (i : Z) (strptr X : list Z) : list Z :=
  match n with
  | O => X
  | S n' =>
      let X := <[Z.to_nat (i >> 2) :=
                 nthZ X (i >> 2) .^ (nthZ strptr 0 << (8 * (i .& 3)))]> X in
      put_bytes n' (i + 1) (drop 1 strptr) X
  end.

Definition MDfinish (MDbuf strptr : list Z) (lswlen mswlen : Z) : list Z :=
  let X := replicate 16 0 in
  let X := put_bytes (Z.to_nat (lswlen .& 63)) 0 strptr X in
  let w := (lswlen >> 2) .& 15 in
  let X := <[Z.to_nat w := nthZ X w .^ (1 << (8 * (lswlen .& 3) + 7))]> X in
  let '(MDbuf, X) :=
    if 55 <? lswlen .& 63 then (compress MDbuf X, replicate 16 0) else (MDbuf, X) in
  let X := <[14%nat := lswlen << 3]> X in
  let X := <[15%nat := (lswlen >> 29) .| (mswlen << 3)]> X in
  compress MDbuf X.

(** The loop over whole blocks of [computeRIPEMD160]; [fuel] bounds its
    iterations, and [length / 64 + 1] of them always reach its exit. *)
Fixpoint md_blocks (fuel : nat) (nbytes : Z) (message MDbuf : list Z) : list Z * list Z :=
  match fuel with
  | O => (message, MDbuf)
  | S fuel' =>
      if 63 <? nbytes then
        let X := map (fun i : nat => BYTES_TO_DWORD (drop (4 * i) message)) (seq 0 16) in
        md_blocks fuel' (nbytes - 64) (drop 64 message) (compress MDbuf X)
      else (message, MDbuf)
  end.

Definition word_out (w : Z) : list Z := [w8 w; w8 (w >> 8); w8 (w >> 16); w8 (w >> 24)].

Definition computeRIPEMD160 (message : list Z) (length : Z) : list Z :=
  let '(rest, MDbuf) := md_blocks (S (Z.to_nat (length / 64))) length message MDinit in
  let MDbuf := MDfinish MDbuf rest length 0 in
  flat_map (fun i : nat => word_out (nthZ MDbuf (Z.of_nat i))) (seq 0 5).

(** ** The specification

    RIPEMD-160 as published: line by line of 80 steps on (A, B, C, D, E), the
    message word of a step given by the permutations rho and pi, its rotation
    by the table of shifts, which depends on the round and the word only. *)

Definition rho (i : Z) : Z :=
  nthZ [7; 4; 13; 1; 10; 6; 15; 3; 12; 0; 9; 5; 2; 14; 11; 8] i.
Definition pi (i : Z) : Z := (9 * i + 5) mod 16.

Definition word_left (j : nat) : Z := Nat.iter (j / 16) rho (Z.of_nat (j mod 16)).
Definition word_right (j : nat) : Z := Nat.iter (j / 16) rho (pi (Z.of_nat (j mod 16))).

Definition shifts : list (list Z) :=
  [ [11; 14; 15; 12; 5; 8; 7; 9; 11; 13; 14; 15; 6; 7; 9; 8];
    [12; 13; 11; 15; 6; 9; 9; 7; 12; 15; 11; 13; 7; 8; 7; 7];
    [13; 15; 14; 11; 7; 7; 6; 8; 13; 14; 13; 12; 5; 5; 6; 9];
    [14; 11; 12; 14; 8; 6; 5; 5; 15; 12; 15; 14; 9; 9; 8; 6];
    [15; 12; 13; 13; 9; 5; 8; 6; 14; 11; 12; 11; 8; 6; 5; 5] ].
Definition shift_of (j : nat) (w : Z) : Z := nthZ (default [] (shifts !! (j / 16)%nat)) w.

Definition f_round (q : nat) : Z -> Z -> Z -> Z :=
  match q with 0 => F | 1 => G | 2 => H | 3 => I | _ => J end%nat.
Definition k_left (q : nat) : Z :=
  nthZ [0; 0x5a82_7999; 0x6ed9_eba1; 0x8f1b_bcdc; 0xa953_fd4e] (Z.of_nat q).
Definition k_right (q : nat) : Z :=
  nthZ [0x50a2_8be6; 0x5c4d_d124; 0x6d70_3ef3; 0x7a6d_76e9; 0] (Z.of_nat q).

Definition quint : Type := Z * Z * Z * Z * Z.

Definition spec_step (f : Z -> Z -> Z -> Z) (x k s : Z) (v : quint) : quint :=
  let '(A, B, C, D, E) := v in
  let T := ROL (A +w f B C D +w x +w k) s +w E in
  (E, T, B, ROL C 10, D).

Definition spec_left (X : list Z) (v : quint) (j : nat) : quint :=
  spec_step (f_round (j / 16)) (nthZ X (word_left j)) (k_left (j / 16))
            (shift_of j (word_left j)) v.
Definition spec_right (X : list Z) (v : quint) (j : nat) : quint :=
  spec_step (f_round (4 - j / 16)) (nthZ X (word_right j)) (k_right (j / 16))
            (shift_of j (word_right j)) v.

Definition spec_compress (h X : list Z) : list Z :=
  let v := (nthZ h 0, nthZ h 1, nthZ h 2, nthZ h 3, nthZ h 4) in
  let '(A, B, C, D, E) := foldl (spec_left X) v (seq 0 80) in
  let '(A', B', C', D', E') := foldl (spec_right X) v (seq 0 80) in
  [ nthZ h 1 +w C +w D'; nthZ h 2 +w D +w E'; nthZ h 3 +w E +w A';
    nthZ h 4 +w A +w B'; nthZ h 0 +w B +w C' ].

#[local] Instance ripemd160 : BlockHash (list Z) := {
  md_iv := MDinit;
  md_compress h block := spec_compress h (le_words block);
  md_length_field n := le_bytes 8 n;
  md_output h := flat_map (fun i : nat => le_bytes 4 (nthZ h (Z.of_nat i))) (seq 0 5);
  md_length_field_8 n := length_le_bytes 8 n
}.

Definition ripemd160_spec (msg : list Z) : list Z := md_hash msg.

(** ** The unrolled rounds follow the specification *)

(** The variable that plays the role of the [k]-th of (A, B, C, D, E) at step
    [j]: the source renames the variables instead of moving their values. *)
Definition role (k j : nat) : reg :=
  default aa ([aa; bb; cc; dd; ee] !! ((k + 4 * j) mod 5)%nat).
Definition view (j : nat) (r : regs) : quint :=
  (get (role 0 j) r, get (role 1 j) r, get (role 2 j) r, get (role 3 j) r,
   get (role 4 j) r).

Definition macro_left (q : nat) : macro :=
  match q with 0 => mFF | 1 => mGG | 2 => mHH | 3 => mII | _ => mJJ end%nat.
Definition macro_right (q : nat) : macro :=
  match q with 0 => mJJJ | 1 => mIII | 2 => mHHH | 3 => mGGG | _ => mFFF end%nat.

Definition gen_step (m : nat -> macro) (w : nat -> Z) (j : nat) : step :=
  Step (m (j / 16)%nat) (role 0 j) (role 1 j) (role 2 j) (role 3 j) (role 4 j)
       (w j) (shift_of j (w j)).

Lemma left_line_generated :
  round1 ++ round2 ++ round3 ++ round4 ++ round5
  = map (gen_step macro_left word_left) (seq 0 80).
Proof. vm_compute. reflexivity. Qed.

Lemma right_line_generated :
  parallel_round1 ++ parallel_round2 ++ parallel_round3 ++ parallel_round4
    ++ parallel_round5
  = map (gen_step macro_right word_right) (seq 0 80).
Proof. vm_compute. reflexivity. Qed.

Lemma macro_left_sum q b c d x :
  (q < 5)%nat -> macro_sum (macro_left q) b c d x = f_round q b c d +w x +w k_left q.
Proof.
  intros Hq. destruct q as [|[|[|[|[|q]]]]]; try lia; try reflexivity.
  cbn. unfold add32 at 2. by rewrite Z.add_0_r, add32_is_w32.
Qed.

Lemma macro_right_sum q b c d x :
  (q < 5)%nat ->
  macro_sum (macro_right q) b c d x = f_round (4 - q) b c d +w x +w k_right q.
Proof.
  intros Hq. destruct q as [|[|[|[|[|q]]]]]; try lia; try reflexivity.
  cbn. unfold add32 at 2. by rewrite Z.add_0_r, add32_is_w32.
Qed.

Lemma role_period k j : role k (j + 5) = role k j.
Proof.
  unfold role. do 2 f_equal.
  replace (k + 4 * (j + 5))%nat with ((k + 4 * j) + 4 * 5)%nat by lia.
  apply Nat.Div0.mod_add.
Qed.

(** One macro call with the variables in the roles of step [j] is one step of
    the specification, and leaves them in the roles of step [j + 1]. *)
Lemma exec_step_view j X r m f k w s :
  (forall b c d x, macro_sum m b c d x = f b c d +w x +w k) ->
  view (S j)
    (exec_step X r (Step m (role 0 j) (role 1 j) (role 2 j) (role 3 j) (role 4 j) w s))
  = spec_step f (nthZ X w) k s (view j r).
Proof.
  intros Hm. revert r.
  induction j as [j IH] using lt_wf_ind. intros r.
  destruct (decide (j < 5)%nat) as [Hj|Hj].
  - destruct r as [a b c d e].
    do 5 (destruct j as [|j];
      [cbv -[macro_sum add32 ROL nthZ]; rewrite Hm, !add32_assoc; reflexivity|]). lia.
  - replace j with ((j - 5) + 5)%nat by lia. rewrite <- Nat.add_succ_l.
    unfold view. rewrite !role_period. apply IH. lia.
Qed.

Lemma exec_line_view X m f k w n r :
  (forall q b c d x, (q < 5)%nat -> macro_sum (m q) b c d x = f q b c d +w x +w k q) ->
  (n <= 80)%nat ->
  view n (foldl (exec_step X) r (map (gen_step m w) (seq 0 n)))
  = foldl (fun v j => spec_step (f (j / 16)%nat) (nthZ X (w j)) (k (j / 16)%nat)
                        (shift_of j (w j)) v) (view 0 r) (seq 0 n).
Proof.
  intros Hm. induction n as [|n IH]; intros Hn; [done|].
  rewrite seq_S, map_app, !foldl_app. cbn [map foldl]. rewrite Nat.add_0_l.
  rewrite <- IH by lia.
  apply (exec_step_view n X _ (m (n / 16)%nat) (f (n / 16)%nat) (k (n / 16)%nat)).
  intros. apply Hm. apply Nat.Div0.div_lt_upper_bound. lia.
Qed.

Lemma compress_spec h X : length h = 5%nat -> compress h X = spec_compress h X.
Proof.
  intros Hh. do 5 (destruct h as [|? h]; [done|]). destruct h; [|done].
  unfold compress, spec_compress. rewrite left_line_generated, right_line_generated.
  match goal with |- context [regs_of ?l] => set (r := regs_of l) end.
  pose proof (exec_line_view X macro_left f_round k_left word_left 80 r
                macro_left_sum ltac:(lia)) as Hl.
  pose proof (exec_line_view X macro_right (fun q => f_round (4 - q)) k_right word_right
                80 r macro_right_sum ltac:(lia)) as Hr.
  match goal with |- context [foldl (spec_left X) ?v0] => change v0 with (view 0 r) end.
  unfold spec_left, spec_right. rewrite <- Hl, <- Hr.
  unfold view, role. cbn -[add32 exec_step seq map foldl get].
  rewrite (add32_comm (get dd _) (add32 _ _)), (add32_comm (get cc _)). done.
Qed.

(** ** Words and bytes *)

Lemma BYTES_TO_DWORD_le l :
  bytes l -> (4 <= length l)%nat -> BYTES_TO_DWORD l = le_val (take 4 l).
Proof.
  intros Hb Hl.
  destruct l as [|b0 [|b1 [|b2 [|b3 l]]]]; simpl in Hl; try lia.
  rewrite !bytes_cons in Hb.
  destruct Hb as (H0 & H1 & H2 & H3 & _).
  unfold BYTES_TO_DWORD, shl32, nthZ. simpl. rewrite take_0. cbv [le_val].
  rewrite !w32_shiftl_byte by (done || lia).
  unfold is8 in *.
  rewrite Z.lor_comm, (Z.lor_comm (Z.lor _ _) (Z.shiftl b1 8)), Z.lor_assoc.
  rewrite (lor_shiftl_add b0 b1 8) by lia.
  rewrite (Z.lor_comm (Z.shiftl b3 24)), Z.lor_assoc.
  rewrite (lor_shiftl_add _ b2 16) by lia.
  rewrite (lor_shiftl_add _ b3 24) by lia. lia.
Qed.

Lemma block_words message :
  bytes message -> (64 <= length message)%nat ->
  map (fun i : nat => BYTES_TO_DWORD (drop (4 * i) message)) (seq 0 16)
  = le_words (take 64 message).
Proof.
  intros Hb Hl. unfold le_words. apply list_fmap_ext. intros i x Hx.
  apply lookup_seq in Hx as [-> Hi].
  rewrite BYTES_TO_DWORD_le by (auto with words || (rewrite length_drop; lia)).
  rewrite skipn_firstn_comm, take_take. do 2 f_equal. lia.
Qed.

Lemma word_out_le w : word_out w = le_bytes 4 w.
Proof.
  unfold word_out, w8. cbv [le_bytes].
  rewrite !Z.shiftr_div_pow2, !Z.div_div by lia. done.
Qed.

(** Appending byte [b] after the bytes [p] of a block is the [xor] of
    [MDfinish] on word [length p / 4]. *)
Lemma words_snoc p b :
  bytes p -> is8 b -> (length p < 64)%nat ->
  <[ (length p / 4)%nat :=
     nthZ (le_words p) (Z.of_nat (length p / 4))
       .^ (b << (8 * Z.of_nat (length p mod 4))) ]> (le_words p)
  = le_words (p ++ [b]).
Proof.
  intros Hp Hb Hl.
  pose proof (Nat.div_mod_eq (length p) 4) as Hd.
  pose proof (Nat.mod_upper_bound (length p) 4 ltac:(lia)) as Hm.
  set (q := (length p / 4)%nat) in *. set (r := (length p mod 4)%nat) in *.
  apply list_eq_same_length with 16%nat;
    [apply length_le_words|by rewrite length_insert, length_le_words|].
  intros k x y Hk Hx Hy.
  rewrite lookup_le_words in Hy by done. injection Hy as <-.
  destruct (decide (k = q)) as [->|Hne].
  - rewrite list_lookup_insert_eq in Hx by (rewrite length_le_words; lia).
    injection Hx as <-.
    rewrite nthZ_le_words by done.
    rewrite drop_app_le by lia.
    rewrite (take_ge (_ ++ _)) by (rewrite length_app, length_drop; simpl; lia).
    rewrite (take_ge (drop _ _)) by (rewrite length_drop; lia).
    rewrite le_val_app, length_drop. change (le_val [b]) with (b + 0x100 * 0).
    replace (length p - 4 * q)%nat with r by lia.
    pose proof (le_val_bound (drop (4 * q) p) ltac:(auto with words)) as Hv.
    rewrite length_drop in Hv. replace (length p - 4 * q)%nat with r in Hv by lia.
    unfold shl32. rewrite w32_shiftl_byte by (done || lia).
    assert (0x100 ^ Z.of_nat r = 2 ^ (8 * Z.of_nat r)) as Hpow
      by (by rewrite Z.pow_mul_r by lia).
    rewrite Hpow in *. rewrite lxor_shiftl_add by lia. ring.
  - rewrite list_lookup_insert_ne in Hx by done.
    rewrite lookup_le_words in Hx by done. injection Hx as <-.
    destruct (decide (k < q)%nat).
    + rewrite drop_app_le, take_app_le by (rewrite ?length_drop; lia). done.
    + rewrite !drop_ge by (rewrite ?length_app; simpl; lia). done.
Qed.

Lemma words_pad q m : length q = (64 - m)%nat -> le_words (q ++ replicate m 0) = le_words q.
Proof.
  intros Hl. unfold le_words. apply list_fmap_ext. intros k ? [-> Hk]%lookup_seq.
  rewrite <- (app_nil_r (replicate m 0)). apply le_val_window. lia.
Qed.

(** The indices [MDfinish] computes with masks and shifts of the byte count. *)
Lemma mask_63 (n : nat) : Z.of_nat n .& 63 = Z.of_nat (n mod 64).
Proof. change 63 with (Z.ones 6). rewrite Z.land_ones by lia. by rewrite Nat2Z.inj_mod. Qed.

Lemma mask_3 (n : nat) : Z.of_nat n .& 3 = Z.of_nat (n mod 4).
Proof. change 3 with (Z.ones 2). rewrite Z.land_ones by lia. by rewrite Nat2Z.inj_mod. Qed.

Lemma shiftr_2 (n : nat) : Z.of_nat n >> 2 = Z.of_nat (n / 4).
Proof. rewrite Z.shiftr_div_pow2 by lia. by rewrite Nat2Z.inj_div. Qed.

Lemma word_index (n : nat) : (Z.of_nat n >> 2) .& 15 = Z.of_nat (n mod 64 / 4).
Proof.
  change 15 with (Z.ones 4). rewrite Z.land_ones, Z.shiftr_div_pow2 by lia.
  rewrite Nat2Z.inj_div, Nat2Z.inj_mod.
  change (Z.of_nat 64) with (4 * 16). change (Z.of_nat 4) with 4.
  rewrite Z.rem_mul_r by lia. change (2 ^ 4) with 16. change (2 ^ 2) with 4.
  rewrite (Z.add_comm _ (4 * _)), (Z.mul_comm 4), Z.div_add_l by lia.
  rewrite (Z.div_small (_ mod 4)) by (apply Z.mod_pos_bound; lia). lia.
Qed.

Lemma put_bytes_spec n p strptr :
  bytes p -> bytes strptr -> (n <= length strptr)%nat -> (length p + n <= 64)%nat ->
  put_bytes n (Z.of_nat (length p)) strptr (le_words p) = le_words (p ++ take n strptr).
Proof.
  revert p strptr. induction n as [|n IH]; intros p strptr Hp Hs Hn Hl.
  - by rewrite app_nil_r.
  - destruct strptr as [|b strptr]; [simpl in Hn; lia|].
    rewrite bytes_cons in Hs. destruct Hs as [Hb Hs].
    cbn [put_bytes]. rewrite shiftr_2, mask_3, Nat2Z.id.
    change (nthZ (b :: strptr) 0) with b.
    rewrite words_snoc by (done || lia).
    replace (Z.of_nat (length p) + 1) with (Z.of_nat (length (p ++ [b])))
      by (rewrite length_app; simpl; lia).
    change (drop 1 (b :: strptr)) with strptr.
    rewrite IH.
    + by rewrite <- app_assoc.
    + apply bytes_app. split; [done|]. by apply bytes_1.
    + done.
    + simpl in Hn. lia.
    + rewrite length_app. simpl. lia.
Qed.

Lemma words_nil : le_words [] = replicate 16 0.
Proof. reflexivity. Qed.

(** The words of a final block: the message words, then the two words of the
    bit length. *)
Lemma length_words_set q n :
  (length q <= 56)%nat -> 0 <= n < 0x2000_0000_0000_0000 ->
  <[15%nat := n / 0x2000_0000]> (<[14%nat := w32 (8 * n)]> (le_words q))
  = le_words (q ++ replicate (56 - length q) 0 ++ le_bytes 8 (8 * n)).
Proof.
  intros Hq Hn.
  apply list_eq_same_length with 16%nat;
    [apply length_le_words|by rewrite !length_insert, length_le_words|].
  intros k x y Hk Hx Hy. rewrite lookup_le_words in Hy by done. injection Hy as <-.
  destruct (decide (4 * k < 56)%nat).
  - rewrite !list_lookup_insert_ne, lookup_le_words in Hx by lia. injection Hx as <-.
    symmetry. apply le_val_window. lia.
  - rewrite (drop_app_ge _ (_ ++ _)), drop_app_ge by (rewrite ?length_replicate; lia).
    rewrite length_replicate.
    destruct (decide (k = 15)%nat) as [->|]; [|assert (k = 14%nat) as -> by lia].
    + rewrite list_lookup_insert_eq in Hx by (rewrite length_insert, length_le_words; lia).
      injection Hx as <-. replace (4 * 15 - length q - (56 - length q))%nat with 4%nat by lia.
      rewrite le_bytes_8, drop_app_length', take_ge by (rewrite ?length_le_bytes; lia).
      rewrite le_val_le_bytes. change 0x1_0000_0000 with (8 * 0x2000_0000).
      rewrite Z.div_mul_cancel_l by lia. symmetry. apply Z.mod_small. split.
      * apply Z.div_pos; lia.
      * apply Z.div_lt_upper_bound; lia.
    + rewrite list_lookup_insert_ne, list_lookup_insert_eq in Hx by (rewrite ?length_le_words; lia).
      injection Hx as <-. replace (4 * 14 - length q - (56 - length q))%nat with 0%nat by lia.
      rewrite drop_0, le_bytes_8, take_app_length' by (by rewrite length_le_bytes).
      rewrite le_val_le_bytes. reflexivity.
Qed.

Lemma length_spec_compress h X : length (spec_compress h X) = 5%nat.
Proof. unfold spec_compress. by repeat destruct (foldl _ _ _) as [[[[??]?]?]?]. Qed.

#[local] Arguments spec_compress : simpl never.
#[local] Arguments compress : simpl never.

Lemma md_compress_eq h block : md_compress h block = spec_compress h (le_words block).
Proof. reflexivity. Qed.

(** [MDfinish] absorbs the rest of the message and the padding. *)
Lemma md_finish_spec h strptr n :
  length h = 5%nat -> bytes strptr -> (n mod 64 <= length strptr)%nat ->
  Z.of_nat n < 0x1_0000_0000 ->
  MDfinish h strptr (Z.of_nat n) 0
  = md_absorb (if decide (n mod 64 <= 55)%nat then 1 else 2) h
      (take (n mod 64) strptr ++ [0x80] ++ replicate (md_zeros n) 0 ++ le_bytes 8 (8 * Z.of_nat n)).
Proof.
  intros Hh Hs Hl Hn. unfold MDfinish.
  pose proof (Nat.mod_upper_bound n 64 ltac:(lia)) as Hm.
  rewrite mask_63, mask_3, word_index, !Nat2Z.id, <- words_nil.
  rewrite (put_bytes_spec _ [] strptr) by (apply bytes_nil || done || (simpl; lia)).
  rewrite app_nil_l.
  assert (bytes (take (n mod 64) strptr)) as Hb by auto with words.
  assert (length (take (n mod 64) strptr) = (n mod 64)%nat) as Hr by (rewrite length_take; lia).
  revert Hb Hr. generalize (take (n mod 64) strptr) as rest. intros rest Hb Hr.
  assert (1 << (8 * Z.of_nat (n mod 4) + 7) = 0x80 << (8 * Z.of_nat (n mod 4))) as ->.
  { unfold shl32. rewrite (Z.add_comm _ 7). by rewrite <- Z.shiftl_shiftl by lia. }
  assert (n mod 4 = length rest mod 4)%nat as ->.
  { rewrite Hr, (Nat.div_mod_eq n 64) at 1.
    replace (64 * (n / 64) + n mod 64)%nat with (n mod 64 + (16 * (n / 64)) * 4)%nat by lia.
    apply Nat.Div0.mod_add. }
  rewrite <- Hr. rewrite words_snoc by (done || lia || (unfold is8; lia)).
  assert (Z.of_nat n << 3 = w32 (8 * Z.of_nat n)) as ->
    by (unfold shl32; rewrite Z.shiftl_mul_pow2 by lia; f_equal; lia).
  assert (Z.of_nat n >> 29 .| 0 << 3 = Z.of_nat n / 0x2000_0000) as ->
    by (rewrite Z.lor_0_r; by rewrite Z.shiftr_div_pow2 by lia).
  rewrite md_zeros_cases, <- Hr. case_decide as Hc;
    destruct (Z.ltb_spec 55 (Z.of_nat (length rest))); try lia.
  - rewrite length_words_set by (rewrite ?length_app; simpl; lia).
    rewrite compress_spec by done.
    replace (56 - length (rest ++ [0x80%Z]))%nat with (55 - length rest)%nat
      by (rewrite length_app; simpl; lia).
    rewrite md_absorb_1
      by (rewrite !length_app, length_replicate, length_le_bytes; simpl; lia).
    by rewrite md_compress_eq, <- app_assoc.
  - rewrite (compress_spec h) by done.
    rewrite (length_words_set []) by (simpl; lia).
    rewrite compress_spec by apply length_spec_compress.
    replace (119 - length rest)%nat with (63 - length rest + 56)%nat by lia.
    set (L := le_bytes 8 _). rewrite replicate_add, <- app_assoc.
    rewrite (app_assoc [0x80]), (app_assoc rest), (app_assoc rest).
    rewrite (md_absorb_app 1 1) by (rewrite !length_app, length_replicate; simpl; lia).
    rewrite !md_absorb_1
      by (unfold L; rewrite !length_app, ?length_replicate, ?length_le_bytes; simpl; lia).
    rewrite !md_compress_eq, (words_pad (rest ++ [0x80]))
      by (rewrite length_app; simpl; lia). done.
Qed.

(** The block loop absorbs every whole block, and its fuel is enough. *)
Lemma md_blocks_spec fuel n message h :
  (n / 64 < fuel)%nat -> bytes message -> (n <= length message)%nat -> length h = 5%nat ->
  md_blocks fuel (Z.of_nat n) message h
  = (drop (64 * (n / 64)) message, md_absorb (n / 64) h message)
  /\ length (md_absorb (n / 64) h message) = 5%nat.
Proof.
  revert n message h. induction fuel as [|fuel IH]; intros n message h Hf Hb Hn Hh; [lia|].
  cbn [md_blocks]. destruct (Z.ltb_spec 63 (Z.of_nat n)).
  - rewrite block_words, compress_spec by (done || lia).
    assert (n / 64 = S ((n - 64) / 64))%nat as Hd.
    { replace n with ((n - 64) + 1 * 64)%nat at 1 by lia. rewrite Nat.div_add; lia. }
    replace (Z.of_nat n - 64) with (Z.of_nat (n - 64)) by lia.
    destruct (IH (n - 64)%nat (drop 64 message) (spec_compress h (le_words (take 64 message))))
      as [IH1 IH2]; [lia|auto with words|rewrite length_drop; lia|apply length_spec_compress|].
    rewrite IH1, drop_drop, Hd.
    replace (64 + 64 * ((n - 64) / 64))%nat with (64 * S ((n - 64) / 64))%nat by lia.
    rewrite (md_absorb_S ((n - 64) / 64) h message), md_compress_eq. done.
  - rewrite Nat.div_small by lia. done.
Qed.

Lemma computeRIPEMD160_spec message n :
  bytes message -> (n <= length message)%nat -> Z.of_nat n < 0x1_0000_0000 ->
  computeRIPEMD160 message (Z.of_nat n) = ripemd160_spec (take n message).
Proof.
  intros Hb Hn Hlim. unfold computeRIPEMD160, ripemd160_spec.
  replace (Z.to_nat (Z.of_nat n / 64)) with (n / 64)%nat
    by (change 64 with (Z.of_nat 64); rewrite <- Nat2Z.inj_div; lia).
  destruct (md_blocks_spec (S (n / 64)) n message MDinit) as [-> Hh]; [done || lia..|].
  pose proof (Nat.div_mod_eq n 64) as Hd.
  rewrite md_finish_spec by (auto with words || (rewrite ?length_drop; lia)).
  set (h := md_absorb _ _ message) in *. set (k := if decide _ then _ else _).
  assert (md_pad (take n message) = take (64 * (n / 64)) message ++
    (take (n mod 64) (drop (64 * (n / 64)) message) ++ [0x80] ++
     replicate (md_zeros n) 0 ++ le_bytes 8 (8 * Z.of_nat n))) as Hpad.
  { unfold md_pad. rewrite length_take, Nat.min_l by done.
    rewrite (app_assoc (take (64 * _) _)), take_take_drop, <- Hd. done. }
  rewrite (md_hash_unfold _ (n / 64 + k)), Hpad, md_absorb_app.
  - rewrite <- (md_absorb_prefix (n / 64) _ (take _ message) (drop (64 * (n / 64)) message)),
      take_drop by (rewrite length_take; lia).
    apply flat_map_ext. intros i. apply word_out_le.
  - rewrite length_take. lia.
  - rewrite length_md_pad, length_take, Nat.min_l by done.
    rewrite md_zeros_cases. pose proof (Nat.mod_upper_bound n 64). unfold k.
    destruct (decide (n mod 64 <= 55)%nat); lia.
Qed.

(** ** Results *)

Definition digest_abc : list Z :=
  [0x8e; 0xb2; 0x08; 0xf7; 0xe0; 0x5d; 0x98; 0x7a; 0x9b; 0x04;
   0x4a; 0x8e; 0x98; 0xc6; 0xb0; 0x87; 0xf1; 0x5a; 0x0b; 0xfc].

Example ripemd160_abc : computeRIPEMD160 [0x61; 0x62; 0x63] 3 = digest_abc.
Proof. vm_compute. reflexivity. Qed.

Lemma length_computeRIPEMD160 message len : length (computeRIPEMD160 message len) = 20%nat.
Proof. unfold computeRIPEMD160. by destruct (md_blocks _ _ _ _). Qed.

Lemma bytes_computeRIPEMD160 message len : bytes (computeRIPEMD160 message len).
Proof.
  unfold computeRIPEMD160. destruct (md_blocks _ _ _ _).
  simpl. repeat (apply bytes_cons; split; [apply is8_w8|]). apply bytes_nil.
Qed.

(** C7: on any buffer of bytes and any byte count that fits in it and in the
    32-bit parameter, [computeRIPEMD160] returns the RIPEMD-160 hash, as
    published, of exactly the first [len] bytes: 20 bytes. *)
Theorem computeRIPEMD160_correct message len :
  bytes message -> 0 <= len <= Z.of_nat (length message) -> len < 0x1_0000_0000 ->
  computeRIPEMD160 message len = ripemd160_spec (take (Z.to_nat len) message)
  /\ length (computeRIPEMD160 message len) = 20%nat
  /\ bytes (computeRIPEMD160 message len).
Proof.
  intros Hb Hl Hlim. split; [|split].
  - rewrite <- (Z2Nat.id len) at 1 by lia. apply computeRIPEMD160_spec; [done|lia..].
  - apply length_computeRIPEMD160.
  - apply bytes_computeRIPEMD160.
Qed.

Lemma computeRIPEMD160_correct_witness :
  computeRIPEMD160 [0x61; 0x62; 0x63; 0x64] 3 = ripemd160_spec [0x61; 0x62; 0x63]
  /\ ripemd160_spec [0x61; 0x62; 0x63] = digest_abc.
Proof.
  split.
  - refine (proj1 (computeRIPEMD160_correct [0x61; 0x62; 0x63; 0x64] 3 _ _ _)).
    + repeat (apply bytes_cons; split; [unfold is8; lia|]). apply bytes_nil.
    + simpl. lia.
    + lia.
  - vm_compute. reflexivity.
Defined.

(** The 160 unrolled macro calls of [compress] and the final combination
    compute the published compression function, for every chaining value of
    five words and every block. *)
Theorem compress_unrolled_correct MDbuf X :
  length MDbuf = 5%nat -> compress MDbuf X = spec_compress MDbuf X.
Proof. apply compress_spec. Qed.

Lemma compress_unrolled_correct_witness :
  compress MDinit (seqZ 0 16) = spec_compress MDinit (seqZ 0 16)
  /\ nthZ (compress MDinit (seqZ 0 16)) 0 <> nthZ MDinit 0.
Proof.
  split.
  - apply (compress_unrolled_correct MDinit (seqZ 0 16)). reflexivity.
  - vm_compute. discriminate.
Defined.
End RIPEMD160.
