(* ===== verification/Sha256.v ===== *)
(** * SHA-256: namespace BLOCKCHAIN_SHA256 of src/BitcoinAnalysis/hash.h

    The implementation is the streaming one of the source: a context with a
    64-byte buffer, [sha256_update] which may be called with pieces of any
    length, [sha256_finalize] which pads through [sha256_update] and writes the
    digest.  The specification is FIPS 180-4.  The relation [absorbed] says
    which message a context has seen; [update_absorbed] shows that
    [sha256_update] extends it, whatever the pieces are, and
    [computeSHA256_spec] that the digest is the specified one. *)
From S2P Require Import Prelude MerkleDamgard.
From Stdlib Require Import Btauto.
From stdpp Require Import list numbers.
Open Scope Z_scope.
Open Scope word_scope.

Module SHA256.

(** ** The implementation *)

Definition ROTL (x n : Z) : Z := (x << n) .| (x >> (32 - n)).
Definition ROTR (x n : Z) : Z := (x >> n) .| (x << (32 - n)).

Definition Ch (x y z : Z) : Z := z .^ (x .& (y .^ z)).
Definition Maj (x y z : Z) : Z := (x .& (y .| z)) .| (y .& z).
Definition SIGMA0 (x : Z) : Z := ROTR x 2 .^ ROTR x 13 .^ ROTR x 22.
Definition SIGMA1 (x : Z) : Z := ROTR x 6 .^ ROTR x 11 .^ ROTR x 25.
Definition sigma0 (x : Z) : Z := ROTR x 7 .^ ROTR x 18 .^ (x >> 3).
Definition sigma1 (x : Z) : Z := ROTR x 17 .^ ROTR x 19 .^ (x >> 10).

Definition K : list Z :=
  [ 0x428a_2f98; 0x7137_4491; 0xb5c0_fbcf; 0xe9b5_dba5;
    0x3956_c25b; 0x59f1_11f1; 0x923f_82a4; 0xab1c_5ed5;
    0xd807_aa98; 0x1283_5b01; 0x2431_85be; 0x550c_7dc3;
    0x72be_5d74; 0x80de_b1fe; 0x9bdc_06a7; 0xc19b_f174;
    0xe49b_69c1; 0xefbe_4786; 0x0fc1_9dc6; 0x240c_a1cc;
    0x2de9_2c6f; 0x4a74_84aa; 0x5cb0_a9dc; 0x76f9_88da;
    0x983e_5152; 0xa831_c66d; 0xb003_27c8; 0xbf59_7fc7;
    0xc6e0_0bf3; 0xd5a7_9147; 0x06ca_6351; 0x1429_2967;
    0x27b7_0a85; 0x2e1b_2138; 0x4d2c_6dfc; 0x5338_0d13;
    0x650a_7354; 0x766a_0abb; 0x81c2_c92e; 0x9272_2c85;
    0xa2bf_e8a1; 0xa81a_664b; 0xc24b_8b70; 0xc76c_51a3;
    0xd192_e819; 0xd699_0624; 0xf40e_3585; 0x106a_a070;
    0x19a4_c116; 0x1e37_6c08; 0x2748_774c; 0x34b0_bcb5;
    0x391c_0cb3; 0x4ed8_aa4a; 0x5b9c_ca4f; 0x682e_6ff3;
    0x748f_82ee; 0x78a5_636f; 0x84c8_7814; 0x8cc7_0208;
    0x90be_fffa; 0xa450_6ceb; 0xbef9_a3f7; 0xc671_78f2 ].

(** The little-endian, compile-time branch of the byte swap macros. *)
Definition BYTESWAP (x : Z) : Z :=
  (ROTR x 8 .& 0xff00_ff00) .| (ROTL x 8 .& 0x00ff_00ff).

Definition _byteswap64 (x : Z) : Z :=
  let a := w32 (x >> 32) in
  let b := w32 x in
  w64 (Z.shiftl (BYTESWAP b) 32) .| BYTESWAP a.

Definition padding : list Z := 0x80 :: replicate 63 0.

Record sha256_ctx_t := Ctx {
  totalLength : Z;
  hash : list Z;
  bufferLength : Z;
  buffer : list Z }.

Definition sha256_init (sc : sha256_ctx_t) : sha256_ctx_t :=
  Ctx 0
    [ 0x6a09_e667; 0xbb67_ae85; 0x3c6e_f372; 0xa54f_f53a;
      0x510e_527f; 0x9b05_688c; 0x1f83_d9ab; 0x5be0_cd19 ]
    0 (buffer sc).

(** The second loop of [SHA256Guts]: the pointers W16, W15, W7 and W2 start at
    offsets 0, 1, 9 and 14 and advance with [i]. *)
Fixpoint expand (n : nat) (i : Z) (buf : list Z) : list Z :=
  match n with
  | O => buf
  | S n' =>
      expand n' (i + 1)
        (buf ++ [sigma1 (nthZ buf (14 + i)) +w nthZ buf (9 + i)
                 +w sigma0 (nthZ buf (1 + i)) +w nthZ buf i])
  end.

Record vars := Vars { va : Z; vb : Z; vc : Z; vd : Z; ve : Z; vf : Z; vg : Z; vh : Z }.

Definition DO_ROUND (W : list Z) (v : vars) (i : nat) : vars :=
  let '(Vars a b c d e f g h) := v in
  let t1 := h +w SIGMA1 e +w Ch e f g +w nthZ K (Z.of_nat i) +w nthZ W (Z.of_nat i) in
  let t2 := SIGMA0 a +w Maj a b c in
  let h := g in
  let g := f in
  let f := e in
  let e := d +w t1 in
  let d := c in
  let c := b in
  let b := a in
  let a := t1 +w t2 in
  Vars a b c d e f g h.

(** [SHA256Guts] on the 64 bytes that [cbuf] points to.  The calls of
    [DO_ROUND] are unrolled in the source (SHA256_UNROLL is 64). *)
Definition SHA256Guts (sc : sha256_ctx_t) (cbuf : list Z) : sha256_ctx_t :=
  let buf := map BYTESWAP (le_words cbuf) in
  let buf := expand 48 0 buf in
  let H := hash sc in
  let v := Vars (nthZ H 0) (nthZ H 1) (nthZ H 2) (nthZ H 3)
                (nthZ H 4) (nthZ H 5) (nthZ H 6) (nthZ H 7) in
  let '(Vars a b c d e f g h) := foldl (DO_ROUND buf) v (seq 0 64) in
  Ctx (totalLength sc)
    [ nthZ H 0 +w a; nthZ H 1 +w b; nthZ H 2 +w c; nthZ H 3 +w d;
      nthZ H 4 +w e; nthZ H 5 +w f; nthZ H 6 +w g; nthZ H 7 +w h ]
    (bufferLength sc) (buffer sc).

(** [memcpy] of [src] over [mem] at [off]. *)
Definition overwrite (mem : list Z) (off : nat) (src : list Z) : list Z :=
  take off mem ++ src ++ drop (off + length src) mem.

(** [memcpy] into the buffer with the two length updates that follow it. *)
Definition copy_in (sc : sha256_ctx_t) (data : list Z) (n : Z) : sha256_ctx_t :=
  Ctx (w64 (totalLength sc + w32 (n * 8))) (hash sc) (w32 (bufferLength sc + n))
    (overwrite (buffer sc) (Z.to_nat (bufferLength sc)) (take (Z.to_nat n) data)).

(** The [while (len > 63L)] loop; [fuel] bounds its iterations. *)
Fixpoint update_blocks (fuel : nat) (sc : sha256_ctx_t) (data : list Z) (len : Z)
  : sha256_ctx_t * list Z * Z :=
  match fuel with
  | O => (sc, data, len)
  | S fuel' =>
      if 63 <? len then
        let sc := Ctx (w64 (totalLength sc + 512)) (hash sc) (bufferLength sc) (buffer sc) in
        let sc := SHA256Guts sc (take 64 data) in
        update_blocks fuel' sc (drop 64 data) (len - 64)
      else (sc, data, len)
  end.

Definition sha256_update (sc : sha256_ctx_t) (data : list Z) (len : Z) : sha256_ctx_t :=
  let '(sc, data, len) :=
    if bufferLength sc =? 0 then (sc, data, len)
    else
      let bufferBytesLeft := w32 (64 - bufferLength sc) in
      let bytesToCopy := if len <? bufferBytesLeft then len else bufferBytesLeft in
      let sc := copy_in sc data bytesToCopy in
      let data := drop (Z.to_nat bytesToCopy) data in
      let len := len - bytesToCopy in
      if bufferLength sc =? 64 then
        let sc := SHA256Guts sc (buffer sc) in
        (Ctx (totalLength sc) (hash sc) 0 (buffer sc), data, len)
      else (sc, data, len) in
  let '(sc, data, len) := update_blocks (S (Z.to_nat (len / 64))) sc data len in
  if len =? 0 then sc else copy_in sc data len.

Definition sha256_finalize (sc : sha256_ctx_t) : list Z :=
  let bytesToPad := w32 (120 - bufferLength sc) in
  let bytesToPad := if 64 <? bytesToPad then bytesToPad - 64 else bytesToPad in
  let lengthPad := _byteswap64 (totalLength sc) in
  let sc := sha256_update sc padding bytesToPad in
  let sc := sha256_update sc (le_bytes 8 lengthPad) 8 in
  flat_map (fun i : nat => le_bytes 4 (BYTESWAP (nthZ (hash sc) (Z.of_nat i)))) (seq 0 8).

(** [computeSHA256] with [sc], its uninitialised local context, as an argument
    (all that survives [sha256_init] is its buffer). *)
Definition computeSHA256_on (sc : sha256_ctx_t) (input : list Z) (size : Z) : list Z :=
  sha256_finalize (sha256_update (sha256_init sc) input size).

(** The context is not read before it is written ([computeSHA256_spec]), so
    callers may take any content for it. *)
Definition computeSHA256 : list Z -> Z -> list Z :=
  computeSHA256_on (Ctx 0 [] 0 (replicate 64 0)).

(** ** The specification (FIPS 180-4, sections 4.1.2, 5.1.1 and 6.2.2) *)

Definition spec_Ch (x y z : Z) : Z := (x .& y) .^ (~w x .& z).
Definition spec_Maj (x y z : Z) : Z := (x .& y) .^ (x .& z) .^ (y .& z).

Definition spec_schedule (M : list Z) : list Z :=
  foldl (fun (W : list Z) (t : nat) =>
    W ++ [sigma1 (nthZ W (Z.of_nat t - 2)) +w nthZ W (Z.of_nat t - 7)
          +w sigma0 (nthZ W (Z.of_nat t - 15)) +w nthZ W (Z.of_nat t - 16)])
    M (seq 16 48).

Definition spec_round (W : list Z) (s : list Z) (t : nat) : list Z :=
  let T1 := nthZ s 7 +w SIGMA1 (nthZ s 4) +w spec_Ch (nthZ s 4) (nthZ s 5) (nthZ s 6)
            +w nthZ K (Z.of_nat t) +w nthZ W (Z.of_nat t) in
  let T2 := SIGMA0 (nthZ s 0) +w spec_Maj (nthZ s 0) (nthZ s 1) (nthZ s 2) in
  (T1 +w T2) :: take 3 s ++ (nthZ s 3 +w T1) :: take 3 (drop 4 s).

(** The 16 big-endian words of a block. *)
Definition be_words (block : list Z) : list Z :=
  map (fun k : nat => be_val (take 4 (drop (4 * k) block))) (seq 0 16).

Definition spec_compress (H block : list Z) : list Z :=
  zip_with add32 H (foldl (spec_round (spec_schedule (be_words block))) H (seq 0 64)).

Definition iv : list Z :=
  [ 0x6a09_e667; 0xbb67_ae85; 0x3c6e_f372; 0xa54f_f53a;
    0x510e_527f; 0x9b05_688c; 0x1f83_d9ab; 0x5be0_cd19 ].

#[local] Instance sha256 : BlockHash (list Z) := {
  md_iv := iv;
  md_compress := spec_compress;
  md_length_field n := be_bytes 8 n;
  md_output H := flat_map (be_bytes 4) H;
  md_length_field_8 n := length_be_bytes 8 n
}.

Definition sha256_spec (msg : list Z) : list Z := md_hash msg.

(** ** The compression function *)

Lemma Ch_spec x y z : is32 x -> is32 y -> is32 z -> Ch x y z = spec_Ch x y z.
Proof. intros Hx Hy Hz. unfold Ch, spec_Ch. bitwise. Qed.

Lemma Maj_spec x y z : is32 x -> is32 y -> is32 z -> Maj x y z = spec_Maj x y z.
Proof. intros Hx Hy Hz. unfold Maj, spec_Maj. bitwise. Qed.

Lemma expand_spec n k buf :
  expand n (Z.of_nat k) buf
  = foldl (fun (W : list Z) (t : nat) =>
      W ++ [sigma1 (nthZ W (Z.of_nat t - 2)) +w nthZ W (Z.of_nat t - 7)
            +w sigma0 (nthZ W (Z.of_nat t - 15)) +w nthZ W (Z.of_nat t - 16)])
      buf (seq (16 + k) n).
Proof.
  revert k buf. induction n as [|n IH]; intros k buf; [done|].
  cbn [expand seq foldl]. replace (Z.of_nat k + 1) with (Z.of_nat (S k)) by lia.
  rewrite IH, <- Nat.add_succ_r.
  replace (14 + Z.of_nat k) with (Z.of_nat (16 + k) - 2) by lia.
  replace (9 + Z.of_nat k) with (Z.of_nat (16 + k) - 7) by lia.
  replace (1 + Z.of_nat k) with (Z.of_nat (16 + k) - 15) by lia.
  by replace (Z.of_nat (16 + k) - 16) with (Z.of_nat k) by lia.
Qed.

Lemma expand_schedule M : expand 48 0 M = spec_schedule M.
Proof. exact (expand_spec 48 0 M). Qed.

Definition vars_list (v : vars) : list Z :=
  [va v; vb v; vc v; vd v; ve v; vf v; vg v; vh v].

Lemma DO_ROUND_spec W v i :
  Forall is32 (vars_list v) ->
  vars_list (DO_ROUND W v i) = spec_round W (vars_list v) i
  /\ Forall is32 (vars_list (DO_ROUND W v i)).
Proof.
  destruct v as [a b c d e f g h]. unfold vars_list. simpl. intros Hw.
  repeat match goal with H : Forall _ (_ :: _) |- _ => apply Forall_cons_1 in H as [? H] end.
  split.
  - rewrite Ch_spec, Maj_spec by done. reflexivity.
  - repeat (apply Forall_cons_2; [auto with words|]). apply Forall_nil_2.
Qed.

Lemma rounds_spec W v n :
  Forall is32 (vars_list v) ->
  vars_list (foldl (DO_ROUND W) v (seq 0 n)) = foldl (spec_round W) (vars_list v) (seq 0 n)
  /\ Forall is32 (vars_list (foldl (DO_ROUND W) v (seq 0 n))).
Proof.
  intros Hv. induction n as [|n [IH1 IH2]]; [done|].
  rewrite seq_S, !foldl_app. simpl.
  destruct (DO_ROUND_spec W _ n IH2) as [E ?]. split; [by rewrite E, IH1|done].
Qed.

Definition good_state (h : list Z) : Prop := length h = 8%nat /\ Forall is32 h.

Lemma good_iv : good_state iv.
Proof. split; [done|]. by repeat constructor. Qed.

Lemma length_spec_round W s t : length s = 8%nat -> length (spec_round W s t) = 8%nat.
Proof. intros Hs. by do 9 (destruct s as [|? s]; try done). Qed.

Lemma is32_zip_add l k : Forall is32 (zip_with add32 l k).
Proof.
  revert k. induction l as [|x l IH]; intros [|y k]; simpl; constructor; [|done].
  apply is32_add.
Qed.

Lemma good_spec_compress h block : length h = 8%nat -> good_state (spec_compress h block).
Proof.
  intros Hh. split; [|apply is32_zip_add]. unfold spec_compress.
  generalize (spec_schedule (be_words block)) as W. intros W.
  assert (forall n, length (foldl (spec_round W) h (seq 0 n)) = 8%nat) as Hn.
  { induction n as [|n IH]; [done|]. rewrite seq_S, foldl_app.
    by apply length_spec_round. }
  rewrite length_zip_with, Hn. lia.
Qed.

(** ** Byte order: [BYTESWAP] of a little-endian word is the big-endian one *)

Lemma BYTESWAP_lor x y : BYTESWAP (x .| y) = BYTESWAP x .| BYTESWAP y.
Proof.
  unfold BYTESWAP, ROTR, ROTL. rewrite !shl32_lor, !Z.shiftr_lor.
  apply Z.bits_inj'. intros i Hi.
  repeat rewrite ?Z.lor_spec, ?Z.land_spec. btauto.
Qed.

(** By computation on the 256 values of a byte, at each of its four places. *)
Lemma BYTESWAP_byte b n :
  is8 b -> In n [0; 8; 16; 24] -> BYTESWAP (Z.shiftl b n) = Z.shiftl b (24 - n).
Proof.
  intros Hb Hn.
  assert (forallb (fun b : nat => forallb (fun n : Z =>
    BYTESWAP (Z.shiftl (Z.of_nat b) n) =? Z.shiftl (Z.of_nat b) (24 - n))
    [0; 8; 16; 24]) (seq 0 256) = true) as Hall by (vm_compute; reflexivity).
  rewrite forallb_forall in Hall. unfold is8 in Hb.
  specialize (Hall (Z.to_nat b) ltac:(apply in_seq; lia)). cbv beta in Hall.
  rewrite forallb_forall in Hall. specialize (Hall n Hn).
  rewrite Z2Nat.id in Hall by lia. by apply Z.eqb_eq in Hall.
Qed.

Lemma le_val4_lor b0 b1 b2 b3 :
  is8 b0 -> is8 b1 -> is8 b2 -> is8 b3 ->
  le_val [b0; b1; b2; b3]
  = Z.shiftl b0 0 .| Z.shiftl b1 8 .| Z.shiftl b2 16 .| Z.shiftl b3 24.
Proof.
  unfold is8. intros H0 H1 H2 H3. rewrite Z.shiftl_0_r.
  rewrite (lor_shiftl_add b0 b1 8), (lor_shiftl_add _ b2 16), (lor_shiftl_add _ b3 24) by lia.
  cbv [le_val]. lia.
Qed.

Lemma BYTESWAP_le_val l : bytes l -> length l = 4%nat -> BYTESWAP (le_val l) = be_val l.
Proof.
  intros Hb Hl. do 4 (destruct l as [|? l]; [done|]). destruct l; [|done].
  rewrite !bytes_cons in Hb. destruct Hb as (H0 & H1 & H2 & H3 & _).
  unfold be_val. change (reverse [z; z0; z1; z2]) with [z2; z1; z0; z].
  rewrite !le_val4_lor by done. rewrite !BYTESWAP_lor.
  rewrite !BYTESWAP_byte by (done || (simpl; tauto)).
  change (24 - 0) with 24. change (24 - 8) with 16. change (24 - 16) with 8.
  change (24 - 24) with 0.
  apply Z.bits_inj'. intros i Hi. rewrite !Z.lor_spec. btauto.
Qed.

Lemma le_bytes_BYTESWAP w : is32 w -> le_bytes 4 (BYTESWAP w) = be_bytes 4 w.
Proof.
  intros Hw. assert (w = le_val (le_bytes 4 w)) as Hval.
  { rewrite le_val_le_bytes. symmetry. by apply Z.mod_small. }
  rewrite Hval at 1. rewrite BYTESWAP_le_val by (auto with words || apply length_le_bytes).
  unfold be_val, be_bytes. apply le_bytes_le_val.
  - unfold bytes. rewrite Forall_reverse. apply bytes_le_bytes.
  - by rewrite length_reverse, length_le_bytes.
Qed.

Lemma is32_BYTESWAP w : is32 w -> is32 (BYTESWAP w).
Proof. intros Hw. unfold BYTESWAP, ROTR, ROTL. auto 10 with words. Qed.

Lemma le_bytes_byteswap64 x : is64 x -> le_bytes 8 (_byteswap64 x) = be_bytes 8 x.
Proof.
  intros Hx. unfold _byteswap64.
  set (a := w32 (x >> 32)). set (b := w32 x).
  assert (is32 (BYTESWAP a)) as Ha by apply is32_BYTESWAP, is32_w32.
  assert (is32 (BYTESWAP b)) as Hb by apply is32_BYTESWAP, is32_w32.
  unfold is32 in *.
  assert (w64 (Z.shiftl (BYTESWAP b) 32) = Z.shiftl (BYTESWAP b) 32) as ->.
  { apply w64_small. unfold is64. rewrite Z.shiftl_mul_pow2 by lia. lia. }
  rewrite Z.lor_comm, lor_shiftl_add by lia. change (2 ^ 32) with 0x1_0000_0000.
  rewrite le_bytes_8. rewrite Z.div_add, Z.div_small, Z.add_0_l by lia.
  rewrite <- (le_bytes_mod 4 (_ + _)). change (0x100 ^ Z.of_nat 4) with 0x1_0000_0000.
  rewrite Z_mod_plus_full, Z.mod_small by lia.
  rewrite !le_bytes_BYTESWAP by apply is32_w32.
  unfold be_bytes. rewrite le_bytes_8, reverse_app. f_equal.
  - f_equal. unfold a. rewrite Z.shiftr_div_pow2 by lia. unfold is64 in Hx.
    change (2 ^ 32) with 0x1_0000_0000. rewrite w32_small; [done|].
    unfold is32. split; [apply Z.div_pos|apply Z.div_lt_upper_bound]; lia.
  - f_equal. exact (le_bytes_mod 4 x).
Qed.
Lemma load_be_words block :
  bytes block -> length block = 64%nat -> map BYTESWAP (le_words block) = be_words block.
Proof.
  intros Hb Hl. unfold le_words, be_words. rewrite map_map. apply list_fmap_ext.
  intros k ? [-> Hk]%lookup_seq. apply BYTESWAP_le_val; [auto with words|].
  rewrite length_take, length_drop. lia.
Qed.

Lemma guts_spec sc block :
  good_state (hash sc) -> bytes block -> length block = 64%nat ->
  SHA256Guts sc block
  = Ctx (totalLength sc) (spec_compress (hash sc) block) (bufferLength sc) (buffer sc).
Proof.
  intros [Hh Hw] Hb Hl. unfold SHA256Guts, spec_compress. cbv zeta.
  rewrite load_be_words by done. rewrite expand_schedule.
  generalize (spec_schedule (be_words block)) as W. intros W.
  revert Hh Hw. generalize (hash sc) as h. intros h Hh Hw.
  do 8 (destruct h as [|? h]; [done|]). destruct h; [|done].
  match goal with |- context [foldl (DO_ROUND W) ?v0 _] => set (v := v0) end.
  destruct (rounds_spec W v 64 Hw) as [Hr _].
  change (foldl (spec_round W) _ _) with (foldl (spec_round W) (vars_list v) (seq 0 64)).
  rewrite <- Hr.
  by destruct (foldl (DO_ROUND W) v (seq 0 64)).
Qed.

(** ** The streaming interface *)

(** [absorbed sc m]: the context has been fed the message [m]; [q] whole blocks
    went through the compression function and the rest is in the buffer. *)
Record absorbed (sc : sha256_ctx_t) (m : list Z) (q : nat) : Prop := {
  abs_bytes : bytes m;
  abs_length : Z.of_nat (length m) = 64 * Z.of_nat q + bufferLength sc;
  abs_buffer_length : 0 <= bufferLength sc <= 64;
  abs_hash : hash sc = md_absorb q iv m;
  abs_buffer : take (Z.to_nat (bufferLength sc)) (buffer sc) = drop (q * 64) m;
  abs_buffer_size : length (buffer sc) = 64%nat;
  abs_total : totalLength sc = w64 (8 * Z.of_nat (length m)) }.

Lemma good_absorb q m : good_state (md_absorb q iv m).
Proof.
  induction q as [|q IH]; [apply good_iv|].
  rewrite md_absorb_snoc. apply good_spec_compress, IH.
Qed.

Lemma init_absorbed sc : length (buffer sc) = 64%nat -> absorbed (sha256_init sc) [] 0.
Proof. intros Hb. split; simpl; auto using bytes_nil; lia. Qed.

Lemma total_step n k x :
  x = w64 (8 * n) -> 0 <= k < 0x1000_0000 -> w64 (x + w32 (k * 8)) = w64 (8 * (n + k)).
Proof.
  intros -> Hk. rewrite (w32_small (k * 8)) by (unfold is32; lia).
  unfold w64. rewrite Zplus_mod_idemp_l. f_equal. lia.
Qed.

Lemma copy_in_absorbed sc m q data n :
  absorbed sc m q -> bytes data -> (n <= length data)%nat ->
  bufferLength sc + Z.of_nat n <= 64 ->
  absorbed (copy_in sc data (Z.of_nat n)) (m ++ take n data) q
  /\ bufferLength (copy_in sc data (Z.of_nat n)) = bufferLength sc + Z.of_nat n.
Proof.
  intros [Hm Hl Hbl Hh Hbuf Hsz Ht] Hd Hn Hfit.
  unfold copy_in. rewrite Nat2Z.id.
  assert (w32 (bufferLength sc + Z.of_nat n) = bufferLength sc + Z.of_nat n) as Hw
    by (apply w32_small; unfold is32; lia).
  split; [|exact Hw]. split; simpl; rewrite ?Hw.
  - apply bytes_app. auto with words.
  - rewrite length_app, length_take. lia.
  - lia.
  - rewrite Hh. symmetry. apply md_absorb_prefix. lia.
  - unfold overwrite. rewrite drop_app_le by lia. rewrite <- Hbuf.
    rewrite app_assoc, take_app_length'; [done|].
    rewrite length_app, !length_take. lia.
  - unfold overwrite. rewrite !length_app, !length_take, length_drop. lia.
  - rewrite length_app, length_take, Nat.min_l by lia.
    rewrite Nat2Z.inj_add. apply total_step; [done|lia].
Qed.
Lemma flush_absorbed sc m q :
  absorbed sc m q -> bufferLength sc = 64 ->
  let sc' := SHA256Guts sc (buffer sc) in
  absorbed (Ctx (totalLength sc') (hash sc') 0 (buffer sc')) m (S q).
Proof.
  intros [Hm Hl Hbl Hh Hbuf Hsz Ht] H64. cbv zeta.
  rewrite H64 in Hbuf. rewrite (take_ge (buffer sc)) in Hbuf by (rewrite Hsz; lia).
  rewrite guts_spec; [|rewrite Hh; apply good_absorb|rewrite Hbuf; auto with words|done].
  split; simpl; try done; try lia.
  - rewrite md_absorb_snoc, Hh, <- Hbuf. by rewrite (take_ge (buffer sc)) by lia.
  - rewrite drop_ge by lia. done.
Qed.

Lemma block_absorbed sc m q data :
  absorbed sc m q -> bufferLength sc = 0 -> bytes data -> (64 <= length data)%nat ->
  let sc' := SHA256Guts
    (Ctx (w64 (totalLength sc + 512)) (hash sc) (bufferLength sc) (buffer sc)) (take 64 data) in
  absorbed sc' (m ++ take 64 data) (S q) /\ bufferLength sc' = 0.
Proof.
  intros [Hm Hl Hbl Hh Hbuf Hsz Ht] H0 Hd H64. cbv zeta.
  rewrite guts_spec; simpl;
    [|rewrite Hh; apply good_absorb|auto with words|rewrite length_take; lia].
  split; [|done]. split; simpl; rewrite ?length_app, ?length_take; try done; try lia.
  - apply bytes_app. auto with words.
  - rewrite md_absorb_snoc, Hh, md_absorb_prefix by lia.
    rewrite drop_app_length' by lia. by rewrite take_take.
  - rewrite H0. rewrite drop_ge by (rewrite length_app, length_take; lia). done.
  - replace 512 with (w32 (64 * 8)) by done. rewrite Nat.min_l by lia.
    rewrite Nat2Z.inj_add. apply total_step; [done|lia].
Qed.

Lemma update_blocks_absorbed fuel n sc m q data :
  (n / 64 < fuel)%nat -> absorbed sc m q -> bufferLength sc = 0 -> bytes data ->
  (n <= length data)%nat ->
  exists sc' q',
    update_blocks fuel sc data (Z.of_nat n)
    = (sc', drop (64 * (n / 64)) data, Z.of_nat (n mod 64))
    /\ absorbed sc' (m ++ take (64 * (n / 64)) data) q' /\ bufferLength sc' = 0.
Proof.
  revert n sc m q data.
  induction fuel as [|fuel IH]; intros n sc m q data Hf Ha H0 Hd Hn; [lia|].
  cbn [update_blocks]. destruct (Z.ltb_spec 63 (Z.of_nat n)).
  - destruct (block_absorbed sc m q data) as [Ha' H0']; [done || lia..|].
    assert (n / 64 = S ((n - 64) / 64) /\ n mod 64 = (n - 64) mod 64)%nat as [Hq Hr].
    { replace n with ((n - 64) + 1 * 64)%nat at 1 3 by lia.
      rewrite Nat.div_add, Nat.Div0.mod_add by lia. lia. }
    replace (Z.of_nat n - 64) with (Z.of_nat (n - 64)) by lia.
    destruct (IH (n - 64)%nat _ _ _ (drop 64 data) ltac:(lia) Ha' H0')
      as (sc' & q' & -> & Ha'' & H0''); [auto with words|rewrite length_drop; lia|].
    exists sc', q'. rewrite Hq, Hr, drop_drop.
    replace (64 + 64 * ((n - 64) / 64))%nat with (64 * S ((n - 64) / 64))%nat by lia.
    split; [done|]. split; [|done].
    rewrite <- app_assoc, take_take_drop in Ha''.
    by replace (64 + 64 * ((n - 64) / 64))%nat with (64 * S ((n - 64) / 64))%nat in Ha'' by lia.
  - rewrite Nat.div_small, Nat.mod_small by lia. exists sc, q.
    rewrite app_nil_r. done.
Qed.

(** The tail of [sha256_update]: the whole blocks, then the remainder. *)
Lemma update_tail_absorbed n sc m q data :
  absorbed sc m q -> bufferLength sc = 0 -> bytes data -> (n <= length data)%nat ->
  exists sc' q',
    (let '(sc, data, len) := update_blocks (S (Z.to_nat (Z.of_nat n / 64))) sc data (Z.of_nat n) in
     if len =? 0 then sc else copy_in sc data len) = sc'
    /\ absorbed sc' (m ++ take n data) q' /\ bufferLength sc' < 64.
Proof.
  intros Ha H0 Hd Hn.
  replace (Z.to_nat (Z.of_nat n / 64)) with (n / 64)%nat
    by (change 64 with (Z.of_nat 64); rewrite <- Nat2Z.inj_div; lia).
  destruct (update_blocks_absorbed (S (n / 64)) n sc m q data)
    as (sc' & q' & -> & Ha' & H0'); [done || lia..|].
  pose proof (Nat.div_mod_eq n 64). pose proof (Nat.mod_upper_bound n 64 ltac:(lia)).
  destruct (Z.eqb_spec (Z.of_nat (n mod 64)) 0) as [Hz|Hz].
  - exists sc', q'. split; [done|]. split; [|lia].
    by replace (64 * (n / 64))%nat with n in Ha' by lia.
  - destruct (copy_in_absorbed sc' _ q' (drop (64 * (n / 64)) data) (n mod 64) Ha')
      as [Ha'' H0'']; [auto with words|rewrite length_drop; lia|lia|].
    eexists _, q'. split; [done|]. split; [|lia].
    rewrite <- app_assoc, take_take_drop in Ha''.
    by replace (64 * (n / 64) + n mod 64)%nat with n in Ha'' by lia.
Qed.

(** [sha256_update] appends to the absorbed message, whatever the buffer holds
    and however long the piece is. *)
Lemma update_absorbed n sc m q data :
  absorbed sc m q -> bufferLength sc < 64 -> bytes data -> (n <= length data)%nat ->
  exists q', absorbed (sha256_update sc data (Z.of_nat n)) (m ++ take n data) q'
    /\ bufferLength (sha256_update sc data (Z.of_nat n)) < 64.
Proof.
  intros Ha H64 Hd Hn. unfold sha256_update.
  pose proof (abs_buffer_length _ _ _ Ha) as Hbl.
  destruct (Z.eqb_spec (bufferLength sc) 0) as [H0|H0].
  { destruct (update_tail_absorbed n sc m q data Ha H0 Hd Hn) as (? & q' & -> & ?). eauto. }
  rewrite (w32_small (64 - _)) by (unfold is32; lia).
  set (k := Z.to_nat (Z.min (Z.of_nat n) (64 - bufferLength sc))).
  replace (if _ <? _ then _ else _) with (Z.of_nat k)
    by (destruct (Z.ltb_spec (Z.of_nat n) (64 - bufferLength sc)); lia).
  destruct (copy_in_absorbed sc m q data k Ha Hd) as [Ha' Hb']; [lia..|].
  cbv zeta. rewrite Nat2Z.id. replace (Z.of_nat n - Z.of_nat k) with (Z.of_nat (n - k)) by lia.
  replace (take n data) with (take k data ++ take (n - k) (drop k data))
    by (rewrite take_take_drop; f_equal; lia).
  rewrite app_assoc.
  destruct (Z.eqb_spec (bufferLength (copy_in sc data (Z.of_nat k))) 64) as [E|E].
  - pose proof (flush_absorbed _ _ _ Ha' E) as Hf. cbv zeta in Hf.
    destruct (update_tail_absorbed (n - k) _ _ _ (drop k data) Hf eq_refl)
      as (? & q' & -> & ?); [auto with words|rewrite length_drop; lia|]. eauto.
  - replace (n - k)%nat with 0%nat by lia. simpl.
    rewrite take_0, app_nil_r. exists q. split; [done|]. simpl in Hb', E. lia.
Qed.
Lemma padding_take n :
  (0 < n <= 64)%nat -> take n padding = [0x80] ++ replicate (n - 1) 0.
Proof.
  intros Hn. destruct n as [|n]; [lia|]. unfold padding. simpl. f_equal.
  change (0 :: _) with (replicate 63 0). rewrite take_replicate, Nat.min_l by lia.
  f_equal. lia.
Qed.

Lemma bytes_padding : bytes padding.
Proof. apply bytes_cons. split; [unfold is8; lia|apply bytes_replicate]. Qed.

Lemma flat_map_nth (h : list Z) :
  Forall is32 h ->
  flat_map (fun i : nat => le_bytes 4 (BYTESWAP (nthZ h (Z.of_nat i)))) (seq 0 (length h))
  = flat_map (be_bytes 4) h.
Proof.
  intros Hh. rewrite <- (map_nthZ_seq h) at 2.
  rewrite !flat_map_concat_map, map_map. f_equal. apply list_fmap_ext.
  intros k i [-> Hi]%lookup_seq. apply le_bytes_BYTESWAP.
  rewrite Forall_lookup in Hh. apply (Hh k).
  rewrite <- (map_nthZ_seq h) at 1. by rewrite nth_seq_map.
Qed.

(** [sha256_finalize] pads the absorbed message and outputs its hash. *)
Lemma finalize_spec sc m q :
  absorbed sc m q -> bufferLength sc < 64 ->
  8 * Z.of_nat (length m) < 0x1_0000_0000_0000_0000 ->
  sha256_finalize sc = sha256_spec m.
Proof.
  intros Ha H64 Hlim. destruct (Ha) as [Hm Hl Hbl Hh Hbuf Hsz Ht]. unfold sha256_finalize.
  assert (length m mod 64 = Z.to_nat (bufferLength sc))%nat as Hmod.
  { apply Nat2Z.inj. rewrite Nat2Z.inj_mod, Hl, Z2Nat.id by lia.
    rewrite Z.add_comm, Z.mul_comm. change (Z.of_nat 64) with 64.
    rewrite Z_mod_plus_full. apply Z.mod_small. lia. }
  set (p := S (md_zeros (length m))).
  pose proof (md_zeros_cases (length m)) as Hz. rewrite Hmod in Hz.
  rewrite (w32_small (120 - _)) by (unfold is32; lia).
  replace (if _ <? _ then _ else _) with (Z.of_nat p).
  2: { unfold p. case_decide; destruct (Z.ltb_spec 64 (120 - bufferLength sc)); lia. }
  assert (0 < p <= 64)%nat as Hp by (unfold p; case_decide; lia).
  destruct (update_absorbed p sc m q padding Ha H64 bytes_padding) as (q1 & Ha1 & Hb1);
    [simpl; lia|].
  rewrite Ht, (w64_small (8 * _)), le_bytes_byteswap64 by (unfold is64; lia).
  destruct (update_absorbed 8 _ _ q1 (be_bytes 8 (8 * Z.of_nat (length m))) Ha1 Hb1)
    as (q2 & Ha2 & Hb2); [auto with words|by rewrite length_be_bytes|].
  change (Z.of_nat 8) with 8 in *. set (sc2 := sha256_update _ _ 8) in *.
  rewrite (take_ge (be_bytes _ _)), padding_take in Ha2
    by (done || (rewrite length_be_bytes; lia)).
  rewrite <- !app_assoc in Ha2. unfold p in Ha2.
  replace (S (md_zeros (length m)) - 1)%nat with (md_zeros (length m)) in Ha2 by lia.
  change (m ++ _) with (md_pad m) in Ha2. destruct Ha2 as [_ Hl2 Hbl2 Hh2 _ _ _].
  pose proof (md_pad_blocks m) as Hblk.
  assert (length (md_pad m) = (q2 * 64)%nat) as Hq2 by lia.
  unfold sha256_spec. rewrite (md_hash_unfold m q2 Hq2). simpl md_output. rewrite Hh2.
  destruct (good_absorb q2 (md_pad m)) as [H8 H32].
  rewrite <- flat_map_nth, H8 by done. done.
Qed.

Lemma computeSHA256_on_spec sc input n :
  length (buffer sc) = 64%nat -> bytes input -> (n <= length input)%nat ->
  Z.of_nat n < 0x1_0000_0000 ->
  computeSHA256_on sc input (Z.of_nat n) = sha256_spec (take n input).
Proof.
  intros Hsz Hb Hn Hlim. unfold computeSHA256_on.
  destruct (update_absorbed n _ _ _ input (init_absorbed sc Hsz)) as (q & Ha & H64);
    [simpl; lia|done..|].
  apply (finalize_spec _ (take n input) q Ha H64). rewrite length_take. lia.
Qed.

Lemma computeSHA256_spec input n :
  bytes input -> (n <= length input)%nat -> Z.of_nat n < 0x1_0000_0000 ->
  computeSHA256 input (Z.of_nat n) = sha256_spec (take n input).
Proof. by apply computeSHA256_on_spec. Qed.

Lemma length_computeSHA256 input n : length (computeSHA256 input n) = 32%nat.
Proof. unfold computeSHA256, computeSHA256_on, sha256_finalize. reflexivity. Qed.
Lemma bytes_computeSHA256 input n : bytes (computeSHA256 input n).
Proof.
  unfold computeSHA256, computeSHA256_on, sha256_finalize.
  apply bytes_flat_map. intros i. apply bytes_le_bytes.
Qed.

(** ** Results *)

Definition digest_abc : list Z :=
  [0xba; 0x78; 0x16; 0xbf; 0x8f; 0x01; 0xcf; 0xea; 0x41; 0x41; 0x40; 0xde; 0x5d; 0xae; 0x22; 0x23;
   0xb0; 0x03; 0x61; 0xa3; 0x96; 0x17; 0x7a; 0x9c; 0xb4; 0x10; 0xff; 0x61; 0xf2; 0x00; 0x15; 0xad].

Example sha256_abc : computeSHA256 [0x61; 0x62; 0x63] 3 = digest_abc.
Proof. vm_compute. reflexivity. Qed.

(** C6: whatever the uninitialised local context of [computeSHA256] holds, on
    any buffer of bytes and any byte count that fits in it and in the 32-bit
    parameter, it returns the SHA-256 hash of FIPS 180-4 of exactly the first
    [size] bytes. *)
Theorem computeSHA256_correct sc input size :
  length (buffer sc) = 64%nat -> bytes input ->
  0 <= size <= Z.of_nat (length input) -> size < 0x1_0000_0000 ->
  computeSHA256_on sc input size = sha256_spec (take (Z.to_nat size) input).
Proof.
  intros Hsz Hb Hs Hlim. rewrite <- (Z2Nat.id size) at 1 by lia.
  apply computeSHA256_on_spec; [done..|lia|lia].
Qed.

Lemma computeSHA256_correct_witness :
  computeSHA256_on (Ctx 7 [] 9 (replicate 64 0xcc)) [0x61; 0x62; 0x63; 0x64] 3
    = sha256_spec [0x61; 0x62; 0x63]
  /\ sha256_spec [0x61; 0x62; 0x63] = digest_abc.
Proof.
  split.
  - refine (computeSHA256_correct (Ctx 7 [] 9 (replicate 64 0xcc))
              [0x61; 0x62; 0x63; 0x64] 3 _ _ _ _).
    + reflexivity.
    + repeat (apply bytes_cons; split; [unfold is8; lia|]). apply bytes_nil.
    + simpl. lia.
    + lia.
  - vm_compute. reflexivity.
Defined.

(** The digest does not depend on how the message was cut into calls of
    [sha256_update]: feeding any pieces, in order, to an initialised context
    and finalizing gives the hash of their concatenation. *)
Theorem sha256_update_pieces sc pieces :
  length (buffer sc) = 64%nat -> Forall bytes pieces ->
  8 * Z.of_nat (length (concat pieces)) < 0x1_0000_0000_0000_0000 ->
  sha256_finalize
    (foldl (fun sc p => sha256_update sc p (Z.of_nat (length p))) (sha256_init sc) pieces)
  = sha256_spec (concat pieces).
Proof.
  intros Hsz Hp Hlim.
  assert (exists q, absorbed (foldl (fun sc p => sha256_update sc p (Z.of_nat (length p)))
    (sha256_init sc) pieces) (concat pieces) q /\ bufferLength (foldl (fun sc p =>
    sha256_update sc p (Z.of_nat (length p))) (sha256_init sc) pieces) < 64) as (q & Ha & H64).
  { clear Hlim. induction pieces as [|p l IH] using rev_ind.
    - exists 0%nat. split; [by apply init_absorbed|simpl; lia].
    - apply Forall_app in Hp as [Hl [Hp _]%Forall_cons_1].
      destruct (IH Hl) as (q & Ha & H64). rewrite foldl_app, concat_app. simpl.
      rewrite app_nil_r.
      destruct (update_absorbed (length p) _ _ q p Ha H64 Hp) as (q' & H1 & H2); [done|].
      rewrite firstn_all in H1. eauto. }
  by apply (finalize_spec _ _ q Ha H64).
Qed.

Lemma sha256_update_pieces_witness :
  sha256_finalize
    (foldl (fun sc p => sha256_update sc p (Z.of_nat (length p)))
       (sha256_init (Ctx 0 [] 0 (replicate 64 0))) [[0x61]; []; [0x62; 0x63]])
  = sha256_spec [0x61; 0x62; 0x63].
Proof.
  apply (sha256_update_pieces (Ctx 0 [] 0 (replicate 64 0)) [[0x61]; []; [0x62; 0x63]]).
  - reflexivity.
  - repeat (constructor; [repeat (apply bytes_cons; split; [unfold is8; lia|]); apply bytes_nil|]).
    constructor.
  - simpl. lia.
Defined.
End SHA256.
