(* ===== verification/Block.v ===== *)
(** * Blocks, transactions and scripts: src/BitcoinAnalysis/block.h and the
    public-key part of namespace BLOCKCHAIN_BITCOIN_ADDRESS of hash.h

    The byte readers of the block stream, the structures they fill, the double
    SHA-256 and [outAddress], which finds the 20-byte address of an output
    script.  A read outside the buffer and a position that overflows its [int] are
    undefined behaviour in the source and [None] here. *)
From S2P Require Import Prelude Ripemd160 Sha256.
From stdpp Require Import list numbers option.
Open Scope Z_scope.

(** ** Reading the block stream *)

(** The [n] bytes at offset [pos] of a buffer. *)
Definition peek (mem : list Z) (pos n : Z) : option (list Z) :=
  if (0 <=? pos) && (0 <=? n) && (pos + n <=? Z.of_nat (length mem))
  then Some (take (Z.to_nat n) (drop (Z.to_nat pos) mem)) else None.

Section readers.
Context (transSec : list Z).

Definition readU8 (transPos : Z) : option (Z * Z) :=
  bs ← peek transSec transPos 1; transPos ← as_int (transPos + 1); Some (le_val bs, transPos).

Definition readU16 (transPos : Z) : option (Z * Z) :=
  bs ← peek transSec transPos 2; transPos ← as_int (transPos + 2); Some (le_val bs, transPos).

Definition readU32 (transPos : Z) : option (Z * Z) :=
  bs ← peek transSec transPos 4; transPos ← as_int (transPos + 4); Some (le_val bs, transPos).

Definition readU64 (transPos : Z) : option (Z * Z) :=
  bs ← peek transSec transPos 8; transPos ← as_int (transPos + 8); Some (le_val bs, transPos).

Definition readHash (transPos : Z) : option (list Z * Z) :=
  bs ← peek transSec transPos 32; transPos ← as_int (transPos + 32); Some (bs, transPos).

Definition readVarLen (transPos : Z) : option (Z * Z) :=
  '(v, transPos) ← readU8 transPos;
  if v <? 0xfd then Some (v, transPos)
  else if v =? 0xfd then readU16 transPos
  else if v =? 0xfe then readU32 transPos
  else Some (0, transPos).

Definition readBufferAdvance (transPos readLength : Z) : option (list Z * Z) :=
  bs ← peek transSec transPos readLength; transPos ← as_int (transPos + readLength); Some (bs, transPos).
End readers.

(** ** The structures *)

(** [Txin] without its [address] array, which nothing in the program writes or
    reads. *)
Record Txin := {
  in_hash : list Z;
  in_index : Z;
  in_script_length : Z;
  in_script : list Z;
  in_seq : Z }.

Record Txout := {
  out_val : Z;
  out_script_length : Z;
  out_script : list Z;
  out_address : list Z }.

Record Transaction := {
  ver : Z;
  in_count : Z;
  ins : list Txin;
  out_count : Z;
  outs : list Txout;
  lock_time : Z;
  tx_blocknumber : Z;
  txnumber : Z;
  txcounter : Z;
  tx_length : Z;
  txtime : Z;
  tx_curhash : list Z }.

Record Blkheader := {
  magic : Z;
  Blocksize : Z;
  Version : Z;
  preBlockHash : list Z;
  merkRoot : list Z;
  timeStamp : Z;
  bits : Z;
  nonce : Z }.

(** [Block] without [trans] and [warning], which the program does not fill. *)
Record Block := {
  Head : Blkheader;
  trans_count : Z;
  curhash : list Z;
  blocknumber : Z;
  blockReward : Z }.

(** ** Hashes and addresses *)

Definition twiceSHA256 (input : list Z) (size : Z) : list Z :=
  SHA256.computeSHA256 (SHA256.computeSHA256 input size) 32.

(** [bitcoinPublicKeyToAddress]: its result and its [output] array. *)
Definition bitcoinPublicKeyToAddress (input output : list Z) : bool * list Z :=
  if nthZ input 0 =? 0x04 then
    let hash1 := SHA256.computeSHA256 input 65 in
    let output := <[0%nat := 0]> output in
    let output := SHA256.overwrite output 1 (RIPEMD160.computeRIPEMD160 hash1 32) in
    let hash1 := SHA256.computeSHA256 output 21 in
    let hash1 := SHA256.computeSHA256 hash1 32 in
    let output := <[21%nat := nthZ hash1 0]> output in
    let output := <[22%nat := nthZ hash1 1]> output in
    let output := <[23%nat := nthZ hash1 2]> output in
    let output := <[24%nat := nthZ hash1 3]> output in
    (true, output)
  else (false, output).

(** The script operators of the protocol, and the byte each stands for. *)
Inductive ScriptOpcodes :=
  | OP_0 | OP_PUSHDATA1 | OP_PUSHDATA2 | OP_PUSHDATA4 | OP_1NEGATE | OP_RESERVED | OP_1
  | OP_2 | OP_3 | OP_4 | OP_5 | OP_6 | OP_7 | OP_8 | OP_9 | OP_10 | OP_11 | OP_12
  | OP_13 | OP_14 | OP_15 | OP_16 | OP_NOP | OP_VER | OP_IF | OP_NOTIF | OP_VERIF
  | OP_VERNOTIF | OP_ELSE | OP_ENDIF | OP_VERIFY | OP_RETURN | OP_TOALTSTACK
  | OP_FROMALTSTACK | OP_2DROP | OP_2DUP | OP_3DUP | OP_2OVER | OP_2ROT | OP_2SWAP
  | OP_IFDUP | OP_DEPTH | OP_DROP | OP_DUP | OP_NIP | OP_OVER | OP_PICK | OP_ROLL
  | OP_ROT | OP_SWAP | OP_TUCK | OP_CAT | OP_SUBSTR | OP_LEFT | OP_RIGHT | OP_SIZE
  | OP_INVERT | OP_AND | OP_OR | OP_XOR | OP_EQUAL | OP_EQUALVERIFY | OP_RESERVED1
  | OP_RESERVED2 | OP_1ADD | OP_1SUB | OP_2MUL | OP_2DIV | OP_NEGATE | OP_ABS | OP_NOT
  | OP_0NOTEQUAL | OP_ADD | OP_SUB | OP_MUL | OP_DIV | OP_MOD | OP_LSHIFT | OP_RSHIFT
  | OP_BOOLAND | OP_BOOLOR | OP_NUMEQUAL | OP_NUMEQUALVERIFY | OP_NUMNOTEQUAL
  | OP_LESSTHAN | OP_GREATERTHAN | OP_LESSTHANOREQUAL | OP_GREATERTHANOREQUAL | OP_MIN
  | OP_MAX | OP_WITHIN | OP_RIPEMD160 | OP_SHA1 | OP_SHA256 | OP_HASH160 | OP_HASH256
  | OP_CODESEPARATOR | OP_CHECKSIG | OP_CHECKSIGVERIFY | OP_CHECKMULTISIG
  | OP_CHECKMULTISIGVERIFY | OP_NOP1 | OP_NOP2 | OP_NOP3 | OP_NOP4 | OP_NOP5 | OP_NOP6
  | OP_NOP7 | OP_NOP8 | OP_NOP9 | OP_NOP10 | OP_SMALLINTEGER | OP_PUBKEYS
  | OP_PUBKEYHASH | OP_PUBKEY | OP_INVALIDOPCODE.

Definition opcode (op : ScriptOpcodes) : Z :=
  match op with
  | OP_0 => 0x00 | OP_PUSHDATA1 => 0x4c | OP_PUSHDATA2 => 0x4d | OP_PUSHDATA4 => 0x4e
  | OP_1NEGATE => 0x4f | OP_RESERVED => 0x50 | OP_1 => 0x51 | OP_2 => 0x52
  | OP_3 => 0x53 | OP_4 => 0x54 | OP_5 => 0x55 | OP_6 => 0x56 | OP_7 => 0x57
  | OP_8 => 0x58 | OP_9 => 0x59 | OP_10 => 0x5a | OP_11 => 0x5b | OP_12 => 0x5c
  | OP_13 => 0x5d | OP_14 => 0x5e | OP_15 => 0x5f | OP_16 => 0x60 | OP_NOP => 0x61
  | OP_VER => 0x62 | OP_IF => 0x63 | OP_NOTIF => 0x64 | OP_VERIF => 0x65
  | OP_VERNOTIF => 0x66 | OP_ELSE => 0x67 | OP_ENDIF => 0x68 | OP_VERIFY => 0x69
  | OP_RETURN => 0x6a | OP_TOALTSTACK => 0x6b | OP_FROMALTSTACK => 0x6c
  | OP_2DROP => 0x6d | OP_2DUP => 0x6e | OP_3DUP => 0x6f | OP_2OVER => 0x70
  | OP_2ROT => 0x71 | OP_2SWAP => 0x72 | OP_IFDUP => 0x73 | OP_DEPTH => 0x74
  | OP_DROP => 0x75 | OP_DUP => 0x76 | OP_NIP => 0x77 | OP_OVER => 0x78
  | OP_PICK => 0x79 | OP_ROLL => 0x7a | OP_ROT => 0x7b | OP_SWAP => 0x7c
  | OP_TUCK => 0x7d | OP_CAT => 0x7e | OP_SUBSTR => 0x7f | OP_LEFT => 0x80
  | OP_RIGHT => 0x81 | OP_SIZE => 0x82 | OP_INVERT => 0x83 | OP_AND => 0x84
  | OP_OR => 0x85 | OP_XOR => 0x86 | OP_EQUAL => 0x87 | OP_EQUALVERIFY => 0x88
  | OP_RESERVED1 => 0x89 | OP_RESERVED2 => 0x8a | OP_1ADD => 0x8b | OP_1SUB => 0x8c
  | OP_2MUL => 0x8d | OP_2DIV => 0x8e | OP_NEGATE => 0x8f | OP_ABS => 0x90
  | OP_NOT => 0x91 | OP_0NOTEQUAL => 0x92 | OP_ADD => 0x93 | OP_SUB => 0x94
  | OP_MUL => 0x95 | OP_DIV => 0x96 | OP_MOD => 0x97 | OP_LSHIFT => 0x98
  | OP_RSHIFT => 0x99 | OP_BOOLAND => 0x9a | OP_BOOLOR => 0x9b | OP_NUMEQUAL => 0x9c
  | OP_NUMEQUALVERIFY => 0x9d | OP_NUMNOTEQUAL => 0x9e | OP_LESSTHAN => 0x9f
  | OP_GREATERTHAN => 0xa0 | OP_LESSTHANOREQUAL => 0xa1 | OP_GREATERTHANOREQUAL => 0xa2
  | OP_MIN => 0xa3 | OP_MAX => 0xa4 | OP_WITHIN => 0xa5 | OP_RIPEMD160 => 0xa6
  | OP_SHA1 => 0xa7 | OP_SHA256 => 0xa8 | OP_HASH160 => 0xa9 | OP_HASH256 => 0xaa
  | OP_CODESEPARATOR => 0xab | OP_CHECKSIG => 0xac | OP_CHECKSIGVERIFY => 0xad
  | OP_CHECKMULTISIG => 0xae | OP_CHECKMULTISIGVERIFY => 0xaf | OP_NOP1 => 0xb0
  | OP_NOP2 => 0xb1 | OP_NOP3 => 0xb2 | OP_NOP4 => 0xb3 | OP_NOP5 => 0xb4
  | OP_NOP6 => 0xb5 | OP_NOP7 => 0xb6 | OP_NOP8 => 0xb7 | OP_NOP9 => 0xb8
  | OP_NOP10 => 0xb9 | OP_SMALLINTEGER => 0xfa | OP_PUBKEYS => 0xfb
  | OP_PUBKEYHASH => 0xfd | OP_PUBKEY => 0xfe | OP_INVALIDOPCODE => 0xff
  end.

Coercion opcode : ScriptOpcodes >-> Z.

(** [memcpy(address, Script + off, 20)] *)
Definition copy20 (Script : list Z) (off : nat) : list Z := take 20 (drop off Script).

Definition pubkey_address (publicKey : list Z) : list Z :=
  let '(_, AddressAndCheck) := bitcoinPublicKeyToAddress publicKey (replicate 25 0) in
  copy20 AddressAndCheck 1.

(** The loop that scans for an embedded pay-to-public-key-hash pattern at the
    offsets [i], [i + 1], ... ([n] of them). *)
Fixpoint scan_p2pkh (Script : list Z) (n : nat) (i : nat) : option (list Z) :=
  match n with
  | O => None
  | S n' =>
      let scan := drop i Script in
      if (nthZ scan 0 =? OP_DUP) && (nthZ scan 1 =? OP_HASH160) && (nthZ scan 2 =? 20)
         && (nthZ scan 23 =? OP_EQUALVERIFY) && (nthZ scan 24 =? OP_CHECKSIG)
      then Some (copy20 scan 3)
      else scan_p2pkh Script n' (S i)
  end.

Definition outAddress (Script : list Z) (ScriptLength : Z) : bool * list Z :=
  let at_ := nthZ Script in
  if (ScriptLength =? 67) && (at_ 0 =? 65) && (at_ 66 =? OP_CHECKSIG) then
    (true, pubkey_address (take 65 (drop 1 Script)))
  else if (ScriptLength =? 66) && (at_ 65 =? OP_CHECKSIG) then
    (true, pubkey_address (take 65 Script))
  else if (25 <=? ScriptLength) && (at_ 0 =? OP_DUP) && (at_ 1 =? OP_HASH160)
          && (at_ 2 =? 20) then
    (true, copy20 Script 3)
  else if (ScriptLength =? 23) && (at_ 0 =? OP_HASH160) && (at_ 1 =? 20) then
    (true, copy20 Script 2)
  else if (ScriptLength =? 23) && (at_ 0 =? 20) && (at_ 21 =? OP_NOP2)
          && (at_ 22 =? OP_DROP) then
    (true, copy20 Script 1)
  else if (ScriptLength =? 35) && (at_ 0 =? 33) && (at_ 34 =? OP_CHECKSIG) then
    (true, RIPEMD160.computeRIPEMD160 (drop 1 Script) 33)
  else if (ScriptLength =? 33) && (at_ 0 =? 32) then
    (true, RIPEMD160.computeRIPEMD160 (drop 1 Script) 32)
  else if (ScriptLength =? 37) && (at_ 0 =? 36) then
    (true, RIPEMD160.computeRIPEMD160 (drop 1 Script) 36)
  else if (ScriptLength =? 22) && (at_ 0 =? OP_RETURN) && (at_ 1 =? 20) then
    (true, copy20 Script 2)
  else if (35 <? ScriptLength)
          && ((at_ 0 =? OP_1) || (at_ 0 =? OP_2) || (at_ 0 =? OP_3))
          && (at_ (ScriptLength - 1) =? OP_CHECKMULTISIG) then
    (true, RIPEMD160.computeRIPEMD160 Script ScriptLength)
  else if ScriptLength <? 20 then
    (true, replicate 20 49)
  else
    let found :=
      if 25 <? ScriptLength
      then scan_p2pkh Script (Z.to_nat (ScriptLength - 25)) 0 else None in
    match found with
    | Some address => (true, address)
    | None => (false, RIPEMD160.computeRIPEMD160 Script ScriptLength)
    end.

(** ** What [outAddress] finds *)

Definition hash160 (key : list Z) : list Z :=
  RIPEMD160.ripemd160_spec (SHA256.sha256_spec key).
Definition sha256d (m : list Z) : list Z := SHA256.sha256_spec (SHA256.sha256_spec m).

(** The standard output scripts. *)
Definition p2pkh (h : list Z) : list Z :=
  [opcode OP_DUP; opcode OP_HASH160; 20] ++ h ++ [opcode OP_EQUALVERIFY; opcode OP_CHECKSIG].
Definition p2sh (h : list Z) : list Z :=
  [opcode OP_HASH160; 20] ++ h ++ [opcode OP_EQUAL].
Definition p2pk (key : list Z) : list Z := [65] ++ key ++ [opcode OP_CHECKSIG].

(** An embedded pay-to-public-key-hash pattern at offset [j]. *)
Definition p2pkh_at (Script : list Z) (j : nat) : Prop :=
  Script !! j = Some (opcode OP_DUP) /\ Script !! (j + 1)%nat = Some (opcode OP_HASH160)
  /\ Script !! (j + 2)%nat = Some 20 /\ Script !! (j + 23)%nat = Some (opcode OP_EQUALVERIFY)
  /\ Script !! (j + 24)%nat = Some (opcode OP_CHECKSIG).

#[local] Opaque SHA256.computeSHA256 SHA256.sha256_spec RIPEMD160.computeRIPEMD160
  RIPEMD160.ripemd160_spec.

(** One hash call of the program on a whole buffer: the standard digest, whose
    size lets the next call of a chain be described the same way. *)
Lemma sha256_digest m n :
  bytes m -> Z.of_nat (length m) = n -> n < 0x1_0000_0000 ->
  SHA256.computeSHA256 m n = SHA256.sha256_spec m
  /\ length (SHA256.sha256_spec m) = 32%nat /\ bytes (SHA256.sha256_spec m).
Proof.
  intros Hb <- Hl.
  assert (SHA256.computeSHA256 m (Z.of_nat (length m)) = SHA256.sha256_spec m) as E.
  { rewrite SHA256.computeSHA256_spec; [|exact Hb|lia..].
    rewrite firstn_all. reflexivity. }
  rewrite <- E. split; [reflexivity|].
  split; [apply SHA256.length_computeSHA256|apply SHA256.bytes_computeSHA256].
Qed.

Lemma ripemd160_digest m n :
  bytes m -> Z.of_nat (length m) = n -> n < 0x1_0000_0000 ->
  RIPEMD160.computeRIPEMD160 m n = RIPEMD160.ripemd160_spec m
  /\ length (RIPEMD160.ripemd160_spec m) = 20%nat /\ bytes (RIPEMD160.ripemd160_spec m).
Proof.
  intros Hb <- Hl.
  assert (RIPEMD160.computeRIPEMD160 m (Z.of_nat (length m)) = RIPEMD160.ripemd160_spec m) as E.
  { rewrite RIPEMD160.computeRIPEMD160_spec; [|exact Hb|lia..].
    rewrite firstn_all. reflexivity. }
  rewrite <- E. split; [reflexivity|].
  split; [apply RIPEMD160.length_computeRIPEMD160|apply RIPEMD160.bytes_computeRIPEMD160].
Qed.

Lemma twiceSHA256_spec m :
  bytes m -> Z.of_nat (length m) < 0x1_0000_0000 ->
  twiceSHA256 m (Z.of_nat (length m)) = sha256d m.
Proof.
  intros Hb Hl. unfold twiceSHA256, sha256d.
  destruct (sha256_digest m _ Hb eq_refl Hl) as (-> & H32 & Hd).
  apply sha256_digest; [exact Hd|rewrite H32; reflexivity|lia].
Qed.

Lemma sha256d_digest m :
  bytes m -> Z.of_nat (length m) < 0x1_0000_0000 ->
  length (sha256d m) = 32%nat /\ bytes (sha256d m).
Proof.
  intros Hb Hl. destruct (sha256_digest m _ Hb eq_refl Hl) as (_ & H32 & Hd).
  apply (sha256_digest _ 32 Hd); [rewrite H32; reflexivity|lia].
Qed.

Lemma hash160_digest key :
  bytes key -> length key = 65%nat -> length (hash160 key) = 20%nat /\ bytes (hash160 key).
Proof.
  intros Hb Hl. unfold hash160.
  destruct (sha256_digest key 65 Hb) as (_ & H32 & Hd); [lia..|].
  destruct (ripemd160_digest _ 32 Hd) as (_ & ? & ?); [lia..|]. split; assumption.
Qed.

Lemma insert_tail4 {A} (p : list A) (q : list A) a b c d :
  length q = 4%nat ->
  let n := length p in
  <[(n + 3)%nat := d]> (<[(n + 2)%nat := c]> (<[(n + 1)%nat := b]> (<[(n + 0)%nat := a]> (p ++ q))))
  = p ++ [a; b; c; d].
Proof.
  intros Hq n. subst n. destruct q as [|q0 [|q1 [|q2 [|q3 [|]]]]]; try discriminate.
  rewrite !insert_app_r. reflexivity.
Qed.

Lemma take4_nthZ l :
  (4 <= length l)%nat -> take 4 l = [nthZ l 0; nthZ l 1; nthZ l 2; nthZ l 3].
Proof. destruct l as [|a [|b [|c [|d l]]]]; simpl; intros; try lia; reflexivity. Qed.

(** The bytes an address array gets after its 21 bytes [p] are in place: both
    address constructors end this way. *)
Lemma checksum_tail p q :
  bytes (p ++ q) -> length p = 21%nat -> length q = 4%nat ->
  let hash1 := SHA256.computeSHA256 (SHA256.computeSHA256 (p ++ q) 21) 32 in
  <[24%nat := nthZ hash1 3]> (<[23%nat := nthZ hash1 2]>
    (<[22%nat := nthZ hash1 1]> (<[21%nat := nthZ hash1 0]> (p ++ q))))
  = p ++ take 4 (sha256d p).
Proof.
  intros Hb Hp Hq. pose proof (insert_tail4 p q) as Ht. rewrite Hp in Ht.
  cbn zeta in Ht. cbn zeta. rewrite (Ht _ _ _ _ Hq), <- take4_nthZ.
  - do 2 f_equal. unfold sha256d.
    change 21 with (Z.of_nat 21). rewrite SHA256.computeSHA256_spec;
      [|exact Hb|rewrite length_app; lia|lia].
    rewrite take_app_length' by (symmetry; exact Hp).
    apply bytes_app in Hb as [Hb _].
    destruct (sha256_digest p 21 Hb) as (_ & H32 & Hd); [lia..|].
    apply (sha256_digest _ 32 Hd); lia.
  - rewrite SHA256.length_computeSHA256. lia.
Qed.

(** The 25-byte address of a public key: version byte, hash160 and the first
    four bytes of their double SHA-256. *)
Lemma publicKeyToAddress_spec key output :
  bytes key -> length key = 65%nat -> bytes output -> length output = 25%nat ->
  bitcoinPublicKeyToAddress key output
  = if nthZ key 0 =? 4
    then (true, 0 :: hash160 key ++ take 4 (sha256d (0 :: hash160 key)))
    else (false, output).
Proof.
  intros Hb Hl Hbo Ho. unfold bitcoinPublicKeyToAddress.
  destruct (nthZ key 0 =? 4); [|reflexivity].
  destruct (sha256_digest key 65 Hb) as (E1 & H32 & Hd1); [lia..|].
  destruct (ripemd160_digest _ 32 Hd1) as (E2 & H20 & Hd2); [lia..|].
  rewrite E1, E2. fold (hash160 key) in *. set (h := hash160 key) in *. clearbody h. clear E1 E2.
  assert (SHA256.overwrite (<[0%nat := 0]> output) 1 h = (0 :: h) ++ drop 21 output) as ->.
  { unfold SHA256.overwrite. rewrite H20. destruct output as [|x output]; [discriminate|]. reflexivity. }
  f_equal. change (0 :: h ++ ?x) with ((0 :: h) ++ x). apply checksum_tail.
  - apply bytes_app. split; [apply bytes_cons; split; [unfold is8; lia|exact Hd2]|].
    apply bytes_drop, Hbo.
  - simpl. lia.
  - rewrite length_drop. lia.
Qed.

Lemma nthZ_app_r l1 l2 i :
  Z.of_nat (length l1) <= i -> nthZ (l1 ++ l2) i = nthZ l2 (i - Z.of_nat (length l1)).
Proof. intros Hi. unfold nthZ. rewrite lookup_app_r by lia. do 2 f_equal. lia. Qed.

Lemma copy20_app l1 h l2 n :
  length l1 = n -> length h = 20%nat -> copy20 (l1 ++ h ++ l2) n = h.
Proof.
  intros <- Hh. unfold copy20. rewrite drop_app_length. apply take_app_length'. symmetry; exact Hh.
Qed.

Lemma outAddress_p2pkh_prefix h rest n :
  length h = 20%nat -> n = Z.of_nat (25 + length rest) -> n <> 66 ->
  outAddress (p2pkh h ++ rest) n = (true, h).
Proof.
  intros Hh -> Hn. unfold outAddress. change (nthZ (p2pkh h ++ rest) 0 =? 65) with false.
  rewrite andb_false_r. cbn [andb]. rewrite (proj2 (Z.eqb_neq _ 66) Hn). cbn [andb].
  rewrite (proj2 (Z.leb_le 25 _)) by lia.
  unfold p2pkh at 1 2 3. cbn -[copy20]. f_equal. unfold p2pkh. rewrite <- !app_assoc.
  by apply (copy20_app [_; _; _]).
Qed.

Lemma outAddress_p2sh h :
  length h = 20%nat -> outAddress (p2sh h) 23 = (true, h).
Proof. intros Hh. unfold outAddress. cbn -[copy20]. f_equal. by apply (copy20_app [_; _]). Qed.

Lemma pubkey_address_spec key :
  bytes key -> length key = 65%nat ->
  pubkey_address key = if nthZ key 0 =? 4 then hash160 key else replicate 20 0.
Proof.
  intros Hb Hl. unfold pubkey_address.
  rewrite (publicKeyToAddress_spec key (replicate 25 0) Hb Hl (bytes_replicate 25) eq_refl).
  destruct (nthZ key 0 =? 4); [|reflexivity].
  apply (copy20_app [0]); [reflexivity|]. by apply hash160_digest.
Qed.

Lemma outAddress_p2pk key :
  bytes key -> length key = 65%nat ->
  outAddress (p2pk key) 67
  = (true, if nthZ key 0 =? 4 then hash160 key else replicate 20 0).
Proof.
  intros Hb Hl. unfold outAddress. unfold p2pk at 2.
  rewrite app_assoc, nthZ_app_r by (rewrite length_app; simpl; lia).
  rewrite length_app, Hl. cbn -[pubkey_address take drop p2pk]. f_equal.
  rewrite <- pubkey_address_spec by assumption. f_equal.
  by apply (take_app_length' key).
Qed.

(** *** The scan for an embedded pattern *)

Lemma scan_match Script i :
  (nthZ (drop i Script) 0 =? OP_DUP) && (nthZ (drop i Script) 1 =? OP_HASH160)
  && (nthZ (drop i Script) 2 =? 20) && (nthZ (drop i Script) 23 =? OP_EQUALVERIFY)
  && (nthZ (drop i Script) 24 =? OP_CHECKSIG) = true <-> p2pkh_at Script i.
Proof.
  assert (forall k c, (0 < c)%Z ->
    (nthZ (drop i Script) (Z.of_nat k) =? c) = true <-> Script !! (i + k)%nat = Some c) as Hk.
  { intros k c Hc. unfold nthZ. rewrite Nat2Z.id, lookup_drop, Z.eqb_eq.
    destruct (Script !! (i + k)%nat) as [x|]; simpl; [split; congruence|]. split; [lia|discriminate]. }
  unfold p2pkh_at. rewrite !andb_true_iff.
  rewrite (Hk 0%nat), (Hk 1%nat), (Hk 2%nat), (Hk 23%nat), (Hk 24%nat) by reflexivity.
  rewrite Nat.add_0_r. tauto.
Qed.

(** The scan returns the address of the first pattern among its offsets. *)
Lemma scan_p2pkh_first Script n i :
  match scan_p2pkh Script n i with
  | Some a => exists j, (i <= j < i + n)%nat /\ p2pkh_at Script j /\ a = copy20 Script (j + 3)
              /\ forall j', (i <= j' < j)%nat -> ~ p2pkh_at Script j'
  | None => forall j, (i <= j < i + n)%nat -> ~ p2pkh_at Script j
  end.
Proof.
  revert i. induction n as [|n IH]; intros i; [simpl; lia|]. cbn [scan_p2pkh].
  destruct (_ && _) eqn:Hm.
  - apply scan_match in Hm. exists i. refine (conj _ (conj Hm (conj _ _))); [lia| |lia].
    unfold copy20. by rewrite drop_drop.
  - assert (~ p2pkh_at Script i) as Hno by (rewrite <- scan_match, Hm; discriminate).
    specialize (IH (S i)). destruct (scan_p2pkh Script n (S i)).
    + destruct IH as (j & Hj & Hat & -> & Hfirst). exists j. refine (conj _ (conj Hat (conj eq_refl _))); [lia|].
      intros j' Hj'. destruct (decide (j' = i)) as [->|]; [done|]. apply Hfirst. lia.
    + intros j Hj. destruct (decide (j = i)) as [->|]; [done|]. apply IH. lia.
Qed.

Lemma length_copy20 Script off : (off + 20 <= length Script)%nat -> length (copy20 Script off) = 20%nat.
Proof. intros H. unfold copy20. rewrite length_take, length_drop. lia. Qed.

Lemma bytes_copy20 Script off : bytes Script -> bytes (copy20 Script off).
Proof. intros H. by apply bytes_take, bytes_drop. Qed.

Create HintDb addr discriminated.
#[local] Hint Resolve bytes_copy20 bytes_take bytes_drop RIPEMD160.bytes_computeRIPEMD160 : addr.
#[local] Hint Resolve RIPEMD160.length_computeRIPEMD160 : addr.
#[local] Hint Extern 5 (length (copy20 _ _) = _) =>
  (apply length_copy20; lia) : addr.

Definition address_ok (a : list Z) : Prop := length a = 20%nat /\ bytes a.

Lemma pubkey_address_ok key : bytes key -> length key = 65%nat -> address_ok (pubkey_address key).
Proof.
  intros Hb Hl. rewrite pubkey_address_spec by assumption. destruct (_ =? _).
  - by apply hash160_digest.
  - split; [reflexivity|apply bytes_replicate].
Qed.

(** Every script yields a 20-byte address. *)
Lemma outAddress_ok Script :
  bytes Script -> address_ok (snd (outAddress Script (Z.of_nat (length Script)))).
Proof.
  intros Hb. set (L := Z.of_nat (length Script)). unfold outAddress.
  assert (forall n off, L = n -> (off + 65 <= Z.to_nat n)%nat ->
    address_ok (pubkey_address (take 65 (drop off Script)))) as Hkey.
  { intros n off Hn Hoff. apply pubkey_address_ok; [auto with addr|].
    rewrite length_take, length_drop. lia. }
  repeat match goal with
  | |- context [if ?c then (true, ?a) else ?e] =>
      let E := fresh "E" in destruct c eqn:E; cbn [snd];
      [clear -E Hb Hkey; subst L; rewrite ?andb_true_iff, ?Z.eqb_eq, ?Z.leb_le, ?Z.ltb_lt in E;
       first [ apply (Hkey 67 1%nat); lia | apply (Hkey 66 0%nat); lia
             | split; [reflexivity|repeat constructor; lia]
             | split; auto with addr ] | clear E ]
  end.
  destruct (25 <? L) eqn:E; cbn [snd]; [|split; auto with addr].
  pose proof (scan_p2pkh_first Script (Z.to_nat (L - 25)) 0) as Hs.
  destruct (scan_p2pkh _ _ _); cbn [snd]; [|split; auto with addr].
  destruct Hs as (j & Hj & _ & -> & _). subst L. split; auto with addr.
Qed.

(** The scan runs exactly when no template matches; its failure is the only way
    [outAddress] reports an error. *)
Lemma outAddress_error Script address :
  outAddress Script (Z.of_nat (length Script)) = (false, address) ->
  (20 <= length Script)%nat
  /\ (forall j, (j + 25 < length Script)%nat -> ~ p2pkh_at Script j)
  /\ address = RIPEMD160.computeRIPEMD160 Script (Z.of_nat (length Script)).
Proof.
  set (L := Z.of_nat (length Script)). unfold outAddress.
  do 10 match goal with
  | |- context [if ?c then (true, ?a) else ?e] => destruct c; [discriminate|]
  end.
  destruct (Z.ltb_spec L 20) as [|H20]; [discriminate|].
  intros Hout. split; [subst L; lia|]. destruct (Z.ltb_spec 25 L) as [H25|H25].
  - pose proof (scan_p2pkh_first Script (Z.to_nat (L - 25)) 0) as Hs.
    destruct (scan_p2pkh _ _ _); [discriminate|]. injection Hout as <-.
    split; [|reflexivity]. intros j Hj. apply Hs. lia.
  - injection Hout as <-. split; [|reflexivity]. intros j Hj. lia.
Qed.

Lemma bytes_p2pkh h : bytes h -> bytes (p2pkh h).
Proof.
  intros Hb. unfold p2pkh. rewrite !bytes_app, !bytes_cons. unfold is8. simpl.
  auto 10 using bytes_nil with lia.
Qed.

(** C10: the address of the standard output scripts.  Pay-to-public-key-hash and
    pay-to-script-hash yield the hash in the script; paying to an uncompressed
    public key yields RIPEMD-160 of SHA-256 of the key, so that a key and its
    hash are the same address. *)
Theorem outAddress_standard h key :
  length h = 20%nat -> bytes key -> length key = 65%nat -> nthZ key 0 = 4 ->
  outAddress (p2pkh h) 25 = (true, h)
  /\ outAddress (p2sh h) 23 = (true, h)
  /\ outAddress (p2pk key) 67
     = (true, RIPEMD160.ripemd160_spec (SHA256.sha256_spec key))
  /\ outAddress (p2pk key) 67 = outAddress (p2pkh (hash160 key)) 25.
Proof.
  intros Hh Hb Hl H4.
  assert (forall h', length h' = 20%nat -> outAddress (p2pkh h') 25 = (true, h')) as Hpkh.
  { intros h' Hh'. rewrite <- (app_nil_r (p2pkh h')). by apply outAddress_p2pkh_prefix. }
  assert (outAddress (p2pk key) 67 = (true, hash160 key)) as Hpk.
  { rewrite outAddress_p2pk, H4 by assumption. reflexivity. }
  repeat split; [by apply Hpkh|by apply outAddress_p2sh|exact Hpk|].
  rewrite Hpk, Hpkh; [reflexivity|]. by apply hash160_digest.
Qed.

Lemma outAddress_standard_witness :
  let key := 4 :: replicate 64 7 in
  outAddress (p2pk key) 67 = outAddress (p2pkh (hash160 key)) 25.
Proof.
  intros key. apply (outAddress_standard (replicate 20 1) key).
  - reflexivity.
  - apply bytes_cons. split; [unfold is8; lia|]. apply Forall_replicate. unfold is8. lia.
  - reflexivity.
  - reflexivity.
Defined.

(** C31: [outAddress] always fills the 20 bytes of the address.  When it reports
    failure the script has at least 20 bytes, no pay-to-public-key-hash pattern
    starts in the offsets the scan visits, and the address is RIPEMD-160 of the
    whole script. *)
Theorem outAddress_total Script :
  bytes Script -> Z.of_nat (length Script) < 0x1_0000_0000 ->
  let '(decodeOK, address) := outAddress Script (Z.of_nat (length Script)) in
  length address = 20%nat /\ bytes address
  /\ (decodeOK = false ->
      (20 <= length Script)%nat
      /\ (forall j, (j + 25 < length Script)%nat -> ~ p2pkh_at Script j)
      /\ address = RIPEMD160.ripemd160_spec Script).
Proof.
  intros Hb Hl. pose proof (outAddress_ok Script Hb) as [H1 H2].
  pose proof (outAddress_error Script) as He.
  destruct (outAddress Script (Z.of_nat (length Script))) as [ok address].
  split; [exact H1|]. split; [exact H2|]. intros ->.
  destruct (He address eq_refl) as (H20 & Hno & ->).
  split; [exact H20|]. split; [exact Hno|]. by apply ripemd160_digest.
Qed.

Lemma outAddress_total_witness :
  let '(decodeOK, address) := outAddress (replicate 30 0x61) 30 in
  length address = 20%nat /\ bytes address
  /\ (decodeOK = false ->
      (20 <= 30)%nat
      /\ (forall j, (j + 25 < 30)%nat -> ~ p2pkh_at (replicate 30 0x61) j)
      /\ address = RIPEMD160.ripemd160_spec (replicate 30 0x61)).
Proof.
  apply (outAddress_total (replicate 30 0x61)).
  - apply Forall_replicate. unfold is8. lia.
  - reflexivity.
Defined.

(** The scan stops one offset early.  A script that consists of one
    operator and a pay-to-public-key-hash pattern that ends it is reported as
    undecodable, and the same script with one byte after the pattern is
    decoded. *)
Theorem outAddress_last_offset h x :
  bytes h -> length h = 20%nat ->
  p2pkh_at (opcode OP_NOP :: p2pkh h) 1
  /\ outAddress (opcode OP_NOP :: p2pkh h) 26
     = (false, RIPEMD160.ripemd160_spec (opcode OP_NOP :: p2pkh h))
  /\ outAddress (opcode OP_NOP :: p2pkh h ++ [x]) 27 = (true, h).
Proof.
  intros Hb Hh. do 20 (destruct h as [|? h]; [discriminate|]).
  destruct h; [|discriminate]. split; [repeat split|]. split; [|reflexivity].
  transitivity (false, RIPEMD160.computeRIPEMD160
    (opcode OP_NOP :: p2pkh [z; z0; z1; z2; z3; z4; z5; z6; z7; z8; z9; z10; z11; z12; z13; z14;
                             z15; z16; z17; z18]) 26); [reflexivity|].
  f_equal. apply ripemd160_digest; [|reflexivity..].
  apply bytes_cons. split; [unfold is8; simpl; lia|]. apply bytes_p2pkh, Hb.
Qed.

Lemma outAddress_last_offset_witness :
  fst (outAddress (opcode OP_NOP :: p2pkh (replicate 20 9)) 26) = false
  /\ snd (outAddress (opcode OP_NOP :: p2pkh (replicate 20 9) ++ [0]) 27) = replicate 20 9.
Proof.
  destruct (outAddress_last_offset (replicate 20 9) 0) as (_ & -> & ->).
  - apply Forall_replicate. unfold is8. lia.
  - reflexivity.
  - split; reflexivity.
Defined.
