(* ===== verification/TxParse.v ===== *)
(** * Parsing a transaction: the transaction loop body of
    src/BitcoinAnalysis/unzipBlocks.h

    [read_transaction] is the part of the loop that fills a [Transaction] from
    the block's transaction section; the serialization format it inverts is
    stated independently, and the round trip is proved for it. *)
From stdpp Require Import list numbers option.
From S2P Require Import Prelude Ripemd160 Sha256 Block.
Open Scope Z_scope.

(** ** The reader *)

(** What the parser writes to the log file. *)
Inductive log_event :=
  | OutAddressError (blocknumber txnumber : Z).

Section reader.
Context (transSec : list Z).

Definition read_txin (transPos : Z) : option (Txin * Z) :=
  '(hash, transPos) ← readHash transSec transPos;
  '(index, transPos) ← readU32 transSec transPos;
  '(script_length, transPos) ← readVarLen transSec transPos;
  '(script, transPos) ← readBufferAdvance transSec transPos script_length;
  '(seq, transPos) ← readU32 transSec transPos;
  Some ({| in_hash := hash; in_index := index; in_script_length := script_length;
           in_script := script; in_seq := seq |}, transPos).

(** [for (i = 0; i < in_count; i++) tx.ins.push_back(txin)] *)
Fixpoint read_ins (n : nat) (ins : list Txin) (transPos : Z) : option (list Txin * Z) :=
  match n with
  | O => Some (ins, transPos)
  | S n' =>
      '(txin, transPos) ← read_txin transPos;
      read_ins n' (ins ++ [txin]) transPos
  end.

(** One output; the sum of the outputs is kept for the first transaction only,
    and a script that does not decode is logged. *)
Definition read_txout (blocknumber txnumber : Z) (sumoutvalue : Z) (transPos : Z)
    : option (Txout * Z * list log_event * Z) :=
  '(val, transPos) ← readU64 transSec transPos;
  let sumoutvalue := if txnumber =? 0 then w64 (sumoutvalue + val) else sumoutvalue in
  '(script_length, transPos) ← readVarLen transSec transPos;
  '(script, transPos) ← readBufferAdvance transSec transPos script_length;
  let '(ok, address) := outAddress script script_length in
  let log := if ok then [] else [OutAddressError blocknumber txnumber] in
  Some ({| out_val := val; out_script_length := script_length; out_script := script;
           out_address := address |}, sumoutvalue, log, transPos).

Fixpoint read_outs (blocknumber txnumber : Z) (n : nat) (outs : list Txout) (sumoutvalue : Z)
    (log : list log_event) (transPos : Z) : option (list Txout * Z * list log_event * Z) :=
  match n with
  | O => Some (outs, sumoutvalue, log, transPos)
  | S n' =>
      '(txout, sumoutvalue, l, transPos) ← read_txout blocknumber txnumber sumoutvalue transPos;
      read_outs blocknumber txnumber n' (outs ++ [txout]) sumoutvalue (log ++ l) transPos
  end.

(** A transaction: the structure, the sum of its outputs (0 unless it is the
    first of its block), what is logged and the position after it. *)
Definition read_transaction (blocknumber txNum txcounter timeStamp : Z) (transPos : Z)
    : option (Transaction * Z * list log_event * Z) :=
  let tx_start := transPos in
  '(ver, transPos) ← readU32 transSec transPos;
  '(in_count, transPos) ← readVarLen transSec transPos;
  '(ins, transPos) ← read_ins (Z.to_nat in_count) [] transPos;
  '(out_count, transPos) ← readVarLen transSec transPos;
  '(outs, sumoutvalue, log, transPos) ←
    read_outs blocknumber txNum (Z.to_nat out_count) [] 0 [] transPos;
  '(lock_time, transPos) ← readU32 transSec transPos;
  let tx_end := transPos in
  let length := tx_end - tx_start in
  section ← peek transSec tx_start length;
  let tx := {|
    ver := ver; in_count := in_count; ins := ins; out_count := out_count; outs := outs;
    lock_time := lock_time; tx_blocknumber := blocknumber; txnumber := txNum;
    txcounter := w32 txcounter; tx_length := length; txtime := timeStamp;
    tx_curhash := twiceSHA256 section length |} in
  Some (tx, sumoutvalue, log, transPos).
End reader.

(** ** The wire format *)

(** The variable-length integers of the protocol, up to 32 bits. *)
Definition varint (n : Z) : list Z :=
  if n <? 0xfd then [n]
  else if n <? 0x1_0000 then 0xfd :: le_bytes 2 n
  else 0xfe :: le_bytes 4 n.

Record raw_in := {
  ri_hash : list Z; ri_index : Z; ri_script : list Z; ri_seq : Z }.
Record raw_out := { ro_val : Z; ro_script : list Z }.
Record raw_tx := {
  rt_ver : Z; rt_ins : list raw_in; rt_outs : list raw_out; rt_lock_time : Z }.

Definition ser_script (s : list Z) : list Z := varint (Z.of_nat (length s)) ++ s.
Definition ser_in (i : raw_in) : list Z :=
  ri_hash i ++ le_bytes 4 (ri_index i) ++ ser_script (ri_script i) ++ le_bytes 4 (ri_seq i).
Definition ser_out (o : raw_out) : list Z := le_bytes 8 (ro_val o) ++ ser_script (ro_script o).
Definition ser_list {A} (ser : A -> list Z) (l : list A) : list Z :=
  varint (Z.of_nat (length l)) ++ flat_map ser l.
Definition ser_tx (t : raw_tx) : list Z :=
  le_bytes 4 (rt_ver t) ++ ser_list ser_in (rt_ins t) ++ ser_list ser_out (rt_outs t)
  ++ le_bytes 4 (rt_lock_time t).

(** Values that fit their fields. *)
Definition script_ok (s : list Z) : Prop := bytes s /\ is32 (Z.of_nat (length s)).
Definition raw_in_ok (i : raw_in) : Prop :=
  bytes (ri_hash i) /\ length (ri_hash i) = 32%nat /\ is32 (ri_index i) /\ is32 (ri_seq i)
  /\ script_ok (ri_script i).
Definition raw_out_ok (o : raw_out) : Prop := is64 (ro_val o) /\ script_ok (ro_script o).
Definition raw_tx_ok (t : raw_tx) : Prop :=
  is32 (rt_ver t) /\ is32 (rt_lock_time t)
  /\ is32 (Z.of_nat (length (rt_ins t))) /\ is32 (Z.of_nat (length (rt_outs t)))
  /\ Forall raw_in_ok (rt_ins t) /\ Forall raw_out_ok (rt_outs t).

(** What a parsed input, output and transaction hold. *)
Definition txin_of (i : raw_in) : Txin :=
  {| in_hash := ri_hash i; in_index := ri_index i;
     in_script_length := Z.of_nat (length (ri_script i)); in_script := ri_script i;
     in_seq := ri_seq i |}.
Definition out_decoded (o : raw_out) : bool * list Z :=
  outAddress (ro_script o) (Z.of_nat (length (ro_script o))).
Definition txout_of (o : raw_out) : Txout :=
  {| out_val := ro_val o; out_script_length := Z.of_nat (length (ro_script o));
     out_script := ro_script o; out_address := snd (out_decoded o) |}.
Definition tx_of (blocknumber txNum txcounter timeStamp : Z) (t : raw_tx) : Transaction :=
  {| ver := rt_ver t; in_count := Z.of_nat (length (rt_ins t)); ins := map txin_of (rt_ins t);
     out_count := Z.of_nat (length (rt_outs t)); outs := map txout_of (rt_outs t);
     lock_time := rt_lock_time t; tx_blocknumber := blocknumber; txnumber := txNum;
     txcounter := w32 txcounter; tx_length := Z.of_nat (length (ser_tx t)); txtime := timeStamp;
     tx_curhash := sha256d (ser_tx t) |}.
Definition sum_outs (l : list raw_out) : Z := fold_right (fun o s => ro_val o + s) 0 l.
Definition decode_errors (blocknumber txNum : Z) (l : list raw_out) : list log_event :=
  flat_map (fun o => if fst (out_decoded o) then [] else [OutAddressError blocknumber txNum]) l.

(** ** The reader inverts the wire format *)

(** The bytes [bs] are at offset [p] of [mem], and offsets up to their end are [int]s. *)
Definition has (mem : list Z) (p : Z) (bs : list Z) : Prop :=
  exists pre post, mem = pre ++ bs ++ post /\ Z.of_nat (length pre) = p /\ p + Z.of_nat (length bs) <= INT_MAX.

Lemma has_end mem p bs : has mem p bs -> 0 <= p /\ p + Z.of_nat (length bs) <= INT_MAX.
Proof. intros (pre & post & _ & <- & H). lia. Qed.

Lemma has_peek mem p bs n : has mem p bs -> Z.of_nat (length bs) = n -> peek mem p n = Some bs.
Proof.
  intros (pre & post & -> & <- & _) <-. unfold peek. rewrite !length_app.
  rewrite (proj2 (Z.leb_le 0 _)), (proj2 (Z.leb_le 0 _)), (proj2 (Z.leb_le _ _)) by lia.
  cbn [andb]. by rewrite !Nat2Z.id, drop_app_length, take_app_length.
Qed.

Lemma has_app mem p a b :
  has mem p (a ++ b) -> has mem p a /\ has mem (p + Z.of_nat (length a)) b.
Proof.
  intros (pre & post & -> & <- & H). rewrite length_app in H. split.
  - exists pre, (b ++ post). rewrite <- app_assoc. split_and!; [done..|lia].
  - exists (pre ++ a), post. rewrite <- !app_assoc, length_app. split_and!; [done|lia|lia].
Qed.

(** A reader [r] reads the value [v] from the bytes [bs]. *)
Definition reads {A} (r : list Z -> Z -> option (A * Z)) (bs : list Z) (v : A) : Prop :=
  forall mem p, has mem p bs -> r mem p = Some (v, p + Z.of_nat (length bs)).

Lemma le_bytes_read n v : 0 <= v < 0x100 ^ Z.of_nat n -> le_val (le_bytes n v) = v.
Proof. intros H. rewrite le_val_le_bytes. by apply Z.mod_small. Qed.

Lemma reads_le n (r : list Z -> Z -> option (Z * Z)) v :
  (forall mem p, r mem p = (bs ← peek mem p (Z.of_nat n); p ← as_int (p + Z.of_nat n); Some (le_val bs, p))) ->
  0 <= v < 0x100 ^ Z.of_nat n -> reads r (le_bytes n v) v.
Proof.
  intros Hr Hv mem p H. destruct (has_end _ _ _ H) as [H0 H1]. rewrite length_le_bytes in H1.
  rewrite Hr, (has_peek _ _ (le_bytes n v)) by (by rewrite ?length_le_bytes). cbn [mbind option_bind].
  rewrite as_int_Some by lia. cbn. by rewrite le_bytes_read, length_le_bytes.
Qed.

Lemma reads_U16 v : 0 <= v < 0x1_0000 -> reads readU16 (le_bytes 2 v) v.
Proof. by apply (reads_le 2). Qed.
Lemma reads_U32 v : is32 v -> reads readU32 (le_bytes 4 v) v.
Proof. by apply (reads_le 4). Qed.
Lemma reads_U64 v : is64 v -> reads readU64 (le_bytes 8 v) v.
Proof. by apply (reads_le 8). Qed.

Lemma reads_Hash h : length h = 32%nat -> reads readHash h h.
Proof.
  intros Hl mem p H. destruct (has_end _ _ _ H). unfold readHash. rewrite (has_peek _ _ h); [|done|lia]. cbn [mbind option_bind].
  rewrite as_int_Some by lia. cbn. by rewrite Hl.
Qed.

Lemma reads_Buffer s :
  reads (fun mem p => readBufferAdvance mem p (Z.of_nat (length s))) s s.
Proof.
  intros mem p H. destruct (has_end _ _ _ H). unfold readBufferAdvance. rewrite (has_peek _ _ s) by done. cbn [mbind option_bind].
  by rewrite as_int_Some by lia.
Qed.

(** Take the next field off the bytes at hand: the reader is known to read it. *)
Ltac read_next H lem :=
  let H1 := fresh "Hf" in
  apply has_app in H as [H1 H]; rewrite (lem _ _ H1); cbn [mbind option_bind]; clear H1.

Lemma reads_VarLen n : is32 n -> reads readVarLen (varint n) n.
Proof.
  intros Hn mem p H. unfold is32 in Hn. unfold readVarLen.
  assert (reads readU8 [w8 (hd 0 (varint n))] (hd 0 (varint n))) as H8.
  { replace [w8 _] with (le_bytes 1 (hd 0 (varint n))) by reflexivity.
    apply (reads_le 1); [done|]. unfold varint.
    destruct (Z.ltb_spec n 0xfd); [simpl; lia|]. destruct (_ <? _); simpl; lia. }
  unfold varint in *. destruct (Z.ltb_spec n 0xfd) as [Hlt|Hge]; [|destruct (Z.ltb_spec n 0x1_0000)].
  - cbn [hd] in H8. rewrite w8_small in H8 by (unfold is8; lia). rewrite (H8 _ _ H).
    cbn [mbind option_bind]. rewrite (proj2 (Z.ltb_lt n 0xfd) Hlt). reflexivity.
  - change (0xfd :: ?l) with ([0xfd] ++ l) in *. read_next H H8. cbn -[readU16 has] in H |- *.
    rewrite (reads_U16 n ltac:(lia) _ _ H). do 2 f_equal. rewrite length_le_bytes. simpl. lia.
  - change (0xfe :: ?l) with ([0xfe] ++ l) in *. read_next H H8. cbn -[readU32 has] in H |- *.
    rewrite (reads_U32 n ltac:(unfold is32; lia) _ _ H). do 2 f_equal. rewrite length_le_bytes. simpl. lia.
Qed.

Ltac pos_eq := repeat rewrite length_app; rewrite ?length_le_bytes; lia.

Lemma reads_txin i : raw_in_ok i -> reads read_txin (ser_in i) (txin_of i).
Proof.
  intros (Hb & Hl & Hidx & Hseq & Hs & Hsl) mem p H. unfold read_txin, ser_in, ser_script in *.
  rewrite <- !app_assoc in H.
  read_next H (reads_Hash (ri_hash i) Hl). read_next H (reads_U32 _ Hidx).
  read_next H (reads_VarLen _ Hsl). read_next H (reads_Buffer (ri_script i)).
  rewrite (reads_U32 _ Hseq _ _ H). cbn. do 2 f_equal. pos_eq.
Qed.

Lemma read_ins_spec l acc mem p :
  Forall raw_in_ok l -> has mem p (flat_map ser_in l) ->
  read_ins mem (length l) acc p
  = Some (acc ++ map txin_of l, p + Z.of_nat (length (flat_map ser_in l))).
Proof.
  intros Hl. revert acc p. induction Hl as [|i l Hi Hl IH]; intros acc p H.
  - cbn. by rewrite app_nil_r, Z.add_0_r.
  - cbn [flat_map length read_ins map] in *. read_next H (reads_txin i Hi).
    rewrite IH by exact H. rewrite <- app_assoc. do 2 f_equal. pos_eq.
Qed.

Lemma read_txout_spec bn tn o sum mem p :
  raw_out_ok o -> has mem p (ser_out o) ->
  read_txout mem bn tn sum p
  = Some (txout_of o, (if tn =? 0 then w64 (sum + ro_val o) else sum),
          decode_errors bn tn [o], p + Z.of_nat (length (ser_out o))).
Proof.
  intros (Hv & Hs & Hsl) H. unfold read_txout, ser_out, ser_script in *.
  read_next H (reads_U64 _ Hv). read_next H (reads_VarLen _ Hsl).
  rewrite (reads_Buffer (ro_script o) _ _ H). cbn [mbind option_bind].
  unfold decode_errors, txout_of, out_decoded. cbn [flat_map].
  destruct (outAddress _ _) as [ok address]. cbn [fst snd]. rewrite app_nil_r.
  do 2 f_equal. pos_eq.
Qed.

Lemma sum_outs_cons_w64 sum o l :
  w64 (w64 (sum + ro_val o) + sum_outs l) = w64 (sum + sum_outs (o :: l)).
Proof.
  unfold w64. rewrite Zplus_mod_idemp_l. f_equal. unfold sum_outs. simpl. lia.
Qed.

Lemma read_outs_spec bn tn l acc sum log mem p :
  Forall raw_out_ok l -> has mem p (flat_map ser_out l) -> is64 sum ->
  read_outs mem bn tn (length l) acc sum log p
  = Some (acc ++ map txout_of l, (if tn =? 0 then w64 (sum + sum_outs l) else sum),
          log ++ decode_errors bn tn l, p + Z.of_nat (length (flat_map ser_out l))).
Proof.
  intros Hl. revert acc sum log p. induction Hl as [|o l Ho Hl IH]; intros acc sum log p H Hsum.
  - cbn. rewrite !app_nil_r, !Z.add_0_r, w64_small by exact Hsum. by destruct (tn =? 0).
  - cbn [flat_map length read_outs map] in *. apply has_app in H as [H1 H].
    rewrite (read_txout_spec bn tn o sum mem p Ho H1). cbn [mbind option_bind].
    rewrite IH; [|exact H|destruct (tn =? 0); auto with words].
    unfold decode_errors. cbn [flat_map]. rewrite app_nil_r, <- !app_assoc.
    destruct (tn =? 0); [rewrite sum_outs_cons_w64|]; do 2 f_equal; pos_eq.
Qed.

Lemma bytes_varint n : is32 n -> bytes (varint n).
Proof.
  unfold is32, varint. intros Hn. destruct (Z.ltb_spec n 0xfd).
  - apply bytes_1. unfold is8. lia.
  - destruct (n <? 0x1_0000); apply bytes_cons; (split; [unfold is8; lia|apply bytes_le_bytes]).
Qed.

Lemma bytes_ser_script s : script_ok s -> bytes (ser_script s).
Proof. intros [Hb Hl]. apply bytes_app. split; [by apply bytes_varint|exact Hb]. Qed.

Lemma bytes_ser_in i : raw_in_ok i -> bytes (ser_in i).
Proof.
  intros (Hb & Hl & Hidx & Hseq & Hs). unfold ser_in. rewrite !bytes_app.
  auto 10 using bytes_le_bytes, bytes_ser_script.
Qed.

Lemma bytes_ser_out o : raw_out_ok o -> bytes (ser_out o).
Proof.
  intros [Hv Hs]. unfold ser_out. rewrite bytes_app. auto using bytes_le_bytes, bytes_ser_script.
Qed.

Lemma bytes_ser_list {A} (ser : A -> list Z) (P : A -> Prop) l :
  (forall x, P x -> bytes (ser x)) -> Forall P l -> is32 (Z.of_nat (length l)) ->
  bytes (ser_list ser l).
Proof.
  intros Hser Hl Hlen. apply bytes_app. split; [by apply bytes_varint|].
  clear Hlen. induction Hl as [|x l Hx Hl IH]; cbn [flat_map]; [apply bytes_nil|].
  apply bytes_app. auto.
Qed.

Lemma bytes_ser_tx t : raw_tx_ok t -> bytes (ser_tx t).
Proof.
  intros (? & ? & Hi & Ho & Hins & Houts). unfold ser_tx. rewrite !bytes_app.
  pose proof (bytes_ser_list _ _ _ bytes_ser_in Hins Hi).
  pose proof (bytes_ser_list _ _ _ bytes_ser_out Houts Ho).
  auto using bytes_le_bytes.
Qed.

(** The whole transaction: every field, the hash of exactly its bytes, the sum
    of the outputs of the first transaction of a block, and a log entry per
    undecodable output. *)
Lemma read_transaction_spec bn tn tc ts t mem p :
  raw_tx_ok t -> Z.of_nat (length (ser_tx t)) < 0x1_0000_0000 -> has mem p (ser_tx t) ->
  read_transaction mem bn tn tc ts p
  = Some (tx_of bn tn tc ts t, (if tn =? 0 then w64 (sum_outs (rt_outs t)) else 0),
          decode_errors bn tn (rt_outs t), p + Z.of_nat (length (ser_tx t))).
Proof.
  intros Hok Hlen Hall. pose proof (bytes_ser_tx t Hok) as Hbytes.
  destruct Hok as (Hver & Hlock & Hni & Hno & Hins & Houts).
  pose proof Hall as H. unfold read_transaction. unfold ser_tx, ser_list in H.
  rewrite <- !app_assoc in H.
  read_next H (reads_U32 _ Hver). read_next H (reads_VarLen _ Hni).
  apply has_app in H as [H1 H]. rewrite Nat2Z.id, (read_ins_spec _ _ _ _ Hins H1).
  cbn [mbind option_bind app]. clear H1. read_next H (reads_VarLen _ Hno).
  apply has_app in H as [H1 H]. rewrite Nat2Z.id.
  rewrite (read_outs_spec bn tn _ _ _ _ _ _ Houts H1) by (unfold is64; lia).
  cbn [mbind option_bind app]. clear H1.
  rewrite (reads_U32 _ Hlock _ _ H). cbn [mbind option_bind]. clear H.
  match goal with |- context [peek mem p ?e] =>
    replace e with (Z.of_nat (length (ser_tx t)))
      by (unfold ser_tx, ser_list; pos_eq) end.
  rewrite (has_peek mem p (ser_tx t) _ Hall eq_refl). cbn [mbind option_bind].
  rewrite (twiceSHA256_spec _ Hbytes Hlen), Z.add_0_l. do 2 f_equal.
  unfold ser_tx, ser_list. pos_eq.
Qed.

(** C8: parsing a serialized transaction, wherever it stands in the section,
    gives back every field of it, with the address of each output, the number
    of bytes it takes, the double SHA-256 of exactly those bytes as its hash,
    the sum of its outputs modulo 2^64 if it is the first of the block (0
    otherwise), a log entry per undecodable output, and the position of the
    byte after it, which must be an [int]. *)
Theorem read_transaction_roundtrip bn tn tc ts t pre post :
  raw_tx_ok t -> Z.of_nat (length pre + length (ser_tx t)) <= INT_MAX ->
  read_transaction (pre ++ ser_tx t ++ post) bn tn tc ts (Z.of_nat (length pre))
  = Some (tx_of bn tn tc ts t, (if tn =? 0 then w64 (sum_outs (rt_outs t)) else 0),
          decode_errors bn tn (rt_outs t), Z.of_nat (length pre + length (ser_tx t))).
Proof.
  intros Hok Hlen. unfold INT_MAX in Hlen. rewrite Nat2Z.inj_add. apply read_transaction_spec; [done|lia|].
  exists pre, post. unfold INT_MAX. split_and!; [done..|lia].
Qed.

(** A transaction with one input and two outputs, one of them undecodable. *)
Definition sample_tx : raw_tx :=
  {| rt_ver := 1;
     rt_ins := [{| ri_hash := replicate 32 0xab; ri_index := 3; ri_script := [0x51; 0x52];
                   ri_seq := 0xffff_ffff |}];
     rt_outs := [{| ro_val := 5000; ro_script := p2pkh (replicate 20 0x11) |};
                 {| ro_val := 7; ro_script := replicate 26 0x61 |}];
     rt_lock_time := 0 |}.

Lemma sample_tx_ok : raw_tx_ok sample_tx.
Proof.
  unfold raw_tx_ok, sample_tx, raw_in_ok, raw_out_ok, script_ok, is32, is64. cbn -[bytes].
  assert (forall n b, is8 b -> bytes (replicate n b)) as Hr by (intros; by apply Forall_replicate).
  repeat constructor; cbn -[bytes]; try lia; try (apply Hr; unfold is8; lia).
Qed.

Lemma read_transaction_roundtrip_witness :
  option_map (fun '(tx, sum, log, pos) => (map out_address (outs tx), sum, log, pos))
    (read_transaction ([0; 1] ++ ser_tx sample_tx ++ [9]) 12 0 34 56 2)
  = Some ([replicate 20 0x11; RIPEMD160.computeRIPEMD160 (replicate 26 0x61) 26],
          5007, [OutAddressError 12 0], 124).
Proof.
  pose proof (read_transaction_roundtrip 12 0 34 56 sample_tx [0; 1] [9]) as H.
  change (Z.of_nat (length [0; 1])) with 2 in H. rewrite H.
  - vm_compute. reflexivity.
  - apply sample_tx_ok.
  - apply Z.leb_le. vm_compute. reflexivity.
Defined.

(** A variable-length integer of up to 32 bits is read back; the 64-bit form
    is not supported: it reads as 0 and only its first byte is consumed. *)
Theorem readVarLen_roundtrip n pre post :
  is32 n -> Z.of_nat (length pre + length (varint n)) <= INT_MAX ->
  readVarLen (pre ++ varint n ++ post) (Z.of_nat (length pre))
  = Some (n, Z.of_nat (length pre + length (varint n)))
  /\ readVarLen (pre ++ 0xff :: post) (Z.of_nat (length pre))
     = Some (0, Z.of_nat (length pre + 1)).
Proof.
  intros Hn Hl. rewrite !Nat2Z.inj_add in *. split.
  - apply reads_VarLen; [done|]. exists pre, post. split_and!; [done..|lia].
  - assert (1 <= length (varint n))%nat by (unfold varint; repeat destruct (_ <? _); cbn; lia).
    unfold readVarLen, readU8. rewrite (has_peek _ _ [0xff] 1); [|exists pre, post; cbn [length]; split_and!; [done..|lia]|done].
    cbn [mbind option_bind]. rewrite as_int_Some by lia. reflexivity.
Qed.

Lemma readVarLen_roundtrip_witness :
  readVarLen ([1; 2; 3] ++ [0xfd; 0x2c; 0x01] ++ [4]) 3 = Some (300, 6).
Proof. apply (readVarLen_roundtrip 300 [1; 2; 3] [4]); [unfold is32; lia|]. apply Z.leb_le. reflexivity. Defined.
