(* ===== verification/Base58.v ===== *)
(** * Base58 and textual addresses: namespaces BLOCKCHAIN_BASE58 and
    BLOCKCHAIN_BITCOIN_ADDRESS of src/BitcoinAnalysis/hash.h

    Arbitrary-precision numbers with little-endian base-256 digits, the Base58
    encoder and decoder built on them, and the conversions between 25-byte
    addresses and text.  [None] is an access outside an array; the results of
    the functions that cannot fail are not modelled. *)
From Stdlib Require Import String Ascii.
From stdpp Require Import base strings numbers option list.
From S2P Require Import Prelude Ripemd160 Sha256 Block.
Open Scope Z_scope.

Module BASE58.

(** ** Big numbers *)

Definition MAX_BIG_NUMBER : nat := 256.

(** [data] is the whole array; the number is in its first [bn_length] bytes. *)
Record BigNumber := { data : list Z; bn_length : nat }.

Definition newBigNumber (sourceData : option (list Z)) (len : nat) : option BigNumber :=
  if (len <=? MAX_BIG_NUMBER)%nat then
    Some {| data := match sourceData with
                    | Some src => take len src ++ replicate (MAX_BIG_NUMBER - len) 0
                    | None => replicate MAX_BIG_NUMBER 0
                    end; bn_length := len |}
  else None.

Definition digits (a : BigNumber) : list Z := take (bn_length a) (data a).

(** Write the digits [l] and set the length to theirs. *)
Definition put (l : list Z) (a : BigNumber) : option BigNumber :=
  if (length l <=? MAX_BIG_NUMBER)%nat
  then Some {| data := l ++ drop (length l) (data a); bn_length := length l |} else None.

Inductive BigNumberCompare := CB_COMPARE_MORE_THAN | CB_COMPARE_EQUAL | CB_COMPARE_LESS_THAN.

Definition BigNumberCompareTo58 (a : BigNumber) : BigNumberCompare :=
  if (1 <? bn_length a)%nat then CB_COMPARE_MORE_THAN
  else if 58 <? nthZ (data a) 0 then CB_COMPARE_MORE_THAN
  else if nthZ (data a) 0 <? 58 then CB_COMPARE_LESS_THAN
  else CB_COMPARE_EQUAL.

(** [for (x = a->length; x--;)] over the digits from the most significant one. *)
Fixpoint compare_loop (la lb : list Z) : BigNumberCompare :=
  match la, lb with
  | a :: la', b :: lb' =>
      if a <? b then CB_COMPARE_LESS_THAN
      else if b <? a then CB_COMPARE_MORE_THAN else compare_loop la' lb'
  | _, _ => CB_COMPARE_EQUAL
  end.

Definition BigNumberCompareToBigInt (a b : BigNumber) : BigNumberCompare :=
  if (bn_length b <? bn_length a)%nat then CB_COMPARE_MORE_THAN
  else if (bn_length a <? bn_length b)%nat then CB_COMPARE_LESS_THAN
  else compare_loop (reverse (digits a)) (reverse (digits b)).

(** [while (overflow && x < a->length) overflow = !++a->data[x++]] *)
Fixpoint carry_loop (overflow : bool) (la : list Z) : list Z * bool :=
  match la with
  | [] => ([], overflow)
  | a :: la' =>
      if overflow then
        let s := w8 (a + 1) in
        let '(r, c) := carry_loop (s =? 0) la' in (s :: r, c)
      else (a :: la', false)
  end.

(** [for (; x < b->length; x++)], then the propagation of the overflow. *)
Fixpoint add_loop (overflow : bool) (la lb : list Z) : list Z * bool :=
  match lb, la with
  | b :: lb', a :: la' =>
      let o := if overflow then 1 else 0 in
      let s := w8 (a + (b + o)) in
      let '(r, c) := add_loop (s <? b + o) la' lb' in (s :: r, c)
  | _, _ => carry_loop overflow la
  end.

Definition BigNumberEqualsAdditionByBigInt (a b : BigNumber) : option BigNumber :=
  let la := digits a ++ replicate (bn_length b - bn_length a) 0 in
  let '(r, overflow) := add_loop false la (digits b) in
  put (if overflow : bool then r ++ [1] else r) a.

(** The long division, from the most significant digit. *)
Fixpoint div_loop (temp : Z) (l : list Z) : list Z :=
  match l with
  | [] => []
  | d :: l' =>
      let temp := Z.lor (w16 (Z.shiftl temp 8)) d in
      let q := w8 (temp / 58) in
      q :: div_loop (temp - q * 58) l'
  end.

Definition is_zero1 (a : BigNumber) : bool := (bn_length a =? 1)%nat && (nthZ (data a) 0 =? 0).

Definition BigNumberEqualsDivisionBy58 (a : BigNumber) : option BigNumber :=
  if is_zero1 a then Some a
  else
    let ans := reverse (div_loop 0 (reverse (digits a))) in
    let len := if nthZ ans (Z.of_nat (bn_length a) - 1) =? 0 then (bn_length a - 1)%nat
               else bn_length a in
    put (take len ans) a.

Fixpoint mul_loop (b carry : Z) (l : list Z) : list Z * Z :=
  match l with
  | [] => ([], carry)
  | d :: l' =>
      let carry := w16 (carry + d * b) in
      let '(r, c) := mul_loop b (Z.shiftr carry 8) l' in (w8 carry :: r, c)
  end.

Definition BigNumberEqualsMultiplicationByUInt8 (a : BigNumber) (b : Z) : option BigNumber :=
  if b =? 0 then put [0] a
  else if is_zero1 a then Some a
  else
    let '(r, carry) := mul_loop b 0 (digits a) in
    put (if carry =? 0 then r else r ++ [w8 carry]) a.

(** [while (a->length > 1 && !a->data[a->length - 1]) a->length--;] *)
Fixpoint normal_length (n : nat) (l : list Z) : nat :=
  match n with
  | S (S _ as n') => if nthZ l (Z.of_nat n') =? 0 then normal_length n' l else n
  | _ => n
  end.

Definition BigNumberNormalise (a : BigNumber) : BigNumber :=
  {| data := data a; bn_length := normal_length (bn_length a) (data a) |}.

(** [b->length] digits are subtracted; a borrow out of them is taken from the
    digit after them. *)
Fixpoint sub_loop (carry : bool) (la lb : list Z) : option (list Z) :=
  match lb, la with
  | b :: lb', a :: la' =>
      let tmp := (if carry then 1 else 0) + b in
      r ← sub_loop (a <? tmp) la' lb'; Some (w8 (a - w8 tmp) :: r)
  | [], a :: la' => Some (if carry then w8 (a - 1) :: la' else a :: la')
  | [], [] => if carry then None else Some []
  | _ :: _, [] => None
  end.

Definition BigNumberEqualsSubtractionByBigInt (a b : BigNumber) : option BigNumber :=
  r ← sub_loop false (data a) (digits b);
  Some (BigNumberNormalise {| data := r; bn_length := bn_length a |}).

Fixpoint sub8_loop (carry : Z) (l : list Z) : option (list Z) :=
  match l with
  | [] => None
  | d :: l' =>
      if d <? carry then r ← sub8_loop 1 l'; Some (w8 (255 - carry + d + 1) :: r)
      else Some (w8 (d - carry) :: l')
  end.

Definition BigNumberEqualsSubtractionByUInt8 (a : BigNumber) (b : Z) : option BigNumber :=
  r ← sub8_loop b (data a);
  Some (BigNumberNormalise {| data := r; bn_length := bn_length a |}).

(** [for (x = 0; x < b; x++)] *)
Fixpoint pow_loop (n : nat) (a : Z) (bi : BigNumber) : option BigNumber :=
  match n with
  | O => Some bi
  | S n' => bi ← BigNumberEqualsMultiplicationByUInt8 bi a; pow_loop n' a bi
  end.

Definition BigNumberFromPowUInt8 (bi : BigNumber) (a b : Z) : option BigNumber :=
  bi ← put [1] bi; pow_loop (Z.to_nat b) a bi.

Fixpoint mod_loop (result : Z) (l : list Z) : Z :=
  match l with
  | [] => result
  | d :: l' => mod_loop ((((result * (256 mod 58)) mod 58) + d mod 58) mod 58) l'
  end.

(** An empty number would be read at index [2^32 - 1]. *)
Definition BigNumberModuloWith58 (a : BigNumber) : option Z :=
  match digits a with
  | [] => None
  | _ => Some (w8 (mod_loop 0 (reverse (digits a))))
  end.

(** ** The encoder and the decoder

    Strings are lists of character codes, without the final zero. *)
Definition base58Characters : list Z :=
  map (fun c => Z.of_nat (nat_of_ascii c))
    (list_ascii_of_string "123456789ABCDEFGHJKLMNPQRSTUVWXYZabcdefghijkmnopqrstuvwxyz").

(** The index of a character, as unsigned 8-bit arithmetic computes it; [char]
    is signed. *)
Definition alphaIndex (c : Z) : Z :=
  let s := if c <? 128 then c else c - 256 in
  if s <? 58 then w8 (c - 49)
  else if s <? 73 then w8 (c - 56)
  else if s <? 79 then w8 (c - 57)
  else if s <? 91 then w8 (c - 58)
  else if s <? 108 then w8 (c - 64)
  else w8 (c - 65).

(** [for (x = slen - 1;; x--)]: the characters from the last to the first; [k] is
    [slen - 1 - x]. *)
Fixpoint decode_loop (l : list Z) (k : Z) (bi bi2 : BigNumber) : option BigNumber :=
  match l with
  | [] => Some bi
  | c :: l' =>
      if c =? 49 then decode_loop l' (k + 1) bi bi2
      else
        bi2 ← BigNumberFromPowUInt8 bi2 58 (w8 k);
        bi2 ← BigNumberEqualsMultiplicationByUInt8 bi2 (alphaIndex c);
        bi ← BigNumberEqualsAdditionByBigInt bi bi2;
        decode_loop l' (k + 1) bi bi2
  end.

(** The number of leading ['1'] characters. *)
Fixpoint leading (c : Z) (l : list Z) : nat :=
  match l with
  | x :: l' => if x =? c then S (leading c l') else O
  | [] => O
  end.

Definition CBDecodeBase58 (bi : BigNumber) (str : list Z) : option BigNumber :=
  match str with
  | [] => None
  | _ =>
      bi2 ← newBigNumber None 1;
      bi ← decode_loop (reverse str) 0 bi bi2;
      let zeros := leading 49 str in
      if (zeros =? 0)%nat then Some bi
      else put (digits bi ++ replicate zeros 0) bi
  end.

(** [for (; BigNumberCompareTo58(bi) >= 0; x++)]: the characters written so far
    are in [acc], the last one first; the inner option is a failure that the
    function reports. *)
Fixpoint encode_loop (fuel : nat) (bi : BigNumber) (x maxStrLen : nat) (acc : list Z)
    : option (option (BigNumber * list Z)) :=
  match fuel with
  | O => None
  | S fuel' =>
      match BigNumberCompareTo58 bi with
      | CB_COMPARE_LESS_THAN => Some (Some (bi, acc))
      | _ =>
          mod58 ← BigNumberModuloWith58 bi;
          if (bn_length bi <? x + 3)%nat && (maxStrLen <? x + 3)%nat then Some None
          else
            bi ← BigNumberEqualsSubtractionByUInt8 bi mod58;
            bi ← BigNumberEqualsDivisionBy58 bi;
            encode_loop fuel' bi (S x) maxStrLen (nthZ base58Characters mod58 :: acc)
      end
  end.

(** Two characters per byte are enough turns; [reverse] is the final exchange
    loop, undone by [acc] being in reverse order. *)
Definition CBEncodeBase58 (bi : BigNumber) (maxStrLen : nat) : option (option (list Z)) :=
  if (maxStrLen <? bn_length bi)%nat then Some None
  else
    match digits bi with
    | [] => None
    | _ =>
        let zeros := leading 0 (reverse (digits bi)) in
        res ← encode_loop (2 * bn_length bi + 1) bi zeros maxStrLen [];
        match res with
        | None => Some None
        | Some (bi, acc) =>
            d ← data bi !! (bn_length bi - 1)%nat;
            c ← base58Characters !! Z.to_nat d;
            Some (Some (replicate zeros 49 ++ c :: acc))
        end
    end.

(** [encodeBase58]: the local array has 25 bytes and, in the little-endian case,
    25 bytes are always read. *)
Definition encodeBase58 (bigNumber : list Z) (len : nat) (littleEndian : bool) (maxStrLen : nat)
    : option (option (list Z)) :=
  hash ← (if littleEndian then
            if bool_decide (25 <= len <= length bigNumber)%nat
            then Some (take 25 (reverse (take len bigNumber))) else None
          else if bool_decide (len <= 25 /\ len <= length bigNumber)%nat
               then Some (take len bigNumber) else None);
  if (len <=? 25)%nat then
    bn ← newBigNumber (Some hash) len;
    CBEncodeBase58 bn maxStrLen
  else None.

(** [decodeBase58]: its result and the bytes it writes to the output. *)
Definition decodeBase58 (string : list Z) (maxOutputLength : nat) (littleEndian : bool)
    : option (nat * list Z) :=
  bn ← newBigNumber None 0;
  bn ← CBDecodeBase58 bn string;
  if (bn_length bn <=? maxOutputLength)%nat
  then Some (bn_length bn, if littleEndian then reverse (digits bn) else digits bn)
  else Some (0%nat, []).

(** ** Textual addresses *)

(** [bitcoinPublicKeyToAscii]: [None] inside is a false result. *)
Definition bitcoinPublicKeyToAscii (input : list Z) (maxOutputLen : nat) : option (option (list Z)) :=
  let '(ok, hash2) := bitcoinPublicKeyToAddress input (replicate 25 0) in
  if ok : bool then encodeBase58 hash2 25 true maxOutputLen else Some None.

Definition bitcoinAsciiToAddress (input : list Z) : option (bool * list Z) :=
  '(len, output) ← decodeBase58 input 25 true;
  if (len =? 25)%nat then
    let checksum := SHA256.computeSHA256 output 21 in
    let checksum := SHA256.computeSHA256 checksum 32 in
    Some ((nthZ output 21 =? nthZ checksum 0) || (nthZ output 22 =? nthZ checksum 1)
          || (nthZ output 23 =? nthZ checksum 2) || (nthZ output 24 =? nthZ checksum 3), output)
  else Some (false, output).

Definition bitcoinRIPEMD160ToAddress (ripeMD160 output : list Z) : list Z :=
  let output := <[0%nat := 0]> output in
  let output := SHA256.overwrite output 1 (take 20 ripeMD160) in
  let hash1 := SHA256.computeSHA256 output 21 in
  let hash1 := SHA256.computeSHA256 hash1 32 in
  let output := <[21%nat := nthZ hash1 0]> output in
  let output := <[22%nat := nthZ hash1 1]> output in
  let output := <[23%nat := nthZ hash1 2]> output in
  <[24%nat := nthZ hash1 3]> output.

Definition bitcoinAddressToAscii (address : list Z) (maxOutputLen : nat) : option (option (list Z)) :=
  encodeBase58 address 25 true maxOutputLen.

(** The known address of the genesis block. *)
Definition codes (s : string) : list Z := map (fun c => Z.of_nat (nat_of_ascii c)) (list_ascii_of_string s).
Example genesis_address :
  bitcoinAddressToAscii (bitcoinRIPEMD160ToAddress
    [0x62; 0xe9; 0x07; 0xb1; 0x5c; 0xbf; 0x27; 0xd5; 0x42; 0x53; 0x99; 0xeb; 0xf6; 0xf0; 0xfb; 0x50;
     0xeb; 0xb8; 0x8f; 0x18] (replicate 25 0)) 100
  = Some (Some (codes "1A1zP1eP5QGefi2DMPTfTL5SLmv7DivfNa")).
Proof. vm_compute. reflexivity. Qed.

Example genesis_address_back :
  option_map fst (bitcoinAsciiToAddress (codes "1A1zP1eP5QGefi2DMPTfTL5SLmv7DivfNa")) = Some true.
Proof. vm_compute. reflexivity. Qed.

(** ** Values *)

Definition val (a : BigNumber) : Z := le_val (digits a).

Record wf (a : BigNumber) : Prop := {
  wf_bytes : bytes (data a);
  wf_size : length (data a) = 256%nat;
  wf_len : (bn_length a <= 256)%nat }.

(** No leading zero digit. *)
Definition norm (l : list Z) : Prop := l <> [] /\ 0x100 ^ (Z.of_nat (length l) - 1) <= le_val l.

Lemma length_digits a : wf a -> length (digits a) = bn_length a.
Proof. intros Ha. unfold digits. rewrite length_take, (wf_size _ Ha). pose proof (wf_len _ Ha). lia. Qed.

Lemma bytes_digits a : wf a -> bytes (digits a).
Proof. intros Ha. apply bytes_take, (wf_bytes _ Ha). Qed.

Lemma put_spec l a :
  wf a -> bytes l -> (length l <= 256)%nat ->
  exists a', put l a = Some a' /\ wf a' /\ digits a' = l.
Proof.
  intros Ha Hl Hn. unfold put, MAX_BIG_NUMBER. rewrite (proj2 (Nat.leb_le _ _) Hn).
  eexists. split; [reflexivity|]. split.
  - split; cbn; [|rewrite length_app, length_drop, (wf_size _ Ha); lia|done].
    apply bytes_app. split; [done|]. apply bytes_drop, (wf_bytes _ Ha).
  - unfold digits. cbn. apply take_app_length.
Qed.

Lemma le_val_cons d l : le_val (d :: l) = d + 0x100 * le_val l.
Proof. reflexivity. Qed.

Lemma le_val_nil : le_val [] = 0.
Proof. reflexivity. Qed.

Lemma le_val_1 d : le_val [d] = d.
Proof. rewrite le_val_cons, le_val_nil. lia. Qed.

Lemma pow256_succ n : 0x100 ^ Z.of_nat (S n) = 0x100 * 0x100 ^ Z.of_nat n.
Proof. rewrite Nat2Z.inj_succ. apply Z.pow_succ_r. lia. Qed.

Lemma pow256_pos n : 0 < 0x100 ^ Z.of_nat n.
Proof. apply Z.pow_pos_nonneg; lia. Qed.

Lemma mul_loop_spec b l carry r c :
  is8 b -> bytes l -> is8 carry -> mul_loop b carry l = (r, c) ->
  le_val r + 0x100 ^ Z.of_nat (length l) * c = le_val l * b + carry
  /\ bytes r /\ length r = length l /\ is8 c.
Proof.
  intros Hb Hl. revert carry r c. induction Hl as [|d l Hd Hl IH]; intros carry r c Hc H; cbn [mul_loop] in H.
  { injection H as <- <-. rewrite le_val_nil. cbn [length Z.of_nat Z.pow]. split; [lia|]. by split; [apply bytes_nil|]. }
  unfold is8 in Hb, Hd, Hc. assert (0 <= carry + d * b < 0x1_0000) as Hr by nia.
  assert (w16 (carry + d * b) = carry + d * b) as Hw by (apply Z.mod_small; lia). rewrite Hw in H.
  rewrite Z.shiftr_div_pow2 in H by lia. change (2 ^ 8) with 0x100 in H.
  destruct (mul_loop b ((carry + d * b) / 0x100) l) as [r0 c0] eqn:E. injection H as <- <-.
  assert (is8 ((carry + d * b) / 0x100)) as Hc' by (unfold is8; Z.to_euclidean_division_equations; lia).
  destruct (IH _ _ _ Hc' E) as (IH1 & IH2 & IH3 & IH4).
  split; [|split; [apply bytes_cons; split; [apply is8_w8|done]|split; [cbn; lia|done]]].
  cbn [length]. rewrite !le_val_cons, pow256_succ. unfold w8.
  pose proof (Z.div_mod (carry + d * b) 0x100 ltac:(lia)). lia.
Qed.

Lemma is_zero1_spec a : wf a -> is_zero1 a = true <-> digits a = [0].
Proof.
  intros Ha. unfold is_zero1, digits. destruct Ha as [_ Hs _]. destruct a as [[|d l] n]; cbn in *; [done|].
  change (nthZ (d :: l) 0) with d. rewrite andb_true_iff, Nat.eqb_eq, Z.eqb_eq. split.
  - by intros [-> ->].
  - destruct n as [|[|n]]; cbn; try discriminate; [intros [= ->]; done|].
    destruct l; [discriminate Hs|]. discriminate.
Qed.

(** Multiplication by an 8-bit number. *)
Lemma mul_spec a b :
  wf a -> is8 b -> (bn_length a < 256)%nat ->
  exists a', BigNumberEqualsMultiplicationByUInt8 a b = Some a' /\ wf a' /\ val a' = val a * b
    /\ (bn_length a' <= Nat.max 1 (S (bn_length a)))%nat
    /\ (b <> 0 -> norm (digits a) -> norm (digits a')).
Proof.
  intros Ha Hb Hn. unfold BigNumberEqualsMultiplicationByUInt8.
  destruct (Z.eqb_spec b 0) as [->|Hb0].
  { destruct (put_spec [0] a Ha) as (a' & -> & Hw & Hd); [apply bytes_1; unfold is8; lia|cbn; lia|].
    exists a'. split_and!; [done|done|unfold val; rewrite Hd, le_val_1; lia| |done].
    rewrite <- length_digits, Hd by done. cbn. lia. }
  destruct (is_zero1 a) eqn:Hz.
  { apply is_zero1_spec in Hz; [|done]. exists a. split_and!; [done|done| |lia|done].
    unfold val. rewrite Hz, le_val_1. lia. }
  pose proof (length_digits a Ha) as Hlen. pose proof (bytes_digits a Ha) as Hbs.
  destruct (mul_loop b 0 (digits a)) as [r c] eqn:E.
  destruct (mul_loop_spec b _ 0 r c Hb Hbs ltac:(unfold is8; lia) E) as (H1 & H2 & H3 & H4).
  unfold is8 in Hb, H4. rewrite (w8_small c) by done.
  set (l := if c =? 0 then r else r ++ [c]).
  assert (bytes l /\ le_val l = val a * b /\ (length l <= S (bn_length a))%nat
          /\ (norm (digits a) -> norm l)) as (L1 & L2 & L3 & L4).
  { unfold val, norm in *. subst l. destruct (Z.eqb_spec c 0) as [->|Hc0].
    - split_and!; [done|lia|lia|]. intros [Hne Hge]. split; [by destruct r, (digits a)|].
      rewrite H3. assert (0 <= le_val (digits a)) by (by apply le_val_bound). nia.
    - rewrite le_val_app, length_app, le_val_1. cbn [length].
      rewrite H3. split_and!; [apply bytes_app; split; [done|by apply bytes_1]|lia|lia|].
      intros _. split; [by destruct r|].
      replace (Z.of_nat (length (digits a) + 1) - 1) with (Z.of_nat (length (digits a))) by lia.
      pose proof (pow256_pos (length (digits a))). pose proof (proj1 (le_val_bound r H2)). nia. }
  destruct (put_spec l a Ha L1 ltac:(lia)) as (a' & -> & Hw & Hd).
  exists a'. split_and!; [done|done|unfold val; by rewrite Hd| |by rewrite Hd; auto].
  rewrite <- length_digits, Hd by done. lia.
Qed.

Definition bit (o : bool) : Z := if o then 1 else 0.

Lemma carry_loop_spec la o r c :
  bytes la -> carry_loop o la = (r, c) ->
  le_val r + 0x100 ^ Z.of_nat (length la) * bit c = le_val la + bit o
  /\ bytes r /\ length r = length la.
Proof.
  intros Hla. revert o r c. induction Hla as [|a la Ha Hla IH]; intros o r c H; cbn [carry_loop] in H.
  { injection H as <- <-. rewrite le_val_nil. cbn [length Z.of_nat Z.pow]. split; [lia|]. by split; [apply bytes_nil|]. }
  destruct o; [|injection H as <- <-; cbn [bit]; split; [lia|]; split; [by constructor|done]].
  destruct (carry_loop (w8 (a + 1) =? 0) la) as [r0 c0] eqn:E. injection H as <- <-.
  destruct (IH _ _ _ E) as (H1 & H2 & H3).
  split; [|split; [apply bytes_cons; split; [apply is8_w8|done]|cbn; lia]].
  cbn [length]. rewrite !le_val_cons, pow256_succ. unfold is8 in Ha.
  destruct (Z.eqb_spec (w8 (a + 1)) 0) as [Hz|Hz];
    [change (bit true) with 1 in *|change (bit false) with 0 in H1; change (bit true) with 1];
    unfold w8 in *; Z.to_euclidean_division_equations; lia.
Qed.

Lemma add_loop_spec la lb o r c :
  bytes la -> bytes lb -> (length lb <= length la)%nat -> add_loop o la lb = (r, c) ->
  le_val r + 0x100 ^ Z.of_nat (length la) * bit c = le_val la + le_val lb + bit o
  /\ bytes r /\ length r = length la.
Proof.
  intros Hla Hlb. revert la Hla o r c. induction Hlb as [|b lb Hb Hlb IH]; intros la Hla o r c Hlen H.
  { rewrite le_val_nil. assert (carry_loop o la = (r, c)) as H' by (by destruct la).
    apply carry_loop_spec in H' as (H1 & H2 & H3); [|done]. split; [lia|done]. }
  destruct Hla as [|a la Ha Hla]; [cbn in Hlen; lia|]. cbn [add_loop] in H. fold (bit o) in H.
  destruct (add_loop (w8 (a + (b + bit o)) <? b + bit o) la lb) as [r0 c0] eqn:E.
  injection H as <- <-. cbn [length] in Hlen. destruct (IH la Hla _ _ _ ltac:(lia) E) as (H1 & H2 & H3).
  split; [|split; [apply bytes_cons; split; [apply is8_w8|done]|cbn; lia]].
  cbn [length]. rewrite !le_val_cons, pow256_succ. unfold is8 in Ha, Hb.
  assert (0 <= bit o <= 1) by (destruct o; cbn; lia).
  destruct (Z.ltb_spec (w8 (a + (b + bit o))) (b + bit o)) as [Hz|Hz];
    [change (bit true) with 1 in H1|change (bit false) with 0 in H1];
    unfold w8 in *; Z.to_euclidean_division_equations; lia.
Qed.

(** Addition; a sum of numbers without leading zeros has none. *)
Lemma add_spec a b :
  wf a -> wf b -> (bn_length a < 256)%nat -> (bn_length b < 256)%nat -> norm (digits b) ->
  bn_length a = 0%nat \/ norm (digits a) ->
  exists a', BigNumberEqualsAdditionByBigInt a b = Some a' /\ wf a' /\ val a' = val a + val b
    /\ (bn_length a' <= S (Nat.max (bn_length a) (bn_length b)))%nat /\ norm (digits a').
Proof.
  intros Ha Hb Hna Hnb Nb Na. unfold BigNumberEqualsAdditionByBigInt.
  pose proof (length_digits a Ha) as La. pose proof (length_digits b Hb) as Lb.
  pose proof (bytes_digits a Ha) as Ba. pose proof (bytes_digits b Hb) as Bb.
  set (la := digits a ++ replicate (bn_length b - bn_length a) 0).
  assert (length la = Nat.max (bn_length a) (bn_length b)) as Ll.
  { subst la. rewrite length_app, length_replicate. lia. }
  assert (le_val la = val a) as Vl by apply le_val_app_zeros.
  destruct (add_loop false la (digits b)) as [r c] eqn:E.
  destruct (add_loop_spec la (digits b) false r c) as (H1 & H2 & H3);
    [by apply bytes_app; split; [|apply bytes_replicate]|done|lia|done|].
  set (l := if c then r ++ [1] else r).
  pose proof (proj1 (le_val_bound _ Ba)) as P1. pose proof (proj1 (le_val_bound _ Bb)) as P2.
  assert (bytes l /\ le_val l = val a + val b /\ (length l <= S (length la))%nat /\ norm l)
    as (L1 & L2 & L3 & L4).
  { unfold val in *. rewrite Vl in H1. subst l. destruct c; cbn [bit] in H1.
    - rewrite le_val_app, length_app, le_val_1, H3. cbn [length].
      split_and!; [apply bytes_app; split; [done|apply bytes_1; unfold is8; lia]|lia|lia|].
      split; [by destruct r|]. rewrite le_val_app, length_app, le_val_1, H3. cbn [length].
      replace (Z.of_nat (length la + 1) - 1) with (Z.of_nat (length la)) by lia.
      pose proof (proj1 (le_val_bound r H2)). lia.
    - split_and!; [done|lia|lia|]. destruct Nb as [Nb1 Nb2]. split.
      + intros ->. cbn in H3. destruct (digits b); [done|]. cbn in Lb. lia.
      + rewrite H3, Ll. replace (le_val r) with (le_val (digits a) + le_val (digits b)) by lia.
        destruct (Nat.max_spec (bn_length a) (bn_length b)) as [[? ->]|[? ->]]; [rewrite <- Lb; lia|].
        destruct Na as [Na|[_ Na]]; [|rewrite <- La; lia].
        destruct (digits b); [done|]. cbn in Lb. lia. }
  destruct (put_spec l a Ha L1 ltac:(lia)) as (a' & -> & Hw & Hd).
  exists a'. split_and!; [done|done|unfold val; by rewrite Hd| |by rewrite Hd].
  rewrite <- length_digits, Hd by done. lia.
Qed.

(** Powers. *)
Lemma pow_loop_spec n bi :
  wf bi -> norm (digits bi) -> (bn_length bi + n < 256)%nat ->
  exists bi', pow_loop n 58 bi = Some bi' /\ wf bi' /\ val bi' = val bi * 58 ^ Z.of_nat n
    /\ norm (digits bi') /\ (bn_length bi' <= bn_length bi + n)%nat.
Proof.
  revert bi. induction n as [|n IH]; intros bi Hw Hn Hl; cbn [pow_loop].
  { exists bi. split_and!; [done|done|cbn; lia|done|lia]. }
  destruct (mul_spec bi 58 Hw ltac:(unfold is8; lia) ltac:(lia)) as (b1 & -> & W1 & V1 & L1 & N1).
  cbn [mbind option_bind].
  assert (bn_length bi <> 0)%nat.
  { rewrite <- (length_digits bi Hw). destruct Hn as [Hn _]. by destruct (digits bi). }
  destruct (IH b1 W1 (N1 ltac:(lia) Hn) ltac:(lia)) as (b2 & -> & W2 & V2 & N2 & L2).
  exists b2. split_and!; [done|done| |done|lia].
  rewrite V2, V1, Nat2Z.inj_succ, Z.pow_succ_r by lia. lia.
Qed.

Lemma norm_1 d : 0 < d -> norm [d].
Proof. intros Hd. split; [done|]. rewrite le_val_1. cbn. lia. Qed.

Lemma pow_spec bi k :
  wf bi -> 0 <= k < 255 ->
  exists bi', BigNumberFromPowUInt8 bi 58 k = Some bi' /\ wf bi' /\ val bi' = 58 ^ k
    /\ norm (digits bi') /\ (bn_length bi' <= S (Z.to_nat k))%nat.
Proof.
  intros Hw Hk. unfold BigNumberFromPowUInt8.
  destruct (put_spec [1] bi Hw) as (b1 & -> & W1 & D1); [apply bytes_1; unfold is8; lia|cbn; lia|].
  cbn [mbind option_bind]. pose proof (length_digits b1 W1) as L1. rewrite D1 in L1. cbn in L1.
  destruct (pow_loop_spec (Z.to_nat k) b1 W1) as (b2 & -> & W2 & V2 & N2 & L2);
    [rewrite D1; by apply norm_1|lia|].
  exists b2. split_and!; [done|done| |done|lia].
  rewrite V2. unfold val. rewrite D1, le_val_1, Z2Nat.id by lia. lia.
Qed.

(** ** Decoding *)

Definition b58 (i : Z) : Z := nthZ base58Characters i.
Definition is58 (d : Z) : Prop := 0 <= d < 58.

(** The number whose base-58 digits, least significant first, are [ds]. *)
Definition b58val (ds : list Z) : Z := foldr (fun d acc => d + 58 * acc) 0 ds.

Definition char_ok (i : nat) : bool :=
  let c := b58 (Z.of_nat i) in
  Bool.eqb (c =? 49) (i =? 0)%nat && ((i =? 0)%nat || (alphaIndex c =? Z.of_nat i)).

Lemma chars_checked : forallb char_ok (seq 0 58) = true.
Proof. vm_compute. reflexivity. Qed.

Lemma b58_spec d : is58 d -> (b58 d =? 49) = (d =? 0) /\ (d <> 0 -> alphaIndex (b58 d) = d).
Proof.
  intros Hd. unfold is58 in Hd.
  pose proof (proj1 (forallb_forall _ _) chars_checked (Z.to_nat d)) as H.
  specialize (H ltac:(apply Stdlib.Lists.List.in_seq; lia)). unfold char_ok in H. rewrite Z2Nat.id in H by lia.
  apply andb_true_iff in H as [H1 H2]. apply eqb_prop in H1. rewrite H1.
  destruct (Nat.eqb_spec (Z.to_nat d) 0), (Z.eqb_spec d 0); try lia; split; try done.
Qed.

Lemma norm_pos l : norm l -> 0 < le_val l.
Proof.
  intros [Hne Hge]. destruct l as [|x l]; [done|]. cbn [length] in Hge.
  replace (Z.of_nat (S (length l)) - 1) with (Z.of_nat (length l)) in Hge by lia.
  pose proof (pow256_pos (length l)). lia.
Qed.

(** A number below 58^k without leading zeros has at most [k] digits. *)
Lemma norm_length l k :
  norm l -> le_val l < 58 ^ Z.of_nat k -> (length l <= k)%nat.
Proof.
  intros [Hne Hge] Hlt. destruct (decide (length l <= k)%nat) as [|Hgt]; [done|]. exfalso.
  assert (58 ^ Z.of_nat k <= 0x100 ^ Z.of_nat k) by (apply Z.pow_le_mono_l; lia).
  assert (0x100 ^ Z.of_nat k <= 0x100 ^ (Z.of_nat (length l) - 1)) by (apply Z.pow_le_mono_r; lia).
  lia.
Qed.

Definition tidy (a : BigNumber) : Prop := bn_length a = 0%nat \/ norm (digits a).

Lemma decode_loop_spec ds k bi bi2 :
  Forall is58 ds -> wf bi -> wf bi2 -> tidy bi -> val bi < 58 ^ Z.of_nat k ->
  (k + length ds <= 200)%nat ->
  exists bi', decode_loop (map b58 ds) (Z.of_nat k) bi bi2 = Some bi' /\ wf bi' /\ tidy bi'
    /\ val bi' = val bi + 58 ^ Z.of_nat k * b58val ds
    /\ val bi' < 58 ^ Z.of_nat (k + length ds).
Proof.
  intros Hds. revert k bi bi2. induction Hds as [|d ds Hd Hds IH]; intros k bi bi2 W W2 T Hv Hk.
  { exists bi. cbn. rewrite Nat.add_0_r. split_and!; [done..|lia|done]. }
  cbn [map decode_loop length] in *. destruct (b58_spec d Hd) as [H49 Hai]. rewrite H49.
  rewrite Nat.add_succ_r, <- Nat.add_succ_l. replace (Z.of_nat k + 1) with (Z.of_nat (S k)) by lia.
  assert (58 ^ Z.of_nat (S k) = 58 * 58 ^ Z.of_nat k) as Hp by (rewrite Nat2Z.inj_succ; apply Z.pow_succ_r; lia).
  assert (0 < 58 ^ Z.of_nat k) as Hpos by (apply Z.pow_pos_nonneg; lia).
  cbn [b58val foldr]. fold (b58val ds). destruct (Z.eqb_spec d 0) as [->|Hd0].
  - destruct (IH (S k) bi bi2 W W2 T ltac:(lia) ltac:(lia)) as (bi' & -> & W' & T' & V' & B').
    exists bi'. split_and!; [done..| |done]. rewrite V', Hp. lia.
  - rewrite (Hai Hd0). unfold is58 in Hd.
    assert (w8 (Z.of_nat k) = Z.of_nat k) as -> by (apply w8_small; unfold is8; lia).
    destruct (pow_spec bi2 (Z.of_nat k) W2 ltac:(lia)) as (p & -> & Wp & Vp & Np & Lp).
    cbn [mbind option_bind]. rewrite Nat2Z.id in Lp.
    destruct (mul_spec p d Wp ltac:(unfold is8; lia) ltac:(lia)) as (q & -> & Wq & Vq & Lq & Nq).
    cbn [mbind option_bind].
    assert (bn_length bi <= k)%nat as Lbi.
    { destruct T as [->|T]; [lia|]. rewrite <- (length_digits bi W). by apply norm_length. }
    destruct (add_spec bi q W Wq ltac:(lia) ltac:(lia) (Nq Hd0 Np) T) as (r & -> & Wr & Vr & Lr & Nr).
    cbn [mbind option_bind].
    destruct (IH (S k) r q Wr Wq (or_intror Nr)) as (bi' & -> & W' & T' & V' & B'); [|lia|].
    + rewrite Vr, Vq, Vp, Hp. nia.
    + exists bi'. split_and!; [done..| |done]. rewrite V', Vr, Vq, Vp, Hp. lia.
Qed.

Lemma leading_replicate c z l : hd_error l <> Some c -> leading c (replicate z c ++ l) = z.
Proof.
  intros Hl. induction z as [|z IH].
  - destruct l as [|x l]; [done|]. cbn in *. destruct (Z.eqb_spec x c); [congruence|done].
  - cbn. by rewrite Z.eqb_refl, IH.
Qed.

Lemma b58val_cons d ds : b58val (d :: ds) = d + 58 * b58val ds.
Proof. reflexivity. Qed.

Lemma b58val_zeros ds z : b58val (ds ++ replicate z 0) = b58val ds.
Proof.
  induction ds as [|d ds IH].
  - induction z as [|z IHz]; [done|]. cbn [replicate app] in *. rewrite b58val_cons, IHz. done.
  - cbn [app]. by rewrite !b58val_cons, IH.
Qed.

(** A number whose most significant digit is not zero is positive. *)
Lemma b58val_pos ds : Forall is58 ds -> last ds <> Some 0 -> ds <> [] -> 0 < b58val ds.
Proof.
  induction 1 as [|d ds Hd Hds IH]; intros Hlast Hne; [done|]. rewrite b58val_cons. unfold is58 in Hd.
  destruct ds as [|d' ds].
  - cbn in *. assert (d <> 0) by congruence. lia.
  - enough (0 < b58val (d' :: ds)) by lia. by apply IH.
Qed.

Lemma new_wf len src :
  (len <= 256)%nat -> bytes src -> length src = len ->
  exists a, newBigNumber (Some src) len = Some a /\ wf a /\ digits a = src.
Proof.
  intros Hl Hb Hs. unfold newBigNumber, MAX_BIG_NUMBER. rewrite (proj2 (Nat.leb_le _ _) Hl).
  eexists. split; [reflexivity|]. subst len. rewrite firstn_all. split.
  - split; cbn [data bn_length]; [apply bytes_app; split; [done|apply bytes_replicate]| |done].
    rewrite length_app, length_replicate. lia.
  - apply take_app_length.
Qed.

Lemma new_empty len :
  (len <= 1)%nat ->
  exists a, newBigNumber None len = Some a /\ wf a /\ digits a = replicate len 0 /\ bn_length a = len.
Proof.
  intros Hl. unfold newBigNumber. rewrite (proj2 (Nat.leb_le _ _)) by (unfold MAX_BIG_NUMBER; lia).
  eexists. split; [reflexivity|]. split; [split|]; cbn [data bn_length].
  - apply bytes_replicate.
  - reflexivity.
  - lia.
  - destruct len as [|[|]]; [done|done|lia].
Qed.

Lemma leading_ones z ds :
  Forall is58 ds -> last ds <> Some 0 ->
  leading 49 (replicate z 49 ++ map b58 (reverse ds)) = z.
Proof.
  intros Hds Hlast. apply leading_replicate. destruct (reverse ds) as [|d r] eqn:Er; [done|]. cbn.
  assert (last ds = Some d) as Hl by (by rewrite <- head_reverse, Er).
  rewrite Forall_lookup in Hds. pose proof Hl as Hl'. rewrite last_lookup in Hl'. specialize (Hds _ _ Hl').
  destruct (b58_spec d Hds) as [H49 _]. intros [= H]. rewrite H in H49. cbn in H49.
  symmetry in H49. apply Z.eqb_eq in H49. congruence.
Qed.

(** A text with [z] leading ones before the digits [ds] (least significant first,
    the last one nonzero) decodes to the digits of its value, then [z] zeros. *)
Lemma decode_spec z ds :
  Forall is58 ds -> last ds <> Some 0 -> ds <> [] -> (z + length ds <= 128)%nat ->
  exists bn0 bn l, newBigNumber None 0 = Some bn0
    /\ CBDecodeBase58 bn0 (replicate z 49 ++ map b58 (reverse ds)) = Some bn
    /\ wf bn /\ digits bn = l ++ replicate z 0 /\ norm l /\ bytes l /\ le_val l = b58val ds.
Proof.
  intros Hds Hlast Hne Hlen.
  destruct (new_empty 0 ltac:(lia)) as (bn0 & E0 & W0 & D0 & L0).
  destruct (new_empty 1 ltac:(lia)) as (bn1 & E1 & W1 & _ & _).
  set (str := replicate z 49 ++ map b58 (reverse ds)).
  assert (reverse str = map b58 (ds ++ replicate z 0)) as Hrev.
  { subst str. rewrite reverse_app, <- (fmap_reverse b58), reverse_involutive, reverse_replicate, map_app.
    f_equal. change 49 with (b58 0). symmetry. apply fmap_replicate. }
  destruct (decode_loop_spec (ds ++ replicate z 0) 0 bn0 bn1) as (bi & Hrun & Wb & Tb & Vb & Bb).
  - apply Forall_app. split; [done|]. apply Forall_replicate. unfold is58. lia.
  - done.
  - done.
  - by left.
  - unfold val. rewrite D0. cbn [replicate]. rewrite le_val_nil. cbn. lia.
  - rewrite length_app, length_replicate. lia.
  - rewrite b58val_zeros in Vb. unfold val at 2 in Vb. rewrite D0 in Vb. cbn [replicate] in Vb.
    rewrite le_val_nil in Vb. cbn [Z.of_nat Z.pow] in Vb.
    pose proof (b58val_pos ds Hds Hlast Hne) as Hpos.
    assert (norm (digits bi)) as Nb.
    { destruct Tb as [Hz|]; [|done]. exfalso. unfold val, digits in Vb. rewrite Hz in Vb.
      rewrite take_0, le_val_nil in Vb. lia. }
    pose proof (norm_length _ _ Nb Bb) as Ln.
    pose proof (leading_ones z ds Hds Hlast) as Hz. fold str in Hz.
    exists bn0. destruct (put_spec (digits bi ++ replicate z 0) bi Wb) as (bn & Hput & Wn & Dn).
    { apply bytes_app. split; [by apply bytes_digits|apply bytes_replicate]. }
    { rewrite length_app, length_replicate in Ln. rewrite length_app, length_replicate. lia. }
    unfold CBDecodeBase58. fold str. rewrite E1. destruct str as [|c str'] eqn:Estr.
    { apply (f_equal length) in Estr. subst str. rewrite length_app, length_map, length_reverse in Estr.
      destruct ds; [done|]. cbn in Estr. lia. }
    rewrite <- Estr in *. cbn [mbind option_bind]. rewrite Hrev. change (Z.of_nat 0) with 0 in Hrun. rewrite Hrun.
    cbn [mbind option_bind]. rewrite Hz. destruct (Nat.eqb_spec z 0) as [->|].
    + exists bi, (digits bi). cbn [replicate]. rewrite app_nil_r.
      split_and!; try done; [by apply bytes_digits|]. unfold val in Vb. lia.
    + exists bn, (digits bi). split_and!; try done; [by apply bytes_digits|]. unfold val in Vb. lia.
Qed.

(** ** Encoding *)

Lemma le_val_reverse_cons d l :
  le_val (reverse (d :: l)) = le_val (reverse l) + 0x100 ^ Z.of_nat (length l) * d.
Proof. rewrite reverse_cons, le_val_app, length_reverse, le_val_1. lia. Qed.

Lemma mod_loop_spec l r :
  bytes l -> 0 <= r < 58 ->
  mod_loop r l = (r * 0x100 ^ Z.of_nat (length l) + le_val (reverse l)) mod 58.
Proof.
  intros Hl. revert r. induction Hl as [|d l Hd Hl IH]; intros r Hr.
  - cbn [mod_loop length]. change (le_val (reverse [])) with 0. rewrite Z.mod_small by (cbn; lia). cbn; lia.
  - cbn [mod_loop length]. rewrite IH by (apply Z.mod_pos_bound; lia).
    rewrite le_val_reverse_cons, pow256_succ. set (p := 0x100 ^ Z.of_nat (length l)).
    change (256 mod 58) with 24.
    assert (((r * 24) mod 58 + d mod 58) mod 58 = (r * 0x100 + d) mod 58) as ->.
    { rewrite <- Z.add_mod by lia. replace (r * 0x100 + d) with (r * 24 + d + 4 * r * 58) by lia.
      by rewrite Z_mod_plus_full. }
    rewrite <- Zplus_mod_idemp_l, Zmult_mod_idemp_l, Zplus_mod_idemp_l. f_equal. lia.
Qed.

Lemma mod58_spec a :
  wf a -> bn_length a <> 0%nat -> BigNumberModuloWith58 a = Some (val a mod 58).
Proof.
  intros Ha Hn. unfold BigNumberModuloWith58, val. pose proof (length_digits a Ha) as Hl.
  pose proof (bytes_digits a Ha) as Hb. destruct (digits a) as [|d l] eqn:E; [cbn in Hl; lia|].
  rewrite mod_loop_spec; [|unfold bytes; by rewrite Forall_reverse|lia].
  rewrite reverse_involutive, Z.mul_0_l, Z.add_0_l. f_equal. apply w8_small. unfold is8.
  pose proof (Z.mod_pos_bound (le_val (d :: l)) 58 ltac:(lia)). lia.
Qed.

Lemma div_loop_spec l temp :
  bytes l -> 0 <= temp < 58 ->
  bytes (div_loop temp l) /\ length (div_loop temp l) = length l
  /\ le_val (reverse (div_loop temp l))
     = (temp * 0x100 ^ Z.of_nat (length l) + le_val (reverse l)) / 58.
Proof.
  intros Hl. revert temp. induction Hl as [|d l Hd Hl IH]; intros temp Ht.
  { cbn [div_loop length]. split; [apply bytes_nil|]. split; [done|].
    change (le_val (reverse [])) with 0. rewrite Z.div_small; [done|cbn; lia]. }
  cbn [div_loop]. unfold is8 in Hd.
  assert (Z.lor (w16 (Z.shiftl temp 8)) d = temp * 0x100 + d) as ->.
  { rewrite Z.shiftl_mul_pow2 by lia. change (2 ^ 8) with 0x100.
    assert (w16 (temp * 0x100) = temp * 0x100) as -> by (apply Z.mod_small; lia).
    rewrite Z.lor_comm. replace (temp * 0x100) with (Z.shiftl temp 8) by (by rewrite Z.shiftl_mul_pow2 by lia).
    rewrite lor_shiftl_add, Z.shiftl_mul_pow2 by lia. change (2 ^ 8) with 0x100. lia. }
  set (t := temp * 0x100 + d). assert (is8 (t / 58)) as Hq by (unfold is8; subst t; Z.to_euclidean_division_equations; lia).
  rewrite (w8_small _ Hq). pose proof (Z.div_mod t 58 ltac:(lia)) as Hdm.
  pose proof (Z.mod_pos_bound t 58 ltac:(lia)) as Hm.
  replace (t - t / 58 * 58) with (t mod 58) by lia. destruct (IH (t mod 58) Hm) as (H1 & H2 & H3).
  split; [by apply bytes_cons|]. split; [cbn; lia|].
  rewrite !le_val_reverse_cons, H2, H3. cbn [length]. rewrite pow256_succ.
  set (p := 0x100 ^ Z.of_nat (length l)) in *. set (v := le_val (reverse l)).
  replace (temp * (0x100 * p) + (v + p * d)) with (t mod 58 * p + v + p * (t / 58) * 58) by (subst t; nia).
  rewrite Z.div_add by lia. lia.
Qed.

(** Subtraction of an 8-bit number from a number at least as big. *)
Lemma sub8_loop_spec n l c :
  bytes l -> is8 c -> (n <= length l)%nat -> (0 < n)%nat -> c <= le_val (take n l) ->
  exists r, sub8_loop c l = Some r /\ bytes r /\ length r = length l
    /\ le_val (take n r) = le_val (take n l) - c.
Proof.
  intros Hl. revert n c. induction Hl as [|d l Hd Hl IH]; intros [|n] c Hc Hn H0 Hle; try (cbn in Hn; lia).
  cbn [sub8_loop take] in *. rewrite le_val_cons in Hle. unfold is8 in Hc, Hd. destruct (Z.ltb_spec d c).
  - assert (0 < le_val (take n l)) as Hpos by lia.
    assert (0 < n)%nat by (destruct n; [rewrite take_0, le_val_nil in Hpos; lia|lia]).
    destruct (IH n 1 ltac:(unfold is8; lia) ltac:(cbn in Hn; lia) ltac:(lia) ltac:(lia)) as (r & -> & Hr & Hlr & Hv).
    cbn [mbind option_bind]. eexists. split; [reflexivity|].
    split; [apply bytes_cons; split; [apply is8_w8|done]|]. split; [cbn; lia|].
    cbn [take]. rewrite !le_val_cons, Hv. rewrite w8_small by (unfold is8; lia). lia.
  - eexists. split; [reflexivity|]. rewrite w8_small by (unfold is8; lia).
    split; [apply bytes_cons; split; [unfold is8; lia|done]|]. split; [done|].
    cbn [take]. rewrite !le_val_cons. lia.
Qed.

Lemma take_S_snoc (l : list Z) n x : l !! n = Some x -> take (S n) l = take n l ++ [x].
Proof. apply take_S_r. Qed.

(** Dropping leading zero digits keeps the value. *)
Lemma normal_length_spec n l :
  bytes l -> (0 < n <= length l)%nat ->
  (0 < normal_length n l <= n)%nat
  /\ le_val (take (normal_length n l) l) = le_val (take n l)
  /\ (0 < le_val (take n l) -> norm (take (normal_length n l) l)).
Proof.
  intros Hl. induction n as [|[|n] IH]; intros Hn; [lia| |].
  - cbn [normal_length]. split; [lia|]. split; [done|]. destruct l as [|x l]; [cbn in Hn; lia|].
    cbn [take]. rewrite take_0, le_val_1. apply norm_1.
  - remember (S n) as k. cbn [normal_length]. rewrite Heqk. cbv iota. rewrite <- Heqk.
    destruct (lookup_lt_is_Some_2 l k ltac:(lia)) as [x Hx].
    assert (nthZ l (Z.of_nat k) = x) as -> by (apply nthZ_lookup; by rewrite Nat2Z.id).
    assert (is8 x) as H8 by (unfold bytes in Hl; rewrite Forall_lookup in Hl; eauto). unfold is8 in H8.
    rewrite (take_S_snoc l k x Hx), le_val_app, le_val_1.
    assert (length (take k l) = k) as Hlk by (rewrite length_take; lia). rewrite Hlk.
    pose proof (le_val_bound _ (bytes_take k l Hl)) as Hb. pose proof (pow256_pos k).
    destruct (Z.eqb_spec x 0) as [->|Hx0].
    + destruct IH as (I1 & I2 & I3); [lia|]. split; [lia|]. split; [lia|]. intros Hp. apply I3. lia.
    + split; [lia|]. rewrite (take_S_snoc l k x Hx), le_val_app, le_val_1, Hlk. split; [done|].
      intros _. split; [by destruct (take k l)|].
      rewrite length_app, Hlk, le_val_app, le_val_1, Hlk. cbn [length].
      replace (Z.of_nat (k + 1) - 1) with (Z.of_nat k) by lia. nia.
Qed.

Lemma sub8_spec a b :
  wf a -> is8 b -> bn_length a <> 0%nat -> b <= val a ->
  exists a', BigNumberEqualsSubtractionByUInt8 a b = Some a' /\ wf a' /\ val a' = val a - b
    /\ (0 < bn_length a' <= bn_length a)%nat /\ (b < val a -> norm (digits a')).
Proof.
  intros Ha Hb Hn Hle. unfold BigNumberEqualsSubtractionByUInt8. pose proof (wf_len _ Ha) as Hl.
  destruct (sub8_loop_spec (bn_length a) (data a) b (wf_bytes _ Ha) Hb) as (r & -> & Br & Lr & Vr);
    [rewrite (wf_size _ Ha); lia|lia|done|].
  cbn [mbind option_bind]. eexists. split; [reflexivity|]. rewrite (wf_size _ Ha) in Lr.
  unfold BigNumberNormalise, val, digits in *. cbn [data bn_length].
  destruct (normal_length_spec (bn_length a) r Br ltac:(lia)) as (N1 & N2 & N3).
  split_and!; [split; cbn [data bn_length]; [done|done|lia]|lia|lia|lia|]. intros Hlt. apply N3. lia.
Qed.

Lemma div58_spec a :
  wf a -> norm (digits a) -> 58 <= val a ->
  exists a', BigNumberEqualsDivisionBy58 a = Some a' /\ wf a' /\ val a' = val a / 58
    /\ norm (digits a') /\ (bn_length a' <= bn_length a)%nat.
Proof.
  intros Ha [Hne Hge] Hv. unfold BigNumberEqualsDivisionBy58.
  pose proof (length_digits a Ha) as Hl. pose proof (bytes_digits a Ha) as Hb.
  assert (is_zero1 a = false) as ->.
  { apply not_true_iff_false. rewrite is_zero1_spec by done. unfold val in Hv. intros E.
    rewrite E, le_val_1 in Hv. lia. }
  destruct (div_loop_spec (reverse (digits a)) 0) as (B1 & L1 & V1);
    [unfold bytes; by rewrite Forall_reverse|lia|].
  rewrite reverse_involutive, Z.mul_0_l, Z.add_0_l in V1. rewrite length_reverse, Hl in L1.
  fold (val a) in V1. set (ans := reverse (div_loop 0 (reverse (digits a)))) in *.
  assert (bytes ans) as Ba by (subst ans; unfold bytes; by rewrite Forall_reverse).
  assert (length ans = bn_length a) as La by (subst ans; by rewrite length_reverse).
  assert (1 <= val a / 58) as Hq by (apply Z.div_le_lower_bound; lia).
  destruct (bn_length a) as [|n] eqn:En; [by destruct (digits a)|].
  destruct (lookup_lt_is_Some_2 ans n ltac:(lia)) as [x Hx].
  replace (nthZ ans (Z.of_nat (S n) - 1)) with x
    by (symmetry; apply nthZ_lookup; by replace (Z.to_nat (Z.of_nat (S n) - 1)) with n by lia).
  assert (ans = take n ans ++ [x]) as Eans
    by (rewrite <- (take_S_snoc ans n x Hx); symmetry; apply firstn_all2; lia).
  assert (length (take n ans) = n) as Ln by (rewrite length_take; lia).
  assert (is8 x) as H8 by (unfold bytes in Ba; rewrite Forall_lookup in Ba; eauto). unfold is8 in H8.
  pose proof (f_equal le_val Eans) as Ev. rewrite le_val_app, le_val_1, Ln, V1 in Ev.
  pose proof (le_val_bound _ (bytes_take n ans Ba)) as Hbn. rewrite Ln in Hbn. pose proof (pow256_pos n).
  rewrite Hl in Hge. replace (Z.of_nat (S n) - 1) with (Z.of_nat n) in Hge by lia.
  set (len := if x =? 0 then (S n - 1)%nat else S n).
  assert (norm (take len ans) /\ le_val (take len ans) = val a / 58 /\ (len <= S n)%nat) as (N1 & N2 & N3).
  { subst len. destruct (Z.eqb_spec x 0) as [->|Hx0].
    - replace (S n - 1)%nat with n by lia. split; [|split; lia]. split.
      + intros E. rewrite E, le_val_nil in Ev. lia.
      + rewrite Ln. replace (le_val (take n ans)) with (val a / 58) by lia.
        destruct n as [|n]; [cbn in *; lia|]. replace (Z.of_nat (S n) - 1) with (Z.of_nat n) by lia.
        rewrite pow256_succ in Hge. apply Z.div_le_lower_bound; [lia|]. unfold val in *.
        pose proof (pow256_pos n). lia.
    - rewrite firstn_all2 by lia. split; [|split; [done|lia]]. split; [intros E; rewrite E in La; discriminate|].
      rewrite La. replace (Z.of_nat (S n) - 1) with (Z.of_nat n) by lia. rewrite V1. nia. }
  destruct (put_spec (take len ans) a Ha) as (a' & -> & Wa & Da);
    [by apply bytes_take|rewrite length_take; pose proof (wf_len _ Ha); lia|].
  exists a'. split_and!; [done|done|unfold val; by rewrite Da|by rewrite Da|].
  rewrite <- length_digits, Da, length_take by done. lia.
Qed.

(** One turn of the encoding loop: the last base-58 digit is split off. *)
Lemma encode_step a :
  wf a -> bn_length a <> 0%nat -> 58 <= val a ->
  exists a1 a2, BigNumberEqualsSubtractionByUInt8 a (val a mod 58) = Some a1
    /\ BigNumberEqualsDivisionBy58 a1 = Some a2 /\ wf a2 /\ norm (digits a2) /\ val a2 = val a / 58.
Proof.
  intros Ha Hn Hv. pose proof (Z.mod_pos_bound (val a) 58 ltac:(lia)) as Hm.
  destruct (sub8_spec a (val a mod 58) Ha ltac:(unfold is8; lia) Hn ltac:(lia))
    as (a1 & -> & W1 & V1 & L1 & N1).
  pose proof (Z.div_mod (val a) 58 ltac:(lia)) as Hdm.
  assert (1 <= val a / 58) by (apply Z.div_le_lower_bound; lia).
  destruct (div58_spec a1 W1 (N1 ltac:(lia)) ltac:(lia)) as (a2 & Hd & W2 & V2 & N2 & _).
  exists a1, a2. split_and!; try done. rewrite V2, V1.
  replace (val a - val a mod 58) with (val a / 58 * 58) by lia. apply Z.div_mul. lia.
Qed.

Lemma compare58_less a :
  wf a -> norm (digits a) -> val a < 58 ->
  BigNumberCompareTo58 a = CB_COMPARE_LESS_THAN /\ data a !! (bn_length a - 1)%nat = Some (val a).
Proof.
  intros Ha Hn Hv. pose proof (norm_length _ 1 Hn ltac:(change (58 ^ Z.of_nat 1) with 58; exact Hv)) as Hl.
  rewrite (length_digits a Ha) in Hl. unfold BigNumberCompareTo58, val, digits in *.
  destruct Hn as [Hne _]. destruct (bn_length a) as [|[|]]; [done| |lia].
  destruct (data a) as [|d l]; [done|]. cbn [take] in *. rewrite take_0, le_val_1 in *.
  change (nthZ (d :: l) 0) with d. cbn [Nat.ltb Nat.leb].
  destruct (Z.ltb_spec 58 d); [lia|]. destruct (Z.ltb_spec d 58); [done|lia].
Qed.

Lemma compare58_more a :
  wf a -> bn_length a <> 0%nat -> 58 <= val a -> BigNumberCompareTo58 a <> CB_COMPARE_LESS_THAN.
Proof.
  intros Ha Hn Hv. unfold BigNumberCompareTo58, val, digits in *.
  destruct (bn_length a) as [|[|]]; [done| |done].
  destruct (data a) as [|d l]; [cbn in Hv; change (le_val []) with 0 in Hv; lia|].
  cbn [take] in Hv. rewrite take_0, le_val_1 in Hv. change (nthZ (d :: l) 0) with d.
  cbn [Nat.ltb Nat.leb]. destruct (58 <? d); [done|]. destruct (Z.ltb_spec d 58); [lia|done].
Qed.

Lemma encode_loop_spec f bi x maxStrLen acc :
  wf bi -> bn_length bi <> 0%nat -> 58 <= val bi \/ norm (digits bi) ->
  val bi < 58 ^ Z.of_nat f -> (x + f + 2 <= maxStrLen)%nat -> (0 < f)%nat ->
  exists ds d bi', encode_loop f bi x maxStrLen acc = Some (Some (bi', map b58 (reverse ds) ++ acc))
    /\ data bi' !! (bn_length bi' - 1)%nat = Some d /\ is58 d /\ d <> 0 /\ Forall is58 ds
    /\ b58val (ds ++ [d]) = val bi /\ (length ds < f)%nat.
Proof.
  revert bi x acc. induction f as [|f IH]; intros bi x acc Hw Hn Hv Hlt Hm Hf; [lia|].
  cbn [encode_loop]. destruct (decide (58 <= val bi)) as [Hge|Hle].
  - pose proof (compare58_more bi Hw Hn Hge) as Hc.
    destruct (encode_step bi Hw Hn Hge) as (a1 & a2 & E1 & E2 & W2 & N2 & V2).
    pose proof (Z.mod_pos_bound (val bi) 58 ltac:(lia)) as Hmod.
    rewrite Nat2Z.inj_succ, Z.pow_succ_r in Hlt by lia.
    assert (bn_length a2 <> 0%nat) as Hn2.
    { rewrite <- (length_digits a2 W2). destruct N2 as [N2 _]. by destruct (digits a2). }
    assert (0 < f)%nat as Hf0.
    { destruct f; [|lia]. change (58 * 58 ^ Z.of_nat 0) with 58 in Hlt. lia. }
    destruct (IH a2 (S x) (b58 (val bi mod 58) :: acc) W2 Hn2 (or_intror N2)) as
      (ds & d & bi' & Hrun & Hd & Hd1 & Hd2 & Hds & Hval & Hlen); [|lia|done|].
    { rewrite V2. apply Z.div_lt_upper_bound; lia. }
    exists (val bi mod 58 :: ds), d, bi'. split_and!; try done.
    + rewrite mod58_spec by done. cbn [mbind option_bind].
      assert ((maxStrLen <? x + 3)%nat = false) as -> by (apply Nat.ltb_ge; lia). rewrite andb_false_r.
      rewrite E1. cbn [mbind option_bind]. rewrite E2. cbn [mbind option_bind]. fold (b58 (val bi mod 58)).
      rewrite Hrun, reverse_cons, map_app, <- app_assoc. cbn [map app].
      destruct (BigNumberCompareTo58 bi); done.
    + by constructor.
    + cbn [app]. rewrite b58val_cons, Hval, V2. pose proof (Z.div_mod (val bi) 58). lia.
    + cbn. lia.
  - destruct Hv as [Hv|Hv]; [lia|]. destruct (compare58_less bi Hw Hv ltac:(lia)) as [-> Hd].
    pose proof (norm_pos _ Hv) as Hpos. fold (val bi) in Hpos.
    exists [], (val bi), bi. split_and!; try done; [unfold is58; lia|lia|].
    cbn [app]. rewrite b58val_cons. change (b58val []) with 0. lia.
Qed.

(** Leading zero bytes become leading ones; the rest is the number in base 58. *)
Lemma encode_spec bi maxStrLen :
  wf bi -> bn_length bi <> 0%nat -> 58 <= val bi -> (3 * bn_length bi + 3 <= maxStrLen)%nat ->
  exists ds, CBEncodeBase58 bi maxStrLen
      = Some (Some (replicate (leading 0 (reverse (digits bi))) 49 ++ map b58 (reverse ds)))
    /\ Forall is58 ds /\ last ds <> Some 0 /\ ds <> [] /\ b58val ds = val bi
    /\ (length ds <= 2 * bn_length bi + 1)%nat.
Proof.
  intros Hw Hn Hv Hm. unfold CBEncodeBase58. rewrite (proj2 (Nat.ltb_ge _ _)) by lia.
  pose proof (length_digits bi Hw) as Hl. pose proof (bytes_digits bi Hw) as Hb.
  destruct (digits bi) as [|x0 l0] eqn:Ed; [cbn in Hl; lia|]. rewrite <- Ed in *.
  assert (leading 0 (reverse (digits bi)) <= bn_length bi)%nat as Hz.
  { rewrite <- Hl, <- length_reverse. generalize (reverse (digits bi)). intros l.
    induction l as [|x l IH]; cbn; [lia|]. destruct (x =? 0); cbn; lia. }
  assert (val bi < 58 ^ Z.of_nat (2 * bn_length bi + 1)) as Hlt.
  { pose proof (proj2 (le_val_bound _ Hb)) as Hlt. rewrite Hl in Hlt. fold (val bi) in Hlt.
    replace (Z.of_nat (2 * bn_length bi + 1)) with (2 * Z.of_nat (bn_length bi) + 1) by lia.
    rewrite Z.pow_add_r, Z.pow_mul_r by lia.
    assert (0x100 ^ Z.of_nat (bn_length bi) <= (58 ^ 2) ^ Z.of_nat (bn_length bi))
      by (apply Z.pow_le_mono_l; lia). lia. }
  destruct (encode_loop_spec (2 * bn_length bi + 1) bi (leading 0 (reverse (digits bi))) maxStrLen []
    Hw Hn (or_introl Hv) Hlt) as (ds & d & bi' & -> & Hd & Hd1 & Hd2 & Hds & Hval & Hlen); [lia|lia|].
  exists (ds ++ [d]). cbn [mbind option_bind]. rewrite Hd. cbn [mbind option_bind].
  unfold is58 in Hd1.
  assert (base58Characters !! Z.to_nat d = Some (b58 d)) as ->.
  { unfold b58, nthZ. destruct (lookup_lt_is_Some_2 base58Characters (Z.to_nat d)) as [c Hc];
      [change (length base58Characters) with 58%nat; lia|]. by rewrite Hc. }
  cbn [mbind option_bind]. rewrite reverse_app, map_app, app_nil_r.
  split_and!; [done|apply Forall_app; split; [done|by constructor]| |by destruct ds|done|].
  - rewrite last_snoc. congruence.
  - rewrite length_app. cbn. lia.
Qed.

(** ** Round trips *)

#[local] Opaque SHA256.computeSHA256 SHA256.sha256_spec RIPEMD160.computeRIPEMD160
  RIPEMD160.ripemd160_spec.

Lemma norm_unique l l' : norm l -> norm l' -> bytes l -> bytes l' -> le_val l = le_val l' -> l = l'.
Proof.
  intros [Hne Hge] [Hne' Hge'] Hb Hb' Hv. apply le_val_inj; [done..| |done].
  pose proof (le_val_bound l Hb) as [_ Hlt]. pose proof (le_val_bound l' Hb') as [_ Hlt'].
  assert (forall a b : nat, 0x100 ^ (Z.of_nat a - 1) < 0x100 ^ Z.of_nat b -> (a <= b)%nat) as Hp.
  { intros a b H. apply Z.pow_lt_mono_r_iff in H; lia. }
  pose proof (Hp (length l) (length l')). pose proof (Hp (length l') (length l)). lia.
Qed.

Lemma leading_split c l :
  l = replicate (leading c l) c ++ drop (leading c l) l /\ hd_error (drop (leading c l) l) <> Some c.
Proof.
  induction l as [|x l [IH1 IH2]]; [done|]. cbn [leading]. destruct (Z.eqb_spec x c) as [->|Hne].
  - cbn [replicate drop app]. split; [by f_equal|done].
  - cbn. split; [done|congruence].
Qed.

Lemma norm_reverse x l : bytes (x :: l) -> x <> 0 -> norm (reverse (x :: l)).
Proof.
  intros Hb Hx. apply bytes_cons in Hb as [H8 Hb]. unfold is8 in H8. split.
  - rewrite reverse_cons. by destruct (reverse l).
  - rewrite length_reverse, le_val_reverse_cons. cbn [length].
    replace (Z.of_nat (S (length l)) - 1) with (Z.of_nat (length l)) by lia.
    assert (bytes (reverse l)) as Hr by (unfold bytes; by rewrite Forall_reverse).
    pose proof (le_val_bound _ Hr) as [? _]. pose proof (pow256_pos (length l)). nia.
Qed.

Lemma reverse_zeros_app z (l : list Z) :
  le_val (reverse (replicate z 0 ++ l)) = le_val (reverse l).
Proof. rewrite reverse_app, reverse_replicate. apply le_val_app_zeros. Qed.

(** Decoding the encoding of a 25-byte number gives it back. *)
Lemma base58_roundtrip_spec A maxStrLen :
  bytes A -> length A = 25%nat -> 58 <= be_val A -> (78 <= maxStrLen)%nat ->
  exists str, encodeBase58 A 25 true maxStrLen = Some (Some str)
    /\ decodeBase58 str 25 true = Some (25%nat, A).
Proof.
  intros Hb Hl Hv Hm. unfold encodeBase58. rewrite bool_decide_eq_true_2 by lia. cbn [mbind option_bind].
  rewrite (firstn_all2 A) by lia. rewrite firstn_all2 by (rewrite length_reverse; lia).
  assert (bytes (reverse A)) as Hr by (unfold bytes; by rewrite Forall_reverse).
  destruct (new_wf 25 (reverse A)) as (bn & -> & Wb & Db); [lia|done|by rewrite length_reverse|].
  change ((25 <=? 25)%nat) with true. cbn [mbind option_bind].
  pose proof (length_digits bn Wb) as Lb. rewrite Db, length_reverse, Hl in Lb.
  assert (val bn = be_val A) as Vb by (unfold val; by rewrite Db).
  destruct (encode_spec bn maxStrLen Wb ltac:(lia) ltac:(lia) ltac:(lia))
    as (ds & -> & Hds & Hlast & Hne & Hval & Hlen).
  rewrite Db, reverse_involutive. set (z := leading 0 A).
  destruct (leading_split 0 A) as [EA Hhd]. fold z in EA, Hhd. eexists. split; [reflexivity|].
  assert (z <= 25)%nat as Hz.
  { apply (f_equal length) in EA. rewrite length_app, length_replicate in EA. lia. }
  destruct (decode_spec z ds Hds Hlast Hne ltac:(lia)) as (bn0 & bn1 & l & E0 & E1 & W1 & D1 & N1 & B1 & V1).
  unfold decodeBase58. rewrite E0. cbn [mbind option_bind]. rewrite E1. cbn [mbind option_bind].
  assert (l = reverse (drop z A)) as ->.
  { assert (le_val (reverse (drop z A)) = be_val A) as HV.
    { rewrite <- (reverse_zeros_app z), <- EA. done. }
    destruct (drop z A) as [|x A'] eqn:EA'; [change (le_val (reverse [])) with 0 in HV; lia|].
    assert (bytes (x :: A')) as HbA by (rewrite <- EA'; by apply bytes_drop).
    apply norm_unique; [done| |done|unfold bytes; by rewrite Forall_reverse|lia].
    apply norm_reverse; [done|]. cbn in Hhd. congruence. }
  assert (reverse (digits bn1) = A) as HA.
  { rewrite D1, reverse_app, reverse_involutive, reverse_replicate. by symmetry. }
  assert (bn_length bn1 = 25%nat) as ->.
  { rewrite <- (length_digits bn1 W1), <- length_reverse, HA. done. }
  cbn. by rewrite HA.
Qed.

Lemma ripemd_address_spec h output :
  bytes h -> length h = 20%nat -> bytes output -> length output = 25%nat ->
  bitcoinRIPEMD160ToAddress h output = 0 :: h ++ take 4 (sha256d (0 :: h)).
Proof.
  intros Hh Hl Ho Hlo. unfold bitcoinRIPEMD160ToAddress. rewrite (firstn_all2 h) by lia.
  assert (SHA256.overwrite (<[0%nat := 0]> output) 1 h = (0 :: h) ++ drop 21 output) as ->.
  { unfold SHA256.overwrite. rewrite Hl. destruct output as [|x output]; [discriminate|]. reflexivity. }
  change (0 :: h ++ ?x) with ((0 :: h) ++ x). apply checksum_tail.
  - apply bytes_app. split; [apply bytes_cons; split; [unfold is8; lia|exact Hh]|].
    apply bytes_drop, Ho.
  - simpl. lia.
  - rewrite length_drop. lia.
Qed.

(** The checksum that [bitcoinAsciiToAddress] computes. *)
Lemma ascii_checksum p c :
  bytes p -> bytes c -> length p = 21%nat ->
  SHA256.computeSHA256 (SHA256.computeSHA256 (p ++ c) 21) 32 = sha256d p.
Proof.
  intros Hp Hc Hl. unfold sha256d. change 21 with (Z.of_nat 21) at 1.
  rewrite SHA256.computeSHA256_spec; [|by apply bytes_app|rewrite length_app; lia|lia].
  rewrite take_app_length' by (symmetry; exact Hl).
  destruct (sha256_digest p 21 Hp) as (_ & H32 & Hd); [lia..|].
  apply (sha256_digest _ 32 Hd); lia.
Qed.

Lemma le_val_eq_0 l : bytes l -> le_val l = 0 -> l = replicate (length l) 0.
Proof.
  intros Hb Hv. apply le_val_inj; [done|apply bytes_replicate|by rewrite length_replicate|].
  by rewrite le_val_zeros.
Qed.

(** An address whose hash is not all zero is at least 2^32. *)
Lemma address_big h c :
  bytes h -> bytes c -> length c = 4%nat -> h <> replicate (length h) 0 -> 58 <= be_val (0 :: h ++ c).
Proof.
  intros Hh Hc Hl Hne. unfold be_val. rewrite le_val_reverse_cons, reverse_app, le_val_app, length_reverse, Hl.
  assert (bytes (reverse h)) as Hr by (unfold bytes; by rewrite Forall_reverse).
  assert (bytes (reverse c)) as Hrc by (unfold bytes; by rewrite Forall_reverse).
  pose proof (le_val_bound _ Hr) as [H0 _]. pose proof (le_val_bound _ Hrc) as [H1 _].
  assert (le_val (reverse h) <> 0) as Hn0.
  { intros E. apply Hne. apply le_val_eq_0 in E; [|done]. rewrite length_reverse in E.
    rewrite <- (reverse_involutive h), E at 1. by rewrite reverse_replicate. }
  change (0x100 ^ Z.of_nat 4) with 0x1_0000_0000. lia.
Qed.

Lemma nthZ_tail p c : length p = 21%nat -> nthZ (p ++ c) 21 = nthZ c 0.
Proof. intros Hp. rewrite nthZ_app_r by lia. f_equal. lia. Qed.

(** The address that [bitcoinAsciiToAddress] accepts: the first byte of the
    checksum is enough. *)
Lemma ascii_accepts str p c :
  bytes p -> bytes c -> length p = 21%nat ->
  decodeBase58 str 25 true = Some (25%nat, p ++ c) -> nthZ c 0 = nthZ (sha256d p) 0 ->
  bitcoinAsciiToAddress str = Some (true, p ++ c).
Proof.
  intros Hp Hc Hl Hdec H0. unfold bitcoinAsciiToAddress. rewrite Hdec.
  cbn [mbind option_bind Nat.eqb]. rewrite (ascii_checksum p c Hp Hc Hl), (nthZ_tail p c Hl), H0.
  by rewrite Z.eqb_refl.
Qed.

Lemma nthZ_take4 (d : list Z) : (4 <= length d)%nat -> nthZ (take 4 d) 0 = nthZ d 0.
Proof. destruct d as [|? d]; cbn; [lia|done]. Qed.

(** ** Results *)

(** Base58 encoding is inverted by decoding: for every 25-byte number that is
    at least 58, with room for 78 characters, encoding succeeds and decoding the
    text gives exactly the 25 bytes, leading zeros included. *)
Theorem base58_roundtrip A maxStrLen :
  bytes A -> length A = 25%nat -> 58 <= be_val A -> (78 <= maxStrLen)%nat ->
  exists str, encodeBase58 A 25 true maxStrLen = Some (Some str)
    /\ decodeBase58 str 25 true = Some (25%nat, A).
Proof. apply base58_roundtrip_spec. Qed.

Lemma base58_roundtrip_witness :
  exists str, encodeBase58 (replicate 2 0 ++ replicate 23 0xab) 25 true 78 = Some (Some str)
    /\ decodeBase58 str 25 true = Some (25%nat, replicate 2 0 ++ replicate 23 0xab).
Proof.
  apply (base58_roundtrip (replicate 2 0 ++ replicate 23 0xab) 78).
  - apply bytes_app. split; [apply bytes_replicate|]. apply Forall_replicate. unfold is8. lia.
  - reflexivity.
  - vm_compute. discriminate.
  - lia.
Defined.

(** C34: the text of an address identifies it.  For an uncompressed public key
    whose hash is not all zero, [bitcoinPublicKeyToAscii] gives the same text as
    encoding the address of the hash, and [bitcoinAsciiToAddress] accepts that
    text and returns the version byte, the hash and the checksum. *)
Theorem address_text_roundtrip key maxOutputLen :
  bytes key -> length key = 65%nat -> nthZ key 0 = 4 -> hash160 key <> replicate 20 0 ->
  (78 <= maxOutputLen)%nat ->
  exists str, bitcoinPublicKeyToAscii key maxOutputLen = Some (Some str)
    /\ bitcoinAddressToAscii (bitcoinRIPEMD160ToAddress (hash160 key) (replicate 25 0)) maxOutputLen
       = Some (Some str)
    /\ bitcoinAsciiToAddress str
       = Some (true, 0 :: hash160 key ++ take 4 (sha256d (0 :: hash160 key))).
Proof.
  intros Hb Hl H4 Hne Hm. destruct (hash160_digest key Hb Hl) as [Hlh Hbh].
  unfold bitcoinPublicKeyToAscii, bitcoinAddressToAscii.
  rewrite publicKeyToAddress_spec, H4 by (done || apply bytes_replicate). cbn [Z.eqb Pos.eqb].
  rewrite ripemd_address_spec by (done || apply bytes_replicate).
  set (h := hash160 key) in *.
  assert (bytes (0 :: h)) as Hbp by (apply bytes_cons; split; [unfold is8; lia|done]).
  destruct (sha256d_digest (0 :: h) Hbp) as [Hls Hbs]; [cbn; lia|].
  set (c := take 4 (sha256d (0 :: h))).
  assert (bytes c /\ length c = 4%nat) as [Hbc Hlc].
  { subst c. split; [by apply bytes_take|]. rewrite length_take. lia. }
  destruct (base58_roundtrip_spec (0 :: h ++ c) maxOutputLen) as (str & -> & Hdec).
  - change (0 :: h ++ c) with ((0 :: h) ++ c). by apply bytes_app.
  - cbn. rewrite length_app. lia.
  - apply address_big; [done..|by rewrite Hlh].
  - done.
  - exists str. split; [reflexivity|]. split; [reflexivity|].
    apply (ascii_accepts str (0 :: h) c Hbp Hbc); [cbn; lia|exact Hdec|].
    apply nthZ_take4. rewrite Hls. lia.
Qed.

Lemma address_text_roundtrip_witness :
  let key := 4 :: replicate 64 7 in
  exists str, bitcoinPublicKeyToAscii key 100 = Some (Some str)
    /\ option_map fst (bitcoinAsciiToAddress str) = Some true.
Proof.
  intros key. destruct (address_text_roundtrip key 100) as (str & H1 & _ & H2).
  - apply bytes_cons. split; [unfold is8; lia|]. apply Forall_replicate. unfold is8. lia.
  - reflexivity.
  - reflexivity.
  - vm_compute. discriminate.
  - lia.
  - exists str. split; [exact H1|]. rewrite H2. reflexivity.
Defined.

(** One correct checksum byte is enough.  [bitcoinAsciiToAddress] accepts the
    text of any 25-byte number (at least 58) whose first checksum byte is right,
    whatever the other three bytes are. *)
Theorem checksum_one_byte p c maxOutputLen :
  bytes p -> length p = 21%nat -> bytes c -> length c = 4%nat -> 58 <= be_val (p ++ c) ->
  (78 <= maxOutputLen)%nat -> nthZ c 0 = nthZ (sha256d p) 0 ->
  exists str, bitcoinAddressToAscii (p ++ c) maxOutputLen = Some (Some str)
    /\ bitcoinAsciiToAddress str = Some (true, p ++ c).
Proof.
  intros Hbp Hlp Hbc Hlc Hv Hm H0.
  destruct (base58_roundtrip_spec (p ++ c) maxOutputLen) as (str & E & Hdec);
    [by apply bytes_app|rewrite length_app; lia|done|done|].
  exists str. split; [exact E|]. by apply ascii_accepts.
Qed.

(** The three other bytes are zero, which is not the checksum. *)
Lemma checksum_one_byte_witness :
  [0xa6; 0; 0; 0] <> take 4 (sha256d (0 :: replicate 20 9))
  /\ exists str, bitcoinAddressToAscii ((0 :: replicate 20 9) ++ [0xa6; 0; 0; 0]) 100 = Some (Some str)
       /\ bitcoinAsciiToAddress str = Some (true, (0 :: replicate 20 9) ++ [0xa6; 0; 0; 0]).
Proof.
  split; [vm_compute; discriminate|].
  apply (checksum_one_byte (0 :: replicate 20 9) [0xa6; 0; 0; 0] 100).
  - repeat (apply bytes_cons; split; [unfold is8; lia|]). apply bytes_nil.
  - reflexivity.
  - repeat (apply bytes_cons; split; [unfold is8; lia|]). apply bytes_nil.
  - reflexivity.
  - vm_compute. discriminate.
  - lia.
  - vm_compute. reflexivity.
Defined.

(** The text of the small number [d] with 24 leading zero bytes, decoded. *)
Definition small_lost (d : nat) : bool :=
  match encodeBase58 (replicate 24 0 ++ [Z.of_nat d]) 25 true 100 with
  | Some (Some str) => bool_decide (decodeBase58 str 25 true = Some (0%nat, []))
  | _ => false
  end.

Lemma small_lost_spec d :
  small_lost d = true ->
  exists str, encodeBase58 (replicate 24 0 ++ [Z.of_nat d]) 25 true 100 = Some (Some str)
    /\ decodeBase58 str 25 true = Some (0%nat, []).
Proof.
  unfold small_lost. generalize (encodeBase58 (replicate 24 0 ++ [Z.of_nat d]) 25 true 100).
  intros [[str|]|] H; try discriminate. apply bool_decide_eq_true in H. eauto.
Qed.

Lemma smalls_lost : forallb small_lost (seq 0 58) = true.
Proof. vm_compute. reflexivity. Qed.

(** Numbers below 58 do not survive: the encoder writes one character too
    many for a 25-byte number below 58, and the text decodes to more than 25
    bytes, which the decoder reports as length 0. *)
Theorem base58_small_lost d :
  0 <= d < 58 ->
  exists str, encodeBase58 (replicate 24 0 ++ [d]) 25 true 100 = Some (Some str)
    /\ decodeBase58 str 25 true = Some (0%nat, []).
Proof.
  intros Hd. rewrite <- (Z2Nat.id d) by lia. apply small_lost_spec.
  apply (proj1 (forallb_forall small_lost (seq 0 58)) smalls_lost).
  apply Stdlib.Lists.List.in_seq. lia.
Qed.

Lemma base58_small_lost_witness :
  exists str, encodeBase58 (replicate 24 0 ++ [5]) 25 true 100 = Some (Some str)
    /\ decodeBase58 str 25 true = Some (0%nat, []).
Proof. apply (base58_small_lost 5). lia. Defined.
End BASE58.
