(* ===== verification/Sql.v ===== *)
(** * The MySQL database behind the program

    The program talks to a MySQL server by building statement texts and calling
    [mysql_query].  The server is not part of the repository: here it is the
    class [MySQL], a query function on texts with one law, that a text built
    from one of the program's statement forms has the effect which MySQL
    documents for that statement.  The forms are the constructors of [stmt],
    [render] writes their texts and [exec] states their effect on the four
    tables.  The table definitions are not in the repository either: the
    column defaults are the class [Schema].

    A server that satisfies the law is given at the end: it parses the texts. *)
From Stdlib Require Import String Ascii Decimal DecimalString DecimalN.
From stdpp Require Import base gmap list strings numbers option.
From S2P Require Import Prelude.
Local Open Scope string_scope.
Open Scope Z_scope.

(** ** Numbers as text: [sprintf] and stream output *)

Definition hexdigit (d : Z) : ascii :=
  ascii_of_nat (Z.to_nat (if d <? 10 then 48 + d else 87 + d)).

(** [sprintf("%02x")] of one byte, and of each byte of an array in turn. *)
Definition hex_byte (b : Z) : string := String (hexdigit (b / 16)) (String (hexdigit (b mod 16)) "").
Fixpoint hex (l : list Z) : string :=
  match l with [] => "" | b :: l' => hex_byte b +:+ hex l' end.

(** [sprintf("%08x")] of a 32-bit number. *)
Definition hex32 (x : Z) : string := hex (be_bytes 4 x).

(** [ss << x] of a nonnegative number. *)
Definition dec (x : Z) : string := NilZero.string_of_uint (N.to_uint (Z.to_N x)).

(** ** The tables *)

Record addr_row := {
  a_inval : Z; a_outval : Z; a_bal : Z; a_maxbal : Z; a_incnt : Z; a_outcnt : Z;
  a_firsttm : string; a_lasttm : string; a_entity : Z }.

(** The aggregates of an entity; [None] is SQL's NULL. *)
Record ent_row := {
  e_addcnt : Z; e_inval : option Z; e_outval : option Z; e_firsttm : option string;
  e_lasttm : option string; e_bal : option Z; e_maxbal : option Z; e_incnt : option Z;
  e_outcnt : option Z }.

Record tx_row := {
  t_hash : list Z; t_txcounter : Z; t_blknum : Z; t_time : string; t_rawlength : Z; t_fee : Z;
  t_incounter : Z; t_invalue : Z; t_outcounter : Z; t_outvalue : Z }.

Record blk_row := {
  b_hash : list Z; b_blknum : Z; b_size : Z; b_trans_count : Z; b_time : string;
  b_difficulty : Z; b_reward : Z }.

(** [addressinfo] and [entityinfo] have their first column as key. *)
Record DB := {
  addressinfo : gmap (list Z) addr_row;
  entityinfo : gmap Z ent_row;
  txinfo : list tx_row;
  blkinfo : list blk_row }.

Definition set_addressinfo m (d : DB) : DB :=
  {| addressinfo := m; entityinfo := entityinfo d; txinfo := txinfo d; blkinfo := blkinfo d |}.
Definition set_entityinfo m (d : DB) : DB :=
  {| addressinfo := addressinfo d; entityinfo := m; txinfo := txinfo d; blkinfo := blkinfo d |}.
Definition set_txinfo l (d : DB) : DB :=
  {| addressinfo := addressinfo d; entityinfo := entityinfo d; txinfo := l; blkinfo := blkinfo d |}.
Definition set_blkinfo l (d : DB) : DB :=
  {| addressinfo := addressinfo d; entityinfo := entityinfo d; txinfo := txinfo d; blkinfo := l |}.

(** The tables of transactions and blocks. *)
Definition records (d : DB) : list tx_row * list blk_row := (txinfo d, blkinfo d).

(** Column defaults: the program reads entity 0 as "none yet" and counts from
    zero. *)
Class Schema := {
  default_addr : addr_row;
  default_ent : ent_row;
  default_entity : a_entity default_addr = 0;
  default_inval : a_inval default_addr = 0 }.

(** ** The statement forms *)

Inductive stmt :=
  | SelectEntity (kw_upper : bool) (address : list Z)
  | MergeEntity (entity_0 entity : Z)
  | SetEntity (entity : Z) (address : list Z)
  | DeleteEntity (entity : Z)
  | InsertEntity (entity : Z)
  | UpdateEntity (entity : Z)
  | AddInput (value : Z) (time : string) (address : list Z)
  | UpsertOutput (address : list Z) (value : Z) (time : string)
  | RaiseMaxbal (address : list Z)
  | InsertTx (row : tx_row)
  | InsertBlk (row : blk_row).

Definition render (s : stmt) : string :=
  match s with
  | SelectEntity up a =>
      "SELECT entity FROM addressinfo " +:+ (if up then "WHERE" else "where")
      +:+ " address = x'" +:+ hex a +:+ "';"
  | MergeEntity e0 e =>
      "UPDATE addressinfo SET entity = x'" +:+ hex32 e0 +:+ "' WHERE entity = x'" +:+ hex32 e +:+ "';"
  | SetEntity e a =>
      "UPDATE addressinfo SET entity = x'" +:+ hex32 e +:+ "' WHERE address = x'" +:+ hex a +:+ "';"
  | DeleteEntity e => "DELETE FROM entityinfo WHERE entity = x'" +:+ hex32 e +:+ "';"
  | InsertEntity e => "INSERT INTO entityinfo(entity) VALUES(x'" +:+ hex32 e +:+ "');"
  | UpdateEntity e =>
      let x := hex32 e in
      "UPDATE entityinfo SET addcnt = (SELECT count(*) FROM addressinfo WHERE entity=x'" +:+ x
      +:+ "'),inval = (SELECT sum(inval) FROM addressinfo WHERE entity=x'" +:+ x
      +:+ "'),outval = (SELECT sum(outval) FROM addressinfo WHERE entity=x'" +:+ x
      +:+ "'),firsttm = (SELECT min(firsttm) FROM addressinfo WHERE entity=x'" +:+ x
      +:+ "'),lasttm = (SELECT max(lasttm) FROM addressinfo WHERE entity=x'" +:+ x
      +:+ "'),bal = (SELECT sum(bal) FROM addressinfo WHERE entity=x'" +:+ x
      +:+ "'),maxbal = (SELECT sum(maxbal) FROM addressinfo WHERE entity=x'" +:+ x
      +:+ "'),incnt = (SELECT sum(incnt) FROM addressinfo WHERE entity=x'" +:+ x
      +:+ "'),outcnt = (SELECT sum(outcnt) FROM addressinfo WHERE entity=x'" +:+ x
      +:+ "') WHERE entity=x'" +:+ x +:+ "';"
  | AddInput v t a =>
      "UPDATE addressinfo SET inval=inval+" +:+ dec v +:+ ",lasttm='" +:+ t
      +:+ "',bal=outval-inval,incnt=incnt+1 WHERE address=x'" +:+ hex a +:+ "';"
  | UpsertOutput a v t =>
      "INSERT INTO addressinfo(address,outval,firsttm,lasttm,bal) VALUES(x'" +:+ hex a +:+ "','"
      +:+ dec v +:+ "','" +:+ t +:+ "','" +:+ t
      +:+ "',outval-inval) ON DUPLICATE KEY UPDATE outval=outval+" +:+ dec v +:+ ",lasttm='" +:+ t
      +:+ "',bal=outval-inval,outcnt=outcnt+1;"
  | RaiseMaxbal a =>
      "UPDATE addressinfo SET maxbal=bal WHERE bal>maxbal AND address=x'" +:+ hex a +:+ "';"
  | InsertTx r =>
      "INSERT INTO txinfo VALUES(x'" +:+ hex (t_hash r) +:+ "','" +:+ dec (t_txcounter r) +:+ "','"
      +:+ dec (t_blknum r) +:+ "','" +:+ t_time r +:+ "','" +:+ dec (t_rawlength r) +:+ "','"
      +:+ dec (t_fee r) +:+ "','" +:+ dec (t_incounter r) +:+ "','" +:+ dec (t_invalue r) +:+ "','"
      +:+ dec (t_outcounter r) +:+ "','" +:+ dec (t_outvalue r) +:+ "');"
  | InsertBlk r =>
      "INSERT INTO blkinfo VALUES(x'" +:+ hex (b_hash r) +:+ "','" +:+ dec (b_blknum r) +:+ "','"
      +:+ dec (b_size r) +:+ "','" +:+ dec (b_trans_count r) +:+ "','" +:+ b_time r +:+ "','"
      +:+ dec (b_difficulty r) +:+ "','" +:+ dec (b_reward r) +:+ "');"
  end.

(** ** Their effect *)

Definition with_entity (e : Z) (r : addr_row) : addr_row :=
  {| a_inval := a_inval r; a_outval := a_outval r; a_bal := a_bal r; a_maxbal := a_maxbal r;
     a_incnt := a_incnt r; a_outcnt := a_outcnt r; a_firsttm := a_firsttm r;
     a_lasttm := a_lasttm r; a_entity := e |}.

(** [SET inval=inval+v, lasttm=t, bal=outval-inval, incnt=incnt+1], assigned from
    left to right. *)
Definition add_input (v : Z) (t : string) (r : addr_row) : addr_row :=
  let inval := a_inval r + v in
  {| a_inval := inval; a_outval := a_outval r; a_bal := a_outval r - inval;
     a_maxbal := a_maxbal r; a_incnt := a_incnt r + 1; a_outcnt := a_outcnt r;
     a_firsttm := a_firsttm r; a_lasttm := t; a_entity := a_entity r |}.

Definition add_output (v : Z) (t : string) (r : addr_row) : addr_row :=
  let outval := a_outval r + v in
  {| a_inval := a_inval r; a_outval := outval; a_bal := outval - a_inval r;
     a_maxbal := a_maxbal r; a_incnt := a_incnt r; a_outcnt := a_outcnt r + 1;
     a_firsttm := a_firsttm r; a_lasttm := t; a_entity := a_entity r |}.

Definition raise_maxbal (r : addr_row) : addr_row :=
  {| a_inval := a_inval r; a_outval := a_outval r; a_bal := a_bal r;
     a_maxbal := if a_maxbal r <? a_bal r then a_bal r else a_maxbal r;
     a_incnt := a_incnt r; a_outcnt := a_outcnt r;
     a_firsttm := a_firsttm r; a_lasttm := a_lasttm r; a_entity := a_entity r |}.

(** [INSERT INTO addressinfo(address,outval,firsttm,lasttm,bal)]: the columns
    not named take their defaults, and so does [inval] in [outval-inval]. *)
Definition new_addr `{Schema} (v : Z) (t : string) : addr_row :=
  {| a_inval := a_inval default_addr; a_outval := v; a_bal := v - a_inval default_addr;
     a_maxbal := a_maxbal default_addr; a_incnt := a_incnt default_addr;
     a_outcnt := a_outcnt default_addr; a_firsttm := t; a_lasttm := t;
     a_entity := a_entity default_addr |}.

(** The rows of one entity and the aggregate functions over them. *)
Definition entity_rows (e : Z) (m : gmap (list Z) addr_row) : list addr_row :=
  filter (fun r => a_entity r = e) (snd <$> map_to_list m).

Definition sql_sum (l : list Z) : option Z :=
  match l with [] => None | _ => Some (foldr Z.add 0 l) end.
Definition sql_min (l : list string) : option string :=
  match l with
  | [] => None | t :: l => Some (foldl (fun m x => if String.leb m x then m else x) t l) end.
Definition sql_max (l : list string) : option string :=
  match l with
  | [] => None | t :: l => Some (foldl (fun m x => if String.leb x m then m else x) t l) end.

Definition aggregate (rows : list addr_row) : ent_row :=
  {| e_addcnt := Z.of_nat (length rows); e_inval := sql_sum (map a_inval rows);
     e_outval := sql_sum (map a_outval rows); e_firsttm := sql_min (map a_firsttm rows);
     e_lasttm := sql_max (map a_lasttm rows); e_bal := sql_sum (map a_bal rows);
     e_maxbal := sql_sum (map a_maxbal rows); e_incnt := sql_sum (map a_incnt rows);
     e_outcnt := sql_sum (map a_outcnt rows) |}.

(** The rows a statement returns, each a list of columns, each a byte string or
    NULL. *)
Abbreviation rows := (list (list (option (list Z)))).

Section exec.
Context `{Schema}.

Definition upsert (a : list Z) (v : Z) (t : string) (m : gmap (list Z) addr_row) :=
  <[a := match m !! a with Some r => add_output v t r | None => new_addr v t end]> m.

Definition exec (s : stmt) (d : DB) : DB * rows :=
  match s with
  | SelectEntity _ a =>
      (d, match addressinfo d !! a with Some r => [[Some (be_bytes 4 (a_entity r))]] | None => [] end)
  | MergeEntity e0 e =>
      (set_addressinfo
         ((fun r => if a_entity r =? e then with_entity e0 r else r) <$> addressinfo d) d, [])
  | SetEntity e a => (set_addressinfo (alter (with_entity e) a (addressinfo d)) d, [])
  | DeleteEntity e => (set_entityinfo (delete e (entityinfo d)) d, [])
  | InsertEntity e => (set_entityinfo (<[e := default_ent]> (entityinfo d)) d, [])
  | UpdateEntity e =>
      (set_entityinfo
         (alter (fun _ => aggregate (entity_rows e (addressinfo d))) e (entityinfo d)) d, [])
  | AddInput v t a => (set_addressinfo (alter (add_input v t) a (addressinfo d)) d, [])
  | UpsertOutput a v t => (set_addressinfo (upsert a v t (addressinfo d)) d, [])
  | RaiseMaxbal a => (set_addressinfo (alter raise_maxbal a (addressinfo d)) d, [])
  | InsertTx r => (set_txinfo ((txinfo d ++ [r])%list) d, [])
  | InsertBlk r => (set_blkinfo ((blkinfo d ++ [r])%list) d, [])
  end.
End exec.

(** Texts between quotes: what the program puts there has no quote in it. *)
Definition arg_char (c : ascii) : bool :=
  let n := nat_of_ascii c in
  ((48 <=? n) && (n <=? 58) || (97 <=? n) && (n <=? 102) || (n =? 45) || (n =? 32))%nat.
Fixpoint arg_text (s : string) : bool :=
  match s with EmptyString => true | String c s' => arg_char c && arg_text s' end.

Definition tx_row_ok (r : tx_row) : Prop :=
  bytes (t_hash r) /\ arg_text (t_time r) = true
  /\ Forall (Z.le 0) [t_txcounter r; t_blknum r; t_rawlength r; t_fee r; t_incounter r;
                      t_invalue r; t_outcounter r; t_outvalue r].
Definition blk_row_ok (r : blk_row) : Prop :=
  bytes (b_hash r) /\ arg_text (b_time r) = true
  /\ Forall (Z.le 0) [b_blknum r; b_size r; b_trans_count r; b_difficulty r; b_reward r].

(** When a statement is executed as [exec] says: its arguments fit their columns
    and no unique key is violated. *)
Definition stmt_ok (s : stmt) (d : DB) : Prop :=
  match s with
  | SelectEntity _ a | RaiseMaxbal a => bytes a
  | MergeEntity e0 e => is32 e0 /\ is32 e
  | SetEntity e a => is32 e /\ bytes a
  | DeleteEntity e | UpdateEntity e => is32 e
  | InsertEntity e => is32 e /\ entityinfo d !! e = None
  | AddInput v t a | UpsertOutput a v t => 0 <= v /\ arg_text t = true /\ bytes a
  | InsertTx r => tx_row_ok r /\ Forall (fun r' => t_hash r' <> t_hash r) (txinfo d)
  | InsertBlk r => blk_row_ok r /\ Forall (fun r' => b_hash r' <> b_hash r) (blkinfo d)
  end.

(** The server: a query changes the state behind a connection and returns rows. *)
Class MySQL `{Schema} := {
  MYSQL : Type;
  mysql_query : MYSQL -> string -> MYSQL * rows;
  tables : MYSQL -> DB;
  mysql_query_effect conn s :
    stmt_ok s (tables conn) ->
    tables (fst (mysql_query conn (render s))) = fst (exec s (tables conn));
  mysql_query_rows conn s :
    stmt_ok s (tables conn) -> snd (mysql_query conn (render s)) = snd (exec s (tables conn)) }.
