(* ===== verification/SqlServer.v ===== *)
(** * A server that satisfies the law of [MySQL]

    A server in memory: it parses a statement text by matching it against the
    program's statement forms, and executes it.  It shows that the law of the
    class [MySQL] can hold, which requires that the texts of the program are
    unambiguous, and it makes the program executable on concrete inputs. *)
From Stdlib Require Import String Ascii Decimal DecimalString DecimalN.
From stdpp Require Import base gmap list strings numbers option.
From S2P Require Import Prelude Sql.
Local Open Scope string_scope.
Open Scope Z_scope.

(** ** Reading numbers back *)

Definition unhexdigit (c : ascii) : option Z :=
  let n := Z.of_nat (nat_of_ascii c) in
  if (48 <=? n) && (n <=? 57) then Some (n - 48)
  else if (97 <=? n) && (n <=? 102) then Some (n - 87) else None.

Fixpoint unhex (s : string) : option (list Z) :=
  match s with
  | EmptyString => Some []
  | String c1 (String c2 s') =>
      h ← unhexdigit c1; l ← unhexdigit c2; rest ← unhex s'; Some (16 * h + l :: rest)
  | _ => None
  end.

Definition unhex32 (s : string) : option Z :=
  l ← unhex s; if (length l =? 4)%nat then Some (be_val l) else None.

Definition undec (s : string) : option Z :=
  u ← NilZero.uint_of_string s; Some (Z.of_N (N.of_uint u)).

Lemma hexdigit_cases d :
  0 <= d < 16 -> unhexdigit (hexdigit d) = Some d /\ arg_char (hexdigit d) = true.
Proof.
  intros Hd. assert (exists k : nat, (k < 16)%nat /\ d = Z.of_nat k) as (k & Hk & ->).
  { exists (Z.to_nat d). lia. }
  do 16 (destruct k as [|k]; [split; reflexivity|]). lia.
Qed.

Lemma byte_digits b : is8 b -> 0 <= b / 16 < 16 /\ 0 <= b mod 16 < 16 /\ 16 * (b / 16) + b mod 16 = b.
Proof.
  unfold is8. intros Hb. pose proof (Z.div_mod b 16). pose proof (Z.mod_pos_bound b 16).
  split; [|split]; [split; [apply Z.div_pos; lia|apply Z.div_lt_upper_bound; lia]|lia|lia].
Qed.

Lemma unhex_hex l : bytes l -> unhex (hex l) = Some l.
Proof.
  induction 1 as [|b l Hb Hl IH]; [reflexivity|].
  destruct (byte_digits b Hb) as (H1 & H2 & H3). cbn [hex]. unfold hex_byte.
  pose proof (proj1 (hexdigit_cases _ H1)) as E1. pose proof (proj1 (hexdigit_cases _ H2)) as E2.
  generalize dependent (hexdigit (b / 16)). generalize dependent (hexdigit (b mod 16)).
  intros c2 E2 c1 E1. change (String c1 (String c2 "") +:+ hex l) with (String c1 (String c2 (hex l))).
  cbn [unhex]. rewrite E1, E2. cbn [mbind option_bind]. rewrite IH. cbn [mbind option_bind].
  by rewrite H3.
Qed.

Lemma arg_hex l : bytes l -> arg_text (hex l) = true.
Proof.
  induction 1 as [|b l Hb Hl IH]; [reflexivity|].
  destruct (byte_digits b Hb) as (H1 & H2 & _). cbn [hex]. unfold hex_byte.
  apply hexdigit_cases in H1 as [_ E1], H2 as [_ E2].
  change (arg_char (hexdigit (b / 16)) && (arg_char (hexdigit (b mod 16)) && arg_text (hex l)) = true).
  by rewrite E1, E2.
Qed.

Lemma be_val_be_bytes n z : be_val (be_bytes n z) = z mod 0x100 ^ Z.of_nat n.
Proof. unfold be_val, be_bytes. rewrite reverse_involutive. apply le_val_le_bytes. Qed.

Lemma unhex32_hex32 e : is32 e -> unhex32 (hex32 e) = Some e.
Proof.
  intros He. unfold unhex32, hex32. rewrite unhex_hex by apply bytes_be_bytes.
  cbn [mbind option_bind]. rewrite length_be_bytes. cbn [Nat.eqb].
  rewrite be_val_be_bytes. f_equal. by apply Z.mod_small.
Qed.

Lemma arg_hex32 e : arg_text (hex32 e) = true.
Proof. apply arg_hex, bytes_be_bytes. Qed.

Lemma undec_dec v : 0 <= v -> undec (dec v) = Some v.
Proof.
  intros Hv. unfold undec, dec. rewrite NilZero.usu.
  - cbn [mbind option_bind]. rewrite DecimalN.Unsigned.of_to. by rewrite Z2N.id.
  - destruct (Z.to_N v) as [|p]; [discriminate|]. apply DecimalPos.Unsigned.to_uint_nonnil.
Qed.

Lemma arg_nilempty u : arg_text (NilEmpty.string_of_uint u) = true.
Proof. induction u; cbn; auto. Qed.

Lemma arg_dec v : arg_text (dec v) = true.
Proof.
  unfold dec, NilZero.string_of_uint. destruct (N.to_uint (Z.to_N v)); [reflexivity|..];
    apply arg_nilempty.
Qed.

(** ** Matching texts against templates *)

Inductive piece := Lit (s : string) | Arg.

Fixpoint strip (p s : string) : option string :=
  match p, s with
  | EmptyString, _ => Some s
  | String c p', String c' s' => if Ascii.eqb c c' then strip p' s' else None
  | _, _ => None
  end.

Fixpoint span (s : string) : string * string :=
  match s with
  | EmptyString => (EmptyString, EmptyString)
  | String c s' =>
      if arg_char c then let '(a, rest) := span s' in (String c a, rest) else (EmptyString, s)
  end.

Fixpoint scan (t : list piece) (s : string) : option (list string) :=
  match t with
  | [] => match s with EmptyString => Some [] | _ => None end
  | Lit l :: t' => s' ← strip l s; scan t' s'
  | Arg :: t' => let '(a, rest) := span s in l ← scan t' rest; Some (a :: l)
  end.

Fixpoint fill (t : list piece) (args : list string) : string :=
  match t, args with
  | [], _ => ""
  | Lit l :: t', _ => l +:+ fill t' args
  | Arg :: t', a :: args' => a +:+ fill t' args'
  | Arg :: t', [] => ""
  end.

(** Every argument is followed by a literal that cannot continue it. *)
Fixpoint delimited (t : list piece) : bool :=
  match t with
  | [] => true
  | Lit _ :: t' => delimited t'
  | Arg :: Lit (String c l) :: t' => negb (arg_char c) && delimited t'
  | Arg :: _ => false
  end.
Fixpoint holes (t : list piece) : nat :=
  match t with [] => 0 | Lit _ :: t' => holes t' | Arg :: t' => S (holes t') end.

Lemma strip_app p s : strip p (p +:+ s) = Some s.
Proof. 
  induction p as [|c p IH]; [reflexivity|].
  change (String c p +:+ s) with (String c (p +:+ s)). cbn [strip]. by rewrite Ascii.eqb_refl.
 Qed.

Lemma span_app a c s :
  arg_text a = true -> arg_char c = false -> span (a +:+ String c s) = (a, String c s).
Proof.
  intros Ha Hc. induction a as [|c' a IH].
  - change ("" +:+ ?x) with x. cbn [span]. by rewrite Hc.
  - change (String c' a +:+ ?x) with (String c' (a +:+ x)). cbn [span arg_text] in *.
    apply andb_true_iff in Ha as [-> Ha]. by rewrite IH.
Qed.

Lemma scan_fill t args :
  delimited t = true -> length args = holes t -> forallb arg_text args = true ->
  scan t (fill t args) = Some args.
Proof.
  revert args. induction t as [|[l|] t IH]; intros args Hd Hl Ha.
  - by destruct args.
  - cbn [scan fill]. rewrite strip_app. cbn [mbind option_bind]. by apply IH.
  - destruct args as [|a args]; [discriminate|]. cbn in Ha. apply andb_true_iff in Ha as [Ha Has].
    destruct t as [|[[|c l]|] t']; try discriminate.
    cbn [delimited] in Hd. apply andb_true_iff in Hd as [Hc Hd].
    apply negb_true_iff in Hc. cbn [fill].
    change (scan (Arg :: ?t) ?s)
      with (let '(a, rest) := span s in l ← scan t rest; Some (a :: l)).
    change (String c l +:+ ?x) with (String c (l +:+ x)).
    rewrite (span_app a c) by done. specialize (IH args Hd ltac:(by injection Hl) Has).
    cbn [fill] in IH. change (String c l +:+ ?x) with (String c (l +:+ x)) in IH.
    rewrite IH. reflexivity.
Qed.

(** ** The statement forms as templates *)

Inductive form :=
  | FSelect (kw_upper : bool) | FMerge | FSet | FDelete | FInsert | FUpdate | FAdd | FUpsert
  | FRaise | FTx | FBlk.
#[export] Instance form_eq_dec : EqDecision form.
Proof. solve_decision. Defined.

Definition forms : list form :=
  [FSelect true; FSelect false; FMerge; FSet; FDelete; FInsert; FUpdate; FAdd; FUpsert; FRaise;
   FTx; FBlk].

Definition entity_sub (col agg : string) : list piece :=
  [Lit (col +:+ " = (SELECT " +:+ agg +:+ " FROM addressinfo WHERE entity=x'"); Arg].

Definition template (f : form) : list piece :=
  match f with
  | FSelect true => [Lit "SELECT entity FROM addressinfo WHERE address = x'"; Arg; Lit "';"]
  | FSelect false => [Lit "SELECT entity FROM addressinfo where address = x'"; Arg; Lit "';"]
  | FMerge => [Lit "UPDATE addressinfo SET entity = x'"; Arg; Lit "' WHERE entity = x'"; Arg; Lit "';"]
  | FSet => [Lit "UPDATE addressinfo SET entity = x'"; Arg; Lit "' WHERE address = x'"; Arg; Lit "';"]
  | FDelete => [Lit "DELETE FROM entityinfo WHERE entity = x'"; Arg; Lit "';"]
  | FInsert => [Lit "INSERT INTO entityinfo(entity) VALUES(x'"; Arg; Lit "');"]
  | FUpdate =>
      (entity_sub "UPDATE entityinfo SET addcnt" "count(*)" ++ entity_sub "'),inval" "sum(inval)"
      ++ entity_sub "'),outval" "sum(outval)" ++ entity_sub "'),firsttm" "min(firsttm)"
      ++ entity_sub "'),lasttm" "max(lasttm)" ++ entity_sub "'),bal" "sum(bal)"
      ++ entity_sub "'),maxbal" "sum(maxbal)" ++ entity_sub "'),incnt" "sum(incnt)"
      ++ entity_sub "'),outcnt" "sum(outcnt)" ++ [Lit "') WHERE entity=x'"; Arg; Lit "';"])%list
  | FAdd => [Lit "UPDATE addressinfo SET inval=inval+"; Arg; Lit ",lasttm='"; Arg;
             Lit "',bal=outval-inval,incnt=incnt+1 WHERE address=x'"; Arg; Lit "';"]
  | FUpsert =>
      [Lit "INSERT INTO addressinfo(address,outval,firsttm,lasttm,bal) VALUES(x'"; Arg; Lit "','";
       Arg; Lit "','"; Arg; Lit "','"; Arg;
       Lit "',outval-inval) ON DUPLICATE KEY UPDATE outval=outval+"; Arg; Lit ",lasttm='"; Arg;
       Lit "',bal=outval-inval,outcnt=outcnt+1;"]
  | FRaise => [Lit "UPDATE addressinfo SET maxbal=bal WHERE bal>maxbal AND address=x'"; Arg; Lit "';"]
  | FTx => [Lit "INSERT INTO txinfo VALUES(x'"; Arg; Lit "','"; Arg; Lit "','"; Arg; Lit "','"; Arg;
            Lit "','"; Arg; Lit "','"; Arg; Lit "','"; Arg; Lit "','"; Arg; Lit "','"; Arg; Lit "','";
            Arg; Lit "');"]
  | FBlk => [Lit "INSERT INTO blkinfo VALUES(x'"; Arg; Lit "','"; Arg; Lit "','"; Arg; Lit "','"; Arg;
             Lit "','"; Arg; Lit "','"; Arg; Lit "','"; Arg; Lit "');"]
  end.

Definition form_of (s : stmt) : form :=
  match s with
  | SelectEntity up _ => FSelect up | MergeEntity _ _ => FMerge | SetEntity _ _ => FSet
  | DeleteEntity _ => FDelete | InsertEntity _ => FInsert | UpdateEntity _ => FUpdate
  | AddInput _ _ _ => FAdd | UpsertOutput _ _ _ => FUpsert | RaiseMaxbal _ => FRaise
  | InsertTx _ => FTx | InsertBlk _ => FBlk
  end.

Definition args_of (s : stmt) : list string :=
  match s with
  | SelectEntity _ a | RaiseMaxbal a => [hex a]
  | MergeEntity e0 e => [hex32 e0; hex32 e]
  | SetEntity e a => [hex32 e; hex a]
  | DeleteEntity e | InsertEntity e => [hex32 e]
  | UpdateEntity e => replicate 10 (hex32 e)
  | AddInput v t a => [dec v; t; hex a]
  | UpsertOutput a v t => [hex a; dec v; t; t; dec v; t]
  | InsertTx r =>
      [hex (t_hash r); dec (t_txcounter r); dec (t_blknum r); t_time r; dec (t_rawlength r);
       dec (t_fee r); dec (t_incounter r); dec (t_invalue r); dec (t_outcounter r);
       dec (t_outvalue r)]
  | InsertBlk r =>
      [hex (b_hash r); dec (b_blknum r); dec (b_size r); dec (b_trans_count r); b_time r;
       dec (b_difficulty r); dec (b_reward r)]
  end.

Lemma render_fill s : render s = fill (template (form_of s)) (args_of s).
Proof. destruct s as [[]| | | | | | | | | |]; reflexivity. Qed.

(** The statement a filled template stands for. *)
Definition build (f : form) (args : list string) : option stmt :=
  match f, args with
  | FSelect up, [a] => SelectEntity up <$> unhex a
  | FMerge, [e0; e] => e0 ← unhex32 e0; MergeEntity e0 <$> unhex32 e
  | FSet, [e; a] => e ← unhex32 e; SetEntity e <$> unhex a
  | FDelete, [e] => DeleteEntity <$> unhex32 e
  | FInsert, [e] => InsertEntity <$> unhex32 e
  | FUpdate, e :: l =>
      if bool_decide (l = replicate 9 e) then UpdateEntity <$> unhex32 e else None
  | FAdd, [v; t; a] => v ← undec v; AddInput v t <$> unhex a
  | FUpsert, [a; v; t; t1; v1; t2] =>
      if bool_decide ([t1; v1; t2] = [t; v; t])
      then a ← unhex a; v ← undec v; Some (UpsertOutput a v t) else None
  | FRaise, [a] => RaiseMaxbal <$> unhex a
  | FTx, [h; c; b; t; l; f; ic; iv; oc; ov] =>
      h ← unhex h; c ← undec c; b ← undec b; l ← undec l; f ← undec f; ic ← undec ic;
      iv ← undec iv; oc ← undec oc; ov ← undec ov;
      Some (InsertTx {| t_hash := h; t_txcounter := c; t_blknum := b; t_time := t;
                        t_rawlength := l; t_fee := f; t_incounter := ic; t_invalue := iv;
                        t_outcounter := oc; t_outvalue := ov |})
  | FBlk, [h; b; s; c; t; df; r] =>
      h ← unhex h; b ← undec b; s ← undec s; c ← undec c; df ← undec df; r ← undec r;
      Some (InsertBlk {| b_hash := h; b_blknum := b; b_size := s; b_trans_count := c;
                         b_time := t; b_difficulty := df; b_reward := r |})
  | _, _ => None
  end.

Fixpoint parse_with (fs : list form) (txt : string) : option stmt :=
  match fs with
  | [] => None
  | f :: fs' =>
      match scan (template f) txt with
      | Some args => build f args
      | None => parse_with fs' txt
      end
  end.
Definition parse : string -> option stmt := parse_with forms.

(** Two texts that differ at a position both have. *)
Fixpoint clash (l1 l2 : string) : bool :=
  match l1, l2 with
  | String c1 s1, String c2 s2 => negb (Ascii.eqb c1 c2) || clash s1 s2
  | _, _ => false
  end.
Fixpoint tclash (t1 t2 : list piece) : bool :=
  match t1, t2 with
  | Lit l1 :: t1', Lit l2 :: t2' => clash l1 l2 || String.eqb l1 l2 && tclash t1' t2'
  | Arg :: t1', Arg :: t2' => tclash t1' t2'
  | _, _ => false
  end.

Lemma clash_strip l1 l2 x : clash l1 l2 = true -> strip l1 (l2 +:+ x) = None.
Proof.
  revert l2. induction l1 as [|c1 l1 IH]; intros [|c2 l2] H; try discriminate.
  change (String c2 l2 +:+ x) with (String c2 (l2 +:+ x)). cbn [strip clash] in *.
  destruct (Ascii.eqb c1 c2); [|reflexivity]. by apply IH.
Qed.

(** A text of one template does not match a template that clashes with it. *)
Lemma tclash_scan t1 t2 args :
  tclash t1 t2 = true -> delimited t2 = true -> length args = holes t2 ->
  forallb arg_text args = true -> scan t1 (fill t2 args) = None.
Proof.
  revert t1 args. induction t2 as [|[l2|] t2 IH]; intros [|[l1|] t1] args Hc Hd Hl Ha;
    try discriminate; cbn [tclash] in Hc.
  - cbn [fill]. change (scan (Lit l1 :: t1) ?s) with (s' ← strip l1 s; scan t1 s').
    apply orb_true_iff in Hc as [Hc|[->%String.eqb_eq Hc]%andb_true_iff].
    + by rewrite clash_strip.
    + rewrite strip_app. cbn [mbind option_bind]. by apply IH.
  - destruct args as [|a args]; [discriminate|]. cbn [forallb] in Ha.
    apply andb_true_iff in Ha as [Ha Has].
    destruct t2 as [|[[|c l]|] t2]; try discriminate. cbn [delimited] in Hd.
    apply andb_true_iff in Hd as [Hn Hd]. apply negb_true_iff in Hn.
    change (scan (Arg :: ?t) ?s) with (let '(a, rest) := span s in l ← scan t rest; Some (a :: l)).
    change (fill (Arg :: ?t) (a :: args)) with (a +:+ fill t args).
    change (fill (Lit (String c l) :: t2) args) with (String c (l +:+ fill t2 args)) in *.
    rewrite (span_app a c) by done.
    specialize (IH t1 args Hc Hd ltac:(by injection Hl) Has).
    change (fill (Lit (String c l) :: t2) args) with (String c (l +:+ fill t2 args)) in IH.
    by rewrite IH.
Qed.

(** The forms are pairwise distinguishable, and each can be read back. *)
Lemma forms_clash :
  forallb (fun f => forallb (fun f' => bool_decide (f = f') || tclash (template f) (template f'))
    forms) forms = true.
Proof. vm_compute. reflexivity. Qed.

Lemma forms_delimited f : delimited (template f) = true.
Proof. destruct f as [[]| | | | | | | | | |]; reflexivity. Qed.

Lemma forms_all f : In f forms.
Proof. destruct f as [[]| | | | | | | | | |]; cbn; tauto. Qed.

Lemma parse_fill f args :
  length args = holes (template f) -> forallb arg_text args = true ->
  parse (fill (template f) args) = build f args.
Proof.
  intros Hl Ha. unfold parse. pose proof (forms_all f) as Hin.
  assert (forall f', In f' forms -> f' <> f -> tclash (template f') (template f) = true) as Hcl.
  { intros f' Hf' Hne. pose proof (proj1 (forallb_forall _ _) forms_clash f' Hf') as H.
    pose proof (proj1 (forallb_forall _ _) H f Hin) as H'. apply orb_true_iff in H' as [H'|H'];
      [|exact H']. by apply bool_decide_eq_true in H'. }
  revert Hin Hcl. generalize forms. intros fs. induction fs as [|f0 fs IH]; intros Hin Hcl; [destruct Hin|].
  cbn [parse_with]. destruct (decide (f0 = f)) as [->|Hne].
  - by rewrite scan_fill by (done || apply forms_delimited).
  - rewrite tclash_scan; [|by apply Hcl; [left|]|apply forms_delimited|done..].
    apply IH; [by destruct Hin|]. intros f' Hf'. apply Hcl. by right.
Qed.

Lemma stmt_args s d :
  stmt_ok s d -> length (args_of s) = holes (template (form_of s))
                 /\ forallb arg_text (args_of s) = true.
Proof.
  intros Hok. split; [destruct s as [[]| | | | | | | | | |]; reflexivity|].
  destruct s; cbn [stmt_ok args_of] in *; unfold tx_row_ok, blk_row_ok in *;
    repeat match goal with H : _ /\ _ |- _ => destruct H end; cbn [forallb replicate];
    rewrite ?arg_hex32, ?arg_dec, ?arg_hex by done;
    repeat match goal with H : arg_text ?t = true |- _ => rewrite H; clear H end; reflexivity.
Qed.

Lemma build_args s d : stmt_ok s d -> build (form_of s) (args_of s) = Some s.
Proof.
  intros Hok. destruct s; cbn [stmt_ok] in Hok; unfold tx_row_ok, blk_row_ok in Hok;
    repeat match goal with H : _ /\ _ |- _ => destruct H end;
    repeat match goal with H : Forall (Z.le 0) (_ :: _) |- _ => apply Forall_cons_1 in H as [? H] end;
    cbn [args_of form_of build replicate];
    rewrite ?bool_decide_true, ?unhex_hex, ?unhex32_hex32 by done;
    cbn [mbind option_bind fmap option_fmap option_map];
    rewrite ?unhex_hex, ?unhex32_hex32, ?undec_dec by done;
    cbn [mbind option_bind fmap option_fmap option_map];
    rewrite ?unhex_hex, ?unhex32_hex32 by done; try reflexivity; by destruct row.
Qed.

(** Every statement of the program can be read back from its text. *)
Lemma parse_render s d : stmt_ok s d -> parse (render s) = Some s.
Proof.
  intros Hok. destruct (stmt_args s d Hok). rewrite render_fill, parse_fill by done.
  by apply (build_args s d).
Qed.

(** ** The server *)

Definition server_query `{Schema} (conn : DB) (txt : string) : DB * rows :=
  match parse txt with Some s => exec s conn | None => (conn, []) end.

#[export] Instance server `{Schema} : MySQL.
Proof.
  refine {| MYSQL := DB; mysql_query := server_query; tables := fun d => d |};
    intros conn s Hok; unfold server_query; by rewrite (parse_render s conn Hok).
Defined.

#[export] Instance schema0 : Schema.
Proof.
  refine {| default_addr := {| a_inval := 0; a_outval := 0; a_bal := 0; a_maxbal := 0; a_incnt := 0;
                               a_outcnt := 1; a_firsttm := ""; a_lasttm := ""; a_entity := 0 |};
            default_ent := {| e_addcnt := 0; e_inval := None; e_outval := None; e_firsttm := None;
                              e_lasttm := None; e_bal := None; e_maxbal := None; e_incnt := None;
                              e_outcnt := None |} |}; reflexivity.
Defined.

Definition empty_db : DB :=
  {| addressinfo := ∅; entityinfo := ∅; txinfo := []; blkinfo := [] |}.
