(* ===== verification/Calendar.v ===== *)
(** * Times as text: [getTimeString] of src/BitcoinAnalysis/TransactionProcess.h

    [gmtime] and [strftime("%Y-%m-%d %H:%M:%S")] of the C library, for the
    32-bit times of the block chain.  The dates are those of the calendar, each day
    followed by the next; the texts sort like the times, which is what the [min] and [max] of
    the entity statistics and the statistics queries rely on. *)
From Stdlib Require Import String Ascii.
From stdpp Require Import base list strings numbers option.
From S2P Require Import Prelude Sql.
Local Open Scope string_scope.
Open Scope Z_scope.

(** ** Dates *)

Definition leap (y : Z) : bool := (y mod 4 =? 0) && (negb (y mod 100 =? 0) || (y mod 400 =? 0)).
Definition year_length (y : Z) : Z := if leap y then 366 else 365.
Definition month_length (y m : Z) : Z :=
  if m =? 2 then (if leap y then 29 else 28)
  else if (m =? 4) || (m =? 6) || (m =? 9) || (m =? 11) then 30 else 31.

(** Day [d] counted from the start of year [y], as a year and a day in it; a
    32-bit time is at most 137 years after 1970. *)
Fixpoint find_year (fuel : nat) (y d : Z) : Z * Z :=
  match fuel with
  | O => (y, d)
  | S fuel' => if d <? year_length y then (y, d) else find_year fuel' (y + 1) (d - year_length y)
  end.

(** Day [d] counted from the start of month [m], as a month and a day. *)
Fixpoint find_month (fuel : nat) (y m d : Z) : Z * Z :=
  match fuel with
  | O => (m, d + 1)
  | S fuel' =>
      if d <? month_length y m then (m, d + 1) else find_month fuel' y (m + 1) (d - month_length y m)
  end.

(** A day count since 1970-01-01 as year, month and day. *)
Definition civil (days : Z) : Z * Z * Z :=
  let '(y, d) := find_year 140 1970 days in
  let '(m, d) := find_month 11 y 1 d in
  (y, m, d).

Definition digit (n : Z) : ascii := ascii_of_nat (Z.to_nat (48 + n)).
Definition pad2 (n : Z) : string := String (digit (n / 10)) (String (digit (n mod 10)) "").
Definition pad4 (n : Z) : string := pad2 (n / 100) +:+ pad2 (n mod 100).

Definition getTimeString (ts : Z) : string :=
  let '(y, m, d) := civil (ts / 86400) in
  let s := ts mod 86400 in
  pad4 y +:+ "-" +:+ pad2 m +:+ "-" +:+ pad2 d +:+ " "
  +:+ pad2 (s / 3600) +:+ ":" +:+ pad2 (s / 60 mod 60) +:+ ":" +:+ pad2 (s mod 60).

(** The start of a day, as the statistics write it. *)
Definition midnight (y m d : Z) : string :=
  pad4 y +:+ "-" +:+ pad2 m +:+ "-" +:+ pad2 d +:+ "-00-00-00".

(** ** The calendar *)

Definition next_day '((y, m, d) : Z * Z * Z) : Z * Z * Z :=
  if d <? month_length y m then (y, m, d + 1)
  else if m <? 12 then (y, m + 1, 1) else (y + 1, 1, 1).
Definition date_ok '((y, m, d) : Z * Z * Z) : bool :=
  (1970 <=? y) && (y <=? 2109) && (1 <=? m) && (m <=? 12) && (1 <=? d) && (d <=? month_length y m).

Lemma year_length_bounds y : 365 <= year_length y <= 366.
Proof. unfold year_length. destruct (leap y); lia. Qed.

Lemma month_length_bounds y m : 28 <= month_length y m <= 31.
Proof. unfold month_length. repeat (destruct (_ : bool); try lia). Qed.

(** The days left in the year from month [m] on. *)
Fixpoint months_from (n : nat) (y m : Z) : Z :=
  match n with O => 0 | S n' => month_length y m + months_from n' y (m + 1) end.

Lemma months_from_year y : months_from 12 y 1 = year_length y.
Proof. unfold year_length. cbn. unfold month_length. cbn. destruct (leap y); reflexivity. Qed.

Lemma find_month_spec n y m d :
  0 <= d < months_from (S n) y m ->
  let '(m', d') := find_month n y m d in
  m <= m' <= m + Z.of_nat n /\ 1 <= d' <= month_length y m'.
Proof.
  revert m d. induction n as [|n IH]; intros m d Hd; cbn [find_month].
  - cbn in Hd. lia.
  - destruct (Z.ltb_spec d (month_length y m)); [lia|].
    specialize (IH (m + 1) (d - month_length y m)). cbn [months_from] in *.
    destruct (find_month n y (m + 1) _). lia.
Qed.

Lemma find_month_next n y m d :
  0 <= d -> d + 1 < months_from (S n) y m ->
  let '(m', d') := find_month n y m d in
  find_month n y m (d + 1)
  = if d' <? month_length y m' then (m', d' + 1) else (m' + 1, 1).
Proof.
  revert m d. induction n as [|n IH]; intros m d H0 Hd; cbn [find_month].
  - cbn in Hd. destruct (Z.ltb_spec (d + 1) (month_length y m)); [done|lia].
  - pose proof (month_length_bounds y (m + 1)). destruct (Z.ltb_spec d (month_length y m)).
    + destruct (Z.ltb_spec (d + 1) (month_length y m)); [done|].
      replace (d + 1 - month_length y m) with 0 by lia. destruct n; [done|].
      cbn [find_month]. destruct (Z.ltb_spec 0 (month_length y (m + 1))); [done|lia].
    + destruct (Z.ltb_spec (d + 1) (month_length y m)); [lia|].
      specialize (IH (m + 1) (d - month_length y m)).
      replace (d + 1 - month_length y m) with (d - month_length y m + 1) by lia.
      apply IH; [lia|]. cbn [months_from] in *. lia.
Qed.

(** The last day of a year is December 31. *)
Lemma find_month_last y : find_month 11 y 1 (year_length y - 1) = (12, 31).
Proof. unfold year_length. cbn. unfold month_length. cbn. destruct (leap y); reflexivity. Qed.

Lemma find_year_spec n y d :
  0 <= d < 365 * Z.of_nat n ->
  let '(y', d') := find_year n y d in
  y <= y' < y + Z.of_nat n /\ 0 <= d' < year_length y'.
Proof.
  revert y d. induction n as [|n IH]; intros y d Hd; cbn [find_year]; [lia|].
  pose proof (year_length_bounds y). destruct (Z.ltb_spec d (year_length y)); [lia|].
  specialize (IH (y + 1) (d - year_length y)). destruct (find_year n (y + 1) _). lia.
Qed.

Lemma find_year_next n y d :
  0 <= d -> d + 1 < 365 * Z.of_nat n ->
  let '(y', d') := find_year n y d in
  find_year n y (d + 1) = if d' + 1 <? year_length y' then (y', d' + 1) else (y' + 1, 0).
Proof.
  revert y d. induction n as [|n IH]; intros y d H0 Hd; cbn [find_year]; [lia|].
  pose proof (year_length_bounds y). pose proof (year_length_bounds (y + 1)).
  destruct (Z.ltb_spec d (year_length y)).
  - destruct (Z.ltb_spec (d + 1) (year_length y)); [done|].
    replace (d + 1 - year_length y) with 0 by lia. destruct n; [done|]. cbn [find_year].
    destruct (Z.ltb_spec 0 (year_length (y + 1))); [done|lia].
  - destruct (Z.ltb_spec (d + 1) (year_length y)); [lia|].
    replace (d + 1 - year_length y) with (d - year_length y + 1) by lia. apply IH; lia.
Qed.

Lemma civil_day d :
  0 <= d <= 49710 -> civil (d + 1) = next_day (civil d) /\ date_ok (civil d) = true.
Proof.
  intros Hd. unfold civil.
  pose proof (find_year_spec 140 1970 d ltac:(lia)) as Hy.
  pose proof (find_year_next 140 1970 d ltac:(lia) ltac:(lia)) as Hy'.
  destruct (find_year 140 1970 d) as [y dy]. rewrite Hy'. clear Hy'.
  pose proof (find_month_spec 11 y 1 dy) as Hm. rewrite months_from_year in Hm.
  specialize (Hm ltac:(lia)). pose proof (find_month_next 11 y 1 dy) as Hm'.
  rewrite months_from_year in Hm'. split.
  - destruct (Z.ltb_spec (dy + 1) (year_length y)).
    + specialize (Hm' ltac:(lia) ltac:(lia)). destruct (find_month 11 y 1 dy) as [m dd].
      rewrite Hm'. unfold next_day. destruct (Z.ltb_spec dd (month_length y m)); [done|].
      destruct (Z.ltb_spec m 12); [done|]. exfalso.
      assert (m = 12) as -> by lia. pose proof (find_month_spec 11 y 1 (dy + 1)) as Hs.
      rewrite months_from_year in Hs. specialize (Hs ltac:(lia)). rewrite Hm' in Hs.
      destruct (Z.ltb_spec dd (month_length y 12)); lia.
    + replace dy with (year_length y - 1) by lia. rewrite find_month_last. done.
  - destruct (find_month 11 y 1 dy) as [m dd]. unfold date_ok. rewrite !andb_true_iff, !Z.leb_le. lia.
Qed.

Definition date_num '((y, m, d) : Z * Z * Z) : Z := (y * 100 + m) * 100 + d.

Lemma next_day_num t : date_ok t = true -> date_num t < date_num (next_day t).
Proof.
  destruct t as [[y m] d]. unfold date_ok. rewrite !andb_true_iff, !Z.leb_le. intros Ht.
  pose proof (month_length_bounds y m) as Hml.
  unfold next_day. destruct (d <? month_length y m); [cbn; lia|].
  destruct (m <? 12) eqn:Em; cbn; [lia|]. apply Z.ltb_ge in Em. lia.
Qed.

Lemma date_num_mono d d' :
  0 <= d -> d < d' -> d' <= 49710 -> date_num (civil d) < date_num (civil d').
Proof.
  intros H0 Hlt Hle. replace d' with (d + 1 + Z.of_nat (Z.to_nat (d' - d - 1))) in * by lia.
  induction (Z.to_nat (d' - d - 1)) as [|n IH].
  - rewrite Z.add_0_r. destruct (civil_day d) as [-> Hok]; [lia|]. by apply next_day_num.
  - replace (d + 1 + Z.of_nat (S n)) with (d + 1 + Z.of_nat n + 1) by lia.
    destruct (civil_day (d + 1 + Z.of_nat n)) as [-> Hok]; [lia|].
    etransitivity; [apply IH; lia|]. by apply next_day_num.
Qed.

(** ** Texts sort like times *)

(** The two-digit groups of a time text. *)
Definition time_groups (ts : Z) : list Z :=
  let '(y, m, d) := civil (ts / 86400) in
  let s := ts mod 86400 in
  [y / 100; y mod 100; m; d; s / 3600; s / 60 mod 60; s mod 60].

Definition num (l : list Z) : Z := fold_left (fun acc g => 100 * acc + g) l 0.

Lemma time_groups_ok ts : is32 ts -> Forall (fun g => 0 <= g < 100) (time_groups ts).
Proof.
  intros Hts. unfold is32 in Hts. unfold time_groups.
  destruct (civil_day (ts / 86400)) as [_ Hok]; [Z.to_euclidean_division_equations; lia|].
  destruct (civil (ts / 86400)) as [[y m] d]. unfold date_ok in Hok.
  rewrite !andb_true_iff, !Z.leb_le in Hok. pose proof (month_length_bounds y m).
  repeat constructor; Z.to_euclidean_division_equations; lia.
Qed.

Lemma num_time_groups ts :
  num (time_groups ts)
  = date_num (civil (ts / 86400)) * 1000000
    + (ts mod 86400 / 3600 * 10000 + ts mod 86400 / 60 mod 60 * 100 + ts mod 86400 mod 60).
Proof.
  unfold num, time_groups. destruct (civil (ts / 86400)) as [[y m] d]. cbn [fold_left date_num].
  Z.to_euclidean_division_equations; lia.
Qed.

Lemma day_num_mono s s' : 0 <= s -> s < s' -> s' < 86400 ->
  s / 3600 * 10000 + s / 60 mod 60 * 100 + s mod 60
  < s' / 3600 * 10000 + s' / 60 mod 60 * 100 + s' mod 60 <= 235959.
Proof. intros. Z.to_euclidean_division_equations; lia. Qed.

Lemma time_num_mono a b : is32 a -> is32 b -> a < b -> num (time_groups a) < num (time_groups b).
Proof.
  unfold is32. intros Ha Hb Hlt. rewrite !num_time_groups.
  pose proof (Z.mod_pos_bound a 86400 ltac:(lia)) as Hma.
  pose proof (Z.mod_pos_bound b 86400 ltac:(lia)) as Hmb.
  pose proof (Z.div_mod a 86400 ltac:(lia)). pose proof (Z.div_mod b 86400 ltac:(lia)).
  assert (forall s, 0 <= s < 86400 ->
    0 <= s / 3600 * 10000 + s / 60 mod 60 * 100 + s mod 60 < 1000000) as Hs.
  { intros s Hs. Z.to_euclidean_division_equations; lia. }
  pose proof (Hs _ Hma). pose proof (Hs _ Hmb).
  destruct (decide (a / 86400 = b / 86400)) as [E|Hne].
  - rewrite E. pose proof (day_num_mono (a mod 86400) (b mod 86400)). lia.
  - pose proof (date_num_mono (a / 86400) (b / 86400)) as Hd.
    assert (0 <= a / 86400 /\ a / 86400 < b / 86400 /\ b / 86400 <= 49710) as (? & ? & ?).
    { Z.to_euclidean_division_equations; lia. }
    specialize (Hd ltac:(lia) ltac:(lia) ltac:(lia)). lia.
Qed.

(** Comparing texts group by group. *)
Fixpoint lex (l1 l2 : list Z) : comparison :=
  match l1, l2 with
  | x :: l1', y :: l2' => match x ?= y with Eq => lex l1' l2' | c => c end
  | _, _ => Eq
  end.

Lemma num_acc l acc :
  fold_left (fun a g => 100 * a + g) l acc = acc * 100 ^ Z.of_nat (length l) + num l.
Proof.
  revert acc. unfold num. induction l as [|g l IH]; intros acc; [cbn; lia|].
  cbn [fold_left length]. rewrite (IH (100 * acc + g)), (IH (100 * 0 + g)).
  rewrite Nat2Z.inj_succ, Z.pow_succ_r by lia. lia.
Qed.

Lemma num_bound l : Forall (fun g => 0 <= g < 100) l -> 0 <= num l < 100 ^ Z.of_nat (length l).
Proof.
  induction 1 as [|g l Hg Hl IH]; [cbn; lia|]. unfold num. cbn [fold_left length].
  rewrite num_acc, Nat2Z.inj_succ, Z.pow_succ_r by lia. nia.
Qed.

Lemma lex_num l1 l2 :
  Forall (fun g => 0 <= g < 100) l1 -> Forall (fun g => 0 <= g < 100) l2 ->
  length l1 = length l2 -> lex l1 l2 = (num l1 ?= num l2).
Proof.
  intros H1. revert l2. induction H1 as [|x l1 Hx H1 IH]; intros [|y l2] H2 Hlen; try discriminate;
    [done|]. apply Forall_cons_1 in H2 as [Hy H2]. injection Hlen as Hlen. cbn [lex].
  unfold num. cbn [fold_left]. rewrite !num_acc, <- Hlen.
  pose proof (num_bound l1 H1) as B1. pose proof (num_bound l2 H2) as B2. rewrite <- Hlen in B2.
  set (p := 100 ^ Z.of_nat (length l1)) in *. destruct (Z.compare_spec x y) as [->|Hlt|Hlt].
  - rewrite IH by done. destruct (Z.compare_spec (num l1) (num l2)); symmetry;
      [apply Z.compare_eq_iff|apply Z.compare_lt_iff|apply Z.compare_gt_iff]; lia.
  - symmetry. apply Z.compare_lt_iff. nia.
  - symmetry. apply Z.compare_gt_iff. nia.
Qed.

Abbreviation scompare := Stdlib.Strings.String.compare.

Lemma digit_compare i j :
  0 <= i < 10 -> 0 <= j < 10 -> Ascii.compare (digit i) (digit j) = (i ?= j).
Proof.
  intros Hi Hj.
  assert (exists a b : nat, (a < 10)%nat /\ (b < 10)%nat /\ i = Z.of_nat a /\ j = Z.of_nat b)
    as (a & b & Ha & Hb & -> & ->) by (exists (Z.to_nat i), (Z.to_nat j); lia).
  do 10 (destruct a as [|a]; [do 10 (destruct b as [|b]; [reflexivity|]); lia|]). lia.
Qed.

Lemma pad2_compare i j x y :
  0 <= i < 100 -> 0 <= j < 100 ->
  scompare (pad2 i +:+ x) (pad2 j +:+ y) = match i ?= j with Eq => scompare x y | c => c end.
Proof.
  intros Hi Hj. unfold pad2.
  change (scompare (String ?a (String ?b "") +:+ x) (String ?c (String ?d "") +:+ y))
    with (match Ascii.compare a c with
          | Eq => match Ascii.compare b d with Eq => scompare x y | r => r end | r => r end).
  rewrite !digit_compare by (Z.to_euclidean_division_equations; lia).
  pose proof (Z.div_mod i 10 ltac:(lia)). pose proof (Z.div_mod j 10 ltac:(lia)).
  pose proof (Z.mod_pos_bound i 10 ltac:(lia)). pose proof (Z.mod_pos_bound j 10 ltac:(lia)).
  destruct (Z.compare_spec (i / 10) (j / 10)), (Z.compare_spec (i mod 10) (j mod 10)),
    (Z.compare_spec i j); try reflexivity; exfalso; lia.
Qed.

Lemma sep_compare s x y : scompare (s +:+ x) (s +:+ y) = scompare x y.
Proof.
  induction s as [|c s IH]; [done|].
  change (scompare (String c s +:+ x) (String c s +:+ y))
    with (match Ascii.compare c c with Eq => scompare (s +:+ x) (s +:+ y) | r => r end).
  assert (Ascii.compare c c = Eq) as -> by (unfold Ascii.compare; apply N.compare_refl). exact IH.
Qed.

Lemma time_compare a b :
  is32 a -> is32 b ->
  scompare (getTimeString a) (getTimeString b) = lex (time_groups a) (time_groups b).
Proof.
  intros Ha Hb. pose proof (time_groups_ok a Ha) as Ga. pose proof (time_groups_ok b Hb) as Gb.
  unfold getTimeString, time_groups in *.
  destruct (civil (a / 86400)) as [[ya ma] da], (civil (b / 86400)) as [[yb mb] db].
  repeat match goal with H : Forall _ (_ :: _) |- _ => apply Forall_cons_1 in H as [? H] end.
  unfold pad4. rewrite !append_assoc.
  rewrite <- (append_nil_r (pad2 (a mod 86400 mod 60))), <- (append_nil_r (pad2 (b mod 86400 mod 60))).
  repeat (rewrite pad2_compare by assumption; cbn [lex];
    match goal with |- context [?x ?= ?y] => destruct (x ?= y); try reflexivity end;
    rewrite ?sep_compare).
Qed.

Lemma time_compare_num a b :
  is32 a -> is32 b -> scompare (getTimeString a) (getTimeString b) = (a ?= b).
Proof.
  intros Ha Hb. rewrite time_compare, lex_num by (done || by apply time_groups_ok ||
    (unfold time_groups; by destruct (civil _) as [[??]?], (civil _) as [[??]?])).
  pose proof (time_num_mono a b Ha Hb). pose proof (time_num_mono b a Hb Ha).
  destruct (Z.compare_spec a b) as [->|Hlt|Hlt];
    [apply Z.compare_refl|apply Z.compare_lt_iff; auto|apply Z.compare_gt_iff; auto].
Qed.

Lemma arg_text_app a b : arg_text (a +:+ b) = arg_text a && arg_text b.
Proof.
  induction a as [|c a IH]; [done|]. change (String c a +:+ b) with (String c (a +:+ b)).
  cbn [arg_text]. by rewrite IH, andb_assoc.
Qed.

Lemma arg_pad2 n : 0 <= n < 100 -> arg_text (pad2 n) = true.
Proof.
  intros Hn. unfold pad2. cbn [arg_text]. rewrite andb_true_r.
  assert (forall k, 0 <= k < 10 -> arg_char (digit k) = true) as Hd.
  { intros k Hk. assert (exists j : nat, (j < 10)%nat /\ k = Z.of_nat j) as (j & Hj & ->).
    { exists (Z.to_nat k). lia. }
    do 10 (destruct j as [|j]; [reflexivity|]). lia. }
  rewrite !Hd by (Z.to_euclidean_division_equations; lia). done.
Qed.

(** A time text has no quote in it. *)
Lemma arg_getTimeString ts : is32 ts -> arg_text (getTimeString ts) = true.
Proof.
  intros Hts. pose proof (time_groups_ok ts Hts) as G. unfold getTimeString, time_groups in *.
  destruct (civil (ts / 86400)) as [[y m] d].
  repeat match goal with H : Forall _ (_ :: _) |- _ => apply Forall_cons_1 in H as [? H] end.
  unfold pad4. rewrite !arg_text_app. rewrite !arg_pad2 by assumption. reflexivity.
Qed.

(** ** Results *)

(** The texts that [getTimeString] writes compare, character by character,
    like the times they stand for; in particular different times have different
    texts. *)
Theorem getTimeString_order a b :
  is32 a -> is32 b ->
  Stdlib.Strings.String.compare (getTimeString a) (getTimeString b) = (a ?= b).
Proof. apply time_compare_num. Qed.

Lemma getTimeString_order_witness :
  Stdlib.Strings.String.compare (getTimeString 1230940799) (getTimeString 1230940800) = Lt
  /\ getTimeString 1230940799 = "2009-01-02 23:59:59".
Proof.
  split; [|reflexivity].
  apply (getTimeString_order 1230940799 1230940800); unfold is32; lia.
Defined.

(** The date in the text is that of the calendar: day 0 is 1970-01-01, and
    each day of the 32-bit range is followed by the next date under the rules
    for month lengths and leap years. *)
Theorem getTimeString_calendar d s :
  0 <= d < 49710 -> 0 <= s < 86400 ->
  exists y m day y' m' day' rest,
    next_day (y, m, day) = (y', m', day')
    /\ getTimeString (86400 * d + s) = pad4 y +:+ "-" +:+ pad2 m +:+ "-" +:+ pad2 day +:+ rest
    /\ getTimeString (86400 * (d + 1) + s)
       = pad4 y' +:+ "-" +:+ pad2 m' +:+ "-" +:+ pad2 day' +:+ rest
    /\ (d = 0 -> (y, m, day) = (1970, 1, 1)).
Proof.
  intros Hd Hs. unfold getTimeString.
  assert (forall k, (86400 * k + s) / 86400 = k /\ (86400 * k + s) mod 86400 = s) as Hk.
  { intros k. Z.to_euclidean_division_equations; lia. }
  rewrite !(proj1 (Hk _)), !(proj2 (Hk _)). destruct (civil_day d) as [E _]; [lia|]. rewrite E.
  assert (d = 0 -> civil d = (1970, 1, 1)) as H0 by (intros ->; reflexivity).
  destruct (civil d) as [[y m] day]. destruct (next_day (y, m, day)) as [[y' m'] day'] eqn:En.
  by exists y, m, day, y', m', day'; eexists.
Qed.

Lemma getTimeString_calendar_witness :
  exists y m day y' m' day' rest,
    next_day (y, m, day) = (y', m', day')
    /\ getTimeString (86400 * 14303 + 7) = pad4 y +:+ "-" +:+ pad2 m +:+ "-" +:+ pad2 day +:+ rest
    /\ getTimeString (86400 * (14303 + 1) + 7)
       = pad4 y' +:+ "-" +:+ pad2 m' +:+ "-" +:+ pad2 day' +:+ rest
    /\ (14303 = 0 -> (y, m, day) = (1970, 1, 1)).
Proof. apply (getTimeString_calendar 14303 7); lia. Defined.
