(* ===== verification/Entity.v ===== *)
(** * Clustering addresses into entities: src/BitcoinAnalysis/EntityProcess.h

    The program assumes that the addresses which a transaction spends together
    belong to one owner: [input_entity_mysql] merges their entities into the one
    with the smallest number, and [output_entity_mysql] gives each address that
    has none a fresh entity.  [update_entity_mysql] recomputes the aggregates of
    the entities that changed.

    The global variables are the record [globals]; a null or short result row,
    which the source dereferences, and an empty input list, whose first element
    it reads, are [None]. *)
From Stdlib Require Import String.
From stdpp Require Import base gmap list strings numbers option sorting.
From S2P Require Import Prelude Sql SqlServer.
Local Open Scope string_scope.
Open Scope Z_scope.

Record globals := { entitychange_v : list Z; entitycnt : Z }.

Definition push_change (e : Z) (g : globals) : globals :=
  {| entitychange_v := (entitychange_v g ++ [e])%list; entitycnt := entitycnt g |}.
Definition set_entitycnt (n : Z) (g : globals) : globals :=
  {| entitychange_v := entitychange_v g; entitycnt := n |}.

(** The fictitious address of the block reward: twenty characters '0'. *)
Definition coinbase_h : list Z :=
  [0x30; 0x30; 0x30; 0x30; 0x30; 0x30; 0x30; 0x30; 0x30; 0x30;
   0x30; 0x30; 0x30; 0x30; 0x30; 0x30; 0x30; 0x30; 0x30; 0x30].

(** [sort] of a vector of numbers. *)
Definition sort_v : list Z -> list Z := merge_sort Z.le.

(** [v.erase(unique(v.begin(), v.end()), v.end())] *)
Fixpoint unique_v (v : list Z) : list Z :=
  match v with
  | a :: (b :: _) as v' => if a =? b then unique_v v' else a :: unique_v v'
  | _ => v
  end.

Section Entity.
Context `{Sc : Schema} `{My : !MySQL}.

(** The query and what is done with its result: the first column of the first
    row is four bytes, most significant first. *)
Definition fetch_entity (conn : MYSQL) (getent : string) : option (Z * MYSQL) :=
  let '(conn, result) := mysql_query conn getent in
  row ← head result;
  col ← head row;
  match col with
  | Some (t0 :: t1 :: t2 :: t3 :: _) => Some (le_val [t3; t2; t1; t0], conn)
  | _ => None
  end.

Fixpoint fetch_entities (address_bv : list (list Z)) (conn : MYSQL) (entity_v : list Z)
    : option (list Z * MYSQL) :=
  match address_bv with
  | [] => Some (entity_v, conn)
  | address_b :: rest =>
      let address_s := hex address_b in
      let getent := "SELECT entity FROM addressinfo WHERE address = x'" +:+ address_s +:+ "';" in
      '(entity, conn) ← fetch_entity conn getent;
      fetch_entities rest conn (entity_v ++ [entity])%list
  end.

(** [for (i = 1; i < entity_v.size(); i++) if (entity_v[i - 1] != entity_v[i])]:
    [prev] is [entity_v[i - 1]]. *)
Fixpoint merge_entities (upent_section : string) (prev : Z) (entity_v : list Z) (conn : MYSQL)
    : MYSQL :=
  match entity_v with
  | [] => conn
  | e :: rest =>
      let conn :=
        if prev =? e then conn
        else
          let entity_buf_s := hex32 e in
          let upent := upent_section +:+ entity_buf_s +:+ "';" in
          let conn := fst (mysql_query conn upent) in
          let del := "DELETE FROM entityinfo WHERE entity = x'" +:+ entity_buf_s +:+ "';" in
          fst (mysql_query conn del) in
      merge_entities upent_section e rest conn
  end.

Definition input_entity_mysql (address_bv : list (list Z)) (g : globals) (conn : MYSQL)
    : option (globals * MYSQL) :=
  match address_bv with
  | [address_b] =>
      if bool_decide (address_b = coinbase_h) then Some (g, conn)
      else
        let address_s := hex address_b in
        let getent := "SELECT entity FROM addressinfo WHERE address = x'" +:+ address_s +:+ "';" in
        '(entity, conn) ← fetch_entity conn getent;
        Some (push_change entity g, conn)
  | _ =>
      '(entity_v, conn) ← fetch_entities address_bv conn [];
      match sort_v entity_v with
      | [] => None
      | entity_v0 :: rest =>
          let unequal := existsb (fun e => negb (entity_v0 =? e)) rest in
          let conn :=
            if unequal then
              let upent_section :=
                "UPDATE addressinfo SET entity = x'" +:+ hex32 entity_v0 +:+ "' WHERE entity = x'" in
              merge_entities upent_section entity_v0 rest conn
            else conn in
          Some (push_change entity_v0 g, conn)
      end
  end.

Definition insert_entity_mysql (entitycnt : Z) (conn : MYSQL) : MYSQL :=
  let insert := "INSERT INTO entityinfo(entity) VALUES(x'" +:+ hex32 entitycnt +:+ "');" in
  fst (mysql_query conn insert).

(** One turn of the loop of [output_entity_mysql]. *)
Definition output_entity_step (address_b : list Z) (g : globals) (conn : MYSQL)
    : option (globals * MYSQL) :=
  let address_s := hex address_b in
  let getent := "SELECT entity FROM addressinfo where address = x'" +:+ address_s +:+ "';" in
  '(entity, conn) ← fetch_entity conn getent;
  if 0 =? entity then
    let g := set_entitycnt (w32 (entitycnt g + 1)) g in
    let upent := "UPDATE addressinfo SET entity = x'" +:+ hex32 (entitycnt g)
                 +:+ "' WHERE address = x'" +:+ address_s +:+ "';" in
    let conn := fst (mysql_query conn upent) in
    let conn := insert_entity_mysql (entitycnt g) conn in
    Some (push_change (entitycnt g) g, conn)
  else Some (push_change (entitycnt g) g, conn).

Fixpoint output_entity_mysql (address_bv : list (list Z)) (g : globals) (conn : MYSQL)
    : option (globals * MYSQL) :=
  match address_bv with
  | [] => Some (g, conn)
  | address_b :: rest =>
      '(g, conn) ← output_entity_step address_b g conn;
      output_entity_mysql rest g conn
  end.

Fixpoint update_entities (ent_change_v : list Z) (conn : MYSQL) : MYSQL :=
  match ent_change_v with
  | [] => conn
  | e :: rest =>
      let ent_cha_s := hex32 e in
      let update :=
        "UPDATE entityinfo SET addcnt = (SELECT count(*) FROM addressinfo WHERE entity=x'"
          +:+ ent_cha_s +:+ "'),"
        +:+ "inval = (SELECT sum(inval) FROM addressinfo WHERE entity=x'" +:+ ent_cha_s +:+ "'),"
        +:+ "outval = (SELECT sum(outval) FROM addressinfo WHERE entity=x'" +:+ ent_cha_s +:+ "'),"
        +:+ "firsttm = (SELECT min(firsttm) FROM addressinfo WHERE entity=x'" +:+ ent_cha_s +:+ "'),"
        +:+ "lasttm = (SELECT max(lasttm) FROM addressinfo WHERE entity=x'" +:+ ent_cha_s +:+ "'),"
        +:+ "bal = (SELECT sum(bal) FROM addressinfo WHERE entity=x'" +:+ ent_cha_s +:+ "'),"
        +:+ "maxbal = (SELECT sum(maxbal) FROM addressinfo WHERE entity=x'" +:+ ent_cha_s +:+ "'),"
        +:+ "incnt = (SELECT sum(incnt) FROM addressinfo WHERE entity=x'" +:+ ent_cha_s +:+ "'),"
        +:+ "outcnt = (SELECT sum(outcnt) FROM addressinfo WHERE entity=x'" +:+ ent_cha_s +:+ "')"
        +:+ " WHERE entity=x'" +:+ ent_cha_s +:+ "';" in
      update_entities rest (fst (mysql_query conn update))
  end.

(** The list of changed entities is emptied. *)
Definition update_entity_mysql (g : globals) (conn : MYSQL) : globals * MYSQL :=
  let ent_change_v := unique_v (sort_v (entitychange_v g)) in
  let conn := update_entities ent_change_v conn in
  ({| entitychange_v := []; entitycnt := entitycnt g |}, conn).

(** ** What the statements do to the tables *)

Lemma query_tables conn txt s :
  txt = render s -> stmt_ok s (tables conn) ->
  tables (fst (mysql_query conn txt)) = fst (exec s (tables conn)).
Proof. intros ->. apply mysql_query_effect. Qed.

Lemma query_rows conn txt s :
  txt = render s -> stmt_ok s (tables conn) ->
  snd (mysql_query conn txt) = snd (exec s (tables conn)).
Proof. intros ->. apply mysql_query_rows. Qed.

(** The entity of an address in the tables. *)
Definition entity_of (d : DB) (a : list Z) : option Z := a_entity <$> addressinfo d !! a.

Lemma fetch_entity_spec conn txt up a e :
  txt = render (SelectEntity up a) -> bytes a -> is32 e -> entity_of (tables conn) a = Some e ->
  exists conn', fetch_entity conn txt = Some (e, conn') /\ tables conn' = tables conn.
Proof.
  intros Ht Ha He Hl. unfold fetch_entity.
  pose proof (query_tables conn txt _ Ht Ha) as H1. pose proof (query_rows conn txt _ Ht Ha) as H2.
  destruct (mysql_query conn txt) as [conn' result]. cbn [fst snd exec] in *.
  unfold entity_of in Hl. destruct (addressinfo (tables conn) !! a) as [r|]; [|discriminate].
  cbn in Hl. injection Hl as <-. rewrite H2. cbn [head mbind option_bind].
  exists conn'. split; [|done].
  assert (le_val (reverse (be_bytes 4 (a_entity r))) = a_entity r) as Hv.
  { unfold be_bytes. rewrite reverse_involutive, le_val_le_bytes. by apply Z.mod_small. }
  pose proof (length_be_bytes 4 (a_entity r)) as Hlen.
  destruct (be_bytes 4 (a_entity r)) as [|t0 [|t1 [|t2 [|t3 [|]]]]]; try discriminate.
  by rewrite <- Hv.
Qed.

Lemma fetch_entities_spec l es conn acc :
  Forall bytes l -> Forall2 (fun a e => entity_of (tables conn) a = Some e /\ is32 e) l es ->
  exists conn', fetch_entities l conn acc = Some ((acc ++ es)%list, conn')
                /\ tables conn' = tables conn.
Proof.
  intros Hb Hl. revert conn acc Hl. revert es.
  induction Hb as [|a l Ha Hb IH]; intros es conn acc Hl; inversion Hl as [|? e ? es' [He H32] Hl']; subst.
  - exists conn. cbn. by rewrite app_nil_r.
  - cbn [fetch_entities].
    match goal with |- context [fetch_entity conn ?t] =>
      destruct (fetch_entity_spec conn t true a e eq_refl Ha H32 He) as (conn1 & -> & Ht1) end.
    cbn [mbind option_bind].
    destruct (IH es' conn1 (acc ++ [e])%list) as (conn2 & -> & Ht2); [by rewrite Ht1|].
    exists conn2. rewrite <- app_assoc. split; [done|congruence].
Qed.

(** Renaming the entities of a set to [m] and dropping their records. *)
Definition rename_in (m : Z) (X : gset Z) (r : addr_row) : addr_row :=
  if bool_decide (a_entity r ∈ X) then with_entity m r else r.
Definition merged (m : Z) (X : gset Z) (d : DB) : DB :=
  set_entityinfo (filter (fun '(e, _) => e ∉ X) (entityinfo d))
    (set_addressinfo (rename_in m X <$> addressinfo d) d).

Lemma with_entity_same r : with_entity (a_entity r) r = r.
Proof. by destruct r. Qed.

Lemma DB_eq d1 d2 :
  addressinfo d1 = addressinfo d2 -> entityinfo d1 = entityinfo d2 ->
  txinfo d1 = txinfo d2 -> blkinfo d1 = blkinfo d2 -> d1 = d2.
Proof. destruct d1, d2. cbn. by intros -> -> -> ->. Qed.

Lemma merged_empty m d : merged m ∅ d = d.
Proof.
  apply DB_eq; cbn; [|apply map_filter_id; set_solver|done..].
  rewrite <- (map_fmap_id (addressinfo d)) at 2. apply map_fmap_ext. intros a r _.
  unfold rename_in. by rewrite bool_decide_eq_false_2 by set_solver.
Qed.

Lemma merged_union m X Y d :
  m ∉ Y -> merged m Y (merged m X d) = merged m (X ∪ Y) d.
Proof.
  intros Hm. apply DB_eq; cbn; [|rewrite map_filter_filter|done..].
  - rewrite <- map_fmap_compose. apply map_fmap_ext. intros a r _. unfold compose, rename_in.
    repeat case_bool_decide; cbn in *; try done; set_solver.
  - apply map_filter_ext. intros e x _. set_solver.
Qed.

Lemma merge_step_tables conn m e upent :
  is32 m -> is32 e -> upent = render (MergeEntity m e) -> m <> e ->
  tables (fst (mysql_query (fst (mysql_query conn upent))
    ("DELETE FROM entityinfo WHERE entity = x'" +:+ hex32 e +:+ "';")))
  = merged m {[e]} (tables conn).
Proof.
  intros Hm He Hup Hne. rewrite (query_tables _ _ (DeleteEntity e) eq_refl) by done.
  rewrite (query_tables _ _ (MergeEntity m e) Hup) by (split; done).
  apply DB_eq; cbn; [| |done..].
  - apply map_fmap_ext. intros a r _. unfold rename_in.
    destruct (Z.eqb_spec (a_entity r) e); case_bool_decide; done || set_solver.
  - apply map_eq. intros k. destruct (decide (k = e)) as [->|Hk].
    + rewrite lookup_delete_eq. symmetry. apply map_lookup_filter_None_2. right. set_solver.
    + rewrite lookup_delete_ne by done. symmetry. destruct (entityinfo (tables conn) !! k) eqn:Ek.
      * apply map_lookup_filter_Some_2; [done|set_solver].
      * apply map_lookup_filter_None_2. by left.
Qed.

Lemma merge_text m e :
  ("UPDATE addressinfo SET entity = x'" +:+ hex32 m +:+ "' WHERE entity = x'") +:+ hex32 e +:+ "';"
  = render (MergeEntity m e).
Proof. by rewrite !append_assoc. Qed.

Lemma merge_entities_tables v prev m conn :
  is32 m -> m <= prev -> Forall is32 v -> Sorted Z.le (prev :: v) ->
  tables (merge_entities
    ("UPDATE addressinfo SET entity = x'" +:+ hex32 m +:+ "' WHERE entity = x'") prev v conn)
  = merged m (list_to_set v ∖ {[prev]}) (tables conn).
Proof.
  intros Hm. revert prev conn. induction v as [|e v IH]; intros prev conn Hle H32 Hs.
  - cbn. replace (∅ ∖ {[prev]}) with (∅ : gset Z) by set_solver. by rewrite merged_empty.
  - apply Forall_cons_1 in H32 as [He H32]. apply Sorted_inv in Hs as [Hs Hhd].
    apply HdRel_inv in Hhd. cbn [merge_entities].
    assert (Forall (Z.le e) v) as Hge.
    { apply (Sorted_StronglySorted _) in Hs. by apply StronglySorted_inv in Hs as [_ ?]. }
    rewrite IH by (done || lia). destruct (Z.eqb_spec prev e) as [->|Hne].
    + f_equal. cbn. set_solver.
    + rewrite (merge_step_tables conn m e); [|done..|apply merge_text|lia]. rewrite merged_union.
      * f_equal. apply set_eq. intros x. cbn.
        rewrite !elem_of_union, !elem_of_difference, !elem_of_union, !elem_of_singleton, elem_of_list_to_set.
        split; [|intros [[->|Hx] Hp]; [by left|]; destruct (decide (x = e)); [by left|by right]].
        intros [->|[Hx Hxe]]; [split; [by left|lia]|].
        rewrite Forall_forall in Hge. specialize (Hge x Hx). split; [by right|lia].
      * rewrite elem_of_difference, elem_of_list_to_set. intros [Hx Hxe].
        rewrite Forall_forall in Hge. specialize (Hge m Hx). apply Hxe, elem_of_singleton. lia.
Qed.

Lemma sort_v_spec es :
  Permutation (sort_v es) es /\ Sorted Z.le (sort_v es).
Proof. split; [apply merge_sort_Permutation|apply Sorted_merge_sort; intros x y; lia]. Qed.

Lemma existsb_neq_false m v : existsb (fun e => negb (m =? e)) v = false -> Forall (eq m) v.
Proof.
  intros Hv. apply Forall_forall. intros x Hx. apply not_true_iff_false in Hv.
  destruct (Z.eqb_spec m x) as [|Hne]; [done|]. exfalso. apply Hv, existsb_exists.
  exists x. split; [by apply list_elem_of_In|]. by apply negb_true_iff, Z.eqb_neq.
Qed.

(** The multi-input branch: the entities of the inputs become their minimum. *)
Lemma input_entity_branch es g conn :
  es <> [] -> Forall is32 es ->
  exists m conn', match sort_v es with
      | [] => None
      | entity_v0 :: rest =>
          let unequal := existsb (fun e => negb (entity_v0 =? e)) rest in
          let conn :=
            if unequal then
              let upent_section :=
                "UPDATE addressinfo SET entity = x'" +:+ hex32 entity_v0 +:+ "' WHERE entity = x'" in
              merge_entities upent_section entity_v0 rest conn
            else conn in
          Some (push_change entity_v0 g, conn)
      end = Some (push_change m g, conn')
    /\ m ∈ es /\ Forall (Z.le m) es
    /\ tables conn' = merged m (list_to_set es ∖ {[m]}) (tables conn).
Proof.
  intros Hne H32. destruct (sort_v_spec es) as [Hp Hs].
  destruct (sort_v es) as [|m v]; [by apply Permutation_nil_l in Hp|].
  rewrite <- Hp in H32. apply Forall_cons_1 in H32 as [Hm Hv].
  exists m. eexists. split; [reflexivity|]. split; [rewrite <- Hp; by left|]. split.
  { rewrite <- Hp. apply (Sorted_StronglySorted _) in Hs. apply StronglySorted_inv in Hs as [_ Hs].
    by constructor. }
  assert (list_to_set es ∖ {[m]} =@{gset Z} list_to_set v ∖ {[m]}) as ->.
  { apply set_eq. intros x. rewrite !elem_of_difference, !elem_of_list_to_set, <- Hp. set_solver. }
  cbn zeta. destruct (existsb _ v) eqn:Hu.
  - by apply merge_entities_tables.
  - replace (list_to_set v ∖ {[m]}) with (∅ : gset Z); [by rewrite merged_empty|].
    apply existsb_neq_false in Hu. rewrite Forall_forall in Hu. symmetry.
    apply set_eq. intros x. rewrite elem_of_difference, elem_of_list_to_set, elem_of_singleton.
    split; [intros [Hx Hxm]; by specialize (Hu x Hx)|set_solver].
Qed.

Lemma input_entity_spec l es g conn :
  l <> [] -> l <> [coinbase_h] -> Forall bytes l ->
  Forall2 (fun a e => entity_of (tables conn) a = Some e /\ is32 e) l es ->
  exists m conn', input_entity_mysql l g conn = Some (push_change m g, conn')
    /\ m ∈ es /\ Forall (Z.le m) es
    /\ tables conn' = merged m (list_to_set es ∖ {[m]}) (tables conn).
Proof.
  intros Hnil Hcb Hb Hl. destruct l as [|a [|a' l]]; [done|..].
  - inversion Hl as [|? e ? es' [He H32] Hl']; subst. inversion Hl'; subst.
    apply Forall_cons_1 in Hb as [Ha _]. unfold input_entity_mysql.
    rewrite bool_decide_eq_false_2 by congruence. cbn zeta.
    match goal with |- context [fetch_entity conn ?t] =>
      destruct (fetch_entity_spec conn t true a e eq_refl Ha H32 He) as (conn1 & -> & Ht1) end.
    exists e, conn1. split; [done|]. split; [by left|]. split; [by repeat constructor|].
    replace (list_to_set [e] ∖ {[e]}) with (∅ : gset Z) by set_solver. by rewrite merged_empty.
  - unfold input_entity_mysql.
    destruct (fetch_entities_spec (a :: a' :: l) es conn [] Hb Hl) as (conn1 & -> & Ht1).
    cbn [mbind option_bind app]. rewrite <- Ht1. apply input_entity_branch.
    + intros ->. inversion Hl.
    + apply Forall_forall. intros e He. apply list_elem_of_lookup in He as [i Hi].
      destruct (Forall2_lookup_r _ _ _ _ _ Hl Hi) as (? & _ & _ & ?). done.
Qed.

(** ** The invariant of the entity tables

    Entity numbers are at most the counter, 0 marks an address without entity,
    and [entityinfo] has a record for exactly the entities that some address
    has. *)
Record ent_inv (cnt : Z) (d : DB) : Prop := {
  inv_addr a r : addressinfo d !! a = Some r -> bytes a /\ 0 <= a_entity r <= cnt;
  inv_cnt : is32 cnt;
  inv_ents e : is_Some (entityinfo d !! e) <-> e <> 0 /\ exists a, entity_of d a = Some e }.

Lemma inv_entity_of cnt d a e : ent_inv cnt d -> entity_of d a = Some e -> bytes a /\ 0 <= e <= cnt.
Proof.
  intros Hi He. unfold entity_of in He. destruct (addressinfo d !! a) as [r|] eqn:Ha; [|done].
  injection He as <-. by apply (inv_addr _ _ Hi).
Qed.

Lemma entity_of_merged m X d a :
  entity_of (merged m X d) a
  = (fun e => if bool_decide (e ∈ X) then m else e) <$> entity_of d a.
Proof.
  unfold entity_of, merged. cbn. rewrite lookup_fmap.
  destruct (addressinfo d !! a) as [r|]; [|done]. cbn. f_equal. unfold rename_in.
  by case_bool_decide.
Qed.

Lemma merged_inv cnt m X d a0 :
  ent_inv cnt d -> entity_of d a0 = Some m -> m ∉ X -> ent_inv cnt (merged m X d).
Proof.
  intros Hi Hm HX. split.
  - intros a r. unfold merged. cbn. rewrite lookup_fmap, fmap_Some. intros (r0 & Hr0 & ->).
    destruct (inv_addr _ _ Hi _ _ Hr0) as [Hb Hr]. split; [done|]. unfold rename_in.
    case_bool_decide; [|done]. cbn. by apply (inv_entity_of cnt d a0).
  - apply (inv_cnt _ _ Hi).
  - intros e. unfold merged at 1. cbn. rewrite map_lookup_filter.
    assert (is_Some (x ← entityinfo d !! e; (guard (e ∉ X);; Some x))
            <-> (e ∉ X) /\ is_Some (entityinfo d !! e)) as ->.
    { unfold is_Some. destruct (entityinfo d !! e); cbn; [case_guard; cbn|]; naive_solver. }
    rewrite (inv_ents _ _ Hi e). setoid_rewrite entity_of_merged. split.
    + intros (He & H0 & a & Ha). split; [done|]. exists a. rewrite Ha. cbn. f_equal.
      by rewrite bool_decide_eq_false_2.
    + intros (H0 & a & Ha). apply fmap_Some in Ha as (e0 & Ha & ->).
      case_bool_decide; [|eauto]. split; [done|]. eauto.
Qed.

(** ** Fresh entities *)

Definition assigned (a : list Z) (n : Z) (d : DB) : DB :=
  set_entityinfo (<[n := default_ent]> (entityinfo d))
    (set_addressinfo (alter (with_entity n) a (addressinfo d)) d).

Lemma entity_of_assigned a n d a' :
  entity_of (assigned a n d) a'
  = if bool_decide (a' = a) then (fun _ => n) <$> entity_of d a' else entity_of d a'.
Proof.
  unfold entity_of, assigned. cbn. case_bool_decide as Ha; [subst|].
  - rewrite lookup_alter_eq. by destruct (addressinfo d !! a).
  - by rewrite lookup_alter_ne.
Qed.

Lemma assigned_inv cnt d a :
  ent_inv cnt d -> entity_of d a = Some 0 -> cnt + 1 < 0x1_0000_0000 ->
  ent_inv (cnt + 1) (assigned a (cnt + 1) d).
Proof.
  intros Hi Ha Hc. pose proof (inv_cnt _ _ Hi) as H32. unfold is32 in H32. split.
  - intros a' r. unfold assigned. cbn. destruct (decide (a' = a)) as [->|Hne].
    + rewrite lookup_alter_eq, fmap_Some. intros (r0 & Hr0 & ->).
      destruct (inv_addr _ _ Hi _ _ Hr0) as [Hb _]. cbn. split; [done|lia].
    + rewrite lookup_alter_ne by done. intros Hr.
      destruct (inv_addr _ _ Hi _ _ Hr) as [Hb ?]. split; [done|lia].
  - unfold is32. lia.
  - intros e. setoid_rewrite entity_of_assigned. unfold assigned. cbn.
    destruct (decide (e = cnt + 1)) as [->|Hne].
    + rewrite lookup_insert_eq. split; [|by intros; eexists]. intros _. split; [lia|].
      exists a. rewrite bool_decide_eq_true_2 by done. by rewrite Ha.
    + rewrite lookup_insert_ne by done. rewrite (inv_ents _ _ Hi e).
      split; intros (H0 & a' & Ha'); (split; [done|]); exists a'; case_bool_decide as Hd; subst; try done.
      * rewrite Ha in Ha'. by injection Ha' as <-.
      * rewrite Ha in Ha'. by injection Ha'.
Qed.

Lemma inv_fresh cnt d : ent_inv cnt d -> entityinfo d !! (cnt + 1) = None.
Proof.
  intros Hi. apply eq_None_not_Some. intros Hs. apply (inv_ents _ _ Hi) in Hs as (_ & a & Ha).
  apply (inv_entity_of cnt) in Ha as [_ ?]; [lia|done].
Qed.

Lemma output_entity_step_spec a e g conn :
  ent_inv (entitycnt g) (tables conn) -> entity_of (tables conn) a = Some e ->
  entitycnt g + 1 < 0x1_0000_0000 ->
  exists conn', output_entity_step a g conn
    = Some (push_change (entitycnt (if 0 =? e then set_entitycnt (entitycnt g + 1) g else g))
              (if 0 =? e then set_entitycnt (entitycnt g + 1) g else g), conn')
    /\ tables conn' = if 0 =? e then assigned a (entitycnt g + 1) (tables conn) else tables conn.
Proof.
  intros Hi Ha Hc. pose proof (inv_cnt _ _ Hi) as H32. unfold is32 in H32.
  destruct (inv_entity_of _ _ _ _ Hi Ha) as [Hb He]. unfold output_entity_step.
  match goal with |- context [fetch_entity conn ?t] =>
    destruct (fetch_entity_spec conn t false a e eq_refl Hb) as (conn1 & -> & Ht1) end;
    [unfold is32; lia|done|]. cbn [mbind option_bind].
  destruct (0 =? e) eqn:E0; [|by exists conn1].
  rewrite (w32_small (entitycnt g + 1)) by (unfold is32; lia). eexists. split; [reflexivity|].
  unfold insert_entity_mysql. cbn [set_entitycnt entitycnt].
  assert (is32 (entitycnt g + 1)) as Hn by (unfold is32; lia).
  match goal with |- context [mysql_query conn1 ?t] =>
    pose proof (query_tables conn1 t (SetEntity (entitycnt g + 1) a) eq_refl (conj Hn Hb)) as Hset end.
  cbn [exec fst] in Hset. rewrite Ht1 in Hset.
  rewrite (query_tables _ _ (InsertEntity (entitycnt g + 1)) eq_refl).
  - cbn [exec fst]. rewrite Hset. done.
  - split; [done|]. rewrite Hset. cbn. by apply inv_fresh.
Qed.

(** [d'] extends the entity assignment of [d]: entities are kept, and addresses
    that had none may have got fresh ones, different for different addresses;
    the other columns and tables are untouched. *)
Record extends (cnt : Z) (d : DB) (cnt' : Z) (d' : DB) : Prop := {
  ext_cnt : cnt <= cnt';
  ext_keep a e : entity_of d a = Some e -> e <> 0 -> entity_of d' a = Some e;
  ext_zero a : entity_of d a = Some 0 ->
    entity_of d' a = Some 0 \/ exists e, entity_of d' a = Some e /\ cnt < e <= cnt';
  ext_inj a b e : entity_of d a = Some 0 -> entity_of d b = Some 0 -> e <> 0 ->
    entity_of d' a = Some e -> entity_of d' b = Some e -> a = b;
  ext_cols : with_entity 0 <$> addressinfo d' = with_entity 0 <$> addressinfo d;
  ext_tx : records d' = records d;
  ext_blk : blkinfo d' = blkinfo d }.

Lemma extends_refl cnt d : 0 <= cnt -> extends cnt d cnt d.
Proof. intros Hc. split; intros; try done; [by left|congruence]. Qed.

Lemma extends_trans c1 d1 c2 d2 c3 d3 :
  0 <= c1 -> extends c1 d1 c2 d2 -> extends c2 d2 c3 d3 -> extends c1 d1 c3 d3.
Proof.
  intros Hc H1 H2. pose proof (ext_cnt _ _ _ _ H1) as Hc1. pose proof (ext_cnt _ _ _ _ H2) as Hc2.
  split; [lia| | | |by rewrite (ext_cols _ _ _ _ H2), (ext_cols _ _ _ _ H1)
         |by rewrite (ext_tx _ _ _ _ H2), (ext_tx _ _ _ _ H1)
         |by rewrite (ext_blk _ _ _ _ H2), (ext_blk _ _ _ _ H1)].
  - intros a e Ha He. apply (ext_keep _ _ _ _ H2); [|done]. by apply (ext_keep _ _ _ _ H1).
  - intros a Ha. destruct (ext_zero _ _ _ _ H1 a Ha) as [H0|(e & He & Hr)].
    + destruct (ext_zero _ _ _ _ H2 a H0) as [?|(e & He & Hr)]; [by left|].
      right. exists e. split; [done|lia].
    + right. exists e. split; [apply (ext_keep _ _ _ _ H2); [done|lia]|lia].
  - intros a b e Ha Hb He Hae Hbe.
    destruct (ext_zero _ _ _ _ H1 a Ha) as [Ha0|(ea & Hea & Hra)];
      destruct (ext_zero _ _ _ _ H1 b Hb) as [Hb0|(eb & Heb & Hrb)].
    + by apply (ext_inj _ _ _ _ H2 a b e).
    + pose proof (ext_keep _ _ _ _ H2 b eb Heb ltac:(lia)) as Hk.
      destruct (ext_zero _ _ _ _ H2 a Ha0) as [?|(x & Hx & Hrx)]; [congruence|].
      assert (x = eb) by congruence. lia.
    + pose proof (ext_keep _ _ _ _ H2 a ea Hea ltac:(lia)) as Hk.
      destruct (ext_zero _ _ _ _ H2 b Hb0) as [?|(x & Hx & Hrx)]; [congruence|].
      assert (x = ea) by congruence. lia.
    + pose proof (ext_keep _ _ _ _ H2 b eb Heb ltac:(lia)) as Hkb.
      pose proof (ext_keep _ _ _ _ H2 a ea Hea ltac:(lia)) as Hka.
      assert (ea = eb) as <- by congruence. apply (ext_inj _ _ _ _ H1 a b ea); try done. lia.
Qed.

Lemma assigned_extends cnt d a :
  entity_of d a = Some 0 -> extends cnt d (cnt + 1) (assigned a (cnt + 1) d).
Proof.
  intros Ha. split; try done; [lia|..].
  - intros a' e Ha' He. rewrite entity_of_assigned. case_bool_decide; subst; congruence.
  - intros a' Ha'. rewrite entity_of_assigned. case_bool_decide; [|by left]. rewrite Ha'. cbn. right.
    eexists. split; [done|lia].
  - intros b c e Hb Hc He. rewrite !entity_of_assigned. repeat case_bool_decide; congruence.
  - unfold assigned. cbn. apply map_eq. intros k. rewrite !lookup_fmap.
    destruct (decide (k = a)) as [->|]; [rewrite lookup_alter_eq|by rewrite lookup_alter_ne].
    by destruct (addressinfo d !! a).
Qed.

(** After [output_entity_mysql] every output address has an entity. *)
Lemma output_entity_spec l g conn :
  ent_inv (entitycnt g) (tables conn) ->
  Forall (fun a => is_Some (entity_of (tables conn) a)) l ->
  entitycnt g + Z.of_nat (length l) < 0x1_0000_0000 ->
  exists g' conn', output_entity_mysql l g conn = Some (g', conn')
    /\ ent_inv (entitycnt g') (tables conn')
    /\ extends (entitycnt g) (tables conn) (entitycnt g') (tables conn')
    /\ entitycnt g' <= entitycnt g + Z.of_nat (length l)
    /\ Forall (fun a => exists e, entity_of (tables conn') a = Some e /\ e <> 0) l.
Proof.
  revert g conn. induction l as [|a l IH]; intros g conn Hi Hl Hc.
  { exists g, conn. cbn. pose proof (inv_cnt _ _ Hi) as [? _].
    split_and!; [done|done|by apply extends_refl|lia|constructor]. }
  apply Forall_cons_1 in Hl as [[e Ha] Hl]. cbn [length] in Hc.
  destruct (output_entity_step_spec a e g conn Hi Ha) as (conn1 & Hstep & Ht); [lia|].
  pose proof (inv_cnt _ _ Hi) as [H0 _]. cbn [output_entity_mysql]. rewrite Hstep. clear Hstep.
  set (g1 := if 0 =? e then _ else g) in *. cbn [mbind option_bind].
  assert (ent_inv (entitycnt g1) (tables conn1)
    /\ extends (entitycnt g) (tables conn) (entitycnt g1) (tables conn1)
    /\ entitycnt g1 <= entitycnt g + 1
    /\ exists e1, entity_of (tables conn1) a = Some e1 /\ e1 <> 0) as (Hi1 & He1 & Hc1 & e1 & Ha1 & Hn1).
  { subst g1. rewrite Ht. destruct (Z.eqb_spec 0 e) as [<-|Hne]; cbn [set_entitycnt entitycnt].
    - split_and!; [apply assigned_inv; [done..|lia]|by apply assigned_extends|lia|].
      exists (entitycnt g + 1). rewrite entity_of_assigned, bool_decide_eq_true_2, Ha by done.
      split; [done|lia].
    - split_and!; [done|by apply extends_refl|lia|]. exists e. split; [done|lia]. }
  destruct (IH (push_change (entitycnt g1) g1) conn1) as (g' & conn' & -> & Hi' & He' & Hc' & Hl');
    cbn [push_change entitycnt] in *; [done| |lia|].
  - eapply Forall_impl; [exact Hl|]. intros x [ex Hx]. cbn.
    destruct (decide (ex = 0)) as [->|Hne]; [|eexists; by apply (ext_keep _ _ _ _ He1)].
    destruct (ext_zero _ _ _ _ He1 x Hx) as [?|(? & ? & _)]; by eexists.
  - cbn [length]. exists g', conn'. split_and!; [done|done| |lia|].
    + by eapply extends_trans.
    + constructor; [|done]. exists e1. split; [by apply (ext_keep _ _ _ _ He')|done].
Qed.

(** ** Recomputing the aggregates *)

Definition refreshed (X : gset Z) (d : DB) : DB :=
  set_entityinfo
    (map_imap (fun e r => Some (if bool_decide (e ∈ X)
                                then aggregate (entity_rows e (addressinfo d)) else r))
       (entityinfo d)) d.

Lemma lookup_refreshed X d e :
  entityinfo (refreshed X d) !! e
  = (fun r => if bool_decide (e ∈ X) then aggregate (entity_rows e (addressinfo d)) else r)
      <$> entityinfo d !! e.
Proof. cbn. rewrite map_lookup_imap. by destruct (entityinfo d !! e). Qed.

Lemma update_entities_tables v conn :
  Forall is32 v -> tables (update_entities v conn) = refreshed (list_to_set v) (tables conn).
Proof.
  intros Hv. revert conn. induction Hv as [|e v He Hv IH]; intros conn; cbn [update_entities].
  - apply DB_eq; [done| |done..]. apply map_eq. intros k. rewrite lookup_refreshed.
    rewrite bool_decide_eq_false_2 by set_solver. by destruct (entityinfo (tables conn) !! k).
  - rewrite IH. match goal with |- context [mysql_query conn ?t] =>
      rewrite (query_tables conn t (UpdateEntity e) eq_refl He) end. cbn [exec fst].
    apply DB_eq; [done| |done..]. apply map_eq. intros k. rewrite !lookup_refreshed. cbn.
    destruct (decide (k = e)) as [->|Hne].
    + rewrite lookup_alter_eq. destruct (entityinfo (tables conn) !! e); [|done]. cbn. f_equal.
      rewrite (bool_decide_eq_true_2 (e ∈ {[e]} ∪ _)) by set_solver. by case_bool_decide.
    + rewrite lookup_alter_ne by done. destruct (entityinfo (tables conn) !! k); [|done].
      cbn. f_equal. repeat case_bool_decide; set_solver.
Qed.

Lemma elem_of_unique_v v x : x ∈ unique_v v <-> x ∈ v.
Proof.
  induction v as [|a [|b v] IH]; [done..|]. cbn [unique_v] in *.
  destruct (Z.eqb_spec a b) as [->|]; rewrite ?elem_of_cons, IH; set_solver.
Qed.

Lemma update_entity_tables g conn :
  Forall is32 (entitychange_v g) ->
  tables (snd (update_entity_mysql g conn))
  = refreshed (list_to_set (entitychange_v g)) (tables conn).
Proof.
  intros Hv. cbn. destruct (sort_v_spec (entitychange_v g)) as [Hp _].
  rewrite update_entities_tables.
  - f_equal. apply set_eq. intros x. rewrite !elem_of_list_to_set, elem_of_unique_v. by rewrite Hp.
  - rewrite Forall_forall in *. intros x Hx. apply Hv. rewrite <- Hp. by apply elem_of_unique_v.
Qed.

(** The addresses of a transaction's inputs, as the invariant describes them. *)
Lemma inv_entities cnt conn l :
  ent_inv cnt (tables conn) -> Forall (fun a => is_Some (entity_of (tables conn) a)) l ->
  exists es, Forall2 (fun a e => entity_of (tables conn) a = Some e /\ is32 e) l es /\ Forall bytes l.
Proof.
  intros Hi Hl. pose proof (inv_cnt _ _ Hi) as [Hc1 Hc2].
  induction Hl as [|a l [e Ha] Hl (es & Hes & Hb)]; [by exists []|].
  destruct (inv_entity_of _ _ _ _ Hi Ha) as [Hba Hr].
  exists (e :: es). split; constructor; try done. split; [done|]. unfold is32. lia.
Qed.

(** What [input_entity_mysql] keeps: the counter, the invariant, the addresses,
    that none of them is without entity, and the other columns and tables. *)
Lemma input_entity_total l g conn :
  ent_inv (entitycnt g) (tables conn) -> l <> [] ->
  l = [coinbase_h] \/ Forall (fun a => is_Some (entity_of (tables conn) a)) l ->
  exists g' conn', input_entity_mysql l g conn = Some (g', conn')
    /\ entitycnt g' = entitycnt g /\ ent_inv (entitycnt g') (tables conn')
    /\ ((forall a, entity_of (tables conn) a <> Some 0) -> forall a, entity_of (tables conn') a <> Some 0)
    /\ with_entity 0 <$> addressinfo (tables conn') = with_entity 0 <$> addressinfo (tables conn)
    /\ records (tables conn') = records (tables conn)
    /\ (Forall is32 (entitychange_v g) -> Forall is32 (entitychange_v g')).
Proof.
  intros Hi Hnil Hl. destruct (decide (l = [coinbase_h])) as [->|Hcb]; [by exists g, conn|].
  destruct Hl as [|Hl]; [done|].
  destruct (inv_entities _ _ _ Hi Hl) as (es & Hes & Hb).
  destruct (input_entity_spec l es g conn Hnil Hcb Hb Hes) as (m & conn' & Hrun & Hm & _ & Ht).
  apply list_elem_of_lookup in Hm as [i Hi'].
  destruct (Forall2_lookup_r _ _ _ _ _ Hes Hi') as (a0 & _ & Ha0 & Hm32).
  exists (push_change m g), conn'. rewrite Ht. split_and!; [done|done| | | |done|].
  - cbn. eapply merged_inv; [done|exact Ha0|set_solver].
  - intros Hz a. rewrite entity_of_merged. pose proof (Hz a) as Hza. pose proof (Hz a0) as Hz0.
    destruct (entity_of (tables conn) a) as [e|]; [|done]. cbn. case_bool_decide; congruence.
  - apply map_eq. intros k. unfold merged. cbn. rewrite !lookup_fmap.
    destruct (addressinfo (tables conn) !! k); [|done]. cbn. unfold rename_in. by case_bool_decide.
  - intros Hg. cbn. apply Forall_app. by split; [|constructor].
Qed.

(** Changed entities are recorded as 32-bit numbers. *)
Lemma output_entity_changes l g conn g' conn' :
  output_entity_mysql l g conn = Some (g', conn') -> is32 (entitycnt g) ->
  Forall is32 (entitychange_v g) -> Forall is32 (entitychange_v g').
Proof.
  revert g conn. induction l as [|a l IH]; intros g conn H Hc Hg.
  { cbn in H. by injection H as <- <-. }
  cbn [output_entity_mysql] in H. apply bind_Some in H as ([g1 conn1] & Hs & H).
  unfold output_entity_step in Hs. apply bind_Some in Hs as ([e conn2] & _ & Hs).
  assert (is32 (entitycnt g1) /\ Forall is32 (entitychange_v g1)) as [Hc1 Hg1].
  { destruct (0 =? e); cbn zeta in Hs; apply Some_inj, pair_eq in Hs as [<- _];
      cbn [push_change set_entitycnt entitycnt entitychange_v]; (split; [done || apply is32_w32|]);
      apply Forall_app; (split; [done|]); constructor; (done || apply is32_w32 || constructor). }
  exact (IH g1 conn1 H Hc1 Hg1).
Qed.

(** ** Results *)

(** C5: spending from addresses together merges their entities.  When every
    input address is in the table (and the input is not the block reward),
    [input_entity_mysql] succeeds, and afterwards two addresses have the same
    entity exactly if they had the same before or both belonged to entities of
    the inputs; the merged entity has the smallest of their numbers and is
    recorded as changed, the records of the others are deleted, and no other
    column changes. *)
Theorem input_entity_mysql_merges l es g conn :
  l <> [] -> l <> [coinbase_h] -> Forall bytes l ->
  Forall2 (fun a e => entity_of (tables conn) a = Some e /\ is32 e) l es ->
  exists m conn', input_entity_mysql l g conn = Some (push_change m g, conn')
    /\ m ∈ es /\ Forall (Z.le m) es
    /\ (forall a, entity_of (tables conn') a
          = (fun e => if bool_decide (e ∈ es) then m else e) <$> entity_of (tables conn) a)
    /\ (forall a b ea eb, entity_of (tables conn) a = Some ea -> entity_of (tables conn) b = Some eb ->
          (entity_of (tables conn') a = entity_of (tables conn') b
           <-> ea = eb \/ (ea ∈ es /\ eb ∈ es)))
    /\ with_entity 0 <$> addressinfo (tables conn') = with_entity 0 <$> addressinfo (tables conn)
    /\ (forall e, entityinfo (tables conn') !! e
          = if bool_decide (e ∈ es /\ e <> m) then None else entityinfo (tables conn) !! e).
Proof.
  intros Hnil Hcb Hb Hl.
  destruct (input_entity_spec l es g conn Hnil Hcb Hb Hl) as (m & conn' & Hrun & Hm & Hle & Ht).
  exists m, conn'. rewrite Ht.
  assert (forall a, entity_of (merged m (list_to_set es ∖ {[m]}) (tables conn)) a
    = (fun e => if bool_decide (e ∈ es) then m else e) <$> entity_of (tables conn) a) as Hent.
  { intros a. rewrite entity_of_merged. destruct (entity_of (tables conn) a) as [e|]; [|done].
    cbn. f_equal. destruct (bool_decide_reflect (e ∈ list_to_set (C := gset Z) es ∖ {[m]})) as [Hx|Hx];
      rewrite elem_of_difference, elem_of_list_to_set, elem_of_singleton in Hx;
      case_bool_decide; destruct (decide (e = m)); naive_solver. }
  split_and!; [done..| | |].
  - intros a b ea eb Ha Hb'. rewrite !Hent, Ha, Hb'. cbn.
    destruct (bool_decide_reflect (ea ∈ es)), (bool_decide_reflect (eb ∈ es)); naive_solver.
  - apply map_eq. intros k. unfold merged. cbn. rewrite !lookup_fmap.
    destruct (addressinfo (tables conn) !! k); [|done]. cbn. unfold rename_in. by case_bool_decide.
  - intros e. unfold merged. cbn. rewrite map_lookup_filter.
    assert (e ∉ list_to_set (C := gset Z) es ∖ {[m]} <-> ~ (e ∈ es /\ e <> m)) as Hiff.
    { rewrite elem_of_difference, elem_of_list_to_set, elem_of_singleton. done. }
    destruct (bool_decide_reflect (e ∈ es /\ e <> m)); destruct (entityinfo (tables conn) !! e);
      cbn; try done; case_guard; naive_solver.
Qed.

(** C30: [output_entity_mysql] gives every output address an entity.  From a
    state that satisfies the invariant, with the output addresses in the table
    and enough numbers left, it succeeds; every output address then has a
    nonzero entity, addresses that had one keep it, those that had none get
    numbers above the old counter, different for different addresses, and the
    invariant holds for the new counter. *)
Theorem output_entity_mysql_fresh l g conn :
  ent_inv (entitycnt g) (tables conn) ->
  Forall (fun a => is_Some (entity_of (tables conn) a)) l ->
  entitycnt g + Z.of_nat (length l) < 0x1_0000_0000 ->
  exists g' conn', output_entity_mysql l g conn = Some (g', conn')
    /\ ent_inv (entitycnt g') (tables conn')
    /\ extends (entitycnt g) (tables conn) (entitycnt g') (tables conn')
    /\ entitycnt g' <= entitycnt g + Z.of_nat (length l)
    /\ Forall (fun a => exists e, entity_of (tables conn') a = Some e /\ e <> 0) l.
Proof. apply output_entity_spec. Qed.

(** C26: [input_entity_mysql] keeps the entity tables consistent: entity numbers
    stay at most the counter, and [entityinfo] has a record for exactly the
    entities in use. *)
Theorem input_entity_mysql_inv l g conn :
  ent_inv (entitycnt g) (tables conn) ->
  l <> [] -> Forall (fun a => is_Some (entity_of (tables conn) a)) l ->
  exists g' conn', input_entity_mysql l g conn = Some (g', conn')
    /\ entitycnt g' = entitycnt g /\ ent_inv (entitycnt g') (tables conn').
Proof.
  intros Hi Hnil Hl.
  destruct (input_entity_total l g conn Hi Hnil (or_intror Hl)) as (g' & conn' & Hr & Hc & Hi' & _).
  by exists g', conn'.
Qed.

(** C32: [update_entity_mysql] makes the record of every entity listed as changed
    the aggregate of its addresses, leaves every other record and table as it
    was and empties the list. *)
Theorem update_entity_mysql_aggregates g conn e :
  Forall is32 (entitychange_v g) ->
  let '(g', conn') := update_entity_mysql g conn in
  entityinfo (tables conn') !! e
  = (fun r => if bool_decide (e ∈ entitychange_v g)
              then aggregate (entity_rows e (addressinfo (tables conn))) else r)
      <$> entityinfo (tables conn) !! e
  /\ addressinfo (tables conn') = addressinfo (tables conn)
  /\ entitychange_v g' = [] /\ entitycnt g' = entitycnt g.
Proof.
  intros Hv. pose proof (update_entity_tables g conn Hv) as Ht.
  destruct (update_entity_mysql g conn) as [g' conn'] eqn:Hu. cbn [snd] in Ht. rewrite Ht.
  split_and!; [|done|by injection Hu as <- _..]. rewrite lookup_refreshed.
  destruct (entityinfo (tables conn) !! e); [|done]. cbn. f_equal.
  repeat case_bool_decide; set_solver.
Qed.

(** When every output address already has an entity, [output_entity_mysql]
    leaves the tables alone and records as changed, once per output, the newest
    entity number instead of the entity that received the output. *)
Theorem output_entity_mysql_known l g conn :
  ent_inv (entitycnt g) (tables conn) ->
  Forall (fun a => exists e, entity_of (tables conn) a = Some e /\ e <> 0) l ->
  entitycnt g + 1 < 0x1_0000_0000 ->
  exists conn', output_entity_mysql l g conn
    = Some ({| entitychange_v := (entitychange_v g ++ replicate (length l) (entitycnt g))%list;
               entitycnt := entitycnt g |}, conn')
    /\ tables conn' = tables conn.
Proof.
  intros Hi Hl Hc. revert g conn Hi Hl Hc. induction l as [|a l IH]; intros g conn Hi Hl Hc.
  { exists conn. cbn. rewrite app_nil_r. by destruct g. }
  apply Forall_cons_1 in Hl as [(e & Ha & Hne) Hl].
  destruct (output_entity_step_spec a e g conn Hi Ha Hc) as (conn1 & Hstep & Ht).
  cbn [output_entity_mysql]. rewrite Hstep. rewrite (proj2 (Z.eqb_neq 0 e)) in * by done.
  cbn [mbind option_bind].
  destruct (IH (push_change (entitycnt g) g) conn1) as (conn2 & -> & Ht2);
    cbn [push_change entitycnt entitychange_v]; rewrite ?Ht; try done.
  exists conn2. split; [|congruence]. cbn [replicate length]. by rewrite <- app_assoc.
Qed.
End Entity.

(** ** The results on concrete tables

    Three addresses with entities 1, 2 and 2 and one without entity. *)
Definition addr_n (k : Z) : list Z := replicate 20 k.
Definition sample_row (e : Z) : addr_row :=
  {| a_inval := 3; a_outval := 10; a_bal := 7; a_maxbal := 10; a_incnt := 1; a_outcnt := 2;
     a_firsttm := "2009-01-03 18:15:05"; a_lasttm := "2009-01-09 02:54:25"; a_entity := e |}.
Definition sample_db : DB :=
  {| addressinfo := <[addr_n 1 := sample_row 1]> (<[addr_n 2 := sample_row 2]>
       (<[addr_n 3 := sample_row 2]> (<[addr_n 4 := sample_row 0]> ∅)));
     entityinfo := <[1 := default_ent]> (<[2 := default_ent]> ∅); txinfo := []; blkinfo := [] |}.
Definition sample_conn : @MYSQL schema0 server := sample_db.
Definition sample_g : globals := {| entitychange_v := [2; 1; 2]; entitycnt := 2 |}.

Lemma bytes_addr_n k : is8 k -> bytes (addr_n k).
Proof. intros Hk. by apply Forall_replicate. Qed.

Lemma sample_inv : ent_inv (entitycnt sample_g) sample_db.
Proof.
  split.
  - intros a r Hr. cbn in Hr.
    repeat (apply lookup_insert_Some in Hr as [[<- <-]|[_ Hr]];
      [split; [apply bytes_addr_n; unfold is8; lia|cbn; lia]|]).
    by rewrite lookup_empty in Hr.
  - unfold is32. cbn. lia.
  - intros e. split.
    + intros [r Hr]. cbn in Hr. repeat (apply lookup_insert_Some in Hr as [[<- _]|[_ Hr]]).
      * split; [lia|]. exists (addr_n 1). reflexivity.
      * split; [lia|]. exists (addr_n 2). reflexivity.
      * by rewrite lookup_empty in Hr.
    + intros (Hne & a & Ha). unfold entity_of in Ha. apply fmap_Some in Ha as (r & Hr & ->).
      cbn in Hr. repeat (apply lookup_insert_Some in Hr as [[_ <-]|[_ Hr]]); cbn in *;
        first [exists default_ent; reflexivity|congruence|by rewrite lookup_empty in Hr].
Qed.

Lemma input_entity_mysql_merges_witness :
  exists m conn',
    input_entity_mysql [addr_n 3; addr_n 1] sample_g sample_conn = Some (push_change m sample_g, conn')
    /\ entity_of (tables conn') (addr_n 2) = entity_of (tables conn') (addr_n 1).
Proof.
  destruct (input_entity_mysql_merges [addr_n 3; addr_n 1] [2; 1] sample_g sample_conn)
    as (m & conn' & Hrun & _ & _ & _ & Hsame & _).
  - discriminate.
  - discriminate.
  - repeat constructor; unfold is8; lia.
  - repeat constructor; unfold is32; lia.
  - exists m, conn'. split; [exact Hrun|].
    apply (Hsame (addr_n 2) (addr_n 1) 2 1); [reflexivity|reflexivity|]. right. split; apply list_elem_of_In; cbn; tauto.
Defined.

Lemma output_entity_mysql_fresh_witness :
  exists g' conn', output_entity_mysql [addr_n 4; addr_n 2; addr_n 4] sample_g sample_conn = Some (g', conn')
    /\ ent_inv (entitycnt g') (tables conn')
    /\ Forall (fun a => exists e, entity_of (tables conn') a = Some e /\ e <> 0) [addr_n 4; addr_n 2; addr_n 4].
Proof.
  destruct (output_entity_mysql_fresh [addr_n 4; addr_n 2; addr_n 4] sample_g sample_conn)
    as (g' & conn' & Hrun & Hi & _ & _ & Hall).
  - exact sample_inv.
  - repeat constructor; eexists; reflexivity.
  - cbn. lia.
  - exists g', conn'. split; [exact Hrun|]. split; [exact Hi|exact Hall].
Defined.

Lemma input_entity_mysql_inv_witness :
  exists g' conn', input_entity_mysql [addr_n 3; addr_n 1] sample_g sample_conn = Some (g', conn')
    /\ entitycnt g' = 2 /\ ent_inv (entitycnt g') (tables conn').
Proof.
  apply (input_entity_mysql_inv [addr_n 3; addr_n 1] sample_g sample_conn).
  - exact sample_inv.
  - discriminate.
  - repeat constructor; eexists; reflexivity.
Defined.

Lemma update_entity_mysql_aggregates_witness :
  option_map (fun r => (e_addcnt r, e_bal r))
    (entityinfo (tables (snd (update_entity_mysql sample_g sample_conn))) !! 2) = Some (2, Some 14).
Proof.
  pose proof (update_entity_mysql_aggregates sample_g sample_conn 2) as H.
  destruct (update_entity_mysql sample_g sample_conn) as [g' conn'] eqn:E.
  destruct H as [H _].
  - repeat constructor; unfold is32; lia.
  - cbn [snd]. rewrite H. vm_compute. reflexivity.
Defined.

(** The entity that received the output, number 1, is not recorded. *)
Lemma output_entity_mysql_known_witness :
  exists conn', output_entity_mysql [addr_n 1] {| entitychange_v := []; entitycnt := 2 |} sample_conn
    = Some ({| entitychange_v := [2]; entitycnt := 2 |}, conn').
Proof.
  destruct (output_entity_mysql_known [addr_n 1] {| entitychange_v := []; entitycnt := 2 |} sample_conn)
    as (conn' & Hrun & _).
  - exact sample_inv.
  - repeat constructor. exists 1. split; [reflexivity|lia].
  - cbn. lia.
  - exists conn'. exact Hrun.
Defined.
