(* ===== verification/TxStore.v ===== *)
(** * Processing a transaction: src/BitcoinAnalysis/TransactionProcess.h

    Every transaction is stored in a LevelDB database under its hash, so that
    the inputs of later transactions can be resolved to an address and a value;
    the balances and the transaction's record go to MySQL, and the entities of
    its addresses are merged or created.

    LevelDB is the class [LevelDB]: a finite map with [Get] and [Put].  A read
    outside a buffer is [None]. *)
From Stdlib Require Import String.
From stdpp Require Import base gmap strings numbers option sorting list.
From S2P Require Import Prelude Sql SqlServer Calendar Block Entity.
Local Open Scope string_scope.
Open Scope Z_scope.

(** ** LevelDB *)

Class LevelDB := {
  DBptr : Type;
  Get : DBptr -> list Z -> option (list Z);
  Put : DBptr -> list Z -> list Z -> DBptr;
  Get_Put db k v k' : Get (Put db k v) k' = if bool_decide (k' = k) then Some v else Get db k' }.

(** A store in memory, for concrete runs. *)
#[export] Instance mem_leveldb : LevelDB.
Proof.
  refine {| DBptr := gmap (list Z) (list Z); Get := fun db k => db !! k;
            Put := fun db k v => <[k := v]> db |}.
  intros db k v k'. case_bool_decide as Hk; [subst; apply lookup_insert_eq|].
  by rewrite lookup_insert_ne.
Defined.

Definition coinbase_b : list Z :=
  [0x00; 0x00; 0x00; 0x00; 0x00; 0x00; 0x00; 0x00; 0x00; 0x00; 0x00; 0x00; 0x00; 0x00; 0x00; 0x00;
   0x00; 0x00; 0x00; 0x00; 0x00; 0x00; 0x00; 0x00; 0x00; 0x00; 0x00; 0x00; 0x00; 0x00; 0x00; 0x00].

Definition coinbase_s : string := "3030303030303030303030303030303030303030".

Section TxStore.
Context `{Sc : Schema} `{My : !MySQL} `{Ldb : LevelDB}.

(** [ReadOutput]: the 28 bytes, address and value, of an output of a stored
    transaction; a key that is not found leaves [value_s] empty. *)
Definition ReadOutput (txhash : list Z) (index : Z) (tx_db : DBptr) : option (list Z) :=
  if bool_decide (txhash = coinbase_b) then Some (replicate 20 48 ++ le_bytes 8 0)%list
  else
    let pretx := default [] (Get tx_db txhash) in
    incounter ← le_val <$> peek pretx 16 4;
    peek pretx (20 + w32 (incounter * 28) + 4 + w32 (index * 28)) 28.

Definition Transaction2MySQL (tx : Transaction) (invalue_sum outvalue_sum : Z) (txtime_s : string)
    (conn : MYSQL) : MYSQL :=
  let blknum_s := dec (tx_blocknumber tx) in
  let txcounter_s := dec (txcounter tx) in
  let rawlength_s := dec (tx_length tx) in
  let txhash := reverse (tx_curhash tx) in
  let txhash_s := hex txhash in
  let incounter_s := dec (in_count tx) in
  let outcounter_s := dec (out_count tx) in
  let invalue_sum := if invalue_sum <? outvalue_sum then outvalue_sum else invalue_sum in
  let invalue_sum_s := dec invalue_sum in
  let outvalue_sum_s := dec outvalue_sum in
  let txfee := w64 (invalue_sum - outvalue_sum) in
  let txfee_s := dec txfee in
  let insert := "INSERT INTO txinfo VALUES(x'"
    +:+ txhash_s +:+ "','"
    +:+ txcounter_s +:+ "','"
    +:+ blknum_s +:+ "','"
    +:+ txtime_s +:+ "','"
    +:+ rawlength_s +:+ "','"
    +:+ txfee_s +:+ "','"
    +:+ incounter_s +:+ "','"
    +:+ invalue_sum_s +:+ "','"
    +:+ outcounter_s +:+ "','"
    +:+ outvalue_sum_s +:+ "');" in
  fst (mysql_query conn insert).

Definition input_transaction_mysql (address_b : list Z) (value : Z) (txtime_s : string)
    (conn : MYSQL) : MYSQL :=
  let address_s := hex address_b in
  if bool_decide (address_s = coinbase_s) then conn
  else
    let value_s := dec value in
    let updata := "UPDATE addressinfo SET inval=inval+" +:+ value_s +:+ ",lasttm='" +:+ txtime_s
      +:+ "',bal=outval-inval,incnt=incnt+1 WHERE address=x'" +:+ address_s +:+ "';" in
    fst (mysql_query conn updata).

Definition output_transaction_mysql (address_b : list Z) (value : Z) (txtime_s : string)
    (conn : MYSQL) : MYSQL :=
  let address_s := hex address_b in
  let value_s := dec value in
  let updata := "INSERT INTO addressinfo(address,outval,firsttm,lasttm,bal) VALUES(x'" +:+ address_s
    +:+ "','" +:+ value_s +:+ "','" +:+ txtime_s +:+ "','" +:+ txtime_s
    +:+ "',outval-inval) ON DUPLICATE KEY UPDATE outval=outval+" +:+ value_s +:+ ",lasttm='"
    +:+ txtime_s +:+ "',bal=outval-inval,outcnt=outcnt+1;" in
  let conn := fst (mysql_query conn updata) in
  let updata := "UPDATE addressinfo SET maxbal=bal WHERE bal>maxbal AND address=x'" +:+ address_s
    +:+ "';" in
  fst (mysql_query conn updata).

(** The input loop: the value written so far, the sum of the input values and
    the input addresses are accumulated. *)
Fixpoint process_ins (ins : list Txin) (tx_db : DBptr) (txtime_s : string) (value_c : list Z)
    (invalue_sum : Z) (input_address_bv : list (list Z)) (conn : MYSQL)
    : option (list Z * Z * list (list Z) * MYSQL) :=
  match ins with
  | [] => Some (value_c, invalue_sum, input_address_bv, conn)
  | txin :: rest =>
      let txhash := reverse (in_hash txin) in
      preout ← ReadOutput txhash (in_index txin) tx_db;
      let value_c := (value_c ++ preout)%list in
      let preaddress := take 20 preout in
      let invalue := le_val (take 8 (drop 20 preout)) in
      let invalue_sum := w64 (invalue_sum + invalue) in
      let conn := input_transaction_mysql preaddress invalue txtime_s conn in
      process_ins rest tx_db txtime_s value_c invalue_sum (input_address_bv ++ [preaddress])%list conn
  end.

Fixpoint process_outs (outs : list Txout) (txtime_s : string) (value_c : list Z)
    (outvalue_sum : Z) (output_address_bv : list (list Z)) (conn : MYSQL)
    : list Z * Z * list (list Z) * MYSQL :=
  match outs with
  | [] => (value_c, outvalue_sum, output_address_bv, conn)
  | txout :: rest =>
      let value_c := (value_c ++ out_address txout ++ le_bytes 8 (out_val txout))%list in
      let outvalue_sum := w64 (outvalue_sum + out_val txout) in
      let conn := output_transaction_mysql (out_address txout) (out_val txout) txtime_s conn in
      process_outs rest txtime_s value_c outvalue_sum
        (output_address_bv ++ [out_address txout])%list conn
  end.

(** The loops run [in_count] and [out_count] times over [ins] and [outs], which
    hold that many elements (TxParse); [value_c] has room for [value_len] bytes,
    and writing another number of bytes to it is [None].

    The state that the program threads through its calls: the globals of
    EntityProcess.h, the connection and the LevelDB handle. *)
Record state := { st_g : globals; st_conn : MYSQL; st_db : DBptr }.

Definition TransactionProcess (tx : Transaction) (st : state) : option state :=
  let txhash := reverse (tx_curhash tx) in
  let value_len := w32 (4 + 4 + 4 + 4 + 4 + in_count tx * (20 + 8) + 4 + out_count tx * (20 + 8)) in
  let value_c := (le_bytes 4 (tx_blocknumber tx) ++ le_bytes 4 (txtime tx)
                  ++ le_bytes 4 (txcounter tx) ++ le_bytes 4 (tx_length tx))%list in
  let key_c := txhash in
  let txtime_s := getTimeString (txtime tx) in
  let value_c := (value_c ++ le_bytes 4 (in_count tx))%list in
  '(value_c, invalue_sum, input_address_bv, conn) ←
    process_ins (ins tx) (st_db st) txtime_s value_c 0 [] (st_conn st);
  '(g, conn) ← input_entity_mysql input_address_bv (st_g st) conn;
  let value_c := (value_c ++ le_bytes 4 (out_count tx))%list in
  let '(value_c, outvalue_sum, output_address_bv, conn) :=
    process_outs (outs tx) txtime_s value_c 0 [] conn in
  '(g, conn) ← output_entity_mysql output_address_bv g conn;
  if Z.of_nat (length value_c) =? value_len then
    let tx_db := Put (st_db st) key_c value_c in
    let conn := Transaction2MySQL tx invalue_sum outvalue_sum txtime_s conn in
    Some {| st_g := g; st_conn := conn; st_db := tx_db |}
  else None.

(** ** What is stored for a transaction *)

Definition out_bytes (o : list Z * Z) : list Z := (fst o ++ le_bytes 8 (snd o))%list.

Definition out_ok (o : list Z * Z) : Prop := address_ok (fst o) /\ is64 (snd o).

(** The stored value [v] of a transaction with [nin] inputs and outputs [os]. *)
Record tx_value (v : list Z) (nin : Z) (os : list (list Z * Z)) : Prop := {
  tv_layout : exists hd ib, v = (hd ++ le_bytes 4 nin ++ ib ++ le_bytes 4 (Z.of_nat (length os))
                                 ++ flat_map out_bytes os)%list
                /\ length hd = 16%nat /\ Z.of_nat (length ib) = 28 * nin;
  tv_size : 0 <= nin /\ 28 * nin < 0x1_0000_0000 /\ 28 * Z.of_nat (length os) < 0x1_0000_0000;
  tv_outs : Forall out_ok os }.

Lemma length_out_bytes o : out_ok o -> length (out_bytes o) = 28%nat.
Proof. intros [[Hl _] _]. unfold out_bytes. by rewrite length_app, length_le_bytes, Hl. Qed.

Lemma flat_map_out_bytes os i o :
  Forall out_ok os -> os !! i = Some o ->
  take 28 (drop (28 * i) (flat_map out_bytes os)) = out_bytes o.
Proof.
  intros Hos. revert i. induction Hos as [|o' os Ho Hos IH]; intros [|i] Hi; try discriminate.
  - injection Hi as ->. cbn [flat_map]. rewrite Nat.mul_0_r, drop_0.
    apply take_app_length'. symmetry. by apply length_out_bytes.
  - cbn [flat_map]. rewrite drop_app_ge by (rewrite length_out_bytes by done; lia).
    rewrite length_out_bytes by done. replace (28 * S i - 28)%nat with (28 * i)%nat by lia.
    by apply IH.
Qed.

Lemma length_flat_out_bytes os :
  Forall out_ok os -> length (flat_map out_bytes os) = (28 * length os)%nat.
Proof.
  induction 1 as [|o os Ho Hos IH]; [done|]. cbn [flat_map length].
  rewrite length_app, IH, length_out_bytes by done. lia.
Qed.

Lemma peek_take_drop mem pos n bs :
  0 <= pos -> take n (drop (Z.to_nat pos) mem) = bs -> length bs = n -> (0 < n)%nat ->
  peek mem pos (Z.of_nat n) = Some bs.
Proof.
  intros Hp Ht Hl Hn. unfold peek.
  assert (Z.to_nat pos + n <= length mem)%nat.
  { rewrite <- Ht, length_take, length_drop in Hl. lia. }
  rewrite (proj2 (Z.leb_le 0 pos)), (proj2 (Z.leb_le 0 _)), (proj2 (Z.leb_le _ _)) by lia.
  cbn [andb]. by rewrite Nat2Z.id, Ht.
Qed.

Lemma drop_layout (a b c d e : list Z) k :
  drop (length a + (length b + (length c + (length d + k)))) (a ++ b ++ c ++ d ++ e)%list = drop k e.
Proof. by rewrite <- !drop_drop, !drop_app_length. Qed.

Lemma ReadOutput_stored db h v nin os i a val :
  Get db h = Some v -> tx_value v nin os -> h <> coinbase_b ->
  os !! i = Some (a, val) -> ReadOutput h (Z.of_nat i) db = Some (out_bytes (a, val)).
Proof.
  intros Hget Hv Hne Hi. unfold ReadOutput. rewrite bool_decide_eq_false_2 by done.
  rewrite Hget. cbn [from_option]. unfold id. destruct Hv as [(hd & ib & -> & Hhd & Hib) (Hn0 & Hn & Hm) Hos].
  pose proof (lookup_lt_Some _ _ _ Hi) as Hlt. cbn [fmap].
  change 4 with (Z.of_nat 4) at 1.
  rewrite (peek_take_drop _ 16 4 (le_bytes 4 nin)); [|lia| |apply length_le_bytes|lia].
  2:{ change (Z.to_nat 16) with 16%nat. rewrite <- Hhd, drop_app_length.
      apply take_app_length'. by rewrite length_le_bytes. }
  cbn [option_fmap option_map mbind option_bind fmap].
  assert (le_val (le_bytes 4 nin) = nin) as ->.
  { rewrite le_val_le_bytes. apply Z.mod_small. change (0x100 ^ Z.of_nat 4) with 0x1_0000_0000. lia. }
  rewrite !w32_small by (unfold is32; lia). change 28 with (Z.of_nat 28) at 3.
  apply peek_take_drop; [lia| | |lia].
  - replace (Z.to_nat _) with
      (length hd + (length (le_bytes 4 nin) + (length ib
         + (length (le_bytes 4 (Z.of_nat (length os))) + 28 * i))))%nat.
    + rewrite drop_layout. by apply flat_map_out_bytes.
    + rewrite !length_le_bytes, Hhd. lia.
  - apply length_out_bytes. by apply (Forall_lookup_1 _ _ _ _ Hos Hi).
Qed.

(** The layout determines the outputs. *)
Lemma tx_value_count v nin os :
  tx_value v nin os ->
  le_val (take 4 (drop 16 v)) = nin
  /\ le_val (take 4 (drop (Z.to_nat (20 + 28 * nin)) v)) = Z.of_nat (length os)
  /\ drop (Z.to_nat (24 + 28 * nin)) v = flat_map out_bytes os.
Proof.
  intros [(hd & ib & -> & Hhd & Hib) (Hn0 & Hn & Hm) Hos].
  assert (forall x, 0 <= x < 0x1_0000_0000 -> le_val (le_bytes 4 x) = x) as Hle.
  { intros x Hx. rewrite le_val_le_bytes. by apply Z.mod_small. }
  split; [|split].
  - rewrite <- Hhd, drop_app_length, take_app_length' by (by rewrite length_le_bytes). apply Hle. lia.
  - replace (Z.to_nat (20 + 28 * nin)) with (length hd + (length (le_bytes 4 nin) + (length ib + 0)))%nat
      by (rewrite length_le_bytes; lia).
    rewrite <- !drop_drop, !drop_app_length, drop_0, take_app_length' by (by rewrite length_le_bytes).
    apply Hle. lia.
  - replace (Z.to_nat (24 + 28 * nin)) with (length hd + (length (le_bytes 4 nin) + (length ib
      + (length (le_bytes 4 (Z.of_nat (length os))) + 0))))%nat by (rewrite !length_le_bytes; lia).
    by rewrite drop_layout, drop_0.
Qed.

Lemma out_bytes_inj o o' : out_ok o -> out_ok o' -> out_bytes o = out_bytes o' -> o = o'.
Proof.
  intros [[Hl _] Hv] [[Hl' _] Hv'] He. destruct o as [a x], o' as [a' x']. unfold out_bytes in He.
  cbn in *. apply app_inj_1 in He as [-> He]; [|congruence]. f_equal.
  rewrite <- (Z.mod_small x (0x100 ^ Z.of_nat 8)), <- (Z.mod_small x' (0x100 ^ Z.of_nat 8)) by done.
  by rewrite <- !le_val_le_bytes, He.
Qed.

Lemma flat_map_out_bytes_inj os os' :
  Forall out_ok os -> Forall out_ok os' -> length os = length os' ->
  flat_map out_bytes os = flat_map out_bytes os' -> os = os'.
Proof.
  intros Hos. revert os'. induction Hos as [|o os Ho Hos IH]; intros [|o' os'] Hos' Hlen He;
    try discriminate; [done|]. apply Forall_cons_1 in Hos' as [Ho' Hos']. cbn [flat_map] in He.
  apply app_inj_1 in He as [E He]; [|by rewrite !length_out_bytes].
  f_equal; [by apply out_bytes_inj|]. apply IH; [done|by injection Hlen|done].
Qed.

Lemma tx_value_unique v nin os nin' os' : tx_value v nin os -> tx_value v nin' os' -> os = os'.
Proof.
  intros H H'. destruct (tx_value_count _ _ _ H) as (E1 & E2 & E3).
  destruct (tx_value_count _ _ _ H') as (E1' & E2' & E3'). rewrite E1 in E1'. subst nin'.
  apply flat_map_out_bytes_inj; [apply H|apply H'|lia|congruence].
Qed.

(** ** What the balance statements do *)

Definition db_input (t : string) (d : DB) (o : list Z * Z) : DB :=
  if bool_decide (fst o = coinbase_h) then d
  else set_addressinfo (alter (add_input (snd o) t) (fst o) (addressinfo d)) d.
Definition db_output (t : string) (d : DB) (o : list Z * Z) : DB :=
  set_addressinfo (alter raise_maxbal (fst o) (upsert (fst o) (snd o) t (addressinfo d))) d.

Lemma hex_coinbase a : bytes a -> hex a = coinbase_s <-> a = coinbase_h.
Proof.
  intros Ha. split; [|by intros ->]. intros He. apply (f_equal unhex) in He.
  rewrite unhex_hex in He by done. by injection He.
Qed.

Lemma input_transaction_tables a v t conn :
  bytes a -> 0 <= v -> arg_text t = true ->
  tables (input_transaction_mysql a v t conn) = db_input t (tables conn) (a, v).
Proof.
  intros Ha Hv Ht. unfold input_transaction_mysql, db_input. cbn [fst snd].
  rewrite (bool_decide_ext _ _ (hex_coinbase a Ha)). case_bool_decide; [done|].
  match goal with |- context [mysql_query conn ?x] =>
    rewrite (query_tables conn x (AddInput v t a) eq_refl) by done end. done.
Qed.

Lemma output_transaction_tables a v t conn :
  bytes a -> 0 <= v -> arg_text t = true ->
  tables (output_transaction_mysql a v t conn) = db_output t (tables conn) (a, v).
Proof.
  intros Ha Hv Ht. unfold output_transaction_mysql, db_output. cbn [fst snd].
  rewrite (query_tables _ _ (RaiseMaxbal a) eq_refl) by done.
  match goal with |- context [mysql_query conn ?x] =>
    rewrite (query_tables conn x (UpsertOutput a v t) eq_refl) by done end. done.
Qed.

Definition sum_values (os : list (list Z * Z)) : Z := foldr (fun o s => snd o + s) 0 os.

Lemma w64_add_sum s v l : w64 (w64 (s + v) + l) = w64 (s + (v + l)).
Proof. unfold w64. rewrite Zplus_mod_idemp_l. f_equal. lia. Qed.

Lemma out_bytes_parts a v :
  length a = 20%nat -> is64 v ->
  take 20 (out_bytes (a, v)) = a /\ le_val (take 8 (drop 20 (out_bytes (a, v)))) = v.
Proof.
  intros Ha Hv. unfold out_bytes. cbn [fst snd]. rewrite take_app_length' by done.
  rewrite drop_app_length' by done. rewrite firstn_all2 by (rewrite length_le_bytes; lia).
  split; [done|]. rewrite le_val_le_bytes. by apply Z.mod_small.
Qed.

(** The input loop, when every input resolves to the output [pre] it spends. *)
Lemma process_ins_spec txins pres db t vc sum addrs conn :
  arg_text t = true -> is64 sum ->
  Forall2 (fun i o => ReadOutput (reverse (in_hash i)) (in_index i) db = Some (out_bytes o)
                      /\ out_ok o) txins pres ->
  exists conn', process_ins txins db t vc sum addrs conn
    = Some ((vc ++ flat_map out_bytes pres)%list, w64 (sum + sum_values pres),
            (addrs ++ map fst pres)%list, conn')
    /\ tables conn' = foldl (db_input t) (tables conn) pres.
Proof.
  intros Ht Hs Hl. revert vc sum addrs conn Hs.
  induction Hl as [|i [a v] l pres [Hr [[Hal Hab] Hv]] Hl IH]; intros vc sum addrs conn Hs.
  { exists conn. cbn. rewrite !app_nil_r, Z.add_0_r, w64_small by done. done. }
  cbn [process_ins]. rewrite Hr. cbn [mbind option_bind fst snd] in *.
  destruct (out_bytes_parts a v Hal Hv) as [-> ->].
  edestruct (IH (vc ++ out_bytes (a, v))%list (w64 (sum + v)) (addrs ++ [a])%list
    (input_transaction_mysql a v t conn) (is64_w64 _)) as (conn' & Hrun & Htab).
  exists conn'. rewrite Hrun. cbn [flat_map map sum_values foldr fst snd].
  rewrite w64_add_sum, <- !app_assoc. split; [done|]. rewrite Htab.
  rewrite input_transaction_tables; [done|done|apply Hv|done].
Qed.

Definition out_pair (o : Txout) : list Z * Z := (out_address o, out_val o).

Lemma process_outs_spec txouts t vc sum addrs conn :
  arg_text t = true -> is64 sum -> Forall (fun o => out_ok (out_pair o)) txouts ->
  exists conn', process_outs txouts t vc sum addrs conn
    = ((vc ++ flat_map out_bytes (map out_pair txouts))%list,
       w64 (sum + sum_values (map out_pair txouts)),
       (addrs ++ map out_address txouts)%list, conn')
    /\ tables conn' = foldl (db_output t) (tables conn) (map out_pair txouts).
Proof.
  intros Ht Hs Hl. revert vc sum addrs conn Hs.
  induction Hl as [|o l [[Hal Hab] Hv] Hl IH]; intros vc sum addrs conn Hs.
  { exists conn. cbn. rewrite !app_nil_r, Z.add_0_r, w64_small by done. done. }
  cbn [process_outs].
  edestruct (IH (vc ++ out_address o ++ le_bytes 8 (out_val o))%list (w64 (sum + out_val o))
    (addrs ++ [out_address o])%list (output_transaction_mysql (out_address o) (out_val o) t conn)
    (is64_w64 _)) as (conn' & Hrun & Htab).
  exists conn'. rewrite Hrun. cbn [flat_map map sum_values foldr fst snd out_pair].
  unfold out_bytes at 2. cbn [fst snd].
  rewrite w64_add_sum, <- !app_assoc. split; [done|]. rewrite Htab.
  rewrite output_transaction_tables; [done|done|apply Hv|done].
Qed.

(** ** Invariants of the balance columns *)

Definition row_ok (r : addr_row) : Prop :=
  a_bal r = a_outval r - a_inval r /\ a_bal r <= a_maxbal r.
Definition bal_inv (d : DB) : Prop := map_Forall (fun _ r => row_ok r) (addressinfo d).

Lemma db_input_bal t d o : 0 <= snd o -> bal_inv d -> bal_inv (db_input t d o).
Proof.
  intros Hv Hd. unfold db_input. case_bool_decide; [done|]. intros a r. cbn.
  destruct (decide (a = fst o)) as [->|]; [rewrite lookup_alter_eq|by rewrite lookup_alter_ne; eauto].
  rewrite fmap_Some. intros (r0 & Hr0 & ->). destruct (Hd _ _ Hr0) as [Hb Hm].
  split; cbn; lia.
Qed.

Lemma db_output_bal t d o : bal_inv d -> bal_inv (db_output t d o).
Proof.
  intros Hd a r. unfold db_output, upsert. cbn. destruct (decide (a = fst o)) as [->|].
  - rewrite lookup_alter_eq, lookup_insert_eq. cbn. intros [= <-].
    destruct (addressinfo d !! fst o) as [r0|] eqn:Hr0.
    + destruct (Hd _ _ Hr0) as [Hb Hm]. split; cbn; [lia|]. destruct (Z.ltb_spec (a_maxbal r0) (a_outval r0 + snd o - a_inval r0)); lia.
    + split; cbn; [lia|].
      destruct (Z.ltb_spec (a_maxbal default_addr) (snd o - a_inval default_addr)); lia.
  - rewrite lookup_alter_ne, lookup_insert_ne by done. apply Hd.
Qed.

Lemma entity_of_input t d o a : entity_of (db_input t d o) a = entity_of d a.
Proof.
  unfold db_input. case_bool_decide; [done|]. unfold entity_of. cbn.
  destruct (decide (a = fst o)) as [->|]; [rewrite lookup_alter_eq|by rewrite lookup_alter_ne].
  by destruct (addressinfo d !! fst o).
Qed.

Lemma entity_of_output t d o a :
  entity_of (db_output t d o) a
  = if bool_decide (a = fst o) then Some (default 0 (entity_of d a)) else entity_of d a.
Proof.
  unfold db_output, upsert, entity_of. cbn. case_bool_decide; subst.
  - rewrite lookup_alter_eq, lookup_insert_eq. cbn. destruct (addressinfo d !! fst o); [done|].
    cbn. by rewrite default_entity.
  - by rewrite lookup_alter_ne, lookup_insert_ne by done.
Qed.

(** The entity invariant only depends on which entity each address has. *)
Lemma ent_inv_ext cnt d d' :
  ent_inv cnt d -> entityinfo d' = entityinfo d ->
  (forall a e, entity_of d' a = Some e -> entity_of d a = Some e \/ (bytes a /\ e = 0)) ->
  (forall a e, entity_of d a = Some e -> e <> 0 -> entity_of d' a = Some e) -> ent_inv cnt d'.
Proof.
  intros Hi He Hback Hfwd. pose proof (inv_cnt _ _ Hi) as Hc. split; [|done|].
  - intros a r Hr. assert (entity_of d' a = Some (a_entity r)) as Ha by (unfold entity_of; by rewrite Hr).
    destruct (Hback _ _ Ha) as [Ho|[Hb ->]]; [by apply (inv_entity_of cnt d)|].
    split; [done|]. unfold is32 in Hc. lia.
  - intros e. rewrite He, (inv_ents _ _ Hi e). split; intros (H0 & a & Ha); split; try done; exists a.
    + by apply Hfwd.
    + destruct (Hback _ _ Ha) as [?|[_ ?]]; done.
Qed.

Lemma inputs_tables t d os cnt :
  Forall out_ok os -> ent_inv cnt d -> bal_inv d ->
  let d' := foldl (db_input t) d os in
  ent_inv cnt d' /\ bal_inv d' /\ (forall a, entity_of d' a = entity_of d a)
  /\ records d' = records d /\ entityinfo d' = entityinfo d.
Proof.
  intros Hos. revert d. induction Hos as [|o os [_ Hv] Hos IH]; intros d Hi Hb; [done|].
  cbn [foldl]. assert (entityinfo (db_input t d o) = entityinfo d /\ records (db_input t d o) = records d)
    as [E1 E2] by (unfold db_input; by case_bool_decide).
  destruct (IH (db_input t d o)) as (H1 & H2 & H3 & H4 & H5).
  - apply (ent_inv_ext cnt d); [done..| |]; intros a e; rewrite entity_of_input; auto.
  - apply db_input_bal; [apply Hv|done].
  - split_and!; [done|done| |congruence|congruence]. intros a. by rewrite H3, entity_of_input.
Qed.

Lemma outputs_tables t d os cnt :
  Forall out_ok os -> ent_inv cnt d -> bal_inv d ->
  let d' := foldl (db_output t) d os in
  ent_inv cnt d' /\ bal_inv d'
  /\ (forall a, entity_of d' a = if bool_decide (a ∈ map fst os)
                                 then Some (default 0 (entity_of d a)) else entity_of d a)
  /\ records d' = records d /\ entityinfo d' = entityinfo d.
Proof.
  intros Hos. revert d. induction Hos as [|o os [[_ Hab] Hv] Hos IH]; intros d Hi Hb; [done|].
  cbn [foldl]. destruct (IH (db_output t d o)) as (H1 & H2 & H3 & H4 & H5).
  - apply (ent_inv_ext cnt d); [done..| |]; intros a e; rewrite entity_of_output;
      case_bool_decide; subst; auto.
    + intros [= <-]. destruct (entity_of d (fst o)); cbn; auto.
    + by intros ->.
  - by apply db_output_bal.
  - split_and!; [done|done| |done|done]. intros a. rewrite H3, entity_of_output. cbn [map].
    destruct (bool_decide_reflect (a ∈ map fst os)) as [Hin|Hin];
      destruct (bool_decide_reflect (a = fst o)) as [He|He];
      destruct (bool_decide_reflect (a ∈ fst o :: map fst os)) as [Hx|Hx];
      rewrite elem_of_cons in Hx; try tauto; by destruct (entity_of d a).
Qed.

(** ** The invariant of the program and the processing of a transaction *)

(** Between transactions: the entity tables are consistent and every address has
    an entity, every balance is outputs minus inputs and at most the recorded
    maximum, the changed entities are 32-bit numbers, and every stored transaction has the layout that [ReadOutput]
    expects, its output addresses being in the table. *)
Record inv (st : state) : Prop := {
  inv_ent : ent_inv (entitycnt (st_g st)) (tables (st_conn st));
  inv_assigned a : entity_of (tables (st_conn st)) a <> Some 0;
  inv_bal : bal_inv (tables (st_conn st));
  inv_changes : Forall is32 (entitychange_v (st_g st));
  inv_db h v : Get (st_db st) h = Some v ->
    exists nin os, tx_value v nin os
      /\ Forall (fun o => is_Some (entity_of (tables (st_conn st)) (fst o))) os }.

(** A transaction as the parser builds it. *)
Record tx_ok (tx : Transaction) : Prop := {
  ok_in : in_count tx = Z.of_nat (length (ins tx));
  ok_out : out_count tx = Z.of_nat (length (outs tx));
  ok_size : 24 + 28 * in_count tx + 28 * out_count tx < 0x1_0000_0000;
  ok_outs : Forall (fun o => out_ok (out_pair o)) (outs tx);
  ok_time : is32 (txtime tx);
  ok_hash : bytes (tx_curhash tx);
  ok_nums : 0 <= tx_blocknumber tx /\ 0 <= txcounter tx /\ 0 <= tx_length tx }.

(** The output [o] that an input spends: the block reward, or an output of a
    stored transaction. *)
Definition reward : list Z * Z := (coinbase_h, 0).
Definition spends (st : state) (i : Txin) (o : list Z * Z) : Prop :=
  reverse (in_hash i) <> coinbase_b
  /\ exists v nin os k, Get (st_db st) (reverse (in_hash i)) = Some v /\ tx_value v nin os
     /\ in_index i = Z.of_nat k /\ os !! k = Some o.
Definition resolves (st : state) (tx : Transaction) (pres : list (list Z * Z)) : Prop :=
  (exists i, ins tx = [i] /\ reverse (in_hash i) = coinbase_b /\ pres = [reward])
  \/ (pres <> [] /\ Forall2 (spends st) (ins tx) pres).

Lemma resolves_read st tx pres :
  resolves st tx pres ->
  Forall2 (fun i o => ReadOutput (reverse (in_hash i)) (in_index i) (st_db st) = Some (out_bytes o)
                      /\ out_ok o) (ins tx) pres.
Proof.
  intros [(i & -> & Hi & ->)|[_ Hs]].
  - constructor; [|constructor]. split; [unfold ReadOutput; by rewrite bool_decide_eq_true_2|].
    split; [|unfold is64; cbn; lia]. split; [done|]. repeat constructor; unfold is8; lia.
  - eapply Forall2_impl; [exact Hs|]. intros i o (Hne & v & nin & os & k & Hg & Hv & -> & Hk).
    destruct o as [a x]. split; [by eapply ReadOutput_stored|].
    eapply (Forall_lookup_1 _ _ _ _ (tv_outs _ _ _ Hv) Hk).
Qed.

Lemma resolves_ok st tx pres :
  resolves st tx pres -> Forall out_ok pres /\ length pres = length (ins tx).
Proof.
  intros Hres%resolves_read. split; [|symmetry; by eapply Forall2_length].
  by induction Hres as [|????[_ ?]]; constructor.
Qed.

(** The addresses an input list spends from are in the table. *)
Lemma spends_known st txins pres :
  inv st -> Forall2 (spends st) txins pres ->
  Forall (fun a => is_Some (entity_of (tables (st_conn st)) a)) (map fst pres).
Proof.
  intros Hi. induction 1 as [|i o l pres (Hne & v & nin & os & k & Hg & Hv & _ & Hk) Hl IH]; [constructor|].
  constructor; [|exact IH]. destruct (inv_db _ Hi _ _ Hg) as (nin' & os' & Hv' & Hall).
  rewrite (tx_value_unique _ _ _ _ _ Hv' Hv) in Hall. by apply (Forall_lookup_1 _ _ _ _ Hall Hk).
Qed.

(** The record of the transaction. *)
Definition txinfo_row (tx : Transaction) (insum outsum : Z) : tx_row :=
  {| t_hash := reverse (tx_curhash tx); t_txcounter := txcounter tx; t_blknum := tx_blocknumber tx;
     t_time := getTimeString (txtime tx); t_rawlength := tx_length tx;
     t_fee := Z.max insum outsum - outsum; t_incounter := in_count tx;
     t_invalue := Z.max insum outsum; t_outcounter := out_count tx; t_outvalue := outsum |}.

Lemma Transaction2MySQL_tables tx insum outsum conn :
  tx_ok tx -> is64 insum -> is64 outsum ->
  Forall (fun r => t_hash r <> reverse (tx_curhash tx)) (txinfo (tables conn)) ->
  tables (Transaction2MySQL tx insum outsum (getTimeString (txtime tx)) conn)
  = set_txinfo (txinfo (tables conn) ++ [txinfo_row tx insum outsum])%list (tables conn).
Proof.
  intros Hok Hin Hout Hfresh. unfold is64 in *.
  assert (forall x y, (if x <? y then y else x) = Z.max x y) as Hmax.
  { intros x y. destruct (Z.ltb_spec x y); lia. }
  assert (w64 (Z.max insum outsum - outsum) = Z.max insum outsum - outsum) as Hw.
  { apply w64_small. unfold is64. lia. }
  unfold Transaction2MySQL. rewrite Hmax, Hw.
  match goal with |- context [mysql_query conn ?x] =>
    rewrite (query_tables conn x (InsertTx (txinfo_row tx insum outsum)) eq_refl) end; [done|].
  split; [|done]. split; [|split]; cbn.
  - unfold bytes. rewrite Forall_reverse. apply (ok_hash _ Hok).
  - apply arg_getTimeString, (ok_time _ Hok).
  - pose proof (ok_nums _ Hok). pose proof (ok_in _ Hok). pose proof (ok_out _ Hok).
    repeat constructor; lia.
Qed.

(** *** The ledger of balances

    The abstract effect of a transaction: a spent output is taken from its
    address (the block reward from nowhere), an output is added to its address. *)
Definition ledger_in (b : gmap (list Z) Z) (o : list Z * Z) : gmap (list Z) Z :=
  if bool_decide (fst o = coinbase_h) then b else alter (fun x => x - snd o) (fst o) b.
Definition ledger_out (b : gmap (list Z) Z) (o : list Z * Z) : gmap (list Z) Z :=
  <[fst o := default 0 (b !! fst o) + snd o]> b.
Definition balances (d : DB) : gmap (list Z) Z := a_bal <$> addressinfo d.

Lemma balances_cols d d' :
  with_entity 0 <$> addressinfo d' = with_entity 0 <$> addressinfo d -> balances d' = balances d.
Proof.
  intros H. apply (f_equal (fmap a_bal)) in H. rewrite <- !map_fmap_compose in H. exact H.
Qed.

Lemma bal_inv_cols d d' :
  with_entity 0 <$> addressinfo d' = with_entity 0 <$> addressinfo d -> bal_inv d -> bal_inv d'.
Proof.
  intros H Hd a r Hr. apply (f_equal (fun m => m !! a)) in H. rewrite !lookup_fmap, Hr in H.
  destruct (addressinfo d !! a) as [r0|] eqn:Hr0; [|done]. specialize (Hd a r0 Hr0).
  injection H as ? ? ? ? ? ? ? ?. unfold row_ok in *. congruence.
Qed.

Lemma known_cols d d' a :
  with_entity 0 <$> addressinfo d' = with_entity 0 <$> addressinfo d ->
  is_Some (entity_of d' a) <-> is_Some (entity_of d a).
Proof.
  intros H. apply (f_equal (fun m => m !! a)) in H. rewrite !lookup_fmap in H.
  unfold entity_of. rewrite !fmap_is_Some.
  destruct (addressinfo d !! a), (addressinfo d' !! a); cbn in H; try discriminate H; split; by intros.
Qed.

Lemma balances_input t d o : bal_inv d -> balances (db_input t d o) = ledger_in (balances d) o.
Proof.
  intros Hd. unfold db_input, ledger_in. case_bool_decide; [done|]. unfold balances. cbn.
  apply map_eq. intros a. rewrite lookup_fmap. destruct (decide (a = fst o)) as [->|].
  - rewrite !lookup_alter_eq, lookup_fmap. destruct (addressinfo d !! fst o) as [r|] eqn:Hr; [|done].
    destruct (Hd _ _ Hr) as [Hb _]. cbn. f_equal. lia.
  - by rewrite !lookup_alter_ne, lookup_fmap by done.
Qed.

Lemma balances_output t d o : bal_inv d -> balances (db_output t d o) = ledger_out (balances d) o.
Proof.
  intros Hd. unfold db_output, ledger_out, upsert, balances. cbn.
  apply map_eq. intros a. rewrite lookup_fmap. destruct (decide (a = fst o)) as [->|].
  - rewrite lookup_alter_eq, !lookup_insert_eq, lookup_fmap. cbn.
    destruct (addressinfo d !! fst o) as [r|] eqn:Hr; cbn.
    + destruct (Hd _ _ Hr) as [Hb _]. f_equal. lia.
    + rewrite default_inval. f_equal. lia.
  - by rewrite lookup_alter_ne, !lookup_insert_ne, lookup_fmap by done.
Qed.

Lemma balances_inputs t d os :
  Forall out_ok os -> bal_inv d ->
  balances (foldl (db_input t) d os) = foldl ledger_in (balances d) os.
Proof.
  intros Hos. revert d. induction Hos as [|o os [_ Hv] Hos IH]; intros d Hd; [done|]. cbn [foldl].
  rewrite IH, balances_input by (done || by apply db_input_bal; [apply Hv|]). done.
Qed.

Lemma balances_outputs t d os :
  bal_inv d -> balances (foldl (db_output t) d os) = foldl ledger_out (balances d) os.
Proof.
  revert d. induction os as [|o os IH]; intros d Hd; [done|]. cbn [foldl].
  rewrite IH, balances_output by (done || by apply db_output_bal). done.
Qed.

(** *** One transaction *)

(** What one call of [TransactionProcess] did: the abstract effect on the store,
    the ledger and the list of transactions. *)
Record tx_effect (tx : Transaction) (pres : list (list Z * Z)) (st st' : state) : Prop := {
  eff_store : exists v, tx_value v (in_count tx) (map out_pair (outs tx))
                /\ st_db st' = Put (st_db st) (reverse (tx_curhash tx)) v;
  eff_ledger : balances (tables (st_conn st'))
     = foldl ledger_out (foldl ledger_in (balances (tables (st_conn st))) pres)
         (map out_pair (outs tx));
  eff_txinfo : txinfo (tables (st_conn st'))
     = (txinfo (tables (st_conn st))
        ++ [txinfo_row tx (w64 (sum_values pres)) (w64 (sum_values (map out_pair (outs tx))))])%list;
  eff_blkinfo : blkinfo (tables (st_conn st')) = blkinfo (tables (st_conn st));
  eff_known a : is_Some (entity_of (tables (st_conn st')) a)
     <-> is_Some (entity_of (tables (st_conn st)) a) \/ a ∈ map out_address (outs tx);
  eff_cnt : entitycnt (st_g st) <= entitycnt (st_g st')
            <= entitycnt (st_g st) + Z.of_nat (length (outs tx)) }.

(** The stored value has the announced length and layout. *)
Lemma stored_value tx pres hd :
  tx_ok tx -> length hd = 16%nat -> length pres = length (ins tx) -> Forall out_ok pres ->
  let v := ((((hd ++ le_bytes 4 (in_count tx)) ++ flat_map out_bytes pres)
             ++ le_bytes 4 (out_count tx)) ++ flat_map out_bytes (map out_pair (outs tx)))%list in
  tx_value v (in_count tx) (map out_pair (outs tx))
  /\ Z.of_nat (length v)
     = w32 (4 + 4 + 4 + 4 + 4 + in_count tx * (20 + 8) + 4 + out_count tx * (20 + 8)).
Proof.
  intros Hok Hhd Hlen Hpres. pose proof (ok_in _ Hok) as Ei. pose proof (ok_out _ Hok) as Eo.
  pose proof (ok_size _ Hok) as Hsz.
  assert (Forall out_ok (map out_pair (outs tx))) as Houts by apply Forall_map, (ok_outs _ Hok).
  pose proof (length_flat_out_bytes pres Hpres) as L1.
  pose proof (length_flat_out_bytes _ Houts) as L2. rewrite length_map in L2. cbn zeta. split.
  - split; [|rewrite length_map; lia|done].
    exists hd, (flat_map out_bytes pres). rewrite length_map, <- Eo, <- !app_assoc.
    split; [done|]. split; [done|]. lia.
  - rewrite w32_small by (unfold is32; lia).
    rewrite !length_app, !length_le_bytes, L1, L2. lia.
Qed.

(** The facts about the tables that the two halves of [TransactionProcess] hand
    on. *)
Record tables_ok (cnt : Z) (d : DB) : Prop := {
  to_ent : ent_inv cnt d;
  to_assigned a : entity_of d a <> Some 0;
  to_bal : bal_inv d }.

Lemma inputs_half st tx pres vc :
  inv st -> tx_ok tx -> resolves st tx pres ->
  exists conn1 g2 conn2,
    process_ins (ins tx) (st_db st) (getTimeString (txtime tx)) vc 0 [] (st_conn st)
    = Some ((vc ++ flat_map out_bytes pres)%list, w64 (sum_values pres), map fst pres, conn1)
    /\ input_entity_mysql (map fst pres) (st_g st) conn1 = Some (g2, conn2)
    /\ entitycnt g2 = entitycnt (st_g st) /\ tables_ok (entitycnt g2) (tables conn2)
    /\ balances (tables conn2) = foldl ledger_in (balances (tables (st_conn st))) pres
    /\ records (tables conn2) = records (tables (st_conn st))
    /\ (forall a, is_Some (entity_of (tables conn2) a)
                  <-> is_Some (entity_of (tables (st_conn st)) a))
    /\ Forall is32 (entitychange_v g2).
Proof.
  intros Hi Hok Hres. pose proof (resolves_read _ _ _ Hres) as Hread.
  pose proof (arg_getTimeString _ (ok_time _ Hok)) as Ht. set (t := getTimeString (txtime tx)) in *.
  destruct (resolves_ok _ _ _ Hres) as [Hpres _].
  destruct (process_ins_spec _ _ _ t vc 0 [] (st_conn st) Ht ltac:(unfold is64; lia) Hread)
    as (conn1 & Hrun & Ht1).
  destruct (inputs_tables t _ _ _ Hpres (inv_ent _ Hi) (inv_bal _ Hi)) as (E1 & E2 & E3 & E4 & _).
  rewrite <- Ht1 in *.
  destruct (input_entity_total (map fst pres) (st_g st) conn1 E1) as
    (g2 & conn2 & Hrun2 & Hc2 & Hi2 & Hz2 & Hcols & Htx & Hch).
  - destruct Hres as [(i & _ & _ & ->)|[Hne _]]; [done|]. by destruct pres.
  - destruct Hres as [(i & _ & _ & ->)|[Hne Hsp]]; [by left|]. right.
    eapply Forall_impl; [exact (spends_known _ _ _ Hi Hsp)|]. intros a. cbn. by rewrite E3.
  - exists conn1, g2, conn2. rewrite Hrun, Z.add_0_l. split_and!; try done.
    + split; [done| |by eapply bal_inv_cols].
      apply Hz2. intros a. rewrite E3. apply (inv_assigned _ Hi).
    + rewrite (balances_cols _ _ Hcols), Ht1. apply balances_inputs; [done|apply (inv_bal _ Hi)].
    + congruence.
    + intros a. by rewrite (known_cols _ _ a Hcols), E3.
    + apply Hch, (inv_changes _ Hi).
Qed.

Lemma outputs_half tx g conn vc :
  tx_ok tx -> tables_ok (entitycnt g) (tables conn) -> Forall is32 (entitychange_v g) ->
  entitycnt g + Z.of_nat (length (outs tx)) < 0x1_0000_0000 ->
  exists conn1 g2 conn2,
    process_outs (outs tx) (getTimeString (txtime tx)) vc 0 [] conn
    = ((vc ++ flat_map out_bytes (map out_pair (outs tx)))%list,
       w64 (sum_values (map out_pair (outs tx))), map out_address (outs tx), conn1)
    /\ output_entity_mysql (map out_address (outs tx)) g conn1 = Some (g2, conn2)
    /\ entitycnt g <= entitycnt g2 <= entitycnt g + Z.of_nat (length (outs tx))
    /\ tables_ok (entitycnt g2) (tables conn2)
    /\ balances (tables conn2) = foldl ledger_out (balances (tables conn)) (map out_pair (outs tx))
    /\ records (tables conn2) = records (tables conn)
    /\ (forall a, is_Some (entity_of (tables conn2) a)
                  <-> is_Some (entity_of (tables conn) a) \/ a ∈ map out_address (outs tx))
    /\ Forall is32 (entitychange_v g2).
Proof.
  intros Hok [Hent Hass Hbal] Hch Hcnt. pose proof (arg_getTimeString _ (ok_time _ Hok)) as Ht.
  set (t := getTimeString (txtime tx)) in *.
  destruct (process_outs_spec (outs tx) t vc 0 [] conn Ht ltac:(unfold is64; lia) (ok_outs _ Hok))
    as (conn1 & Hrun & Ht1).
  assert (Forall out_ok (map out_pair (outs tx))) as Houts by apply Forall_map, (ok_outs _ Hok).
  destruct (outputs_tables t _ _ _ Houts Hent Hbal) as (E1 & E2 & E3 & E4 & _). rewrite <- Ht1 in *.
  assert (map fst (map out_pair (outs tx)) = map out_address (outs tx)) as Hmap by apply map_map.
  rewrite Hmap in E3.
  destruct (output_entity_spec (map out_address (outs tx)) g conn1 E1)
    as (g2 & conn2 & Hrun2 & Hi2 & Hext & Hc2 & Hnz).
  - apply Forall_forall. intros a Ha. rewrite E3, bool_decide_eq_true_2 by done. by eexists.
  - rewrite length_map. lia.
  - rewrite length_map in Hc2. exists conn1, g2, conn2. rewrite Hrun, Z.add_0_l.
    pose proof (ext_cols _ _ _ _ Hext) as Hcols. split_and!; try done.
    + apply (ext_cnt _ _ _ _ Hext).
    + split; [done| |by eapply bal_inv_cols]. intros a Ha.
      destruct (bool_decide_reflect (a ∈ map out_address (outs tx))) as [Hin|Hin].
      * rewrite Forall_forall in Hnz. destruct (Hnz a Hin) as (e & He & ?). congruence.
      * pose proof (E3 a) as Ea. rewrite bool_decide_eq_false_2 in Ea by done.
        assert (is_Some (entity_of (tables conn1) a)) as [e He] by (apply (known_cols _ _ a Hcols); by eexists).
        pose proof (Hass a). assert (e <> 0) by congruence.
        pose proof (ext_keep _ _ _ _ Hext a e He). naive_solver.
    + rewrite (balances_cols _ _ Hcols), Ht1. by apply balances_outputs.
    + rewrite (ext_tx _ _ _ _ Hext). done.
    + intros a. rewrite (known_cols _ _ a Hcols), E3. case_bool_decide; [|naive_solver].
      split; [by right|by eexists].
    + apply (output_entity_changes _ _ _ _ _ Hrun2); [apply (inv_cnt _ _ Hent)|done].
Qed.

Lemma ent_inv_txinfo cnt l d : ent_inv cnt d -> ent_inv cnt (set_txinfo l d).
Proof. intros Hi. apply (ent_inv_ext cnt d); [done|done|by left|done]. Qed.

(** The invariant after a transaction whose effect on the tables is known. *)
Lemma inv_after tx st g conn v :
  inv st -> tables_ok (entitycnt g) (tables conn) -> Forall is32 (entitychange_v g) ->
  tx_value v (in_count tx) (map out_pair (outs tx)) ->
  (forall a, is_Some (entity_of (tables conn) a)
     <-> is_Some (entity_of (tables (st_conn st)) a) \/ a ∈ map out_address (outs tx)) ->
  inv {| st_g := g; st_conn := conn; st_db := Put (st_db st) (reverse (tx_curhash tx)) v |}.
Proof.
  intros Hi [He Ha Hb] Hch Hv Hk. split; cbn; try done. intros h v' Hget.
  rewrite Get_Put in Hget. case_bool_decide.
  - injection Hget as <-. exists (in_count tx), (map out_pair (outs tx)). split; [done|].
    apply Forall_map. rewrite Forall_forall. intros o Ho. apply Hk. right. cbn.
    by apply list_elem_of_fmap_2.
  - destruct (inv_db _ Hi h v' Hget) as (nin & os & Hv' & Hos). exists nin, os. split; [done|].
    eapply Forall_impl; [exact Hos|]. intros o Ho. apply Hk. by left.
Qed.

Lemma TransactionProcess_spec st tx pres :
  inv st -> tx_ok tx -> resolves st tx pres ->
  Forall (fun r => t_hash r <> reverse (tx_curhash tx)) (txinfo (tables (st_conn st))) ->
  entitycnt (st_g st) + Z.of_nat (length (outs tx)) < 0x1_0000_0000 ->
  exists st', TransactionProcess tx st = Some st' /\ inv st' /\ tx_effect tx pres st st'.
Proof.
  intros Hi Hok Hres Hfresh Hcnt. unfold TransactionProcess.
  match goal with |- context [process_ins _ _ _ (?hd ++ le_bytes 4 (in_count tx))%list] =>
    set (h := hd) end.
  assert (length h = 16%nat) as Hh by (subst h; by rewrite !length_app, !length_le_bytes).
  destruct (inputs_half st tx pres (h ++ le_bytes 4 (in_count tx)) Hi Hok Hres)
    as (conn1 & g2 & conn2 & -> & Hin & Hc2 & Hok2 & Hb2 & Htx2 & Hk2 & Hch2).
  cbn [mbind option_bind]. rewrite Hin. cbn [mbind option_bind].
  destruct (outputs_half tx g2 conn2 (((h ++ le_bytes 4 (in_count tx)) ++ flat_map out_bytes pres)
    ++ le_bytes 4 (out_count tx))%list Hok Hok2 Hch2 ltac:(lia))
    as (conn3 & g4 & conn4 & -> & Hout & Hc4 & Hok4 & Hb4 & Htx4 & Hk4 & Hch4).
  rewrite Hout. cbn [mbind option_bind].
  destruct (resolves_ok _ _ _ Hres) as [Hpres Hlen].
  destruct (stored_value tx pres h Hok Hh Hlen Hpres) as [Hv Hl].
  rewrite Hl, Z.eqb_refl. eexists. split; [reflexivity|].
  assert (txinfo (tables conn4) = txinfo (tables (st_conn st))
          /\ blkinfo (tables conn4) = blkinfo (tables (st_conn st))) as [Ht4 Hb4'].
  { rewrite Htx2 in Htx4. by injection Htx4. }
  assert (Forall (fun r => t_hash r <> reverse (tx_curhash tx)) (txinfo (tables conn4))) as Hf4
    by (by rewrite Ht4).
  pose proof (Transaction2MySQL_tables tx (w64 (sum_values pres))
    (w64 (sum_values (map out_pair (outs tx)))) conn4 Hok (is64_w64 _) (is64_w64 _) Hf4) as Htab.
  assert (forall a, is_Some (entity_of (tables conn4) a)
     <-> is_Some (entity_of (tables (st_conn st)) a) \/ a ∈ map out_address (outs tx)) as Hk.
  { intros a. by rewrite Hk4, Hk2. }
  split.
  - apply inv_after; [done| |done|done|]; rewrite Htab; [|exact Hk].
    destruct Hok4 as [He4 Ha4 Hbal4]. split; [by apply ent_inv_txinfo|exact Ha4|exact Hbal4].
  - split; cbn [st_db st_conn st_g]; [eauto| | | | |lia]; rewrite Htab; cbn.
    + by rewrite <- Hb2, <- Hb4.
    + by rewrite Ht4.
    + exact Hb4'.
    + exact Hk.
Qed.

(** ** Results *)

(** C3: processing a transaction always succeeds and keeps the invariant, when
    the transaction is well formed, its inputs name the block reward or outputs
    of transactions processed before, its hash is new and entity numbers are
    left. *)
Theorem TransactionProcess_inv st tx pres :
  inv st -> tx_ok tx -> resolves st tx pres ->
  Forall (fun r => t_hash r <> reverse (tx_curhash tx)) (txinfo (tables (st_conn st))) ->
  entitycnt (st_g st) + Z.of_nat (length (outs tx)) < 0x1_0000_0000 ->
  exists st', TransactionProcess tx st = Some st' /\ inv st'.
Proof.
  intros Hi Hok Hres Hf Hc.
  destruct (TransactionProcess_spec st tx pres Hi Hok Hres Hf Hc) as (st' & Hr & Hi' & _). eauto.
Qed.

(** What is stored for a transaction is what a later input finds: after
    [TransactionProcess], [ReadOutput] of the transaction's hash and an output
    number returns the address and value of that output, and the outputs of
    every other transaction read as before. *)
Theorem TransactionProcess_outputs st tx pres k o h index :
  inv st -> tx_ok tx -> resolves st tx pres ->
  Forall (fun r => t_hash r <> reverse (tx_curhash tx)) (txinfo (tables (st_conn st))) ->
  entitycnt (st_g st) + Z.of_nat (length (outs tx)) < 0x1_0000_0000 ->
  reverse (tx_curhash tx) <> coinbase_b -> outs tx !! k = Some o -> h <> reverse (tx_curhash tx) ->
  exists st', TransactionProcess tx st = Some st'
    /\ ReadOutput (reverse (tx_curhash tx)) (Z.of_nat k) (st_db st')
       = Some (out_address o ++ le_bytes 8 (out_val o))%list
    /\ ReadOutput h index (st_db st') = ReadOutput h index (st_db st).
Proof.
  intros Hi Hok Hres Hf Hc Hne Hk Hh.
  destruct (TransactionProcess_spec st tx pres Hi Hok Hres Hf Hc) as (st' & Hr & _ & Heff).
  exists st'. split; [done|]. destruct (eff_store _ _ _ _ Heff) as (v & Hv & ->). split.
  - apply (ReadOutput_stored _ _ v (in_count tx) (map out_pair (outs tx)) k
      (out_address o) (out_val o)); [|done..|].
    + rewrite Get_Put. by rewrite bool_decide_eq_true_2.
    + change (map ?f ?l) with (f <$> l). by rewrite list_lookup_fmap, Hk.
  - unfold ReadOutput. rewrite Get_Put. by rewrite (bool_decide_eq_false_2 (h = reverse (tx_curhash tx))).
Qed.

(** C4: the balances follow the ledger: each spent output is taken from the
    balance of its address (the block reward from none), then each output is
    added to the balance of its address, which enters the table if it is new. *)
Theorem TransactionProcess_ledger st tx pres :
  inv st -> tx_ok tx -> resolves st tx pres ->
  Forall (fun r => t_hash r <> reverse (tx_curhash tx)) (txinfo (tables (st_conn st))) ->
  entitycnt (st_g st) + Z.of_nat (length (outs tx)) < 0x1_0000_0000 ->
  exists st', TransactionProcess tx st = Some st'
    /\ balances (tables (st_conn st'))
       = foldl ledger_out (foldl ledger_in (balances (tables (st_conn st))) pres)
           (map out_pair (outs tx)).
Proof.
  intros Hi Hok Hres Hf Hc.
  destruct (TransactionProcess_spec st tx pres Hi Hok Hres Hf Hc) as (st' & Hr & _ & Heff).
  exists st'. split; [done|]. apply Heff.
Qed.

(** The record of a transaction: it is appended to [txinfo] with the sums of
    its inputs and outputs, where, when the outputs exceed the inputs (a block
    reward), the input sum is recorded as the output sum; so the fee is the
    difference of the sums, and never negative. *)
Theorem TransactionProcess_fee st tx pres :
  inv st -> tx_ok tx -> resolves st tx pres ->
  Forall (fun r => t_hash r <> reverse (tx_curhash tx)) (txinfo (tables (st_conn st))) ->
  entitycnt (st_g st) + Z.of_nat (length (outs tx)) < 0x1_0000_0000 ->
  is64 (sum_values pres) -> is64 (sum_values (map out_pair (outs tx))) ->
  exists st' row, TransactionProcess tx st = Some st'
    /\ txinfo (tables (st_conn st')) = (txinfo (tables (st_conn st)) ++ [row])%list
    /\ t_hash row = reverse (tx_curhash tx)
    /\ t_outvalue row = sum_values (map out_pair (outs tx))
    /\ t_invalue row = Z.max (sum_values pres) (t_outvalue row)
    /\ t_fee row = t_invalue row - t_outvalue row /\ 0 <= t_fee row.
Proof.
  intros Hi Hok Hres Hf Hc Hs1 Hs2.
  destruct (TransactionProcess_spec st tx pres Hi Hok Hres Hf Hc) as (st' & Hr & _ & Heff).
  exists st'. eexists. split; [done|]. rewrite (eff_txinfo _ _ _ _ Heff).
  rewrite !w64_small by done. split; [reflexivity|]. cbn. split_and!; [done..|lia].
Qed.
End TxStore.

(** ** The results on a concrete chain: a block reward and a payment from it *)

Definition st0 : @state schema0 server mem_leveldb :=
  {| st_g := {| entitychange_v := []; entitycnt := 0 |}; st_conn := (empty_db : @MYSQL schema0 server);
     st_db := (∅ : @DBptr mem_leveldb) |}.

Definition reward_tx : Transaction :=
  {| ver := 1; in_count := 1;
     ins := [{| in_hash := coinbase_b; in_index := 0xffff_ffff; in_script_length := 0; in_script := [];
                in_seq := 0 |}];
     out_count := 2;
     outs := [{| out_val := 40; out_script_length := 0; out_script := []; out_address := addr_n 1 |};
              {| out_val := 10; out_script_length := 0; out_script := []; out_address := addr_n 2 |}];
     lock_time := 0; tx_blocknumber := 0; txnumber := 0; txcounter := 0; tx_length := 100;
     txtime := 1231006505; tx_curhash := replicate 32 7 |}.

Lemma st0_inv : inv st0.
Proof.
  split; cbn.
  - split; cbn.
    + intros a r Hr. by rewrite lookup_empty in Hr.
    + unfold is32. lia.
    + intros e. rewrite lookup_empty. split; [by intros [? ?]|]. intros (_ & a & Ha).
      unfold entity_of in Ha. cbn in Ha. by rewrite lookup_empty in Ha.
  - intros a. unfold entity_of. cbn. by rewrite lookup_empty.
  - intros a r. cbn. by rewrite lookup_empty.
  - constructor.
  - intros h v. by rewrite lookup_empty.
Qed.

Lemma reward_tx_ok : tx_ok reward_tx.
Proof.
  split; cbn.
  - reflexivity.
  - reflexivity.
  - lia.
  - assert (forall k, is8 k -> address_ok (addr_n k)) as Ha by (intros; by split; [|apply bytes_addr_n]).
    repeat constructor; unfold is64; cbn; try lia; apply Ha; unfold is8; lia.
  - unfold is32. lia.
  - apply (Forall_replicate is8 32 7). unfold is8. lia.
  - lia.
Qed.

Lemma reward_tx_resolves : resolves st0 reward_tx [reward].
Proof. left. eexists. done. Qed.

Lemma TransactionProcess_inv_witness :
  exists st', TransactionProcess reward_tx st0 = Some st' /\ inv st'.
Proof.
  apply (TransactionProcess_inv st0 reward_tx [reward]).
  - exact st0_inv.
  - exact reward_tx_ok.
  - exact reward_tx_resolves.
  - constructor.
  - cbn. lia.
Defined.

Lemma TransactionProcess_outputs_witness :
  exists st', TransactionProcess reward_tx st0 = Some st'
    /\ ReadOutput (replicate 32 7) 1 (st_db st') = Some (addr_n 2 ++ le_bytes 8 10)%list.
Proof.
  destruct (TransactionProcess_outputs st0 reward_tx [reward] 1
    {| out_val := 10; out_script_length := 0; out_script := []; out_address := addr_n 2 |} [] 0)
    as (st' & Hr & Ho & _).
  - exact st0_inv.
  - exact reward_tx_ok.
  - exact reward_tx_resolves.
  - constructor.
  - cbn. lia.
  - discriminate.
  - reflexivity.
  - discriminate.
  - exists st'. split; [exact Hr|exact Ho].
Defined.

Lemma TransactionProcess_ledger_witness :
  exists st', TransactionProcess reward_tx st0 = Some st'
    /\ balances (tables (st_conn st')) = <[addr_n 2 := 10]> (<[addr_n 1 := 40]> ∅).
Proof.
  destruct (TransactionProcess_ledger st0 reward_tx [reward]) as (st' & Hr & Hb).
  - exact st0_inv.
  - exact reward_tx_ok.
  - exact reward_tx_resolves.
  - constructor.
  - cbn. lia.
  - exists st'. split; [exact Hr|]. rewrite Hb. reflexivity.
Defined.

Lemma TransactionProcess_fee_witness :
  exists st' row, TransactionProcess reward_tx st0 = Some st'
    /\ txinfo (tables (st_conn st')) = [row] /\ t_outvalue row = 50 /\ t_fee row = 0.
Proof.
  destruct (TransactionProcess_fee st0 reward_tx [reward])
    as (st' & row & Hr & Htx & _ & Hout & Hin & Hfee & _).
  - exact st0_inv.
  - exact reward_tx_ok.
  - exact reward_tx_resolves.
  - constructor.
  - cbn. lia.
  - unfold is64. cbn. lia.
  - unfold is64. cbn. lia.
  - cbn in Hout. exists st', row. split; [exact Hr|]. split; [exact Htx|].
    split; [exact Hout|]. rewrite Hfee, Hin, Hout. reflexivity.
Defined.
