(* ===== verification/Unzip.v ===== *)
(** * Reading the block files: src/BitcoinAnalysis/unzipBlocks.h and
    BlockProcess.h

    [unzipBlocks] walks over the block files from the position that the last run
    saved, hands every transaction to [TransactionProcess] and every block to
    [BlockProcess], stops at the first block after the stop time and saves its
    position for the next run.  The loops are defined for any handlers, with
    [S] the state they act on; [unzipBlocks] applies them to the program's.

    Not modelled: console output and the lines of the log file other than those
    for undecodable scripts.  The files that hold the parameters are the subject
    of Console.v.  [None] is a read outside a buffer, a counter or position that
    leaves the range of its [int], or a handler that fails. *)
From Stdlib Require Import String.
From stdpp Require Import base gmap strings numbers option list.
From S2P Require Import Prelude Ripemd160 Sha256 Block TxParse Sql SqlServer Calendar Entity TxStore.
Local Open Scope string_scope.
Open Scope Z_scope.

Definition ONE_BTC : Z := 100000000.

(** [memcpy(&curBlock.Head, blockStart, 88)] *)
Definition read_header (blockStart : list Z) : Blkheader :=
  let u32 off := le_val (take 4 (drop off blockStart)) in
  {| magic := u32 0%nat; Blocksize := u32 4%nat; Version := u32 8%nat;
     preBlockHash := take 32 (drop 12 blockStart); merkRoot := take 32 (drop 44 blockStart);
     timeStamp := u32 76%nat; bits := u32 80%nat; nonce := u32 84%nat |}.

Section loops.
Context {S : Type} (tx_handler : Transaction -> S -> option S) (block_handler : Block -> S -> option S).

(** The block reward: the outputs of the first transaction less the subsidy. *)
Definition block_reward (blocknumber sumoutvalue : Z) : Z :=
  if blocknumber <? 210000 then w64 (sumoutvalue - 50 * ONE_BTC)
  else w64 (sumoutvalue - 25 * ONE_BTC).

(** The variables of the transaction loop. *)
Record txloop := {
  l_pos : Z; l_txNum : Z; l_txcounter : Z; l_reward : option Z; l_log : list log_event; l_state : S }.

(** One turn of the transaction loop. *)
Definition tx_step (transSec : list Z) (blocknumber timeStamp : Z) (v : txloop) : option txloop :=
  txcounter' ← as_int (l_txcounter v + 1);
  '(tx, sumoutvalue, log, transPos) ←
    read_transaction transSec blocknumber (l_txNum v) (l_txcounter v) timeStamp (l_pos v);
  let reward := if txnumber tx =? 0 then Some (block_reward blocknumber sumoutvalue)
                else l_reward v in
  s ← (if negb (txcounter tx =? 142783) && negb (txcounter tx =? 142841)
       then tx_handler tx (l_state v) else Some (l_state v));
  Some {| l_pos := transPos; l_txNum := w16 (l_txNum v + 1); l_txcounter := txcounter';
          l_reward := reward; l_log := (l_log v ++ log)%list; l_state := s |}.

(** [for (k = 0; k < trans_count; k++)] *)
Fixpoint tx_loop (n : nat) (transSec : list Z) (blocknumber timeStamp : Z) (v : txloop)
    : option txloop :=
  match n with
  | O => Some v
  | Datatypes.S n' =>
      v ← tx_step transSec blocknumber timeStamp v;
      tx_loop n' transSec blocknumber timeStamp v
  end.

(** Where the walk over the block files is: the file and the position in it, the
    number of the next block and of the next transaction. *)
Record cursor := {
  c_file : Z; c_pos : Z; c_blocknum : Z; c_txcounter : Z; c_log : list log_event; c_state : S }.

(** One turn of the block loop; the boolean tells whether the stop time was
    passed ([testflag]). *)
Definition block_step (stop : Z) (file : list Z) (c : cursor) : option (bool * cursor) :=
  blockStart ← peek file (c_pos c) 88;
  let Head := read_header blockStart in
  let curhash := twiceSHA256 (drop 8 blockStart) 80 in
  let blocknumber := w32 (c_blocknum c) in
  BlockNum ← as_int (c_blocknum c + 1);
  if stop <? timeStamp Head then
    Some (true, {| c_file := c_file c; c_pos := c_pos c; c_blocknum := BlockNum;
                   c_txcounter := c_txcounter c; c_log := c_log c; c_state := c_state c |})
  else
    secPos ← as_int (c_pos c + 88);
    transSec ← peek file secPos (Blocksize Head - 80);
    '(trans_count, transPos) ← readVarLen transSec 0;
    v ← tx_loop (Z.to_nat trans_count) transSec blocknumber (timeStamp Head)
          {| l_pos := transPos; l_txNum := 0; l_txcounter := c_txcounter c; l_reward := None;
             l_log := c_log c; l_state := c_state c |};
    blockReward ← l_reward v;
    s ← block_handler {| Head := Head; trans_count := trans_count; curhash := curhash;
                         blocknumber := blocknumber; blockReward := blockReward |} (l_state v);
    blockPos ← as_int (c_pos c + Blocksize Head + 8);
    Some (false, {| c_file := c_file c; c_pos := blockPos; c_blocknum := BlockNum;
                    c_txcounter := l_txcounter v; c_log := l_log v; c_state := s |}).

(** [while (BlockFile.peek() != EOF)]; every turn advances by at least 88 bytes,
    so [fuel] above the number of bytes left is enough ([file_loop_fuel]). *)
Fixpoint file_loop (fuel : nat) (stop : Z) (file : list Z) (c : cursor) : option (bool * cursor) :=
  match fuel with
  | O => None
  | Datatypes.S fuel' =>
      if c_pos c <? Z.of_nat (length file) then
        '(stopped, c) ← block_step stop file c;
        if stopped : bool then Some (true, c) else file_loop fuel' stop file c
      else Some (false, c)
  end.

Definition run_file (stop : Z) (file : list Z) (c : cursor) : option (bool * cursor) :=
  file_loop (Datatypes.S (length file)) stop file c.

Definition at_file (n pos : Z) (c : cursor) : cursor :=
  {| c_file := n; c_pos := pos; c_blocknum := c_blocknum c; c_txcounter := c_txcounter c;
     c_log := c_log c; c_state := c_state c |}.

(** [for (blkfile_num = BLKFILE; blkfile_num < 218; blkfile_num++)]: [n] files are
    left, the first of them read from [pos]; a file that cannot be opened
    ([None]) has nothing to read. *)
Fixpoint files_loop (n : nat) (stop : Z) (files : Z -> option (list Z)) (pos : Z) (c : cursor)
    : option (bool * cursor) :=
  match n with
  | O => Some (false, c)
  | Datatypes.S n' =>
      let c := at_file (c_file c) pos c in
      '(stopped, c) ← (match files (c_file c) with
                       | Some file => run_file stop file c
                       | None => Some (false, c)
                       end);
      if stopped : bool then Some (true, c)
      else files_loop n' stop files 0 (at_file (c_file c + 1) (c_pos c) c)
  end.

(** The parameters kept between runs: file, position, last block and last
    transaction number. *)
Record params := { BLKFILE : Z; BLKPOS : Z; BLOCKNUM : Z; TXCOUNTER : Z }.

(** [int BlockNum = BLOCKNUM + 1], [int txcounter = TXCOUNTER + 1] *)
Definition start (p : params) (log : list log_event) (s : S) : option cursor :=
  BlockNum ← as_int (BLOCKNUM p + 1);
  txcounter ← as_int (TXCOUNTER p + 1);
  Some {| c_file := BLKFILE p; c_pos := 0; c_blocknum := BlockNum;
          c_txcounter := txcounter; c_log := log; c_state := s |}.

Definition saved (c : cursor) : params :=
  {| BLKFILE := c_file c; BLKPOS := c_pos c; BLOCKNUM := c_blocknum c - 2;
     TXCOUNTER := c_txcounter c - 1 |}.

Definition walk (stop : Z) (files : Z -> option (list Z)) (p : params) (log : list log_event) (s : S)
    : option (bool * cursor) :=
  c ← start p log s;
  blockPos ← as_int (BLKPOS p);
  files_loop (Z.to_nat (218 - BLKFILE p)) stop files blockPos c.
End loops.
Arguments cursor : clear implicits.
Arguments txloop : clear implicits.

Section unzipBlocks.
Context `{Sc : Schema} `{My : !MySQL} `{Ldb : LevelDB}.
(** [(unsigned long long)difficulty(bits)], which is computed in floating point
    with the C library's [exp]. *)
Context (difficulty : Z -> Z).

Definition BlockProcess (blk : Block) (st : state) : option state :=
  let blknum_s := dec (blocknumber blk) in
  let hashwrite1 := reverse (curhash blk) in
  let curhash_s := hex hashwrite1 in
  let Blocksize_s := dec (Blocksize (Head blk)) in
  let trans_count_s := dec (trans_count blk) in
  let blktime_s := getTimeString (timeStamp (Head blk)) in
  let diff_s := dec (difficulty (bits (Head blk))) in
  let reward_s := dec (blockReward blk) in
  let blk_insert := "INSERT INTO blkinfo VALUES(x'"
    +:+ curhash_s +:+ "','"
    +:+ blknum_s +:+ "','"
    +:+ Blocksize_s +:+ "','"
    +:+ trans_count_s +:+ "','"
    +:+ blktime_s +:+ "','"
    +:+ diff_s +:+ "','"
    +:+ reward_s +:+ "');" in
  Some {| st_g := st_g st; st_conn := fst (mysql_query (st_conn st) blk_insert); st_db := st_db st |}.

(** A run: the walk over the files and the recomputation of the changed
    entities; the counter of entities is saved with the parameters. *)
Definition unzipBlocks (stop : Z) (files : Z -> option (list Z)) (p : params) (entitycnt0 : Z)
    (st : state) : option (params * Z * list log_event * state) :=
  let st := {| st_g := set_entitycnt entitycnt0 (st_g st); st_conn := st_conn st;
               st_db := st_db st |} in
  '(_, c) ← walk TransactionProcess BlockProcess stop files p [] st;
  let st := c_state c in
  let '(g, conn) := update_entity_mysql (st_g st) (st_conn st) in
  _ ← as_int (c_blocknum c - 2);
  _ ← as_int (c_txcounter c - 1);
  Some (saved c, entitycnt g, c_log c, {| st_g := g; st_conn := conn; st_db := st_db st |}).
End unzipBlocks.

(** ** Termination of the block loop *)

Section loop_facts.
Context {S : Type} (txh : Transaction -> S -> option S) (bh : Block -> S -> option S).

Lemma peek_bounds mem pos n bs :
  peek mem pos n = Some bs -> 0 <= pos /\ 0 <= n /\ pos + n <= Z.of_nat (length mem).
Proof.
  unfold peek. destruct (_ && _) eqn:E; [|discriminate]. intros _.
  rewrite !andb_true_iff, !Z.leb_le in E. lia.
Qed.

(** A turn that does not stop moves on by at least the size of a header. *)
Lemma block_step_advance stop file c c' :
  block_step txh bh stop file c = Some (false, c') ->
  0 <= c_pos c /\ c_pos c + 88 <= c_pos c' /\ c_file c' = c_file c.
Proof.
  unfold block_step. intros H. apply bind_Some in H as (bs & Hbs & H). cbn zeta in H.
  apply peek_bounds in Hbs. apply bind_Some in H as (bn & _ & H). destruct (_ <? _); [discriminate|].
  apply bind_Some in H as (sp & [-> _]%as_int_inv & H). apply bind_Some in H as (sec & Hsec & H). apply peek_bounds in Hsec.
  apply bind_Some in H as ([n pos] & _ & H). apply bind_Some in H as (v & _ & H).
  apply bind_Some in H as (r & _ & H). apply bind_Some in H as (s & _ & H). apply bind_Some in H as (bp & [-> _]%as_int_inv & H).
  injection H as <-. cbn in *. split; [lia|]. split; [lia|done].
Qed.

Lemma block_step_stop stop file c c' :
  block_step txh bh stop file c = Some (true, c') ->
  c' = {| c_file := c_file c; c_pos := c_pos c; c_blocknum := c_blocknum c + 1;
          c_txcounter := c_txcounter c; c_log := c_log c; c_state := c_state c |}
  /\ 0 <= c_pos c.
Proof.
  unfold block_step. intros H. apply bind_Some in H as (bs & Hbs & H). cbn zeta in H.
  apply peek_bounds in Hbs. apply bind_Some in H as (bn & [-> _]%as_int_inv & H).
  destruct (_ <? _); [injection H as <-; split; [done|lia]|].
  apply bind_Some in H as (sp & _ & H). apply bind_Some in H as (sec & _ & H).
  apply bind_Some in H as ([n pos] & _ & H). apply bind_Some in H as (v & _ & H).
  apply bind_Some in H as (r & _ & H). apply bind_Some in H as (s & _ & H). apply bind_Some in H as (bp & _ & H). discriminate.
Qed.

(** Positions and numbers stay in the range of their variables. *)
Definition ints (c : cursor S) : Prop :=
  - 2 ^ 31 <= c_pos c <= INT_MAX /\ - 2 ^ 31 <= c_blocknum c <= INT_MAX /\ - 2 ^ 31 <= c_txcounter c <= INT_MAX.

Lemma tx_loop_int n sec bn tm v v' :
  tx_loop txh n sec bn tm v = Some v' -> - 2 ^ 31 <= l_txcounter v <= INT_MAX -> - 2 ^ 31 <= l_txcounter v' <= INT_MAX.
Proof.
  revert v. induction n as [|n IH]; intros v H Hv; [by injection H as <-|]. cbn [tx_loop] in H.
  apply bind_Some in H as (v1 & Hs & H). apply (IH v1 H). unfold tx_step in Hs. apply bind_Some in Hs as (k & [-> Hk]%as_int_inv & Hs).
  apply bind_Some in Hs as ([[[tx sum] log] pos] & _ & Hs). apply bind_Some in Hs as (s & _ & Hs). injection Hs as <-. exact Hk.
Qed.
Lemma block_step_ints stop file c c' :
  block_step txh bh stop file c = Some (false, c') -> ints c -> ints c'.
Proof.
  intros H (_ & _ & Ht). unfold block_step in H. apply bind_Some in H as (bs & _ & H). cbn zeta in H.
  apply bind_Some in H as (bn & [-> Hbn]%as_int_inv & H). destruct (_ <? _); [discriminate|].
  apply bind_Some in H as (sp & _ & H). apply bind_Some in H as (sec & _ & H).
  apply bind_Some in H as ([n pos] & _ & H). apply bind_Some in H as (v & Hv & H).
  apply bind_Some in H as (r & _ & H). apply bind_Some in H as (s & _ & H). apply bind_Some in H as (bp & [-> Hbp]%as_int_inv & H).
  injection H as <-. apply tx_loop_int in Hv; [|exact Ht]. unfold ints. cbn. tauto.
Qed.

(** Blocks before the stop time are processed alike under a later stop time. *)
Lemma block_step_later t1 t2 file c c' :
  t1 <= t2 -> block_step txh bh t1 file c = Some (false, c') ->
  block_step txh bh t2 file c = Some (false, c').
Proof.
  intros Ht H. unfold block_step in *. apply bind_Some in H as (bs & -> & H). cbn [mbind option_bind].
  cbn zeta in *. apply bind_Some in H as (bn & -> & H). cbn [mbind option_bind].
  destruct (Z.ltb_spec t1 (timeStamp (read_header bs))); [discriminate|].
  destruct (Z.ltb_spec t2 (timeStamp (read_header bs))); [lia|]. exact H.
Qed.

(** More fuel than bytes left makes no difference. *)
Lemma file_loop_fuel stop file c f f' :
  0 <= c_pos c -> Z.of_nat (length file) - c_pos c < Z.of_nat f ->
  Z.of_nat (length file) - c_pos c < Z.of_nat f' -> (0 < f)%nat -> (0 < f')%nat ->
  file_loop txh bh f stop file c = file_loop txh bh f' stop file c.
Proof.
  revert f' c. induction f as [|f IH]; intros [|f'] c Hp Hf Hf' H0 H0'; try lia.
  cbn [file_loop]. destruct (Z.ltb_spec (c_pos c) (Z.of_nat (length file))); [|done].
  destruct (block_step txh bh stop file c) as [[[] c']|] eqn:Hs; [done| |done].
  cbn [mbind option_bind]. apply block_step_advance in Hs. apply IH; lia.
Qed.

(** The cursor at the block that stopped a run: its number was already counted. *)
Definition uncount (c : cursor S) : cursor S :=
  {| c_file := c_file c; c_pos := c_pos c; c_blocknum := c_blocknum c - 1;
     c_txcounter := c_txcounter c; c_log := c_log c; c_state := c_state c |}.

Lemma file_loop_resume t1 t2 file f c c1 :
  t1 <= t2 -> 0 <= c_pos c -> Z.of_nat (length file) - c_pos c < Z.of_nat f ->
  file_loop txh bh f t1 file c = Some (true, c1) ->
  file_loop txh bh f t2 file c = run_file txh bh t2 file (uncount c1)
  /\ 0 <= c_pos c1 /\ c_file c1 = c_file c.
Proof.
  intros Ht. revert c. induction f as [|f IH]; intros c Hp Hf H; [discriminate|].
  cbn [file_loop] in H. destruct (Z.ltb_spec (c_pos c) (Z.of_nat (length file))) as [Hlt|]; [|discriminate].
  apply bind_Some in H as ([[] c'] & Hs & H).
  - injection H as <-. apply block_step_stop in Hs as [-> _]. split; [|done].
    replace (uncount _) with c; [apply file_loop_fuel; lia|].
    destruct c. unfold uncount. cbn. f_equal. lia.
  - pose proof (block_step_advance _ _ _ _ Hs) as (_ & Hadv & Hfile).
    destruct (IH c' ltac:(lia) ltac:(lia) H) as (E & ? & E2). split; [|split; [done|congruence]].
    rewrite <- E. cbn [file_loop]. rewrite (proj2 (Z.ltb_lt _ _) Hlt).
    by rewrite (block_step_later _ _ _ _ _ Ht Hs).
Qed.

Lemma run_file_resume t1 t2 file c c1 :
  t1 <= t2 -> 0 <= c_pos c -> run_file txh bh t1 file c = Some (true, c1) ->
  run_file txh bh t2 file c = run_file txh bh t2 file (uncount c1)
  /\ 0 <= c_pos c1 /\ c_file c1 = c_file c.
Proof. intros Ht Hp H. eapply file_loop_resume in H; [exact H|done..|lia]. Qed.

Lemma file_loop_later t1 t2 file f c c' :
  t1 <= t2 -> file_loop txh bh f t1 file c = Some (false, c') ->
  file_loop txh bh f t2 file c = Some (false, c') /\ c_file c' = c_file c.
Proof.
  intros Ht. revert c. induction f as [|f IH]; intros c H; [discriminate|]. cbn [file_loop] in *.
  destruct (_ <? _); [|by injection H as <-].
  apply bind_Some in H as ([[] c2] & Hs & H); [discriminate|].
  rewrite (block_step_later _ _ _ _ _ Ht Hs). cbn [mbind option_bind].
  apply block_step_advance in Hs as (_ & _ & <-). by apply IH.
Qed.

Lemma file_loop_ints t file f c stopped c1 :
  file_loop txh bh f t file c = Some (stopped, c1) -> ints c -> ints (if stopped then uncount c1 else c1).
Proof.
  revert c. induction f as [|f IH]; intros c H Hc; [discriminate|]. cbn [file_loop] in H.
  destruct (_ <? _); [|by injection H as <- <-].
  apply bind_Some in H as ([[] c'] & Hs & H); [|by apply (IH c'), (block_step_ints _ _ _ _ Hs)].
  injection H as <- <-. apply block_step_stop in Hs as [-> _]. unfold uncount, ints in *. cbn. by rewrite Z.add_simpl_r.
Qed.
Lemma files_loop_ints n t files pos c stopped c1 :
  files_loop txh bh n t files pos c = Some (stopped, c1) -> - 2 ^ 31 <= pos <= INT_MAX -> ints c -> ints (if stopped then uncount c1 else c1).
Proof.
  revert pos c. induction n as [|n IH]; intros pos c H Hp Hc; [by injection H as <- <-|]. cbn [files_loop] in H.
  assert (ints (at_file (c_file c) pos c)) as Hc0 by (split; [exact Hp|apply Hc]).
  apply bind_Some in H as ([stop1 c'] & Hf & H).
  assert (ints (if stop1 then uncount c' else c')) as Hc'.
  { destruct (files _) as [file|]; [by apply file_loop_ints in Hf|]. injection Hf as <- <-. exact Hc0. }
  destruct stop1; [by injection H as <- <-|]. apply (IH _ _ H); [unfold INT_MAX; lia|exact Hc'].
Qed.

Lemma file_loop_nonneg t file f c stopped c1 :
  file_loop txh bh f t file c = Some (stopped, c1) -> 0 <= c_pos c -> 0 <= c_pos c1.
Proof.
  revert c. induction f as [|f IH]; intros c H Hc; [discriminate|]. cbn [file_loop] in H.
  destruct (_ <? _); [|by injection H as <- <-].
  apply bind_Some in H as ([[] c'] & Hs & H).
  - injection H as <- <-. by apply block_step_stop in Hs as [-> ?].
  - apply (IH c' H). apply block_step_advance in Hs. lia.
Qed.
Lemma files_loop_nonneg n t files pos c stopped c1 :
  files_loop txh bh n t files pos c = Some (stopped, c1) -> 0 <= pos -> 0 <= c_pos c -> 0 <= c_pos c1.
Proof.
  revert pos c. induction n as [|n IH]; intros pos c H Hp Hc; [by injection H as <- <-|]. cbn [files_loop] in H.
  apply bind_Some in H as ([stop1 c'] & Hf & H).
  assert (0 <= c_pos c') as Hc'.
  { destruct (files _) as [file|]; [by apply file_loop_nonneg in Hf|]. by injection Hf as <- <-. }
  destruct stop1; [by injection H as <- <-|]. by apply (IH _ _ H).
Qed.

Lemma at_file_same (c : cursor S) : at_file (c_file c) (c_pos c) c = c.
Proof. by destruct c. Qed.

(** The run over the files that stops at [t1] reaches the block from which the
    saved parameters start the next run. *)
Lemma files_loop_resume n t1 t2 files pos c c1 :
  t1 <= t2 -> 0 <= pos -> n = Z.to_nat (218 - c_file c) ->
  files_loop txh bh n t1 files pos c = Some (true, c1) ->
  files_loop txh bh n t2 files pos c
  = files_loop txh bh (Z.to_nat (218 - c_file c1)) t2 files (c_pos c1) (uncount c1)
  /\ c_file c1 < 218.
Proof.
  intros Ht. revert pos c. induction n as [|n IH]; intros pos c Hp Hn H; [discriminate|].
  cbn [files_loop] in H. apply bind_Some in H as ([[] c'] & Hf & H).
  - injection H as <-. cbn [at_file c_file] in Hf.
    destruct (files (c_file c)) as [file|] eqn:Hfile; [|discriminate].
    destruct (run_file_resume t1 t2 file (at_file (c_file c) pos c) c' Ht Hp Hf) as (E & _ & Ec). cbn [at_file c_file] in Ec.
    split; [|lia]. rewrite Ec, <- Hn. cbn [files_loop uncount c_file at_file]. rewrite Ec, Hfile.
    rewrite E. do 2 f_equal. unfold at_file, uncount. cbn. by rewrite Ec.
  - assert (files_loop txh bh (Datatypes.S n) t2 files pos c
            = files_loop txh bh n t2 files 0 (at_file (c_file c' + 1) (c_pos c') c')
            /\ c_file c' = c_file c) as [-> Ec].
    { cbn [files_loop at_file c_file] in *.
      destruct (files (c_file c)) as [file|]; [|by injection Hf as <-].
      destruct (file_loop_later t1 t2 _ _ _ _ Ht Hf) as [E Ec]. unfold run_file. by rewrite E. }
    apply IH; [lia| |exact H]. cbn. lia.
Qed.
End loop_facts.

(** ** The format of the block files *)

Record raw_block := {
  rb_magic : Z; rb_version : Z; rb_prev : list Z; rb_merk : list Z; rb_time : Z; rb_bits : Z;
  rb_nonce : Z; rb_txs : list raw_tx }.

(** The 80 bytes that the block hash covers, the transactions, and the block as
    it is in the file, after a magic number and its size. *)
Definition ser_head (b : raw_block) : list Z :=
  (le_bytes 4 (rb_version b) ++ rb_prev b ++ rb_merk b ++ le_bytes 4 (rb_time b)
   ++ le_bytes 4 (rb_bits b) ++ le_bytes 4 (rb_nonce b))%list.
Definition ser_txs (b : raw_block) : list Z := ser_list ser_tx (rb_txs b).
Definition block_size (b : raw_block) : Z := 80 + Z.of_nat (length (ser_txs b)).
Definition ser_block (b : raw_block) : list Z :=
  (le_bytes 4 (rb_magic b) ++ le_bytes 4 (block_size b) ++ ser_head b ++ ser_txs b)%list.

Record block_ok (b : raw_block) : Prop := {
  bo_nums : is32 (rb_magic b) /\ is32 (rb_version b) /\ is32 (rb_time b) /\ is32 (rb_bits b)
            /\ is32 (rb_nonce b);
  bo_prev : bytes (rb_prev b) /\ length (rb_prev b) = 32%nat;
  bo_merk : bytes (rb_merk b) /\ length (rb_merk b) = 32%nat;
  bo_txs : Forall raw_tx_ok (rb_txs b);
  bo_size : block_size b < 0x1_0000_0000 }.

Definition header_of (b : raw_block) : Blkheader :=
  {| magic := rb_magic b; Blocksize := block_size b; Version := rb_version b;
     preBlockHash := rb_prev b; merkRoot := rb_merk b; timeStamp := rb_time b; bits := rb_bits b;
     nonce := rb_nonce b |}.

Section spec.
Context {S : Type} (txh : Transaction -> S -> option S) (bh : Block -> S -> option S).

(** Processing one transaction, from its content instead of its bytes. *)
Definition spec_tx (blocknumber timeStamp : Z) (v : txloop S) (t : raw_tx) : option (txloop S) :=
  let tx := tx_of blocknumber (l_txNum v) (l_txcounter v) timeStamp t in
  let reward := if l_txNum v =? 0 then Some (block_reward blocknumber (w64 (sum_outs (rt_outs t))))
                else l_reward v in
  s ← (if negb (txcounter tx =? 142783) && negb (txcounter tx =? 142841)
       then txh tx (l_state v) else Some (l_state v));
  Some {| l_pos := l_pos v + Z.of_nat (length (ser_tx t)); l_txNum := w16 (l_txNum v + 1);
          l_txcounter := l_txcounter v + 1; l_reward := reward;
          l_log := (l_log v ++ decode_errors blocknumber (l_txNum v) (rt_outs t))%list;
          l_state := s |}.

Fixpoint spec_txs (blocknumber timeStamp : Z) (v : txloop S) (ts : list raw_tx) : option (txloop S) :=
  match ts with
  | [] => Some v
  | t :: ts' => v ← spec_tx blocknumber timeStamp v t; spec_txs blocknumber timeStamp v ts'
  end.

Definition spec_block (stop : Z) (c : cursor S) (b : raw_block) : option (bool * cursor S) :=
  let blocknumber := w32 (c_blocknum c) in
  if stop <? rb_time b then
    Some (true, {| c_file := c_file c; c_pos := c_pos c; c_blocknum := c_blocknum c + 1;
                   c_txcounter := c_txcounter c; c_log := c_log c; c_state := c_state c |})
  else
    let n := Z.of_nat (length (rb_txs b)) in
    v ← spec_txs blocknumber (rb_time b)
          {| l_pos := Z.of_nat (length (varint n)); l_txNum := 0; l_txcounter := c_txcounter c;
             l_reward := None; l_log := c_log c; l_state := c_state c |} (rb_txs b);
    blockReward ← l_reward v;
    s ← bh {| Head := header_of b; trans_count := n; curhash := sha256d (ser_head b);
              blocknumber := blocknumber; blockReward := blockReward |} (l_state v);
    Some (false, {| c_file := c_file c; c_pos := c_pos c + Z.of_nat (length (ser_block b));
                    c_blocknum := c_blocknum c + 1; c_txcounter := l_txcounter v;
                    c_log := l_log v; c_state := s |}).

Fixpoint spec_blocks (stop : Z) (c : cursor S) (bs : list raw_block) : option (bool * cursor S) :=
  match bs with
  | [] => Some (false, c)
  | b :: bs' =>
      '(stopped, c) ← spec_block stop c b;
      if stopped : bool then Some (true, c) else spec_blocks stop c bs'
  end.

(** The numbers [n] and [k] of the next block and transaction, and those of all that follow up
    to the stop time, are [int]s; the block that stops the run is counted too. *)
Fixpoint fits (stop n k : Z) (bs : list raw_block) : Prop :=
  match bs with
  | [] => True
  | b :: bs' =>
      - 2 ^ 31 <= n < INT_MAX
      /\ (rb_time b <= stop ->
          - 2 ^ 31 <= k /\ k + Z.of_nat (length (rb_txs b)) <= INT_MAX
          /\ fits stop (n + 1) (k + Z.of_nat (length (rb_txs b))) bs')
  end.

Lemma has_cat_l mem p a b : has mem p (a ++ b)%list -> has mem p a.
Proof. intros H. by apply has_app in H as [H _]. Qed.

Lemma tx_loop_spec ts mem bn tm v :
  Forall raw_tx_ok ts -> Z.of_nat (length (flat_map ser_tx ts)) < 0x1_0000_0000 ->
  has mem (l_pos v) (flat_map ser_tx ts) ->
  - 2 ^ 31 <= l_txcounter v -> l_txcounter v + Z.of_nat (length ts) <= INT_MAX ->
  tx_loop txh (length ts) mem bn tm v = spec_txs bn tm v ts.
Proof.
  intros Hts. revert v. induction Hts as [|t ts Ht Hts IH]; intros v Hlen Hmem Hk0 Hk; [done|].
  cbn [flat_map length tx_loop spec_txs] in *. rewrite length_app in Hlen.
  apply has_app in Hmem as [H1 H2]. unfold tx_step. rewrite as_int_Some by lia. cbn [mbind option_bind].
  rewrite (read_transaction_spec bn (l_txNum v) (l_txcounter v) tm t mem (l_pos v)); [|done|lia|done].
  cbn [mbind option_bind]. unfold spec_tx. cbn zeta. cbn [txnumber txcounter tx_of].
  replace (if l_txNum v =? 0 then Some (block_reward bn
      (if l_txNum v =? 0 then w64 (sum_outs (rt_outs t)) else 0)) else l_reward v)
    with (if l_txNum v =? 0 then Some (block_reward bn (w64 (sum_outs (rt_outs t)))) else l_reward v)
    by (by destruct (l_txNum v =? 0)).
  destruct (if negb _ && _ then _ else _) as [s|]; [|done]. cbn [mbind option_bind].
  apply IH; [lia|exact H2|cbn [l_txcounter]; lia..].
Qed.

Lemma spec_txs_count bn tm v ts v' :
  spec_txs bn tm v ts = Some v' -> l_txcounter v' = l_txcounter v + Z.of_nat (length ts).
Proof.
  revert v. induction ts as [|t ts IH]; intros v H; [injection H as <-; cbn; lia|]. cbn [spec_txs] in H.
  apply bind_Some in H as (v1 & Hs & H). rewrite (IH v1 H). unfold spec_tx in Hs. apply bind_Some in Hs as (s & _ & Hs).
  injection Hs as <-. cbn [l_txcounter length]. lia.
Qed.

Lemma length_ser_head b : block_ok b -> length (ser_head b) = 80%nat.
Proof.
  intros Hb. unfold ser_head. rewrite !length_app, !length_le_bytes.
  destruct (bo_prev _ Hb) as [_ ->], (bo_merk _ Hb) as [_ ->]. done.
Qed.

Lemma bytes_ser_head b : block_ok b -> bytes (ser_head b).
Proof.
  intros Hb. unfold ser_head. rewrite !bytes_app. destruct (bo_prev _ Hb), (bo_merk _ Hb).
  auto 10 using bytes_le_bytes.
Qed.

(** Skip the next field of a buffer. *)
Lemma skip_field {A} (x y : list A) n k :
  length x = k -> (k <= n)%nat -> drop n (x ++ y)%list = drop (n - k) y.
Proof. intros <- H. by rewrite drop_app_ge. Qed.

Lemma take_field {A} (x y : list A) k : length x = k -> take k (drop 0 (x ++ y)%list) = x.
Proof. intros <-. by rewrite drop_0, take_app_length. Qed.

Lemma read_header_spec b :
  block_ok b ->
  read_header (le_bytes 4 (rb_magic b) ++ le_bytes 4 (block_size b) ++ ser_head b)%list = header_of b.
Proof.
  intros Hb. destruct (bo_nums _ Hb) as (H1 & H2 & H3 & H4 & H5).
  destruct (bo_prev _ Hb) as [_ Hp], (bo_merk _ Hb) as [_ Hm].
  assert (is32 (block_size b)) as H6 by (unfold is32; pose proof (bo_size _ Hb); unfold block_size in *; lia).
  assert (forall x, is32 x -> le_val (le_bytes 4 x) = x) as Hle.
  { intros x Hx. rewrite le_val_le_bytes. by apply Z.mod_small. }
  pose proof (fun x => length_le_bytes 4 x) as Hl. unfold read_header, header_of, ser_head.
  rewrite <- (app_nil_r (le_bytes 4 (rb_nonce b))). f_equal;
    repeat (erewrite skip_field by (first [apply Hl|exact Hp|exact Hm] || lia); cbn [Nat.sub]);
    (erewrite take_field by first [apply Hl|exact Hp|exact Hm]); first [by apply Hle|done].
Qed.

Lemma length_flat_ser_tx ts : (length ts <= length (flat_map ser_tx ts))%nat.
Proof.
  induction ts as [|t ts IH]; [done|]. cbn [flat_map length]. rewrite length_app.
  assert (1 <= length (ser_tx t))%nat; [|lia].
  unfold ser_tx. rewrite length_app, length_le_bytes. lia.
Qed.

(** The transactions of a block, read from its transaction section. *)
Lemma read_txs_spec b bn tm v :
  block_ok b -> l_pos v = Z.of_nat (length (varint (Z.of_nat (length (rb_txs b))))) ->
  Z.of_nat (length (ser_txs b)) <= INT_MAX ->
  - 2 ^ 31 <= l_txcounter v -> l_txcounter v + Z.of_nat (length (rb_txs b)) <= INT_MAX ->
  readVarLen (ser_txs b) 0 = Some (Z.of_nat (length (rb_txs b)), l_pos v)
  /\ tx_loop txh (length (rb_txs b)) (ser_txs b) bn tm v = spec_txs bn tm v (rb_txs b).
Proof.
  intros Hb Hv Hint Hk0 Hk. pose proof (bo_size _ Hb) as Hsz. unfold block_size, ser_txs, ser_list in *.
  rewrite length_app in Hsz. pose proof (length_flat_ser_tx (rb_txs b)) as Hn.
  assert (has (varint (Z.of_nat (length (rb_txs b))) ++ flat_map ser_tx (rb_txs b))%list 0
            (varint (Z.of_nat (length (rb_txs b))) ++ flat_map ser_tx (rb_txs b))%list) as Hmem.
  { exists [], []. rewrite app_nil_r. split_and!; [done..|lia]. }
  apply has_app in Hmem as [H1 H2]. split.
  - rewrite (reads_VarLen (Z.of_nat (length (rb_txs b))) ltac:(unfold is32; lia) _ _ H1). by rewrite Hv.
  - apply tx_loop_spec; [apply (bo_txs _ Hb)|lia| |done|done]. by rewrite Hv.
Qed.

Lemma block_step_spec stop file c b bs :
  block_ok b -> has file (c_pos c) (ser_block b) -> fits stop (c_blocknum c) (c_txcounter c) (b :: bs) ->
  block_step txh bh stop file c = spec_block stop c b.
Proof.
  intros Hb Hmem [Hn Hk].
  pose proof (has_end _ _ _ Hmem) as [Hp0 Hp]. pose proof (length_ser_head b Hb) as Hlh. pose proof (bo_size _ Hb) as Hsz.
  unfold block_step, spec_block, ser_block in *. rewrite !length_app, !length_le_bytes, Hlh in Hp.
  rewrite (app_assoc (le_bytes 4 (block_size b))), app_assoc in Hmem.
  apply has_app in Hmem as [Hhead Hbody].
  rewrite (has_peek _ _ _ 88 Hhead) by (rewrite !length_app, !length_le_bytes, Hlh; done).
  cbn [mbind option_bind]. rewrite read_header_spec by done. rewrite (as_int_Some (c_blocknum c + 1)) by lia.
  cbn [mbind option_bind header_of timeStamp Blocksize]. destruct (Z.ltb_spec stop (rb_time b)) as [|Ht]; [done|]. destruct (Hk Ht) as (Hk0 & Hk1 & _).
  rewrite !length_app, !length_le_bytes, Hlh in Hbody. change (Z.of_nat (4 + (4 + 80))) with 88 in Hbody.
  rewrite (as_int_Some (c_pos c + 88)) by lia. cbn [mbind option_bind].
  rewrite (has_peek _ _ _ (block_size b - 80) Hbody) by (unfold block_size; lia).
  cbn [mbind option_bind]. set (n := Z.of_nat (length (rb_txs b))).
  set (v0 := {| l_pos := Z.of_nat (length (varint n)); l_txNum := 0; l_txcounter := c_txcounter c;
                l_reward := None; l_log := c_log c; l_state := c_state c |}).
  destruct (read_txs_spec b (w32 (c_blocknum c)) (rb_time b) v0 Hb eq_refl) as [Hrv Hloop]; [lia|exact Hk0|cbn [v0 l_txcounter]; lia|].
  rewrite Hrv. cbn [mbind option_bind]. fold n. change (l_pos v0) with (Z.of_nat (length (varint n))).
  fold v0. replace (Z.to_nat n) with (length (rb_txs b)) by (subst n; lia). rewrite Hloop.
  destruct (spec_txs _ _ _ _) as [v|]; [|done]. cbn [mbind option_bind].
  destruct (l_reward v) as [r|]; [|done]. cbn [mbind option_bind].
  assert (twiceSHA256 (drop 8 (le_bytes 4 (rb_magic b) ++ le_bytes 4 (block_size b) ++ ser_head b)%list) 80
          = sha256d (ser_head b)) as ->.
  { rewrite app_assoc, (drop_app_length' _ (ser_head b)) by (by rewrite length_app, !length_le_bytes).
    change 80 with (Z.of_nat 80). rewrite <- Hlh. apply twiceSHA256_spec; [by apply bytes_ser_head|lia]. }
  destruct (bh _ _) as [s|]; [|done]. cbn [mbind option_bind].
  rewrite as_int_Some by (unfold block_size; lia). cbn [mbind option_bind]. do 3 f_equal.
  rewrite !length_app, !length_le_bytes, Hlh. unfold block_size. lia.
Qed.

Lemma length_ser_block b : block_ok b -> (88 <= length (ser_block b))%nat.
Proof.
  intros Hb. unfold ser_block. rewrite !length_app, !length_le_bytes, length_ser_head by done. lia.
Qed.

Lemma spec_block_next stop c b c' :
  spec_block stop c b = Some (false, c') ->
  c_pos c' = c_pos c + Z.of_nat (length (ser_block b)) /\ c_blocknum c' = c_blocknum c + 1
  /\ c_txcounter c' = c_txcounter c + Z.of_nat (length (rb_txs b)).
Proof.
  unfold spec_block. destruct (_ <? _); [discriminate|]. intros H.
  apply bind_Some in H as (v & Hv & H). apply bind_Some in H as (r & _ & H).
  apply bind_Some in H as (s & _ & H). injection H as <-. split_and!; [done..|]. apply (spec_txs_count _ _ _ _ _ Hv).
Qed.
Lemma spec_block_pos stop c b c' :
  spec_block stop c b = Some (false, c') ->
  c_pos c' = c_pos c + Z.of_nat (length (ser_block b)).
Proof. by intros [? _]%spec_block_next. Qed.
Lemma fits_next stop c b bs c' :
  fits stop (c_blocknum c) (c_txcounter c) (b :: bs) -> spec_block stop c b = Some (false, c') ->
  fits stop (c_blocknum c') (c_txcounter c') bs.
Proof.
  intros [_ Hk] Hs. destruct (spec_block_next _ _ _ _ Hs) as (_ & -> & ->). apply Hk. unfold spec_block in Hs.
  by destruct (Z.ltb_spec stop (rb_time b)).
Qed.

(** A file that consists of blocks is processed block by block. *)
Lemma file_loop_spec stop bs pre c f :
  Forall block_ok bs -> c_pos c = Z.of_nat (length pre) -> (length bs < f)%nat ->
  Z.of_nat (length (pre ++ flat_map ser_block bs)%list) <= INT_MAX -> fits stop (c_blocknum c) (c_txcounter c) bs ->
  file_loop txh bh f stop (pre ++ flat_map ser_block bs)%list c = spec_blocks stop c bs.
Proof.
  intros Hbs. revert pre c f. induction Hbs as [|b bs Hb Hbs IH]; intros pre c [|f] Hc Hf Hint Hfit; try (cbn in Hf; lia).
  - cbn [file_loop flat_map spec_blocks]. rewrite app_nil_r, Hc, Z.ltb_irrefl. done.
  - cbn [file_loop flat_map spec_blocks]. pose proof (length_ser_block b Hb).
    rewrite (proj2 (Z.ltb_lt _ _)) by (rewrite Hc, !length_app; lia).
    rewrite (block_step_spec stop _ c b bs Hb); [| |exact Hfit].
    2: { exists pre, (flat_map ser_block bs). cbn [flat_map] in Hint. rewrite !length_app in Hint. split_and!; [done..|lia]. }
    destruct (spec_block stop c b) as [[[] c']|] eqn:Hs; [done| |done]. cbn [mbind option_bind].
    pose proof (fits_next _ _ _ _ _ Hfit Hs) as Hfit'. apply spec_block_pos in Hs. cbn [flat_map] in Hint.
    rewrite app_assoc in Hint |- *. apply IH; [|cbn in Hf; lia|done|done].
    rewrite length_app. lia.
Qed.

Lemma length_flat_ser_block bs :
  Forall block_ok bs -> (length bs <= length (flat_map ser_block bs))%nat.
Proof.
  induction 1 as [|b bs Hb Hbs IH]; [done|]. cbn [flat_map length]. rewrite length_app.
  pose proof (length_ser_block b Hb). lia.
Qed.
(** How far the walk over a file got: [k] blocks were processed. *)
Lemma spec_blocks_progress stop bs c stopped c' :
  spec_blocks stop c bs = Some (stopped, c') ->
  exists k, (k <= length bs)%nat /\ Forall (fun b => rb_time b <= stop) (take k bs)
    /\ c_pos c' = c_pos c + Z.of_nat (length (flat_map ser_block (take k bs)))
    /\ if stopped : bool
       then (exists b, bs !! k = Some b /\ stop < rb_time b)
            /\ c_blocknum c' = c_blocknum c + Z.of_nat k + 1
       else k = length bs /\ c_blocknum c' = c_blocknum c + Z.of_nat k.
Proof.
  revert c. induction bs as [|b bs IH]; intros c H.
  { cbn in H. injection H as <- <-. exists 0%nat. cbn. repeat split; try lia. constructor. }
  cbn [spec_blocks] in H. apply bind_Some in H as ([[] c2] & Hs & H).
  - injection H as <- <-. exists 0%nat. unfold spec_block in Hs.
    destruct (Z.ltb_spec stop (rb_time b)).
    + injection Hs as <-. cbn. split; [lia|]. split; [constructor|]. split; [lia|].
      split; [by exists b|lia].
    + exfalso. apply bind_Some in Hs as (v & _ & Hs). apply bind_Some in Hs as (r & _ & Hs).
      apply bind_Some in Hs as (s & _ & Hs). discriminate.
  - pose proof (spec_block_pos _ _ _ _ Hs) as Hpos.
    assert (rb_time b <= stop /\ c_blocknum c2 = c_blocknum c + 1) as [Ht Hn].
    { unfold spec_block in Hs. destruct (Z.ltb_spec stop (rb_time b)); [discriminate|].
      apply bind_Some in Hs as (v & _ & Hs). apply bind_Some in Hs as (r & _ & Hs).
      apply bind_Some in Hs as (s & _ & Hs). injection Hs as <-. done. }
    destruct (IH c2 H) as (k & Hk & Hall & Hp & Hrest). exists (Datatypes.S k). cbn [take flat_map length].
    split; [lia|]. split; [by constructor|]. rewrite length_app. split; [lia|].
    destruct stopped; [destruct Hrest as [Hb Hc]; split; [exact Hb|lia]|lia].
Qed.
End spec.

(** ** Results *)

(** The block loop terminates: giving [file_loop] more turns than the file
    has bytes left changes nothing. *)
Theorem block_loop_terminates {S} (txh : Transaction -> S -> option S) (bh : Block -> S -> option S)
    stop file c fuel :
  0 <= c_pos c -> (length file < fuel)%nat ->
  file_loop txh bh fuel stop file c = run_file txh bh stop file c.
Proof. intros Hp Hf. apply file_loop_fuel; lia. Qed.

(** C25: runs can be cut anywhere.  If a run that stops at time [t1] saved its
    parameters because it met a later block, then a run from these parameters
    to a later time [t2], on the state it left, does exactly what a single run
    to [t2] does: the same transactions and blocks, with the same numbers, in
    the same order. *)
Theorem walk_resume {S} (txh : Transaction -> S -> option S) (bh : Block -> S -> option S)
    t1 t2 files p log s c1 :
  t1 <= t2 -> 0 <= BLKPOS p ->
  walk txh bh t1 files p log s = Some (true, c1) ->
  walk txh bh t2 files (saved c1) (c_log c1) (c_state c1) = walk txh bh t2 files p log s.
Proof.
  intros Ht Hp H. unfold walk in *. apply bind_Some in H as (c & Hc & H). apply bind_Some in H as (pos & [-> Hpos]%as_int_inv & H).
  rewrite Hc. cbn [mbind option_bind]. rewrite (as_int_Some (BLKPOS p)) by done. cbn [mbind option_bind]. unfold start in Hc.
  apply bind_Some in Hc as (bn & [-> Hbn]%as_int_inv & Hc). apply bind_Some in Hc as (k & [-> Hk]%as_int_inv & Hc). injection Hc as <-.
  symmetry. match type of H with files_loop _ _ _ _ _ _ ?c = _ =>
    destruct (files_loop_resume txh bh (Z.to_nat (218 - BLKFILE p)) t1 t2 files (BLKPOS p) c c1 Ht Hp eq_refl H) as [-> Hlt] end.
  apply files_loop_ints in H; [|exact Hpos|split; cbn [c_pos c_blocknum c_txcounter]; [unfold INT_MAX; lia|tauto]]. destruct H as (Hp1 & Hb1 & Hk1). cbn [uncount c_pos c_blocknum c_txcounter] in *.
  unfold start. cbn [saved BLKFILE BLKPOS BLOCKNUM TXCOUNTER].
  replace (c_blocknum c1 - 2 + 1) with (c_blocknum c1 - 1) by lia. replace (c_txcounter c1 - 1 + 1) with (c_txcounter c1) by lia.
  rewrite (as_int_Some (c_blocknum c1 - 1)), (as_int_Some (c_txcounter c1)), (as_int_Some (c_pos c1)) by done. cbn [mbind option_bind].
  destruct (Z.to_nat (218 - c_file c1)) as [|n] eqn:En; [lia|]. reflexivity.
Qed.

(** C24: a file that is a sequence of serialized blocks is processed block by
    block and transaction by transaction, each from its content: the numbers,
    hashes, addresses, rewards, positions and log entries are those of
    [spec_blocks], up to the first block after the stop time.  The file is below
    2 GB, and the numbers of its blocks and transactions up to there are [int]s. *)
Theorem run_file_blocks {S} (txh : Transaction -> S -> option S) (bh : Block -> S -> option S)
    stop bs c :
  Forall block_ok bs -> c_pos c = 0 -> Z.of_nat (length (flat_map ser_block bs)) <= INT_MAX -> fits stop (c_blocknum c) (c_txcounter c) bs ->
  run_file txh bh stop (flat_map ser_block bs) c = spec_blocks txh bh stop c bs.
Proof.
  intros Hbs Hc Hint Hfit. apply (file_loop_spec txh bh stop bs []); [done|done| |done|done].
  pose proof (length_flat_ser_block bs Hbs). lia.
Qed.

(** The saved block number.  After [k] processed blocks of a file, the last
    of them has number [c_blocknum c + k - 1].  That number is saved when the
    run was stopped by a block after the stop time, with the position of that
    block; when the blocks are exhausted instead, the saved number is one less,
    so that the next block would get the number of the last one again. *)
Theorem saved_block_number {S} (txh : Transaction -> S -> option S) (bh : Block -> S -> option S)
    stop bs c stopped c' :
  Forall block_ok bs -> c_pos c = 0 -> Z.of_nat (length (flat_map ser_block bs)) <= INT_MAX -> fits stop (c_blocknum c) (c_txcounter c) bs ->
  run_file txh bh stop (flat_map ser_block bs) c = Some (stopped, c') ->
  exists k, (k <= length bs)%nat /\ Forall (fun b => rb_time b <= stop) (take k bs)
    /\ BLKPOS (saved c') = Z.of_nat (length (flat_map ser_block (take k bs)))
    /\ if stopped : bool
       then (exists b, bs !! k = Some b /\ stop < rb_time b)
            /\ BLOCKNUM (saved c') = c_blocknum c + Z.of_nat k - 1
       else k = length bs /\ BLOCKNUM (saved c') = c_blocknum c + Z.of_nat k - 2.
Proof.
  intros Hbs Hc Hint Hfit H. unfold run_file in H.
  rewrite (file_loop_spec txh bh stop bs []) in H; [|done|done|pose proof (length_flat_ser_block bs Hbs); cbn; lia|done|done].
  destruct (spec_blocks_progress _ _ _ _ _ _ _ H) as (k & Hk & Hall & Hp & Hrest).
  exists k. cbn. split; [done|]. split; [done|]. split; [lia|].
  destruct stopped; [destruct Hrest as [Hb Hn]; split; [exact Hb|lia]|lia].
Qed.

(** ** The results on concrete blocks

    Two blocks with one transaction each, and handlers that count. *)
Definition sample_block (tm : Z) : raw_block :=
  {| rb_magic := 0xd9b4_bef9; rb_version := 1; rb_prev := replicate 32 5; rb_merk := replicate 32 6;
     rb_time := tm; rb_bits := 0x1d00_ffff; rb_nonce := 77; rb_txs := [sample_tx] |}.
Definition sample_file : list Z := flat_map ser_block [sample_block 100; sample_block 200].
Definition count_tx (tx : Transaction) (n : Z) : option Z := Some (n + 1).
Definition count_block (b : Block) (n : Z) : option Z := Some (n + 1000).
Definition sample_cursor : cursor Z :=
  {| c_file := 0; c_pos := 0; c_blocknum := 0; c_txcounter := 0; c_log := []; c_state := 0 |}.

Lemma sample_block_ok tm : is32 tm -> block_ok (sample_block tm).
Proof.
  intros Ht. split; cbn [sample_block rb_magic rb_version rb_time rb_bits rb_nonce rb_prev rb_merk rb_txs].
  - unfold is32 in *. lia.
  - split; [|reflexivity]. apply Forall_replicate. unfold is8. lia.
  - split; [|reflexivity]. apply Forall_replicate. unfold is8. lia.
  - constructor; [exact sample_tx_ok|constructor].
  - vm_compute. reflexivity.
Qed.

Lemma sample_blocks_ok : Forall block_ok [sample_block 100; sample_block 200].
Proof.
  constructor; [|constructor; [|constructor]]; apply sample_block_ok; unfold is32; lia.
Qed.

Lemma sample_file_short : Z.of_nat (length sample_file) <= INT_MAX.
Proof. apply Z.leb_le. vm_compute. reflexivity. Qed.
Lemma sample_fits stop : fits stop 0 0 [sample_block 100; sample_block 200].
Proof. cbn. unfold INT_MAX. lia. Qed.

Lemma block_loop_terminates_witness :
  file_loop count_tx count_block 1000 150 sample_file sample_cursor
  = run_file count_tx count_block 150 sample_file sample_cursor.
Proof.
  apply (block_loop_terminates count_tx count_block 150 sample_file sample_cursor 1000).
  - cbn. lia.
  - apply Nat.ltb_lt. vm_compute. reflexivity.
Defined.

Lemma walk_resume_witness :
  let files n := if n =? 0 then Some sample_file else None in
  let p := {| BLKFILE := 0; BLKPOS := 0; BLOCKNUM := -1; TXCOUNTER := -1 |} in
  let c1 := {| c_file := 0; c_pos := 211; c_blocknum := 2; c_txcounter := 1;
               c_log := [OutAddressError 0 0]; c_state := 1001 |} in
  walk count_tx count_block 150 files p [] 0 = Some (true, c1)
  /\ walk count_tx count_block 300 files (saved c1) [OutAddressError 0 0] 1001
     = walk count_tx count_block 300 files p [] 0.
Proof.
  intros files p c1.
  assert (walk count_tx count_block 150 files p [] 0 = Some (true, c1)) as H
    by (vm_compute; reflexivity).
  split; [exact H|]. apply (walk_resume count_tx count_block 150 300 files p [] 0 c1).
  - lia.
  - cbn. lia.
  - exact H.
Defined.

Lemma run_file_blocks_witness :
  run_file count_tx count_block 150 sample_file sample_cursor
  = spec_blocks count_tx count_block 150 sample_cursor [sample_block 100; sample_block 200].
Proof.
  apply (run_file_blocks count_tx count_block 150 [sample_block 100; sample_block 200] sample_cursor).
  - exact sample_blocks_ok.
  - reflexivity.
  - exact sample_file_short.
  - exact (sample_fits _).
Defined.

(** Both blocks are processed, the second with number 1; the saved number is 0. *)
Lemma saved_block_number_witness :
  exists c', run_file count_tx count_block 300 sample_file sample_cursor = Some (false, c')
    /\ BLOCKNUM (saved c') = 0 /\ c_state c' = 2002.
Proof.
  set (c' := {| c_file := 0; c_pos := 422; c_blocknum := 2; c_txcounter := 2;
                c_log := [OutAddressError 0 0; OutAddressError 1 0]; c_state := 2002 |}).
  assert (run_file count_tx count_block 300 sample_file sample_cursor = Some (false, c')) as H
    by (vm_compute; reflexivity).
  exists c'. split; [exact H|]. split; [|reflexivity].
  destruct (saved_block_number count_tx count_block 300 [sample_block 100; sample_block 200]
    sample_cursor false c') as (k & _ & _ & _ & Hk & Hn).
  - exact sample_blocks_ok.
  - reflexivity.
  - exact sample_file_short.
  - exact (sample_fits _).
  - exact H.
  - rewrite Hn, Hk. reflexivity.
Defined.
