(* ===== verification/Streams.v ===== *)
(** * Text files: the parts of the C++ stream library that the program uses

    Files are a map from paths to contents.  [istream::getline] with its buffer
    limit and fail bit, [operator>>] for integers, and an [ofstream] with its
    open file and fail bit, which decides whether what is written reaches a
    file.  Opening a file that is not open already is taken to succeed. *)
From Stdlib Require Import String Ascii Decimal DecimalString DecimalN.
From stdpp Require Import base gmap strings numbers option list.
From S2P Require Import Prelude Sql SqlServer.
Local Open Scope string_scope.
Open Scope Z_scope.

Abbreviation files := (gmap string string).

Definition newline : ascii := ascii_of_nat 10.
Definition endl : string := String newline "".
Definition tab : string := String (ascii_of_nat 9) "".

(** ** Input *)

(** What is left to read and whether reading can go on (no [failbit], no [eofbit]). *)
Record istream := { rest : string; good : bool }.

Definition open_in (f : files) (path : string) : istream :=
  match f !! path with
  | Some s => {| rest := s; good := true |}
  | None => {| rest := ""; good := false |}
  end.

(** [k] characters still fit: the end of the file is tested first, then the
    delimiter, then the space left. *)
Fixpoint getline_loop (k : nat) (s : string) {struct s} : string * istream :=
  match s with
  | EmptyString => ("", {| rest := ""; good := false |})
  | String c s' =>
      if Ascii.eqb c newline then ("", {| rest := s'; good := true |})
      else match k with
           | O => ("", {| rest := s; good := false |})
           | S k' => let '(l, i) := getline_loop k' s' in (String c l, i)
           end
  end.

(** [i.getline(buf, n)]: the text put into the buffer. *)
Definition getline (n : nat) (i : istream) : string * istream :=
  if good i then getline_loop (n - 1) (rest i) else ("", i).

Definition is_digit (c : ascii) : bool :=
  let n := nat_of_ascii c in ((48 <=? n) && (n <=? 57))%nat.
Definition is_space (c : ascii) : bool :=
  let n := nat_of_ascii c in ((9 <=? n) && (n <=? 13) || (n =? 32))%nat.

Fixpoint skip_space (s : string) : string :=
  match s with
  | String c s' => if is_space c then skip_space s' else s
  | EmptyString => s
  end.
Fixpoint digits_of (s : string) : string * string :=
  match s with
  | String c s' => if is_digit c then let '(a, r) := digits_of s' in (String c a, r) else ("", s)
  | EmptyString => ("", "")
  end.

(** [i >> x] for an integer; [None] when there is no number to read. *)
Definition read_int (s : string) : option (Z * string) :=
  match skip_space s with
  | String c s' =>
      if Ascii.eqb c "-" then let '(a, r) := digits_of s' in x ← undec a; Some (- x, r)
      else let '(a, r) := digits_of (String c s') in x ← undec a; Some (x, r)
  | EmptyString => None
  end.

(** [i >> x1 >> ... >> xn] *)
Fixpoint read_ints (n : nat) (s : string) : option (list Z) :=
  match n with
  | O => Some []
  | S n' => '(x, s) ← read_int s; l ← read_ints n' s; Some (x :: l)
  end.

(** ** Output *)

(** [o << x] for an integer that may be negative. *)
Definition sdec (x : Z) : string := if x <? 0 then "-" +:+ dec (- x) else dec x.

(** The file an [ofstream] has open, and its [failbit]. *)
Record ofstream := { o_file : option string; o_fail : bool }.
Definition new_ofstream : ofstream := {| o_file := None; o_fail := false |}.

Definition content (f : files) (path : string) : string := default "" (f !! path).

(** [o.open(path, ios::app)]: opening a stream that has a file open fails and
    leaves that file open; otherwise the state is cleared. *)
Definition open_app (path : string) '((o, f) : ofstream * files) : ofstream * files :=
  match o_file o with
  | Some _ => ({| o_file := o_file o; o_fail := true |}, f)
  | None => ({| o_file := Some path; o_fail := false |}, <[path := content f path]> f)
  end.

(** [o << s] does nothing on a stream whose [failbit] is set. *)
Definition put (s : string) '((o, f) : ofstream * files) : ofstream * files :=
  if o_fail o then (o, f)
  else match o_file o with
       | Some path => (o, <[path := content f path +:+ s]> f)
       | None => ({| o_file := None; o_fail := true |}, f)
       end.

(** [o.close()] keeps the [failbit]. *)
Definition close '((o, f) : ofstream * files) : ofstream * files :=
  ({| o_file := None; o_fail := match o_file o with Some _ => o_fail o | None => true end |}, f).

(** ** Facts *)

(** A line that fits the buffer is read whole, with its delimiter. *)
Fixpoint no_newline (s : string) : bool :=
  match s with EmptyString => true | String c s' => negb (Ascii.eqb c newline) && no_newline s' end.

Lemma getline_line n l s :
  no_newline l = true -> (String.length l < n)%nat ->
  getline n {| rest := l +:+ endl +:+ s; good := true |} = (l, {| rest := s; good := true |}).
Proof.
  intros Hl Hn. unfold getline. cbn [good rest].
  assert (String.length l <= n - 1)%nat as Hk by lia. clear Hn. revert Hk.
  generalize (n - 1)%nat. intros k. revert k.
  induction l as [|c l IH]; intros k Hk; [reflexivity|].
  change ((String c l +:+ ?x)) with (String c (l +:+ x)). cbn [no_newline] in Hl.
  apply andb_true_iff in Hl as [Hc Hl]. apply negb_true_iff in Hc.
  destruct k as [|k]; [cbn in Hk; lia|]. cbn [getline_loop]. rewrite Hc.
  rewrite IH by (done || (cbn in Hk; lia)). reflexivity.
Qed.

Fixpoint all_digits (s : string) : bool :=
  match s with EmptyString => true | String c s' => is_digit c && all_digits s' end.

Lemma all_digits_dec v : all_digits (dec v) = true.
Proof.
  assert (forall u, all_digits (NilEmpty.string_of_uint u) = true) as H by (induction u; auto).
  unfold dec, NilZero.string_of_uint. destruct (N.to_uint (Z.to_N v)); [reflexivity|..]; apply H.
Qed.

Lemma digits_of_app a c s :
  all_digits a = true -> is_digit c = false ->
  digits_of (a +:+ String c s) = (a, String c s).
Proof.
  intros Ha Hc. induction a as [|c' a IH].
  - change ("" +:+ ?x) with x. cbn [digits_of]. by rewrite Hc.
  - change (String c' a +:+ ?x) with (String c' (a +:+ x)). cbn [digits_of all_digits] in *.
    apply andb_true_iff in Ha as [-> Ha]. by rewrite IH.
Qed.

Lemma skip_space_digit s : match s with String c _ => is_digit c = true | "" => True end ->
  skip_space s = s.
Proof.
  destruct s as [|c s]; [done|]. intros H. cbn. unfold is_digit, is_space in *.
  apply andb_true_iff in H as [H1%Nat.leb_le H2%Nat.leb_le].
  destruct (_ || _) eqn:E; [|done]. apply orb_true_iff in E as [E|E%Nat.eqb_eq]; [|lia].
  apply andb_true_iff in E as [E1%Nat.leb_le E2%Nat.leb_le]. lia.
Qed.

Lemma digit_not_minus c : is_digit c = true -> Ascii.eqb c "-" = false.
Proof. intros H. destruct c as [[] [] [] [] [] [] [] []]; try reflexivity. discriminate. Qed.

(** Numbers written to a file, each on a line, are read back. *)
Lemma read_int_sdec x s : read_int (sdec x +:+ endl +:+ s) = Some (x, endl +:+ s).
Proof.
  assert (forall v, exists c d, dec v = String c d /\ is_digit c = true) as Hd.
  { intros v. pose proof (all_digits_dec v) as H. unfold dec in *.
    destruct (NilZero.string_of_uint (N.to_uint (Z.to_N v))) as [|c d] eqn:E.
    - exfalso. unfold NilZero.string_of_uint in E. by destruct (N.to_uint (Z.to_N v)).
    - exists c, d. split; [done|]. cbn in H. by apply andb_true_iff in H as [-> _]. }
  assert (forall v, digits_of (dec v +:+ endl +:+ s) = (dec v, endl +:+ s)) as Hs.
  { intros v. apply (digits_of_app (dec v) newline); [apply all_digits_dec|reflexivity]. }
  unfold read_int, sdec. destruct (Z.ltb_spec x 0).
  - change (("-" +:+ dec (- x)) +:+ ?t) with (String "-" (dec (- x) +:+ t)). cbn [skip_space].
    change (is_space "-") with false. cbn iota. rewrite Ascii.eqb_refl. rewrite Hs, undec_dec by lia.
    cbn [mbind option_bind]. do 2 f_equal. lia.
  - destruct (Hd x) as (c & d & E & Hc). pose proof (Hs x) as Hx. rewrite E in *.
    change (String c d +:+ ?t) with (String c (d +:+ t)) in *.
    rewrite skip_space_digit by exact Hc. rewrite digit_not_minus by exact Hc.
    rewrite Hx, <- E, undec_dec by lia. reflexivity.
Qed.

Lemma read_int_endl s : read_int (endl +:+ s) = read_int s.
Proof. reflexivity. Qed.

Definition lines (l : list string) : string := foldr (fun a s => a +:+ endl +:+ s) "" l.

Lemma read_ints_lines xs s : read_ints (length xs) (lines (map sdec xs) +:+ s) = Some xs.
Proof.
  assert (forall n s0, read_ints n (endl +:+ s0) = read_ints n s0) as He.
  { intros [|n] s0; [reflexivity|]. cbn [read_ints]. by rewrite read_int_endl. }
  induction xs as [|x xs IH]; [reflexivity|].
  cbn [length map lines foldr read_ints]. rewrite !append_assoc.
  change (foldr (fun a s1 => a +:+ endl +:+ s1) "" (map sdec xs)) with (lines (map sdec xs)).
  rewrite read_int_sdec. cbn [mbind option_bind]. rewrite He, IH. reflexivity.
Qed.
