(* ===== verification/Timerange.v ===== *)
(** * The time ranges of the analysis: src/BitcoinAnalysis/timerange.h, the block
    file names of BlockFileName.h, and the parameter files

    [set_parameter] writes the stop date of a month for [unzipBlocks] and the
    month with its two limits for [statistical]; the readers are the first lines
    of those two functions. *)
From Stdlib Require Import String Ascii.
From stdpp Require Import base gmap strings numbers option list.
From S2P Require Import Prelude Sql SqlServer Calendar Streams.
Local Open Scope string_scope.
Open Scope Z_scope.

Definition YEAR : list Z :=
  [2009; 2009; 2009; 2009; 2009; 2009; 2009; 2009; 2009; 2009; 2009; 2009;
   2010; 2010; 2010; 2010; 2010; 2010; 2010; 2010; 2010; 2010; 2010; 2010;
   2011; 2011; 2011; 2011; 2011; 2011; 2011; 2011; 2011; 2011; 2011; 2011;
   2012; 2012; 2012; 2012; 2012; 2012; 2012; 2012; 2012; 2012; 2012; 2012;
   2013; 2013; 2013; 2013; 2013; 2013; 2013; 2013; 2013; 2013; 2013; 2013;
   2014; 2014; 2014; 2014; 2014; 2014; 2014; 2014; 2014; 2014; 2014; 2014].
Definition MONTH : list Z :=
  [1; 2; 3; 4; 5; 6; 7; 8; 9; 10; 11; 12;
   1; 2; 3; 4; 5; 6; 7; 8; 9; 10; 11; 12;
   1; 2; 3; 4; 5; 6; 7; 8; 9; 10; 11; 12;
   1; 2; 3; 4; 5; 6; 7; 8; 9; 10; 11; 12;
   1; 2; 3; 4; 5; 6; 7; 8; 9; 10; 11; 12;
   1; 2; 3; 4; 5; 6; 7; 8; 9; 10; 11; 12].
Definition DAY : list Z :=
  [31; 28; 31; 30; 31; 30; 31; 31; 30; 31; 30; 31;
   31; 28; 31; 30; 31; 30; 31; 31; 30; 31; 30; 31;
   31; 28; 31; 30; 31; 30; 31; 31; 30; 31; 30; 31;
   31; 29; 31; 30; 31; 30; 31; 31; 30; 31; 30; 31;
   31; 28; 31; 30; 31; 30; 31; 31; 30; 31; 30; 31;
   31; 28; 31; 30; 31; 30; 31; 31; 30; 31; 30; 31].
Definition RANGE : list string :=
  ["2009-01"; "2009-02"; "2009-03"; "2009-04"; "2009-05"; "2009-06";
   "2009-07"; "2009-08"; "2009-09"; "2009-10"; "2009-11"; "2009-12";
   "2010-01"; "2010-02"; "2010-03"; "2010-04"; "2010-05"; "2010-06";
   "2010-07"; "2010-08"; "2010-09"; "2010-10"; "2010-11"; "2010-12";
   "2011-01"; "2011-02"; "2011-03"; "2011-04"; "2011-05"; "2011-06";
   "2011-07"; "2011-08"; "2011-09"; "2011-10"; "2011-11"; "2011-12";
   "2012-01"; "2012-02"; "2012-03"; "2012-04"; "2012-05"; "2012-06";
   "2012-07"; "2012-08"; "2012-09"; "2012-10"; "2012-11"; "2012-12";
   "2013-01"; "2013-02"; "2013-03"; "2013-04"; "2013-05"; "2013-06";
   "2013-07"; "2013-08"; "2013-09"; "2013-10"; "2013-11"; "2013-12";
   "2014-01"; "2014-02"; "2014-03"; "2014-04"; "2014-05"; "2014-06";
   "2014-07"; "2014-08"; "2014-09"; "2014-10"; "2014-11"; "2014-12"].
Definition BEFORE : list string :=
  ["2008-10-31-00-00-00"; "2008-11-30-00-00-00"; "2008-12-31-00-00-00";
   "2009-01-31-00-00-00"; "2009-02-28-00-00-00"; "2009-03-31-00-00-00";
   "2009-04-30-00-00-00"; "2009-05-31-00-00-00"; "2009-06-30-00-00-00";
   "2009-07-31-00-00-00"; "2009-08-31-00-00-00"; "2009-09-30-00-00-00";
   "2009-10-31-00-00-00"; "2009-11-30-00-00-00"; "2009-12-31-00-00-00";
   "2010-01-31-00-00-00"; "2010-02-28-00-00-00"; "2010-03-31-00-00-00";
   "2010-04-30-00-00-00"; "2010-05-31-00-00-00"; "2010-06-30-00-00-00";
   "2010-07-31-00-00-00"; "2010-08-31-00-00-00"; "2010-09-30-00-00-00";
   "2010-10-31-00-00-00"; "2010-11-30-00-00-00"; "2010-12-31-00-00-00";
   "2011-01-31-00-00-00"; "2011-02-28-00-00-00"; "2011-03-31-00-00-00";
   "2011-04-30-00-00-00"; "2011-05-31-00-00-00"; "2011-06-30-00-00-00";
   "2011-07-31-00-00-00"; "2011-08-31-00-00-00"; "2011-09-30-00-00-00";
   "2011-10-31-00-00-00"; "2011-11-30-00-00-00"; "2011-12-31-00-00-00";
   "2012-01-31-00-00-00"; "2012-02-29-00-00-00"; "2012-03-31-00-00-00";
   "2012-04-30-00-00-00"; "2012-05-31-00-00-00"; "2012-06-30-00-00-00";
   "2012-07-31-00-00-00"; "2012-08-31-00-00-00"; "2012-09-30-00-00-00";
   "2012-10-31-00-00-00"; "2012-11-30-00-00-00"; "2012-12-31-00-00-00";
   "2013-01-31-00-00-00"; "2013-02-28-00-00-00"; "2013-03-31-00-00-00";
   "2013-04-30-00-00-00"; "2013-05-31-00-00-00"; "2013-06-30-00-00-00";
   "2013-07-31-00-00-00"; "2013-08-31-00-00-00"; "2013-09-30-00-00-00";
   "2013-10-31-00-00-00"; "2013-11-30-00-00-00"; "2013-12-31-00-00-00";
   "2014-01-31-00-00-00"; "2014-02-28-00-00-00"; "2014-03-31-00-00-00";
   "2014-04-30-00-00-00"; "2014-05-31-00-00-00"; "2014-06-30-00-00-00";
   "2014-07-31-00-00-00"; "2014-08-31-00-00-00"; "2014-09-30-00-00-00"].
Definition AFTER : list string :=
  ["2009-01-01-00-00-00"; "2009-02-01-00-00-00"; "2009-03-01-00-00-00";
   "2009-04-01-00-00-00"; "2009-05-01-00-00-00"; "2009-06-01-00-00-00";
   "2009-07-01-00-00-00"; "2009-08-01-00-00-00"; "2009-09-01-00-00-00";
   "2009-10-01-00-00-00"; "2009-11-01-00-00-00"; "2009-12-01-00-00-00";
   "2010-01-01-00-00-00"; "2010-02-01-00-00-00"; "2010-03-01-00-00-00";
   "2010-04-01-00-00-00"; "2010-05-01-00-00-00"; "2010-06-01-00-00-00";
   "2010-07-01-00-00-00"; "2010-08-01-00-00-00"; "2010-09-01-00-00-00";
   "2010-10-01-00-00-00"; "2010-11-01-00-00-00"; "2010-12-01-00-00-00";
   "2011-01-01-00-00-00"; "2011-02-01-00-00-00"; "2011-03-01-00-00-00";
   "2011-04-01-00-00-00"; "2011-05-01-00-00-00"; "2011-06-01-00-00-00";
   "2011-07-01-00-00-00"; "2011-08-01-00-00-00"; "2011-09-01-00-00-00";
   "2011-10-01-00-00-00"; "2011-11-01-00-00-00"; "2011-12-01-00-00-00";
   "2012-01-01-00-00-00"; "2012-02-01-00-00-00"; "2012-03-01-00-00-00";
   "2012-04-01-00-00-00"; "2012-05-01-00-00-00"; "2012-06-01-00-00-00";
   "2012-07-01-00-00-00"; "2012-08-01-00-00-00"; "2012-09-01-00-00-00";
   "2012-10-01-00-00-00"; "2012-11-01-00-00-00"; "2012-12-01-00-00-00";
   "2013-01-01-00-00-00"; "2013-02-01-00-00-00"; "2013-03-01-00-00-00";
   "2013-04-01-00-00-00"; "2013-05-01-00-00-00"; "2013-06-01-00-00-00";
   "2013-07-01-00-00-00"; "2013-08-01-00-00-00"; "2013-09-01-00-00-00";
   "2013-10-01-00-00-00"; "2013-11-01-00-00-00"; "2013-12-01-00-00-00";
   "2014-01-01-00-00-00"; "2014-02-01-00-00-00"; "2014-03-01-00-00-00";
   "2014-04-01-00-00-00"; "2014-05-01-00-00-00"; "2014-06-01-00-00-00";
   "2014-07-01-00-00-00"; "2014-08-01-00-00-00"; "2014-09-01-00-00-00";
   "2014-10-01-00-00-00"; "2014-11-01-00-00-00"; "2014-12-01-00-00-00"].
Definition blkname : list string :=
  ["E:\blocks\blk00000.dat"; "E:\blocks\blk00001.dat"; "E:\blocks\blk00002.dat";
   "E:\blocks\blk00003.dat"; "E:\blocks\blk00004.dat"; "E:\blocks\blk00005.dat";
   "E:\blocks\blk00006.dat"; "E:\blocks\blk00007.dat"; "E:\blocks\blk00008.dat";
   "E:\blocks\blk00009.dat"; "E:\blocks\blk00010.dat"; "E:\blocks\blk00011.dat";
   "E:\blocks\blk00012.dat"; "E:\blocks\blk00013.dat"; "E:\blocks\blk00014.dat";
   "E:\blocks\blk00015.dat"; "E:\blocks\blk00016.dat"; "E:\blocks\blk00017.dat";
   "E:\blocks\blk00018.dat"; "E:\blocks\blk00019.dat"; "E:\blocks\blk00020.dat";
   "E:\blocks\blk00021.dat"; "E:\blocks\blk00022.dat"; "E:\blocks\blk00023.dat";
   "E:\blocks\blk00024.dat"; "E:\blocks\blk00025.dat"; "E:\blocks\blk00026.dat";
   "E:\blocks\blk00027.dat"; "E:\blocks\blk00028.dat"; "E:\blocks\blk00029.dat";
   "E:\blocks\blk00030.dat"; "E:\blocks\blk00031.dat"; "E:\blocks\blk00032.dat";
   "E:\blocks\blk00033.dat"; "E:\blocks\blk00034.dat"; "E:\blocks\blk00035.dat";
   "E:\blocks\blk00036.dat"; "E:\blocks\blk00037.dat"; "E:\blocks\blk00038.dat";
   "E:\blocks\blk00039.dat"; "E:\blocks\blk00040.dat"; "E:\blocks\blk00041.dat";
   "E:\blocks\blk00042.dat"; "E:\blocks\blk00043.dat"; "E:\blocks\blk00044.dat";
   "E:\blocks\blk00045.dat"; "E:\blocks\blk00046.dat"; "E:\blocks\blk00047.dat";
   "E:\blocks\blk00048.dat"; "E:\blocks\blk00049.dat"; "E:\blocks\blk00050.dat";
   "E:\blocks\blk00051.dat"; "E:\blocks\blk00052.dat"; "E:\blocks\blk00053.dat";
   "E:\blocks\blk00054.dat"; "E:\blocks\blk00055.dat"; "E:\blocks\blk00056.dat";
   "E:\blocks\blk00057.dat"; "E:\blocks\blk00058.dat"; "E:\blocks\blk00059.dat";
   "E:\blocks\blk00060.dat"; "E:\blocks\blk00061.dat"; "E:\blocks\blk00062.dat";
   "E:\blocks\blk00063.dat"; "E:\blocks\blk00064.dat"; "E:\blocks\blk00065.dat";
   "E:\blocks\blk00066.dat"; "E:\blocks\blk00067.dat"; "E:\blocks\blk00068.dat";
   "E:\blocks\blk00069.dat"; "E:\blocks\blk00070.dat"; "E:\blocks\blk00071.dat";
   "E:\blocks\blk00072.dat"; "E:\blocks\blk00073.dat"; "E:\blocks\blk00074.dat";
   "E:\blocks\blk00075.dat"; "E:\blocks\blk00076.dat"; "E:\blocks\blk00077.dat";
   "E:\blocks\blk00078.dat"; "E:\blocks\blk00079.dat"; "E:\blocks\blk00080.dat";
   "E:\blocks\blk00081.dat"; "E:\blocks\blk00082.dat"; "E:\blocks\blk00083.dat";
   "E:\blocks\blk00084.dat"; "E:\blocks\blk00085.dat"; "E:\blocks\blk00086.dat";
   "E:\blocks\blk00087.dat"; "E:\blocks\blk00088.dat"; "E:\blocks\blk00089.dat";
   "E:\blocks\blk00090.dat"; "E:\blocks\blk00091.dat"; "E:\blocks\blk00092.dat";
   "E:\blocks\blk00093.dat"; "E:\blocks\blk00094.dat"; "E:\blocks\blk00095.dat";
   "E:\blocks\blk00096.dat"; "E:\blocks\blk00097.dat"; "E:\blocks\blk00098.dat";
   "E:\blocks\blk00099.dat"; "E:\blocks\blk00100.dat"; "E:\blocks\blk00101.dat";
   "E:\blocks\blk00102.dat"; "E:\blocks\blk00103.dat"; "E:\blocks\blk00104.dat";
   "E:\blocks\blk00105.dat"; "E:\blocks\blk00106.dat"; "E:\blocks\blk00107.dat";
   "E:\blocks\blk00108.dat"; "E:\blocks\blk00109.dat"; "E:\blocks\blk00110.dat";
   "E:\blocks\blk00111.dat"; "E:\blocks\blk00112.dat"; "E:\blocks\blk00113.dat";
   "E:\blocks\blk00114.dat"; "E:\blocks\blk00115.dat"; "E:\blocks\blk00116.dat";
   "E:\blocks\blk00117.dat"; "E:\blocks\blk00118.dat"; "E:\blocks\blk00119.dat";
   "E:\blocks\blk00120.dat"; "E:\blocks\blk00121.dat"; "E:\blocks\blk00122.dat";
   "E:\blocks\blk00123.dat"; "E:\blocks\blk00124.dat"; "E:\blocks\blk00125.dat";
   "E:\blocks\blk00126.dat"; "E:\blocks\blk00127.dat"; "E:\blocks\blk00128.dat";
   "E:\blocks\blk00129.dat"; "E:\blocks\blk00130.dat"; "E:\blocks\blk00131.dat";
   "E:\blocks\blk00132.dat"; "E:\blocks\blk00133.dat"; "E:\blocks\blk00134.dat";
   "E:\blocks\blk00135.dat"; "E:\blocks\blk00136.dat"; "E:\blocks\blk00137.dat";
   "E:\blocks\blk00138.dat"; "E:\blocks\blk00139.dat"; "E:\blocks\blk00140.dat";
   "E:\blocks\blk00141.dat"; "E:\blocks\blk00142.dat"; "E:\blocks\blk00143.dat";
   "E:\blocks\blk00144.dat"; "E:\blocks\blk00145.dat"; "E:\blocks\blk00146.dat";
   "E:\blocks\blk00147.dat"; "E:\blocks\blk00148.dat"; "E:\blocks\blk00149.dat";
   "E:\blocks\blk00150.dat"; "E:\blocks\blk00151.dat"; "E:\blocks\blk00152.dat";
   "E:\blocks\blk00153.dat"; "E:\blocks\blk00154.dat"; "E:\blocks\blk00155.dat";
   "E:\blocks\blk00156.dat"; "E:\blocks\blk00157.dat"; "E:\blocks\blk00158.dat";
   "E:\blocks\blk00159.dat"; "E:\blocks\blk00160.dat"; "E:\blocks\blk00161.dat";
   "E:\blocks\blk00162.dat"; "E:\blocks\blk00163.dat"; "E:\blocks\blk00164.dat";
   "E:\blocks\blk00165.dat"; "E:\blocks\blk00166.dat"; "E:\blocks\blk00167.dat";
   "E:\blocks\blk00168.dat"; "E:\blocks\blk00169.dat"; "E:\blocks\blk00170.dat";
   "E:\blocks\blk00171.dat"; "E:\blocks\blk00172.dat"; "E:\blocks\blk00173.dat";
   "E:\blocks\blk00174.dat"; "E:\blocks\blk00175.dat"; "E:\blocks\blk00176.dat";
   "E:\blocks\blk00177.dat"; "E:\blocks\blk00178.dat"; "E:\blocks\blk00179.dat";
   "E:\blocks\blk00180.dat"; "E:\blocks\blk00181.dat"; "E:\blocks\blk00182.dat";
   "E:\blocks\blk00183.dat"; "E:\blocks\blk00184.dat"; "E:\blocks\blk00185.dat";
   "E:\blocks\blk00186.dat"; "E:\blocks\blk00187.dat"; "E:\blocks\blk00188.dat";
   "E:\blocks\blk00189.dat"; "E:\blocks\blk00190.dat"; "E:\blocks\blk00191.dat";
   "E:\blocks\blk00192.dat"; "E:\blocks\blk00193.dat"; "E:\blocks\blk00194.dat";
   "E:\blocks\blk00195.dat"; "E:\blocks\blk00196.dat"; "E:\blocks\blk00197.dat";
   "E:\blocks\blk00198.dat"; "E:\blocks\blk00199.dat"; "E:\blocks\blk00200.dat";
   "E:\blocks\blk00201.dat"; "E:\blocks\blk00202.dat"; "E:\blocks\blk00203.dat";
   "E:\blocks\blk00204.dat"; "E:\blocks\blk00205.dat"; "E:\blocks\blk00206.dat";
   "E:\blocks\blk00207.dat"; "E:\blocks\blk00208.dat"; "E:\blocks\blk00209.dat";
   "E:\blocks\blk00210.dat"; "E:\blocks\blk00211.dat"; "E:\blocks\blk00212.dat";
   "E:\blocks\blk00213.dat"; "E:\blocks\blk00214.dat"; "E:\blocks\blk00215.dat";
   "E:\blocks\blk00216.dat"; "E:\blocks\blk00217.dat"; "E:\blocks\blk00218.dat";
   "E:\blocks\blk00219.dat"; "E:\blocks\blk00220.dat"; "E:\blocks\blk00221.dat";
   "E:\blocks\blk00222.dat"; "E:\blocks\blk00223.dat"; "E:\blocks\blk00224.dat";
   "E:\blocks\blk00225.dat"; "E:\blocks\blk00226.dat"; "E:\blocks\blk00227.dat";
   "E:\blocks\blk00228.dat"; "E:\blocks\blk00229.dat"; "E:\blocks\blk00230.dat";
   "E:\blocks\blk00231.dat"; "E:\blocks\blk00232.dat"; "E:\blocks\blk00233.dat";
   "E:\blocks\blk00234.dat"; "E:\blocks\blk00235.dat"; "E:\blocks\blk00236.dat"].

Definition unzip_1 : string := "H:\para\1.unzip_1.txt".
Definition statistic_txt : string := "H:\para\5.statistic.txt".

(** [None] is an index outside the tables. *)
Definition set_parameter (i : nat) (f : files) : option files :=
  year ← YEAR !! i; month ← MONTH !! i; day ← DAY !! i;
  range ← RANGE !! i; before ← BEFORE !! i; after ← AFTER !! i;
  let f := <[unzip_1 := lines [sdec year; sdec month; sdec day]]> f in
  Some (<[statistic_txt := lines [range; before; after]]> f).

(** [parameter >> STOPYEAR >> STOPMON >> STOPDAY] *)
Definition read_stop (f : files) : option (Z * Z * Z) :=
  s ← f !! unzip_1;
  l ← read_ints 3 s;
  match l with [y; m; d] => Some (y, m, d) | _ => None end.

(** The three [getline]s at the start of [statistical]. *)
Definition read_time_range (f : files) : string * string * string :=
  let timefile := open_in f statistic_txt in
  let '(timerange, timefile) := getline 8 timefile in
  let '(before, timefile) := getline 20 timefile in
  let '(after, _) := getline 20 timefile in
  (timerange, before, after).

(** ** The tables and the calendar *)

(** Month [i] after January 2009. *)
Definition month_of (i : Z) : Z * Z := (2009 + i / 12, i mod 12 + 1).

Definition range_ok (i : nat) : bool :=
  let '(y, m) := month_of (Z.of_nat i) in
  let '(y3, m3) := month_of (Z.of_nat i - 3) in
  bool_decide (YEAR !! i = Some y) && bool_decide (MONTH !! i = Some m)
  && bool_decide (DAY !! i = Some (month_length y m))
  && bool_decide (RANGE !! i = Some (pad4 y +:+ "-" +:+ pad2 m))
  && bool_decide (BEFORE !! i = Some (midnight y3 m3 (month_length y3 m3)))
  && bool_decide (AFTER !! i = Some (midnight y m 1)).

Lemma ranges_ok : forallb range_ok (seq 0 72) = true.
Proof. vm_compute. reflexivity. Qed.

Record range_spec (i : nat) (y m y3 m3 : Z) : Prop := {
  rs_year : YEAR !! i = Some y;
  rs_month : MONTH !! i = Some m;
  rs_day : DAY !! i = Some (month_length y m);
  rs_range : RANGE !! i = Some (pad4 y +:+ "-" +:+ pad2 m);
  rs_before : BEFORE !! i = Some (midnight y3 m3 (month_length y3 m3));
  rs_after : AFTER !! i = Some (midnight y m 1) }.

Lemma range_spec_of i y m y3 m3 :
  (i < 72)%nat -> month_of (Z.of_nat i) = (y, m) -> month_of (Z.of_nat i - 3) = (y3, m3) ->
  range_spec i y m y3 m3.
Proof.
  intros Hi E E3.
  pose proof (proj1 (forallb_forall range_ok (seq 0 72)) ranges_ok i) as H.
  specialize (H ltac:(apply Stdlib.Lists.List.in_seq; lia)). unfold range_ok in H. rewrite E, E3 in H.
  rewrite !andb_true_iff, !bool_decide_eq_true in H. by destruct H as [[[[[? ?] ?] ?] ?] ?].
Qed.

(** The texts fit the buffers that they are read into. *)
Definition fits (n : nat) (t : string) : bool := no_newline t && (String.length t <? n)%nat.

Lemma texts_fit :
  forallb (fits 8) RANGE && forallb (fits 20) BEFORE && forallb (fits 20) AFTER = true.
Proof. vm_compute. reflexivity. Qed.

Lemma forallb_lookup {A} (p : A -> bool) l i x : forallb p l = true -> l !! i = Some x -> p x = true.
Proof.
  intros Hl Hx. rewrite forallb_forall in Hl. apply Hl.
  by apply list_elem_of_In, (list_elem_of_lookup_2 _ i).
Qed.

Lemma getline_fits n t s :
  fits n t = true ->
  getline n {| rest := t +:+ endl +:+ s; good := true |} = (t, {| rest := s; good := true |}).
Proof. intros [H1 H2%Nat.ltb_lt]%andb_true_iff. by apply getline_line. Qed.

Lemma read_time_range_lines f r b a :
  f !! statistic_txt = Some (lines [r; b; a]) ->
  fits 8 r = true -> fits 20 b = true -> fits 20 a = true ->
  read_time_range f = (r, b, a).
Proof.
  intros Hf Hr Hb Ha. unfold read_time_range, open_in. rewrite Hf. unfold lines. cbn [foldr].
  rewrite (getline_fits 8 r _ Hr), (getline_fits 20 b _ Hb), (getline_fits 20 a _ Ha). reflexivity.
Qed.

(** Block file names *)
Definition pad5 (n : Z) : string := String (digit (n / 10000)) (pad4 (n mod 10000)).
Definition file_ok (i : nat) : bool :=
  bool_decide (blkname !! i = Some ("E:\blocks\blk" +:+ pad5 (Z.of_nat i) +:+ ".dat")).
Lemma files_ok : forallb file_ok (seq 0 237) = true.
Proof. vm_compute. reflexivity. Qed.

Lemma blkname_NoDup : NoDup blkname.
Proof. apply (bool_decide_unpack (NoDup blkname)). vm_compute. exact I. Qed.

(** What the two programs read after [set_parameter]; the limits can be quoted in a
    query. *)
Lemma limits_arg : forallb arg_text BEFORE && forallb arg_text AFTER = true.
Proof. vm_compute. reflexivity. Qed.

Lemma set_parameter_spec i f :
  (i < 72)%nat ->
  exists f' y m d r b a, set_parameter i f = Some f'
    /\ YEAR !! i = Some y /\ MONTH !! i = Some m /\ DAY !! i = Some d
    /\ RANGE !! i = Some r /\ BEFORE !! i = Some b /\ AFTER !! i = Some a
    /\ read_stop f' = Some (y, m, d) /\ read_time_range f' = (r, b, a)
    /\ (forall path, path <> unzip_1 -> path <> statistic_txt -> f' !! path = f !! path).
Proof.
  intros Hi. destruct (month_of (Z.of_nat i)) as [y m] eqn:E.
  destruct (month_of (Z.of_nat i - 3)) as [y3 m3] eqn:E3.
  destruct (range_spec_of i y m y3 m3 Hi E E3) as [Ey Em Ed Er Eb Ea].
  pose proof texts_fit as Hfit. rewrite !andb_true_iff in Hfit. destruct Hfit as [[Fr Fb] Fa].
  unfold set_parameter. rewrite Ey, Em, Ed, Er, Eb, Ea. cbn [mbind option_bind].
  do 7 eexists. split; [reflexivity|]. do 6 (split; [reflexivity|]). split; [|split].
  - unfold read_stop. rewrite lookup_insert_ne, lookup_insert_eq by done. cbn [mbind option_bind].
    pose proof (read_ints_lines [y; m; month_length y m] "") as H. rewrite append_nil_r in H.
    cbn [length map] in H. rewrite H. reflexivity.
  - apply read_time_range_lines; [apply lookup_insert_eq| | |].
    + by apply (forallb_lookup _ RANGE i).
    + by apply (forallb_lookup _ BEFORE i).
    + by apply (forallb_lookup _ AFTER i).
  - intros path H1 H2. by rewrite !lookup_insert_ne by congruence.
Qed.

Lemma set_parameter_reads i f f1 :
  (i < 72)%nat -> set_parameter i f = Some f1 ->
  exists r b a, read_time_range f1 = (r, b, a) /\ BEFORE !! i = Some b /\ AFTER !! i = Some a
    /\ arg_text b = true /\ arg_text a = true
    /\ (forall path, path <> unzip_1 -> path <> statistic_txt -> f1 !! path = f !! path).
Proof.
  intros Hi Hf. destruct (set_parameter_spec i f Hi)
    as (f' & y & m & d & r & b & a & Hf' & _ & _ & _ & _ & Eb & Ea & _ & Ht & Ho).
  rewrite Hf' in Hf. injection Hf as <-. exists r, b, a. pose proof limits_arg as H.
  apply andb_true_iff in H as [H1 H2].
  split_and!; try done; [by apply (forallb_lookup _ BEFORE i)|by apply (forallb_lookup _ AFTER i)].
Qed.

(** ** Results *)

(** The tables of [timerange.h] are the months from January 2009 to December
    2014: the stop date is the last day of the month, leap years included, the
    range is its name, the upper limit [AFTER] its first day and the lower limit
    [BEFORE] the last day of the month three months earlier; the day after a stop
    date is the first day of the next month. *)
Theorem timerange_calendar i y m y3 m3 :
  (i < 72)%nat -> month_of (Z.of_nat i) = (y, m) -> month_of (Z.of_nat i - 3) = (y3, m3) ->
  range_spec i y m y3 m3
  /\ next_day (y, m, month_length y m) = (month_of (Z.of_nat i + 1), 1).
Proof.
  intros Hi E E3. split; [by apply range_spec_of|].
  unfold month_of in *. injection E as <- <-. unfold next_day. rewrite Z.ltb_irrefl.
  assert (forall a b c a' b' c' : Z, a = a' -> b = b' -> c = c' -> (a, b, c) = (a', b', c')) as Heq
    by congruence.
  destruct (Z.ltb_spec (Z.of_nat i mod 12 + 1) 12); apply Heq; try reflexivity;
    Z.to_euclidean_division_equations; lia.
Qed.

Lemma timerange_calendar_witness : range_spec 37 2012 2 2011 11.
Proof. apply (timerange_calendar 37 2012 2 2011 11); [lia|reflexivity..]. Defined.

(** What [set_parameter] writes for a month is what [unzipBlocks] and
    [statistical] read: the stop date and, through [getline] buffers of 8 and 20
    characters, the three texts; no other file is touched. *)
Theorem set_parameter_roundtrip i f :
  (i < 72)%nat ->
  exists f' y m d r b a, set_parameter i f = Some f'
    /\ YEAR !! i = Some y /\ MONTH !! i = Some m /\ DAY !! i = Some d
    /\ RANGE !! i = Some r /\ BEFORE !! i = Some b /\ AFTER !! i = Some a
    /\ read_stop f' = Some (y, m, d) /\ read_time_range f' = (r, b, a)
    /\ (forall path, path <> unzip_1 -> path <> statistic_txt -> f' !! path = f !! path).
Proof. apply set_parameter_spec. Qed.

Lemma set_parameter_roundtrip_witness :
  exists f', set_parameter 20 ∅ = Some f' /\ read_stop f' = Some (2010, 9, 30)
    /\ read_time_range f' = ("2010-09", "2010-06-30-00-00-00", "2010-09-01-00-00-00").
Proof.
  destruct (set_parameter_roundtrip 20 ∅ ltac:(lia))
    as (f' & y & m & d & r & b & a & Hf & Hy & Hm & Hd & Hr & Hb & Ha & Hs & Ht & _).
  vm_compute in Hy, Hm, Hd, Hr, Hb, Ha. simplify_eq. exists f'. split; [exact Hf|]. by split.
Defined.

(** The block files: entry [i] of the table is [blk] and the five digits of
    [i]; so the entries are different, and the loop over 218 files stays inside
    the table. *)
Theorem blkname_files :
  (218 <= length blkname)%nat /\ NoDup blkname
  /\ forall i, (i < length blkname)%nat ->
     blkname !! i = Some ("E:\blocks\blk" +:+ pad5 (Z.of_nat i) +:+ ".dat").
Proof.
  split; [vm_compute; lia|]. split.
  - exact blkname_NoDup.
  - intros i Hi. change (length blkname) with 237%nat in Hi.
    pose proof (proj1 (forallb_forall file_ok (seq 0 237)) files_ok i) as H.
    specialize (H ltac:(apply Stdlib.Lists.List.in_seq; lia)). by apply bool_decide_eq_true in H.
Qed.
