(* ===== verification/Report.v ===== *)
(** * The queries of the statistics and what they mean

    [statistical] (src/BitcoinAnalysis/Statistical.h) asks the MySQL server for
    counts and aggregates over the four tables.  [query] is the form of its
    queries, [query_text] their text and [query_value] the value that MySQL
    documents for them; the class [Reporting] adds to [MySQL] that the server
    answers so.  The texts of averages and the like, and the server's
    [unix_timestamp], are fields of the class.

    The table definitions are not in the repository: the names of the columns
    of [txinfo] and [blkinfo] are matched with the values inserted by
    [Transaction2MySQL] and [BlockProcess] by their meaning. *)
From Stdlib Require Import String Ascii Decimal DecimalString DecimalN.
From stdpp Require Import base gmap strings numbers option list.
From S2P Require Import Prelude Sql SqlServer Calendar Streams.
Local Open Scope string_scope.
Open Scope Z_scope.

(** ** Queries *)

Inductive table := Addressinfo | Entityinfo | Txinfo | Blkinfo.
Inductive column :=
  | Caddcnt | Coutval | Cinval | Cbal | Cmaxbal | Cincnt | Coutcnt
  | Coutvalue | Ctxsize | Ctxfee | Ctxcnt | Cdiff | Cblksize | Creward.
Inductive tcolumn := Tfirsttm | Tlasttm | Ttxtime | Tblktime.

Definition table_name (t : table) : string :=
  match t with
  | Addressinfo => "addressinfo" | Entityinfo => "entityinfo" | Txinfo => "txinfo"
  | Blkinfo => "blkinfo"
  end.
Definition column_name (c : column) : string :=
  match c with
  | Caddcnt => "addcnt" | Coutval => "outval" | Cinval => "inval" | Cbal => "bal"
  | Cmaxbal => "maxbal" | Cincnt => "incnt" | Coutcnt => "outcnt" | Coutvalue => "outvalue"
  | Ctxsize => "txsize" | Ctxfee => "txfee" | Ctxcnt => "txcnt" | Cdiff => "diff"
  | Cblksize => "blksize" | Creward => "reward"
  end.
Definition tcolumn_name (c : tcolumn) : string :=
  match c with
  | Tfirsttm => "firsttm" | Tlasttm => "lasttm" | Ttxtime => "txtime" | Tblktime => "blktime"
  end.

(** Limits: a number, a number of coins, or tenths or hundredths of a coin. *)
Inductive bound := Num (n : Z) | Coins (n : Z) | Tenths (n : Z) | Hundredths (n : Z).
Definition bound_text (b : bound) : string :=
  match b with
  | Num n => dec n
  | Coins n => dec n +:+ "*100000000"
  | Tenths n => "0." +:+ dec n +:+ "*100000000"
  | Hundredths n => "0.0" +:+ dec n +:+ "*100000000"
  end.
Definition bound_value (b : bound) : Z :=
  match b with
  | Num n => n | Coins n => n * 100000000 | Tenths n => n * 10000000
  | Hundredths n => n * 1000000
  end.
Definition bound_ok (b : bound) : bool :=
  match b with
  | Num n | Coins n => 0 <=? n
  | Tenths n | Hundredths n => (1 <=? n) && (n <=? 9)
  end.

Inductive time_op := TLt | TGt | TGe.
Definition time_op_text (o : time_op) : string :=
  match o with TLt => "<" | TGt => ">" | TGe => ">=" end.

(** What conditions compare: a column, or the number of transactions taken part in. *)
Inductive term := TCol (c : column) | TInOut.
Definition term_text (x : term) : string :=
  match x with TCol c => column_name c | TInOut => "(incnt+outcnt)" end.

Inductive cond :=
  | CNum (x : term) (ge : bool) (b : bound)
  | CTime (c : tcolumn) (o : time_op) (time : string).

(** A condition starts with one of finitely many texts and ends with its limit;
    [rest] is the text after it. *)
Definition num_head (x : term) (ge : bool) : string :=
  term_text x +:+ if ge then ">=" else "<".
Definition time_head (c : tcolumn) (o : time_op) : string :=
  "unix_timestamp(" +:+ tcolumn_name c +:+ ") " +:+ time_op_text o +:+ " unix_timestamp('".
Definition cond_text (c : cond) (rest : string) : string :=
  match c with
  | CNum x ge b => num_head x ge +:+ bound_text b +:+ rest
  | CTime c o t => time_head c o +:+ t +:+ "')" +:+ rest
  end.
Definition cond_ok (c : cond) : bool :=
  match c with CNum _ _ b => bound_ok b | CTime _ _ t => arg_text t end.

Inductive fn := Avg | Stddev | Max | Min.
Definition fn_text (f : fn) : string :=
  match f with Avg => "avg" | Stddev => "stddev_pop" | Max => "max" | Min => "min" end.

(** Aggregated expressions: a column, the life time in days (written with or
    without spaces) and the number of transactions taken part in. *)
Inductive expr := Col (c : column) | Life (spaces : bool) | InOut.
Definition expr_text (e : expr) : string :=
  match e with
  | Col c => column_name c
  | Life true => "(unix_timestamp(lasttm) - unix_timestamp(firsttm))/86400"
  | Life false => "(unix_timestamp(lasttm)-unix_timestamp(firsttm))/86400"
  | InOut => "incnt + outcnt"
  end.

Inductive select := Count | Agg (f : fn) (e : expr) | SumBal.
Definition select_text (s : select) : string :=
  match s with
  | Count => "count(*)"
  | Agg f e => fn_text f +:+ "(" +:+ expr_text e +:+ ")"
  | SumBal => "IFNULL(sum(bal),0)"
  end.

(** [q_test1]: the table name is qualified with the database. *)
Record query := { q_select : select; q_test1 : bool; q_table : table; q_where : list cond }.

Definition from_text (test1 : bool) (t : table) : string :=
  (if test1 then "test1." else "") +:+ table_name t.
Fixpoint conds_text (l : list cond) : string :=
  match l with
  | [] => ";"
  | [c] => cond_text c ";"
  | c :: l' => cond_text c (" AND " +:+ conds_text l')
  end.
Definition where_text (l : list cond) : string :=
  match l with [] => ";" | _ => " WHERE " +:+ conds_text l end.
Definition query_text (q : query) : string :=
  "SELECT " +:+ select_text (q_select q) +:+ " FROM " +:+ from_text (q_test1 q) (q_table q)
  +:+ where_text (q_where q).
Definition query_ok (q : query) : bool := forallb cond_ok (q_where q).

(** ** Their meaning *)

Inductive row := RAddr (r : addr_row) | REnt (r : ent_row) | RTx (r : tx_row) | RBlk (r : blk_row).

Definition rows_of (t : table) (d : DB) : list row :=
  match t with
  | Addressinfo => RAddr <$> (snd <$> map_to_list (addressinfo d))
  | Entityinfo => REnt <$> (snd <$> map_to_list (entityinfo d))
  | Txinfo => RTx <$> txinfo d
  | Blkinfo => RBlk <$> blkinfo d
  end.

(** The value of a column; [None] is NULL, or a column the table does not have. *)
Definition column_of (c : column) (r : row) : option Z :=
  match r with
  | RAddr r =>
      match c with
      | Coutval => Some (a_outval r) | Cinval => Some (a_inval r) | Cbal => Some (a_bal r)
      | Cmaxbal => Some (a_maxbal r) | Cincnt => Some (a_incnt r) | Coutcnt => Some (a_outcnt r)
      | _ => None
      end
  | REnt r =>
      match c with
      | Caddcnt => Some (e_addcnt r) | Coutval => e_outval r | Cinval => e_inval r
      | Cbal => e_bal r | Cmaxbal => e_maxbal r | Cincnt => e_incnt r | Coutcnt => e_outcnt r
      | _ => None
      end
  | RTx r =>
      match c with
      | Coutvalue => Some (t_outvalue r) | Ctxsize => Some (t_rawlength r) | Ctxfee => Some (t_fee r)
      | Cincnt => Some (t_incounter r) | Coutcnt => Some (t_outcounter r) | _ => None
      end
  | RBlk r =>
      match c with
      | Ctxcnt => Some (b_trans_count r) | Cdiff => Some (b_difficulty r)
      | Cblksize => Some (b_size r) | Creward => Some (b_reward r) | _ => None
      end
  end.
Definition term_of (x : term) (r : row) : option Z :=
  match x with
  | TCol c => column_of c r
  | TInOut => i ← column_of Cincnt r; o ← column_of Coutcnt r; Some (i + o)
  end.
Definition tcolumn_of (c : tcolumn) (r : row) : option string :=
  match r, c with
  | RAddr r, Tfirsttm => Some (a_firsttm r) | RAddr r, Tlasttm => Some (a_lasttm r)
  | REnt r, Tfirsttm => e_firsttm r | REnt r, Tlasttm => e_lasttm r
  | RTx r, Ttxtime => Some (t_time r) | RBlk r, Tblktime => Some (b_time r)
  | _, _ => None
  end.

(** Whether an expression has a value on a row. *)
Definition has_value (e : expr) (r : row) : bool :=
  match e with
  | Col c => bool_decide (is_Some (column_of c r))
  | Life _ => bool_decide (is_Some (tcolumn_of Tlasttm r)) && bool_decide (is_Some (tcolumn_of Tfirsttm r))
  | InOut => bool_decide (is_Some (term_of TInOut r))
  end.

Definition sum_bal (l : list row) : Z :=
  foldr (fun r s => default 0 (column_of Cbal r) + s) 0 l.

Definition str_bytes (s : string) : list Z :=
  map (fun c => Z.of_nat (nat_of_ascii c)) (list_ascii_of_string s).

(** A text that fits [char result_c[500]] with its terminator. *)
Fixpoint no_nul (s : string) : bool :=
  match s with EmptyString => true | String c s' => negb (Ascii.eqb c Ascii.zero) && no_nul s' end.
Definition fits_buffer (s : string) : bool := no_nul s && (String.length s <? 500)%nat.

Section meaning.
Context (unix_timestamp : string -> Z) (aggregate_text : fn -> expr -> list row -> string).

(** A comparison with NULL is not true. *)
Definition holds (c : cond) (r : row) : bool :=
  match c with
  | CNum x ge b =>
      match term_of x r with
      | Some v => if ge : bool then bound_value b <=? v else v <? bound_value b
      | None => false
      end
  | CTime c o t =>
      match tcolumn_of c r with
      | Some t' =>
          match o with
          | TLt => unix_timestamp t' <? unix_timestamp t
          | TGt => unix_timestamp t <? unix_timestamp t'
          | TGe => unix_timestamp t <=? unix_timestamp t'
          end
      | None => false
      end
  end.

Definition selected (q : query) (d : DB) : list row :=
  List.filter (fun r => forallb (fun c => holds c r) (q_where q)) (rows_of (q_table q) d).

(** [count( * )] and the sum are numbers; an aggregate without values is NULL. *)
Definition query_value (q : query) (d : DB) : option string :=
  let sel := selected q d in
  match q_select q with
  | Count => Some (dec (Z.of_nat (length sel)))
  | Agg f e => if existsb (has_value e) sel then Some (aggregate_text f e sel) else None
  | SumBal => Some (sdec (sum_bal sel))
  end.
End meaning.

(** The server answers the queries of the statistics and does not change the
    tables for them.  Midnights of different days are in the order of the days. *)
Class Reporting `{My : MySQL} := {
  unix_timestamp : string -> Z;
  aggregate_text : fn -> expr -> list row -> string;
  unix_timestamp_midnight y m d y' m' d' :
    date_ok (y, m, d) = true -> date_ok (y', m', d') = true ->
    date_num (y, m, d) < date_num (y', m', d') ->
    unix_timestamp (midnight y m d) < unix_timestamp (midnight y' m' d');
  aggregate_text_fits f e l : fits_buffer (aggregate_text f e l) = true;
  report_tables conn q :
    query_ok q = true -> tables (fst (mysql_query conn (query_text q))) = tables conn;
  report_rows conn q :
    query_ok q = true ->
    snd (mysql_query conn (query_text q))
    = [[str_bytes <$> query_value unix_timestamp aggregate_text q (tables conn)]] }.
