(* ===== verification/ReportServer.v ===== *)
(** * A server that satisfies the laws of [Reporting]

    The server of SqlServer.v extended by a parser for the queries of the
    statistics, which shows that the laws can hold together. *)
From Stdlib Require Import String Ascii Decimal DecimalString DecimalN.
From stdpp Require Import base gmap strings numbers option list.
From S2P Require Import Prelude Sql SqlServer Calendar Streams Report.
Local Open Scope string_scope.
Open Scope Z_scope.

(** ** Choosing between texts *)

(** The first of the texts that [s] starts with. *)
Fixpoint pick {A} (l : list (string * A)) (s : string) : option (A * string) :=
  match l with
  | [] => None
  | (p, a) :: l' => match strip p s with Some s' => Some (a, s') | None => pick l' s end
  end.

(** Each text of the list differs from the later ones at a common position. *)
Fixpoint distinct {A} (l : list (string * A)) : bool :=
  match l with
  | [] => true
  | (p, _) :: l' => forallb (fun x => clash p (fst x)) l' && distinct l'
  end.

Lemma pick_app {A} (l : list (string * A)) p a s :
  distinct l = true -> In (p, a) l -> pick l (p +:+ s) = Some (a, s).
Proof.
  induction l as [|[p' a'] l IH]; [done|]. intros [Hd Hl]%andb_true_iff [E|Hin]; cbn [pick].
  - injection E as -> ->. by rewrite strip_app.
  - rewrite clash_strip; [by apply IH|]. rewrite forallb_forall in Hd. by apply (Hd (p, a)).
Qed.

Lemma pick_None {A} (l : list (string * A)) p s :
  forallb (fun x => clash (fst x) p) l = true -> pick l (p +:+ s) = None.
Proof.
  induction l as [|[p' a'] l IH]; [done|]. intros [H Hl]%andb_true_iff. cbn [pick fst] in *.
  rewrite clash_strip by done. by apply IH.
Qed.

(** ** The parser *)

Definition all_columns : list column :=
  [Caddcnt; Coutval; Cinval; Cbal; Cmaxbal; Cincnt; Coutcnt; Coutvalue; Ctxsize; Ctxfee; Ctxcnt;
   Cdiff; Cblksize; Creward].
Definition all_exprs : list expr := Life true :: Life false :: InOut :: map Col all_columns.
Definition all_selects : list select :=
  Count :: SumBal :: flat_map (fun f => map (Agg f) all_exprs) [Avg; Stddev; Max; Min].
Definition selects : list (string * select) := map (fun s => (select_text s, s)) all_selects.
Definition froms : list (string * (bool * table)) :=
  flat_map (fun b => map (fun t => (from_text b t, (b, t))) [Addressinfo; Entityinfo; Txinfo; Blkinfo])
    [true; false].
Definition all_terms : list term := TInOut :: map TCol all_columns.
Definition heads : list (string * (term * bool + tcolumn * time_op)) :=
  (flat_map (fun x => map (fun b => (num_head x b, inl (x, b))) [true; false]) all_terms
   ++ flat_map (fun c => map (fun o => (time_head c o, inr (c, o))) [TLt; TGt; TGe])
        [Tfirsttm; Tlasttm; Ttxtime; Tblktime])%list.

Definition parse_num (s : string) : option (Z * string) :=
  let '(a, r) := digits_of s in n ← undec a; Some (n, r).
Definition parse_bound (s : string) : option (bound * string) :=
  match strip "0." s with
  | Some s1 =>
      match strip "0" s1 with
      | Some s2 => '(n, r) ← parse_num s2; r ← strip "*100000000" r; Some (Hundredths n, r)
      | None => '(n, r) ← parse_num s1; r ← strip "*100000000" r; Some (Tenths n, r)
      end
  | None =>
      '(n, r) ← parse_num s;
      match strip "*100000000" r with
      | Some r => Some (Coins n, r)
      | None => Some (Num n, r)
      end
  end.
Definition parse_cond (s : string) : option (cond * string) :=
  '(h, s) ← pick heads s;
  match h with
  | inl (x, ge) => '(b, s) ← parse_bound s; Some (CNum x ge b, s)
  | inr (c, o) => let '(t, s) := span s in s ← strip "')" s; Some (CTime c o t, s)
  end.
Fixpoint parse_conds (fuel : nat) (s : string) : option (list cond) :=
  match fuel with
  | O => None
  | S fuel =>
      '(c, s) ← parse_cond s;
      match strip " AND " s with
      | Some s => l ← parse_conds fuel s; Some (c :: l)
      | None => if bool_decide (s = ";") then Some [c] else None
      end
  end.
Definition parse_where (s : string) : option (list cond) :=
  match strip " WHERE " s with
  | Some s => parse_conds (String.length s) s
  | None => if bool_decide (s = ";") then Some [] else None
  end.
Definition parse_query (s : string) : option query :=
  s ← strip "SELECT " s;
  '(sel, s) ← pick selects s;
  s ← strip " FROM " s;
  '(bt, s) ← pick froms s;
  w ← parse_where s;
  Some {| q_select := sel; q_test1 := fst bt; q_table := snd bt; q_where := w |}.

Lemma selects_distinct : distinct selects = true. Proof. vm_compute. reflexivity. Qed.
Lemma froms_distinct : distinct froms = true. Proof. vm_compute. reflexivity. Qed.
Lemma heads_distinct : distinct heads = true. Proof. vm_compute. reflexivity. Qed.

Lemma all_columns_in c : In c all_columns.
Proof. destruct c; cbn; tauto. Qed.

Lemma selects_in s : In (select_text s, s) selects.
Proof.
  apply (in_map (fun s => (select_text s, s))). destruct s as [|f e|]; [by left| |by right; left].
  do 2 right. apply in_flat_map. exists f. split; [destruct f; cbn; tauto|].
  apply in_map. destruct e as [c|[]|]; [|cbn; tauto..]. do 3 right. apply in_map, all_columns_in.
Qed.

Lemma froms_in b t : In (from_text b t, (b, t)) froms.
Proof. destruct b, t; cbn; tauto. Qed.

Lemma num_heads_in x b : In (num_head x b, inl (x, b)) heads.
Proof.
  apply in_app_iff. left. apply in_flat_map. exists x. split; [|destruct b; cbn; tauto].
  destruct x as [c|]; [right; apply in_map, all_columns_in|by left].
Qed.
Lemma time_heads_in c o : In (time_head c o, inr (c, o)) heads.
Proof.
  apply in_app_iff. right. apply in_flat_map. exists c. split; [destruct c; cbn; tauto|].
  destruct o; cbn; tauto.
Qed.

(** ** Reading the texts back *)

Lemma parse_num_dec n c s :
  0 <= n -> is_digit c = false -> parse_num (dec n +:+ String c s) = Some (n, String c s).
Proof.
  intros Hn Hc. unfold parse_num. rewrite digits_of_app by (done || apply all_digits_dec).
  by rewrite undec_dec.
Qed.

(** A number followed by anything but a point is not taken for a fraction. *)
Lemma strip_fraction d c s :
  all_digits d = true -> is_digit c = false -> c <> "."%char -> strip "0." (d +:+ String c s) = None.
Proof.
  intros Hd Hc Hp. destruct d as [|c1 d].
  - change ("" +:+ ?x) with x. cbn [strip]. destruct (Ascii.eqb_spec "0" c); [|done]. by subst c.
  - change (String c1 d +:+ ?x) with (String c1 (d +:+ x)). cbn [strip all_digits] in *.
    apply andb_true_iff in Hd as [_ Hd]. destruct (Ascii.eqb "0" c1); [|done].
    destruct d as [|c2 d].
    + change ("" +:+ ?x) with x. cbn [strip]. by destruct (Ascii.eqb_spec "." c) as [<-|].
    + change (String c2 d +:+ ?x) with (String c2 (d +:+ x)). cbn [strip all_digits] in *.
      apply andb_true_iff in Hd as [Hd _]. by destruct (Ascii.eqb_spec "." c2) as [<-|].
Qed.

Definition ends_bound (c : ascii) : Prop := c = " "%char \/ c = ";"%char.

Lemma parse_bound_text b c s :
  bound_ok b = true -> ends_bound c ->
  parse_bound (bound_text b +:+ String c s) = Some (b, String c s).
Proof.
  intros Hb Hc. destruct b as [n|n|n|n]; cbn [bound_text bound_ok] in *.
  - apply Z.leb_le in Hb. unfold parse_bound.
    assert (is_digit c = false /\ c <> "."%char /\ strip "*100000000" (String c s) = None)
      as (H1 & H2 & H3) by (destruct Hc as [-> | ->]; done).
    rewrite strip_fraction by (done || apply all_digits_dec).
    rewrite parse_num_dec by done. cbn [mbind option_bind]. by rewrite H3.
  - apply Z.leb_le in Hb. rewrite append_assoc. unfold parse_bound.
    change ("*100000000" +:+ String c s) with (String "*" ("100000000" +:+ String c s)).
    rewrite strip_fraction by (done || apply all_digits_dec).
    rewrite parse_num_dec by done. cbn [mbind option_bind].
    change (String "*" ("100000000" +:+ String c s)) with ("*100000000" +:+ String c s).
    by rewrite strip_app.
  - apply andb_true_iff in Hb as [H1%Z.leb_le H2%Z.leb_le].
    assert (n = 1 \/ n = 2 \/ n = 3 \/ n = 4 \/ n = 5 \/ n = 6 \/ n = 7 \/ n = 8 \/ n = 9) as Hn by lia.
    repeat destruct Hn as [-> | Hn]; try subst n; reflexivity.
  - apply andb_true_iff in Hb as [H1%Z.leb_le H2%Z.leb_le].
    assert (n = 1 \/ n = 2 \/ n = 3 \/ n = 4 \/ n = 5 \/ n = 6 \/ n = 7 \/ n = 8 \/ n = 9) as Hn by lia.
    repeat destruct Hn as [-> | Hn]; try subst n; reflexivity.
Qed.

Lemma parse_cond_text c x s :
  cond_ok c = true -> ends_bound x -> parse_cond (cond_text c (String x s)) = Some (c, String x s).
Proof.
  intros Hc Hx. unfold parse_cond. destruct c as [x' ge b|c o t]; cbn [cond_text cond_ok] in *.
  - rewrite (pick_app _ _ _ _ heads_distinct (num_heads_in x' ge)).
    cbn [mbind option_bind]. by rewrite parse_bound_text.
  - rewrite (pick_app _ _ _ _ heads_distinct (time_heads_in c o)).
    cbn [mbind option_bind]. change ("')" +:+ ?r) with (String "'" (")" +:+ r)).
    rewrite span_app by done. reflexivity.
Qed.

Lemma parse_conds_text fuel c l :
  (length l < fuel)%nat -> forallb cond_ok (c :: l) = true ->
  parse_conds fuel (conds_text (c :: l)) = Some (c :: l).
Proof.
  revert fuel c. induction l as [|c' l IH]; intros [|fuel] c Hf Hok; try (cbn in Hf; lia);
    cbn [forallb] in Hok; apply andb_true_iff in Hok as [Hc Hl]; cbn [parse_conds].
  - change (conds_text [c]) with (cond_text c (String ";" "")).
    rewrite parse_cond_text by (done || by right). reflexivity.
  - change (conds_text (c :: c' :: l)) with (cond_text c (String " " ("AND " +:+ conds_text (c' :: l)))).
    rewrite parse_cond_text by (done || by left). cbn [mbind option_bind].
    change (String " " ("AND " +:+ ?r)) with (" AND " +:+ r). rewrite strip_app.
    rewrite IH by (done || (cbn in Hf; lia)). reflexivity.
Qed.

Lemma length_append (a b : string) : String.length (a +:+ b) = (String.length a + String.length b)%nat.
Proof.
  induction a as [|c a IH]; [reflexivity|].
  change (String c a +:+ b) with (String c (a +:+ b)). cbn. by rewrite IH.
Qed.

Lemma length_cond_text c s : (String.length s <= String.length (cond_text c s))%nat.
Proof. destruct c; cbn [cond_text]; rewrite !length_append; lia. Qed.

Lemma length_conds_text l : (length l <= String.length (conds_text l))%nat.
Proof.
  induction l as [|c [|c' l] IH]; [cbn; lia| |].
  - change (conds_text [c]) with (cond_text c ";"). pose proof (length_cond_text c ";") as H.
    cbn [String.length length] in *. lia.
  - change (conds_text (c :: c' :: l)) with (cond_text c (" AND " +:+ conds_text (c' :: l))).
    pose proof (length_cond_text c (" AND " +:+ conds_text (c' :: l))) as H.
    rewrite length_append in H. change (String.length " AND ") with 5%nat in H. cbn [length] in *. lia.
Qed.

Lemma parse_where_text l : forallb cond_ok l = true -> parse_where (where_text l) = Some l.
Proof.
  intros Hl. destruct l as [|c l]; [reflexivity|]. unfold where_text, parse_where.
  rewrite strip_app. apply parse_conds_text; [|done].
  pose proof (length_conds_text (c :: l)). cbn [length] in *. lia.
Qed.

Lemma parse_query_text q : query_ok q = true -> parse_query (query_text q) = Some q.
Proof.
  intros Hq. unfold parse_query, query_text. rewrite strip_app. cbn [mbind option_bind].
  rewrite (pick_app _ _ _ _ selects_distinct (selects_in _)). cbn [mbind option_bind].
  rewrite strip_app. cbn [mbind option_bind].
  rewrite (pick_app _ _ _ _ froms_distinct (froms_in _ _)). cbn [mbind option_bind].
  rewrite parse_where_text by done. by destruct q.
Qed.

(** No statement that changes tables, and no look-up of an entity, is taken for
    such a query. *)
Lemma parse_query_stmt s : parse_query (render s) = None.
Proof.
  unfold parse_query. destruct s as [up a| | | | | | | | | |]; [|reflexivity..].
  assert (render (SelectEntity up a)
          = "SELECT " +:+ "entity" +:+ " FROM addressinfo " +:+ (if up then "WHERE" else "where")
            +:+ " address = x'" +:+ hex a +:+ "';") as -> by reflexivity.
  rewrite strip_app. cbn [mbind option_bind]. rewrite pick_None; [reflexivity|]. vm_compute. reflexivity.
Qed.

(** ** The server *)

(** A clock that orders texts of times by the number their digits form. *)
Fixpoint stamp (acc : Z) (s : string) : Z :=
  match s with
  | EmptyString => acc
  | String c s' => stamp (if is_digit c then 10 * acc + (Z.of_nat (nat_of_ascii c) - 48) else acc) s'
  end.

Lemma stamp_digit acc n s : 0 <= n <= 9 -> stamp acc (String (digit n) s) = stamp (10 * acc + n) s.
Proof.
  intros Hn. assert (n = 0 \/ n = 1 \/ n = 2 \/ n = 3 \/ n = 4 \/ n = 5 \/ n = 6 \/ n = 7 \/ n = 8 \/ n = 9)
    as H by lia.
  repeat destruct H as [-> | H]; try subst n; cbn -[Z.mul]; f_equal; lia.
Qed.

Lemma stamp_pad2 acc n s : 0 <= n < 100 -> stamp acc (pad2 n +:+ s) = stamp (100 * acc + n) s.
Proof.
  intros Hn. unfold pad2.
  change (String (digit (n / 10)) (String (digit (n mod 10)) "") +:+ s)
    with (String (digit (n / 10)) (String (digit (n mod 10)) s)).
  rewrite !stamp_digit by (Z.to_euclidean_division_equations; lia). f_equal.
  Z.to_euclidean_division_equations; lia.
Qed.

Lemma stamp_tail acc : stamp acc "-00-00-00" = acc * 1000000.
Proof.
  transitivity (10 * (10 * (10 * (10 * (10 * (10 * acc + 0) + 0) + 0) + 0) + 0) + 0); [reflexivity|lia].
Qed.

Lemma stamp_midnight y m d :
  date_ok (y, m, d) = true -> stamp 0 (midnight y m d) = date_num (y, m, d) * 1000000.
Proof.
  cbn [date_ok]. rewrite !andb_true_iff, !Z.leb_le. intros [[[[[H1 H2] H3] H4] H5] H6].
  assert (d < 100) as Hd.
  { enough (month_length y m <= 31) by lia. unfold month_length. repeat case_match; lia. }
  unfold midnight, pad4. rewrite !append_assoc.
  rewrite !stamp_pad2 by (Z.to_euclidean_division_equations; lia).
  change ("-" +:+ ?x) with (String "-" x). cbn [stamp]. change (is_digit "-") with false. cbn iota.
  rewrite !stamp_pad2 by lia. change ("-" +:+ ?x) with (String "-" x). cbn [stamp].
  change (is_digit "-") with false. cbn iota. rewrite stamp_pad2 by lia.
  rewrite stamp_tail. unfold date_num.
  Z.to_euclidean_division_equations; lia.
Qed.

Definition report_query `{Schema} (conn : DB) (txt : string) : DB * rows :=
  match parse_query txt with
  | Some q => (conn, [[str_bytes <$> query_value (stamp 0) (fun _ _ _ => "1.0000") q conn]])
  | None => server_query conn txt
  end.

#[export] Instance report_server `{Schema} : MySQL | 5.
Proof.
  refine {| MYSQL := DB; mysql_query := report_query; tables := fun d => d |};
    intros conn s Hok; unfold report_query, server_query;
    by rewrite parse_query_stmt, (parse_render s conn Hok).
Defined.

#[export] Instance reporting `{Schema} : @Reporting _ report_server.
Proof.
  refine {| unix_timestamp := stamp 0; aggregate_text := fun _ _ _ => "1.0000" |}.
  - intros y m d y' m' d' H1 H2 Hlt. rewrite !stamp_midnight by done. lia.
  - reflexivity.
  - intros conn q Hq. cbn. unfold report_query. by rewrite parse_query_text.
  - intros conn q Hq. cbn. unfold report_query. by rewrite parse_query_text.
Defined.
