(* ===== verification/StatTables.v ===== *)
(** * The query texts of src/BitcoinAnalysis/Statistical.h

    The arrays of [statistical] as the source fills them, entry by entry; an
    entry that is not assigned is the empty string.  [before] and [after] are
    the limits of the month.  Comparing them with their structure is the task
    of Statistical.v. *)
From Stdlib Require Import String.
From stdpp Require Import base strings list.
From S2P Require Import Prelude.
Local Open Scope string_scope.

Definition address (before : string) (after : string) : list string :=
  ["";
   "SELECT count(*) FROM test1.addressinfo;";
   "SELECT count(*) FROM test1.addressinfo WHERE unix_timestamp(lasttm) < unix_timestamp('" +:+ before
     +:+ "');";
   "SELECT count(*) FROM test1.addressinfo WHERE unix_timestamp(lasttm) > unix_timestamp('" +:+ after
     +:+ "');";
   "SELECT avg(outval) FROM test1.addressinfo;";
   "SELECT stddev_pop(outval) FROM test1.addressinfo;";
   "SELECT max(outval) FROM test1.addressinfo;";
   "SELECT min(outval) FROM test1.addressinfo;";
   "SELECT avg(inval) FROM test1.addressinfo;";
   "SELECT stddev_pop(inval) FROM test1.addressinfo;";
   "SELECT max(inval) FROM test1.addressinfo;";
   "SELECT min(inval) FROM test1.addressinfo;";
   "SELECT avg(bal) FROM test1.addressinfo;";
   "SELECT stddev_pop(bal) FROM test1.addressinfo;";
   "SELECT max(bal) FROM test1.addressinfo;";
   "SELECT min(bal) FROM test1.addressinfo;";
   "SELECT avg(maxbal) FROM test1.addressinfo;";
   "SELECT stddev_pop(maxbal) FROM test1.addressinfo;";
   "SELECT max(maxbal) FROM test1.addressinfo;";
   "SELECT min(maxbal) FROM test1.addressinfo;";
   "SELECT avg((unix_timestamp(lasttm) - unix_timestamp(firsttm))/86400) FROM test1.addressinfo;";
   "SELECT stddev_pop((unix_timestamp(lasttm) - unix_timestamp(firsttm))/86400) FROM test1.addressinfo;";
   "SELECT max((unix_timestamp(lasttm) - unix_timestamp(firsttm))/86400) FROM test1.addressinfo;";
   "SELECT min((unix_timestamp(lasttm) - unix_timestamp(firsttm))/86400) FROM test1.addressinfo;";
   "SELECT avg(incnt + outcnt) FROM test1.addressinfo;";
   "SELECT stddev_pop(incnt + outcnt) FROM test1.addressinfo;";
   "SELECT max(incnt + outcnt) FROM test1.addressinfo;";
   "SELECT min(incnt + outcnt) FROM test1.addressinfo;";
   "SELECT IFNULL(sum(bal),0) FROM test1.addressinfo WHERE unix_timestamp(lasttm) < unix_timestamp('" +:+ before
     +:+ "');"].

Definition new_add : list string :=
  ["";
   "SELECT count(*) FROM test1.addressinfo ";
   "SELECT avg(outval) FROM test1.addressinfo ";
   "SELECT stddev_pop(outval) FROM test1.addressinfo ";
   "SELECT max(outval) FROM test1.addressinfo ";
   "SELECT min(outval) FROM test1.addressinfo ";
   "SELECT avg(inval) FROM test1.addressinfo ";
   "SELECT stddev_pop(inval) FROM test1.addressinfo ";
   "SELECT max(inval) FROM test1.addressinfo ";
   "SELECT min(inval) FROM test1.addressinfo ";
   "SELECT avg(bal) FROM test1.addressinfo ";
   "SELECT stddev_pop(bal) FROM test1.addressinfo ";
   "SELECT max(bal) FROM test1.addressinfo ";
   "SELECT min(bal) FROM test1.addressinfo ";
   "SELECT avg(maxbal) FROM test1.addressinfo ";
   "SELECT stddev_pop(maxbal) FROM test1.addressinfo ";
   "SELECT max(maxbal) FROM test1.addressinfo ";
   "SELECT min(maxbal) FROM test1.addressinfo ";
   "SELECT avg(incnt + outcnt) FROM test1.addressinfo ";
   "SELECT stddev_pop(incnt + outcnt) FROM test1.addressinfo ";
   "SELECT max(incnt + outcnt) FROM test1.addressinfo ";
   "SELECT min(incnt + outcnt) FROM test1.addressinfo "].

Definition unstop_add : list string :=
  ["";
   "SELECT count(*) FROM test1.addressinfo ";
   "SELECT avg(outval) FROM test1.addressinfo ";
   "SELECT stddev_pop(outval) FROM test1.addressinfo ";
   "SELECT max(outval) FROM test1.addressinfo ";
   "SELECT min(outval) FROM test1.addressinfo ";
   "SELECT avg(inval) FROM test1.addressinfo ";
   "SELECT stddev_pop(inval) FROM test1.addressinfo ";
   "SELECT max(inval) FROM test1.addressinfo ";
   "SELECT min(inval) FROM test1.addressinfo ";
   "SELECT avg(bal) FROM test1.addressinfo ";
   "SELECT stddev_pop(bal) FROM test1.addressinfo ";
   "SELECT max(bal) FROM test1.addressinfo ";
   "SELECT min(bal) FROM test1.addressinfo ";
   "SELECT avg(maxbal) FROM test1.addressinfo ";
   "SELECT stddev_pop(maxbal) FROM test1.addressinfo ";
   "SELECT max(maxbal) FROM test1.addressinfo ";
   "SELECT min(maxbal) FROM test1.addressinfo ";
   "SELECT avg((unix_timestamp(lasttm) - unix_timestamp(firsttm))/86400) FROM test1.addressinfo ";
   "SELECT stddev_pop((unix_timestamp(lasttm) - unix_timestamp(firsttm))/86400) FROM test1.addressinfo ";
   "SELECT max((unix_timestamp(lasttm) - unix_timestamp(firsttm))/86400) FROM test1.addressinfo ";
   "SELECT min((unix_timestamp(lasttm) - unix_timestamp(firsttm))/86400) FROM test1.addressinfo ";
   "SELECT avg(incnt + outcnt) FROM test1.addressinfo ";
   "SELECT stddev_pop(incnt + outcnt) FROM test1.addressinfo ";
   "SELECT max(incnt + outcnt) FROM test1.addressinfo ";
   "SELECT min(incnt + outcnt) FROM test1.addressinfo "].

Definition entity (before : string) (after : string) : list string :=
  ["";
   "SELECT count(*) FROM test1.entityinfo;";
   "SELECT count(*) FROM test1.entityinfo WHERE unix_timestamp(lasttm) < unix_timestamp('" +:+ before
     +:+ "');";
   "SELECT count(*) FROM test1.entityinfo WHERE unix_timestamp(lasttm) > unix_timestamp('" +:+ after
     +:+ "');";
   "SELECT avg(addcnt) FROM test1.entityinfo;";
   "SELECT stddev_pop(addcnt) FROM test1.entityinfo;";
   "SELECT max(addcnt) FROM test1.entityinfo;";
   "SELECT min(addcnt) FROM test1.entityinfo;";
   "SELECT avg(outval) FROM test1.entityinfo;";
   "SELECT stddev_pop(outval) FROM test1.entityinfo;";
   "SELECT max(outval) FROM test1.entityinfo;";
   "SELECT min(outval) FROM test1.entityinfo;";
   "SELECT avg(inval) FROM test1.entityinfo;";
   "SELECT stddev_pop(inval) FROM test1.entityinfo;";
   "SELECT max(inval) FROM test1.entityinfo;";
   "SELECT min(inval) FROM test1.entityinfo;";
   "SELECT avg(bal) FROM test1.entityinfo;";
   "SELECT stddev_pop(bal) FROM test1.entityinfo;";
   "SELECT max(bal) FROM test1.entityinfo;";
   "SELECT min(bal) FROM test1.entityinfo;";
   "SELECT avg(maxbal) FROM test1.entityinfo;";
   "SELECT stddev_pop(maxbal) FROM test1.entityinfo;";
   "SELECT max(maxbal) FROM test1.entityinfo;";
   "SELECT min(maxbal) FROM test1.entityinfo;";
   "SELECT avg((unix_timestamp(lasttm)-unix_timestamp(firsttm))/86400) FROM test1.entityinfo;";
   "SELECT stddev_pop((unix_timestamp(lasttm)-unix_timestamp(firsttm))/86400) FROM test1.entityinfo;";
   "SELECT max((unix_timestamp(lasttm)-unix_timestamp(firsttm))/86400) FROM test1.entityinfo;";
   "SELECT min((unix_timestamp(lasttm)-unix_timestamp(firsttm))/86400) FROM test1.entityinfo;";
   "SELECT avg(incnt + outcnt) FROM test1.entityinfo;";
   "SELECT stddev_pop(incnt + outcnt) FROM test1.entityinfo;";
   "SELECT max(incnt + outcnt) FROM test1.entityinfo;";
   "SELECT min(incnt + outcnt) FROM test1.entityinfo;"].

Definition new_entity : list string :=
  ["";
   "SELECT count(*) FROM test1.entityinfo ";
   "SELECT avg(addcnt) FROM test1.entityinfo ";
   "SELECT stddev_pop(addcnt) FROM test1.entityinfo ";
   "SELECT max(addcnt) FROM test1.entityinfo ";
   "SELECT min(addcnt) FROM test1.entityinfo ";
   "SELECT avg(outval) FROM test1.entityinfo ";
   "SELECT stddev_pop(outval) FROM test1.entityinfo ";
   "SELECT max(outval) FROM test1.entityinfo ";
   "SELECT min(outval) FROM test1.entityinfo ";
   "SELECT avg(inval) FROM test1.entityinfo ";
   "SELECT stddev_pop(inval) FROM test1.entityinfo ";
   "SELECT max(inval) FROM test1.entityinfo ";
   "SELECT min(inval) FROM test1.entityinfo ";
   "SELECT avg(bal) FROM test1.entityinfo ";
   "SELECT stddev_pop(bal) FROM test1.entityinfo ";
   "SELECT max(bal) FROM test1.entityinfo ";
   "SELECT min(bal) FROM test1.entityinfo ";
   "SELECT avg(maxbal) FROM test1.entityinfo ";
   "SELECT stddev_pop(maxbal) FROM test1.entityinfo ";
   "SELECT max(maxbal) FROM test1.entityinfo ";
   "SELECT min(maxbal) FROM test1.entityinfo ";
   "SELECT avg(incnt + outcnt) FROM test1.entityinfo ";
   "SELECT stddev_pop(incnt + outcnt) FROM test1.entityinfo ";
   "SELECT max(incnt + outcnt) FROM test1.entityinfo ";
   "SELECT min(incnt + outcnt) FROM test1.entityinfo "].

Definition unstop_entity : list string :=
  ["";
   "SELECT count(*) FROM test1.entityinfo ";
   "SELECT avg(addcnt) FROM test1.entityinfo ";
   "SELECT stddev_pop(addcnt) FROM test1.entityinfo ";
   "SELECT max(addcnt) FROM test1.entityinfo ";
   "SELECT min(addcnt) FROM test1.entityinfo ";
   "SELECT avg(outval) FROM test1.entityinfo ";
   "SELECT stddev_pop(outval) FROM test1.entityinfo ";
   "SELECT max(outval) FROM test1.entityinfo ";
   "SELECT min(outval) FROM test1.entityinfo ";
   "SELECT avg(inval) FROM test1.entityinfo ";
   "SELECT stddev_pop(inval) FROM test1.entityinfo ";
   "SELECT max(inval) FROM test1.entityinfo ";
   "SELECT min(inval) FROM test1.entityinfo ";
   "SELECT avg(bal) FROM test1.entityinfo ";
   "SELECT stddev_pop(bal) FROM test1.entityinfo ";
   "SELECT max(bal) FROM test1.entityinfo ";
   "SELECT min(bal) FROM test1.entityinfo ";
   "SELECT avg(maxbal) FROM test1.entityinfo ";
   "SELECT stddev_pop(maxbal) FROM test1.entityinfo ";
   "SELECT max(maxbal) FROM test1.entityinfo ";
   "SELECT min(maxbal) FROM test1.entityinfo ";
   "SELECT avg((unix_timestamp(lasttm) - unix_timestamp(firsttm))/86400) FROM test1.entityinfo ";
   "SELECT stddev_pop((unix_timestamp(lasttm) - unix_timestamp(firsttm))/86400) FROM test1.entityinfo ";
   "SELECT max((unix_timestamp(lasttm) - unix_timestamp(firsttm))/86400) FROM test1.entityinfo ";
   "SELECT min((unix_timestamp(lasttm) - unix_timestamp(firsttm))/86400) FROM test1.entityinfo ";
   "SELECT avg(incnt + outcnt) FROM test1.entityinfo ";
   "SELECT stddev_pop(incnt + outcnt) FROM test1.entityinfo ";
   "SELECT max(incnt + outcnt) FROM test1.entityinfo ";
   "SELECT min(incnt + outcnt) FROM test1.entityinfo "].

Definition transaction : list string :=
  ["SELECT count(*) FROM test1.txinfo;";
   "SELECT count(*) FROM test1.txinfo ";
   "SELECT avg(outvalue) FROM test1.txinfo ";
   "SELECT stddev_pop(outvalue) FROM test1.txinfo ";
   "SELECT max(outvalue) FROM test1.txinfo ";
   "SELECT min(outvalue) FROM test1.txinfo ";
   "SELECT avg(txsize) FROM test1.txinfo ";
   "SELECT stddev_pop(txsize) FROM test1.txinfo ";
   "SELECT max(txsize) FROM test1.txinfo ";
   "SELECT min(txsize) FROM test1.txinfo ";
   "SELECT avg(txfee) FROM test1.txinfo ";
   "SELECT stddev_pop(txfee) FROM test1.txinfo ";
   "SELECT max(txfee) FROM test1.txinfo ";
   "SELECT min(txfee) FROM test1.txinfo ";
   "SELECT avg(incnt) FROM test1.txinfo ";
   "SELECT stddev_pop(incnt) FROM test1.txinfo ";
   "SELECT max(incnt) FROM test1.txinfo ";
   "SELECT min(incnt) FROM test1.txinfo ";
   "SELECT avg(outcnt) FROM test1.txinfo ";
   "SELECT stddev_pop(outcnt) FROM test1.txinfo ";
   "SELECT max(outcnt) FROM test1.txinfo ";
   "SELECT min(outcnt) FROM test1.txinfo "].

Definition block : list string :=
  ["SELECT count(*) FROM test1.blkinfo;";
   "SELECT count(*) FROM test1.blkinfo ";
   "SELECT avg(txcnt) FROM test1.blkinfo ";
   "SELECT stddev_pop(txcnt) FROM test1.blkinfo ";
   "SELECT max(txcnt) FROM test1.blkinfo ";
   "SELECT min(txcnt) FROM test1.blkinfo ";
   "SELECT avg(diff) FROM test1.blkinfo ";
   "SELECT stddev_pop(diff) FROM test1.blkinfo ";
   "SELECT max(diff) FROM test1.blkinfo ";
   "SELECT min(diff) FROM test1.blkinfo ";
   "SELECT avg(blksize) FROM test1.blkinfo ";
   "SELECT stddev_pop(blksize) FROM test1.blkinfo ";
   "SELECT max(blksize) FROM test1.blkinfo ";
   "SELECT min(blksize) FROM test1.blkinfo ";
   "SELECT avg(reward) FROM test1.blkinfo ";
   "SELECT stddev_pop(reward) FROM test1.blkinfo ";
   "SELECT max(reward) FROM test1.blkinfo ";
   "SELECT min(reward) FROM test1.blkinfo ";
   "";
   "";
   "";
   ""].

Definition NumOfAddOfEntity : list string :=
  ["SELECT count(*) FROM entityinfo WHERE addcnt>=1 AND addcnt<2;";
   "SELECT count(*) FROM entityinfo WHERE addcnt>=2 AND addcnt<3;";
   "SELECT count(*) FROM entityinfo WHERE addcnt>=3 AND addcnt<4;";
   "SELECT count(*) FROM entityinfo WHERE addcnt>=4 AND addcnt<5;";
   "SELECT count(*) FROM entityinfo WHERE addcnt>=5 AND addcnt<6;";
   "SELECT count(*) FROM entityinfo WHERE addcnt>=6 AND addcnt<7;";
   "SELECT count(*) FROM entityinfo WHERE addcnt>=7 AND addcnt<8;";
   "SELECT count(*) FROM entityinfo WHERE addcnt>=8 AND addcnt<9;";
   "SELECT count(*) FROM entityinfo WHERE addcnt>=9 AND addcnt<10;";
   "SELECT count(*) FROM entityinfo WHERE addcnt>=10 AND addcnt<20;";
   "SELECT count(*) FROM entityinfo WHERE addcnt>=20 AND addcnt<30;";
   "SELECT count(*) FROM entityinfo WHERE addcnt>=30 AND addcnt<40;";
   "SELECT count(*) FROM entityinfo WHERE addcnt>=40 AND addcnt<50;";
   "SELECT count(*) FROM entityinfo WHERE addcnt>=50 AND addcnt<60;";
   "SELECT count(*) FROM entityinfo WHERE addcnt>=60 AND addcnt<70;";
   "SELECT count(*) FROM entityinfo WHERE addcnt>=70 AND addcnt<80;";
   "SELECT count(*) FROM entityinfo WHERE addcnt>=80 AND addcnt<90;";
   "SELECT count(*) FROM entityinfo WHERE addcnt>=90 AND addcnt<100;";
   "SELECT count(*) FROM entityinfo WHERE addcnt>=100 AND addcnt<200;";
   "SELECT count(*) FROM entityinfo WHERE addcnt>=200 AND addcnt<300;";
   "SELECT count(*) FROM entityinfo WHERE addcnt>=300 AND addcnt<400;";
   "SELECT count(*) FROM entityinfo WHERE addcnt>=400 AND addcnt<500;";
   "SELECT count(*) FROM entityinfo WHERE addcnt>=500 AND addcnt<1000;";
   "SELECT count(*) FROM entityinfo WHERE addcnt>=1000 AND addcnt<2000;";
   "SELECT count(*) FROM entityinfo WHERE addcnt>=2000 AND addcnt<3000;";
   "SELECT count(*) FROM entityinfo WHERE addcnt>=3000 AND addcnt<4000;";
   "SELECT count(*) FROM entityinfo WHERE addcnt>=4000 AND addcnt<5000;";
   "SELECT count(*) FROM entityinfo WHERE addcnt>=5000 AND addcnt<10000;";
   "SELECT count(*) FROM entityinfo WHERE addcnt>=10000 AND addcnt<50000;";
   "SELECT count(*) FROM entityinfo WHERE addcnt>=50000 AND addcnt<100000;";
   "SELECT count(*) FROM entityinfo WHERE addcnt>=100000;"].

Definition OutvalOfAdd : list string :=
  ["SELECT count(*) FROM addressinfo WHERE outval>=0*100000000 AND outval<1*100000000;";
   "SELECT count(*) FROM addressinfo WHERE outval>=1*100000000 AND outval<2*100000000;";
   "SELECT count(*) FROM addressinfo WHERE outval>=2*100000000 AND outval<3*100000000;";
   "SELECT count(*) FROM addressinfo WHERE outval>=3*100000000 AND outval<4*100000000;";
   "SELECT count(*) FROM addressinfo WHERE outval>=4*100000000 AND outval<5*100000000;";
   "SELECT count(*) FROM addressinfo WHERE outval>=5*100000000 AND outval<6*100000000;";
   "SELECT count(*) FROM addressinfo WHERE outval>=6*100000000 AND outval<7*100000000;";
   "SELECT count(*) FROM addressinfo WHERE outval>=7*100000000 AND outval<8*100000000;";
   "SELECT count(*) FROM addressinfo WHERE outval>=8*100000000 AND outval<9*100000000;";
   "SELECT count(*) FROM addressinfo WHERE outval>=9*100000000 AND outval<10*100000000;";
   "SELECT count(*) FROM addressinfo WHERE outval>=10*100000000 AND outval<20*100000000;";
   "SELECT count(*) FROM addressinfo WHERE outval>=20*100000000 AND outval<30*100000000;";
   "SELECT count(*) FROM addressinfo WHERE outval>=30*100000000 AND outval<40*100000000;";
   "SELECT count(*) FROM addressinfo WHERE outval>=40*100000000 AND outval<50*100000000;";
   "SELECT count(*) FROM addressinfo WHERE outval>=50*100000000 AND outval<60*100000000;";
   "SELECT count(*) FROM addressinfo WHERE outval>=60*100000000 AND outval<70*100000000;";
   "SELECT count(*) FROM addressinfo WHERE outval>=70*100000000 AND outval<80*100000000;";
   "SELECT count(*) FROM addressinfo WHERE outval>=80*100000000 AND outval<90*100000000;";
   "SELECT count(*) FROM addressinfo WHERE outval>=90*100000000 AND outval<100*100000000;";
   "SELECT count(*) FROM addressinfo WHERE outval>=100*100000000 AND outval<1000*100000000;";
   "SELECT count(*) FROM addressinfo WHERE outval>=1000*100000000 AND outval<2000*100000000;";
   "SELECT count(*) FROM addressinfo WHERE outval>=2000*100000000 AND outval<3000*100000000;";
   "SELECT count(*) FROM addressinfo WHERE outval>=3000*100000000 AND outval<4000*100000000;";
   "SELECT count(*) FROM addressinfo WHERE outval>=4000*100000000 AND outval<5000*100000000;";
   "SELECT count(*) FROM addressinfo WHERE outval>=5000*100000000 AND outval<6000*100000000;";
   "SELECT count(*) FROM addressinfo WHERE outval>=6000*100000000 AND outval<7000*100000000;";
   "SELECT count(*) FROM addressinfo WHERE outval>=7000*100000000 AND outval<8000*100000000;";
   "SELECT count(*) FROM addressinfo WHERE outval>=8000*100000000 AND outval<9000*100000000;";
   "SELECT count(*) FROM addressinfo WHERE outval>=9000*100000000 AND outval<10000*100000000;";
   "SELECT count(*) FROM addressinfo WHERE outval>=10000*100000000 AND outval<20000*100000000;";
   "SELECT count(*) FROM addressinfo WHERE outval>=20000*100000000 AND outval<30000*100000000;";
   "SELECT count(*) FROM addressinfo WHERE outval>=30000*100000000 AND outval<40000*100000000;";
   "SELECT count(*) FROM addressinfo WHERE outval>=40000*100000000 AND outval<50000*100000000;";
   "SELECT count(*) FROM addressinfo WHERE outval>=50000*100000000 AND outval<60000*100000000;";
   "SELECT count(*) FROM addressinfo WHERE outval>=60000*100000000 AND outval<70000*100000000;";
   "SELECT count(*) FROM addressinfo WHERE outval>=70000*100000000 AND outval<80000*100000000;";
   "SELECT count(*) FROM addressinfo WHERE outval>=80000*100000000 AND outval<90000*100000000;";
   "SELECT count(*) FROM addressinfo WHERE outval>=90000*100000000 AND outval<100000*100000000;";
   "SELECT count(*) FROM addressinfo WHERE outval>=100000*100000000 AND outval<200000*100000000;";
   "SELECT count(*) FROM addressinfo WHERE outval>=200000*100000000 AND outval<300000*100000000;";
   "SELECT count(*) FROM addressinfo WHERE outval>=300000*100000000 AND outval<400000*100000000;";
   "SELECT count(*) FROM addressinfo WHERE outval>=400000*100000000 AND outval<500000*100000000;";
   "SELECT count(*) FROM addressinfo WHERE outval>=500000*100000000 AND outval<600000*100000000;";
   "SELECT count(*) FROM addressinfo WHERE outval>=600000*100000000 AND outval<700000*100000000;";
   "SELECT count(*) FROM addressinfo WHERE outval>=700000*100000000 AND outval<800000*100000000;";
   "SELECT count(*) FROM addressinfo WHERE outval>=800000*100000000 AND outval<900000*100000000;";
   "SELECT count(*) FROM addressinfo WHERE outval>=900000*100000000 AND outval<1000000*100000000;";
   "SELECT count(*) FROM addressinfo WHERE outval>=1000000*100000000;"].

Definition OutvalOfEntity : list string :=
  ["SELECT count(*) FROM entityinfo WHERE outval>=0*100000000 AND outval<1*100000000;";
   "SELECT count(*) FROM entityinfo WHERE outval>=1*100000000 AND outval<2*100000000;";
   "SELECT count(*) FROM entityinfo WHERE outval>=2*100000000 AND outval<3*100000000;";
   "SELECT count(*) FROM entityinfo WHERE outval>=3*100000000 AND outval<4*100000000;";
   "SELECT count(*) FROM entityinfo WHERE outval>=4*100000000 AND outval<5*100000000;";
   "SELECT count(*) FROM entityinfo WHERE outval>=5*100000000 AND outval<6*100000000;";
   "SELECT count(*) FROM entityinfo WHERE outval>=6*100000000 AND outval<7*100000000;";
   "SELECT count(*) FROM entityinfo WHERE outval>=7*100000000 AND outval<8*100000000;";
   "SELECT count(*) FROM entityinfo WHERE outval>=8*100000000 AND outval<9*100000000;";
   "SELECT count(*) FROM entityinfo WHERE outval>=9*100000000 AND outval<10*100000000;";
   "SELECT count(*) FROM entityinfo WHERE outval>=10*100000000 AND outval<20*100000000;";
   "SELECT count(*) FROM entityinfo WHERE outval>=20*100000000 AND outval<30*100000000;";
   "SELECT count(*) FROM entityinfo WHERE outval>=30*100000000 AND outval<40*100000000;";
   "SELECT count(*) FROM entityinfo WHERE outval>=40*100000000 AND outval<50*100000000;";
   "SELECT count(*) FROM entityinfo WHERE outval>=50*100000000 AND outval<60*100000000;";
   "SELECT count(*) FROM entityinfo WHERE outval>=60*100000000 AND outval<70*100000000;";
   "SELECT count(*) FROM entityinfo WHERE outval>=70*100000000 AND outval<80*100000000;";
   "SELECT count(*) FROM entityinfo WHERE outval>=80*100000000 AND outval<90*100000000;";
   "SELECT count(*) FROM entityinfo WHERE outval>=90*100000000 AND outval<100*100000000;";
   "SELECT count(*) FROM entityinfo WHERE outval>=100*100000000 AND outval<1000*100000000;";
   "SELECT count(*) FROM entityinfo WHERE outval>=1000*100000000 AND outval<2000*100000000;";
   "SELECT count(*) FROM entityinfo WHERE outval>=2000*100000000 AND outval<3000*100000000;";
   "SELECT count(*) FROM entityinfo WHERE outval>=3000*100000000 AND outval<4000*100000000;";
   "SELECT count(*) FROM entityinfo WHERE outval>=4000*100000000 AND outval<5000*100000000;";
   "SELECT count(*) FROM entityinfo WHERE outval>=5000*100000000 AND outval<6000*100000000;";
   "SELECT count(*) FROM entityinfo WHERE outval>=6000*100000000 AND outval<7000*100000000;";
   "SELECT count(*) FROM entityinfo WHERE outval>=7000*100000000 AND outval<8000*100000000;";
   "SELECT count(*) FROM entityinfo WHERE outval>=8000*100000000 AND outval<9000*100000000;";
   "SELECT count(*) FROM entityinfo WHERE outval>=9000*100000000 AND outval<10000*100000000;";
   "SELECT count(*) FROM entityinfo WHERE outval>=10000*100000000 AND outval<20000*100000000;";
   "SELECT count(*) FROM entityinfo WHERE outval>=20000*100000000 AND outval<30000*100000000;";
   "SELECT count(*) FROM entityinfo WHERE outval>=30000*100000000 AND outval<40000*100000000;";
   "SELECT count(*) FROM entityinfo WHERE outval>=40000*100000000 AND outval<50000*100000000;";
   "SELECT count(*) FROM entityinfo WHERE outval>=50000*100000000 AND outval<60000*100000000;";
   "SELECT count(*) FROM entityinfo WHERE outval>=60000*100000000 AND outval<70000*100000000;";
   "SELECT count(*) FROM entityinfo WHERE outval>=70000*100000000 AND outval<80000*100000000;";
   "SELECT count(*) FROM entityinfo WHERE outval>=80000*100000000 AND outval<90000*100000000;";
   "SELECT count(*) FROM entityinfo WHERE outval>=90000*100000000 AND outval<100000*100000000;";
   "SELECT count(*) FROM entityinfo WHERE outval>=100000*100000000 AND outval<200000*100000000;";
   "SELECT count(*) FROM entityinfo WHERE outval>=200000*100000000 AND outval<300000*100000000;";
   "SELECT count(*) FROM entityinfo WHERE outval>=300000*100000000 AND outval<400000*100000000;";
   "SELECT count(*) FROM entityinfo WHERE outval>=400000*100000000 AND outval<500000*100000000;";
   "SELECT count(*) FROM entityinfo WHERE outval>=500000*100000000 AND outval<600000*100000000;";
   "SELECT count(*) FROM entityinfo WHERE outval>=600000*100000000 AND outval<700000*100000000;";
   "SELECT count(*) FROM entityinfo WHERE outval>=700000*100000000 AND outval<800000*100000000;";
   "SELECT count(*) FROM entityinfo WHERE outval>=800000*100000000 AND outval<900000*100000000;";
   "SELECT count(*) FROM entityinfo WHERE outval>=900000*100000000 AND outval<1000000*100000000;";
   "SELECT count(*) FROM entityinfo WHERE outval>=1000000*100000000;"].

Definition BalOfAdd : list string :=
  ["SELECT count(*) FROM addressinfo WHERE bal>=0*100000000 AND bal<0.01*100000000;";
   "SELECT count(*) FROM addressinfo WHERE bal>=0.01*100000000 AND bal<0.1*100000000;";
   "SELECT count(*) FROM addressinfo WHERE bal>=0.1*100000000 AND bal<0.2*100000000;";
   "SELECT count(*) FROM addressinfo WHERE bal>=0.2*100000000 AND bal<0.3*100000000;";
   "SELECT count(*) FROM addressinfo WHERE bal>=0.3*100000000 AND bal<0.4*100000000;";
   "SELECT count(*) FROM addressinfo WHERE bal>=0.4*100000000 AND bal<0.5*100000000;";
   "SELECT count(*) FROM addressinfo WHERE bal>=0.5*100000000 AND bal<0.6*100000000;";
   "SELECT count(*) FROM addressinfo WHERE bal>=0.6*100000000 AND bal<0.7*100000000;";
   "SELECT count(*) FROM addressinfo WHERE bal>=0.7*100000000 AND bal<0.8*100000000;";
   "SELECT count(*) FROM addressinfo WHERE bal>=0.8*100000000 AND bal<0.9*100000000;";
   "SELECT count(*) FROM addressinfo WHERE bal>=0.9*100000000 AND bal<1*100000000;";
   "SELECT count(*) FROM addressinfo WHERE bal>=1*100000000 AND bal<2*100000000;";
   "SELECT count(*) FROM addressinfo WHERE bal>=2*100000000 AND bal<3*100000000;";
   "SELECT count(*) FROM addressinfo WHERE bal>=3*100000000 AND bal<4*100000000;";
   "SELECT count(*) FROM addressinfo WHERE bal>=4*100000000 AND bal<5*100000000;";
   "SELECT count(*) FROM addressinfo WHERE bal>=5*100000000 AND bal<6*100000000;";
   "SELECT count(*) FROM addressinfo WHERE bal>=6*100000000 AND bal<7*100000000;";
   "SELECT count(*) FROM addressinfo WHERE bal>=7*100000000 AND bal<8*100000000;";
   "SELECT count(*) FROM addressinfo WHERE bal>=8*100000000 AND bal<9*100000000;";
   "SELECT count(*) FROM addressinfo WHERE bal>=9*100000000 AND bal<10*100000000;";
   "SELECT count(*) FROM addressinfo WHERE bal>=10*100000000 AND bal<20*100000000;";
   "SELECT count(*) FROM addressinfo WHERE bal>=20*100000000 AND bal<30*100000000;";
   "SELECT count(*) FROM addressinfo WHERE bal>=30*100000000 AND bal<40*100000000;";
   "SELECT count(*) FROM addressinfo WHERE bal>=40*100000000 AND bal<50*100000000;";
   "SELECT count(*) FROM addressinfo WHERE bal>=50*100000000 AND bal<60*100000000;";
   "SELECT count(*) FROM addressinfo WHERE bal>=60*100000000 AND bal<70*100000000;";
   "SELECT count(*) FROM addressinfo WHERE bal>=70*100000000 AND bal<80*100000000;";
   "SELECT count(*) FROM addressinfo WHERE bal>=80*100000000 AND bal<90*100000000;";
   "SELECT count(*) FROM addressinfo WHERE bal>=90*100000000 AND bal<100*100000000;";
   "SELECT count(*) FROM addressinfo WHERE bal>=100*100000000 AND bal<1000*100000000;";
   "SELECT count(*) FROM addressinfo WHERE bal>=1000*100000000 AND bal<2000*100000000;";
   "SELECT count(*) FROM addressinfo WHERE bal>=2000*100000000 AND bal<3000*100000000;";
   "SELECT count(*) FROM addressinfo WHERE bal>=3000*100000000 AND bal<4000*100000000;";
   "SELECT count(*) FROM addressinfo WHERE bal>=4000*100000000 AND bal<5000*100000000;";
   "SELECT count(*) FROM addressinfo WHERE bal>=5000*100000000 AND bal<6000*100000000;";
   "SELECT count(*) FROM addressinfo WHERE bal>=6000*100000000 AND bal<7000*100000000;";
   "SELECT count(*) FROM addressinfo WHERE bal>=7000*100000000 AND bal<8000*100000000;";
   "SELECT count(*) FROM addressinfo WHERE bal>=8000*100000000 AND bal<9000*100000000;";
   "SELECT count(*) FROM addressinfo WHERE bal>=9000*100000000 AND bal<10000*100000000;";
   "SELECT count(*) FROM addressinfo WHERE bal>=10000*100000000 AND bal<20000*100000000;";
   "SELECT count(*) FROM addressinfo WHERE bal>=20000*100000000 AND bal<30000*100000000;";
   "SELECT count(*) FROM addressinfo WHERE bal>=30000*100000000 AND bal<40000*100000000;";
   "SELECT count(*) FROM addressinfo WHERE bal>=40000*100000000 AND bal<50000*100000000;";
   "SELECT count(*) FROM addressinfo WHERE bal>=50000*100000000 AND bal<60000*100000000;";
   "SELECT count(*) FROM addressinfo WHERE bal>=60000*100000000 AND bal<70000*100000000;";
   "SELECT count(*) FROM addressinfo WHERE bal>=70000*100000000 AND bal<80000*100000000;";
   "SELECT count(*) FROM addressinfo WHERE bal>=80000*100000000 AND bal<90000*100000000;";
   "SELECT count(*) FROM addressinfo WHERE bal>=90000*100000000 AND bal<100000*100000000;";
   "SELECT count(*) FROM addressinfo WHERE bal>=100000*100000000 AND bal<200000*100000000;";
   "SELECT count(*) FROM addressinfo WHERE bal>=200000*100000000 AND bal<300000*100000000;";
   "SELECT count(*) FROM addressinfo WHERE bal>=300000*100000000 AND bal<400000*100000000;";
   "SELECT count(*) FROM addressinfo WHERE bal>=400000*100000000 AND bal<500000*100000000;";
   "SELECT count(*) FROM addressinfo WHERE bal>=500000*100000000 AND bal<600000*100000000;";
   "SELECT count(*) FROM addressinfo WHERE bal>=600000*100000000 AND bal<700000*100000000;";
   "SELECT count(*) FROM addressinfo WHERE bal>=700000*100000000 AND bal<800000*100000000;";
   "SELECT count(*) FROM addressinfo WHERE bal>=800000*100000000 AND bal<900000*100000000;";
   "SELECT count(*) FROM addressinfo WHERE bal>=900000*100000000 AND bal<1000000*100000000;";
   "SELECT count(*) FROM addressinfo WHERE bal>=1000000*100000000;"].

Definition BalOfEntity : list string :=
  ["SELECT count(*) FROM entityinfo WHERE bal>=0*100000000 AND bal<0.01*100000000;";
   "SELECT count(*) FROM entityinfo WHERE bal>=0.01*100000000 AND bal<0.1*100000000;";
   "SELECT count(*) FROM entityinfo WHERE bal>=0.1*100000000 AND bal<0.2*100000000;";
   "SELECT count(*) FROM entityinfo WHERE bal>=0.2*100000000 AND bal<0.3*100000000;";
   "SELECT count(*) FROM entityinfo WHERE bal>=0.3*100000000 AND bal<0.4*100000000;";
   "SELECT count(*) FROM entityinfo WHERE bal>=0.4*100000000 AND bal<0.5*100000000;";
   "SELECT count(*) FROM entityinfo WHERE bal>=0.5*100000000 AND bal<0.6*100000000;";
   "SELECT count(*) FROM entityinfo WHERE bal>=0.6*100000000 AND bal<0.7*100000000;";
   "SELECT count(*) FROM entityinfo WHERE bal>=0.7*100000000 AND bal<0.8*100000000;";
   "SELECT count(*) FROM entityinfo WHERE bal>=0.8*100000000 AND bal<0.9*100000000;";
   "SELECT count(*) FROM entityinfo WHERE bal>=0.9*100000000 AND bal<1*100000000;";
   "SELECT count(*) FROM entityinfo WHERE bal>=1*100000000 AND bal<2*100000000;";
   "SELECT count(*) FROM entityinfo WHERE bal>=2*100000000 AND bal<3*100000000;";
   "SELECT count(*) FROM entityinfo WHERE bal>=3*100000000 AND bal<4*100000000;";
   "SELECT count(*) FROM entityinfo WHERE bal>=4*100000000 AND bal<5*100000000;";
   "SELECT count(*) FROM entityinfo WHERE bal>=5*100000000 AND bal<6*100000000;";
   "SELECT count(*) FROM entityinfo WHERE bal>=6*100000000 AND bal<7*100000000;";
   "SELECT count(*) FROM entityinfo WHERE bal>=7*100000000 AND bal<8*100000000;";
   "SELECT count(*) FROM entityinfo WHERE bal>=8*100000000 AND bal<9*100000000;";
   "SELECT count(*) FROM entityinfo WHERE bal>=9*100000000 AND bal<10*100000000;";
   "SELECT count(*) FROM entityinfo WHERE bal>=10*100000000 AND bal<20*100000000;";
   "SELECT count(*) FROM entityinfo WHERE bal>=20*100000000 AND bal<30*100000000;";
   "SELECT count(*) FROM entityinfo WHERE bal>=30*100000000 AND bal<40*100000000;";
   "SELECT count(*) FROM entityinfo WHERE bal>=40*100000000 AND bal<50*100000000;";
   "SELECT count(*) FROM entityinfo WHERE bal>=50*100000000 AND bal<60*100000000;";
   "SELECT count(*) FROM entityinfo WHERE bal>=60*100000000 AND bal<70*100000000;";
   "SELECT count(*) FROM entityinfo WHERE bal>=70*100000000 AND bal<80*100000000;";
   "SELECT count(*) FROM entityinfo WHERE bal>=80*100000000 AND bal<90*100000000;";
   "SELECT count(*) FROM entityinfo WHERE bal>=90*100000000 AND bal<100*100000000;";
   "SELECT count(*) FROM entityinfo WHERE bal>=100*100000000 AND bal<1000*100000000;";
   "SELECT count(*) FROM entityinfo WHERE bal>=1000*100000000 AND bal<2000*100000000;";
   "SELECT count(*) FROM entityinfo WHERE bal>=2000*100000000 AND bal<3000*100000000;";
   "SELECT count(*) FROM entityinfo WHERE bal>=3000*100000000 AND bal<4000*100000000;";
   "SELECT count(*) FROM entityinfo WHERE bal>=4000*100000000 AND bal<5000*100000000;";
   "SELECT count(*) FROM entityinfo WHERE bal>=5000*100000000 AND bal<6000*100000000;";
   "SELECT count(*) FROM entityinfo WHERE bal>=6000*100000000 AND bal<7000*100000000;";
   "SELECT count(*) FROM entityinfo WHERE bal>=7000*100000000 AND bal<8000*100000000;";
   "SELECT count(*) FROM entityinfo WHERE bal>=8000*100000000 AND bal<9000*100000000;";
   "SELECT count(*) FROM entityinfo WHERE bal>=9000*100000000 AND bal<10000*100000000;";
   "SELECT count(*) FROM entityinfo WHERE bal>=10000*100000000 AND bal<20000*100000000;";
   "SELECT count(*) FROM entityinfo WHERE bal>=20000*100000000 AND bal<30000*100000000;";
   "SELECT count(*) FROM entityinfo WHERE bal>=30000*100000000 AND bal<40000*100000000;";
   "SELECT count(*) FROM entityinfo WHERE bal>=40000*100000000 AND bal<50000*100000000;";
   "SELECT count(*) FROM entityinfo WHERE bal>=50000*100000000 AND bal<60000*100000000;";
   "SELECT count(*) FROM entityinfo WHERE bal>=60000*100000000 AND bal<70000*100000000;";
   "SELECT count(*) FROM entityinfo WHERE bal>=70000*100000000 AND bal<80000*100000000;";
   "SELECT count(*) FROM entityinfo WHERE bal>=80000*100000000 AND bal<90000*100000000;";
   "SELECT count(*) FROM entityinfo WHERE bal>=90000*100000000 AND bal<100000*100000000;";
   "SELECT count(*) FROM entityinfo WHERE bal>=100000*100000000 AND bal<200000*100000000;";
   "SELECT count(*) FROM entityinfo WHERE bal>=200000*100000000 AND bal<300000*100000000;";
   "SELECT count(*) FROM entityinfo WHERE bal>=300000*100000000 AND bal<400000*100000000;";
   "SELECT count(*) FROM entityinfo WHERE bal>=400000*100000000 AND bal<500000*100000000;";
   "SELECT count(*) FROM entityinfo WHERE bal>=500000*100000000 AND bal<600000*100000000;";
   "SELECT count(*) FROM entityinfo WHERE bal>=600000*100000000 AND bal<700000*100000000;";
   "SELECT count(*) FROM entityinfo WHERE bal>=700000*100000000 AND bal<800000*100000000;";
   "SELECT count(*) FROM entityinfo WHERE bal>=800000*100000000 AND bal<900000*100000000;";
   "SELECT count(*) FROM entityinfo WHERE bal>=900000*100000000 AND bal<1000000*100000000;";
   "SELECT count(*) FROM entityinfo WHERE bal>=1000000*100000000;"].

Definition MaxbalOfAdd : list string :=
  ["SELECT count(*) FROM addressinfo WHERE maxbal>=0*100000000 AND maxbal<0.01*100000000;";
   "SELECT count(*) FROM addressinfo WHERE maxbal>=0.01*100000000 AND maxbal<0.1*100000000;";
   "SELECT count(*) FROM addressinfo WHERE maxbal>=0.1*100000000 AND maxbal<0.2*100000000;";
   "SELECT count(*) FROM addressinfo WHERE maxbal>=0.2*100000000 AND maxbal<0.3*100000000;";
   "SELECT count(*) FROM addressinfo WHERE maxbal>=0.3*100000000 AND maxbal<0.4*100000000;";
   "SELECT count(*) FROM addressinfo WHERE maxbal>=0.4*100000000 AND maxbal<0.5*100000000;";
   "SELECT count(*) FROM addressinfo WHERE maxbal>=0.5*100000000 AND maxbal<0.6*100000000;";
   "SELECT count(*) FROM addressinfo WHERE maxbal>=0.6*100000000 AND maxbal<0.7*100000000;";
   "SELECT count(*) FROM addressinfo WHERE maxbal>=0.7*100000000 AND maxbal<0.8*100000000;";
   "SELECT count(*) FROM addressinfo WHERE maxbal>=0.8*100000000 AND maxbal<0.9*100000000;";
   "SELECT count(*) FROM addressinfo WHERE maxbal>=0.9*100000000 AND maxbal<1*100000000;";
   "SELECT count(*) FROM addressinfo WHERE maxbal>=1*100000000 AND maxbal<2*100000000;";
   "SELECT count(*) FROM addressinfo WHERE maxbal>=2*100000000 AND maxbal<3*100000000;";
   "SELECT count(*) FROM addressinfo WHERE maxbal>=3*100000000 AND maxbal<4*100000000;";
   "SELECT count(*) FROM addressinfo WHERE maxbal>=4*100000000 AND maxbal<5*100000000;";
   "SELECT count(*) FROM addressinfo WHERE maxbal>=5*100000000 AND maxbal<6*100000000;";
   "SELECT count(*) FROM addressinfo WHERE maxbal>=6*100000000 AND maxbal<7*100000000;";
   "SELECT count(*) FROM addressinfo WHERE maxbal>=7*100000000 AND maxbal<8*100000000;";
   "SELECT count(*) FROM addressinfo WHERE maxbal>=8*100000000 AND maxbal<9*100000000;";
   "SELECT count(*) FROM addressinfo WHERE maxbal>=9*100000000 AND maxbal<10*100000000;";
   "SELECT count(*) FROM addressinfo WHERE maxbal>=10*100000000 AND maxbal<20*100000000;";
   "SELECT count(*) FROM addressinfo WHERE maxbal>=20*100000000 AND maxbal<30*100000000;";
   "SELECT count(*) FROM addressinfo WHERE maxbal>=30*100000000 AND maxbal<40*100000000;";
   "SELECT count(*) FROM addressinfo WHERE maxbal>=40*100000000 AND maxbal<50*100000000;";
   "SELECT count(*) FROM addressinfo WHERE maxbal>=50*100000000 AND maxbal<60*100000000;";
   "SELECT count(*) FROM addressinfo WHERE maxbal>=60*100000000 AND maxbal<70*100000000;";
   "SELECT count(*) FROM addressinfo WHERE maxbal>=70*100000000 AND maxbal<80*100000000;";
   "SELECT count(*) FROM addressinfo WHERE maxbal>=80*100000000 AND maxbal<90*100000000;";
   "SELECT count(*) FROM addressinfo WHERE maxbal>=90*100000000 AND maxbal<100*100000000;";
   "SELECT count(*) FROM addressinfo WHERE maxbal>=100*100000000 AND maxbal<1000*100000000;";
   "SELECT count(*) FROM addressinfo WHERE maxbal>=1000*100000000 AND maxbal<2000*100000000;";
   "SELECT count(*) FROM addressinfo WHERE maxbal>=2000*100000000 AND maxbal<3000*100000000;";
   "SELECT count(*) FROM addressinfo WHERE maxbal>=3000*100000000 AND maxbal<4000*100000000;";
   "SELECT count(*) FROM addressinfo WHERE maxbal>=4000*100000000 AND maxbal<5000*100000000;";
   "SELECT count(*) FROM addressinfo WHERE maxbal>=5000*100000000 AND maxbal<6000*100000000;";
   "SELECT count(*) FROM addressinfo WHERE maxbal>=6000*100000000 AND maxbal<7000*100000000;";
   "SELECT count(*) FROM addressinfo WHERE maxbal>=7000*100000000 AND maxbal<8000*100000000;";
   "SELECT count(*) FROM addressinfo WHERE maxbal>=8000*100000000 AND maxbal<9000*100000000;";
   "SELECT count(*) FROM addressinfo WHERE maxbal>=9000*100000000 AND maxbal<10000*100000000;";
   "SELECT count(*) FROM addressinfo WHERE maxbal>=10000*100000000 AND maxbal<20000*100000000;";
   "SELECT count(*) FROM addressinfo WHERE maxbal>=20000*100000000 AND maxbal<30000*100000000;";
   "SELECT count(*) FROM addressinfo WHERE maxbal>=30000*100000000 AND maxbal<40000*100000000;";
   "SELECT count(*) FROM addressinfo WHERE maxbal>=40000*100000000 AND maxbal<50000*100000000;";
   "SELECT count(*) FROM addressinfo WHERE maxbal>=50000*100000000 AND maxbal<60000*100000000;";
   "SELECT count(*) FROM addressinfo WHERE maxbal>=60000*100000000 AND maxbal<70000*100000000;";
   "SELECT count(*) FROM addressinfo WHERE maxbal>=70000*100000000 AND maxbal<80000*100000000;";
   "SELECT count(*) FROM addressinfo WHERE maxbal>=80000*100000000 AND maxbal<90000*100000000;";
   "SELECT count(*) FROM addressinfo WHERE maxbal>=90000*100000000 AND maxbal<100000*100000000;";
   "SELECT count(*) FROM addressinfo WHERE maxbal>=100000*100000000 AND maxbal<200000*100000000;";
   "SELECT count(*) FROM addressinfo WHERE maxbal>=200000*100000000 AND maxbal<300000*100000000;";
   "SELECT count(*) FROM addressinfo WHERE maxbal>=300000*100000000 AND maxbal<400000*100000000;";
   "SELECT count(*) FROM addressinfo WHERE maxbal>=400000*100000000 AND maxbal<500000*100000000;";
   "SELECT count(*) FROM addressinfo WHERE maxbal>=500000*100000000 AND maxbal<600000*100000000;";
   "SELECT count(*) FROM addressinfo WHERE maxbal>=600000*100000000 AND maxbal<700000*100000000;";
   "SELECT count(*) FROM addressinfo WHERE maxbal>=700000*100000000 AND maxbal<800000*100000000;";
   "SELECT count(*) FROM addressinfo WHERE maxbal>=800000*100000000 AND maxbal<900000*100000000;";
   "SELECT count(*) FROM addressinfo WHERE maxbal>=900000*100000000 AND maxbal<1000000*100000000;";
   "SELECT count(*) FROM addressinfo WHERE maxbal>=1000000*100000000;"].

Definition MaxbalOfEntity : list string :=
  ["SELECT count(*) FROM entityinfo WHERE maxbal>=0*100000000 AND maxbal<0.01*100000000;";
   "SELECT count(*) FROM entityinfo WHERE maxbal>=0.01*100000000 AND maxbal<0.1*100000000;";
   "SELECT count(*) FROM entityinfo WHERE maxbal>=0.1*100000000 AND maxbal<0.2*100000000;";
   "SELECT count(*) FROM entityinfo WHERE maxbal>=0.2*100000000 AND maxbal<0.3*100000000;";
   "SELECT count(*) FROM entityinfo WHERE maxbal>=0.3*100000000 AND maxbal<0.4*100000000;";
   "SELECT count(*) FROM entityinfo WHERE maxbal>=0.4*100000000 AND maxbal<0.5*100000000;";
   "SELECT count(*) FROM entityinfo WHERE maxbal>=0.5*100000000 AND maxbal<0.6*100000000;";
   "SELECT count(*) FROM entityinfo WHERE maxbal>=0.6*100000000 AND maxbal<0.7*100000000;";
   "SELECT count(*) FROM entityinfo WHERE maxbal>=0.7*100000000 AND maxbal<0.8*100000000;";
   "SELECT count(*) FROM entityinfo WHERE maxbal>=0.8*100000000 AND maxbal<0.9*100000000;";
   "SELECT count(*) FROM entityinfo WHERE maxbal>=0.9*100000000 AND maxbal<1*100000000;";
   "SELECT count(*) FROM entityinfo WHERE maxbal>=1*100000000 AND maxbal<2*100000000;";
   "SELECT count(*) FROM entityinfo WHERE maxbal>=2*100000000 AND maxbal<3*100000000;";
   "SELECT count(*) FROM entityinfo WHERE maxbal>=3*100000000 AND maxbal<4*100000000;";
   "SELECT count(*) FROM entityinfo WHERE maxbal>=4*100000000 AND maxbal<5*100000000;";
   "SELECT count(*) FROM entityinfo WHERE maxbal>=5*100000000 AND maxbal<6*100000000;";
   "SELECT count(*) FROM entityinfo WHERE maxbal>=6*100000000 AND maxbal<7*100000000;";
   "SELECT count(*) FROM entityinfo WHERE maxbal>=7*100000000 AND maxbal<8*100000000;";
   "SELECT count(*) FROM entityinfo WHERE maxbal>=8*100000000 AND maxbal<9*100000000;";
   "SELECT count(*) FROM entityinfo WHERE maxbal>=9*100000000 AND maxbal<10*100000000;";
   "SELECT count(*) FROM entityinfo WHERE maxbal>=10*100000000 AND maxbal<20*100000000;";
   "SELECT count(*) FROM entityinfo WHERE maxbal>=20*100000000 AND maxbal<30*100000000;";
   "SELECT count(*) FROM entityinfo WHERE maxbal>=30*100000000 AND maxbal<40*100000000;";
   "SELECT count(*) FROM entityinfo WHERE maxbal>=40*100000000 AND maxbal<50*100000000;";
   "SELECT count(*) FROM entityinfo WHERE maxbal>=50*100000000 AND maxbal<60*100000000;";
   "SELECT count(*) FROM entityinfo WHERE maxbal>=60*100000000 AND maxbal<70*100000000;";
   "SELECT count(*) FROM entityinfo WHERE maxbal>=70*100000000 AND maxbal<80*100000000;";
   "SELECT count(*) FROM entityinfo WHERE maxbal>=80*100000000 AND maxbal<90*100000000;";
   "SELECT count(*) FROM entityinfo WHERE maxbal>=90*100000000 AND maxbal<100*100000000;";
   "SELECT count(*) FROM entityinfo WHERE maxbal>=100*100000000 AND maxbal<1000*100000000;";
   "SELECT count(*) FROM entityinfo WHERE maxbal>=1000*100000000 AND maxbal<2000*100000000;";
   "SELECT count(*) FROM entityinfo WHERE maxbal>=2000*100000000 AND maxbal<3000*100000000;";
   "SELECT count(*) FROM entityinfo WHERE maxbal>=3000*100000000 AND maxbal<4000*100000000;";
   "SELECT count(*) FROM entityinfo WHERE maxbal>=4000*100000000 AND maxbal<5000*100000000;";
   "SELECT count(*) FROM entityinfo WHERE maxbal>=5000*100000000 AND maxbal<6000*100000000;";
   "SELECT count(*) FROM entityinfo WHERE maxbal>=6000*100000000 AND maxbal<7000*100000000;";
   "SELECT count(*) FROM entityinfo WHERE maxbal>=7000*100000000 AND maxbal<8000*100000000;";
   "SELECT count(*) FROM entityinfo WHERE maxbal>=8000*100000000 AND maxbal<9000*100000000;";
   "SELECT count(*) FROM entityinfo WHERE maxbal>=9000*100000000 AND maxbal<10000*100000000;";
   "SELECT count(*) FROM entityinfo WHERE maxbal>=10000*100000000 AND maxbal<20000*100000000;";
   "SELECT count(*) FROM entityinfo WHERE maxbal>=20000*100000000 AND maxbal<30000*100000000;";
   "SELECT count(*) FROM entityinfo WHERE maxbal>=30000*100000000 AND maxbal<40000*100000000;";
   "SELECT count(*) FROM entityinfo WHERE maxbal>=40000*100000000 AND maxbal<50000*100000000;";
   "SELECT count(*) FROM entityinfo WHERE maxbal>=50000*100000000 AND maxbal<60000*100000000;";
   "SELECT count(*) FROM entityinfo WHERE maxbal>=60000*100000000 AND maxbal<70000*100000000;";
   "SELECT count(*) FROM entityinfo WHERE maxbal>=70000*100000000 AND maxbal<80000*100000000;";
   "SELECT count(*) FROM entityinfo WHERE maxbal>=80000*100000000 AND maxbal<90000*100000000;";
   "SELECT count(*) FROM entityinfo WHERE maxbal>=90000*100000000 AND maxbal<100000*100000000;";
   "SELECT count(*) FROM entityinfo WHERE maxbal>=100000*100000000 AND maxbal<200000*100000000;";
   "SELECT count(*) FROM entityinfo WHERE maxbal>=200000*100000000 AND maxbal<300000*100000000;";
   "SELECT count(*) FROM entityinfo WHERE maxbal>=300000*100000000 AND maxbal<400000*100000000;";
   "SELECT count(*) FROM entityinfo WHERE maxbal>=400000*100000000 AND maxbal<500000*100000000;";
   "SELECT count(*) FROM entityinfo WHERE maxbal>=500000*100000000 AND maxbal<600000*100000000;";
   "SELECT count(*) FROM entityinfo WHERE maxbal>=600000*100000000 AND maxbal<700000*100000000;";
   "SELECT count(*) FROM entityinfo WHERE maxbal>=700000*100000000 AND maxbal<800000*100000000;";
   "SELECT count(*) FROM entityinfo WHERE maxbal>=800000*100000000 AND maxbal<900000*100000000;";
   "SELECT count(*) FROM entityinfo WHERE maxbal>=900000*100000000 AND maxbal<1000000*100000000;";
   "SELECT count(*) FROM entityinfo WHERE maxbal>=1000000*100000000;"].

Definition TxcntOfAdd : list string :=
  ["SELECT count(*) FROM addressinfo WHERE (incnt+outcnt)>=1 AND (incnt+outcnt)<2;";
   "SELECT count(*) FROM addressinfo WHERE (incnt+outcnt)>=2 AND (incnt+outcnt)<3;";
   "SELECT count(*) FROM addressinfo WHERE (incnt+outcnt)>=3 AND (incnt+outcnt)<4;";
   "SELECT count(*) FROM addressinfo WHERE (incnt+outcnt)>=4 AND (incnt+outcnt)<5;";
   "SELECT count(*) FROM addressinfo WHERE (incnt+outcnt)>=5 AND (incnt+outcnt)<6;";
   "SELECT count(*) FROM addressinfo WHERE (incnt+outcnt)>=6 AND (incnt+outcnt)<7;";
   "SELECT count(*) FROM addressinfo WHERE (incnt+outcnt)>=7 AND (incnt+outcnt)<8;";
   "SELECT count(*) FROM addressinfo WHERE (incnt+outcnt)>=8 AND (incnt+outcnt)<9;";
   "SELECT count(*) FROM addressinfo WHERE (incnt+outcnt)>=9 AND (incnt+outcnt)<10;";
   "SELECT count(*) FROM addressinfo WHERE (incnt+outcnt)>=10 AND (incnt+outcnt)<100;";
   "SELECT count(*) FROM addressinfo WHERE (incnt+outcnt)>=100 AND (incnt+outcnt)<200;";
   "SELECT count(*) FROM addressinfo WHERE (incnt+outcnt)>=200 AND (incnt+outcnt)<300;";
   "SELECT count(*) FROM addressinfo WHERE (incnt+outcnt)>=300 AND (incnt+outcnt)<400;";
   "SELECT count(*) FROM addressinfo WHERE (incnt+outcnt)>=400 AND (incnt+outcnt)<500;";
   "SELECT count(*) FROM addressinfo WHERE (incnt+outcnt)>=500 AND (incnt+outcnt)<600;";
   "SELECT count(*) FROM addressinfo WHERE (incnt+outcnt)>=600 AND (incnt+outcnt)<700;";
   "SELECT count(*) FROM addressinfo WHERE (incnt+outcnt)>=700 AND (incnt+outcnt)<800;";
   "SELECT count(*) FROM addressinfo WHERE (incnt+outcnt)>=800 AND (incnt+outcnt)<900;";
   "SELECT count(*) FROM addressinfo WHERE (incnt+outcnt)>=900 AND (incnt+outcnt)<1000;";
   "SELECT count(*) FROM addressinfo WHERE (incnt+outcnt)>=1000 AND (incnt+outcnt)<5000;";
   "SELECT count(*) FROM addressinfo WHERE (incnt+outcnt)>=5000 AND (incnt+outcnt)<10000;";
   "SELECT count(*) FROM addressinfo WHERE (incnt+outcnt)>=10000 AND (incnt+outcnt)<50000;";
   "SELECT count(*) FROM addressinfo WHERE (incnt+outcnt)>=50000 AND (incnt+outcnt)<100000;";
   "SELECT count(*) FROM addressinfo WHERE (incnt+outcnt)>=100000 AND (incnt+outcnt)<500000;";
   "SELECT count(*) FROM addressinfo WHERE (incnt+outcnt)>=500000;"].

Definition TxcntOfEntity : list string :=
  ["SELECT count(*) FROM entityinfo WHERE (incnt+outcnt)>=1 AND (incnt+outcnt)<2;";
   "SELECT count(*) FROM entityinfo WHERE (incnt+outcnt)>=2 AND (incnt+outcnt)<3;";
   "SELECT count(*) FROM entityinfo WHERE (incnt+outcnt)>=3 AND (incnt+outcnt)<4;";
   "SELECT count(*) FROM entityinfo WHERE (incnt+outcnt)>=4 AND (incnt+outcnt)<5;";
   "SELECT count(*) FROM entityinfo WHERE (incnt+outcnt)>=5 AND (incnt+outcnt)<6;";
   "SELECT count(*) FROM entityinfo WHERE (incnt+outcnt)>=6 AND (incnt+outcnt)<7;";
   "SELECT count(*) FROM entityinfo WHERE (incnt+outcnt)>=7 AND (incnt+outcnt)<8;";
   "SELECT count(*) FROM entityinfo WHERE (incnt+outcnt)>=8 AND (incnt+outcnt)<9;";
   "SELECT count(*) FROM entityinfo WHERE (incnt+outcnt)>=9 AND (incnt+outcnt)<10;";
   "SELECT count(*) FROM entityinfo WHERE (incnt+outcnt)>=10 AND (incnt+outcnt)<100;";
   "SELECT count(*) FROM entityinfo WHERE (incnt+outcnt)>=100 AND (incnt+outcnt)<200;";
   "SELECT count(*) FROM entityinfo WHERE (incnt+outcnt)>=200 AND (incnt+outcnt)<300;";
   "SELECT count(*) FROM entityinfo WHERE (incnt+outcnt)>=300 AND (incnt+outcnt)<400;";
   "SELECT count(*) FROM entityinfo WHERE (incnt+outcnt)>=400 AND (incnt+outcnt)<500;";
   "SELECT count(*) FROM entityinfo WHERE (incnt+outcnt)>=500 AND (incnt+outcnt)<600;";
   "SELECT count(*) FROM entityinfo WHERE (incnt+outcnt)>=600 AND (incnt+outcnt)<700;";
   "SELECT count(*) FROM entityinfo WHERE (incnt+outcnt)>=700 AND (incnt+outcnt)<800;";
   "SELECT count(*) FROM entityinfo WHERE (incnt+outcnt)>=800 AND (incnt+outcnt)<900;";
   "SELECT count(*) FROM entityinfo WHERE (incnt+outcnt)>=900 AND (incnt+outcnt)<1000;";
   "SELECT count(*) FROM entityinfo WHERE (incnt+outcnt)>=1000 AND (incnt+outcnt)<5000;";
   "SELECT count(*) FROM entityinfo WHERE (incnt+outcnt)>=5000 AND (incnt+outcnt)<10000;";
   "SELECT count(*) FROM entityinfo WHERE (incnt+outcnt)>=10000 AND (incnt+outcnt)<50000;";
   "SELECT count(*) FROM entityinfo WHERE (incnt+outcnt)>=50000 AND (incnt+outcnt)<100000;";
   "SELECT count(*) FROM entityinfo WHERE (incnt+outcnt)>=100000 AND (incnt+outcnt)<500000;";
   "SELECT count(*) FROM entityinfo WHERE (incnt+outcnt)>=500000;"].

Definition OutvalOfTx (after : string) : list string :=
  ["SELECT count(*) FROM txinfo WHERE unix_timestamp(txtime) > unix_timestamp('" +:+ after
     +:+ "') AND outvalue>=0*100000000 AND outvalue<1*100000000;";
   "SELECT count(*) FROM txinfo WHERE unix_timestamp(txtime) > unix_timestamp('" +:+ after
     +:+ "') AND outvalue>=1*100000000 AND outvalue<2*100000000;";
   "SELECT count(*) FROM txinfo WHERE unix_timestamp(txtime) > unix_timestamp('" +:+ after
     +:+ "') AND outvalue>=2*100000000 AND outvalue<3*100000000;";
   "SELECT count(*) FROM txinfo WHERE unix_timestamp(txtime) > unix_timestamp('" +:+ after
     +:+ "') AND outvalue>=3*100000000 AND outvalue<4*100000000;";
   "SELECT count(*) FROM txinfo WHERE unix_timestamp(txtime) > unix_timestamp('" +:+ after
     +:+ "') AND outvalue>=4*100000000 AND outvalue<5*100000000;";
   "SELECT count(*) FROM txinfo WHERE unix_timestamp(txtime) > unix_timestamp('" +:+ after
     +:+ "') AND outvalue>=5*100000000 AND outvalue<6*100000000;";
   "SELECT count(*) FROM txinfo WHERE unix_timestamp(txtime) > unix_timestamp('" +:+ after
     +:+ "') AND outvalue>=6*100000000 AND outvalue<7*100000000;";
   "SELECT count(*) FROM txinfo WHERE unix_timestamp(txtime) > unix_timestamp('" +:+ after
     +:+ "') AND outvalue>=7*100000000 AND outvalue<8*100000000;";
   "SELECT count(*) FROM txinfo WHERE unix_timestamp(txtime) > unix_timestamp('" +:+ after
     +:+ "') AND outvalue>=8*100000000 AND outvalue<9*100000000;";
   "SELECT count(*) FROM txinfo WHERE unix_timestamp(txtime) > unix_timestamp('" +:+ after
     +:+ "') AND outvalue>=9*100000000 AND outvalue<10*100000000;";
   "SELECT count(*) FROM txinfo WHERE unix_timestamp(txtime) > unix_timestamp('" +:+ after
     +:+ "') AND outvalue>=10*100000000 AND outvalue<20*100000000;";
   "SELECT count(*) FROM txinfo WHERE unix_timestamp(txtime) > unix_timestamp('" +:+ after
     +:+ "') AND outvalue>=20*100000000 AND outvalue<30*100000000;";
   "SELECT count(*) FROM txinfo WHERE unix_timestamp(txtime) > unix_timestamp('" +:+ after
     +:+ "') AND outvalue>=30*100000000 AND outvalue<40*100000000;";
   "SELECT count(*) FROM txinfo WHERE unix_timestamp(txtime) > unix_timestamp('" +:+ after
     +:+ "') AND outvalue>=40*100000000 AND outvalue<50*100000000;";
   "SELECT count(*) FROM txinfo WHERE unix_timestamp(txtime) > unix_timestamp('" +:+ after
     +:+ "') AND outvalue>=50*100000000 AND outvalue<60*100000000;";
   "SELECT count(*) FROM txinfo WHERE unix_timestamp(txtime) > unix_timestamp('" +:+ after
     +:+ "') AND outvalue>=60*100000000 AND outvalue<70*100000000;";
   "SELECT count(*) FROM txinfo WHERE unix_timestamp(txtime) > unix_timestamp('" +:+ after
     +:+ "') AND outvalue>=70*100000000 AND outvalue<80*100000000;";
   "SELECT count(*) FROM txinfo WHERE unix_timestamp(txtime) > unix_timestamp('" +:+ after
     +:+ "') AND outvalue>=80*100000000 AND outvalue<90*100000000;";
   "SELECT count(*) FROM txinfo WHERE unix_timestamp(txtime) > unix_timestamp('" +:+ after
     +:+ "') AND outvalue>=90*100000000 AND outvalue<100*100000000;";
   "SELECT count(*) FROM txinfo WHERE unix_timestamp(txtime) > unix_timestamp('" +:+ after
     +:+ "') AND outvalue>=100*100000000 AND outvalue<1000*100000000;";
   "SELECT count(*) FROM txinfo WHERE unix_timestamp(txtime) > unix_timestamp('" +:+ after
     +:+ "') AND outvalue>=1000*100000000 AND outvalue<2000*100000000;";
   "SELECT count(*) FROM txinfo WHERE unix_timestamp(txtime) > unix_timestamp('" +:+ after
     +:+ "') AND outvalue>=2000*100000000 AND outvalue<3000*100000000;";
   "SELECT count(*) FROM txinfo WHERE unix_timestamp(txtime) > unix_timestamp('" +:+ after
     +:+ "') AND outvalue>=3000*100000000 AND outvalue<4000*100000000;";
   "SELECT count(*) FROM txinfo WHERE unix_timestamp(txtime) > unix_timestamp('" +:+ after
     +:+ "') AND outvalue>=4000*100000000 AND outvalue<5000*100000000;";
   "SELECT count(*) FROM txinfo WHERE unix_timestamp(txtime) > unix_timestamp('" +:+ after
     +:+ "') AND outvalue>=5000*100000000 AND outvalue<6000*100000000;";
   "SELECT count(*) FROM txinfo WHERE unix_timestamp(txtime) > unix_timestamp('" +:+ after
     +:+ "') AND outvalue>=6000*100000000 AND outvalue<7000*100000000;";
   "SELECT count(*) FROM txinfo WHERE unix_timestamp(txtime) > unix_timestamp('" +:+ after
     +:+ "') AND outvalue>=7000*100000000 AND outvalue<8000*100000000;";
   "SELECT count(*) FROM txinfo WHERE unix_timestamp(txtime) > unix_timestamp('" +:+ after
     +:+ "') AND outvalue>=8000*100000000 AND outvalue<9000*100000000;";
   "SELECT count(*) FROM txinfo WHERE unix_timestamp(txtime) > unix_timestamp('" +:+ after
     +:+ "') AND outvalue>=9000*100000000 AND outvalue<10000*100000000;";
   "SELECT count(*) FROM txinfo WHERE unix_timestamp(txtime) > unix_timestamp('" +:+ after
     +:+ "') AND outvalue>=10000*100000000 AND outvalue<20000*100000000;";
   "SELECT count(*) FROM txinfo WHERE unix_timestamp(txtime) > unix_timestamp('" +:+ after
     +:+ "') AND outvalue>=20000*100000000 AND outvalue<30000*100000000;";
   "SELECT count(*) FROM txinfo WHERE unix_timestamp(txtime) > unix_timestamp('" +:+ after
     +:+ "') AND outvalue>=30000*100000000 AND outvalue<40000*100000000;";
   "SELECT count(*) FROM txinfo WHERE unix_timestamp(txtime) > unix_timestamp('" +:+ after
     +:+ "') AND outvalue>=40000*100000000 AND outvalue<50000*100000000;";
   "SELECT count(*) FROM txinfo WHERE unix_timestamp(txtime) > unix_timestamp('" +:+ after
     +:+ "') AND outvalue>=50000*100000000 AND outvalue<60000*100000000;";
   "SELECT count(*) FROM txinfo WHERE unix_timestamp(txtime) > unix_timestamp('" +:+ after
     +:+ "') AND outvalue>=60000*100000000 AND outvalue<70000*100000000;";
   "SELECT count(*) FROM txinfo WHERE unix_timestamp(txtime) > unix_timestamp('" +:+ after
     +:+ "') AND outvalue>=70000*100000000 AND outvalue<80000*100000000;";
   "SELECT count(*) FROM txinfo WHERE unix_timestamp(txtime) > unix_timestamp('" +:+ after
     +:+ "') AND outvalue>=80000*100000000 AND outvalue<90000*100000000;";
   "SELECT count(*) FROM txinfo WHERE unix_timestamp(txtime) > unix_timestamp('" +:+ after
     +:+ "') AND outvalue>=90000*100000000 AND outvalue<100000*100000000;";
   "SELECT count(*) FROM txinfo WHERE unix_timestamp(txtime) > unix_timestamp('" +:+ after
     +:+ "') AND outvalue>=100000*100000000 AND outvalue<200000*100000000;";
   "SELECT count(*) FROM txinfo WHERE unix_timestamp(txtime) > unix_timestamp('" +:+ after
     +:+ "') AND outvalue>=200000*100000000 AND outvalue<300000*100000000;";
   "SELECT count(*) FROM txinfo WHERE unix_timestamp(txtime) > unix_timestamp('" +:+ after
     +:+ "') AND outvalue>=300000*100000000 AND outvalue<400000*100000000;";
   "SELECT count(*) FROM txinfo WHERE unix_timestamp(txtime) > unix_timestamp('" +:+ after
     +:+ "') AND outvalue>=400000*100000000 AND outvalue<500000*100000000;";
   "SELECT count(*) FROM txinfo WHERE unix_timestamp(txtime) > unix_timestamp('" +:+ after
     +:+ "') AND outvalue>=500000*100000000 AND outvalue<600000*100000000;";
   "SELECT count(*) FROM txinfo WHERE unix_timestamp(txtime) > unix_timestamp('" +:+ after
     +:+ "') AND outvalue>=600000*100000000 AND outvalue<700000*100000000;";
   "SELECT count(*) FROM txinfo WHERE unix_timestamp(txtime) > unix_timestamp('" +:+ after
     +:+ "') AND outvalue>=700000*100000000 AND outvalue<800000*100000000;";
   "SELECT count(*) FROM txinfo WHERE unix_timestamp(txtime) > unix_timestamp('" +:+ after
     +:+ "') AND outvalue>=800000*100000000 AND outvalue<900000*100000000;";
   "SELECT count(*) FROM txinfo WHERE unix_timestamp(txtime) > unix_timestamp('" +:+ after
     +:+ "') AND outvalue>=900000*100000000 AND outvalue<1000000*100000000;";
   "SELECT count(*) FROM txinfo WHERE unix_timestamp(txtime) > unix_timestamp('" +:+ after
     +:+ "') AND outvalue>=1000000*100000000;"].

Definition TxfeeOfTX : list string :=
  ["SELECT count(*) FROM txinfo WHERE maxbal>=0*100000000 AND maxbal<0.01*100000000;";
   "SELECT count(*) FROM txinfo WHERE maxbal>=0.01*100000000 AND maxbal<0.1*100000000;";
   "SELECT count(*) FROM txinfo WHERE maxbal>=0.1*100000000 AND maxbal<0.2*100000000;";
   "SELECT count(*) FROM txinfo WHERE maxbal>=0.2*100000000 AND maxbal<0.3*100000000;";
   "SELECT count(*) FROM txinfo WHERE maxbal>=0.3*100000000 AND maxbal<0.4*100000000;";
   "SELECT count(*) FROM txinfo WHERE maxbal>=0.4*100000000 AND maxbal<0.5*100000000;";
   "SELECT count(*) FROM txinfo WHERE maxbal>=0.5*100000000 AND maxbal<0.6*100000000;";
   "SELECT count(*) FROM txinfo WHERE maxbal>=0.6*100000000 AND maxbal<0.7*100000000;";
   "SELECT count(*) FROM txinfo WHERE maxbal>=0.7*100000000 AND maxbal<0.8*100000000;";
   "SELECT count(*) FROM txinfo WHERE maxbal>=0.8*100000000 AND maxbal<0.9*100000000;";
   "SELECT count(*) FROM txinfo WHERE maxbal>=0.9*100000000 AND maxbal<1*100000000;";
   "SELECT count(*) FROM txinfo WHERE maxbal>=1*100000000 AND maxbal<2*100000000;";
   "SELECT count(*) FROM txinfo WHERE maxbal>=2*100000000 AND maxbal<3*100000000;";
   "SELECT count(*) FROM txinfo WHERE maxbal>=3*100000000 AND maxbal<4*100000000;";
   "SELECT count(*) FROM txinfo WHERE maxbal>=4*100000000 AND maxbal<5*100000000;";
   "SELECT count(*) FROM txinfo WHERE maxbal>=5*100000000 AND maxbal<6*100000000;";
   "SELECT count(*) FROM txinfo WHERE maxbal>=6*100000000 AND maxbal<7*100000000;";
   "SELECT count(*) FROM txinfo WHERE maxbal>=7*100000000 AND maxbal<8*100000000;";
   "SELECT count(*) FROM txinfo WHERE maxbal>=8*100000000 AND maxbal<9*100000000;";
   "SELECT count(*) FROM txinfo WHERE maxbal>=9*100000000 AND maxbal<10*100000000;";
   "SELECT count(*) FROM txinfo WHERE maxbal>=10*100000000 AND maxbal<20*100000000;";
   "SELECT count(*) FROM txinfo WHERE maxbal>=20*100000000 AND maxbal<30*100000000;";
   "SELECT count(*) FROM txinfo WHERE maxbal>=30*100000000 AND maxbal<40*100000000;";
   "SELECT count(*) FROM txinfo WHERE maxbal>=40*100000000 AND maxbal<50*100000000;";
   "SELECT count(*) FROM txinfo WHERE maxbal>=50*100000000 AND maxbal<60*100000000;";
   "SELECT count(*) FROM txinfo WHERE maxbal>=60*100000000 AND maxbal<70*100000000;";
   "SELECT count(*) FROM txinfo WHERE maxbal>=70*100000000 AND maxbal<80*100000000;";
   "SELECT count(*) FROM txinfo WHERE maxbal>=80*100000000 AND maxbal<90*100000000;";
   "SELECT count(*) FROM txinfo WHERE maxbal>=90*100000000 AND maxbal<100*100000000;";
   "SELECT count(*) FROM txinfo WHERE maxbal>=100*100000000 AND maxbal<1000*100000000;";
   "SELECT count(*) FROM txinfo WHERE maxbal>=1000*100000000 AND maxbal<2000*100000000;";
   "SELECT count(*) FROM txinfo WHERE maxbal>=2000*100000000 AND maxbal<3000*100000000;";
   "SELECT count(*) FROM txinfo WHERE maxbal>=3000*100000000 AND maxbal<4000*100000000;";
   "SELECT count(*) FROM txinfo WHERE maxbal>=4000*100000000 AND maxbal<5000*100000000;";
   "SELECT count(*) FROM txinfo WHERE maxbal>=5000*100000000 AND maxbal<6000*100000000;";
   "SELECT count(*) FROM txinfo WHERE maxbal>=6000*100000000 AND maxbal<7000*100000000;";
   "SELECT count(*) FROM txinfo WHERE maxbal>=7000*100000000 AND maxbal<8000*100000000;";
   "SELECT count(*) FROM txinfo WHERE maxbal>=8000*100000000 AND maxbal<9000*100000000;";
   "SELECT count(*) FROM txinfo WHERE maxbal>=9000*100000000 AND maxbal<10000*100000000;";
   "SELECT count(*) FROM txinfo WHERE maxbal>=10000*100000000 AND maxbal<20000*100000000;";
   "SELECT count(*) FROM txinfo WHERE maxbal>=20000*100000000 AND maxbal<30000*100000000;";
   "SELECT count(*) FROM txinfo WHERE maxbal>=30000*100000000 AND maxbal<40000*100000000;";
   "SELECT count(*) FROM txinfo WHERE maxbal>=40000*100000000 AND maxbal<50000*100000000;";
   "SELECT count(*) FROM txinfo WHERE maxbal>=50000*100000000 AND maxbal<60000*100000000;";
   "SELECT count(*) FROM txinfo WHERE maxbal>=60000*100000000 AND maxbal<70000*100000000;";
   "SELECT count(*) FROM txinfo WHERE maxbal>=70000*100000000 AND maxbal<80000*100000000;";
   "SELECT count(*) FROM txinfo WHERE maxbal>=80000*100000000 AND maxbal<90000*100000000;";
   "SELECT count(*) FROM txinfo WHERE maxbal>=90000*100000000 AND maxbal<100000*100000000;";
   "SELECT count(*) FROM txinfo WHERE maxbal>=100000*100000000 AND maxbal<200000*100000000;";
   "SELECT count(*) FROM txinfo WHERE maxbal>=200000*100000000 AND maxbal<300000*100000000;";
   "SELECT count(*) FROM txinfo WHERE maxbal>=300000*100000000 AND maxbal<400000*100000000;";
   "SELECT count(*) FROM txinfo WHERE maxbal>=400000*100000000 AND maxbal<500000*100000000;";
   "SELECT count(*) FROM txinfo WHERE maxbal>=500000*100000000 AND maxbal<600000*100000000;";
   "SELECT count(*) FROM txinfo WHERE maxbal>=600000*100000000 AND maxbal<700000*100000000;";
   "SELECT count(*) FROM txinfo WHERE maxbal>=700000*100000000 AND maxbal<800000*100000000;";
   "SELECT count(*) FROM txinfo WHERE maxbal>=800000*100000000 AND maxbal<900000*100000000;";
   "SELECT count(*) FROM txinfo WHERE maxbal>=900000*100000000 AND maxbal<1000000*100000000;";
   "SELECT count(*) FROM txinfo WHERE maxbal>=1000000*100000000;"].

Definition tx_amount : list string :=
  ["AND outvalue>=0*100000000 AND outvalue<10*100000000;";
   "AND outvalue>=10*100000000 AND outvalue<20*100000000;";
   "AND outvalue>=20*100000000 AND outvalue<30*100000000;";
   "AND outvalue>=30*100000000 AND outvalue<40*100000000;";
   "AND outvalue>=40*100000000 AND outvalue<50*100000000;";
   "AND outvalue>=50*100000000 AND outvalue<60*100000000;";
   "AND outvalue>=60*100000000 AND outvalue<70*100000000;";
   "AND outvalue>=70*100000000 AND outvalue<80*100000000;";
   "AND outvalue>=80*100000000 AND outvalue<90*100000000;";
   "AND outvalue>=90*100000000 AND outvalue<100*100000000;";
   "AND outvalue>=100*100000000 AND outvalue<120*100000000;";
   "AND outvalue>=120*100000000 AND outvalue<140*100000000;";
   "AND outvalue>=140*100000000 AND outvalue<160*100000000;";
   "AND outvalue>=160*100000000 AND outvalue<180*100000000;";
   "AND outvalue>=180*100000000 AND outvalue<200*100000000;";
   "AND outvalue>=200*100000000 AND outvalue<220*100000000;";
   "AND outvalue>=220*100000000 AND outvalue<240*100000000;";
   "AND outvalue>=240*100000000 AND outvalue<260*100000000;";
   "AND outvalue>=260*100000000 AND outvalue<280*100000000;";
   "AND outvalue>=280*100000000 AND outvalue<300*100000000;";
   "AND outvalue>=300*100000000 AND outvalue<320*100000000;";
   "AND outvalue>=320*100000000;";
   "AND outvalue>=320*100000000 AND outvalue<340*100000000;";
   "AND outvalue>=340*100000000 AND outvalue<360*100000000;";
   "AND outvalue>=360*100000000 AND outvalue<380*100000000;";
   "AND outvalue>=380*100000000 AND outvalue<400*100000000;";
   "AND outvalue>=420*100000000 AND outvalue<440*100000000;";
   "AND outvalue>=440*100000000 AND outvalue<460*100000000;";
   "AND outvalue>=460*100000000 AND outvalue<480*100000000;";
   "AND outvalue>=480*100000000 AND outvalue<500*100000000;";
   "AND outvalue>=500*100000000 AND outvalue<520*100000000;";
   "AND outvalue>=520*100000000 AND outvalue<540*100000000;";
   "AND outvalue>=540*100000000 AND outvalue<560*100000000;";
   "AND outvalue>=560*100000000 AND outvalue<580*100000000;";
   "AND outvalue>=580*100000000 AND outvalue<600*100000000;";
   "AND outvalue>=600*100000000;"].

Definition tx_size : list string :=
  ["AND txsize>=0 AND txsize<128;";
   "AND txsize>=128 AND txsize<256;";
   "AND txsize>=256 AND txsize<384;";
   "AND txsize>=384 AND txsize<512;";
   "AND txsize>=512 AND txsize<640;";
   "AND txsize>=640 AND txsize<768;";
   "AND txsize>=768 AND txsize<896;";
   "AND txsize>=896 AND txsize<1024;";
   "AND txsize>=1024 AND txsize<1152;";
   "AND txsize>=1152 AND txsize<1280;";
   "AND txsize>=1280 AND txsize<1408;";
   "AND txsize>=1408 AND txsize<1536;";
   "AND txsize>=1536 AND txsize<1664;";
   "AND txsize>=1664 AND txsize<1792;";
   "AND txsize>=1792 AND txsize<1920;";
   "AND txsize>=1920 AND txsize<2048;";
   "AND txsize>=2048 AND txsize<2176;";
   "AND txsize>=2176 AND txsize<2304;";
   "AND txsize>=2304 AND txsize<2432;";
   "AND txsize>=2432 AND txsize<2560;";
   "AND txsize>=2560 AND txsize<2688;";
   "AND txsize>=2688 AND txsize<2816;";
   "AND txsize>=2816 AND txsize<2944;";
   "AND txsize>=2944 AND txsize<3072;";
   "AND txsize>=3072 AND txsize<3200;";
   "AND txsize>=3200 AND txsize<3328;";
   "AND txsize>=3328 AND txsize<3456;";
   "AND txsize>=3456 AND txsize<3584;";
   "AND txsize>=3584 AND txsize<3712;";
   "AND txsize>=3712 AND txsize<3840;";
   "AND txsize>=3840 AND txsize<3968;";
   "AND txsize>=3968 AND txsize<4096;";
   "AND txsize>=4096;"].

(** The conditions appended to the entries of an array. *)
Definition new_add_time (after : string) : string :=
  "WHERE unix_timestamp(firsttm) > unix_timestamp('" +:+ after +:+ "');".
Definition unstop_add_time (before : string) : string :=
  "WHERE unix_timestamp(lasttm) > unix_timestamp('" +:+ before +:+ "');".
Definition new_entity_time (after : string) : string :=
  "WHERE unix_timestamp(firsttm) > unix_timestamp('" +:+ after +:+ "');".
Definition unstop_entity_time (before : string) : string :=
  "WHERE unix_timestamp(lasttm) > unix_timestamp('" +:+ before +:+ "');".
Definition transaction_time (after : string) : string :=
  "WHERE unix_timestamp(txtime) > unix_timestamp('" +:+ after +:+ "');".
Definition block_time (after : string) : string :=
  "WHERE unix_timestamp(blktime) > unix_timestamp('" +:+ after +:+ "');".

(** The start of the queries for transactions between two times. *)
Definition tx_time (before after : string) : string :=
  "SELECT count(*) FROM test1.txinfo WHERE unix_timestamp(txtime) >= unix_timestamp('" +:+ after
  +:+ "') AND unix_timestamp(txtime) < unix_timestamp('" +:+ before +:+ "') ".
