(* ===== verification/Statistical.v ===== *)
(** * The monthly statistics: [statistical] of src/BitcoinAnalysis/Statistical.h

    [statistical] reads the month and its limits, asks the server several
    hundred queries and appends the answers to text files.  Its control flow
    does not depend on the answers, so the model is the sequence of its actions
    on the output stream and the connection ([script]) and their execution
    ([run]).  The abstract report ([report]) says which count or aggregate
    stands at which place; [statistical] is shown to write exactly that.

    The Chinese titles are written in UTF-8 here.  Console output is left out;
    the text of the current time is a parameter. *)
From Stdlib Require Import String Ascii Decimal DecimalString DecimalN.
From stdpp Require Import base gmap strings numbers option list.
From S2P Require Import Prelude Sql SqlServer Calendar Streams Timerange Report ReportServer StatTables.
Local Open Scope string_scope.
Local Open Scope list_scope.
Open Scope Z_scope.

(** ** The actions *)

Inductive cmd := Print (s : string) | Ask (q : string) | Open (path : string) | Close.

Definition print_line (s : string) : cmd := Print (s +:+ endl).

(** [for (i = lo; i < hi; i++)]: the entries of an array that are asked. *)
Definition queries (arr : list string) (lo hi : nat) : list string :=
  map (fun i => nth i arr "") (seq lo (hi - lo)).

Definition banner (title : string) : list cmd :=
  [print_line "~~~~~~~~~~~~~~~~~~"; print_line title; print_line "~~~~~~~~~~~~~~~~~~"].
Definition subtitle (title : string) : list cmd := [print_line "~~~~~~~~"; print_line title].
Definition asks (qs : list string) : list cmd := map Ask qs ++ [Print endl].

Definition section_1 (before after : string) : list cmd :=
  banner "1. address" ++ asks (queries (address before after) 1 29).
Definition section_2 (after : string) : list cmd :=
  banner "2. new address"
  ++ asks (map (fun q => q +:+ new_add_time after) (queries new_add 1 22)).
Definition section_3 (before : string) : list cmd :=
  banner "3. no stop address"
  ++ asks (map (fun q => q +:+ unstop_add_time before) (queries unstop_add 1 26)).
Definition section_4 (before after : string) : list cmd :=
  banner "4. entity" ++ asks (queries (entity before after) 1 32).
Definition section_5 (after : string) : list cmd :=
  banner "5. new entity"
  ++ asks (map (fun q => q +:+ new_entity_time after) (queries new_entity 1 26)).
Definition section_6 (before : string) : list cmd :=
  banner "6. no stop entity"
  ++ asks (map (fun q => q +:+ unstop_entity_time before) (queries unstop_entity 1 30)).
Definition section_7 (after : string) : list cmd :=
  banner "7. transaction"
  ++ Ask (nth 0 transaction "")
  :: asks (map (fun q => q +:+ transaction_time after) (queries transaction 1 22)).
Definition section_8 (after : string) : list cmd :=
  banner "8. block"
  ++ Ask (nth 0 block "")
  :: asks (map (fun q => q +:+ block_time after) (queries block 1 18)).

(** The distributions; the last one, of the fees, fills [TxfeeOfTX] and asks
    [MaxbalOfAdd]. *)
Definition section_9 (after : string) : list cmd :=
  banner "9. other"
  ++ subtitle "9.2 entity地址数量的分布" ++ asks (queries NumOfAddOfEntity 0 31)
  ++ subtitle "9.3 address收入分布" ++ asks (queries OutvalOfAdd 0 48)
  ++ subtitle "9.4 entity收入分布" ++ asks (queries OutvalOfEntity 0 48)
  ++ subtitle "9.5 address当前余额分布" ++ asks (queries BalOfAdd 0 58)
  ++ subtitle "9.6 entity当前余额分布" ++ asks (queries BalOfEntity 0 58)
  ++ subtitle "9.7 address历史最大余额分布" ++ asks (queries MaxbalOfAdd 0 58)
  ++ subtitle "9.8 entity历史最大余额分布" ++ asks (queries MaxbalOfEntity 0 58)
  ++ subtitle "9.9 address参与交易数" ++ asks (queries TxcntOfAdd 0 25)
  ++ subtitle "9.10 entity参与交易数" ++ asks (queries TxcntOfEntity 0 25)
  ++ subtitle "交易金额分布" ++ asks (queries (OutvalOfTx after) 0 48)
  ++ subtitle "9.7 address历史最大余额分布" ++ asks (queries MaxbalOfAdd 0 58).

(** The loops over 71 months, which ask the same queries each time. *)
Definition amount_part (before after : string) : list cmd :=
  Open "I:\Statistic2\tx-amount-2.txt"
  :: concat (replicate 71
       (asks (map (fun q => tx_time before after +:+ q) (queries tx_amount 22 36))))
  ++ [Close].
Definition size_part (before after : string) : list cmd :=
  Open "I:\Statistic2\tx-size-2.txt"
  :: concat (replicate 71
       (asks (map (fun q => tx_time before after +:+ q) (queries tx_size 0 33))))
  ++ [Close].

Definition record_path (timerange : string) : string := "G:\Statistic\" +:+ timerange +:+ ".txt".

Definition script (timerange before after OStime : string) : list cmd :=
  [Open (record_path timerange);
   print_line ("-------------" +:+ OStime +:+ "-------------");
   print_line ("***" +:+ "统计时间段：" +:+ timerange +:+ "***")]
  ++ section_1 before after ++ section_2 after ++ section_3 before ++ section_4 before after
  ++ section_5 after ++ section_6 before ++ section_7 after ++ section_8 after ++ section_9 after
  ++ amount_part before after ++ size_part before after.

(** ** Their execution *)

(** [strcpy(result_c, row[0])] and [result_s = result_c]: the bytes up to the
    terminator, which must fit the 500 bytes of the buffer. *)
Fixpoint c_string (l : list Z) : string :=
  match l with
  | [] => ""
  | b :: l' => if b =? 0 then "" else String (ascii_of_nat (Z.to_nat b)) (c_string l')
  end.
Definition strcpy_500 (l : list Z) : option string :=
  let s := c_string l in if (String.length s <? 500)%nat then Some s else None.

(** [if (row = mysql_fetch_row(result))]; [None] is a read through a null pointer
    or a write past the buffer. *)
Definition reply (result : rows) (o : ofstream * files) : option (ofstream * files) :=
  match result with
  | [] => Some o
  | (Some bytes :: _) :: _ => result_s ← strcpy_500 bytes; Some (put (result_s +:+ tab) o)
  | _ :: _ => None
  end.

Section run.
Context `{Sc : Schema} `{My : !MySQL}.

Definition step (c : cmd) (s : MYSQL * (ofstream * files)) : option (MYSQL * (ofstream * files)) :=
  let (conn, o) := s in
  match c with
  | Print s => Some (conn, put s o)
  | Open path => Some (conn, open_app path o)
  | Close => Some (conn, close o)
  | Ask q => let (conn, result) := mysql_query conn q in o ← reply result o; Some (conn, o)
  end.

Fixpoint run (l : list cmd) (s : MYSQL * (ofstream * files))
    : option (MYSQL * (ofstream * files)) :=
  match l with
  | [] => Some s
  | c :: l' => s ← step c s; run l' s
  end.

Definition statistical (OStime : string) (f : files) (conn : MYSQL) : option (files * MYSQL) :=
  let '(timerange, before, after) := read_time_range f in
  '(conn, (o, f)) ← run (script timerange before after OStime) (conn, (new_ofstream, f));
  Some (f, conn).
End run.

(** ** The abstract report *)

Inductive item := IPrint (s : string) | IAsk (q : query) | IOpen (path : string) | IClose.

Definition as_cmd (i : item) : cmd :=
  match i with
  | IPrint s => Print s | IAsk q => Ask (query_text q) | IOpen p => Open p | IClose => Close
  end.

(** The values asked of a table under a condition. *)
Definition values (test1 : bool) (t : table) (w : list cond) (sels : list select) : list query :=
  map (fun s => {| q_select := s; q_test1 := test1; q_table := t; q_where := w |}) sels.
Definition four (e : expr) : list select := [Agg Avg e; Agg Stddev e; Agg Max e; Agg Min e].

(** Bins between successive limits, the last one open or not. *)
Fixpoint bins (x : term) (last : bool) (edges : list bound) : list (list cond) :=
  match edges with
  | [] => []
  | b :: rest =>
      match rest with
      | [] => if last then [[CNum x true b]] else []
      | b' :: _ => [CNum x true b; CNum x false b'] :: bins x last rest
      end
  end.
Definition histogram (test1 : bool) (t : table) (w : list cond) (bs : list (list cond)) : list query :=
  map (fun b => {| q_select := Count; q_test1 := test1; q_table := t; q_where := w ++ b |}) bs.

Definition steps (mk : Z -> bound) (unit : Z) : list bound :=
  map (fun k => mk (unit * Z.of_nat k)) (seq 1 9).

Definition addcnt_edges : list bound :=
  steps Num 1 ++ steps Num 10
  ++ map Num [100; 200; 300; 400; 500; 1000; 2000; 3000; 4000; 5000; 10000; 50000; 100000].
Definition value_edges : list bound :=
  Coins 0 :: steps Coins 1 ++ steps Coins 10 ++ Coins 100 :: steps Coins 1000 ++ steps Coins 10000
  ++ steps Coins 100000 ++ [Coins 1000000].
Definition balance_edges : list bound :=
  Coins 0 :: Hundredths 1 :: steps Tenths 1 ++ steps Coins 1 ++ steps Coins 10 ++ Coins 100
  :: steps Coins 1000 ++ steps Coins 10000 ++ steps Coins 100000 ++ [Coins 1000000].
Definition txcnt_edges : list bound :=
  steps Num 1 ++ Num 10 :: steps Num 100 ++ map Num [1000; 5000; 10000; 50000; 100000; 500000].
Definition amount_bins : list (list cond) :=
  bins (TCol Coutvalue) false (map Coins [320; 340; 360; 380; 400])
  ++ bins (TCol Coutvalue) true
       (map Coins [420; 440; 460; 480; 500; 520; 540; 560; 580; 600]).
Definition size_edges : list bound := map (fun k => Num (128 * Z.of_nat k)) (seq 0 33).

Definition the_interval (before after : string) : list cond :=
  [CTime Ttxtime TGe after; CTime Ttxtime TLt before].

Definition line_of (qs : list query) : list item := map IAsk qs ++ [IPrint endl].
Definition heading (title : string) : list item :=
  map (fun s => IPrint (s +:+ endl)) ["~~~~~~~~~~~~~~~~~~"; title; "~~~~~~~~~~~~~~~~~~"].
Definition subheading (title : string) : list item :=
  map (fun s => IPrint (s +:+ endl)) ["~~~~~~~~"; title].

(** The aggregates of addresses and of entities. *)
Definition flows : list select :=
  flat_map four [Col Coutval; Col Cinval; Col Cbal; Col Cmaxbal].
Definition of_addresses (life : list select) : list select := flows ++ life ++ four InOut.
Definition of_entities (life : list select) : list select :=
  four (Col Caddcnt) ++ flows ++ life ++ four InOut.

Definition report_1 (before after : string) : list query :=
  values true Addressinfo [] [Count]
  ++ values true Addressinfo [CTime Tlasttm TLt before] [Count]
  ++ values true Addressinfo [CTime Tlasttm TGt after] [Count]
  ++ values true Addressinfo [] (of_addresses (four (Life true)))
  ++ values true Addressinfo [CTime Tlasttm TLt before] [SumBal].
Definition report_4 (before after : string) : list query :=
  values true Entityinfo [] [Count]
  ++ values true Entityinfo [CTime Tlasttm TLt before] [Count]
  ++ values true Entityinfo [CTime Tlasttm TGt after] [Count]
  ++ values true Entityinfo [] (of_entities (four (Life false))).
Definition report_7 : list select :=
  Count :: flat_map four [Col Coutvalue; Col Ctxsize; Col Ctxfee; Col Cincnt; Col Coutcnt].
Definition report_8 : list select :=
  Count :: flat_map four [Col Ctxcnt; Col Cdiff; Col Cblksize; Col Creward].

Definition distributions (after : string) : list (string * list query) :=
  let dist t x edges := histogram false t [] (bins x true edges) in
  [("9.2 entity地址数量的分布", dist Entityinfo (TCol Caddcnt) addcnt_edges);
   ("9.3 address收入分布", dist Addressinfo (TCol Coutval) value_edges);
   ("9.4 entity收入分布", dist Entityinfo (TCol Coutval) value_edges);
   ("9.5 address当前余额分布", dist Addressinfo (TCol Cbal) balance_edges);
   ("9.6 entity当前余额分布", dist Entityinfo (TCol Cbal) balance_edges);
   ("9.7 address历史最大余额分布", dist Addressinfo (TCol Cmaxbal) balance_edges);
   ("9.8 entity历史最大余额分布", dist Entityinfo (TCol Cmaxbal) balance_edges);
   ("9.9 address参与交易数", dist Addressinfo TInOut txcnt_edges);
   ("9.10 entity参与交易数", dist Entityinfo TInOut txcnt_edges);
   ("交易金额分布",
     histogram false Txinfo [CTime Ttxtime TGt after] (bins (TCol Coutvalue) true value_edges));
   ("9.7 address历史最大余额分布", dist Addressinfo (TCol Cmaxbal) balance_edges)].

Definition amount_queries (before after : string) : list query :=
  histogram true Txinfo (the_interval before after) amount_bins.
Definition size_queries (before after : string) : list query :=
  histogram true Txinfo (the_interval before after) (bins (TCol Ctxsize) true size_edges).

(** The main report. *)
Definition main_report (timerange before after OStime : string) : list item :=
  [IPrint (("-------------" +:+ OStime +:+ "-------------") +:+ endl);
   IPrint (("***" +:+ "统计时间段：" +:+ timerange +:+ "***") +:+ endl)]
  ++ heading "1. address" ++ line_of (report_1 before after)
  ++ heading "2. new address"
  ++ line_of (values true Addressinfo [CTime Tfirsttm TGt after] (Count :: of_addresses []))
  ++ heading "3. no stop address"
  ++ line_of (values true Addressinfo [CTime Tlasttm TGt before]
                (Count :: of_addresses (four (Life true))))
  ++ heading "4. entity" ++ line_of (report_4 before after)
  ++ heading "5. new entity"
  ++ line_of (values true Entityinfo [CTime Tfirsttm TGt after] (Count :: of_entities []))
  ++ heading "6. no stop entity"
  ++ line_of (values true Entityinfo [CTime Tlasttm TGt before]
                (Count :: of_entities (four (Life true))))
  ++ heading "7. transaction"
  ++ map IAsk (values true Txinfo [] [Count])
  ++ line_of (values true Txinfo [CTime Ttxtime TGt after] report_7)
  ++ heading "8. block"
  ++ map IAsk (values true Blkinfo [] [Count])
  ++ line_of (values true Blkinfo [CTime Tblktime TGt after] report_8)
  ++ heading "9. other"
  ++ flat_map (fun '(title, qs) => subheading title ++ line_of qs) (distributions after).

Definition report (timerange before after OStime : string) : list item :=
  IOpen (record_path timerange) :: main_report timerange before after OStime
  ++ IOpen "I:\Statistic2\tx-amount-2.txt"
  :: concat (replicate 71 (line_of (amount_queries before after))) ++ IClose
  :: IOpen "I:\Statistic2\tx-size-2.txt"
  :: concat (replicate 71 (line_of (size_queries before after))) ++ [IClose].

(** ** The texts of the source are the queries of the report *)

Ltac texts := vm_compute; reflexivity.

Lemma texts_1 b a : queries (address b a) 1 29 = map query_text (report_1 b a).
Proof. texts. Qed.
Lemma texts_2 a :
  map (fun q => q +:+ new_add_time a) (queries new_add 1 22)
  = map query_text (values true Addressinfo [CTime Tfirsttm TGt a] (Count :: of_addresses [])).
Proof. texts. Qed.
Lemma texts_3 b :
  map (fun q => q +:+ unstop_add_time b) (queries unstop_add 1 26)
  = map query_text (values true Addressinfo [CTime Tlasttm TGt b]
                      (Count :: of_addresses (four (Life true)))).
Proof. texts. Qed.
Lemma texts_4 b a : queries (entity b a) 1 32 = map query_text (report_4 b a).
Proof. texts. Qed.
Lemma texts_5 a :
  map (fun q => q +:+ new_entity_time a) (queries new_entity 1 26)
  = map query_text (values true Entityinfo [CTime Tfirsttm TGt a] (Count :: of_entities [])).
Proof. texts. Qed.
Lemma texts_6 b :
  map (fun q => q +:+ unstop_entity_time b) (queries unstop_entity 1 30)
  = map query_text (values true Entityinfo [CTime Tlasttm TGt b]
                      (Count :: of_entities (four (Life true)))).
Proof. texts. Qed.
Lemma texts_7 a :
  map (fun q => q +:+ transaction_time a) (queries transaction 1 22)
  = map query_text (values true Txinfo [CTime Ttxtime TGt a] report_7).
Proof. texts. Qed.
Lemma texts_8 a :
  map (fun q => q +:+ block_time a) (queries block 1 18)
  = map query_text (values true Blkinfo [CTime Tblktime TGt a] report_8).
Proof. texts. Qed.
Lemma texts_9 a :
  [queries NumOfAddOfEntity 0 31; queries OutvalOfAdd 0 48; queries OutvalOfEntity 0 48;
   queries BalOfAdd 0 58; queries BalOfEntity 0 58; queries MaxbalOfAdd 0 58;
   queries MaxbalOfEntity 0 58; queries TxcntOfAdd 0 25; queries TxcntOfEntity 0 25;
   queries (OutvalOfTx a) 0 48; queries MaxbalOfAdd 0 58]
  = map (fun d => map query_text (snd d)) (distributions a).
Proof. texts. Qed.
Lemma tx_time_app b a qs :
  map (fun q => tx_time b a +:+ q) qs
  = map (fun q => "SELECT count(*) FROM test1.txinfo WHERE unix_timestamp(txtime) >= unix_timestamp('"
      +:+ a +:+ "') AND unix_timestamp(txtime) < unix_timestamp('" +:+ b +:+ "') " +:+ q) qs.
Proof. apply map_ext. intros q. unfold tx_time. by rewrite !append_assoc. Qed.
Lemma texts_amount b a :
  map (fun q => tx_time b a +:+ q) (queries tx_amount 22 36) = map query_text (amount_queries b a).
Proof. rewrite tx_time_app. texts. Qed.
Lemma texts_size b a :
  map (fun q => tx_time b a +:+ q) (queries tx_size 0 33) = map query_text (size_queries b a).
Proof. rewrite tx_time_app. texts. Qed.

Lemma as_cmd_line qs : map as_cmd (line_of qs) = asks (map query_text qs).
Proof. unfold line_of, asks. by rewrite map_app, !map_map. Qed.

Lemma as_cmd_repeat n l : map as_cmd (concat (replicate n l)) = concat (replicate n (map as_cmd l)).
Proof. induction n as [|n IH]; [done|]. cbn [replicate concat]. by rewrite map_app, IH. Qed.

Lemma section_9_report a :
  section_9 a = banner "9. other"
  ++ map as_cmd (flat_map (fun '(title, qs) => subheading title ++ line_of qs) (distributions a)).
Proof.
  pose proof (texts_9 a) as H. unfold section_9. apply (f_equal (app (banner "9. other"))).
  revert H. generalize (queries NumOfAddOfEntity 0 31) (queries OutvalOfAdd 0 48)
    (queries OutvalOfEntity 0 48) (queries BalOfAdd 0 58) (queries BalOfEntity 0 58)
    (queries MaxbalOfAdd 0 58) (queries MaxbalOfEntity 0 58) (queries TxcntOfAdd 0 25)
    (queries TxcntOfEntity 0 25) (queries (OutvalOfTx a) 0 48).
  intros q1 q2 q3 q4 q5 q6 q7 q8 q9 q10 H.
  unfold distributions in *. cbn [map snd] in H. injection H as E1 E2 E3 E4 E5 E6 E7 E8 E9 E10 _.
  cbn [flat_map]. rewrite E1, E2, E3, E4, E5, E6, E7, E8, E9, E10.
  rewrite !map_app, !as_cmd_line, app_nil_r. reflexivity.
Qed.

Lemma script_report r b a o : script r b a o = map as_cmd (report r b a o).
Proof.
  unfold script, report, main_report, section_1, section_2, section_3, section_4, section_5,
    section_6, section_7, section_8, amount_part, size_part.
  rewrite section_9_report, texts_1, texts_2, texts_3, texts_4, texts_5, texts_6, texts_7, texts_8,
    texts_amount, texts_size.
  cbn [map as_cmd]. rewrite !map_app. cbn [map as_cmd].
  rewrite !map_app. cbn [map as_cmd]. rewrite !as_cmd_repeat, !map_app, !as_cmd_line, <- !app_assoc.
  reflexivity.
Qed.

(** ** The answers fit the buffer *)

Lemma all_digits_no_nul s : all_digits s = true -> no_nul s = true.
Proof.
  induction s as [|c s IH]; [done|]. cbn. intros [Hc Hs]%andb_true_iff. rewrite IH by done.
  rewrite andb_true_r. destruct (Ascii.eqb_spec c Ascii.zero) as [->|]; [discriminate|done].
Qed.

(** A number has at most as many decimal as binary digits. *)
Lemma length_nilempty u : String.length (NilEmpty.string_of_uint u) = Decimal.nb_digits u.
Proof. induction u; cbn; auto. Qed.

Lemma nb_digits_double u :
  (Decimal.nb_digits (Decimal.Little.double u) <= S (Decimal.nb_digits u))%nat
  /\ (Decimal.nb_digits (Decimal.Little.succ_double u) <= S (Decimal.nb_digits u))%nat.
Proof. induction u; cbn; lia. Qed.

Lemma nb_digits_revapp u v :
  Decimal.nb_digits (Decimal.revapp u v) = (Decimal.nb_digits u + Decimal.nb_digits v)%nat.
Proof. revert v. induction u; intros v; cbn; try rewrite IHu; cbn; lia. Qed.

Lemma nb_digits_pos p : (Decimal.nb_digits (Pos.to_uint p) <= Pos.size_nat p)%nat.
Proof.
  unfold Pos.to_uint, Decimal.rev. rewrite nb_digits_revapp. cbn. rewrite Nat.add_0_r.
  induction p as [p IH|p IH|]; cbn [Pos.to_little_uint Pos.size_nat]; [..|cbn; lia];
    pose proof (nb_digits_double (Pos.to_little_uint p)); lia.
Qed.

Lemma size_nat_bound p n : Zpos p < 2 ^ Z.of_nat n -> (Pos.size_nat p <= n)%nat.
Proof.
  revert n. induction p as [p IH|p IH|]; intros n Hp; (destruct n as [|n]; [cbn in Hp; lia|]);
    rewrite Nat2Z.inj_succ, Z.pow_succ_r in Hp by lia; cbn [Pos.size_nat]; [..|lia];
    apply le_n_S, IH; lia.
Qed.

Lemma length_dec v n : 0 <= v < 2 ^ Z.of_nat n -> (0 < n)%nat -> (String.length (dec v) <= n)%nat.
Proof.
  intros Hv Hn. unfold dec. destruct v as [|p|p]; [cbn; lia| |lia].
  change (Z.to_N (Zpos p)) with (Npos p). change (N.to_uint (Npos p)) with (Pos.to_uint p).
  pose proof (nb_digits_pos p) as H. pose proof (size_nat_bound p n ltac:(lia)) as H'.
  unfold NilZero.string_of_uint. destruct (Pos.to_uint p) eqn:E; [cbn; lia|..];
    rewrite length_nilempty; lia.
Qed.

Lemma dec_fits v : 0 <= v < 2 ^ 63 -> fits_buffer (dec v) = true.
Proof.
  intros Hv. unfold fits_buffer. rewrite (all_digits_no_nul _ (all_digits_dec v)).
  apply Nat.ltb_lt. pose proof (length_dec v 63 Hv). lia.
Qed.

Lemma c_string_bytes s : no_nul s = true -> c_string (str_bytes s) = s.
Proof.
  induction s as [|c s IH]; [done|]. cbn [no_nul]. intros [Hc Hs]%andb_true_iff.
  unfold str_bytes in *. cbn [list_ascii_of_string map c_string]. rewrite IH by done.
  destruct (Z.eqb_spec (Z.of_nat (nat_of_ascii c)) 0) as [E|_].
  - apply negb_true_iff, Ascii.eqb_neq in Hc. destruct Hc.
    rewrite <- (ascii_nat_embedding c). by replace (nat_of_ascii c) with 0%nat by lia.
  - by rewrite Nat2Z.id, ascii_nat_embedding.
Qed.

Lemma strcpy_fits s : fits_buffer s = true -> strcpy_500 (str_bytes s) = Some s.
Proof.
  intros [Hn Hl]%andb_true_iff. unfold strcpy_500. rewrite c_string_bytes by done. by rewrite Hl.
Qed.

(** ** Execution of the report *)

Section refinement.
Context `{Sc : Schema} `{My : !MySQL} `{Rp : !Reporting}.

Definition value (q : query) (d : DB) : option string := query_value unix_timestamp aggregate_text q d.

(** What an item does to the output, given the tables; [None] is the crash on a
    NULL answer. *)
Definition spec_step (d : DB) (i : item) (o : ofstream * files) : option (ofstream * files) :=
  match i with
  | IPrint s => Some (put s o)
  | IOpen path => Some (open_app path o)
  | IClose => Some (close o)
  | IAsk q => v ← value q d; Some (put (v +:+ tab) o)
  end.
Fixpoint spec_run (d : DB) (l : list item) (o : ofstream * files) : option (ofstream * files) :=
  match l with
  | [] => Some o
  | i :: l' => o ← spec_step d i o; spec_run d l' o
  end.

Definition item_ok (i : item) : bool := match i with IAsk q => query_ok q | _ => true end.

(** Tables of a size that MySQL can count, with balances it can add. *)
Record db_small (d : DB) : Prop := {
  small_tables t : Z.of_nat (length (rows_of t d)) < 2 ^ 63;
  small_bal t : Forall (fun r => 0 <= default 0 (column_of Cbal r)) (rows_of t d);
  small_sum t : sum_bal (rows_of t d) < 2 ^ 63 }.

Lemma length_filter_le {A} (p : A -> bool) l : (length (List.filter p l) <= length l)%nat.
Proof. apply filter_length_le. Qed.

Lemma sum_bal_filter p l :
  Forall (fun r => 0 <= default 0 (column_of Cbal r)) l ->
  0 <= sum_bal (List.filter p l) <= sum_bal l.
Proof.
  induction 1 as [|r l Hr Hl IH]; [cbn; lia|].
  cbn [List.filter]. destruct (p r); cbn [sum_bal foldr] in *; unfold sum_bal in *; lia.
Qed.

Lemma value_fits q d v : db_small d -> value q d = Some v -> fits_buffer v = true.
Proof.
  intros [Ht Hb Hs] Hv. unfold value, query_value in Hv. destruct (q_select q) as [|f e|].
  - injection Hv as <-. apply dec_fits. unfold selected.
    pose proof (length_filter_le (fun r => forallb (fun c => holds unix_timestamp c r) (q_where q))
      (rows_of (q_table q) d)). specialize (Ht (q_table q)). lia.
  - destruct (existsb _ _); [|discriminate]. injection Hv as <-. apply aggregate_text_fits.
  - injection Hv as <-. unfold selected, sdec.
    pose proof (sum_bal_filter (fun r => forallb (fun c => holds unix_timestamp c r) (q_where q))
      _ (Hb (q_table q))). specialize (Hs (q_table q)).
    destruct (Z.ltb_spec (sum_bal (List.filter (fun r => forallb (fun c => holds unix_timestamp c r)
      (q_where q)) (rows_of (q_table q) d))) 0); [lia|]. apply dec_fits. lia.
Qed.

Lemma step_refines d i conn o :
  db_small d -> tables conn = d -> item_ok i = true ->
  match spec_step d i o with
  | Some o' => exists conn', step (as_cmd i) (conn, o) = Some (conn', o') /\ tables conn' = d
  | None => step (as_cmd i) (conn, o) = None
  end.
Proof.
  intros Hd Hc Hi. destruct i as [s|q|p|]; cbn [spec_step as_cmd step item_ok] in *; [by eauto| |by eauto..].
  pose proof (report_tables conn q Hi) as Ht. pose proof (report_rows conn q Hi) as Hr.
  destruct (mysql_query conn (query_text q)) as [conn' result]. cbn [fst snd] in *. rewrite Hr.
  rewrite Hc in *. fold (value q d). destruct (value q d) as [v|] eqn:Ev; cbn; [|done].
  rewrite (strcpy_fits v (value_fits q d v Hd Ev)). cbn. by eauto.
Qed.

Lemma run_refines d l conn o :
  db_small d -> tables conn = d -> forallb item_ok l = true ->
  match spec_run d l o with
  | Some o' => exists conn', run (map as_cmd l) (conn, o) = Some (conn', o') /\ tables conn' = d
  | None => run (map as_cmd l) (conn, o) = None
  end.
Proof.
  intros Hd. revert conn o. induction l as [|i l IH]; intros conn o Hc Hl; [cbn; eauto|].
  cbn [forallb] in Hl. apply andb_true_iff in Hl as [Hi Hl]. cbn [spec_run map run].
  pose proof (step_refines d i conn o Hd Hc Hi) as H. destruct (spec_step d i o) as [o'|].
  - destruct H as (conn' & -> & Hc'). cbn [mbind option_bind]. by apply IH.
  - by rewrite H.
Qed.

(** The text that a part of the report writes. *)
Definition item_text (d : DB) (i : item) : option string :=
  match i with
  | IPrint s => Some s
  | IAsk q => v ← value q d; Some (v +:+ tab)
  | _ => None
  end.
Fixpoint text (d : DB) (l : list item) : option string :=
  match l with
  | [] => Some ""
  | i :: l' => a ← item_text d i; b ← text d l'; Some (a +:+ b)
  end.

Definition writes (i : item) : bool := match i with IPrint _ | IAsk _ => true | _ => false end.

Lemma spec_step_text d i o :
  writes i = true -> spec_step d i o = a ← item_text d i; Some (put a o).
Proof. destruct i; try discriminate; [done|]. cbn. by destruct (value q d). Qed.

(** What is written to an open stream is appended to its file. *)
Lemma spec_run_open d l path f :
  forallb writes l = true -> is_Some (f !! path) ->
  spec_run d l ({| o_file := Some path; o_fail := false |}, f)
  = s ← text d l;
    Some ({| o_file := Some path; o_fail := false |}, <[path := content f path +:+ s]> f).
Proof.
  revert f. induction l as [|i l IH]; intros f Hl [s0 Hf].
  - cbn. unfold content. rewrite Hf. cbn. by rewrite append_nil_r, insert_id.
  - cbn [forallb] in Hl. apply andb_true_iff in Hl as [Hi Hl]. cbn [spec_run text].
    rewrite spec_step_text by done. destruct (item_text d i) as [a|]; [|done].
    cbn [mbind option_bind put o_fail o_file]. rewrite IH; [|done|by rewrite lookup_insert_eq; eauto].
    destruct (text d l) as [b|]; [|done]. cbn [mbind option_bind]. unfold content.
    rewrite lookup_insert_eq, insert_insert_eq. cbn [from_option id]. by rewrite append_assoc.
Qed.

(** What is written to a failed stream is lost. *)
Lemma spec_run_fail d l o f :
  forallb writes l = true -> o_fail o = true ->
  spec_run d l (o, f) = _ ← text d l; Some (o, f).
Proof.
  intros Hl Ho. induction l as [|i l IH]; [done|].
  cbn [forallb] in Hl. apply andb_true_iff in Hl as [Hi Hl]. cbn [spec_run text].
  rewrite spec_step_text by done. destruct (item_text d i) as [a|]; [|done].
  cbn [mbind option_bind put]. rewrite Ho, IH by done. by destruct (text d l).
Qed.

Lemma spec_run_app d l1 l2 o :
  spec_run d (l1 ++ l2) o = o ← spec_run d l1 o; spec_run d l2 o.
Proof.
  revert o. induction l1 as [|i l IH]; intros o; [done|]. cbn [app spec_run].
  destruct (spec_step d i o); [|done]. cbn [mbind option_bind]. apply IH.
Qed.

Lemma text_app d l1 l2 : text d (l1 ++ l2) = a ← text d l1; b ← text d l2; Some (a +:+ b).
Proof.
  induction l1 as [|i l IH]; cbn [app text]; [by destruct (text d l2)|].
  rewrite IH. destruct (item_text d i); [|done]. cbn. destruct (text d l); [|done]. cbn.
  destruct (text d l2); [|done]. cbn. by rewrite append_assoc.
Qed.

(** Counts always have a value. *)
Definition count_text (qs : list query) (d : DB) : string :=
  foldr (fun q s => dec (Z.of_nat (length (selected unix_timestamp q d))) +:+ tab +:+ s) endl qs.

Lemma text_counts d qs :
  forallb (fun q => match q_select q with Count => true | _ => false end) qs = true ->
  text d (line_of qs) = Some (count_text qs d).
Proof.
  intros Hq. unfold line_of. induction qs as [|q qs IH]; [done|].
  cbn [forallb] in Hq. apply andb_true_iff in Hq as [H1 H2]. specialize (IH H2).
  cbn [map app text item_text]. unfold value, query_value. destruct (q_select q); try discriminate.
  cbn [mbind option_bind]. rewrite IH. cbn. by rewrite append_assoc.
Qed.

Definition repeat_text (n : nat) (s : string) : string := foldr (fun _ x => s +:+ x) "" (seq 0 n).

Lemma text_repeat d n l s :
  text d l = Some s -> text d (concat (replicate n l)) = Some (repeat_text n s).
Proof.
  intros Hl. unfold repeat_text. generalize 0%nat as k. induction n as [|n IH]; intros k; [done|].
  cbn [replicate concat seq foldr]. by rewrite text_app, Hl, (IH (S k)).
Qed.

Lemma histogram_counts b t w bs :
  forallb (fun q => match q_select q with Count => true | _ => false end) (histogram b t w bs) = true.
Proof. unfold histogram. rewrite forallb_forall. intros q (x & <- & _)%in_map_iff. done. Qed.

(** ** The parts of the report are well formed *)

Lemma values_ok b t w sels : forallb cond_ok w = true -> forallb query_ok (values b t w sels) = true.
Proof. intros Hw. unfold values. rewrite forallb_forall. by intros q (x & <- & _)%in_map_iff. Qed.
Lemma histogram_ok b t w bs :
  forallb cond_ok w = true -> forallb (forallb cond_ok) bs = true ->
  forallb query_ok (histogram b t w bs) = true.
Proof.
  intros Hw Hb. unfold histogram. rewrite forallb_forall in *.
  intros q (x & <- & Hx)%in_map_iff. unfold query_ok. cbn [q_where]. rewrite forallb_app.
  rewrite (Hb x Hx), andb_true_r. by apply forallb_forall.
Qed.
Lemma line_ok qs : forallb item_ok (line_of qs) = forallb query_ok qs.
Proof.
  unfold line_of. rewrite forallb_app. cbn. rewrite andb_true_r. induction qs; [done|]. cbn. by f_equal.
Qed.
Lemma asks_ok qs : forallb item_ok (map IAsk qs) = forallb query_ok qs.
Proof. induction qs; [done|]. cbn. by f_equal. Qed.
Lemma line_writes qs : forallb writes (line_of qs) = true.
Proof.
  unfold line_of. rewrite forallb_app. cbn. rewrite andb_true_r. by induction qs.
Qed.
Lemma repeat_ok {A} (p : A -> bool) n l : forallb p l = true -> forallb p (concat (replicate n l)) = true.
Proof. intros Hl. induction n; [done|]. cbn [replicate concat]. by rewrite forallb_app, Hl. Qed.

Lemma forallb_parts_app {A} (p : A -> bool) l1 l2 :
  forallb p l1 = true -> forallb p l2 = true -> forallb p (l1 ++ l2) = true.
Proof. intros H1 H2. by rewrite forallb_app, H1, H2. Qed.

Ltac parts :=
  repeat match goal with |- forallb _ (_ ++ _) = true => apply forallb_parts_app end.

Definition bins_ok (bs : list (list cond)) : bool := forallb (forallb cond_ok) bs.
Lemma all_bins_ok :
  bins_ok (bins (TCol Caddcnt) true addcnt_edges)
  && bins_ok (bins (TCol Coutval) true value_edges) && bins_ok (bins (TCol Coutvalue) true value_edges)
  && bins_ok (bins (TCol Cbal) true balance_edges) && bins_ok (bins (TCol Cmaxbal) true balance_edges)
  && bins_ok (bins TInOut true txcnt_edges) && bins_ok amount_bins
  && bins_ok (bins (TCol Ctxsize) true size_edges) = true.
Proof. vm_compute. reflexivity. Qed.

#[local] Opaque bins addcnt_edges value_edges balance_edges txcnt_edges amount_bins size_edges.

Lemma distributions_ok a :
  arg_text a = true ->
  forallb item_ok (flat_map (fun '(title, qs) => subheading title ++ line_of qs) (distributions a)) = true.
Proof.
  intros Ha. pose proof all_bins_ok as H. rewrite !andb_true_iff in H.
  destruct H as [[[[[[[B1 B2] B3] B4] B5] B6] B7] B8].
  unfold distributions. cbn [flat_map]. unfold bins_ok in *.
  parts; first
    [ match goal with |- forallb _ (line_of _) = true => idtac end; rewrite line_ok; apply histogram_ok;
      [cbn [forallb cond_ok]; rewrite ?Ha; reflexivity|assumption]
    | reflexivity ].
Qed.

Lemma main_report_ok r b a O :
  arg_text b = true -> arg_text a = true -> forallb item_ok (main_report r b a O) = true.
Proof.
  intros Hb Ha. unfold main_report.
  parts; first
    [ match goal with |- forallb _ (line_of _) = true => rewrite line_ok
                    | |- forallb _ (map IAsk _) = true => rewrite asks_ok end;
      unfold report_1, report_4; parts; apply values_ok; cbn [forallb cond_ok]; rewrite ?Hb, ?Ha;
      reflexivity
    | match goal with |- forallb _ (flat_map _ _) = true => by apply distributions_ok end
    | reflexivity ].
Qed.

Lemma interval_ok b a : arg_text b = true -> arg_text a = true -> forallb cond_ok (the_interval b a) = true.
Proof. intros Hb Ha. cbn. by rewrite Hb, Ha. Qed.

Lemma report_ok r b a O :
  arg_text b = true -> arg_text a = true -> forallb item_ok (report r b a O) = true.
Proof.
  intros Hb Ha. pose proof all_bins_ok as H. rewrite !andb_true_iff in H.
  destruct H as [[_ B7] B8]. unfold report. cbn [forallb item_ok andb].
  apply forallb_parts_app; [by apply main_report_ok|]. cbn [forallb item_ok andb].
  apply forallb_parts_app; [|cbn [forallb item_ok andb]; apply forallb_parts_app; [|reflexivity]];
    apply repeat_ok; rewrite line_ok; apply histogram_ok; (by apply interval_ok) || assumption.
Qed.

Lemma main_report_writes r b a O : forallb writes (main_report r b a O) = true.
Proof.
  unfold main_report, distributions. cbn [flat_map].
  parts; apply line_writes || reflexivity.
Qed.

Definition tx_amount_path : string := "I:\Statistic2\tx-amount-2.txt".
Definition tx_size_path : string := "I:\Statistic2\tx-size-2.txt".

Lemma text_amounts d b a :
  text d (concat (replicate 71 (line_of (amount_queries b a))))
  = Some (repeat_text 71 (count_text (amount_queries b a) d)).
Proof. apply text_repeat, text_counts, histogram_counts. Qed.
Lemma text_sizes d b a :
  text d (concat (replicate 71 (line_of (size_queries b a))))
  = Some (repeat_text 71 (count_text (size_queries b a) d)).
Proof. apply text_repeat, text_counts, histogram_counts. Qed.

Lemma spec_run_report d r b a O f :
  spec_run d (report r b a O) (new_ofstream, f)
  = m ← text d (main_report r b a O);
    Some ({| o_file := None; o_fail := false |},
      <[tx_size_path := content f tx_size_path +:+ repeat_text 71 (count_text (size_queries b a) d)]>
        (<[record_path r := content f (record_path r) +:+ m]> f)).
Proof.
  unfold report. cbn [spec_run spec_step open_app new_ofstream o_file mbind option_bind].
  rewrite spec_run_app, spec_run_open; [|apply main_report_writes|rewrite lookup_insert_eq; eauto].
  destruct (text d (main_report r b a O)) as [m|]; [|done].
  cbn [mbind option_bind]. unfold content at 1. rewrite lookup_insert_eq, insert_insert_eq.
  cbn [from_option id spec_run spec_step open_app o_file mbind option_bind].
  rewrite spec_run_app, spec_run_fail by (apply repeat_ok, line_writes || done).
  rewrite text_amounts.
  cbn [mbind option_bind spec_run spec_step close o_file o_fail open_app].
  rewrite spec_run_app, spec_run_open; [|apply repeat_ok, line_writes|rewrite lookup_insert_eq; eauto].
  rewrite text_sizes.
  cbn [mbind option_bind spec_run spec_step close o_file o_fail]. do 2 f_equal.
  unfold content at 1. rewrite lookup_insert_eq, insert_insert_eq. cbn [from_option id].
  unfold content at 1. rewrite lookup_insert_ne by done. reflexivity.
Qed.

(** [statistical] writes the report and the sizes, and nothing else. *)
Lemma statistical_spec O f conn r b a :
  read_time_range f = (r, b, a) -> arg_text b = true -> arg_text a = true -> db_small (tables conn) ->
  match text (tables conn) (main_report r b a O) with
  | Some m =>
      exists conn', statistical O f conn
        = Some (<[tx_size_path := content f tx_size_path
                     +:+ repeat_text 71 (count_text (size_queries b a) (tables conn))]>
                  (<[record_path r := content f (record_path r) +:+ m]> f), conn')
        /\ tables conn' = tables conn
  | None => statistical O f conn = None
  end.
Proof.
  intros Hr Hb Ha Hd. unfold statistical. rewrite Hr, script_report.
  pose proof (run_refines (tables conn) (report r b a O) conn (new_ofstream, f) Hd eq_refl
    (report_ok r b a O Hb Ha)) as H.
  rewrite spec_run_report in H. destruct (text (tables conn) (main_report r b a O)) as [m|].
  - destruct H as (conn' & -> & Ht). exists conn'. by split.
  - by rewrite H.
Qed.
End refinement.
