(* ===== verification/StatResults.v ===== *)
(** * What the statistics show

    The distributions are partitions: their counts add up to the number of rows
    from the lowest limit on.  The theorems about [statistical]: the report it
    writes, what it loses, and when it crashes. *)
From Stdlib Require Import String Ascii Sorted.
From stdpp Require Import base gmap strings numbers option list.
From S2P Require Import Prelude Sql SqlServer Calendar Streams Timerange Report ReportServer StatTables Statistical.
Local Open Scope string_scope.
Local Open Scope list_scope.
Open Scope Z_scope.

(** ** Partitions *)

Section partitions.
Context (ts : string -> Z).

Definition count_if (p : row -> bool) (l : list row) : Z := Z.of_nat (length (List.filter p l)).
Definition meets (cs : list cond) (r : row) : bool := forallb (fun c => holds ts c r) cs.
Definition at_least (x : term) (b : bound) (r : row) : bool := holds ts (CNum x true b) r.
Definition sumZ (l : list Z) : Z := foldr Z.add 0 l.

Lemma count_if_split p q s l :
  (forall r, s r = (p r || q r)) -> (forall r, p r = true -> q r = true -> False) ->
  count_if p l + count_if q l = count_if s l.
Proof.
  intros Hs Hd. unfold count_if. induction l as [|r l IH]; [done|]. cbn [List.filter]. rewrite Hs.
  specialize (Hd r). destruct (p r), (q r); cbn [orb length]; lia || by exfalso; apply Hd.
Qed.

Lemma count_if_ext p q l : (forall r, p r = q r) -> count_if p l = count_if q l.
Proof.
  intros Hpq. unfold count_if. induction l as [|r l IH]; [done|]. cbn [List.filter].
  rewrite Hpq. destruct (q r); cbn [length]; lia.
Qed.

Lemma count_if_filter p q l :
  count_if p (List.filter q l) = count_if (fun r => q r && p r) l.
Proof.
  unfold count_if. induction l as [|r l IH]; [done|]. cbn [List.filter].
  destruct (q r); cbn [List.filter andb]; [|done]. destruct (p r); cbn [length]; lia.
Qed.

Definition below (x : term) (b : bound) (r : row) : bool := holds ts (CNum x false b) r.

(** Rows from [b] on are those between [b] and [b'] and those from [b'] on. *)
Lemma count_bin x b b' l :
  bound_value b <= bound_value b' ->
  count_if (meets [CNum x true b; CNum x false b']) l + count_if (at_least x b') l
  = count_if (at_least x b) l.
Proof.
  intros Hb. apply count_if_split; intros r; unfold meets, at_least; cbn [forallb holds];
    destruct (term_of x r) as [v|]; cbn [andb]; try done; rewrite andb_true_r.
  - destruct (Z.leb_spec (bound_value b) v), (Z.ltb_spec v (bound_value b')),
      (Z.leb_spec (bound_value b') v); try done; lia.
  - intros [_ H1%Z.ltb_lt]%andb_true_iff H2%Z.leb_le. lia.
Qed.

Fixpoint increasing (l : list bound) : bool :=
  match l with
  | [] => true
  | b :: l' => match l' with [] => true | b' :: _ => (bound_value b <=? bound_value b') && increasing l' end
  end.

(** The bins of an open histogram add up. *)
Lemma bins_partition x b edges l :
  increasing (b :: edges) = true ->
  sumZ (map (fun cs => count_if (meets cs) l) (bins x true (b :: edges))) = count_if (at_least x b) l.
Proof.
  revert b. induction edges as [|b' edges IH]; intros b Hi.
  - cbn. rewrite Z.add_0_r. apply count_if_ext. intros r. unfold meets, at_least. cbn.
    by rewrite andb_true_r.
  - cbn [increasing] in Hi. apply andb_true_iff in Hi as [Hb%Z.leb_le Hi].
    change (bins x true (b :: b' :: edges))
      with ([CNum x true b; CNum x false b'] :: bins x true (b' :: edges)).
    cbn [map sumZ foldr]. fold (sumZ (map (fun cs => count_if (meets cs) l) (bins x true (b' :: edges)))).
    rewrite IH by exact Hi. by apply count_bin.
Qed.

Lemma last_default {A} (l : list A) x d d' : List.last (x :: l) d = List.last (x :: l) d'.
Proof. revert x. induction l as [|y l IH]; intros x; [done|]. apply (IH y). Qed.

(** Without the last, open bin the rows from the last limit on are missing. *)
Lemma bins_partition_closed x b edges l :
  increasing (b :: edges) = true ->
  sumZ (map (fun cs => count_if (meets cs) l) (bins x false (b :: edges)))
  + count_if (at_least x (List.last edges b)) l = count_if (at_least x b) l.
Proof.
  revert b. induction edges as [|b' edges IH]; intros b Hi; [cbn; lia|].
  cbn [increasing] in Hi. apply andb_true_iff in Hi as [Hb%Z.leb_le Hi].
  change (bins x false (b :: b' :: edges))
    with ([CNum x true b; CNum x false b'] :: bins x false (b' :: edges)).
  cbn [map sumZ foldr]. fold (sumZ (map (fun cs => count_if (meets cs) l) (bins x false (b' :: edges)))).
  assert (List.last (b' :: edges) b = List.last edges b') as ->.
  { destruct edges as [|e edges]; [done|]. apply (last_default edges e b b'). }
  pose proof (count_bin x b b' l Hb). specialize (IH b' Hi). lia.
Qed.

Lemma sumZ_app l1 l2 : sumZ (l1 ++ l2) = sumZ l1 + sumZ l2.
Proof. unfold sumZ. induction l1 as [|z l IH]; cbn; [done|]. rewrite IH. lia. Qed.

(** The rows a bin of a histogram selects. *)
Lemma selected_histogram b t w cs d :
  Z.of_nat (length (selected ts {| q_select := Count; q_test1 := b; q_table := t; q_where := w ++ cs |} d))
  = count_if (meets cs) (List.filter (meets w) (rows_of t d)).
Proof.
  rewrite count_if_filter. unfold selected. cbn [q_where q_table]. unfold count_if.
  f_equal. f_equal. apply filter_ext. intros r. unfold meets. by rewrite forallb_app.
Qed.
End partitions.

(** ** Answers of the server as numbers *)

Section answers.
Context `{Sc : Schema} `{My : !MySQL} `{Rp : !Reporting}.

(** The number in the first column of the answer. *)
Definition answer (conn : MYSQL) (q : string) : option Z :=
  match snd (mysql_query conn q) with
  | (Some bytes :: _) :: _ => s ← strcpy_500 bytes; undec s
  | _ => None
  end.

Lemma answer_count conn q :
  q_select q = Count -> query_ok q = true -> db_small (tables conn) ->
  answer conn (query_text q) = Some (Z.of_nat (length (selected unix_timestamp q (tables conn)))).
Proof.
  intros Hs Hq Hd. unfold answer. rewrite report_rows by done.
  fold (value q (tables conn)). destruct (value q (tables conn)) as [v|] eqn:Ev.
  - cbn. rewrite (strcpy_fits v (value_fits q _ v Hd Ev)). cbn.
    unfold value, query_value in Ev. rewrite Hs in Ev. injection Ev as <-. apply undec_dec. lia.
  - unfold value, query_value in Ev. by rewrite Hs in Ev.
Qed.

(** The answers to a histogram are the counts of its bins. *)
Lemma answers_histogram conn b t w bs :
  forallb cond_ok w = true -> forallb (forallb cond_ok) bs = true -> db_small (tables conn) ->
  map (answer conn) (map query_text (histogram b t w bs))
  = map Some (map (fun cs => count_if (meets unix_timestamp cs)
                      (List.filter (meets unix_timestamp w) (rows_of t (tables conn)))) bs).
Proof.
  intros Hw Hbs Hd. unfold histogram. rewrite !map_map. apply map_ext_in. intros cs Hin.
  rewrite <- (selected_histogram unix_timestamp b t w cs (tables conn)).
  apply (answer_count conn {| q_select := Count; q_test1 := b; q_table := t; q_where := w ++ cs |});
    [done| |done].
  unfold query_ok. cbn [q_where]. rewrite forallb_app, Hw.
  rewrite forallb_forall in Hbs. by rewrite (Hbs cs Hin).
Qed.

Lemma filter_true l : List.filter (meets unix_timestamp []) l = l.
Proof. induction l as [|r l IH]; [done|]. cbn. by rewrite IH. Qed.

(** The texts of a distribution ask for a partition of the rows from [lo] on, of those
    that meet [w]. *)
Definition partition (conn : MYSQL) (qs : list string) (t : table) (w : list cond) (x : term) (lo : Z) : Prop :=
  exists ns, map (answer conn) qs = map Some ns
    /\ sumZ ns = count_if (fun r => match term_of x r with Some v => lo <=? v | None => false end)
                   (List.filter (meets unix_timestamp w) (rows_of t (tables conn))).

Lemma partition_bins conn qs t w x b edges :
  qs = map query_text (histogram false t w (bins x true (b :: edges))) -> forallb cond_ok w = true ->
  forallb (forallb cond_ok) (bins x true (b :: edges)) = true -> increasing (b :: edges) = true ->
  db_small (tables conn) -> partition conn qs t w x (bound_value b).
Proof.
  intros -> Hw Hok Hi Hd. eexists. split; [by apply answers_histogram|].
  rewrite bins_partition by exact Hi. reflexivity.
Qed.

(** ** The interval of the transaction counts *)

Definition limits_ok (i : nat) : bool :=
  let '(y, m) := month_of (Z.of_nat i) in
  let '(y3, m3) := month_of (Z.of_nat i - 3) in
  date_ok (y3, m3, month_length y3 m3) && date_ok (y, m, 1)
  && (date_num (y3, m3, month_length y3 m3) <? date_num (y, m, 1)).
Lemma all_limits_ok : forallb limits_ok (seq 0 72) = true.
Proof. vm_compute. reflexivity. Qed.

(** The lower limit of a month is before its upper limit. *)
Lemma limits_order i b a :
  (i < 72)%nat -> BEFORE !! i = Some b -> AFTER !! i = Some a -> unix_timestamp b < unix_timestamp a.
Proof.
  intros Hi Hb Ha. destruct (month_of (Z.of_nat i)) as [y m] eqn:E.
  destruct (month_of (Z.of_nat i - 3)) as [y3 m3] eqn:E3.
  destruct (range_spec_of i y m y3 m3 Hi E E3) as [_ _ _ _ Eb Ea]. simplify_eq.
  pose proof (proj1 (forallb_forall limits_ok (seq 0 72)) all_limits_ok i) as H.
  specialize (H ltac:(apply Stdlib.Lists.List.in_seq; lia)). unfold limits_ok in H. rewrite E, E3 in H.
  rewrite !andb_true_iff in H. destruct H as [[H1 H2] H3%Z.ltb_lt].
  by apply unix_timestamp_midnight.
Qed.

Lemma interval_empty b a l :
  unix_timestamp b <= unix_timestamp a -> List.filter (meets unix_timestamp (the_interval b a)) l = [].
Proof.
  intros Hlt. induction l as [|r l IH]; [done|]. cbn [List.filter]. rewrite IH.
  unfold meets, the_interval. cbn [forallb holds]. destruct (tcolumn_of Ttxtime r) as [t|]; [|done].
  destruct (Z.leb_spec (unix_timestamp a) (unix_timestamp t)); [|done].
  by destruct (Z.ltb_spec (unix_timestamp t) (unix_timestamp b)); [lia|].
Qed.

Fixpoint zero_line (n : nat) : string :=
  match n with O => endl | S n' => dec 0 +:+ tab +:+ zero_line n' end.

Lemma count_text_empty b t w bs d :
  (forall l, List.filter (meets unix_timestamp w) l = []) ->
  count_text (histogram b t w bs) d = zero_line (length bs).
Proof.
  intros Hw. unfold count_text, histogram. induction bs as [|cs bs IH]; [done|].
  cbn [map foldr length zero_line]. rewrite IH.
  rewrite (selected_histogram unix_timestamp b t w cs d), Hw. reflexivity.
Qed.

(** ** Crash on NULL *)

Lemma text_None d l i : In i l -> item_text d i = None -> text d l = None.
Proof.
  intros Hin Hi. induction l as [|j l IH]; [done|]. destruct Hin as [->|Hin]; cbn [text].
  - by rewrite Hi.
  - rewrite IH by done. by destruct (item_text d j).
Qed.

Definition new_outval (a : string) : query :=
  {| q_select := Agg Avg (Col Coutval); q_test1 := true; q_table := Addressinfo;
     q_where := [CTime Tfirsttm TGt a] |}.

Lemma new_outval_in r b a O : In (IAsk (new_outval a)) (main_report r b a O).
Proof.
  unfold main_report. do 4 (apply in_app_iff; right). apply in_app_iff. left.
  apply in_app_iff. left. apply in_map. right. left. reflexivity.
Qed.

Lemma new_outval_None a d :
  (forall k r, addressinfo d !! k = Some r -> unix_timestamp (a_firsttm r) <= unix_timestamp a) ->
  item_text d (IAsk (new_outval a)) = None.
Proof.
  intros Hd. cbn [item_text]. unfold value, query_value. cbn [q_select new_outval].
  assert (selected unix_timestamp (new_outval a) d = []) as ->; [|done].
  unfold selected. cbn [q_where q_table new_outval rows_of].
  assert (Forall (fun r => unix_timestamp (a_firsttm r) <= unix_timestamp a)
            (snd <$> map_to_list (addressinfo d))) as Hall.
  { rewrite Forall_fmap, Forall_forall. intros [k r] Hkr%elem_of_map_to_list. by apply (Hd k). }
  induction Hall as [|r l Hr Hl IH]; [done|]. cbn [fmap list_fmap List.filter forallb holds tcolumn_of].
  destruct (Z.ltb_spec (unix_timestamp a) (unix_timestamp (a_firsttm r))); [lia|]. exact IH.
Qed.

(** ** Results *)

(** C9: [statistical] writes the report.  With limits of the month as
    [set_parameter] writes them and tables that MySQL can count, it appends to
    the file of the month exactly the text of [main_report], in which every
    count and aggregate stands in its place, and to the file of transaction
    sizes its 71 lines; no other file is written (the results for transaction
    amounts are lost, since the stream for their file is still open), and the
    tables are left as they are.  If an answer is NULL, it crashes. *)
Theorem statistical_report O f conn r b a :
  read_time_range f = (r, b, a) -> arg_text b = true -> arg_text a = true -> db_small (tables conn) ->
  match text (tables conn) (main_report r b a O) with
  | Some m =>
      exists conn', statistical O f conn
        = Some (<[tx_size_path := content f tx_size_path
                     +:+ repeat_text 71 (count_text (size_queries b a) (tables conn))]>
                  (<[record_path r := content f (record_path r) +:+ m]> f), conn')
        /\ tables conn' = tables conn
  | None => statistical O f conn = None
  end.
Proof. apply statistical_spec. Qed.

(** C35: the distributions of the ninth part of the report are partitions: the numbers that
    the server answers to the queries of each of its ten arrays add up to the number of rows,
    of transactions after the given time, whose value is at least the lowest limit; no row is
    counted twice or left out.  (The counts of amounts and sizes behind them are not, see
    [tx_amount_gap] and [tx_sizes_all_zero].) *)
Theorem distributions_partition conn a :
  db_small (tables conn) -> arg_text a = true ->
  partition conn (queries NumOfAddOfEntity 0 31) Entityinfo [] (TCol Caddcnt) 1
  /\ partition conn (queries OutvalOfAdd 0 48) Addressinfo [] (TCol Coutval) 0
  /\ partition conn (queries OutvalOfEntity 0 48) Entityinfo [] (TCol Coutval) 0
  /\ partition conn (queries BalOfAdd 0 58) Addressinfo [] (TCol Cbal) 0
  /\ partition conn (queries BalOfEntity 0 58) Entityinfo [] (TCol Cbal) 0
  /\ partition conn (queries MaxbalOfAdd 0 58) Addressinfo [] (TCol Cmaxbal) 0
  /\ partition conn (queries MaxbalOfEntity 0 58) Entityinfo [] (TCol Cmaxbal) 0
  /\ partition conn (queries TxcntOfAdd 0 25) Addressinfo [] TInOut 1
  /\ partition conn (queries TxcntOfEntity 0 25) Entityinfo [] TInOut 1
  /\ partition conn (queries (OutvalOfTx a) 0 48) Txinfo [CTime Ttxtime TGt a] (TCol Coutvalue) 0.
Proof.
  intros Hd Ha. split_and!.
  - by apply (partition_bins conn _ _ _ _ (Num 1) (tl addcnt_edges)).
  - by apply (partition_bins conn _ _ _ _ (Coins 0) (tl value_edges)).
  - by apply (partition_bins conn _ _ _ _ (Coins 0) (tl value_edges)).
  - by apply (partition_bins conn _ _ _ _ (Coins 0) (tl balance_edges)).
  - by apply (partition_bins conn _ _ _ _ (Coins 0) (tl balance_edges)).
  - by apply (partition_bins conn _ _ _ _ (Coins 0) (tl balance_edges)).
  - by apply (partition_bins conn _ _ _ _ (Coins 0) (tl balance_edges)).
  - by apply (partition_bins conn _ _ _ _ (Num 1) (tl txcnt_edges)).
  - by apply (partition_bins conn _ _ _ _ (Num 1) (tl txcnt_edges)).
  - apply (partition_bins conn _ _ _ _ (Coins 0) (tl value_edges)); [|by cbn; rewrite Ha|done..].
    pose proof (f_equal (fun l => nth 9 l []) (texts_9 a)) as E. exact E.
Qed.

(** The amounts of transactions have a gap: the fourteen counts that are
    asked miss the transactions of at least 400 and less than 420 coins. *)
Theorem tx_amount_gap conn b a :
  arg_text b = true -> arg_text a = true -> db_small (tables conn) ->
  let rows := List.filter (meets unix_timestamp (the_interval b a)) (rows_of Txinfo (tables conn)) in
  exists ns, map (answer conn) (map (fun q => tx_time b a +:+ q) (queries tx_amount 22 36)) = map Some ns
    /\ sumZ ns
       + count_if (meets unix_timestamp [CNum (TCol Coutvalue) true (Coins 400);
                                         CNum (TCol Coutvalue) false (Coins 420)]) rows
       = count_if (at_least unix_timestamp (TCol Coutvalue) (Coins 320)) rows.
Proof.
  intros Hb Ha Hd rows. rewrite texts_amount. eexists. split.
  { apply answers_histogram; [by apply interval_ok|vm_compute; reflexivity|done]. }
  fold rows. unfold amount_bins. rewrite map_app, sumZ_app.
  pose proof (bins_partition_closed unix_timestamp (TCol Coutvalue) (Coins 320)
    (map Coins [340; 360; 380; 400]) rows eq_refl) as H1.
  pose proof (bins_partition unix_timestamp (TCol Coutvalue) (Coins 420)
    (map Coins [440; 460; 480; 500; 520; 540; 560; 580; 600]) rows eq_refl) as H2.
  pose proof (count_bin unix_timestamp (TCol Coutvalue) (Coins 400) (Coins 420) rows) as H3.
  cbn [map List.last bound_value] in *. specialize (H3 ltac:(lia)). lia.
Qed.

(** The months of [timerange.h] make the interval of the transaction counts
    empty, because its lower limit is the upper limit of the month and its upper
    limit the lower one: whatever the tables hold, [statistical] appends 71 lines
    of 33 zeros to the file of sizes, and leaves the file of amounts alone. *)
Theorem tx_sizes_all_zero i f f1 O conn f2 conn' :
  (i < 72)%nat -> set_parameter i f = Some f1 -> db_small (tables conn) ->
  statistical O f1 conn = Some (f2, conn') ->
  f2 !! tx_size_path = Some (content f tx_size_path +:+ repeat_text 71 (zero_line 33))
  /\ f2 !! tx_amount_path = f !! tx_amount_path.
Proof.
  intros Hi Hset Hd Hs. destruct (set_parameter_reads i f f1 Hi Hset) as (r & b & a & Hr & Eb & Ea & Hb & Ha & Hf).
  pose proof (statistical_spec O f1 conn r b a Hr Hb Ha Hd) as H.
  destruct (text (tables conn) (main_report r b a O)) as [m|]; [|congruence].
  destruct H as (conn0 & E & _). rewrite E in Hs. apply Some_inj, pair_eq in Hs as [<- _]. split.
  - rewrite lookup_insert_eq. unfold size_queries. rewrite count_text_empty.
    + unfold content. by rewrite Hf.
    + intros l. apply interval_empty. pose proof (limits_order i b a Hi Eb Ea). lia.
  - rewrite !lookup_insert_ne by done. by apply Hf.
Qed.

(** A month without new addresses makes [statistical] crash: the average over
    no rows is NULL, and the program copies it without a test. *)
Theorem statistical_no_new_address O f conn r b a :
  read_time_range f = (r, b, a) -> arg_text b = true -> arg_text a = true -> db_small (tables conn) ->
  (forall k row, addressinfo (tables conn) !! k = Some row ->
     unix_timestamp (a_firsttm row) <= unix_timestamp a) ->
  statistical O f conn = None.
Proof.
  intros Hr Hb Ha Hd Hn. pose proof (statistical_spec O f conn r b a Hr Hb Ha Hd) as H.
  rewrite (text_None (tables conn) (main_report r b a O) _ (new_outval_in r b a O)
    (new_outval_None a _ Hn)) in H. exact H.
Qed.
End answers.

(** ** Witnesses *)

#[local] Remove Hints server : typeclass_instances.

Definition stat_db : DB :=
  {| addressinfo := {[ replicate 20 7 :=
       {| a_inval := 100000000; a_outval := 5100000000; a_bal := 5000000000; a_maxbal := 5100000000;
          a_incnt := 1; a_outcnt := 2; a_firsttm := "2010-09-02 10:00:00";
          a_lasttm := "2010-09-20 10:00:00"; a_entity := 1 |} ]};
     entityinfo := {[ 1 :=
       {| e_addcnt := 1; e_inval := Some 100000000; e_outval := Some 5100000000;
          e_firsttm := Some "2010-09-02 10:00:00"; e_lasttm := Some "2010-09-20 10:00:00";
          e_bal := Some 5000000000; e_maxbal := Some 5100000000; e_incnt := Some 1;
          e_outcnt := Some 2 |} ]};
     txinfo := [{| t_hash := replicate 32 1; t_txcounter := 0; t_blknum := 0;
                   t_time := "2010-09-02 10:00:00"; t_rawlength := 250; t_fee := 0; t_incounter := 1;
                   t_invalue := 41000000000; t_outcounter := 1; t_outvalue := 41000000000 |}];
     blkinfo := [{| b_hash := replicate 32 2; b_blknum := 0; b_size := 300; b_trans_count := 1;
                    b_time := "2010-09-02 10:00:00"; b_difficulty := 1; b_reward := 0 |}] |}.
Definition stat_conn : @MYSQL schema0 report_server := stat_db.
Definition stat_before : string := "2010-06-30-00-00-00".
Definition stat_after : string := "2010-09-01-00-00-00".
Definition stat_files : files :=
  {[ statistic_txt := lines ["2010-09"; stat_before; stat_after] ]}.

(** [db_small] as a test. *)
Definition smallb (d : DB) : bool :=
  forallb (fun t => (Z.of_nat (length (rows_of t d)) <? 2 ^ 63)
      && forallb (fun r => 0 <=? default 0 (column_of Cbal r)) (rows_of t d)
      && (sum_bal (rows_of t d) <? 2 ^ 63))
    [Addressinfo; Entityinfo; Txinfo; Blkinfo].
Lemma smallb_small d : smallb d = true -> db_small d.
Proof.
  intros H. assert (forall t, Z.of_nat (length (rows_of t d)) < 2 ^ 63
    /\ Forall (fun r => 0 <= default 0 (column_of Cbal r)) (rows_of t d)
    /\ sum_bal (rows_of t d) < 2 ^ 63) as Ht.
  { intros t. unfold smallb in H. rewrite forallb_forall in H.
    specialize (H t ltac:(destruct t; cbn; tauto)). rewrite !andb_true_iff, !Z.ltb_lt in H.
    destruct H as [[H1 H2] H3]. split; [exact H1|]. split; [|exact H3].
    rewrite forallb_forall in H2. apply Forall_forall. intros r Hr%list_elem_of_In.
    by apply Z.leb_le, H2. }
  split; intros t; apply (Ht t).
Qed.

Lemma stat_small : db_small (tables stat_conn).
Proof. apply smallb_small. vm_compute. reflexivity. Qed.

Lemma stat_reads : read_time_range stat_files = ("2010-09", stat_before, stat_after).
Proof. vm_compute. reflexivity. Qed.

Lemma stat_text :
  exists m, text (tables stat_conn) (main_report "2010-09" stat_before stat_after "2014-01-01") = Some m.
Proof. eexists. vm_compute. reflexivity. Qed.

Lemma statistical_report_witness :
  exists m conn', statistical "2014-01-01" stat_files stat_conn
    = Some (<[tx_size_path := "" +:+ repeat_text 71
                (count_text (size_queries stat_before stat_after) stat_db)]>
              (<[record_path "2010-09" := "" +:+ m]> stat_files), conn').
Proof.
  pose proof (statistical_report "2014-01-01" stat_files stat_conn "2010-09" stat_before stat_after
    stat_reads eq_refl eq_refl stat_small) as H.
  destruct stat_text as [m E]. rewrite E in H.
  destruct H as (conn' & H & _). exists m, conn'. exact H.
Defined.

Lemma distributions_partition_witness :
  partition stat_conn (queries OutvalOfAdd 0 48) Addressinfo [] (TCol Coutval) 0
  /\ partition stat_conn (queries (OutvalOfTx stat_after) 0 48) Txinfo [CTime Ttxtime TGt stat_after] (TCol Coutvalue) 0
  /\ answer stat_conn (nth 14 OutvalOfAdd "") = Some 1.
Proof.
  destruct (distributions_partition stat_conn stat_after stat_small eq_refl) as (_ & H1 & _ & _ & _ & _ & _ & _ & _ & H2).
  split; [exact H1|]. split; [exact H2|]. vm_compute. reflexivity.
Defined.

(** A transaction of 410 coins in September 2010 is in none of the bins. *)
Lemma tx_amount_gap_witness :
  exists ns, map (answer stat_conn)
      (map (fun q => tx_time "2010-10-01-00-00-00" stat_after +:+ q) (queries tx_amount 22 36)) = map Some ns
    /\ sumZ ns + 1 = 1.
Proof.
  exact (tx_amount_gap stat_conn "2010-10-01-00-00-00" stat_after eq_refl eq_refl stat_small).
Defined.

Lemma tx_sizes_all_zero_witness :
  exists f1 f2 conn', set_parameter 20 ∅ = Some f1
    /\ statistical "2014-01-01" f1 stat_conn = Some (f2, conn')
    /\ f2 !! tx_size_path = Some ("" +:+ repeat_text 71 (zero_line 33)).
Proof.
  destruct (set_parameter_spec 20 ∅ ltac:(lia))
    as (f1 & _ & _ & _ & r & b & a & Hf & _ & _ & _ & Er & Eb & Ea & _ & Hr & _).
  vm_compute in Er, Eb, Ea. apply Some_inj in Er, Eb, Ea. subst r b a.
  pose proof (statistical_spec "2014-01-01" f1 stat_conn "2010-09" stat_before stat_after Hr
    eq_refl eq_refl stat_small) as H.
  destruct stat_text as [m E]. rewrite E in H.
  destruct H as (conn' & H & _). exists f1. eexists. exists conn'. split; [exact Hf|].
  split; [exact H|].
  apply (tx_sizes_all_zero 20 ∅ f1 "2014-01-01" stat_conn _ conn' ltac:(lia) Hf stat_small H).
Defined.

Lemma statistical_no_new_address_witness :
  statistical "2014-01-01" stat_files (empty_db : @MYSQL schema0 report_server) = None.
Proof.
  apply (statistical_no_new_address "2014-01-01" stat_files (empty_db : @MYSQL schema0 report_server)
    "2010-09" stat_before stat_after stat_reads eq_refl eq_refl).
  - apply smallb_small. vm_compute. reflexivity.
  - intros k row H. cbn in H. by rewrite lookup_empty in H.
Defined.
