(* ===== verification/Chain.v ===== *)
(** * From the chain to the databases

    The contract of a whole run, without bytes, texts or tables: a [ledger] keeps
    the outputs of every transaction and the balance of every address, and a
    block of the chain takes it to the next one.  [unzipBlocks] over files that
    hold a valid chain succeeds and its databases stay in step with the ledger
    ([sim]). *)
From Stdlib Require Import String.
From stdpp Require Import base gmap strings numbers option list.
From S2P Require Import Prelude Ripemd160 Sha256 Block TxParse Sql SqlServer Calendar Entity TxStore Unzip.
Local Open Scope list_scope.
Open Scope Z_scope.

(** ** The ledger *)

Record ledger := {
  L_outs : gmap (list Z) (list (list Z * Z));  (* transaction -> address and value of its outputs *)
  L_bal : gmap (list Z) Z;                     (* address -> balance *)
  L_blocks : list (list Z);                    (* hashes of the blocks *)
  L_count : Z }.                               (* bound on the number of entities *)

Definition txid (t : raw_tx) : list Z := reverse (sha256d (ser_tx t)).
Definition block_id (b : raw_block) : list Z := reverse (sha256d (ser_head b)).
Definition out_of (o : raw_out) : list Z * Z := (snd (out_decoded o), ro_val o).
Definition is_coinbase (i : raw_in) : bool := bool_decide (reverse (ri_hash i) = coinbase_b).

(** The output that an input spends. *)
Definition spent (L : ledger) (i : raw_in) : option (list Z * Z) :=
  if is_coinbase i then None
  else os ← L_outs L !! reverse (ri_hash i); os !! Z.to_nat (ri_index i).

(** What a transaction spends: the block reward alone, or known outputs. *)
Definition funds (L : ledger) (t : raw_tx) : option (list (list Z * Z)) :=
  match rt_ins t with
  | [] => None
  | i :: rest =>
      if is_coinbase i then match rest with [] => Some [reward] | _ => None end
      else mapM (spent L) (i :: rest)
  end.

(** A transaction with a new hash, of a size whose record has a 32-bit length. *)
Definition ledger_tx (t : raw_tx) (L : ledger) : option ledger :=
  pres ← funds L t;
  if bool_decide (L_outs L !! txid t = None)
     && (24 + 28 * Z.of_nat (length (rt_ins t)) + 28 * Z.of_nat (length (rt_outs t)) <? 0x1_0000_0000)
     && (L_count L + Z.of_nat (length (rt_outs t)) <? 0x1_0000_0000)
  then Some {| L_outs := <[txid t := map out_of (rt_outs t)]> (L_outs L);
               L_bal := foldl ledger_out (foldl ledger_in (L_bal L) pres) (map out_of (rt_outs t));
               L_blocks := L_blocks L;
               L_count := L_count L + Z.of_nat (length (rt_outs t)) |}
  else None.

(** Transactions number [k] on, which must be [int]s as the next number; the two
    numbers that the program leaves out are left out here. *)
Fixpoint ledger_txs (k : Z) (ts : list raw_tx) (L : ledger) : option ledger :=
  match ts with
  | [] => Some L
  | t :: ts' =>
      if k <? INT_MAX then
        L ← (if negb (w32 k =? 142783) && negb (w32 k =? 142841) then ledger_tx t L else Some L);
        ledger_txs (k + 1) ts' L
      else None
  end.

Definition ledger_block (k : Z) (b : raw_block) (L : ledger) : option ledger :=
  L ← ledger_txs k (rb_txs b) L;
  if bool_decide (rb_txs b <> []) && bool_decide (block_id b ∉ L_blocks L)
  then Some {| L_outs := L_outs L; L_bal := L_bal L; L_blocks := block_id b :: L_blocks L;
               L_count := L_count L |}
  else None.

(** The blocks up to the first one after the stop time, and whether there was one; [k] holds
    the numbers of the next block and of the next transaction.  The number behind that of a
    block must be an [int], too. *)
Fixpoint ledger_blocks (stop : Z) (k : Z * Z) (bs : list raw_block) (L : ledger) : option (bool * (Z * Z) * ledger) :=
  match bs with
  | [] => Some (false, k, L)
  | b :: bs' =>
      if fst k <? INT_MAX then
        if stop <? rb_time b then Some (true, k, L)
        else
          L ← ledger_block (snd k) b L;
          ledger_blocks stop (fst k + 1, snd k + Z.of_nat (length (rb_txs b))) bs' L
      else None
  end.

(** The chain over [n] files from number [i] on. *)
Fixpoint ledger_files (n : nat) (i stop : Z) (k : Z * Z) (chain : Z -> list raw_block) (L : ledger)
    : option ledger :=
  match n with
  | O => Some L
  | S n' =>
      '(stopped, k, L) ← ledger_blocks stop k (chain i) L;
      if stopped : bool then Some L else ledger_files n' (i + 1) stop k chain L
  end.

(** ** The databases follow the ledger *)

Section chain.
Context `{Sc : Schema} `{My : !MySQL} `{Ldb : LevelDB}.
Context (difficulty : Z -> Z) (difficulty_is64 : forall b, is64 (difficulty b)).

Record sim (L : ledger) (st : state) : Prop := {
  sim_inv : inv st;
  sim_outs h os : L_outs L !! h = Some os ->
    exists v nin, Get (st_db st) h = Some v /\ tx_value v nin os;
  sim_bal : balances (tables (st_conn st)) = L_bal L;
  sim_tx : Forall (fun r => is_Some (L_outs L !! t_hash r)) (txinfo (tables (st_conn st)));
  sim_blk : Forall (fun r => b_hash r ∈ L_blocks L) (blkinfo (tables (st_conn st)));
  sim_cnt : entitycnt (st_g st) <= L_count L }.

Lemma tx_of_ok bn n k tm t :
  raw_tx_ok t -> Z.of_nat (length (ser_tx t)) < 0x1_0000_0000 -> is32 tm -> 0 <= bn ->
  24 + 28 * Z.of_nat (length (rt_ins t)) + 28 * Z.of_nat (length (rt_outs t)) < 0x1_0000_0000 ->
  tx_ok (tx_of bn n k tm t).
Proof.
  intros Ht Hlen Htm Hbn Hsz.
  destruct (sha256d_digest (ser_tx t) (bytes_ser_tx t Ht) Hlen) as [_ Hd].
  destruct Ht as (_ & _ & _ & _ & _ & Houts).
  split; cbn [tx_of in_count ins out_count outs txtime tx_curhash tx_blocknumber txcounter tx_length];
    rewrite ?length_map; try done.
  - apply Forall_map. eapply Forall_impl; [exact Houts|]. intros o [Hv [Hb _]].
    split; [|exact Hv]. cbn. unfold out_decoded. by apply outAddress_ok.
  - pose proof (is32_w32 k) as []. lia.
Qed.

Lemma out_pair_txout l : map out_pair (map txout_of l) = map out_of l.
Proof. by rewrite map_map. Qed.

Lemma funds_resolves L st t pres bn n k tm :
  sim L st -> Forall raw_in_ok (rt_ins t) -> funds L t = Some pres ->
  resolves st (tx_of bn n k tm t) pres.
Proof.
  intros Hs Hin Hf. unfold funds in Hf. destruct (rt_ins t) as [|i rest] eqn:Ei; [done|].
  unfold resolves. cbn [tx_of ins]. rewrite Ei. destruct (is_coinbase i) eqn:Ec.
  - destruct rest; [|done]. injection Hf as <-. left. exists (txin_of i). split; [done|].
    apply bool_decide_eq_true in Ec. by split.
  - right. apply mapM_Some_1 in Hf. split; [by inversion Hf|].
    clear Ec Ei. revert pres Hf. induction Hin as [|j l Hj Hl IH]; intros pres Hf;
      inversion Hf as [|? o ? pres' Hjo Hrest]; subst; constructor; [|by apply IH].
    unfold spent in Hjo. destruct (is_coinbase j) eqn:Ej; [done|].
    apply bool_decide_eq_false in Ej. split; [exact Ej|].
    apply bind_Some in Hjo as (os & Hos & Ho).
    destruct (sim_outs _ _ Hs _ _ Hos) as (v & nin & Hg & Hv).
    exists v, nin, os, (Z.to_nat (ri_index j)). split_and!; try done. cbn.
    destruct Hj as (_ & _ & [Hi _] & _). lia.
Qed.

(** One transaction. *)
Lemma sim_tx_step L L' st t bn n k tm :
  sim L st -> raw_tx_ok t -> Z.of_nat (length (ser_tx t)) < 0x1_0000_0000 -> is32 tm -> 0 <= bn ->
  ledger_tx t L = Some L' ->
  exists st', TransactionProcess (tx_of bn n k tm t) st = Some st' /\ sim L' st'.
Proof.
  intros Hs Ht Hlen Htm Hbn HL. unfold ledger_tx in HL. apply bind_Some in HL as (pres & Hf & HL).
  destruct (_ && _) eqn:Hc in HL; [|done]. apply Some_inj in HL as <-.
  rewrite !andb_true_iff, !Z.ltb_lt, bool_decide_eq_true in Hc. destruct Hc as [[Hnew Hsz] Hcnt].
  pose proof (tx_of_ok bn n k tm t Ht Hlen Htm Hbn Hsz) as Hok.
  assert (resolves st (tx_of bn n k tm t) pres) as Hres
    by (eapply funds_resolves; [exact Hs|apply Ht|exact Hf]).
  pose proof (sim_cnt _ _ Hs) as Hcs.
  destruct (TransactionProcess_spec st (tx_of bn n k tm t) pres (sim_inv _ _ Hs) Hok Hres)
    as (st' & Hrun & Hinv & Heff).
  - eapply Forall_impl; [exact (sim_tx _ _ Hs)|]. intros r Hr E. cbn in Hr. rewrite E in Hr.
    change (is_Some (L_outs L !! txid t)) in Hr. rewrite Hnew in Hr. by destruct Hr.
  - cbn [tx_of outs]. rewrite length_map. lia.
  - exists st'. split; [exact Hrun|].
    pose proof (eff_cnt _ _ _ _ Heff) as Hc. cbn [tx_of outs] in Hc. rewrite length_map in Hc.
    destruct (eff_store _ _ _ _ Heff) as (v & Hv & Hdb).
    cbn [tx_of outs in_count tx_curhash] in Hv, Hdb. rewrite out_pair_txout in Hv.
    change (reverse (sha256d (ser_tx t))) with (txid t) in Hdb.
    split; [exact Hinv| | | | |]; cbn [L_outs L_bal L_blocks L_count].
    + intros h os. rewrite Hdb, Get_Put, lookup_insert. case_decide as Eh; subst.
      * intros <-%Some_inj. rewrite bool_decide_eq_true_2 by done. eauto.
      * rewrite bool_decide_eq_false_2 by done. apply (sim_outs _ _ Hs).
    + rewrite (eff_ledger _ _ _ _ Heff), (sim_bal _ _ Hs). cbn [tx_of outs]. by rewrite out_pair_txout.
    + rewrite (eff_txinfo _ _ _ _ Heff). apply Forall_app. split.
      * eapply Forall_impl; [exact (sim_tx _ _ Hs)|]. intros r [os Hr]. cbn. rewrite lookup_insert.
        case_decide; eauto.
      * constructor; [|constructor]. cbn [txinfo_row t_hash tx_of tx_curhash]. fold (txid t).
        rewrite lookup_insert_eq. eauto.
    + rewrite (eff_blkinfo _ _ _ _ Heff). apply (sim_blk _ _ Hs).
    + lia.
Qed.

(** The transactions of a block. *)
Definition tx_sized (t : raw_tx) : Prop :=
  raw_tx_ok t /\ Z.of_nat (length (ser_tx t)) < 0x1_0000_0000.
Definition reward_ok (r : option Z) : Prop := exists x, r = Some x /\ 0 <= x.

Lemma sim_txs_step ts bn tm v L L' :
  Forall tx_sized ts -> is32 tm -> 0 <= bn -> sim L (l_state v) ->
  ledger_txs (l_txcounter v) ts L = Some L' ->
  exists v', spec_txs TransactionProcess bn tm v ts = Some v' /\ sim L' (l_state v')
    /\ l_txcounter v' = l_txcounter v + Z.of_nat (length ts)
    /\ (reward_ok (l_reward v) \/ l_txNum v = 0 /\ ts <> [] -> reward_ok (l_reward v')).
Proof.
  intros Hts Htm Hbn. revert v L. induction Hts as [|t ts [Ht Hlen] Hts IH]; intros v L Hs HL.
  { cbn in HL. injection HL as <-. exists v. cbn. split_and!; [done|done|lia|]. by intros [|[_ ?]]. }
  cbn [ledger_txs] in HL. destruct (_ <? _) in HL; [|discriminate]. apply bind_Some in HL as (L1 & HL1 & HL). cbn [spec_txs]. unfold spec_tx.
  assert (exists st1, (if negb (w32 (l_txcounter v) =? 142783) && negb (w32 (l_txcounter v) =? 142841)
     then TransactionProcess (tx_of bn (l_txNum v) (l_txcounter v) tm t) (l_state v)
     else Some (l_state v)) = Some st1 /\ sim L1 st1) as (st1 & Hrun & Hs1).
  { destruct (_ && _); [by apply (sim_tx_step L)|]. injection HL1 as <-. eauto. }
  cbn zeta. cbn [tx_of txcounter] in *. rewrite Hrun. cbn [mbind option_bind].
  edestruct IH as (v' & -> & Hs' & Hk & Hr); [exact Hs1|exact HL|]. cbn [l_txcounter l_reward l_txNum] in *.
  exists v'. split; [done|]. split; [done|]. split; [cbn [length]; lia|].
  intros H. apply Hr. left. destruct (Z.eqb_spec (l_txNum v) 0) as [E|E].
  - eexists. split; [done|]. unfold block_reward. destruct (_ <? _); apply is64_w64.
  - destruct H as [H|[H _]]; [exact H|lia].
Qed.

(** The record of a block. *)
Definition block_row (blk : Block) : blk_row :=
  {| b_hash := reverse (curhash blk); b_blknum := blocknumber blk; b_size := Blocksize (Head blk);
     b_trans_count := trans_count blk; b_time := getTimeString (timeStamp (Head blk));
     b_difficulty := difficulty (bits (Head blk)); b_reward := blockReward blk |}.

Lemma BlockProcess_spec blk st :
  bytes (curhash blk) -> is32 (timeStamp (Head blk)) ->
  Forall (Z.le 0) [blocknumber blk; Blocksize (Head blk); trans_count blk; blockReward blk] ->
  Forall (fun r => b_hash r <> reverse (curhash blk)) (blkinfo (tables (st_conn st))) ->
  exists conn', BlockProcess difficulty blk st
    = Some {| st_g := st_g st; st_conn := conn'; st_db := st_db st |}
    /\ tables conn' = set_blkinfo (blkinfo (tables (st_conn st)) ++ [block_row blk])
                        (tables (st_conn st)).
Proof.
  intros Hh Ht Hn Hf. unfold BlockProcess. eexists. split; [reflexivity|].
  match goal with |- context [mysql_query _ ?x] =>
    rewrite (query_tables _ x (InsertBlk (block_row blk)) eq_refl) end; [done|].
  split; [|done]. split; [|split]; cbn.
  - unfold bytes. by rewrite Forall_reverse.
  - by apply arg_getTimeString.
  - repeat (apply Forall_cons_1 in Hn as [? Hn]). pose proof (difficulty_is64 (bits (Head blk))) as [? _].
    by repeat constructor.
Qed.

Lemma inv_blkinfo l st conn :
  inv st -> tables conn = set_blkinfo l (tables (st_conn st)) ->
  inv {| st_g := st_g st; st_conn := conn; st_db := st_db st |}.
Proof.
  intros [[E1 E2 E3] H2 H3 H4 H5] Hc. split; cbn; rewrite ?Hc; try done.
Qed.

Lemma sim_block L st b bn r :
  sim L st -> block_ok b -> block_id b ∉ L_blocks L -> 0 <= bn -> 0 <= r ->
  exists st', BlockProcess difficulty
      {| Head := header_of b; trans_count := Z.of_nat (length (rb_txs b));
         curhash := sha256d (ser_head b); blocknumber := bn; blockReward := r |} st = Some st'
    /\ sim {| L_outs := L_outs L; L_bal := L_bal L; L_blocks := block_id b :: L_blocks L;
              L_count := L_count L |} st'.
Proof.
  intros Hs Hb Hnew Hbn Hr. pose proof (length_ser_head b Hb) as Hlen.
  destruct (sha256d_digest (ser_head b) (bytes_ser_head b Hb)) as [_ Hd]; [lia|].
  set (blk := {| Head := header_of b |}). destruct (BlockProcess_spec blk st) as (conn' & -> & Ht).
  - exact Hd.
  - apply (bo_nums _ Hb).
  - repeat constructor; cbn; try done; unfold block_size; lia.
  - eapply Forall_impl; [exact (sim_blk _ _ Hs)|]. intros r' Hin E. apply Hnew.
    change (block_id b) with (reverse (curhash blk)). by rewrite <- E.
  - eexists. split; [reflexivity|]. split; cbn [st_conn st_db st_g L_outs L_bal L_blocks L_count];
      rewrite ?Ht; try apply Hs.
    + apply (inv_blkinfo _ _ _ (sim_inv _ _ Hs) Ht).
    + cbn. apply Forall_app. split; [|constructor; [|constructor]; by left].
      eapply Forall_impl; [exact (sim_blk _ _ Hs)|]. intros r' Hin. by right.
Qed.

Lemma block_txs_sized b : block_ok b -> Forall tx_sized (rb_txs b).
Proof.
  intros Hb. pose proof (bo_size _ Hb) as Hsz. unfold block_size, ser_txs, ser_list in Hsz.
  rewrite length_app in Hsz.
  assert (forall ts : list raw_tx, Forall raw_tx_ok ts ->
    Z.of_nat (length (flat_map ser_tx ts)) < 0x1_0000_0000 -> Forall tx_sized ts) as H.
  { induction 1 as [|t ts Ht Hts IH]; intros Hl; [constructor|]. cbn [flat_map] in Hl.
    rewrite length_app in Hl. constructor; [split; [done|lia]|]. apply IH. lia. }
  apply H; [apply (bo_txs _ Hb)|lia].
Qed.

(** What the ledger accepts is in the range of the variables. *)
Lemma ledger_txs_fit k ts L L' : ledger_txs k ts L = Some L' -> ts <> [] -> k + Z.of_nat (length ts) <= INT_MAX.
Proof.
  revert k L. induction ts as [|t ts IH]; intros k L H Hne; [done|]. cbn [ledger_txs] in H.
  destruct (Z.ltb_spec k INT_MAX); [|discriminate]. apply bind_Some in H as (L1 & _ & H). cbn [length].
  destruct ts as [|t' ts]; [cbn; lia|]. specialize (IH _ _ H ltac:(done)). lia.
Qed.
Lemma ledger_blocks_fit stop k bs L r :
  ledger_blocks stop k bs L = Some r -> - 2 ^ 31 <= fst k -> - 2 ^ 31 <= snd k -> fits stop (fst k) (snd k) bs.
Proof.
  revert k L. induction bs as [|b bs IH]; intros [n k] L H Hn Hk; [done|]. cbn [ledger_blocks fits fst snd] in *.
  destruct (Z.ltb_spec n INT_MAX); [|discriminate]. split; [lia|]. intros Ht.
  destruct (Z.ltb_spec stop (rb_time b)); [lia|]. apply bind_Some in H as (L1 & HL & H). unfold ledger_block in HL.
  apply bind_Some in HL as (L0 & HL & Hc). destruct (_ && _) eqn:E in Hc; [|discriminate].
  apply andb_true_iff in E as [Hne%bool_decide_eq_true _].
  split_and!; [done|by apply (ledger_txs_fit _ _ _ _ HL)|]. apply (IH _ _ H); cbn; lia.
Qed.

Lemma ledger_blocks_mono stop k bs L stopped k' L' :
  ledger_blocks stop k bs L = Some (stopped, k', L') -> fst k <= fst k' /\ snd k <= snd k'.
Proof.
  revert k L. induction bs as [|b bs IH]; intros k L H; [injection H as <- <- <-; lia|]. cbn [ledger_blocks] in H.
  destruct (_ <? INT_MAX); [|discriminate]. destruct (_ <? _); [injection H as <- <- <-; lia|].
  apply bind_Some in H as (L1 & _ & H). apply IH in H. cbn [fst snd] in H. lia.
Qed.

(** The numbers after a run over blocks: the one that stopped it was counted. *)
Definition nums (stopped : bool) (c : cursor state) : Z * Z := (c_blocknum c - Z.b2z stopped, c_txcounter c).

(** The blocks of a file. *)
Lemma sim_blocks_step stop bs c L stopped k L' :
  Forall block_ok bs -> sim L (c_state c) ->
  ledger_blocks stop (nums false c) bs L = Some (stopped, k, L') ->
  exists c', spec_blocks TransactionProcess (BlockProcess difficulty) stop c bs = Some (stopped, c')
    /\ sim L' (c_state c') /\ nums stopped c' = k /\ c_file c' = c_file c.
Proof.
  intros Hbs. revert c L. induction Hbs as [|b bs Hb Hbs IH]; intros c L Hs HL.
  { cbn in HL. injection HL as <- <- <-. exists c. by cbn. }
  cbn [ledger_blocks] in HL. cbn [spec_blocks]. unfold spec_block. cbn zeta.
  destruct (_ <? INT_MAX) in HL; [|discriminate]. destruct (stop <? rb_time b).
  { injection HL as <- <- <-. eexists. split; [reflexivity|]. split_and!; [done| |done]. unfold nums. cbn. f_equal. lia. }
  apply bind_Some in HL as (L1 & HL1 & HL). unfold ledger_block in HL1.
  apply bind_Some in HL1 as (L0 & HL0 & HL1). destruct (_ && _) eqn:Hc in HL1; [|done].
  apply Some_inj in HL1 as <-. rewrite andb_true_iff, !bool_decide_eq_true in Hc.
  destruct Hc as [Hne Hnew]. pose proof (is32_w32 (c_blocknum c)) as [Hbn _].
  match goal with |- context [spec_txs _ _ _ ?v0 _] =>
    destruct (sim_txs_step (rb_txs b) (w32 (c_blocknum c)) (rb_time b) v0 L L0)
      as (v & Hv & Hs0 & Hk & Hr);
    [by apply block_txs_sized|apply (bo_nums _ Hb)|exact Hbn|exact Hs|exact HL0|] end.
  rewrite Hv. cbn [mbind option_bind].
  destruct Hr as (r & Er & Hr); [by right|]. rewrite Er. cbn [mbind option_bind].
  destruct (sim_block L0 (l_state v) b (w32 (c_blocknum c)) r Hs0 Hb Hnew Hbn Hr) as (st' & -> & Hs').
  cbn [mbind option_bind]. cbn [l_txcounter] in Hk.
  match goal with |- context [spec_blocks _ _ _ ?c1 bs] =>
    destruct (IH c1 _ Hs') as (c' & Hrun & Hsim & Hk' & Hf) end.
  - unfold nums in *. cbn [c_blocknum c_txcounter fst snd Z.b2z] in *. rewrite Hk, Z.sub_0_r. by rewrite Z.sub_0_r in HL.
  - exists c'. rewrite Hrun. split_and!; [done|done|done|]. by rewrite Hf.
Qed.

(** ** Where a run stops *)

(** The number of blocks before the first one after the stop time. *)
Fixpoint until (stop : Z) (bs : list raw_block) : nat :=
  match bs with
  | [] => 0
  | b :: bs' => if stop <? rb_time b then 0 else S (until stop bs')
  end.

Lemma spec_blocks_until stop bs c stopped c' :
  spec_blocks TransactionProcess (BlockProcess difficulty) stop c bs = Some (stopped, c') ->
  c_pos c' = c_pos c + Z.of_nat (length (flat_map ser_block (take (until stop bs) bs))).
Proof.
  revert c. induction bs as [|b bs IH]; intros c H.
  { cbn in H. injection H as <- <-. cbn. lia. }
  cbn [spec_blocks] in H. apply bind_Some in H as ([stop1 c1] & Hb & H). cbn [until].
  destruct (stop <? rb_time b) eqn:Et.
  - unfold spec_block in Hb. rewrite Et in Hb. injection Hb as <- <-. injection H as <- <-. cbn. lia.
  - assert (stop1 = false) as ->.
    { unfold spec_block in Hb. rewrite Et in Hb. apply bind_Some in Hb as (v & _ & Hb).
      apply bind_Some in Hb as (r & _ & Hb). apply bind_Some in Hb as (st & _ & Hb).
      by injection Hb as <- _. }
    cbn [take flat_map]. rewrite length_app, (IH c1 H), (spec_block_pos _ _ _ _ _ _ Hb). lia.
Qed.

(** A later stop time goes on where the earlier one stopped. *)
Lemma ledger_blocks_until t1 t2 k bs L stopped k1 L1 :
  t1 <= t2 -> ledger_blocks t1 k bs L = Some (stopped, k1, L1) ->
  ledger_blocks t2 k bs L = ledger_blocks t2 k1 (drop (until t1 bs) bs) L1
  /\ (stopped = false -> drop (until t1 bs) bs = []).
Proof.
  intros Ht. revert k L. induction bs as [|b bs IH]; intros k L H.
  { cbn in H. by injection H as <- <- <-. }
  cbn [ledger_blocks until] in *. destruct (_ <? INT_MAX) eqn:En; [|discriminate]. destruct (Z.ltb_spec t1 (rb_time b)).
  { injection H as <- <- <-. cbn [drop ledger_blocks]. by rewrite En. }
  apply bind_Some in H as (L0 & HL & H). destruct (IH _ _ H) as [E Hd].
  rewrite skipn_cons, <- E. destruct (Z.ltb_spec t2 (rb_time b)); [lia|]. by rewrite HL.
Qed.

Lemma ledger_blocks_earlier t1 t2 k bs L r :
  t1 <= t2 -> ledger_blocks t2 k bs L = Some r -> exists r1, ledger_blocks t1 k bs L = Some r1.
Proof.
  intros Ht. revert k L. induction bs as [|b bs IH]; intros k L H; [cbn; eauto|].
  cbn [ledger_blocks] in *. destruct (_ <? INT_MAX); [|discriminate]. destruct (Z.ltb_spec t1 (rb_time b)); [eauto|].
  destruct (Z.ltb_spec t2 (rb_time b)); [lia|].
  apply bind_Some in H as (L0 & -> & H). cbn [mbind option_bind]. by apply (IH _ _ H).
Qed.

Lemma ledger_files_earlier t1 t2 n i k chain L L2 :
  t1 <= t2 -> ledger_files n i t2 k chain L = Some L2 -> exists L1, ledger_files n i t1 k chain L = Some L1.
Proof.
  intros Ht. revert i k L. induction n as [|n IH]; intros i k L H; [cbn; eauto|].
  cbn [ledger_files] in *. apply bind_Some in H as (r & H2 & H).
  destruct (ledger_blocks_earlier _ _ _ _ _ _ Ht H2) as ([[[] k1] L1] & H1); rewrite H1;
    cbn [mbind option_bind]; [eauto|].
  destruct (ledger_blocks_until _ _ _ _ _ _ _ _ Ht H1) as [E Hd].
  rewrite E, Hd in H2 by done. cbn in H2. injection H2 as <-. by apply (IH _ _ _ H).
Qed.

(** The files hold the chain: a file is the serialization of its blocks, of less than
    2 GB, and a missing file holds none. *)
Definition holds_chain (files : Z -> option (list Z)) (chain : Z -> list raw_block) (i : Z) : Prop :=
  Forall block_ok (chain i)
  /\ match files i with
     | Some f => f = flat_map ser_block (chain i) /\ Z.of_nat (length f) <= INT_MAX
     | None => chain i = []
     end.

(** As before, but file [i] is read from a position, where a block begins or the
    file ends. *)
Definition holds_from (files : Z -> option (list Z)) (chain : Z -> list raw_block) (i pos : Z) : Prop :=
  Forall block_ok (chain i)
  /\ match files i with
     | Some f => Z.of_nat (length f) <= INT_MAX
         /\ exists pre, f = pre ++ flat_map ser_block (chain i) /\ pos = Z.of_nat (length pre)
     | None => chain i = []
     end
  /\ forall j, i < j -> holds_chain files chain j.

Lemma holds_next files chain i pos : holds_from files chain i pos -> holds_from files chain (i + 1) 0.
Proof.
  intros (_ & _ & H). destruct (H (i + 1) ltac:(lia)) as [Hok Hf]. split; [done|]. split.
  - destruct (files (i + 1)) as [f|]; [|done]. destruct Hf as [-> Hl]. split; [done|]. by exists [].
  - intros j Hj. apply H. lia.
Qed.

(** What is left of the chain from file [i] on after a run. *)
Definition rest_of (stop i : Z) (chain : Z -> list raw_block) (j : Z) : list raw_block :=
  if j =? i then drop (until stop (chain i)) (chain i) else chain j.

Lemma ledger_files_agree n i t k chain chain' L :
  (forall j, i <= j -> chain j = chain' j) -> ledger_files n i t k chain L = ledger_files n i t k chain' L.
Proof.
  revert i k L. induction n as [|n IH]; intros i k L H; [done|]. cbn [ledger_files].
  rewrite (H i) by lia. destruct (ledger_blocks t k (chain' i) L) as [[[[] k1] L1]|]; [done| |done].
  cbn. apply IH. intros j Hj. apply H. lia.
Qed.

Lemma run_file_chain stop pre bs c L stopped k L' :
  Forall block_ok bs -> c_pos c = Z.of_nat (length pre) -> Z.of_nat (length (pre ++ flat_map ser_block bs)) <= INT_MAX ->
  - 2 ^ 31 <= c_blocknum c -> - 2 ^ 31 <= c_txcounter c -> sim L (c_state c) ->
  ledger_blocks stop (nums false c) bs L = Some (stopped, k, L') ->
  exists c', run_file TransactionProcess (BlockProcess difficulty) stop (pre ++ flat_map ser_block bs) c
             = Some (stopped, c')
    /\ sim L' (c_state c') /\ nums stopped c' = k /\ c_file c' = c_file c
    /\ c_pos c' = c_pos c + Z.of_nat (length (flat_map ser_block (take (until stop bs) bs))).
Proof.
  intros Hbs Hp Hl Hn Hk0 Hs HL. unfold run_file. rewrite (file_loop_spec _ _ stop bs pre); [|done|done| |done|].
  - destruct (sim_blocks_step stop bs c L stopped k L' Hbs Hs HL) as (c' & Hc & Hs' & Hk & Hf).
    exists c'. split_and!; try done. by apply (spec_blocks_until _ _ _ stopped).
  - pose proof (length_flat_ser_block bs Hbs). rewrite length_app. lia.
  - apply ledger_blocks_fit in HL; unfold nums in *; cbn [fst snd Z.b2z] in *; [|lia..]. by rewrite Z.sub_0_r in HL.
Qed.

(** One file, from a position. *)
Lemma file_chain stop files chain pos c L stopped k L' :
  holds_from files chain (c_file c) pos -> - 2 ^ 31 <= c_blocknum c -> - 2 ^ 31 <= c_txcounter c -> sim L (c_state c) ->
  ledger_blocks stop (nums false c) (chain (c_file c)) L = Some (stopped, k, L') ->
  exists c', (match files (c_file c) with
      | Some file => run_file TransactionProcess (BlockProcess difficulty) stop file (at_file (c_file c) pos c)
      | None => Some (false, at_file (c_file c) pos c) end) = Some (stopped, c')
    /\ sim L' (c_state c') /\ nums stopped c' = k /\ c_file c' = c_file c
    /\ holds_from files (rest_of stop (c_file c) chain) (c_file c') (c_pos c').
Proof.
  intros (Hok & Hf & Hnext) Hn Hk0 Hs HL.
  assert (forall i, c_file c < i -> holds_chain files (rest_of stop (c_file c) chain) i) as Hrest.
  { intros i Hi. unfold holds_chain, rest_of. destruct (Z.eqb_spec i (c_file c)); [lia|by apply Hnext]. }
  unfold holds_from. destruct (files (c_file c)) as [file|] eqn:Efile.
  - destruct Hf as (Hl & pre & -> & ->).
    destruct (run_file_chain stop pre (chain (c_file c)) (at_file (c_file c) (Z.of_nat (length pre)) c)
      L stopped k L' Hok eq_refl Hl Hn Hk0 Hs HL) as (c' & Hrun & Hs' & Hk & Hfile & Hpos).
    exists c'. cbn [at_file c_file c_pos] in Hfile, Hpos. rewrite Hfile, Efile.
    split_and!; try done; unfold rest_of; rewrite Z.eqb_refl; [by apply Forall_drop|].
    exists (pre ++ flat_map ser_block (take (until stop (chain (c_file c))) (chain (c_file c)))).
    rewrite <- app_assoc, <- flat_map_app, take_drop, length_app. split; [done|lia].
  - rewrite Hf in HL. cbn in HL. injection HL as <- <- <-. eexists. split; [reflexivity|].
    cbn [at_file c_file c_state c_txcounter]. rewrite Efile.
    split_and!; try done; unfold rest_of; by rewrite Z.eqb_refl, Hf.
Qed.

(** A run over the files ends in a state of the ledger, at a position from which a
    run with a later stop time goes on. *)
Lemma files_loop_chain n stop files chain pos c L L' :
  n = Z.to_nat (218 - c_file c) -> (c_file c < 218 -> holds_from files chain (c_file c) pos) ->
  - 2 ^ 31 <= c_blocknum c -> - 2 ^ 31 <= c_txcounter c ->
  sim L (c_state c) -> ledger_files n (c_file c) stop (nums false c) chain L = Some L' ->
  exists stopped c' chain',
    files_loop TransactionProcess (BlockProcess difficulty) n stop files pos c = Some (stopped, c')
    /\ sim L' (c_state c')
    /\ (c_file c' < 218 -> holds_from files chain' (c_file c') (c_pos c'))
    /\ c_file c <= c_file c' <= Z.max (c_file c) 218
    /\ c_blocknum c <= c_blocknum c' - Z.b2z stopped /\ c_txcounter c <= c_txcounter c'
    /\ forall t, stop <= t -> ledger_files n (c_file c) t (nums false c) chain L
         = ledger_files (Z.to_nat (218 - c_file c')) (c_file c') t (nums true c') chain' L'.
Proof.
  revert chain pos c L. induction n as [|n IH]; intros chain pos c L Hn Hch Hb0 Hk0 Hs HL.
  { cbn in HL. injection HL as <-. exists false, c, chain. rewrite <- Hn. cbn [Z.b2z]. split_and!; try done; lia. }
  cbn [ledger_files] in HL. apply bind_Some in HL as ([[stopped k] L1] & HL1 & HL).
  cbn [files_loop at_file c_file]. specialize (Hch ltac:(lia)).
  destruct (file_chain stop files chain pos c L stopped k L1 Hch Hb0 Hk0 Hs HL1)
    as (c1 & Hrun & Hs1 & Hk & Hfile & Hrest).
  change ({| c_file := c_file c; c_pos := pos; c_blocknum := c_blocknum c; c_txcounter := c_txcounter c;
             c_log := c_log c; c_state := c_state c |}) with (at_file (c_file c) pos c).
  rewrite Hrun. cbn [mbind option_bind].
  pose proof (ledger_blocks_mono _ _ _ _ _ _ _ HL1) as [Hmb Hmk]. rewrite <- Hk in Hmb, Hmk. unfold nums in Hmb, Hmk. cbn [fst snd] in Hmb, Hmk.
  change (Z.b2z false) with 0 in Hmb. rewrite Z.sub_0_r in Hmb.
  set (chain1 := rest_of stop (c_file c) chain) in *.
  assert (forall j, c_file c + 1 <= j -> chain j = chain1 j) as Hsame.
  { intros j Hj. unfold chain1, rest_of. destruct (Z.eqb_spec j (c_file c)); [lia|done]. }
  assert (chain1 (c_file c) = drop (until stop (chain (c_file c))) (chain (c_file c))) as Hcur
    by (unfold chain1, rest_of; by rewrite Z.eqb_refl).
  destruct stopped.
  - injection HL as <-. exists true, c1, chain1. rewrite Hfile. split_and!; [done|done|by rewrite Hfile in Hrest|lia|lia|lia|lia|]. intros t Ht.
    rewrite <- Hn. cbn [ledger_files].
    rewrite (proj1 (ledger_blocks_until _ t _ _ _ _ _ _ Ht HL1)), Hcur, Hk.
    destruct (ledger_blocks t k _ L1) as [[[[] k2] L2]|]; [done| |done].
    cbn. by apply ledger_files_agree.
  - change (Z.b2z false) with 0 in Hmb. rewrite Z.sub_0_r in Hmb.
    destruct (IH chain1 0 (at_file (c_file c1 + 1) (c_pos c1) c1) L1) as (st2 & c2 & ch2 & H2 & Hs2 & Hr2 & Hf2 & Hb2 & Hk2 & Hl2);
      cbn [at_file c_file c_state c_txcounter c_blocknum]; [rewrite Hfile; lia|intros _; by apply (holds_next _ _ _ _ Hrest)
      |lia|lia|exact Hs1|change (nums false (at_file _ _ c1)) with (nums false c1); rewrite Hk, Hfile, <- (ledger_files_agree _ _ _ _ _ _ _ Hsame); exact HL|].
    cbn [at_file c_file c_txcounter c_blocknum] in Hf2, Hb2, Hk2, Hl2.
    exists st2, c2, ch2. split_and!; try done; try lia. intros t Ht. rewrite <- Hl2 by done.
    cbn [ledger_files]. change (nums false (at_file _ _ c1)) with (nums false c1).
    destruct (ledger_blocks_until _ t _ _ _ _ _ _ Ht HL1) as [-> Hd]. rewrite Hd by done.
    cbn [ledger_blocks mbind option_bind]. rewrite Hk, Hfile. by apply ledger_files_agree.
Qed.

(** Recomputing the entities leaves the databases in step. *)
Lemma sim_update L st :
  sim L st ->
  sim L {| st_g := fst (update_entity_mysql (st_g st) (st_conn st));
           st_conn := snd (update_entity_mysql (st_g st) (st_conn st)); st_db := st_db st |}.
Proof.
  intros Hs. destruct (sim_inv _ _ Hs) as [[E1 E2 E3] H2 H3 H4 H5].
  pose proof (update_entity_tables (st_g st) (st_conn st) H4) as Ht.
  split; cbn [st_g st_conn st_db]; try (rewrite Ht; apply Hs); try apply Hs.
  split; cbn [st_g st_conn st_db]; try (rewrite Ht; done); [|constructor].
  rewrite Ht. split; [exact E1|exact E2|].
  intros e. rewrite lookup_refreshed, fmap_is_Some. apply E3.
Qed.

(** The files hold the chain from where the parameters say. *)
Definition holds_chain_from (files : Z -> option (list Z)) (chain : Z -> list raw_block) (p : params)
    : Prop :=
  BLKFILE p < 218 -> holds_from files chain (BLKFILE p) (BLKPOS p).

(** The ledger after the blocks from there up to the stop time. *)
Definition ledger_from (p : params) (stop : Z) (chain : Z -> list raw_block) (L : ledger)
    : option ledger :=
  ledger_files (Z.to_nat (218 - BLKFILE p)) (BLKFILE p) stop (BLOCKNUM p + 1, TXCOUNTER p + 1) chain L.

(** Parameters with which a run can start, and those that it leaves for the next one. *)
Record params_ok (p : params) : Prop := {
  po_pos : 0 <= BLKPOS p <= INT_MAX;
  po_block : - 2 ^ 31 < BLOCKNUM p < INT_MAX;
  po_tx : - 2 ^ 31 <= TXCOUNTER p < INT_MAX }.
Record params_next (p p' : params) : Prop := {
  pn_file : BLKFILE p <= BLKFILE p' <= Z.max (BLKFILE p) 218;
  pn_pos : 0 <= BLKPOS p' <= INT_MAX;
  pn_block : BLOCKNUM p - 1 <= BLOCKNUM p' < INT_MAX;
  pn_tx : TXCOUNTER p <= TXCOUNTER p' < INT_MAX }.

Lemma walk_spec stop files chain p st L L' :
  params_ok p -> holds_chain_from files chain p -> sim L st -> ledger_from p stop chain L = Some L' ->
  exists stopped c' chain', walk TransactionProcess (BlockProcess difficulty) stop files p [] st = Some (stopped, c')
    /\ sim L' (c_state c') /\ holds_chain_from files chain' (saved c') /\ params_next p (saved c')
    /\ forall t, stop <= t -> ledger_from p t chain L = ledger_from (saved c') t chain' L'.
Proof.
  intros [Hpos Hbn Htx] Hch Hs HL. unfold walk, start. rewrite !as_int_Some by lia. cbn [mbind option_bind].
  set (c0 := {| c_file := BLKFILE p |}). assert (nums false c0 = (BLOCKNUM p + 1, TXCOUNTER p + 1)) as E0 by (unfold nums; cbn; f_equal; lia).
  unfold ledger_from in HL |- *. rewrite <- E0 in HL |- *.
  destruct (files_loop_chain (Z.to_nat (218 - BLKFILE p)) stop files chain (BLKPOS p) c0 L L' eq_refl Hch)
    as (stopped & c' & chain' & Hrun & Hs' & Hrest & Hf & Hb & Hk & Hlater); [cbn; lia|cbn; lia|exact Hs|exact HL|].
  exists stopped, c', chain'. split_and!; [exact Hrun|exact Hs'|exact Hrest| |].
  - pose proof (files_loop_nonneg _ _ _ _ _ _ _ _ _ Hrun ltac:(lia) ltac:(cbn; lia)) as Hp0.
    apply files_loop_ints in Hrun; [|lia|unfold ints, INT_MAX in *; cbn; lia]. unfold ints in Hrun. cbn [c0 c_file c_blocknum c_txcounter] in Hf, Hb, Hk.
    destruct stopped; cbn [uncount c_pos c_blocknum c_txcounter Z.b2z] in *; split; cbn [saved BLKFILE BLKPOS BLOCKNUM TXCOUNTER]; lia.
  - intros t Ht. etransitivity; [exact (Hlater t Ht)|]. cbn [saved BLKFILE BLOCKNUM TXCOUNTER]. unfold nums. cbn [Z.b2z]. do 2 f_equal; lia.
Qed.

Lemma unzipBlocks_spec stop files chain p st L L' :
  params_ok p -> holds_chain_from files chain p -> sim L st -> ledger_from p stop chain L = Some L' ->
  exists p' log st' chain', unzipBlocks difficulty stop files p (entitycnt (st_g st)) st
                     = Some (p', entitycnt (st_g st'), log, st')
    /\ sim L' st' /\ holds_chain_from files chain' p' /\ params_next p p'
    /\ forall t, stop <= t -> ledger_from p t chain L = ledger_from p' t chain' L'.
Proof.
  intros Hp Hch Hs HL. unfold unzipBlocks.
  assert ({| st_g := set_entitycnt (entitycnt (st_g st)) (st_g st); st_conn := st_conn st;
             st_db := st_db st |} = st) as -> by (by destruct st as [[] ? ?]).
  destruct (walk_spec stop files chain p st L L' Hp Hch Hs HL) as (stopped & c' & chain' & -> & Hs' & Hrest & Hn & Hlater).
  cbn [mbind option_bind]. pose proof (sim_update L' (c_state c') Hs') as Hu.
  destruct (update_entity_mysql (st_g (c_state c')) (st_conn (c_state c'))) as [g conn].
  cbn [fst snd] in Hu. destruct Hp as [_ Hb0 Ht0]. pose proof Hn as [_ _ Hb Ht]. cbn [saved BLOCKNUM TXCOUNTER] in Hb, Ht.
  rewrite !as_int_Some by lia. cbn [mbind option_bind].
  exists (saved c'), (c_log c'), {| st_g := g; st_conn := conn; st_db := st_db (c_state c') |}, chain'.
  by split_and!.
Qed.

(** ** Results *)

(** C2: a run over a valid chain.  When the files hold a chain that the ledger
    accepts (every input names the block reward or an output of an earlier
    transaction, hashes are new, counters fit their width), from the position of
    the parameters on, in files below 2 GB, and the databases are in step with the
    ledger before the run, then [unzipBlocks] succeeds, and afterwards they are in step with the
    ledger after the blocks up to the stop time: the stored outputs and the
    balances are those of the ledger, and the invariant of the tables holds.  The
    parameters that it returns are a place in the files from which a rest of the
    chain is left, such that going on from there gives what the whole chain
    gives, for every later stop time; they are in the range of their variables. *)
Theorem unzipBlocks_chain stop files chain p st L L' :
  params_ok p -> holds_chain_from files chain p -> sim L st -> ledger_from p stop chain L = Some L' ->
  exists p' log st' chain', unzipBlocks difficulty stop files p (entitycnt (st_g st)) st
                     = Some (p', entitycnt (st_g st'), log, st')
    /\ sim L' st' /\ holds_chain_from files chain' p' /\ params_next p p'
    /\ forall t, stop <= t -> ledger_from p t chain L = ledger_from p' t chain' L'.
Proof. apply unzipBlocks_spec. Qed.

(** The record of a block: [BlockProcess] appends to [blkinfo] the hash in
    display order, the number, size, number of transactions, time, difficulty
    and reward of the block, and changes nothing else. *)
Theorem BlockProcess_record blk st :
  bytes (curhash blk) -> is32 (timeStamp (Head blk)) ->
  Forall (Z.le 0) [blocknumber blk; Blocksize (Head blk); trans_count blk; blockReward blk] ->
  Forall (fun r => b_hash r <> reverse (curhash blk)) (blkinfo (tables (st_conn st))) ->
  exists conn', BlockProcess difficulty blk st
    = Some {| st_g := st_g st; st_conn := conn'; st_db := st_db st |}
    /\ tables conn' = set_blkinfo (blkinfo (tables (st_conn st)) ++ [block_row blk])
                        (tables (st_conn st)).
Proof. apply BlockProcess_spec. Qed.
End chain.

(** ** A chain of one block with a payment from its reward *)

Definition first_tx : raw_tx :=
  {| rt_ver := 1;
     rt_ins := [{| ri_hash := coinbase_b; ri_index := 0xffff_ffff; ri_script := [4; 1]; ri_seq := 0 |}];
     rt_outs := [{| ro_val := 5000000000; ro_script := p2pkh (replicate 20 0x11) |}];
     rt_lock_time := 0 |}.
Definition second_tx : raw_tx :=
  {| rt_ver := 1;
     rt_ins := [{| ri_hash := sha256d (ser_tx first_tx); ri_index := 0; ri_script := []; ri_seq := 0 |}];
     rt_outs := [{| ro_val := 4000000000; ro_script := p2pkh (replicate 20 0x22) |};
                 {| ro_val := 1000000000; ro_script := p2pkh (replicate 20 0x11) |}];
     rt_lock_time := 0 |}.
Definition first_block : raw_block :=
  {| rb_magic := 0xd9b4_bef9; rb_version := 1; rb_prev := replicate 32 0; rb_merk := replicate 32 6;
     rb_time := 1231006505; rb_bits := 0x1d00_ffff; rb_nonce := 77; rb_txs := [first_tx; second_tx] |}.
Definition one_block_chain (i : Z) : list raw_block := if i =? 0 then [first_block] else [].
Definition one_block_files (i : Z) : option (list Z) :=
  if i =? 0 then Some (ser_block first_block) else None.
Definition first_params : params := {| BLKFILE := 0; BLKPOS := 0; BLOCKNUM := -1; TXCOUNTER := -1 |}.
Definition empty_ledger : ledger := {| L_outs := ∅; L_bal := ∅; L_blocks := []; L_count := 0 |}.

Lemma bytes_dec l : forallb (fun b => (0 <=? b) && (b <? 256)) l = true -> bytes l.
Proof.
  rewrite forallb_forall. intros H. apply Forall_forall. intros b Hb%list_elem_of_In.
  specialize (H b Hb). apply andb_true_iff in H as [H1%Z.leb_le H2%Z.ltb_lt]. unfold is8. lia.
Qed.

Lemma first_block_ok : block_ok first_block.
Proof.
  split; cbn [first_block rb_magic rb_version rb_time rb_bits rb_nonce rb_prev rb_merk rb_txs].
  - unfold is32. lia.
  - split; [by apply bytes_dec|reflexivity].
  - split; [by apply bytes_dec|reflexivity].
  - assert (bytes (sha256d (ser_tx first_tx)) /\ length (sha256d (ser_tx first_tx)) = 32%nat) as [H1 H2].
    { split; [apply bytes_dec|]; vm_compute; reflexivity. }
    assert (forall s, forallb (fun b => (0 <=? b) && (b <? 256)) s = true -> (length s < 100)%nat ->
      script_ok s) as Hsc.
    { intros s Hs Hl. split; [by apply bytes_dec|unfold is32; lia]. }
    unfold second_tx. revert H1 H2. generalize (sha256d (ser_tx first_tx)). intros h H1 H2.
    unfold first_tx, raw_tx_ok, raw_in_ok, raw_out_ok, is32, is64.
    repeat constructor; cbn [rt_ver rt_ins rt_outs rt_lock_time ri_hash ri_index ri_seq ri_script
      ro_val ro_script length]; try lia; try done; try (apply Hsc; [reflexivity|cbn; lia]);
      by apply bytes_dec.
  - vm_compute. reflexivity.
Qed.

Lemma first_params_ok : params_ok first_params.
Proof. split; cbn; unfold INT_MAX; lia. Qed.
Lemma first_block_short : Z.of_nat (length (ser_block first_block)) <= INT_MAX.
Proof. apply Z.leb_le. vm_compute. reflexivity. Qed.

Lemma one_block_holds : holds_chain_from one_block_files one_block_chain first_params.
Proof.
  intros _. split; [constructor; [exact first_block_ok|constructor]|]. split.
  - split; [exact first_block_short|]. exists []. split; [|reflexivity].
    change (one_block_chain (BLKFILE first_params)) with [first_block]. symmetry. exact (app_nil_r (ser_block first_block)).
  - intros i Hi. unfold holds_chain, one_block_chain, one_block_files. cbn in Hi.
    destruct (Z.eqb_spec i 0); [lia|]. by split; [constructor|].
Qed.

Lemma st0_sim : sim empty_ledger st0.
Proof.
  split; cbn; try done; try constructor.
  - exact (inv_ent _ st0_inv).
  - exact (inv_assigned _ st0_inv).
  - exact (inv_bal _ st0_inv).
  - exact (inv_changes _ st0_inv).
  - exact (inv_db _ st0_inv).
Qed.

Lemma one_block_ledger :
  exists L', ledger_from first_params 2000000000 one_block_chain empty_ledger = Some L'
    /\ L_bal L' !! replicate 20 0x11 = Some 1000000000
    /\ L_bal L' !! replicate 20 0x22 = Some 4000000000.
Proof. eexists. vm_compute. done. Qed.

Lemma unzipBlocks_chain_witness :
  exists p' log st', unzipBlocks (fun _ => 1) 2000000000 one_block_files first_params 0 st0
                     = Some (p', entitycnt (st_g st'), log, st')
    /\ balances (tables (st_conn st')) !! replicate 20 0x11 = Some 1000000000
    /\ balances (tables (st_conn st')) !! replicate 20 0x22 = Some 4000000000.
Proof.
  destruct one_block_ledger as (L' & HL & H1 & H2).
  destruct (unzipBlocks_chain (fun _ => 1) ltac:(intros; unfold is64; lia) 2000000000 one_block_files
    one_block_chain first_params st0 empty_ledger L' first_params_ok one_block_holds st0_sim HL)
    as (p' & log & st' & _ & Hrun & Hs & _).
  exists p', log, st'. split; [exact Hrun|]. rewrite (sim_bal _ _ Hs).
  split; [exact H1|exact H2].
Defined.

Lemma BlockProcess_record_witness :
  exists conn', BlockProcess (fun _ => 1)
      {| Head := header_of first_block; trans_count := 2; curhash := replicate 32 9; blocknumber := 0;
         blockReward := 0 |} st0
    = Some {| st_g := st_g st0; st_conn := conn'; st_db := st_db st0 |}
    /\ length (blkinfo (tables conn')) = 1%nat.
Proof.
  destruct (BlockProcess_record (fun _ => 1) ltac:(intros; unfold is64; lia)
    {| Head := header_of first_block; trans_count := 2; curhash := replicate 32 9; blocknumber := 0;
       blockReward := 0 |} st0) as (conn' & Hrun & Ht).
  - apply Forall_replicate. unfold is8. lia.
  - cbn. unfold is32. lia.
  - cbn [header_of Blocksize blocknumber trans_count blockReward Head].
    repeat constructor; unfold block_size; lia.
  - constructor.
  - exists conn'. split; [exact Hrun|]. rewrite Ht. reflexivity.
Defined.
