(* ===== verification/Console.v ===== *)
(** * The program: [main] of src/BitcoinAnalysis/console.cpp

    For each month, [main] writes the parameter files, reads the blocks up to the
    end of the month and writes the statistics.  The runs hand their position on
    through the file [1.unzip_0.txt].  Here the files are explicit: [run_unzip]
    is [unzipBlocks] with the reading and writing of its parameters, and
    [months] is the loop of [main].

    Parameters: [mktime] of the C library, the contents of the block files, and
    the text of the current time.  Opening the databases ([start_database]) and
    the log file are left out. *)
From Stdlib Require Import String.
From stdpp Require Import base gmap strings numbers option list.
From S2P Require Import Prelude Ripemd160 Sha256 Block TxParse Sql SqlServer Calendar Entity TxStore Unzip Streams Timerange Report StatTables Statistical.
Local Open Scope string_scope.
Local Open Scope list_scope.
Open Scope Z_scope.

Record tm := {
  tm_year : Z; tm_mon : Z; tm_mday : Z; tm_hour : Z; tm_min : Z; tm_sec : Z; tm_isdst : Z }.

Definition unzip_0 : string := "H:\para\1.unzip_0.txt".

(** The end of the stop date. *)
Definition stoptm (STOPYEAR STOPMON STOPDAY : Z) : tm :=
  {| tm_year := STOPYEAR - 1900; tm_mon := STOPMON - 1; tm_mday := STOPDAY; tm_hour := 23;
     tm_min := 59; tm_sec := 59; tm_isdst := 0 |}.

(** What a run writes for the next one. *)
Definition params_text (p : params) (entitycnt : Z) : string :=
  lines (map sdec [BLKFILE p; BLKPOS p; BLOCKNUM p; TXCOUNTER p; entitycnt]).

(** The variables: [BLKFILE], [BLKPOS] and [entitycnt] are [unsigned int],
    [BLOCKNUM] and [TXCOUNTER] are [int]. *)
Definition in_uint (x : Z) : bool := (0 <=? x) && (x <? 2 ^ 32).
Definition params_fit (p : params) (entitycnt : Z) : bool :=
  in_uint (BLKFILE p) && in_uint (BLKPOS p) && in_int (BLOCKNUM p) && in_int (TXCOUNTER p)
  && in_uint entitycnt.

(** [parameter >> BLKFILE >> BLKPOS >> BLOCKNUM >> TXCOUNTER >> entitycnt]; [None]
    when a number is missing or does not fit its variable. *)
Definition read_params (f : files) : option (params * Z) :=
  s ← f !! unzip_0;
  l ← read_ints 5 s;
  match l with
  | [a; b; c; d; e] =>
      let p := {| BLKFILE := a; BLKPOS := b; BLOCKNUM := c; TXCOUNTER := d |} in
      if params_fit p e then Some (p, e) else None
  | _ => None
  end.

(** [BlockFile.open(blkname[blkfile_num])] *)
Definition block_file (disk : string -> option (list Z)) (n : Z) : option (list Z) :=
  name ← blkname !! Z.to_nat n; disk name.

Section console.
Context `{Sc : Schema} `{My : !MySQL} `{Ldb : LevelDB}.
Context (difficulty : Z -> Z) (mktime : tm -> Z) (disk : string -> option (list Z)).
Context (OStime : nat -> string).

Definition run_unzip (f : files) (st : state) : option (files * list log_event * state) :=
  '(p, entitycnt0) ← read_params f;
  '(STOPYEAR, STOPMON, STOPDAY) ← read_stop f;
  let stop := mktime (stoptm STOPYEAR STOPMON STOPDAY) in
  '(p, entitycnt, log, st) ← unzipBlocks difficulty stop (block_file disk) p entitycnt0 st;
  Some (<[unzip_0 := params_text p entitycnt]> f, log, st).

(** One turn of the loop of [main]. *)
Definition month (para : nat) (f : files) (st : state) : option (files * state) :=
  f ← set_parameter para f;
  '(f, _, st) ← run_unzip f st;
  '(f, conn) ← statistical (OStime para) f (st_conn st);
  Some (f, {| st_g := st_g st; st_conn := conn; st_db := st_db st |}).

Fixpoint months (paras : list nat) (f : files) (st : state) : option (files * state) :=
  match paras with
  | [] => Some (f, st)
  | para :: rest => '(f, st) ← month para f st; months rest f st
  end.

(** [for (para = 20; para < 30; para++)] *)
Definition main (f : files) (st : state) : option (files * state) := months (seq 20 10) f st.

(** ** The parameters survive *)

Lemma read_params_text f p n :
  f !! unzip_0 = Some (params_text p n) ->
  read_params f = if params_fit p n then Some (p, n) else None.
Proof.
  intros Hf. unfold read_params. rewrite Hf. cbn [mbind option_bind].
  pose proof (read_ints_lines [BLKFILE p; BLKPOS p; BLOCKNUM p; TXCOUNTER p; n] "") as H.
  rewrite append_nil_r in H. cbn [length] in H. unfold params_text. rewrite H. by destruct p.
Qed.

(** [statistical] opens three files and writes to no other. *)
Definition report_files (r : string) (path : string) : Prop :=
  path = record_path r \/ path = tx_amount_path \/ path = tx_size_path.

Definition cmd_opens (P : string -> Prop) (c : cmd) : Prop :=
  match c with Open path => P path | _ => True end.

Lemma put_other P s o f o' f' path :
  put s (o, f) = (o', f') -> (forall q, o_file o = Some q -> P q) -> ~ P path ->
  f' !! path = f !! path /\ (forall q, o_file o' = Some q -> P q).
Proof.
  intros H Ho Hn. unfold put in H. destruct (o_fail o); [by injection H as <- <-|].
  destruct (o_file o) as [q|] eqn:E; injection H as <- <-; [|done].
  split; [|by intros q' ->%(eq_trans (eq_sym E)) || (intros q' Hq; apply Ho; congruence)].
  apply lookup_insert_ne. intros ->. by apply Hn, Ho.
Qed.

Lemma run_other P l conn o f conn' o' f' path :
  run l (conn, (o, f)) = Some (conn', (o', f')) -> Forall (cmd_opens P) l ->
  (forall q, o_file o = Some q -> P q) -> ~ P path -> f' !! path = f !! path.
Proof.
  intros H Hl. revert conn o f H. induction Hl as [|c l Hc Hl IH]; intros conn o f H Ho Hn.
  { cbn in H. by injection H as <- <- <-. }
  cbn [run] in H. apply bind_Some in H as ([conn1 [o1 f1]] & Hs & H).
  assert (f1 !! path = f !! path /\ (forall q, o_file o1 = Some q -> P q)) as [E Ho1];
    [|rewrite <- E; by apply (IH conn1 o1 f1)].
  destruct c as [s|q|p|]; cbn [step] in Hs.
  - apply Some_inj, pair_eq in Hs as [_ Hs]. by apply (put_other P s o f).
  - destruct (mysql_query conn q) as [conn2 result]. apply bind_Some in Hs as ([o2 f2] & Hr & Hs).
    apply Some_inj, pair_eq in Hs as [_ Hs]. injection Hs as <- <-. unfold reply in Hr.
    destruct result as [|[|[b|] ?] ?]; try discriminate.
    + apply Some_inj in Hr. injection Hr as <- <-. done.
    + apply bind_Some in Hr as (s & _ & Hr). apply Some_inj in Hr. by apply (put_other P (s +:+ tab) o f).
  - apply Some_inj, pair_eq in Hs as [_ Hs]. unfold open_app in Hs.
    destruct (o_file o) as [q|] eqn:Eo; injection Hs as <- <-.
    + split; [done|]. intros q' Hq. apply Ho. exact Hq.
    + split; [|cbn; intros q' [= <-]; exact Hc]. apply lookup_insert_ne. intros ->. by apply Hn.
  - apply Some_inj, pair_eq in Hs as [_ Hs]. unfold close in Hs. injection Hs as <- <-. done.
Qed.

Lemma asks_opens P qs : Forall (cmd_opens P) (asks qs).
Proof. apply Forall_app. split; [|by repeat constructor]. apply Forall_map, Forall_forall. done. Qed.
Lemma concat_opens P n l : Forall (cmd_opens P) l -> Forall (cmd_opens P) (concat (replicate n l)).
Proof. intros Hl. induction n; [constructor|]. cbn [replicate concat]. by apply Forall_app. Qed.

Lemma script_opens r b a O : Forall (cmd_opens (report_files r)) (script r b a O).
Proof.
  unfold script, section_1, section_2, section_3, section_4, section_5, section_6, section_7, section_8,
    section_9, amount_part, size_part.
  repeat match goal with
    | |- Forall _ (asks _) => apply asks_opens
    | |- Forall _ (_ ++ _) => apply Forall_app; split
    | |- Forall _ (concat (replicate _ _)) => apply concat_opens
    | |- Forall _ (banner _) => repeat constructor
    | |- Forall _ (subtitle _) => repeat constructor
    | |- Forall _ (_ :: _) => constructor
    | |- Forall _ [] => constructor
    end; try done; cbn; unfold report_files; auto.
Qed.

Lemma statistical_other O f conn f' conn' path :
  statistical O f conn = Some (f', conn') ->
  (forall r, ~ report_files r path) -> f' !! path = f !! path.
Proof.
  intros H Hn. unfold statistical in H. destruct (read_time_range f) as [[r b] a].
  apply bind_Some in H as ([conn1 [o1 f1]] & Hr & H). injection H as <- <-.
  apply (run_other (report_files r) _ _ _ _ _ _ _ path Hr (script_opens r b a O)); [done|apply Hn].
Qed.

(** ** The loop without the files in between

    The stop date comes from the tables, and the position and the number of
    entities from the run before; [1.unzip_0.txt] is written and never read. *)
Fixpoint months_direct (paras : list nat) (p : params) (e : Z) (f : files) (st : state)
    : option (params * Z * files * state) :=
  match paras with
  | [] => Some (p, e, f, st)
  | para :: rest =>
      if params_fit p e then
        f ← set_parameter para f;
        year ← YEAR !! para; month ← MONTH !! para; day ← DAY !! para;
        '(p, e, _, st) ← unzipBlocks difficulty (mktime (stoptm year month day)) (block_file disk) p e st;
        '(f, conn) ← statistical (OStime para) (<[unzip_0 := params_text p e]> f) (st_conn st);
        months_direct rest p e f {| st_g := st_g st; st_conn := conn; st_db := st_db st |}
      else None
  end.

Lemma read_params_fit f p e : read_params f = Some (p, e) -> params_fit p e = true.
Proof.
  intros H. unfold read_params in H. apply bind_Some in H as (s & _ & H).
  apply bind_Some in H as (l & _ & H). destruct l as [|x1 [|x2 [|x3 [|x4 [|x5 [|]]]]]]; try discriminate.
  destruct (params_fit _ x5) eqn:E; [|discriminate]. by injection H as <- <-.
Qed.

Lemma unzip_0_kept r : ~ report_files r unzip_0.
Proof. unfold report_files, record_path. intros [H|[H|H]]; discriminate. Qed.

Lemma months_files paras f st p e :
  Forall (fun i => (i < 72)%nat) paras ->
  read_params f = (if params_fit p e then Some (p, e) else None) ->
  months paras f st = '(p, e, f, st) ← months_direct paras p e f st; Some (f, st).
Proof.
  intros Hp. revert f st p e. induction Hp as [|i paras Hi Hp IH]; intros f st p e Hf; [done|].
  cbn [months months_direct]. unfold month, run_unzip.
  destruct (set_parameter_spec i f Hi)
    as (f1 & y & m & d & r & b & a & Hs & Ey & Em & Ed & _ & _ & _ & Hstop & _ & Ho).
  rewrite Hs, Ey, Em, Ed. cbn [mbind option_bind].
  assert (read_params f1 = read_params f) as -> by (unfold read_params; by rewrite Ho).
  rewrite Hf, Hstop. destruct (params_fit p e); [|done]. cbn [mbind option_bind].
  destruct (unzipBlocks _ _ _ p e st) as [[[[p' e'] log] st']|]; [|done]. cbn [mbind option_bind].
  destruct (statistical (OStime i) (<[unzip_0:=params_text p' e']> f1) (st_conn st'))
    as [[f2 conn]|] eqn:E2; [|done]. cbn [mbind option_bind].
  apply IH. apply read_params_text.
  by rewrite (statistical_other _ _ _ _ _ unzip_0 E2 unzip_0_kept), lookup_insert_eq.
Qed.

(** ** Result *)

(** C26: the months go on where the last one stopped: what a run writes to
    [1.unzip_0.txt] is what the next one reads, because neither [set_parameter]
    nor [statistical] touches that file; so the loop of [main] is the loop that
    hands the position, the numbers of the last block and transaction and the
    number of entities on directly, with the stop dates of the tables.  Both fail
    together. *)
Theorem months_resume paras f st p e :
  Forall (fun i => (i < 72)%nat) paras -> read_params f = Some (p, e) ->
  months paras f st = '(p, e, f, st) ← months_direct paras p e f st; Some (f, st).
Proof.
  intros Hp Hf. apply months_files; [done|]. by rewrite (read_params_fit f p e Hf).
Qed.
End console.

(** The ten months of [main], from the beginning of the block files. *)
Definition first_files : files :=
  {[ unzip_0 := params_text {| BLKFILE := 0; BLKPOS := 0; BLOCKNUM := -1; TXCOUNTER := -1 |} 0 ]}.

Lemma months_resume_witness :
  main (fun _ => 1) tm_year (fun _ => None) (fun _ => "2014-01-01") first_files st0
  = '(p, e, f, st) ←
      months_direct (fun _ => 1) tm_year (fun _ => None) (fun _ => "2014-01-01") (seq 20 10)
        {| BLKFILE := 0; BLKPOS := 0; BLOCKNUM := -1; TXCOUNTER := -1 |} 0 first_files st0;
    Some (f, st).
Proof.
  apply months_resume; [|vm_compute; reflexivity].
  apply Forall_forall. intros i Hi%list_elem_of_In%Stdlib.Lists.List.in_seq. lia.
Defined.
