(* ===== verification/Program.v ===== *)
(** * The whole program: the loop of [main] over the months

    On block files that hold a valid chain the databases follow the ledger of
    Chain.v month after month, up to the end of the last month: the invariant
    between the months is [on_course], and each month keeps it ([month_chain]). *)
From Stdlib Require Import String.
From stdpp Require Import base gmap strings numbers option list.
From S2P Require Import Prelude Ripemd160 Sha256 Block TxParse Sql SqlServer Calendar Entity TxStore Unzip Streams Timerange Report ReportServer StatTables Statistical StatResults Chain Console.
Local Open Scope string_scope.
Local Open Scope list_scope.
Open Scope Z_scope.

Section program.
Context `{Sc : Schema} `{My : !MySQL} `{Ldb : LevelDB} `{Re : !Reporting}.
Context (difficulty : Z -> Z) (difficulty_is64 : forall b, is64 (difficulty b)).
Context (mktime : tm -> Z) (disk : string -> option (list Z)) (OStime : nat -> string).

(** ** [statistical] only reads the tables *)

Lemma run_tables l conn o conn' o' :
  forallb item_ok l = true -> run (map as_cmd l) (conn, o) = Some (conn', o') ->
  tables conn' = tables conn.
Proof.
  revert conn o. induction l as [|i l IH]; intros conn o Hl H.
  { cbn in H. by injection H as <- <-. }
  cbn [forallb map run] in *. apply andb_true_iff in Hl as [Hi Hl].
  apply bind_Some in H as ([conn1 o1] & Hs & H). rewrite (IH conn1 o1 Hl H).
  destruct i as [s|q|path|]; cbn [as_cmd step] in Hs; try (by apply Some_inj, pair_eq in Hs as [<- _]).
  pose proof (report_tables conn q Hi) as Ht. destruct (mysql_query conn (query_text q)) as [conn2 res].
  apply bind_Some in Hs as (o2 & _ & Hs). by apply Some_inj, pair_eq in Hs as [<- _].
Qed.

Lemma statistical_tables O f conn f' conn' r b a :
  read_time_range f = (r, b, a) -> arg_text b = true -> arg_text a = true ->
  statistical O f conn = Some (f', conn') -> tables conn' = tables conn.
Proof.
  intros Hr Hb Ha H. unfold statistical in H. rewrite Hr, script_report in H.
  apply bind_Some in H as ([conn1 [o1 f1]] & Hrun & H). apply Some_inj, pair_eq in H as [_ <-].
  exact (run_tables _ _ _ _ _ (report_ok r b a O Hb Ha) Hrun).
Qed.

Lemma sim_conn L st conn :
  tables conn = tables (st_conn st) -> sim L st ->
  sim L {| st_g := st_g st; st_conn := conn; st_db := st_db st |}.
Proof.
  intros Ht [[E A B C D] Ho Hb Htx Hblk Hc].
  split; cbn [st_g st_conn st_db]; rewrite ?Ht; try done.
  split; cbn [st_g st_conn st_db]; by rewrite ?Ht.
Qed.

(** ** A month *)

(** The end of month [i]. *)
Definition stop_time (i : nat) : Z := mktime (stoptm (nth i YEAR 0) (nth i MONTH 0) (nth i DAY 0)).

(** What can stop the program in a month: [statistical], which copies a NULL. *)
Definition month_stops (i : nat) (f : files) (st : state) : Prop :=
  exists f1 f2 log st1, set_parameter i f = Some f1
    /\ run_unzip difficulty mktime disk f1 st = Some (f2, log, st1)
    /\ statistical (OStime i) f2 (st_conn st1) = None.

(** Before [m] more months: the parameters on file are a place in the chain, the
    databases are in step with a ledger, and from there the ledger reaches [L'] at
    time [t].  A month without blocks counts the block number down. *)
Definition on_course (m : nat) (t : Z) (L' : ledger) (f : files) (st : state) : Prop :=
  exists p chain L, read_params f = Some (p, entitycnt (st_g st))
    /\ params_ok p /\ Z.of_nat m - 2 ^ 31 < BLOCKNUM p
    /\ holds_chain_from (block_file disk) chain p /\ sim L st /\ ledger_from p t chain L = Some L'.

(** The parameters that a run leaves fit the variables that the next one reads them into. *)
Lemma params_next_fit p p' e L st' :
  params_fit p e = true -> params_ok p -> params_next p p' -> - 2 ^ 31 <= BLOCKNUM p' -> sim L st' ->
  params_fit p' (entitycnt (st_g st')) = true.
Proof.
  intros Hfit [_ _ Ht] [Hf' Hp' Hb' Ht'] Hb0 Hs. pose proof (inv_cnt _ _ (inv_ent _ (sim_inv _ _ Hs))) as He. unfold is32 in He.
  unfold params_fit, in_int, in_uint, INT_MAX in *. rewrite !andb_true_iff, !Z.leb_le, !Z.ltb_lt in *. lia.
Qed.

Lemma month_chain m t L' i f st :
  (i < 72)%nat -> stop_time i <= t -> on_course (S m) t L' f st ->
  (exists f' st', month difficulty mktime disk OStime i f st = Some (f', st') /\ on_course m t L' f' st'
     /\ (stop_time i = t -> sim L' st'))
  \/ month_stops i f st.
Proof.
  intros Hi Ht (p & chain & L & Hread & Hok & Hbn & Hch & Hs & HL).
  destruct (set_parameter_spec i f Hi)
    as (f1 & y & m0 & d & r & b & a & Hset & Ey & Em & Ed & Er & Eb & Ea & Hstop & Hrange & Ho).
  assert (read_params f1 = Some (p, entitycnt (st_g st))) as Hread1
    by (unfold read_params in *; by rewrite Ho).
  destruct (ledger_files_earlier _ _ _ _ _ _ _ _ Ht HL) as [L1 HL1].
  destruct (unzipBlocks_spec difficulty difficulty_is64 (stop_time i) (block_file disk) chain p st L L1 Hok Hch Hs HL1)
    as (p' & log & st' & chain' & Hrun & Hs' & Hch' & Hnext & Hlater).
  assert (run_unzip difficulty mktime disk f1 st
    = Some (<[unzip_0 := params_text p' (entitycnt (st_g st'))]> f1, log, st')) as Hunzip.
  { unfold run_unzip. rewrite Hread1, Hstop. cbn [mbind option_bind].
    replace (mktime (stoptm y m0 d)) with (stop_time i) by
      (unfold stop_time; by rewrite (nth_lookup_Some _ _ _ _ Ey), (nth_lookup_Some _ _ _ _ Em), (nth_lookup_Some _ _ _ _ Ed)).
    by rewrite Hrun. }
  set (f2 := <[unzip_0 := _]> f1) in Hunzip.
  destruct (statistical (OStime i) f2 (st_conn st')) as [[f3 conn]|] eqn:Estat.
  2: { right. by exists f1, f2, log, st'. }
  left. exists f3, {| st_g := st_g st'; st_conn := conn; st_db := st_db st' |}. split.
  { unfold month. rewrite Hset. cbn [mbind option_bind]. rewrite Hunzip. cbn [mbind option_bind].
    by rewrite Estat. }
  pose proof limits_arg as Harg. apply andb_true_iff in Harg as [Hab Haa].
  assert (sim L1 {| st_g := st_g st'; st_conn := conn; st_db := st_db st' |}) as Hs3.
  { apply sim_conn; [|exact Hs']. apply (statistical_tables (OStime i) f2 (st_conn st') f3 conn r b a);
      [|by apply (forallb_lookup _ BEFORE i)|by apply (forallb_lookup _ AFTER i)|exact Estat].
    rewrite <- Hrange. unfold read_time_range, open_in. subst f2. by rewrite lookup_insert_ne. }
  split.
  - pose proof Hnext as [_ Hp' Hb' Ht']. destruct Hok as [Hp0 Hb0 Ht0] eqn:Eok. rewrite Nat2Z.inj_succ in Hbn.
    exists p', chain', L1. split_and!; [| |lia|done|done|by rewrite <- Hlater].
    + assert (f3 !! unzip_0 = Some (params_text p' (entitycnt (st_g st')))) as Ef3
        by (rewrite (statistical_other _ _ _ _ _ unzip_0 Estat unzip_0_kept); apply lookup_insert_eq).
      rewrite (read_params_text _ _ _ Ef3). cbn [st_g].
      rewrite (params_next_fit p p' (entitycnt (st_g st)) L1 st'); [done|by apply (read_params_fit f)|done|done|lia|done].
    + split; [done|lia|lia].
  - intros E. rewrite <- E in HL. unfold ledger_from in HL. rewrite HL1 in HL. by injection HL as <-.
Qed.

Lemma months_app xs ys f st :
  months difficulty mktime disk OStime (xs ++ ys) f st
  = '(f, st) ← months difficulty mktime disk OStime xs f st; months difficulty mktime disk OStime ys f st.
Proof.
  revert f st. induction xs as [|x xs IH]; intros f st; [done|]. cbn [app months].
  destruct (month _ _ _ _ x f st) as [[f1 st1]|]; [|done]. apply IH.
Qed.

(** The first month that stops the program, if there is one. *)
Definition months_stop (paras : list nat) (f : files) (st : state) : Prop :=
  exists done i rest f1 st1, paras = done ++ i :: rest
    /\ months difficulty mktime disk OStime done f st = Some (f1, st1) /\ month_stops i f1 st1.

Lemma months_on_course m t L' paras f st :
  Forall (fun i => (i < 72)%nat /\ stop_time i <= t) paras -> on_course (length paras + m) t L' f st ->
  (exists f' st', months difficulty mktime disk OStime paras f st = Some (f', st') /\ on_course m t L' f' st')
  \/ months_stop paras f st.
Proof.
  intros Hp. revert f st. induction Hp as [|i paras [Hi Ht] Hp IH]; intros f st Hc.
  { left. exists f, st. by split. }
  destruct (month_chain (length paras + m) t L' i f st Hi Ht Hc) as [(f1 & st1 & Hm & Hc1 & _)|Hstop].
  2: { right. exists [], i, paras, f, st. by split_and!. }
  cbn [months]. rewrite Hm. cbn [mbind option_bind].
  destruct (IH f1 st1 Hc1) as [H|(dn & j & rest & f2 & st2 & -> & Hd & Hj)]; [by left|].
  right. exists (i :: dn), j, rest, f2, st2. split_and!; [done| |done].
  cbn [months]. by rewrite Hm.
Qed.

(** ** When a month succeeds *)

(** The report of a month over given tables can be written. *)
Definition report_written (i : nat) (d : DB) : bool :=
  match text d (main_report (nth i RANGE "") (nth i BEFORE "") (nth i AFTER "") (OStime i)) with Some _ => true | None => false end.

Lemma month_ends i f st p e p' e' log st' :
  (i < 72)%nat -> read_params f = Some (p, e) ->
  unzipBlocks difficulty (stop_time i) (block_file disk) p e st = Some (p', e', log, st') ->
  db_small (tables (st_conn st')) -> report_written i (tables (st_conn st')) = true ->
  exists f' conn, month difficulty mktime disk OStime i f st
      = Some (f', {| st_g := st_g st'; st_conn := conn; st_db := st_db st' |})
    /\ tables conn = tables (st_conn st') /\ (params_fit p' e' = true -> read_params f' = Some (p', e')).
Proof.
  intros Hi Hread Hrun Hd Ht.
  destruct (set_parameter_spec i f Hi)
    as (f1 & y & m & d & r & b & a & Hset & Ey & Em & Ed & Er & Eb & Ea & Hstop & Hrange & Ho).
  unfold stop_time in Hrun. rewrite (nth_lookup_Some _ _ _ _ Ey), (nth_lookup_Some _ _ _ _ Em), (nth_lookup_Some _ _ _ _ Ed) in Hrun.
  unfold report_written in Ht. rewrite (nth_lookup_Some _ _ _ _ Er), (nth_lookup_Some _ _ _ _ Eb), (nth_lookup_Some _ _ _ _ Ea) in Ht.
  unfold month, run_unzip. rewrite Hset. cbn [mbind option_bind].
  assert (read_params f1 = Some (p, e)) as -> by (unfold read_params in *; by rewrite Ho).
  rewrite Hstop. cbn [mbind option_bind]. rewrite Hrun. cbn [mbind option_bind].
  set (f2 := <[unzip_0 := _]> f1). pose proof limits_arg as Harg. apply andb_true_iff in Harg as [Hab Haa].
  pose proof (statistical_spec (OStime i) f2 (st_conn st') r b a) as Hs.
  destruct (text _ _) as [txt|]; [|discriminate]. destruct Hs as (conn & Hs & Htab);
    [|by apply (forallb_lookup _ BEFORE i)|by apply (forallb_lookup _ AFTER i)|done|].
  { rewrite <- Hrange. unfold read_time_range, open_in. subst f2. by rewrite lookup_insert_ne. }
  rewrite Hs. cbn [mbind option_bind]. do 2 eexists. split; [reflexivity|]. split; [exact Htab|]. intros Hfit.
  match type of Hs with _ = Some (?f3, _) => assert (f3 !! unzip_0 = Some (params_text p' e')) as Ef end.
  { rewrite (statistical_other _ _ _ _ _ unzip_0 Hs unzip_0_kept). apply lookup_insert_eq. }
  by rewrite (read_params_text _ _ _ Ef), Hfit.
Qed.

(** A month that stops the program leaves no result. *)
Lemma months_stop_None paras f st : months_stop paras f st -> months difficulty mktime disk OStime paras f st = None.
Proof.
  intros (dn & i & rest & f1 & st1 & -> & Hd & f2 & f3 & log & st2 & Hset & Hrun & Hs). rewrite months_app, Hd. cbn [mbind option_bind months].
  unfold month. rewrite Hset. cbn [mbind option_bind]. rewrite Hrun. cbn [mbind option_bind]. by rewrite Hs.
Qed.

(** ** Result *)

(** C1: the months together.  When the block files, each below 2 GB, hold a chain
    that the ledger accepts up to the end of the last month, from the place that
    the parameter file names, and the databases are in step with the ledger, then
    the loop over the months ends with the databases in step with the ledger after
    all blocks up to the end of the last month: no block is left out or processed
    twice between two months.  The only way to end earlier is that [statistical]
    crashes on the report of some month; reading the chain never fails, and the
    numbers that are saved can be read again.  (The block number may not be so
    small that the months count it down below the range of [int].) *)
Theorem months_chain init last f st p chain L L' :
  Forall (fun i => (i < 72)%nat /\ stop_time i <= stop_time last) (init ++ [last]) ->
  read_params f = Some (p, entitycnt (st_g st)) ->
  params_ok p -> Z.of_nat (length (init ++ [last])) - 2 ^ 31 < BLOCKNUM p ->
  holds_chain_from (block_file disk) chain p -> sim L st ->
  ledger_from p (stop_time last) chain L = Some L' ->
  (exists f' st', months difficulty mktime disk OStime (init ++ [last]) f st = Some (f', st') /\ sim L' st')
  \/ months_stop (init ++ [last]) f st.
Proof.
  intros Hp Hread Hok Hbn Hch Hs HL. apply Forall_app in Hp as [Hinit Hlast].
  apply Forall_cons in Hlast as [[Hl _] _]. rewrite length_app in Hbn. cbn [length] in Hbn.
  assert (on_course (length init + 1) (stop_time last) L' f st) as Hc by (exists p, chain, L; by split_and!).
  destruct (months_on_course _ _ _ _ _ _ Hinit Hc) as [(f1 & st1 & H1 & Hc1)|(dn & j & rest & f2 & st2 & -> & Hd & Hj)].
  2: { right. exists dn, j, (rest ++ [last]), f2, st2. rewrite <- app_assoc. by split_and!. }
  destruct (month_chain 0 _ _ last f1 st1 Hl (Z.le_refl _) Hc1) as [(f2 & st2 & Hm & _ & Hs2)|Hstop].
  - left. exists f2, st2. rewrite months_app, H1. cbn [mbind option_bind months]. rewrite Hm.
    split; [done|by apply Hs2].
  - right. by exists init, last, [], f1, st1.
Qed.
End program.

(** ** A chain of two blocks over two months

    A block of January 2009 and one of February, with a payment to a new address. *)

#[local] Remove Hints server : typeclass_instances.

(** [mktime] in the time zone UTC. *)
Definition utc (t : tm) : Z :=
  let y := tm_year t + 1900 in
  let days := foldr (fun k acc => year_length (1970 + Z.of_nat k) + acc) 0 (seq 0 (Z.to_nat (y - 1970)))
    + months_from (Z.to_nat (tm_mon t)) y 1 + tm_mday t - 1 in
  ((days * 24 + tm_hour t) * 60 + tm_min t) * 60 + tm_sec t.

Definition february_tx : raw_tx :=
  {| rt_ver := 1;
     rt_ins := [{| ri_hash := coinbase_b; ri_index := 0xffff_ffff; ri_script := [4; 2]; ri_seq := 0 |}];
     rt_outs := [{| ro_val := 5000000000; ro_script := p2pkh (replicate 20 0x33) |}];
     rt_lock_time := 0 |}.
Definition february_block : raw_block :=
  {| rb_magic := 0xd9b4_bef9; rb_version := 1; rb_prev := replicate 32 1; rb_merk := replicate 32 7;
     rb_time := 1234000000; rb_bits := 0x1d00_ffff; rb_nonce := 78; rb_txs := [february_tx] |}.
Definition two_block_chain (i : Z) : list raw_block := if i =? 0 then [first_block; february_block] else [].
Definition first_name : string := "E:\blocks\blk00000.dat".
Definition two_block_disk (name : string) : option (list Z) :=
  if String.eqb name first_name then Some (flat_map ser_block [first_block; february_block]) else None.

Definition st1 : @state schema0 report_server mem_leveldb :=
  {| st_g := {| entitychange_v := []; entitycnt := 0 |};
     st_conn := (empty_db : @MYSQL schema0 report_server); st_db := (∅ : @DBptr mem_leveldb) |}.

Lemma st1_sim : sim empty_ledger st1.
Proof.
  split; cbn; try done; try constructor.
  - exact (inv_ent _ st0_inv).
  - exact (inv_assigned _ st0_inv).
  - exact (inv_bal _ st0_inv).
  - exact (inv_changes _ st0_inv).
  - exact (inv_db _ st0_inv).
Qed.

Lemma february_block_ok : block_ok february_block.
Proof.
  assert (forall n b, is8 b -> bytes (replicate n b)) as Hr by (intros; by apply Forall_replicate).
  split; cbn [february_block rb_magic rb_version rb_time rb_bits rb_nonce rb_prev rb_merk rb_txs].
  - unfold is32. lia.
  - split; [apply Hr; unfold is8; lia|reflexivity].
  - split; [apply Hr; unfold is8; lia|reflexivity].
  - constructor; [|constructor]. unfold raw_tx_ok, february_tx, raw_in_ok, raw_out_ok, script_ok, is32, is64.
    repeat constructor; cbn [rt_ver rt_ins rt_outs rt_lock_time ri_hash ri_index ri_seq ri_script ro_val ro_script length];
      try lia; try done; try (apply bytes_dec; reflexivity).
  - vm_compute. reflexivity.
Qed.

Lemma two_block_disk_holds :
  holds_chain_from (block_file two_block_disk) two_block_chain first_params.
Proof.
  intros _. unfold holds_from. change (two_block_chain (BLKFILE first_params)) with [first_block; february_block].
  change (block_file two_block_disk (BLKFILE first_params)) with (Some (flat_map ser_block [first_block; february_block])). split.
  { apply Forall_cons. split; [exact first_block_ok|]. apply Forall_cons. split; [exact february_block_ok|constructor]. }
  split.
  - split; [apply Z.leb_le; vm_compute; reflexivity|]. exists []. split; reflexivity.
  - intros i Hi. cbn in Hi. unfold holds_chain, two_block_chain.
    destruct (Z.eqb_spec i 0); [lia|]. split; [constructor|].
    unfold block_file. destruct (blkname !! Z.to_nat i) as [name|] eqn:E; [|done].
    cbn [mbind option_bind]. unfold two_block_disk. destruct (String.eqb_spec name first_name) as [->|]; [|done].
    pose proof (NoDup_lookup blkname 0 (Z.to_nat i) first_name blkname_NoDup eq_refl E). lia.
Qed.

Definition bal_of (address : Z) (L : ledger) : option Z := L_bal L !! replicate 20 address.
Definition final_balances (r : option ledger) : option (list (option Z)) := (fun L => [bal_of 0x11 L; bal_of 0x22 L; bal_of 0x33 L]) <$> r.
Lemma final_balances_inv r x y z : final_balances r = Some [x; y; z] ->
  exists L, r = Some L /\ bal_of 0x11 L = x /\ bal_of 0x22 L = y /\ bal_of 0x33 L = z.
Proof. destruct r as [L|]; [|done]. intros H. injection H as <- <- <-. by exists L. Qed.
Lemma two_months_ledger :
  final_balances (ledger_from first_params (stop_time utc 1) two_block_chain empty_ledger)
    = Some [Some 1000000000; Some 4000000000; Some 5000000000].
Proof. vm_compute. reflexivity. Qed.

Definition two_months := months (fun _ => 1) utc two_block_disk (fun _ => "2014-01-01") [0%nat; 1%nat] first_files st1.

Abbreviation mem_state := (@state schema0 report_server mem_leveldb).
(** The run over the blocks of a month, and what is checked of it. *)
Definition blocks_of_month (m : nat) (p : params) (e : Z) (st : mem_state) : option (params * Z * list log_event * mem_state) :=
  unzipBlocks (fun _ => 1) (stop_time utc m) (block_file two_block_disk) p e st.
Definition reportable (m : nat) (st : mem_state) : bool :=
  smallb (tables (st_conn st)) && report_written (fun _ => "2014-01-01") m (tables (st_conn st)).
Definition reportable_after (m : nat) (r : option (params * Z * list log_event * mem_state)) : bool :=
  match r with Some (_, _, _, s) => reportable m s | None => false end.
Definition both_reportable (r : option (params * Z * list log_event * mem_state)) : bool :=
  match r with
  | Some (p1, e1, _, s1) => reportable 0 s1 && params_fit p1 e1 && reportable_after 1 (blocks_of_month 1 p1 e1 s1)
  | None => false
  end.
Lemma two_months_run : both_reportable (blocks_of_month 0 first_params 0 st1) = true.
Proof. vm_compute. reflexivity. Qed.

Lemma reportable_inv m st : reportable m st = true ->
  db_small (tables (st_conn st)) /\ report_written (fun _ => "2014-01-01") m (tables (st_conn st)) = true.
Proof. intros [H%smallb_small ?]%andb_prop. done. Qed.
Lemma reportable_after_inv m r : reportable_after m r = true -> exists p e log s, r = Some (p, e, log, s) /\ reportable m s = true.
Proof. destruct r as [[[[p e] log] s]|]; [|done]. intros H. by exists p, e, log, s. Qed.
Lemma both_reportable_inv r : both_reportable r = true ->
  exists p1 e1 log1 s1, r = Some (p1, e1, log1, s1) /\ reportable 0 s1 = true /\ params_fit p1 e1 = true
    /\ exists p2 e2 log2 s2, blocks_of_month 1 p1 e1 s1 = Some (p2, e2, log2, s2) /\ reportable 1 s2 = true.
Proof.
  destruct r as [[[[p e] log] s]|]; [|done]. intros [[H1 H2]%andb_prop H3]%andb_prop.
  exists p, e, log, s. split_and!; try done. by apply reportable_after_inv.
Qed.

(** Both months are written. *)
Lemma two_months_from f st p e :
  read_params f = Some (p, e) -> both_reportable (blocks_of_month 0 p e st) = true ->
  is_Some (months (fun _ => 1) utc two_block_disk (fun _ => "2014-01-01") [0%nat; 1%nat] f st).
Proof.
  intros Hread (p1 & e1 & log1 & s1 & E1 & [S1 T1]%reportable_inv & Hfit
    & p2 & e2 & log2 & s2 & E2 & [S2 T2]%reportable_inv)%both_reportable_inv.
  unfold blocks_of_month in E1, E2. cbn [months].
  destruct (month_ends (fun _ => 1) utc two_block_disk (fun _ => "2014-01-01") 0 f st p e _ _ _ _
    ltac:(lia) Hread E1 S1 T1) as (f' & conn & -> & Hc & Hr). cbn [mbind option_bind].
  assert ({| st_g := st_g s1; st_conn := conn; st_db := st_db s1 |} = s1) as -> by (destruct s1; cbn in Hc; by subst).
  destruct (month_ends (fun _ => 1) utc two_block_disk (fun _ => "2014-01-01") 1 f' s1 p1 e1 _ _ _ _
    ltac:(lia) (Hr Hfit) E2 S2 T2) as (f2 & conn2 & -> & _). by eexists.
Qed.
Lemma first_files_read : read_params first_files = Some (first_params, 0).
Proof. vm_compute. reflexivity. Qed.
Lemma two_months_end : is_Some two_months.
Proof. exact (two_months_from first_files st1 first_params 0 first_files_read two_months_run). Qed.

Lemma months_chain_witness :
  exists f' st', two_months = Some (f', st')
    /\ balances (tables (st_conn st')) !! replicate 20 0x11 = Some 1000000000
    /\ balances (tables (st_conn st')) !! replicate 20 0x22 = Some 4000000000
    /\ balances (tables (st_conn st')) !! replicate 20 0x33 = Some 5000000000.
Proof.
  destruct (final_balances_inv _ _ _ _ two_months_ledger) as (L' & HL & H1 & H2 & H3).
  destruct (months_chain (fun _ => 1) ltac:(intros; unfold is64; lia) utc two_block_disk
    (fun _ => "2014-01-01") [0%nat] 1%nat first_files st1 first_params two_block_chain empty_ledger L')
    as [(f' & st' & Hrun & Hs)|Hstop].
  - repeat constructor; try lia; vm_compute; discriminate.
  - vm_compute. reflexivity.
  - exact first_params_ok.
  - cbn. lia.
  - exact two_block_disk_holds.
  - exact st1_sim.
  - exact HL.
  - exists f', st'. split; [exact Hrun|]. rewrite (sim_bal _ _ Hs). split; [exact H1|]. split; [exact H2|exact H3].
  - exfalso. apply months_stop_None in Hstop. destruct two_months_end as [r Hr]. unfold two_months in Hr. cbn [app] in Hstop. by rewrite Hstop in Hr.
Defined.
