(* ===== verification/Coding.v ===== *)
(** * The byte formats of LevelDB:
    src/packages/LevelDB.1.16.0.5/lib/native/src/util/coding.cc and coding.h

    Fixed-width and variable-length integers and length-prefixed strings.  A
    slice is the list of its bytes; a pointer with a limit is the list of bytes
    between them, and a null pointer is [None].  The machine is little-endian
    ([port::kLittleEndian]). *)
From stdpp Require Import base numbers option list.
From S2P Require Import Prelude.
Open Scope Z_scope.
Open Scope word_scope.

(** ** Fixed width *)

Definition EncodeFixed32 (value : Z) : list Z := le_bytes 4 value.
Definition EncodeFixed64 (value : Z) : list Z := le_bytes 8 value.
Definition PutFixed32 (dst : list Z) (value : Z) : list Z := dst ++ EncodeFixed32 value.
Definition PutFixed64 (dst : list Z) (value : Z) : list Z := dst ++ EncodeFixed64 value.
Definition DecodeFixed32 (ptr : list Z) : Z := le_val (take 4 ptr).
Definition DecodeFixed64 (ptr : list Z) : Z := le_val (take 8 ptr).

(** ** Variable length *)

Definition EncodeVarint32 (v : Z) : list Z :=
  if v <? 0x80 then [w8 v]
  else if v <? 0x4000 then [w8 (v .| 128); w8 (v >> 7)]
  else if v <? 0x20_0000 then [w8 (v .| 128); w8 ((v >> 7) .| 128); w8 (v >> 14)]
  else if v <? 0x1000_0000 then
    [w8 (v .| 128); w8 ((v >> 7) .| 128); w8 ((v >> 14) .| 128); w8 (v >> 21)]
  else
    [w8 (v .| 128); w8 ((v >> 7) .| 128); w8 ((v >> 14) .| 128); w8 ((v >> 21) .| 128);
     w8 (v >> 28)].
Definition PutVarint32 (dst : list Z) (v : Z) : list Z := dst ++ EncodeVarint32 v.

(** [while (v >= B)]; a 64-bit number has at most ten groups of seven bits. *)
Fixpoint varint64_loop (fuel : nat) (v : Z) : list Z :=
  match fuel with
  | O => []
  | S fuel' =>
      if 128 <=? v then w8 ((v .& 127) .| 128) :: varint64_loop fuel' (v >> 7) else [w8 v]
  end.
Definition EncodeVarint64 (v : Z) : list Z := varint64_loop 10 v.
Definition PutVarint64 (dst : list Z) (v : Z) : list Z := dst ++ EncodeVarint64 v.

Fixpoint VarintLength_loop (fuel : nat) (v len : Z) : Z :=
  match fuel with
  | O => len
  | S fuel' => if 128 <=? v then VarintLength_loop fuel' (v >> 7) (len + 1) else len
  end.
Definition VarintLength (v : Z) : Z := VarintLength_loop 10 v 1.

(** The loop of the two readers, [for (shift = 0; shift <= 28 && p < limit; shift += 7)]
    with 63 for 28 in the second: [n] turns are left, and [shl] shifts at the width
    of the result. *)
Fixpoint GetVarint_loop (shl : Z -> Z -> Z) (n : nat) (shift result : Z) (p : list Z)
    : option (Z * list Z) :=
  match n, p with
  | S n', byte :: p' =>
      if negb (byte .& 128 =? 0)
      then GetVarint_loop shl n' (shift + 7) (result .| shl (byte .& 127) shift) p'
      else Some (result .| shl byte shift, p')
  | _, _ => None
  end.

Definition GetVarint32PtrFallback (p : list Z) : option (Z * list Z) :=
  GetVarint_loop shl32 5 0 0 p.
Definition GetVarint32Ptr (p : list Z) : option (Z * list Z) :=
  match p with
  | result :: p' => if result .& 128 =? 0 then Some (result, p') else GetVarint32PtrFallback p
  | [] => GetVarint32PtrFallback p
  end.
Definition GetVarint32 (input : list Z) : option (Z * list Z) := GetVarint32Ptr input.

Definition shl64 (x n : Z) : Z := w64 (Z.shiftl x n).
Definition GetVarint64Ptr (p : list Z) : option (Z * list Z) := GetVarint_loop shl64 10 0 0 p.
Definition GetVarint64 (input : list Z) : option (Z * list Z) := GetVarint64Ptr input.

(** ** Length-prefixed strings *)

Definition PutLengthPrefixedSlice (dst value : list Z) : list Z :=
  PutVarint32 dst (w32 (Z.of_nat (length value))) ++ value.

(** [bool GetLengthPrefixedSlice(Slice* input, Slice* result)] *)
Definition GetLengthPrefixedSlice (input : list Z) : option (list Z * list Z) :=
  '(len, input) ← GetVarint32 input;
  if len <=? Z.of_nat (length input)
  then Some (take (Z.to_nat len) input, drop (Z.to_nat len) input) else None.

(** ** The variable-length format *)

(** Groups of seven bits, the lowest first, each but the last marked by its high bit. *)
Fixpoint groups (n : nat) (v : Z) : list Z :=
  match n with
  | O => []
  | S n' => if v <? 128 then [v] else (v mod 128 + 128) :: groups n' (v / 128)
  end.

Lemma group_more v : 0 <= v -> w8 (v .| 128) = v mod 128 + 128.
Proof.
  intros Hv. unfold w8.
  replace 0x100 with (2 ^ 8) by reflexivity. replace 128 with (2 ^ 7) by reflexivity.
  rewrite <- (Z.land_ones _ 8), <- (Z.land_ones _ 7) by lia.
  rewrite <- (Z.mul_1_l (2 ^ 7)) at 2. rewrite <- lor_shiftl_add by (rewrite ?Z.land_ones by lia;
    try apply Z.mod_pos_bound; lia).
  change (Z.shiftl 1 7) with (2 ^ 7).
  apply Z.bits_inj'. intros i Hi. rewrite !Z.land_spec, !Z.lor_spec, !Z.land_spec.
  rewrite !Z.testbit_ones by lia. rewrite Z.pow2_bits_eqb by lia.
  destruct (Z.testbit v i), (Z.eqb_spec 7 i), (Z.leb_spec 0 i), (Z.ltb_spec i 8), (Z.ltb_spec i 7);
    try reflexivity; lia.
Qed.

Lemma group_last v : 0 <= v < 128 -> w8 v = v.
Proof. intros Hv. apply w8_small. unfold is8. lia. Qed.

Lemma EncodeVarint32_groups v : is32 v -> EncodeVarint32 v = groups 5 v.
Proof.
  intros Hv. unfold is32 in Hv. unfold EncodeVarint32. cbn [groups].
  assert (forall k, 0 <= k -> 0 <= v >> k) as Hp by (intros; apply Z.shiftr_nonneg; lia).
  rewrite !group_more by (try apply Hp; lia). rewrite !Z.shiftr_div_pow2 by lia.
  change (2 ^ 7) with 128. change (2 ^ 14) with (128 * 128). change (2 ^ 21) with (128 * 128 * 128).
  change (2 ^ 28) with (128 * 128 * 128 * 128). rewrite <- !Z.div_div by lia.
  repeat match goal with
    | |- context [?a <? ?b] => destruct (Z.ltb_spec a b)
    end; try (exfalso; Z.to_euclidean_division_equations; lia);
    repeat f_equal; try (apply group_last; Z.to_euclidean_division_equations; lia).
Qed.

Lemma varint64_groups n v : 0 <= v -> v < 128 ^ Z.of_nat n -> varint64_loop n v = groups n v.
Proof.
  revert v. induction n as [|n IH]; intros v H1 H2; [done|]. cbn [varint64_loop groups].
  rewrite Z.leb_antisym. destruct (Z.ltb_spec v 128); cbn [negb].
  - by rewrite group_last.
  - rewrite Z.shiftr_div_pow2 by lia. change (2 ^ 7) with 128. rewrite IH.
    + f_equal. change 127 with (Z.ones 7). rewrite Z.land_ones by lia. change (2 ^ 7) with 128.
      rewrite group_more, Z.mod_mod; try lia. apply Z.mod_pos_bound. lia.
    + by apply Z.div_pos.
    + apply Z.div_lt_upper_bound; [lia|]. rewrite Nat2Z.inj_succ, Z.pow_succ_r in H2; lia.
Qed.

Lemma length_groups n v : (length (groups n v) <= n)%nat.
Proof. revert v. induction n as [|n IH]; intros v; cbn; [lia|]. destruct (_ <? _); cbn; [lia|]. specialize (IH (v / 128)). lia. Qed.

Lemma bytes_groups n v : 0 <= v -> bytes (groups n v).
Proof.
  revert v. induction n as [|n IH]; intros v Hv; [constructor|]. cbn [groups].
  pose proof (Z.mod_pos_bound v 128).
  destruct (Z.ltb_spec v 128); (constructor; [unfold is8; lia|]); [constructor|].
  apply IH, Z.div_pos; lia.
Qed.

Lemma more_bit r : 0 <= r < 128 -> (r + 128) .& 128 = 128 /\ (r + 128) .& 127 = r.
Proof.
  intros Hr. split.
  - change (r + 128) with (r + 1 * 2 ^ 7). rewrite <- lor_shiftl_add by lia.
    rewrite Z.land_lor_distr_l. change 128 with (Z.shiftl 1 7) at 1.
    rewrite land_shiftl_disjoint by lia. reflexivity.
  - change 127 with (Z.ones 7). rewrite Z.land_ones by lia. change (2 ^ 7) with 128.
    rewrite <- Zplus_mod_idemp_r. rewrite Z.mod_same, Z.add_0_r by lia. apply Z.mod_small. lia.
Qed.

Lemma last_bit r : 0 <= r < 128 -> r .& 128 = 0.
Proof. intros Hr. change 128 with (Z.shiftl 1 7). by rewrite land_shiftl_disjoint by lia. Qed.

(** Reading the groups of a number that fits puts it together again. *)
Lemma GetVarint_groups shl W n shift result v s :
  (forall x k, 0 <= k -> 0 <= x * 2 ^ k < W -> shl x k = Z.shiftl x k) ->
  0 <= v -> (0 < n)%nat -> v < 128 ^ Z.of_nat n -> 0 <= shift -> 0 <= result < 2 ^ shift ->
  v * 2 ^ shift < W ->
  GetVarint_loop shl n shift result (groups n v ++ s) = Some (result + v * 2 ^ shift, s).
Proof.
  intros Hshl. revert shift result v. induction n as [|n IH]; intros shift result v Hv Hn0 Hn Hs Hr Hb; [lia|].
  cbn [groups]. pose proof (Z.pow_pos_nonneg 2 shift ltac:(lia) Hs).
  destruct (Z.ltb_spec v 128) as [Hl|Hl]; cbn [app GetVarint_loop].
  - rewrite last_bit by lia. change (negb (0 =? 0)) with false. cbn iota. rewrite Hshl by nia.
    by rewrite lor_shiftl_add by lia.
  - pose proof (Z.mod_pos_bound v 128 ltac:(lia)) as Hm.
    destruct (more_bit (v mod 128) Hm) as [-> ->]. change (negb (128 =? 0)) with true. cbn iota.
    assert (v mod 128 * 2 ^ shift <= v * 2 ^ shift) by
      (apply Z.mul_le_mono_nonneg_r; [lia|]; apply Z.mod_le; lia).
    rewrite Hshl by nia. rewrite lor_shiftl_add by lia.
    assert (2 ^ (shift + 7) = 128 * 2 ^ shift) as E by (rewrite Z.pow_add_r by lia; lia).
    pose proof (Z.div_mod v 128 ltac:(lia)) as Hdm.
    rewrite IH.
    + do 2 f_equal. rewrite E. pose proof (f_equal (fun x => x * 2 ^ shift) Hdm). cbn beta in *. lia.
    + apply Z.div_pos; lia.
    + destruct n; [|lia]. change (128 ^ Z.of_nat 1) with 128 in Hn. lia.
    + apply Z.div_lt_upper_bound; [lia|]. rewrite Nat2Z.inj_succ, Z.pow_succ_r in Hn by lia. lia.
    + lia.
    + rewrite E. nia.
    + rewrite E. nia.
Qed.

Lemma GetVarint32_Encode v s : is32 v -> GetVarint32Ptr (EncodeVarint32 v ++ s) = Some (v, s).
Proof.
  intros Hv. rewrite EncodeVarint32_groups by done.
  assert (GetVarint32PtrFallback (groups 5 v ++ s) = Some (v, s)) as H.
  { unfold GetVarint32PtrFallback. rewrite (GetVarint_groups shl32 0x1_0000_0000); unfold is32 in Hv; try lia.
    - by rewrite Z.mul_1_r.
    - intros x k Hk Hx. unfold shl32. rewrite Z.shiftl_mul_pow2 by done. by apply w32_small. }
  unfold GetVarint32Ptr. cbn [groups] in *. destruct (Z.ltb_spec v 128); cbn [app] in *.
  - by rewrite last_bit by (unfold is32 in Hv; lia).
  - pose proof (Z.mod_pos_bound v 128 ltac:(lia)) as Hm.
    by destruct (more_bit (v mod 128) Hm) as [-> _].
Qed.

Lemma GetVarint64_Encode v s : is64 v -> GetVarint64Ptr (EncodeVarint64 v ++ s) = Some (v, s).
Proof.
  intros Hv. unfold is64 in Hv. unfold EncodeVarint64, GetVarint64Ptr.
  rewrite varint64_groups by (change (128 ^ Z.of_nat 10) with (2 ^ 70); lia).
  rewrite (GetVarint_groups shl64 0x1_0000_0000_0000_0000); try lia.
  - by rewrite Z.mul_1_r.
  - intros x k Hk Hx. unfold shl64. rewrite Z.shiftl_mul_pow2 by done. by apply w64_small.
Qed.

(** Every string of fewer than [2^32] bytes is read back. *)
Lemma GetLengthPrefixedSlice_Put value s :
  Z.of_nat (length value) < 0x1_0000_0000 ->
  GetLengthPrefixedSlice (PutLengthPrefixedSlice [] value ++ s) = Some (value, s).
Proof.
  intros Hl. unfold GetLengthPrefixedSlice, PutLengthPrefixedSlice, PutVarint32, GetVarint32.
  rewrite w32_small by (unfold is32; lia). rewrite app_nil_l, <- app_assoc.
  rewrite GetVarint32_Encode by (unfold is32; lia). cbn [mbind option_bind].
  rewrite length_app, Nat2Z.inj_add. destruct (Z.leb_spec (Z.of_nat (length value))
    (Z.of_nat (length value) + Z.of_nat (length s))); [|lia].
  by rewrite Nat2Z.id, take_app_length, drop_app_length.
Qed.

Lemma PutLengthPrefixedSlice_app dst value :
  PutLengthPrefixedSlice dst value = dst ++ PutLengthPrefixedSlice [] value.
Proof. unfold PutLengthPrefixedSlice, PutVarint32. by rewrite app_assoc. Qed.

Lemma DecodeFixed32_Encode v s : is32 v -> DecodeFixed32 (EncodeFixed32 v ++ s) = v.
Proof.
  intros Hv. unfold DecodeFixed32, EncodeFixed32.
  rewrite take_app_le, take_ge by (rewrite length_le_bytes; lia). rewrite le_val_le_bytes.
  apply Z.mod_small. exact Hv.
Qed.
Lemma DecodeFixed64_Encode v s : is64 v -> DecodeFixed64 (EncodeFixed64 v ++ s) = v.
Proof.
  intros Hv. unfold DecodeFixed64, EncodeFixed64.
  rewrite take_app_le, take_ge by (rewrite length_le_bytes; lia). rewrite le_val_le_bytes.
  apply Z.mod_small. exact Hv.
Qed.

(** The length that [VarintLength] announces is the length that is written. *)
Lemma VarintLength_loop_groups n v len :
  0 <= v -> (0 < n)%nat -> v < 128 ^ Z.of_nat n ->
  VarintLength_loop n v len = len + Z.of_nat (length (groups n v)) - 1.
Proof.
  revert v len. induction n as [|n IH]; intros v len Hv H0 Hn; [lia|].
  cbn [VarintLength_loop groups]. rewrite Z.leb_antisym. destruct (Z.ltb_spec v 128); cbn [negb length]; [lia|].
  rewrite Z.shiftr_div_pow2 by lia. change (2 ^ 7) with 128. rewrite IH.
  - lia.
  - apply Z.div_pos; lia.
  - destruct n; [|lia]. change (128 ^ Z.of_nat 1) with 128 in Hn. lia.
  - apply Z.div_lt_upper_bound; [lia|]. rewrite Nat2Z.inj_succ, Z.pow_succ_r in Hn by lia. lia.
Qed.

Lemma groups_more n m v : 0 <= v -> v < 128 ^ Z.of_nat n -> (0 < n <= m)%nat -> groups m v = groups n v.
Proof.
  revert m v. induction n as [|n IH]; intros m v Hv Hn Hm; [lia|]. destruct m as [|m]; [lia|].
  cbn [groups]. destruct (Z.ltb_spec v 128); [done|]. f_equal. apply IH.
  - apply Z.div_pos; lia.
  - apply Z.div_lt_upper_bound; [lia|]. rewrite Nat2Z.inj_succ, Z.pow_succ_r in Hn by lia. lia.
  - destruct n; [|lia]. change (128 ^ Z.of_nat 1) with 128 in Hn. lia.
Qed.

Lemma VarintLength_Encode v : is32 v -> VarintLength v = Z.of_nat (length (EncodeVarint32 v)).
Proof.
  intros Hv. rewrite EncodeVarint32_groups by done. unfold is32 in Hv. unfold VarintLength.
  change 0x1_0000_0000 with (2 ^ 32) in Hv.
  rewrite VarintLength_loop_groups by (change (128 ^ Z.of_nat 10) with (2 ^ 70); lia).
  rewrite (groups_more 5 10) by (change (128 ^ Z.of_nat 5) with (2 ^ 35); lia). lia.
Qed.

Lemma bytes_EncodeVarint32 v : is32 v -> bytes (EncodeVarint32 v).
Proof. intros Hv. rewrite EncodeVarint32_groups by done. apply bytes_groups. apply Hv. Qed.

Lemma bytes_EncodeVarint64 v : is64 v -> bytes (EncodeVarint64 v).
Proof.
  intros Hv. unfold is64 in Hv. unfold EncodeVarint64.
  rewrite varint64_groups by (change (128 ^ Z.of_nat 10) with (2 ^ 70); lia). apply bytes_groups. lia.
Qed.
Lemma bytes_slice l : bytes l -> Z.of_nat (length l) < 0x1_0000_0000 -> bytes (PutLengthPrefixedSlice [] l).
Proof.
  intros Hb Hl. unfold PutLengthPrefixedSlice, PutVarint32. rewrite app_nil_l. apply bytes_app. split; [|done].
  apply bytes_EncodeVarint32, is32_w32.
Qed.

Lemma length_EncodeVarint32 v : is32 v -> (length (EncodeVarint32 v) <= 5)%nat.
Proof. intros Hv. rewrite EncodeVarint32_groups by done. apply length_groups. Qed.

(** ** Round trips *)

(** *** Arrays of fixed-width integers *)

Lemma length_EncodeFixed32 v : length (EncodeFixed32 v) = 4%nat.
Proof. apply length_le_bytes. Qed.

Lemma foldl_PutFixed32 l dst : foldl PutFixed32 dst l = dst ++ concat (map EncodeFixed32 l).
Proof.
  revert dst. induction l as [|x l IH]; intros dst; cbn [foldl map concat]; [by rewrite app_nil_r|].
  rewrite IH. unfold PutFixed32. by rewrite <- app_assoc.
Qed.

Lemma DecodeFixed32_array l i v rest :
  l !! i = Some v -> is32 v -> DecodeFixed32 (drop (4 * i) (concat (map EncodeFixed32 l) ++ rest)) = v.
Proof.
  revert i. induction l as [|x l IH]; intros i Hi Hv; [done|]. cbn [map concat]. rewrite <- app_assoc.
  destruct i as [|i]; cbn in Hi.
  - injection Hi as ->. by apply DecodeFixed32_Encode.
  - replace (4 * S i)%nat with (length (EncodeFixed32 x) + 4 * i)%nat by (unfold EncodeFixed32; rewrite length_le_bytes; lia).
    rewrite drop_app_add. by apply IH.
Qed.

Lemma length_fixed_array l : length (concat (map EncodeFixed32 l)) = (4 * length l)%nat.
Proof.
  induction l as [|x l IH]; [done|]. cbn [map concat length]. rewrite length_app, IH. unfold EncodeFixed32.
  rewrite length_le_bytes. lia.
Qed.

(** What the encoders write, the decoders read back, and they leave the bytes that
    follow alone: fixed-width and variable-length integers of 32 and 64 bits, and strings
    of fewer than [2^32] bytes.  [VarintLength] is the number of bytes that are written. *)
Theorem coding_roundtrip (v32 v64 : Z) (value rest : list Z) :
  is32 v32 -> is64 v64 -> Z.of_nat (length value) < 0x1_0000_0000 ->
  DecodeFixed32 (EncodeFixed32 v32 ++ rest) = v32
  /\ DecodeFixed64 (EncodeFixed64 v64 ++ rest) = v64
  /\ GetVarint32 (EncodeVarint32 v32 ++ rest) = Some (v32, rest)
  /\ GetVarint64 (EncodeVarint64 v64 ++ rest) = Some (v64, rest)
  /\ GetLengthPrefixedSlice (PutLengthPrefixedSlice [] value ++ rest) = Some (value, rest)
  /\ VarintLength v32 = Z.of_nat (length (EncodeVarint32 v32)).
Proof.
  intros H32 H64 Hl. split_and!.
  - by apply DecodeFixed32_Encode.
  - by apply DecodeFixed64_Encode.
  - by apply GetVarint32_Encode.
  - by apply GetVarint64_Encode.
  - by apply GetLengthPrefixedSlice_Put.
  - by apply VarintLength_Encode.
Qed.

Lemma coding_roundtrip_witness :
  GetVarint32 (EncodeVarint32 300 ++ [7]) = Some (300, [7]) /\ EncodeVarint32 300 = [172; 2].
Proof.
  split; [|reflexivity].
  apply (coding_roundtrip 300 0 [] [7]); [unfold is32; lia|unfold is64; lia|reflexivity].
Defined.
