(* ===== verification/LogFile.v ===== *)
(** * The log of LevelDB: db/log_format.h, log_writer.cc and log_reader.cc of
    src/packages/LevelDB.1.16.0.5/lib/native/src

    Every write goes to the log first.  A record is cut into fragments that fit
    into blocks of 32 KB, each with a checksum, a length and a type.  The reader
    puts them together again, and takes a file that ends in the middle of a record
    for the trace of a crash: the unfinished record is dropped silently.

    Files are lists of bytes; [Append], [Flush], [Read] and [Skip] of the
    environment are taken to succeed. *)
From Stdlib Require Import String.
From stdpp Require Import base strings numbers option list.
From S2P Require Import Prelude Coding Crc32c.
Local Open Scope list_scope.
Open Scope Z_scope.
Open Scope word_scope.

(** ** Format *)

Definition kZeroType : Z := 0.
Definition kFullType : Z := 1.
Definition kFirstType : Z := 2.
Definition kMiddleType : Z := 3.
Definition kLastType : Z := 4.
Definition kEof : Z := kLastType + 1.
Definition kBadRecord : Z := kLastType + 2.
Definition kBlockSize : Z := 32768.
Definition kHeaderSize : Z := 7.

Definition size (l : list Z) : Z := Z.of_nat (length l).

(** ** The writer *)

Record Writer := { dest_ : list Z; block_offset_ : Z }.
Definition new_Writer : Writer := {| dest_ := []; block_offset_ := 0 |}.

(** The checksum of the type byte, as the constructor computes it; the addresses of
    buffers do not matter to checksums ([Extend_crc]) and are 0 here. *)
Definition type_crc_ (t : Z) : Z := Value 0 [t].

Definition EmitPhysicalRecord (t : Z) (ptr : list Z) (w : Writer) : Writer :=
  let n := size ptr in
  let crc := Mask (Extend 0 (type_crc_ t) ptr) in
  let buf := EncodeFixed32 crc ++ [w8 (n .& 0xff); w8 (n >> 8); w8 t] in
  {| dest_ := dest_ w ++ buf ++ ptr; block_offset_ := block_offset_ w + kHeaderSize + n |}.

(** [do { ... } while (left > 0)] *)
Fixpoint AddRecord_loop (fuel : nat) (begin : bool) (ptr : list Z) (w : Writer) : option Writer :=
  match fuel with
  | O => None
  | S fuel' =>
      let leftover := kBlockSize - block_offset_ w in
      let w :=
        if leftover <? kHeaderSize then
          {| dest_ := if 0 <? leftover then dest_ w ++ replicate (Z.to_nat leftover) 0 else dest_ w;
             block_offset_ := 0 |}
        else w in
      let avail := kBlockSize - block_offset_ w - kHeaderSize in
      let left := size ptr in
      let fragment_length := if left <? avail then left else avail in
      let end_ := left =? fragment_length in
      let type :=
        if begin && end_ then kFullType
        else if begin then kFirstType
        else if end_ then kLastType
        else kMiddleType in
      let w := EmitPhysicalRecord type (take (Z.to_nat fragment_length) ptr) w in
      let ptr := drop (Z.to_nat fragment_length) ptr in
      if 0 <? size ptr then AddRecord_loop fuel' false ptr w else Some w
  end.

(** Only the first fragment can be empty, so there are at most two turns more than
    bytes. *)
Definition AddRecord (slice : list Z) (w : Writer) : option Writer :=
  AddRecord_loop (length slice + 2) true slice w.

(** ** The reader *)

Record Reader := {
  file_ : list Z;
  buffer_ : list Z;
  eof_ : bool;
  last_record_offset_ : Z;
  end_of_buffer_offset_ : Z;
  reported_ : list (Z * string) }.

Definition new_Reader (file : list Z) : Reader :=
  {| file_ := file; buffer_ := []; eof_ := false; last_record_offset_ := 0;
     end_of_buffer_offset_ := 0; reported_ := [] |}.

Definition set_buffer (b : list Z) (r : Reader) : Reader :=
  {| file_ := file_ r; buffer_ := b; eof_ := eof_ r; last_record_offset_ := last_record_offset_ r;
     end_of_buffer_offset_ := end_of_buffer_offset_ r; reported_ := reported_ r |}.
Definition set_last (o : Z) (r : Reader) : Reader :=
  {| file_ := file_ r; buffer_ := buffer_ r; eof_ := eof_ r; last_record_offset_ := o;
     end_of_buffer_offset_ := end_of_buffer_offset_ r; reported_ := reported_ r |}.

Section reader.
Context (checksum_ : bool) (initial_offset_ : Z).

Definition ReportCorruption (bytes : Z) (reason : string) (r : Reader) : Reader :=
  if initial_offset_ <=? w64 (end_of_buffer_offset_ r - size (buffer_ r) - bytes) then
    {| file_ := file_ r; buffer_ := buffer_ r; eof_ := eof_ r;
       last_record_offset_ := last_record_offset_ r; end_of_buffer_offset_ := end_of_buffer_offset_ r;
       reported_ := reported_ r ++ [(bytes, reason)] |}
  else r.

Definition SkipToInitialBlock (r : Reader) : Reader :=
  let offset_in_block := initial_offset_ mod kBlockSize in
  let block_start_location := initial_offset_ - offset_in_block in
  let block_start_location :=
    if kBlockSize - 6 <? offset_in_block then block_start_location + kBlockSize
    else block_start_location in
  {| file_ := if 0 <? block_start_location then drop (Z.to_nat block_start_location) (file_ r)
              else file_ r;
     buffer_ := buffer_ r; eof_ := eof_ r; last_record_offset_ := last_record_offset_ r;
     end_of_buffer_offset_ := block_start_location; reported_ := reported_ r |}.

(** [file_->Read(kBlockSize, &buffer_, backing_store_)] *)
Definition read_block (r : Reader) : Reader :=
  let b := take (Z.to_nat kBlockSize) (file_ r) in
  {| file_ := drop (Z.to_nat kBlockSize) (file_ r); buffer_ := b;
     eof_ := if size b <? kBlockSize then true else eof_ r;
     last_record_offset_ := last_record_offset_ r;
     end_of_buffer_offset_ := end_of_buffer_offset_ r + size b; reported_ := reported_ r |}.

(** The part of [ReadPhysicalRecord] after the loop has a header in the buffer; a
    [char] is signed, and becomes an [unsigned int]. *)
Definition parse_header (r : Reader) : Z * list Z * Reader :=
  let header := buffer_ r in
  let a := nthZ header 4 .& 0xff in
  let b := nthZ header 5 .& 0xff in
  let type := if nthZ header 6 <? 128 then nthZ header 6 else w32 (nthZ header 6 - 256) in
  let length := a .| (b << 8) in
  if size (buffer_ r) <? kHeaderSize + length then
    let drop_size := size (buffer_ r) in
    let r := set_buffer [] r in
    if negb (eof_ r) then (kBadRecord, [], ReportCorruption drop_size "bad record length" r)
    else (kEof, [], r)
  else if (type =? kZeroType) && (length =? 0) then (kBadRecord, [], set_buffer [] r)
  else if checksum_ && negb (Value 0 (take (Z.to_nat (1 + length)) (drop 6 header))
                             =? Unmask (DecodeFixed32 header)) then
    let drop_size := size (buffer_ r) in
    let r := set_buffer [] r in
    (kBadRecord, [], ReportCorruption drop_size "checksum mismatch" r)
  else
    let r := set_buffer (drop (Z.to_nat (kHeaderSize + length)) header) r in
    if w64 (end_of_buffer_offset_ r - size (buffer_ r) - kHeaderSize - length) <? initial_offset_
    then (kBadRecord, [], r)
    else (type, take (Z.to_nat length) (drop (Z.to_nat kHeaderSize) header), r).

(** The loop reads a block at most once: a short one sets [eof_]. *)
Definition ReadPhysicalRecord (r : Reader) : Z * list Z * Reader :=
  if size (buffer_ r) <? kHeaderSize then
    if negb (eof_ r) then
      let r := read_block r in
      if size (buffer_ r) <? kHeaderSize then (kEof, [], set_buffer [] r) else parse_header r
    else (kEof, [], set_buffer [] r)
  else parse_header r.

(** [while (true)] of [ReadRecord]; the result is the record or the end of the file. *)
Fixpoint ReadRecord_loop (fuel : nat) (in_fragmented_record : bool) (scratch : list Z)
    (prospective : Z) (r : Reader) : option (option (list Z) * Reader) :=
  match fuel with
  | O => None
  | S fuel' =>
      let physical_record_offset := w64 (end_of_buffer_offset_ r - size (buffer_ r)) in
      let '(record_type, fragment, r) := ReadPhysicalRecord r in
      if record_type =? kFullType then
        let r := if in_fragmented_record && negb (size scratch =? 0)
                 then ReportCorruption (size scratch) "partial record without end(1)" r else r in
        Some (Some fragment, set_last physical_record_offset r)
      else if record_type =? kFirstType then
        let r := if in_fragmented_record && negb (size scratch =? 0)
                 then ReportCorruption (size scratch) "partial record without end(2)" r else r in
        ReadRecord_loop fuel' true fragment physical_record_offset r
      else if record_type =? kMiddleType then
        if in_fragmented_record
        then ReadRecord_loop fuel' true (scratch ++ fragment) prospective r
        else ReadRecord_loop fuel' in_fragmented_record scratch prospective
               (ReportCorruption (size fragment) "missing start of fragmented record(1)" r)
      else if record_type =? kLastType then
        if in_fragmented_record
        then Some (Some (scratch ++ fragment), set_last prospective r)
        else ReadRecord_loop fuel' in_fragmented_record scratch prospective
               (ReportCorruption (size fragment) "missing start of fragmented record(2)" r)
      else if record_type =? kEof then Some (None, r)
      else if record_type =? kBadRecord then
        if in_fragmented_record
        then ReadRecord_loop fuel' false [] prospective
               (ReportCorruption (size scratch) "error in middle of record" r)
        else ReadRecord_loop fuel' in_fragmented_record scratch prospective r
      else
        ReadRecord_loop fuel' false [] prospective
          (ReportCorruption (size fragment + (if in_fragmented_record then size scratch else 0))
             "unknown record type" r)
  end.

(** Every turn but the last takes bytes from the buffer or the file
    ([ReadRecord_terminates]). *)
Definition ReadRecord (r : Reader) : option (option (list Z) * Reader) :=
  let r := if last_record_offset_ r <? initial_offset_ then SkipToInitialBlock r else r in
  ReadRecord_loop (S (length (buffer_ r) + length (file_ r))) false [] 0 r.
End reader.

(** ** Termination *)

Lemma ReportCorruption_frame io n s r :
  let r' := ReportCorruption io n s r in
  buffer_ r' = buffer_ r /\ file_ r' = file_ r /\ eof_ r' = eof_ r.
Proof. unfold ReportCorruption. by destruct (_ <=? _). Qed.

Definition remaining (r : Reader) : nat := (length (buffer_ r) + length (file_ r))%nat.

Lemma remaining_report io n s r : remaining (ReportCorruption io n s r) = remaining r.
Proof. unfold remaining. by destruct (ReportCorruption_frame io n s r) as (-> & -> & _). Qed.

Lemma parse_header_remaining ck io r t f r' :
  kHeaderSize <= size (buffer_ r) -> parse_header ck io r = (t, f, r') ->
  (remaining r' < remaining r)%nat.
Proof.
  intros Hb H. unfold parse_header in H. unfold size, kHeaderSize in *.
  assert (forall l, 0 <= l -> (length (drop (Z.to_nat (7 + l)) (buffer_ r)) < length (buffer_ r))%nat) as Hd.
  { intros l Hl. rewrite length_drop. lia. }
  assert (0 <= (nthZ (buffer_ r) 4 .& 255) .| ((nthZ (buffer_ r) 5 .& 255) << 8)) as Hl.
  { apply Z.lor_nonneg. split; [apply Z.land_nonneg; lia|]. apply is32_shl. }
  cbn zeta in H.
  repeat match type of H with (if ?c then _ else _) = _ => destruct c end;
    injection H as <- <- <-; rewrite ?remaining_report; unfold remaining; cbn [buffer_ file_ set_buffer length];
    specialize (Hd _ Hl); lia.
Qed.

Lemma ReadPhysicalRecord_remaining ck io r t f r' :
  ReadPhysicalRecord ck io r = (t, f, r') -> t <> kEof -> (remaining r' < remaining r)%nat.
Proof.
  intros H Ht. unfold ReadPhysicalRecord in H.
  assert (remaining (read_block r) <= remaining r)%nat as Hr.
  { unfold remaining, read_block. cbn [buffer_ file_]. rewrite length_take, length_drop. lia. }
  repeat match type of H with (if ?c then _ else _) = _ => destruct c eqn:? end;
    try (injection H as <- <- <-; done).
  - apply parse_header_remaining in H; [lia|]. by apply Z.ltb_ge.
  - apply parse_header_remaining in H; [lia|]. by apply Z.ltb_ge.
Qed.

Lemma ReadRecord_loop_total ck io fuel infr scratch p r :
  (remaining r < fuel)%nat -> exists res, ReadRecord_loop ck io fuel infr scratch p r = Some res.
Proof.
  revert infr scratch p r. induction fuel as [|fuel IH]; intros infr scratch p r Hf; [lia|].
  cbn [ReadRecord_loop]. destruct (ReadPhysicalRecord ck io r) as [[t f] r'] eqn:Hr.
  destruct (Z.eqb_spec t kEof) as [->|Ht].
  { change (kEof =? kFullType) with false. change (kEof =? kFirstType) with false.
    change (kEof =? kMiddleType) with false. change (kEof =? kLastType) with false. cbn iota. eauto. }
  pose proof (ReadPhysicalRecord_remaining _ _ _ _ _ _ Hr Ht) as Hlt.
  repeat match goal with |- context [if ?c then _ else _] => destruct c end; eauto;
    apply IH; rewrite ?remaining_report; lia.
Qed.

(** Reports are only added. *)
Lemma reported_report io n s r : exists l, reported_ (ReportCorruption io n s r) = reported_ r ++ l.
Proof. unfold ReportCorruption. destruct (_ <=? _); [by eexists|]. exists []. by rewrite app_nil_r. Qed.

Lemma parse_header_reported ck io r t f r' :
  parse_header ck io r = (t, f, r') -> exists l, reported_ r' = reported_ r ++ l.
Proof.
  intros H. unfold parse_header in H. cbn zeta in H.
  repeat match type of H with (if ?c then _ else _) = _ => destruct c end;
    injection H as <- <- <-;
    try (match goal with |- context [ReportCorruption ?a ?b ?c ?d] => destruct (reported_report a b c d) as [l E] end;
         exists l; exact E);
    exists []; by rewrite app_nil_r.
Qed.

Lemma ReadPhysicalRecord_reported ck io r t f r' :
  ReadPhysicalRecord ck io r = (t, f, r') -> exists l, reported_ r' = reported_ r ++ l.
Proof.
  intros H. unfold ReadPhysicalRecord in H.
  repeat match type of H with (if ?c then _ else _) = _ => destruct c end;
    first [exact (parse_header_reported _ _ _ _ _ _ H) | injection H as <- <- <-; exists []; by rewrite app_nil_r].
Qed.

Lemma reported_trans (a b c : list (Z * string)) :
  (exists l, b = a ++ l) -> (exists l, c = b ++ l) -> exists l, c = a ++ l.
Proof. intros [l ->] [l' ->]. exists (l ++ l'). by rewrite app_assoc. Qed.

Lemma ReadRecord_loop_reported ck io fuel infr scratch p r res r' :
  ReadRecord_loop ck io fuel infr scratch p r = Some (res, r') -> exists l, reported_ r' = reported_ r ++ l.
Proof.
  revert infr scratch p r. induction fuel as [|fuel IH]; intros infr scratch p r H; [done|].
  cbn [ReadRecord_loop] in H. destruct (ReadPhysicalRecord ck io r) as [[t f] r1] eqn:Hr.
  apply ReadPhysicalRecord_reported in Hr. eapply reported_trans; [exact Hr|].
  pose proof (fun n s => reported_report io n s r1) as Hrep.
  assert (exists l, reported_ r1 = reported_ r1 ++ l) as Hrefl by (exists []; by rewrite app_nil_r).
  repeat match type of H with (if ?c then _ else _) = Some _ => destruct c end;
    try (apply Some_inj, pair_eq in H as [_ <-]; cbn [set_last reported_]; auto);
    try (apply IH in H; eapply reported_trans; [|exact H]; auto);
    repeat match goal with |- context [if ?c then _ else _] => destruct c end; auto.
Qed.

Lemma ReadRecord_reported ck io r res r' :
  ReadRecord ck io r = Some (res, r') -> exists l, reported_ r' = reported_ r ++ l.
Proof.
  unfold ReadRecord. intros H. apply ReadRecord_loop_reported in H. by destruct (_ <? _).
Qed.

(** ** Physical records *)

Definition header_bytes (t : Z) (p : list Z) : list Z :=
  EncodeFixed32 (Mask (Extend 0 (type_crc_ t) p)) ++ [w8 (size p .& 0xff); w8 (size p >> 8); w8 t].
Definition record_bytes (t : Z) (p : list Z) : list Z := header_bytes t p ++ p.

(** A fragment that the writer emits. *)
Definition fragment_ok (t : Z) (p : list Z) : Prop := 1 <= t <= 4 /\ bytes p /\ size p < 0x1_0000.

Lemma length_header t p : length (header_bytes t p) = 7%nat.
Proof. reflexivity. Qed.

Lemma size_record t p : size (record_bytes t p) = 7 + size p.
Proof. unfold size, record_bytes. rewrite length_app, length_header. lia. Qed.

Lemma header_fields t p x :
  fragment_ok t p ->
  let b := header_bytes t p ++ x in
  ((nthZ b 4 .& 0xff) .| ((nthZ b 5 .& 0xff) << 8)) = size p
  /\ nthZ b 6 = t /\ DecodeFixed32 b = Mask (Extend 0 (type_crc_ t) p).
Proof.
  intros (Ht & Hp & Hs) b. unfold b, header_bytes.
  assert (0 <= size p) as H0 by (unfold size; lia).
  assert (forall c, nthZ (EncodeFixed32 c ++ [w8 (size p .& 0xff); w8 (size p >> 8); w8 t] ++ x) 4 = w8 (size p .& 0xff)
    /\ nthZ (EncodeFixed32 c ++ [w8 (size p .& 0xff); w8 (size p >> 8); w8 t] ++ x) 5 = w8 (size p >> 8)
    /\ nthZ (EncodeFixed32 c ++ [w8 (size p .& 0xff); w8 (size p >> 8); w8 t] ++ x) 6 = w8 t) as Hn by done.
  rewrite <- app_assoc. destruct (Hn (Mask (Extend 0 (type_crc_ t) p))) as (-> & -> & ->).
  split; [|split; [apply w8_small; unfold is8; lia|apply DecodeFixed32_Encode, is32_Mask]].
  assert (size p .& 0xff = size p mod 2 ^ 8) as -> by (change 0xff with (Z.ones 8); apply Z.land_ones; lia).
  rewrite Z.shiftr_div_pow2 by lia. unfold w8. change (2 ^ 8) with 0x100.
  rewrite Z.mod_mod by lia. change 0xff with (Z.ones 8). rewrite !Z.land_ones by lia. change (2 ^ 8) with 0x100.
  rewrite !Z.mod_mod by lia.
  assert (0 <= size p / 0x100 < 0x100) as Hd by (Z.to_euclidean_division_equations; lia).
  rewrite (Z.mod_small (size p / 0x100)) by lia. unfold shl32.
  rewrite w32_shiftl_byte by (unfold is8; lia).
  rewrite lor_shiftl_add by (change (2 ^ 8) with 0x100; pose proof (Z.mod_pos_bound (size p) 0x100); lia).
  change (2 ^ 8) with 0x100. pose proof (Z.div_mod (size p) 0x100). lia.
Qed.

(** A whole fragment at the start of the buffer is returned. *)
Lemma parse_whole t p x r :
  fragment_ok t p -> buffer_ r = record_bytes t p ++ x ->
  parse_header true 0 r = (t, p, set_buffer x r).
Proof.
  intros Hok Hb. unfold parse_header. pose proof Hok as (Ht & Hp & Hs).
  assert (buffer_ r = header_bytes t p ++ p ++ x) as Hb' by (rewrite Hb; unfold record_bytes; by rewrite <- app_assoc).
  destruct (header_fields t p (p ++ x) Hok) as (El & Et & Ec). rewrite <- Hb' in El, Et, Ec.
  rewrite El, Et. cbn zeta.
  assert (size (buffer_ r) = 7 + size p + size x) as Hsz.
  { rewrite Hb', <- (size_record t p). unfold size, record_bytes. rewrite !length_app. lia. }
  unfold size in Hsz, Hs |- *. unfold kHeaderSize in *.
  destruct (Z.ltb_spec t 128); [|lia].
  destruct (Z.ltb_spec (Z.of_nat (length (buffer_ r))) (7 + Z.of_nat (length p))); [lia|].
  destruct (Z.eqb_spec t kZeroType); [unfold kZeroType in *; lia|]. cbn [andb].
  replace (take (Z.to_nat (1 + Z.of_nat (length p))) (drop 6 (buffer_ r))) with (t :: p).
  2: { rewrite Hb'. change (drop 6 (header_bytes t p ++ p ++ x)) with (w8 t :: p ++ x).
       replace (Z.to_nat (1 + Z.of_nat (length p))) with (S (length p)) by lia. cbn [take].
       rewrite take_app_length, w8_small; [done|unfold is8; lia]. }
  assert (bytes [t]) as Hbt by (apply bytes_1; unfold is8; lia).
  rewrite Ec, Unmask_Mask by (apply is32_Extend; [apply is32_Extend; auto with words|done]).
  unfold Value. change (t :: p) with ([t] ++ p). rewrite <- (Extend_app 0 0 0 [t] p) by auto with words.
  unfold type_crc_, Value. rewrite Z.eqb_refl. cbn [negb].
  replace (drop (Z.to_nat (7 + Z.of_nat (length p))) (buffer_ r)) with x.
  2: { rewrite Hb. replace (Z.to_nat (7 + Z.of_nat (length p))) with (length (record_bytes t p));
         [by rewrite drop_app_length|]. unfold record_bytes. rewrite length_app, length_header. lia. }
  destruct (Z.ltb_spec (w64 (end_of_buffer_offset_ (set_buffer x r)
    - Z.of_nat (length (buffer_ (set_buffer x r))) - 7 - Z.of_nat (length p))) 0) as [Hneg|_].
  { pose proof (is64_w64 (end_of_buffer_offset_ (set_buffer x r)
      - Z.of_nat (length (buffer_ (set_buffer x r))) - 7 - Z.of_nat (length p))) as [? _]. lia. }
  do 2 f_equal. rewrite Hb'. change (Z.to_nat 7) with (length (header_bytes t p)).
  by rewrite drop_app_length, Nat2Z.id, take_app_length.
Qed.

(** The beginning of a fragment at the end of the file is the end of the log. *)
Lemma parse_cut t p x r :
  fragment_ok t p -> record_bytes t p = buffer_ r ++ x -> x <> [] -> kHeaderSize <= size (buffer_ r) ->
  eof_ r = true -> parse_header true 0 r = (kEof, [], set_buffer [] r).
Proof.
  intros Hok Hb Hx Hsz He. unfold parse_header. unfold kHeaderSize, size in *.
  assert (exists z, buffer_ r = header_bytes t p ++ z) as [z Hz].
  { exists (drop 7 (buffer_ r)). rewrite <- (take_drop 7 (buffer_ r)) at 1. f_equal.
    apply (f_equal (take 7)) in Hb. unfold record_bytes in Hb.
    rewrite !take_app_le in Hb by (rewrite ?length_header; lia). by rewrite <- Hb, take_ge by done. }
  destruct (header_fields t p z Hok) as (El & Et & _). rewrite <- Hz in El, Et. rewrite El, Et. cbn zeta.
  apply (f_equal length) in Hb. unfold record_bytes in Hb. rewrite !length_app, length_header in Hb.
  assert (0 < length x)%nat by (destruct x; [done|cbn; lia]).
  unfold size. destruct (Z.ltb_spec (Z.of_nat (length (buffer_ r))) (7 + Z.of_nat (length p))); [|lia].
  cbn [eof_ set_buffer]. by rewrite He.
Qed.

(** ** Where the reader is *)

Definition sub (F : list Z) (a b : Z) : list Z := take (Z.to_nat (b - a)) (drop (Z.to_nat a) F).

(** The reader has the bytes of file [F] from [pos] up to [e] in its buffer, in the
    block that starts at [s]; the block was read whole, or it is the last and shorter
    one.  Before the first read, the block is the one before the file. *)
Record at_pos (F : list Z) (s pos e : Z) (r : Reader) : Prop := {
  at_range : 0 <= pos /\ s <= pos <= e /\ e <= s + kBlockSize /\ e <= size F;
  at_buffer : buffer_ r = sub F pos e;
  at_file : file_ r = drop (Z.to_nat e) F;
  at_eof : (e = s + kBlockSize /\ eof_ r = false)
           \/ (e < s + kBlockSize /\ e = size F /\ eof_ r = true) }.

Lemma size_sub F a b : 0 <= a <= b -> b <= size F -> size (sub F a b) = b - a.
Proof. intros H1 H2. unfold sub, size in *. rewrite length_take, length_drop. lia. Qed.

Lemma sub_split F a b c : 0 <= a <= b -> b <= c -> sub F a c = sub F a b ++ sub F b c.
Proof.
  intros H1 H2. unfold sub. replace (Z.to_nat (c - a)) with (Z.to_nat (b - a) + Z.to_nat (c - b))%nat by lia.
  rewrite <- take_take_drop, drop_drop. do 3 f_equal. lia.
Qed.

Lemma new_Reader_at F : at_pos F (- kBlockSize) 0 0 (new_Reader F).
Proof.
  split; cbn [new_Reader buffer_ file_ eof_]; unfold kBlockSize, size; try done; try lia.
Qed.

(** Reading the next block. *)
Lemma read_block_at F s pos e r :
  at_pos F s pos e r -> s + kBlockSize <= size F -> 0 <= s + kBlockSize ->
  eof_ r = false
  /\ at_pos F (s + kBlockSize) (s + kBlockSize) (Z.min (size F) (s + kBlockSize + kBlockSize)) (read_block r).
Proof.
  intros [Hr Hb Hf He] Hs H0. assert (e = s + kBlockSize /\ eof_ r = false) as [Ee Eeof] by (destruct He as [|(? & ? & _)]; lia || done).
  split; [done|]. subst e. set (q := s + kBlockSize) in *.
  assert (size (take (Z.to_nat kBlockSize) (file_ r)) = Z.min kBlockSize (size F - q)) as Hsz.
  { rewrite Hf. unfold size in *. rewrite length_take, length_drop. unfold kBlockSize in *. lia. }
  split; unfold read_block; cbn [buffer_ file_ eof_].
  - unfold kBlockSize in *. lia.
  - rewrite Hf. unfold sub.
    destruct (Z.le_gt_cases (q + kBlockSize) (size F)).
    + rewrite Z.min_r by lia. do 2 f_equal. lia.
    + rewrite Z.min_l by lia. rewrite !take_ge; [done|..]; unfold size, kBlockSize in *; rewrite length_drop; lia.
  - rewrite Hf, drop_drop. destruct (Z.le_gt_cases (q + kBlockSize) (size F)).
    + f_equal. unfold kBlockSize in *. lia.
    + rewrite !drop_ge; [done|..]; unfold size, kBlockSize in *; lia.
  - rewrite Hsz, Eeof. destruct (Z.ltb_spec (Z.min kBlockSize (size F - q)) kBlockSize); [right|left];
      split_and?; try done; lia.
Qed.

(** The place of the next fragment: here, or in the next block when there is no room
    for a header. *)
Definition slot (s pos : Z) : Z * Z :=
  if s + kBlockSize - pos <? kHeaderSize then (s + kBlockSize, s + kBlockSize) else (s, pos).

Definition holds (G : list Z) (q : Z) (l : list Z) : Prop := exists pre post, G = pre ++ l ++ post /\ size pre = q.

Lemma sub_holds G q l k :
  holds G q l -> q + size l <= k -> sub (take (Z.to_nat k) G) q (q + size l) = l.
Proof.
  intros (pre & post & -> & <-) Hk. unfold sub, size in *.
  rewrite take_app, (take_ge pre) by lia. rewrite take_app, (take_ge l) by lia.
  rewrite Nat2Z.id, drop_app_length. by replace (Z.to_nat _) with (length l) by lia; rewrite take_app_length.
Qed.

(** The part of a string that is in the file. *)
Lemma sub_cut G q l k :
  holds G q l -> q <= k < q + size l ->
  exists x, l = sub (take (Z.to_nat k) G) q k ++ x /\ x <> [].
Proof.
  intros (pre & post & -> & <-) Hk. unfold sub, size in *.
  exists (drop (Z.to_nat (k - Z.of_nat (length pre))) l).
  rewrite take_app, (take_ge pre) by lia. rewrite take_app.
  rewrite Nat2Z.id, drop_app_length. replace (Z.to_nat k - length pre)%nat with (Z.to_nat (k - Z.of_nat (length pre))) by lia.
  replace (Z.to_nat (k - Z.of_nat (length pre)) - length l)%nat with 0%nat by lia. rewrite take_0, app_nil_r.
  rewrite take_take, Nat.min_id, take_drop. split; [done|].
  intros E%(f_equal length). rewrite length_drop in E. cbn in E. lia.
Qed.

Lemma size_take_file G k : 0 <= k <= size G -> size (take (Z.to_nat k) G) = k.
Proof. intros Hk. unfold size in *. rewrite length_take. lia. Qed.

(** A fragment in the block that is in the buffer. *)
Lemma phys_here G k s pos e r t p :
  let F := take (Z.to_nat k) G in
  0 <= k <= size G -> at_pos F s pos e r -> fragment_ok t p -> holds G pos (record_bytes t p) ->
  pos + 7 + size p <= s + kBlockSize -> 7 <= size (buffer_ r) ->
  if pos + 7 + size p <=? k
  then exists r', parse_header true 0 r = (t, p, r') /\ at_pos F s (pos + 7 + size p) e r'
       /\ reported_ r' = reported_ r
  else parse_header true 0 r = (kEof, [], set_buffer [] r).
Proof.
  intros F Hk Hat Hok Hh Hroom H7. pose proof (size_take_file G k Hk) as HF. fold F in HF.
  destruct Hat as [Hr Hb Hf He]. pose proof (size_record t p) as Hrec.
  assert (0 <= size p) as Hp0 by (unfold size; lia).
  destruct (Z.leb_spec (pos + 7 + size p) k) as [Hin|Hout].
  - assert (pos + 7 + size p <= e) as Hle by (destruct He as [(? & _)|(? & ? & _)]; lia).
    exists (set_buffer (sub F (pos + 7 + size p) e) r). split; [|split].
    + apply parse_whole; [done|]. rewrite Hb, (sub_split F pos (pos + size (record_bytes t p)) e) by lia.
      unfold F. rewrite (sub_holds G pos (record_bytes t p) k Hh) by lia.
      by replace (pos + 7 + size p) with (pos + size (record_bytes t p)) by lia.
    + split; cbn [set_buffer buffer_ file_ eof_]; done || lia.
    + done.
  - assert (e = k /\ eof_ r = true) as [-> Heof] by (destruct He as [(? & _)|(? & ? & ?)]; [lia|split; [lia|done]]).
    destruct (sub_cut G pos (record_bytes t p) k Hh ltac:(lia)) as (x & Ex & Hx).
    apply (parse_cut t p x); [done|by rewrite Hb|done|exact H7|done].
Qed.

(** One call of [ReadPhysicalRecord]. *)
Lemma phys_read G k s pos e r t p s' q :
  let F := take (Z.to_nat k) G in
  0 <= k <= size G -> at_pos F s pos e r -> 0 <= s + kBlockSize -> slot s pos = (s', q) ->
  fragment_ok t p -> holds G q (record_bytes t p) -> q + 7 + size p <= s' + kBlockSize ->
  exists r', reported_ r' = reported_ r /\
    if q + 7 + size p <=? k
    then ReadPhysicalRecord true 0 r = (t, p, r') /\ exists e', at_pos F s' (q + 7 + size p) e' r'
    else ReadPhysicalRecord true 0 r = (kEof, [], r').
Proof.
  intros F Hk Hat Hs Hslot Hok Hh Hroom. pose proof (size_take_file G k Hk) as HF. fold F in HF.
  assert (0 <= size p) as Hp0 by (unfold size; lia).
  pose proof Hat as [Hr Hb Hf He]. unfold ReadPhysicalRecord, slot in *.
  assert (size (buffer_ r) = e - pos) as Hbuf by (rewrite Hb; apply size_sub; lia).
  destruct (Z.ltb_spec (s + kBlockSize - pos) kHeaderSize) as [Hfull|Hfree]; injection Hslot as <- <-;
    unfold kHeaderSize in *.
  - destruct (Z.ltb_spec (size (buffer_ r)) 7); [|lia].
    destruct (Z.le_gt_cases (s + kBlockSize) k) as [Hblk|Hblk].
    + destruct (read_block_at F s pos e r Hat ltac:(lia) Hs) as [Heof Hat']. rewrite Heof. cbn [negb].
      set (e' := Z.min _ _) in Hat'.
      assert (size (buffer_ (read_block r)) = e' - (s + kBlockSize)) as Hb'.
      { rewrite (at_buffer _ _ _ _ _ Hat'). apply size_sub; unfold kBlockSize in *; lia. }
      destruct (Z.ltb_spec (size (buffer_ (read_block r))) 7) as [Hshort|Hlong].
      * exists (set_buffer [] (read_block r)). split; [done|].
        destruct (Z.leb_spec (s + kBlockSize + 7 + size p) k); [unfold kBlockSize in *; lia|done].
      * pose proof (phys_here G k _ _ e' _ t p Hk Hat' Hok Hh Hroom Hlong) as H'. fold F in H'.
        destruct (s + kBlockSize + 7 + size p <=? k); [|by eexists; split; [|exact H']; done].
        destruct H' as (r' & Hp & Ha & Hrep). exists r'. split; [done|]. split; [done|]. by exists e'.
    + assert (eof_ r = true) as -> by (destruct He as [(? & _)|(_ & _ & ?)]; [lia|done]). cbn [negb].
      exists (set_buffer [] r). split; [done|].
      destruct (Z.leb_spec (s + kBlockSize + 7 + size p) k); [lia|done].
  - destruct (Z.ltb_spec (size (buffer_ r)) 7) as [Hshort|Hlong].
    + assert (e = k /\ eof_ r = true) as [-> Heof] by (destruct He as [(? & _)|(? & ? & ?)]; [lia|split; [lia|done]]).
      rewrite Heof. cbn [negb]. exists (set_buffer [] r). split; [done|].
      destruct (Z.leb_spec (pos + 7 + size p) k); [lia|done].
    + pose proof (phys_here G k s pos e r t p Hk Hat Hok Hh Hroom Hlong) as H'. fold F in H'.
      destruct (pos + 7 + size p <=? k); [|by eexists; split; [|exact H']; done].
      destruct H' as (r' & Hp & Ha & Hrep). exists r'. split; [done|]. split; [done|]. by exists e.
Qed.

(** At the end of the file. *)
Lemma phys_end F s pos e r :
  at_pos F s pos e r -> 0 <= s + kBlockSize -> pos = size F ->
  exists r', ReadPhysicalRecord true 0 r = (kEof, [], r') /\ reported_ r' = reported_ r.
Proof.
  intros Hat Hs Hpos. pose proof Hat as [Hr Hb Hf He]. unfold ReadPhysicalRecord.
  assert (size (buffer_ r) = 0) as Hbuf by (rewrite Hb, size_sub by lia; lia).
  rewrite Hbuf. change (0 <? kHeaderSize) with true. cbn iota.
  destruct (eof_ r) eqn:Eeof; cbn [negb]; [by eexists|].
  assert (s + kBlockSize = size F) as E by (destruct He as [(? & _)|(_ & _ & ?)]; [lia|done]).
  destruct (read_block_at F s pos e r Hat ltac:(lia) Hs) as [_ Hat'].
  assert (size (buffer_ (read_block r)) = 0) as ->.
  { rewrite (at_buffer _ _ _ _ _ Hat'), size_sub; unfold kBlockSize in *; lia. }
  change (0 <? kHeaderSize) with true. cbn iota. by eexists.
Qed.

(** ** Where the writer is *)

(** The file ends in the block that starts at [s]; before the first record the block
    is the one before the file, and full. *)
Definition w_at (w : Writer) (s : Z) : Prop :=
  0 <= s + kBlockSize /\ s <= size (dest_ w) <= s + kBlockSize
  /\ (block_offset_ w = size (dest_ w) - s
      \/ (block_offset_ w = 0 /\ size (dest_ w) = s + kBlockSize)).

Lemma new_Writer_at : w_at new_Writer (- kBlockSize).
Proof. unfold w_at, new_Writer, size, kBlockSize. cbn. lia. Qed.

(** What one turn of [AddRecord] does: padding, then a fragment in its slot. *)
Definition next_slot (w : Writer) : Writer :=
  let leftover := kBlockSize - block_offset_ w in
  if leftover <? kHeaderSize then
    {| dest_ := if 0 <? leftover then dest_ w ++ replicate (Z.to_nat leftover) 0 else dest_ w;
       block_offset_ := 0 |}
  else w.

Lemma next_slot_at w s s' q :
  w_at w s -> slot s (size (dest_ w)) = (s', q) ->
  exists pad, dest_ (next_slot w) = dest_ w ++ pad /\ size (dest_ (next_slot w)) = q
    /\ block_offset_ (next_slot w) = q - s' /\ s' <= q /\ 7 <= s' + kBlockSize - q /\ 0 <= s' + kBlockSize.
Proof.
  intros (H0 & Hr & Hoff) Hs. unfold slot in Hs. unfold next_slot, kHeaderSize in *.
  assert (forall l n, size (l ++ replicate n 0) = size l + Z.of_nat n) as Hrep.
  { intros l n. unfold size. rewrite length_app, length_replicate. lia. }
  destruct Hoff as [Ho|[Ho Hfull]].
  - destruct (Z.ltb_spec (s + kBlockSize - size (dest_ w)) 7); injection Hs as <- <-.
    + destruct (Z.ltb_spec (kBlockSize - block_offset_ w) 7); [|lia].
      destruct (Z.ltb_spec 0 (kBlockSize - block_offset_ w)); cbn [dest_ block_offset_].
      * eexists. split; [done|]. rewrite Hrep. unfold kBlockSize in *. lia.
      * exists []. rewrite app_nil_r. split; [done|]. unfold kBlockSize in *. lia.
    + destruct (Z.ltb_spec (kBlockSize - block_offset_ w) 7); [lia|]. exists []. rewrite app_nil_r.
      split; [done|]. lia.
  - rewrite Hfull in Hs. destruct (Z.ltb_spec (s + kBlockSize - (s + kBlockSize)) 7); [|lia].
    injection Hs as <- <-. rewrite Ho. change (kBlockSize - 0 <? 7) with false. cbn iota.
    exists []. rewrite app_nil_r. split; [done|]. unfold kBlockSize in *. lia.
Qed.

Lemma at_pos_last F s pos e o r : at_pos F s pos e r -> at_pos F s pos e (set_last o r).
Proof. intros [H1 H2 H3 H4]. by split. Qed.

Lemma holds_grow G w q l post : G = (w ++ l) ++ post -> size w = q -> holds G q l.
Proof. intros -> Hq. exists w, post. by rewrite <- app_assoc. Qed.

Definition fragment_type (begin end_ : bool) : Z :=
  if begin && end_ then kFullType else if begin then kFirstType
  else if end_ then kLastType else kMiddleType.

Lemma AddRecord_turn fuel begin ptr w s s' q :
  w_at w s -> slot s (size (dest_ w)) = (s', q) -> bytes ptr ->
  exists frag rest w2 pad,
    ptr = frag ++ rest
    /\ dest_ w2 = (dest_ w ++ pad) ++ record_bytes (fragment_type begin (bool_decide (rest = []))) frag
    /\ size (dest_ w ++ pad) = q /\ w_at w2 s' /\ fragment_ok (fragment_type begin (bool_decide (rest = []))) frag
    /\ q + 7 + size frag <= s' + kBlockSize
    /\ (rest <> [] -> q + 7 + size frag = s' + kBlockSize)
    /\ (rest <> [] -> frag = [] -> q = s' + kBlockSize - 7)
    /\ size (dest_ w2) = q + 7 + size frag
    /\ AddRecord_loop (S fuel) begin ptr w
       = if bool_decide (rest = []) then Some w2 else AddRecord_loop fuel false rest w2.
Proof.
  intros Hw Hs Hb. destruct (next_slot_at w s s' q Hw Hs) as (pad & Hd & Hq & Hoff & Hle & Hroom & H0).
  cbn [AddRecord_loop]. fold (next_slot w). set (w1 := next_slot w) in *.
  set (avail := kBlockSize - block_offset_ w1 - kHeaderSize).
  assert (0 <= avail < 0x1_0000) as Havail by (unfold avail, kHeaderSize, kBlockSize in *; lia).
  set (fl := if size ptr <? avail then size ptr else avail).
  assert (0 <= fl <= size ptr /\ fl <= avail /\ (fl <> size ptr -> fl = avail)) as (Hfl & Hfa & Hfe).
  { unfold fl. assert (0 <= size ptr) by (unfold size; lia). destruct (Z.ltb_spec (size ptr) avail); lia. }
  exists (take (Z.to_nat fl) ptr), (drop (Z.to_nat fl) ptr).
  assert (size (take (Z.to_nat fl) ptr) = fl) as Hsf by (unfold size in *; rewrite length_take; lia).
  assert (size (drop (Z.to_nat fl) ptr) = size ptr - fl) as Hsr by (unfold size in *; rewrite length_drop; lia).
  assert ((size ptr =? fl) = bool_decide (drop (Z.to_nat fl) ptr = [])) as Eend.
  { destruct (Z.eqb_spec (size ptr) fl); symmetry; [apply bool_decide_eq_true_2|apply bool_decide_eq_false_2].
    - apply length_zero_iff_nil. unfold size in *. lia.
    - intros E. rewrite E in Hsr. change (size []) with 0 in Hsr. lia. }
  assert ((0 <? size (drop (Z.to_nat fl) ptr)) = negb (bool_decide (drop (Z.to_nat fl) ptr = []))) as Eleft.
  { rewrite <- Eend, Hsr. destruct (Z.eqb_spec (size ptr) fl), (Z.ltb_spec 0 (size ptr - fl)); done || lia. }
  rewrite Eend, Eleft. fold (fragment_type begin (bool_decide (drop (Z.to_nat fl) ptr = []))).
  set (t := fragment_type _ _).
  exists (EmitPhysicalRecord t (take (Z.to_nat fl) ptr) w1), pad.
  assert (dest_ (EmitPhysicalRecord t (take (Z.to_nat fl) ptr) w1)
    = dest_ w1 ++ record_bytes t (take (Z.to_nat fl) ptr)) as Hdest.
  { unfold EmitPhysicalRecord, record_bytes, header_bytes. cbn [dest_]. by rewrite app_assoc. }
  assert (size (dest_ (EmitPhysicalRecord t (take (Z.to_nat fl) ptr) w1)) = q + 7 + fl) as Hsize.
  { rewrite Hdest. pose proof (size_record t (take (Z.to_nat fl) ptr)). unfold size in *. rewrite length_app. lia. }
  split_and!.
  - by rewrite take_drop.
  - by rewrite Hdest, Hd.
  - by rewrite <- Hd.
  - split; [done|]. unfold EmitPhysicalRecord. cbn [block_offset_ dest_].
    change (size (dest_ w1 ++ _ ++ _)) with (size (dest_ (EmitPhysicalRecord t (take (Z.to_nat fl) ptr) w1))).
    rewrite Hsize. unfold avail, kHeaderSize in *. lia.
  - split; [|split; [by apply bytes_take|lia]].
    unfold t, fragment_type, kFullType, kFirstType, kLastType, kMiddleType.
    by destruct begin, (bool_decide _).
  - unfold avail, kHeaderSize in *. lia.
  - intros Hne. rewrite Hsf. assert (fl <> size ptr).
    { intros E. apply Hne, length_zero_iff_nil. unfold size in *. lia. }
    unfold avail, kHeaderSize in *. lia.
  - intros Hne E. rewrite E in Hsf. change (size []) with 0 in Hsf. assert (fl <> size ptr).
    { intros E'. apply Hne, length_zero_iff_nil. unfold size in *. lia. }
    unfold avail, kHeaderSize in *. lia.
  - by rewrite Hsize, Hsf.
  - by destruct (bool_decide _).
Qed.

(** [AddRecord] always ends. *)
Lemma AddRecord_full fuel begin ptr w s :
  w_at w s -> size (dest_ w) = s + kBlockSize -> bytes ptr -> (length ptr < fuel)%nat ->
  exists w', AddRecord_loop fuel begin ptr w = Some w'.
Proof.
  revert begin ptr w s. induction fuel as [|fuel IH]; intros begin ptr w s Hw Hfull Hb Hf; [lia|].
  assert (slot s (size (dest_ w)) = (s + kBlockSize, s + kBlockSize)) as Hs.
  { unfold slot, kHeaderSize. rewrite Hfull. destruct (Z.ltb_spec (s + kBlockSize - (s + kBlockSize)) 7); [done|lia]. }
  destruct (AddRecord_turn fuel begin ptr w s _ _ Hw Hs Hb)
    as (frag & rest & w2 & pad & Ep & Hd & Hq & Hw2 & Hok & Hle & Hend & Hne & Hsz & ->).
  case_bool_decide as Er; [eauto|]. apply (IH false rest w2 (s + kBlockSize) Hw2).
  - rewrite Hsz, (Hend Er). lia.
  - rewrite Ep in Hb. by apply bytes_app in Hb as [_ ?].
  - rewrite Ep, length_app in Hf. destruct frag; [|cbn in Hf; lia].
    specialize (Hne Er eq_refl). unfold kBlockSize in *. lia.
Qed.

Lemma AddRecord_total slice w s :
  w_at w s -> bytes slice -> exists w', AddRecord slice w = Some w'.
Proof.
  intros Hw Hb. unfold AddRecord. rewrite Nat.add_succ_r.
  destruct (slot s (size (dest_ w))) as [s' q] eqn:Hs.
  destruct (AddRecord_turn (length slice + 1) true slice w s s' q Hw Hs Hb)
    as (frag & rest & w2 & pad & Ep & Hd & Hq & Hw2 & Hok & Hle & Hend & Hne & Hsz & ->).
  case_bool_decide as Er; [eauto|]. apply (AddRecord_full _ false rest w2 s' Hw2).
  - rewrite Hsz, (Hend Er). lia.
  - rewrite Ep in Hb. by apply bytes_app in Hb as [_ ?].
  - rewrite Ep, length_app. lia.
Qed.

(** ** Reading what was written *)

(** A record that was added at the position of the reader is read, if the file holds
    all of it, and is the end of the log otherwise. *)
Lemma read_added fuel begin ptr w w' s :
  AddRecord_loop fuel begin ptr w = Some w' -> w_at w s -> bytes ptr ->
  exists ext s', dest_ w' = dest_ w ++ ext /\ w_at w' s' /\ ext <> [] /\
    forall post k r e scratch pr f,
      let G := dest_ w' ++ post in let F := take (Z.to_nat k) G in
      0 <= k <= size G -> at_pos F s (size (dest_ w)) e r -> (remaining r < f)%nat ->
      exists r', reported_ r' = reported_ r /\
        if size (dest_ w') <=? k
        then ReadRecord_loop true 0 f (negb begin) scratch pr r
             = Some (Some ((if begin then [] else scratch) ++ ptr), r')
             /\ exists e', at_pos F s' (size (dest_ w')) e' r'
        else ReadRecord_loop true 0 f (negb begin) scratch pr r = Some (None, r').
Proof.
  revert begin ptr w s. induction fuel as [|fuel IH]; intros begin ptr w s H Hw Hb; [done|].
  destruct (slot s (size (dest_ w))) as [s' q] eqn:Hs.
  destruct (AddRecord_turn fuel begin ptr w s s' q Hw Hs Hb)
    as (frag & rest & w2 & pad & Ep & Hd & Hq & Hw2 & Hok & Hle & Hend & _ & Hsz2 & E). rewrite E in H. clear E.
  set (t := fragment_type begin (bool_decide (rest = []))) in *.
  assert (record_bytes t frag <> []) as Hrne.
  { intros E%(f_equal size). rewrite size_record in E. change (size []) with 0 in E. unfold size in *. lia. }
  (* the physical record of this turn *)
  assert (forall post k r e, let G := dest_ w2 ++ post in let F := take (Z.to_nat k) G in
    0 <= k <= size G -> at_pos F s (size (dest_ w)) e r ->
    exists r', reported_ r' = reported_ r /\
      if size (dest_ w2) <=? k
      then ReadPhysicalRecord true 0 r = (t, frag, r') /\ exists e', at_pos F s' (size (dest_ w2)) e' r'
      else ReadPhysicalRecord true 0 r = (kEof, [], r')) as Hphys.
  { intros post k r e G F Hk Hat. rewrite Hsz2.
    apply (phys_read G k s (size (dest_ w)) e r t frag s' q Hk Hat); [apply Hw|done|done| |done].
    apply (holds_grow G (dest_ w ++ pad) q (record_bytes t frag) post); [|done]. unfold G. by rewrite Hd. }
  assert (forall f scratch pr r r1, ReadPhysicalRecord true 0 r = (kEof, [], r1) ->
    ReadRecord_loop true 0 (S f) (negb begin) scratch pr r = Some (None, r1)) as Heof.
  { intros f scratch pr r r1 Hr. cbn [ReadRecord_loop]. by rewrite Hr. }
  destruct (bool_decide (rest = [])) eqn:Er.
  - injection H as <-. apply bool_decide_eq_true in Er. exists (pad ++ record_bytes t frag), s'.
    split_and!; [by rewrite Hd, app_assoc|done|by destruct pad|].
    intros post k r e scratch pr f G F Hk Hat Hf. destruct f as [|f]; [lia|].
    destruct (Hphys post k r e Hk Hat) as (r1 & Hrep & H1). fold G F in H1.
    destruct (size (dest_ w2) <=? k); [|exists r1; split; [done|by apply Heof]].
    destruct H1 as (Hp & e' & Hat'). cbn [ReadRecord_loop]. rewrite Hp, Ep, Er, app_nil_r.
    destruct begin; cbn [negb andb]; (eexists; split; [|split; [reflexivity|exists e'; by apply at_pos_last]]; exact Hrep).
  - apply bool_decide_eq_false in Er. rewrite Ep in Hb. apply bytes_app in Hb as [_ Hb].
    destruct (IH false rest w2 s' H Hw2 Hb) as (ext & s2 & Hd' & Hw' & _ & Hread).
    exists (pad ++ record_bytes t frag ++ ext), s2.
    split_and!; [by rewrite Hd', Hd, <- !app_assoc|done|by destruct pad, (record_bytes t frag)|].
    intros post k r e scratch pr f G F Hk Hat Hf. destruct f as [|f]; [lia|].
    assert (G = dest_ w2 ++ ext ++ post) as EG by (unfold G; by rewrite Hd', <- app_assoc).
    destruct (Hphys (ext ++ post) k r e) as (r1 & Hrep & H1); [by rewrite <- EG|by rewrite <- EG|].
    rewrite <- EG in H1. fold F in H1.
    assert (size (dest_ w2) <= size (dest_ w')) as Hmono by (rewrite Hd'; unfold size; rewrite length_app; lia).
    destruct (Z.leb_spec (size (dest_ w2)) k) as [Hin|Hout].
    2: { exists r1. split; [done|]. destruct (Z.leb_spec (size (dest_ w')) k); [lia|by apply Heof]. }
    destruct H1 as (Hp & e' & Hat').
    assert (remaining r1 < f)%nat as Hf1.
    { apply ReadPhysicalRecord_remaining in Hp; [lia|]. unfold t. by destruct begin. }
    cbn [ReadRecord_loop]. rewrite Hp.
    destruct begin; cbn [negb andb].
    + change (t =? kFullType) with false. change (t =? kFirstType) with true. cbn iota.
      destruct (Hread post k r1 e' frag (w64 (end_of_buffer_offset_ r - size (buffer_ r))) f Hk Hat' Hf1)
        as (r' & Hrep' & H'). exists r'. split; [congruence|]. rewrite Ep. exact H'.
    + change (t =? kFullType) with false. change (t =? kFirstType) with false.
      change (t =? kMiddleType) with true. cbn iota.
      destruct (Hread post k r1 e' (scratch ++ frag) pr f Hk Hat' Hf1) as (r' & Hrep' & H').
      exists r'. split; [congruence|]. rewrite Ep, app_assoc. exact H'.
Qed.

Lemma AddRecord_at slice w w' s :
  AddRecord slice w = Some w' -> w_at w s -> bytes slice -> exists s', w_at w' s'.
Proof.
  intros H Hw Hb. unfold AddRecord in H. destruct (read_added _ _ _ _ _ _ H Hw Hb) as (_ & s' & _ & Hw' & _).
  by exists s'.
Qed.

(** ** A whole log *)

Fixpoint add_records (recs : list (list Z)) (w : Writer) : option Writer :=
  match recs with
  | [] => Some w
  | rec :: recs' => w ← AddRecord rec w; add_records recs' w
  end.

Lemma add_records_snoc l x w w1 w2 :
  add_records l w = Some w1 -> AddRecord x w1 = Some w2 -> add_records (l ++ [x]) w = Some w2.
Proof.
  intros H1 H2. revert w H1. induction l as [|y l IH]; intros w H1; cbn [app add_records] in *.
  - apply Some_inj in H1 as ->. by rewrite H2.
  - apply bind_Some in H1 as (w' & -> & H1). cbn [mbind option_bind]. by apply IH.
Qed.

(** [while (reader.ReadRecord(&record, &scratch))] *)
Fixpoint read_records (fuel : nat) (r : Reader) : option (list (list Z) * Reader) :=
  match fuel with
  | O => None
  | S fuel' =>
      '(res, r) ← ReadRecord true 0 r;
      match res with
      | None => Some ([], r)
      | Some rec => '(recs, r) ← read_records fuel' r; Some (rec :: recs, r)
      end
  end.
Definition read_log (file : list Z) : option (list (list Z) * Reader) :=
  read_records (S (length file)) (new_Reader file).

(** Nothing was reported before, when nothing is at the end. *)
Lemma read_records_reported fuel r l r' :
  read_records fuel r = Some (l, r') -> reported_ r' = [] -> reported_ r = [].
Proof.
  intros Hrd Hrep. revert l r Hrd. induction fuel as [|fuel IH]; intros l r Hrd; [done|]. cbn [read_records] in Hrd.
  apply bind_Some in Hrd as ([res r1] & Er & Hrd). apply ReadRecord_reported in Er as [x Ex].
  destruct res as [rec|].
  - apply bind_Some in Hrd as ([recs r2] & Hrd & E). apply Some_inj, pair_eq in E as [_ <-].
    rewrite (IH _ _ Hrd) in Ex. by destruct (reported_ r).
  - apply Some_inj, pair_eq in Hrd as [_ <-]. rewrite Hrep in Ex. by destruct (reported_ r).
Qed.

Lemma remaining_at F s pos e r : at_pos F s pos e r -> Z.of_nat (remaining r) = size F - pos.
Proof.
  intros [Hr Hb Hf _]. unfold remaining. rewrite Hb, Hf. pose proof (size_sub F pos e). unfold size in *.
  rewrite length_drop. lia.
Qed.

(** With no initial offset nothing is skipped. *)
Lemma ReadRecord_start F s pos e r :
  at_pos F s pos e r ->
  exists r0, ReadRecord true 0 r = ReadRecord_loop true 0 (S (remaining r0)) false [] 0 r0
    /\ at_pos F s pos e r0 /\ reported_ r0 = reported_ r.
Proof.
  intros Hat. unfold ReadRecord. destruct (last_record_offset_ r <? 0); [|by exists r].
  exists (SkipToInitialBlock 0 r). split; [done|]. split; [|done].
  destruct Hat as [H1 H2 H3 H4]. by split.
Qed.

Lemma ReadRecord_end F s pos e r :
  at_pos F s pos e r -> 0 <= s + kBlockSize -> pos = size F ->
  exists r', ReadRecord true 0 r = Some (None, r') /\ reported_ r' = reported_ r.
Proof.
  intros Hat Hs Hp. destruct (ReadRecord_start _ _ _ _ _ Hat) as (r0 & -> & Hat0 & Hrep).
  destruct (phys_end F s pos e r0 Hat0 Hs Hp) as (r' & Hr & Hrep').
  cbn [ReadRecord_loop]. rewrite Hr. exists r'. split; [done|congruence].
Qed.

Lemma add_records_grow recs w s w' :
  add_records recs w = Some w' -> w_at w s -> Forall bytes recs ->
  exists ext, dest_ w' = dest_ w ++ ext.
Proof.
  revert w s. induction recs as [|rec recs IH]; intros w s H Hw Hb.
  { cbn in H. injection H as <-. exists []. by rewrite app_nil_r. }
  apply Forall_cons in Hb as [Hrec Hb]. cbn [add_records] in H. apply bind_Some in H as (w1 & H1 & H).
  destruct (read_added _ _ _ _ _ _ H1 Hw Hrec) as (ext & s1 & E1 & Hw1 & _ & _).
  destruct (IH w1 s1 H Hw1 Hb) as [ext2 E2]. exists (ext ++ ext2). by rewrite E2, E1, app_assoc.
Qed.

Lemma read_records_added recs w s w' :
  add_records recs w = Some w' -> w_at w s -> Forall bytes recs ->
  forall k r e f, let F := take (Z.to_nat k) (dest_ w') in
    size (dest_ w) <= k <= size (dest_ w') -> at_pos F s (size (dest_ w)) e r -> (remaining r < f)%nat ->
    exists j r', read_records f r = Some (take j recs, r') /\ reported_ r' = reported_ r
      /\ (j <= length recs)%nat
      /\ forall m wm, (m <= length recs)%nat -> add_records (take m recs) w = Some wm ->
           (size (dest_ wm) <= k <-> (m <= j)%nat).
Proof.
  revert w s. induction recs as [|rec recs IH]; intros w s H Hw Hb k r e f F Hk Hat Hf;
    (destruct f as [|f]; [lia|]); cbn [read_records].
  { cbn in H. injection H as <-.
    destruct (ReadRecord_end _ _ _ _ _ Hat) as (r' & -> & Hrep); [apply Hw|unfold F; rewrite size_take_file; unfold size in *; lia|].
    cbn [mbind option_bind]. exists 0%nat, r'. split_and!; [done|done|done|].
    intros m wm Hm Hwm. rewrite take_nil in Hwm. injection Hwm as <-. cbn in Hm. lia. }
  apply Forall_cons in Hb as [Hrec Hb]. cbn [add_records] in H. apply bind_Some in H as (w1 & H1 & H).
  destruct (read_added _ _ _ _ _ _ H1 Hw Hrec) as (ext & s1 & E1 & Hw1 & Hne & Hread).
  destruct (add_records_grow _ _ _ _ H Hw1 Hb) as [post E2].
  destruct (ReadRecord_start _ _ _ _ _ Hat) as (r0 & -> & Hat0 & Hrep0).
  assert (0 <= k <= size (dest_ w1 ++ post)) as Hk' by (rewrite <- E2; unfold size in *; lia).
  subst F. rewrite E2 in Hat0.
  destruct (Hread post k r0 e [] 0 (S (remaining r0)) Hk' Hat0 ltac:(lia)) as (r1 & Hrep & Hr1).
  cbn [negb] in Hr1.
  assert (forall m wm, (m <= length recs)%nat -> add_records (take m recs) w1 = Some wm ->
    size (dest_ w1) <= size (dest_ wm)) as Hmono.
  { intros m wm Hm Hwm. destruct (add_records_grow _ _ _ _ Hwm Hw1) as [x ->]; [by apply Forall_take|].
    unfold size. rewrite length_app. lia. }
  destruct (Z.leb_spec (size (dest_ w1)) k) as [Hin|Hout].
  - destruct Hr1 as (-> & e1 & Hat1). cbn [mbind option_bind]. rewrite <- E2 in Hat1.
    assert (remaining r1 < f)%nat as Hf1.
    { apply remaining_at in Hat1, Hat. rewrite size_take_file in Hat1, Hat by (unfold size in *; lia).
      assert (size (dest_ w) < size (dest_ w1)) by (rewrite E1; unfold size; rewrite length_app;
        destruct ext; [done|cbn; lia]). lia. }
    destruct (IH w1 s1 H Hw1 Hb k r1 e1 f ltac:(lia) Hat1 Hf1) as (j & r' & -> & Hrep' & Hj & Hm).
    cbn [mbind option_bind]. exists (S j), r'. split_and!; [done|congruence|cbn; lia|].
    intros m wm Hlm Hwm. destruct m as [|m]; cbn [take add_records] in Hwm.
    + injection Hwm as <-. lia.
    + rewrite H1 in Hwm. cbn [mbind option_bind] in Hwm. cbn in Hlm. rewrite (Hm m wm ltac:(lia) Hwm). lia.
  - rewrite Hr1. cbn [mbind option_bind]. exists 0%nat, r1. split_and!; [done|congruence|lia|].
    intros m wm Hlm Hwm. destruct m as [|m]; cbn [take add_records] in Hwm.
    + injection Hwm as <-. lia.
    + rewrite H1 in Hwm. cbn [mbind option_bind] in Hwm. cbn in Hlm.
      specialize (Hmono m wm ltac:(lia) Hwm). lia.
Qed.

Lemma add_records_total recs w s :
  w_at w s -> Forall bytes recs -> exists w', add_records recs w = Some w'.
Proof.
  intros Hw Hb. revert w s Hw. induction Hb as [|rec recs Hrec Hb IH]; intros w s Hw; [by exists w|].
  destruct (AddRecord_total rec w s Hw Hrec) as [w1 H1]. cbn [add_records]. rewrite H1. cbn [mbind option_bind].
  destruct (read_added _ _ _ _ _ _ H1 Hw Hrec) as (_ & s1 & _ & Hw1 & _). by apply (IH w1 s1).
Qed.

(** The records that a file holds are read; a file that a crash cut short gives the
    records that were complete, and no complaint. *)
Lemma read_log_cut recs w k :
  Forall bytes recs -> add_records recs new_Writer = Some w -> 0 <= k <= size (dest_ w) ->
  exists j r, read_log (take (Z.to_nat k) (dest_ w)) = Some (take j recs, r) /\ reported_ r = []
    /\ (j <= length recs)%nat
    /\ forall m wm, (m <= length recs)%nat -> add_records (take m recs) new_Writer = Some wm ->
         (size (dest_ wm) <= k <-> (m <= j)%nat).
Proof.
  intros Hb Hw Hk. unfold read_log.
  destruct (read_records_added recs new_Writer (- kBlockSize) w Hw new_Writer_at Hb k
    (new_Reader (take (Z.to_nat k) (dest_ w))) 0 (S (length (take (Z.to_nat k) (dest_ w)))))
    as (j & r & H1 & H2 & H3 & H4).
  - cbn. unfold size in *. cbn. lia.
  - apply new_Reader_at.
  - unfold remaining. cbn [new_Reader buffer_ file_ length]. lia.
  - by exists j, r.
Qed.

(** ** Claims *)

(** C29: Crash recovery of the log.  Writing any records succeeds.  When a crash leaves the
    first [k] bytes of the file, the reader returns exactly the records that are complete in
    them, in order, and reports no corruption: record [m] is read if and only if the bytes
    written up to and including it are there. *)
Theorem log_crash_recovery (recs : list (list Z)) (k : Z) :
  Forall bytes recs ->
  exists w, add_records recs new_Writer = Some w
    /\ (0 <= k <= size (dest_ w) ->
        exists j r, read_log (take (Z.to_nat k) (dest_ w)) = Some (take j recs, r) /\ reported_ r = []
          /\ (j <= length recs)%nat
          /\ forall m wm, (m <= length recs)%nat -> add_records (take m recs) new_Writer = Some wm ->
               (size (dest_ wm) <= k <-> (m <= j)%nat)).
Proof.
  intros Hb. destruct (add_records_total recs new_Writer _ new_Writer_at Hb) as [w Hw].
  exists w. split; [done|]. by apply read_log_cut.
Qed.

Lemma log_crash_recovery_witness :
  exists w, add_records [[1; 2]; [3]] new_Writer = Some w
    /\ (0 <= 12 <= size (dest_ w) ->
        exists j r, read_log (take 12 (dest_ w)) = Some (take j [[1; 2]; [3]], r)).
Proof.
  destruct (log_crash_recovery [[1; 2]; [3]] 12) as (w & Hw & H).
  - repeat constructor; unfold is8; lia.
  - exists w. split; [done|]. intros Hk. destruct (H Hk) as (j & r & E & _). by exists j, r.
Defined.

(** C36: The reader always comes to an end: on every file, damaged in any way, from every
    state it can be in, [ReadRecord] returns a record or the end of the file. *)
Theorem ReadRecord_terminates (checksum : bool) (initial_offset : Z) (r : Reader) :
  exists res, ReadRecord checksum initial_offset r = Some res.
Proof. unfold ReadRecord. apply ReadRecord_loop_total. unfold remaining. lia. Qed.
