(* ===== verification/SkipList.v ===== *)
(** * The skip list of LevelDB: db/skiplist.h and util/random.h of
    src/packages/LevelDB.1.16.0.5/lib/native/src

    The nodes live in an arena and are never freed: the arena is the list of nodes,
    a pointer is a place in it, and the head is place 0.  [None] is a read outside
    an array or through a null pointer, or missing fuel.  Operations are
    sequential: the barriers that let readers run beside a writer are not modelled. *)
From stdpp Require Import base numbers option sets list sorting.
From S2P Require Import Prelude.
Open Scope Z_scope.
Open Scope word_scope.

(** ** Random numbers *)

Definition Random (s : Z) : Z :=
  let seed_ := s .& 0x7fff_ffff in
  if (seed_ =? 0) || (seed_ =? 2147483647) then 1 else seed_.
Definition Random_Next (seed_ : Z) : Z :=
  let product := w64 (seed_ * 16807) in
  let seed_ := w32 ((product >> 31) + (product .& 2147483647)) in
  if 2147483647 <? seed_ then seed_ - 2147483647 else seed_.

Definition kMaxHeight : nat := 12.
Abbreviation ptr := nat.

Section skiplist.
Context {Key : Type} (compare_ : Key -> Key -> Z).

(** The key of the head is never looked at. *)
Record Node := { key : option Key; next_ : list (option ptr) }.
Record SkipList := { arena_ : list Node; max_height_ : nat; rnd_ : Z }.

Definition head_ : ptr := 0%nat.
Definition new_SkipList : SkipList :=
  {| arena_ := [{| key := None; next_ := replicate kMaxHeight None |}]; max_height_ := 1;
     rnd_ := Random 0xdead_beef |}.

Definition Next (a : list Node) (x : ptr) (n : nat) : option (option ptr) :=
  node ← a !! x; next_ node !! n.
Definition SetNext (a : list Node) (x : ptr) (n : nat) (y : option ptr) : option (list Node) :=
  node ← a !! x;
  _ ← next_ node !! n;
  Some (<[x := {| key := key node; next_ := <[n := y]> (next_ node) |}]> a).
Definition node_key (a : list Node) (x : ptr) : option Key := node ← a !! x; key node.

(** [while (height < kMaxHeight && ((rnd_.Next() % kBranching) == 0))]: [n] more levels
    are possible. *)
Fixpoint RandomHeight_loop (n : nat) (height : nat) (rnd : Z) : nat * Z :=
  match n with
  | O => (height, rnd)
  | S n' =>
      let rnd := Random_Next rnd in
      if rnd mod 4 =? 0 then RandomHeight_loop n' (S height) rnd else (height, rnd)
  end.
Definition RandomHeight (rnd : Z) : nat * Z := RandomHeight_loop (kMaxHeight - 1) 1 rnd.

(** A null node comes after every key. *)
Definition KeyIsAfterNode (a : list Node) (k : Key) (n : option ptr) : option bool :=
  match n with
  | None => Some false
  | Some n => nk ← node_key a n; Some (compare_ nk k <? 0)
  end.

(** [while (true)]: the node found, and [prev] with the entries that were filled. *)
Fixpoint FindGreaterOrEqual_loop (fuel : nat) (a : list Node) (k : Key) (x : ptr) (level : nat)
    (prev : list ptr) : option (option ptr * list ptr) :=
  match fuel with
  | O => None
  | S fuel' =>
      next ← Next a x level;
      after ← KeyIsAfterNode a k next;
      if after : bool then
        match next with
        | Some y => FindGreaterOrEqual_loop fuel' a k y level prev
        | None => None
        end
      else
        let prev := <[level := x]> prev in
        match level with
        | O => Some (next, prev)
        | S level' => FindGreaterOrEqual_loop fuel' a k x level' prev
        end
  end.

(** Every turn goes right or down. *)
Definition FindGreaterOrEqual (sl : SkipList) (k : Key) (prev : list ptr)
    : option (option ptr * list ptr) :=
  FindGreaterOrEqual_loop (length (arena_ sl) + max_height_ sl) (arena_ sl) k head_
    (max_height_ sl - 1) prev.

(** [for (i = 0; i < height; i++)] of [Insert]. *)
Fixpoint link_loop (n i : nat) (a : list Node) (x : ptr) (prev : list ptr) : option (list Node) :=
  match n with
  | O => Some a
  | S n' =>
      p ← prev !! i;
      nx ← Next a p i;
      a ← SetNext a x i nx;
      a ← SetNext a p i (Some x);
      link_loop n' (S i) a x prev
  end.

Definition Insert (k : Key) (sl : SkipList) : option SkipList :=
  '(_, prev) ← FindGreaterOrEqual sl k (replicate kMaxHeight head_);
  let '(height, rnd) := RandomHeight (rnd_ sl) in
  let '(prev, max_height) :=
    if (max_height_ sl <? height)%nat
    then (foldl (fun prev i => <[i := head_]> prev) prev (seq (max_height_ sl) (height - max_height_ sl)),
          height)
    else (prev, max_height_ sl) in
  let x := length (arena_ sl) in
  let a := arena_ sl ++ [{| key := Some k; next_ := replicate height None |}] in
  a ← link_loop height 0 a x prev;
  Some {| arena_ := a; max_height_ := max_height; rnd_ := rnd |}.

Definition Contains (k : Key) (sl : SkipList) : option bool :=
  '(x, _) ← FindGreaterOrEqual sl k (replicate kMaxHeight head_);
  match x with
  | None => Some false
  | Some x => xk ← node_key (arena_ sl) x; Some (compare_ k xk =? 0)
  end.

(** [FindLessThan] and [FindLast]: the head when no node qualifies. *)
Fixpoint FindLessThan_loop (fuel : nat) (a : list Node) (k : Key) (x : ptr) (level : nat)
    : option ptr :=
  match fuel with
  | O => None
  | S fuel' =>
      next ← Next a x level;
      stop ← match next with
             | None => Some true
             | Some n => nk ← node_key a n; Some (0 <=? compare_ nk k)
             end;
      if stop : bool then
        match level with
        | O => Some x
        | S level' => FindLessThan_loop fuel' a k x level'
        end
      else match next with Some y => FindLessThan_loop fuel' a k y level | None => None end
  end.
Definition FindLessThan (sl : SkipList) (k : Key) : option ptr :=
  FindLessThan_loop (length (arena_ sl) + max_height_ sl) (arena_ sl) k head_ (max_height_ sl - 1).

Fixpoint FindLast_loop (fuel : nat) (a : list Node) (x : ptr) (level : nat) : option ptr :=
  match fuel with
  | O => None
  | S fuel' =>
      next ← Next a x level;
      match next with
      | None => match level with O => Some x | S level' => FindLast_loop fuel' a x level' end
      | Some y => FindLast_loop fuel' a y level
      end
  end.
Definition FindLast (sl : SkipList) : option ptr :=
  FindLast_loop (length (arena_ sl) + max_height_ sl) (arena_ sl) head_ (max_height_ sl - 1).

(** ** Iterators: the node they are at *)

Definition Iterator_Seek (target : Key) (sl : SkipList) : option (option ptr) :=
  '(x, _) ← FindGreaterOrEqual sl target (replicate kMaxHeight head_); Some x.
Definition Iterator_SeekToFirst (sl : SkipList) : option (option ptr) := Next (arena_ sl) head_ 0.
Definition Iterator_key (sl : SkipList) (x : ptr) : option Key := node_key (arena_ sl) x.
Definition Iterator_Next (sl : SkipList) (x : ptr) : option (option ptr) := Next (arena_ sl) x 0.
Definition no_head (x : ptr) : option ptr := if (x =? head_)%nat then None else Some x.
Definition Iterator_Prev (sl : SkipList) (x : ptr) : option (option ptr) :=
  k ← node_key (arena_ sl) x; no_head <$> FindLessThan sl k.
Definition Iterator_SeekToLast (sl : SkipList) : option (option ptr) := no_head <$> FindLast sl.
End skiplist.
Arguments Node : clear implicits.
Arguments SkipList : clear implicits.

(** ** The shape of a skip list *)

Section shape.
Context {Key : Type}.
Implicit Types (a : list (Node Key)) (x p q : ptr).

Definition height a p : nat := default 0%nat (length ∘ next_ <$> a !! p).

(** The nodes of an ordered list that take part in level [i]. *)
Definition level a (i : nat) (ord : list (ptr * Key)) : list ptr :=
  map fst (List.filter (fun y => (i <? height a (fst y))%nat) ord).

(** The links of level [i] lead from [x] through [l]. *)
Fixpoint chain a (i : nat) x (l : list ptr) : Prop :=
  match l with
  | [] => Next a x i = Some None
  | p :: l' => Next a x i = Some (Some p) /\ chain a i p l'
  end.

Definition last_from x (l : list ptr) : ptr := default x (last l).

Lemma last_from_cons x p l : last_from x (p :: l) = last_from p l.
Proof. unfold last_from. destruct l; [done|]. rewrite last_cons_cons.
  destruct (last (_ :: l)) eqn:E; [done|]. by apply last_None in E.
Qed.

Lemma chain_split a i x l1 l2 : chain a i x (l1 ++ l2) -> chain a i (last_from x l1) l2.
Proof.
  revert x. induction l1 as [|p l1 IH]; intros x H; [done|]. destruct H as [_ H].
  rewrite last_from_cons. by apply IH.
Qed.

Lemma chain_ext a a' i x l :
  (forall p, p ∈ x :: l -> Next a' p i = Next a p i) -> chain a i x l -> chain a' i x l.
Proof.
  revert x. induction l as [|p l IH]; intros x Hn H; cbn in *.
  - rewrite Hn; [done|set_solver].
  - destruct H as [H1 H2]. split; [rewrite Hn; [done|set_solver]|]. apply IH; [|done].
    intros q Hq. apply Hn. set_solver.
Qed.

(** Linking [y] in after the last node of [l1]. *)
Lemma chain_insert a a' i x l1 y l2 :
  chain a i x (l1 ++ l2) -> NoDup (x :: l1 ++ l2) -> y ∉ x :: l1 ++ l2 ->
  Next a' y i = Next a (last_from x l1) i ->
  Next a' (last_from x l1) i = Some (Some y) ->
  (forall q, q <> y -> q <> last_from x l1 -> Next a' q i = Next a q i) ->
  chain a' i x (l1 ++ y :: l2).
Proof.
  revert x. induction l1 as [|p l1 IH]; intros x Hc Hd Hy Hny Hnp Hq.
  - cbn in *. split; [done|]. destruct l2 as [|q l2]; cbn in *; [congruence|].
    destruct Hc as [H1 H2]. split; [congruence|]. apply (chain_ext a); [|done].
    intros z Hz. apply Hq; [set_solver|]. intros ->. apply NoDup_cons in Hd as [Hd _]. set_solver.
  - rewrite last_from_cons in *. destruct Hc as [H1 H2]. cbn [app chain].
    apply NoDup_cons in Hd as [Hx Hd]. split.
    + rewrite Hq; [done|set_solver|]. intros E. apply Hx. rewrite E. unfold last_from.
      destruct (last l1) as [z|] eqn:El; cbn; [|set_solver].
      apply last_Some_elem_of in El. set_solver.
    + apply IH; try done. set_solver.
Qed.

(** ** Writing links *)

Lemma SetNext_spec a x n y a' :
  SetNext a x n y = Some a' ->
  length a' = length a /\ (forall q, node_key a' q = node_key a q) /\ (forall q, height a' q = height a q)
  /\ Next a' x n = Some y /\ (forall q m, (q, m) <> (x, n) -> Next a' q m = Next a q m).
Proof.
  unfold SetNext. intros H. apply bind_Some in H as (node & Hx & H). apply bind_Some in H as (o & Ho & H).
  injection H as <-. assert (x < length a)%nat as Hlt by (by eapply lookup_lt_Some).
  split_and!.
  - apply length_insert.
  - intros q. unfold node_key. destruct (decide (q = x)) as [->|];
      [by rewrite list_lookup_insert_eq, Hx|by rewrite list_lookup_insert_ne].
  - intros q. unfold height. destruct (decide (q = x)) as [->|];
      [|by rewrite list_lookup_insert_ne]. rewrite list_lookup_insert_eq, Hx by done. cbn. by rewrite length_insert.
  - unfold Next. rewrite list_lookup_insert_eq by done. cbn. apply list_lookup_insert_eq.
    by eapply lookup_lt_Some.
  - intros q m Hne. unfold Next. destruct (decide (q = x)) as [->|]; [|by rewrite list_lookup_insert_ne].
    rewrite list_lookup_insert_eq, Hx by done. cbn. rewrite list_lookup_insert_ne; [done|congruence].
Qed.

Lemma SetNext_total a x n y : (n < height a x)%nat -> exists a', SetNext a x n y = Some a'.
Proof.
  unfold height, SetNext. intros H. destruct (a !! x) as [node|]; cbn in *; [|lia].
  destruct (lookup_lt_is_Some_2 (next_ node) n H) as [o ->]. cbn. eauto.
Qed.

Lemma Next_total a x n : (n < height a x)%nat -> exists y, Next a x n = Some y.
Proof.
  unfold height, Next. intros H. destruct (a !! x) as [node|]; cbn in *; [|lia].
  apply (lookup_lt_is_Some_2 (next_ node) n H).
Qed.
End shape.

(** ** Invariant and search *)

(** What the list needs of its order, on the keys that are put into it. *)
Class KeyOrder {Key} (compare_ : Key -> Key -> Z) (ok : Key -> Prop) := {
  compare_trans a b c : ok a -> ok b -> ok c -> compare_ a b < 0 -> compare_ b c < 0 -> compare_ a c < 0;
  compare_anti a b : ok a -> ok b -> compare_ a b < 0 <-> 0 < compare_ b a }.

Section search.
Context {Key : Type} (compare_ : Key -> Key -> Z) (ok : Key -> Prop) `{Ord : !KeyOrder compare_ ok}.
Implicit Types (a : list (Node Key)) (ord : list (ptr * Key)).

Definition before (y z : ptr * Key) : Prop := compare_ (snd y) (snd z) < 0.

(** [ord] is the content in order: every node with its key. *)
Record sl_inv (sl : SkipList Key) ord : Prop := {
  inv_node p k : (p, k) ∈ ord ->
    p <> head_ /\ node_key (arena_ sl) p = Some k /\ (1 <= height (arena_ sl) p <= max_height_ sl)%nat /\ ok k;
  inv_order : StronglySorted before ord;
  inv_nodup : NoDup (map fst ord);
  inv_head : height (arena_ sl) head_ = kMaxHeight;
  inv_max : (1 <= max_height_ sl <= kMaxHeight)%nat;
  inv_chain i : (i < kMaxHeight)%nat -> chain (arena_ sl) i head_ (level (arena_ sl) i ord);
  inv_count : length (arena_ sl) = S (length ord) }.

Lemma level_app a i l1 l2 : level a i (l1 ++ l2) = (level a i l1 ++ level a i l2)%list.
Proof. unfold level. by rewrite List.filter_app, map_app. Qed.

Lemma level_snoc a i l x k :
  (i < height a x)%nat -> level a i (l ++ [(x, k)]) = (level a i l ++ [x])%list.
Proof. intros H. rewrite level_app. f_equal. unfold level.
  cbn [List.filter map fst]. by rewrite (proj2 (Nat.ltb_lt _ _) H). Qed.

Lemma last_from_snoc x l p : last_from x (l ++ [p])%list = p.
Proof. unfold last_from. by rewrite last_snoc. Qed.

Lemma level_nil a i l :
  level a i l = [] -> Forall (fun y => ~ (i < height a (fst y))%nat) l.
Proof.
  unfold level. induction l as [|y l IH]; cbn [List.filter map]; [constructor|].
  destruct (Nat.ltb_spec i (height a (fst y))); [done|]. intros H'. constructor; [lia|auto].
Qed.

Lemma level_cons a i l p r :
  level a i l = p :: r ->
  exists l1 k l2, l = (l1 ++ (p, k) :: l2)%list /\ level a i l1 = [] /\ (i < height a p)%nat.
Proof.
  unfold level. induction l as [|[q kq] l IH]; cbn [List.filter map fst]; [done|].
  destruct (Nat.ltb_spec i (height a q)) as [Hq|Hq]; cbn [map fst].
  - intros [= -> _]. by exists [], kq, l.
  - intros H. destruct (IH H) as (l1 & k & l2 & -> & H1 & H2). exists ((q, kq) :: l1), k, l2.
    split_and!; [done| |done]. cbn [List.filter map fst]. by rewrite (proj2 (Nat.ltb_ge _ _) Hq).
Qed.

(** The part of a sorted list before a key. *)
Lemma split_at ord k :
  StronglySorted before ord -> Forall (fun y => ok (snd y)) ord -> ok k ->
  exists lo hi, ord = (lo ++ hi)%list /\ Forall (fun y => compare_ (snd y) k < 0) lo
    /\ Forall (fun y => ~ compare_ (snd y) k < 0) hi.
Proof.
  intros Hs Ho Hk. induction Hs as [|y ord Hs IH Hy]; [by exists [], []|].
  apply Forall_cons in Ho as [Hoy Ho]. destruct (IH Ho) as (lo & hi & E & Hlo & Hhi).
  destruct (decide (compare_ (snd y) k < 0)) as [Hlt|Hge].
  - exists (y :: lo), hi. split; [by rewrite E|]. split; [by constructor|done].
  - exists [], (y :: ord). split; [done|]. split; [constructor|]. constructor; [done|].
    rewrite Forall_forall in Hy, Ho |- *. intros z Hz Hlt. apply Hge.
    by apply (compare_trans _ (snd z)); [| |done|apply Hy| ]; auto.
Qed.

Lemma KeyIsAfterNode_spec sl ord k p kp :
  sl_inv sl ord -> (p, kp) ∈ ord -> KeyIsAfterNode compare_ (arena_ sl) k (Some p) = Some (compare_ kp k <? 0).
Proof. intros Hi Hp. destruct (inv_node _ _ Hi _ _ Hp) as (_ & E & _). unfold KeyIsAfterNode. by rewrite E. Qed.

(** [x] is the last node of [lo1], and takes part in all levels up to [l]. *)
Definition stands a (l : nat) x (lo1 : list (ptr * Key)) : Prop :=
  (lo1 = [] /\ x = head_) \/ exists l0 k, lo1 = (l0 ++ [(x, k)])%list /\ (l < height a x)%nat.

Lemma stands_last a l x lo1 i : stands a l x lo1 -> (i <= l)%nat -> last_from head_ (level a i lo1) = x.
Proof.
  intros [[-> ->]|(l0 & k & -> & Hx)] Hi; [done|]. by rewrite level_snoc, last_from_snoc by lia.
Qed.

Lemma find_spec sl lo hi k fuel l x lo1 lo2 prev :
  sl_inv sl (lo ++ hi) ->
  Forall (fun y => compare_ (snd y) k < 0) lo -> Forall (fun y => ~ compare_ (snd y) k < 0) hi ->
  lo = (lo1 ++ lo2)%list -> stands (arena_ sl) l x lo1 -> (l < kMaxHeight)%nat -> length prev = kMaxHeight ->
  (length lo2 + l < fuel)%nat ->
  exists prev', FindGreaterOrEqual_loop compare_ fuel (arena_ sl) k x l prev
      = Some (fst <$> head hi, prev')
    /\ length prev' = kMaxHeight
    /\ (forall i, (i <= l)%nat -> prev' !! i = Some (last_from head_ (level (arena_ sl) i lo)))
    /\ (forall i, (l < i)%nat -> prev' !! i = prev !! i).
Proof.
  clear Ord.
  intros Hinv Hlo Hhi. set (a := arena_ sl) in *.
  revert l x lo1 lo2 prev. induction fuel as [|fuel IH]; intros l x lo1 lo2 prev E Hx Hl Hprev Hf; [lia|].
  assert (chain a l x (level a l lo2 ++ level a l hi)) as Hc.
  { pose proof (inv_chain _ _ Hinv l Hl) as H. fold a in H. rewrite E, <- app_assoc, level_app in H.
    apply chain_split in H. rewrite (stands_last a l x lo1 l Hx) in H by lia. by rewrite level_app in H. }
  cbn [FindGreaterOrEqual_loop].
  destruct (level a l lo2) as [|p r] eqn:Elo2.
  - (* the next node of this level is not before [k] *)
    assert (level a l lo = level a l lo1) as Elev by (by rewrite E, level_app, Elo2, app_nil_r).
    assert (exists next, Next a x l = Some next /\ KeyIsAfterNode compare_ a k next = Some false
      /\ (l = 0%nat -> next = fst <$> head hi)) as (next & Hn & Ha & Hnext).
    { destruct (level a l hi) as [|p r] eqn:Ehi; cbn in Hc.
      - exists None. split_and!; [done|done|]. intros ->. destruct hi as [|[q kq] hi]; [done|].
        apply level_nil, Forall_cons in Ehi as [Hq _]. cbn in Hq.
        destruct (inv_node _ _ Hinv q kq ltac:(set_solver)) as (_ & _ & Hh & _). fold a in Hh. lia.
      - destruct Hc as [-> _]. destruct (level_cons _ _ _ _ _ Ehi) as (l1 & kp & l2 & Eh & El1 & _).
        exists (Some p). split; [done|]. split.
        + assert ((p, kp) ∈ (lo ++ hi)%list) as Hp by (rewrite Eh; set_solver).
          unfold a. rewrite (KeyIsAfterNode_spec sl _ k p kp Hinv Hp). f_equal. apply Z.ltb_ge.
          rewrite Eh in Hhi. apply Forall_app in Hhi as [_ Hhi]. apply Forall_cons in Hhi as [H _]. cbn in H. lia.
        + intros ->. destruct l1 as [|[q kq] l1]; [by rewrite Eh|]. exfalso.
          apply level_nil, Forall_cons in El1 as [Hq _]. cbn in Hq.
          destruct (inv_node _ _ Hinv q kq ltac:(rewrite Eh; set_solver)) as (_ & _ & Hh & _). fold a in Hh. lia. }
    rewrite Hn. cbn [mbind option_bind]. rewrite Ha. cbn [mbind option_bind].
    assert (last_from head_ (level a l lo) = x) as Hlast.
    { rewrite Elev. by apply (stands_last a l). }
    destruct l as [|l].
    + exists (<[0%nat := x]> prev). rewrite Hnext, length_insert by done. split_and!; [done|done| |].
      * intros i Hi. replace i with 0%nat by lia. rewrite list_lookup_insert_eq by (rewrite Hprev; unfold kMaxHeight; lia).
        by rewrite Hlast.
      * intros i Hi. by rewrite list_lookup_insert_ne by lia.
    + assert (stands a l x lo1) as Hx' by (destruct Hx as [|(l0 & kx & ? & ?)]; [by left|right; exists l0, kx; split; [done|lia]]).
      destruct (IH l x lo1 lo2 (<[S l := x]> prev) E Hx' ltac:(lia)) as (prev' & Hrun & Hlen & Hset & Hrest);
        [by rewrite length_insert|lia|]. exists prev'. split_and!; [done|done| |].
      * intros i Hi. destruct (decide (i = S l)) as [->|]; [|apply Hset; lia].
        rewrite Hrest by lia. rewrite list_lookup_insert_eq by (rewrite Hprev; lia). by rewrite Hlast.
      * intros i Hi. rewrite Hrest by lia. by rewrite list_lookup_insert_ne by lia.
  - (* the next node is before [k] *)
    destruct (level_cons _ _ _ _ _ Elo2) as (l1 & kp & l2 & El & El1 & Hp). cbn in Hc. destruct Hc as [-> _].
    cbn [mbind option_bind].
    assert ((p, kp) ∈ (lo ++ hi)%list) as Hin by (rewrite E, El; set_solver).
    assert (compare_ kp k < 0) as Hlt.
    { rewrite E, El, !Forall_app in Hlo. destruct Hlo as [_ [_ H]]. by apply Forall_cons in H as [H _]. }
    unfold a. rewrite (KeyIsAfterNode_spec sl _ k p kp Hinv Hin). fold a.
    rewrite (proj2 (Z.ltb_lt _ _) Hlt). cbn [mbind option_bind].
    apply (IH l p (lo1 ++ l1 ++ [(p, kp)]) l2 prev); [rewrite E, El, <- !app_assoc; done| |done|done|].
    + right. exists (lo1 ++ l1)%list, kp. by rewrite app_assoc.
    + rewrite El, length_app in Hf. cbn in Hf. lia.
Qed.

Lemma inv_ok sl ord : sl_inv sl ord -> Forall (fun y => ok (snd y)) ord.
Proof. intros Hi. apply Forall_forall. intros [p k] Hp. apply (inv_node _ _ Hi p k Hp). Qed.

Lemma FindGreaterOrEqual_spec sl lo hi k prev :
  sl_inv sl (lo ++ hi) ->
  Forall (fun y => compare_ (snd y) k < 0) lo -> Forall (fun y => ~ compare_ (snd y) k < 0) hi ->
  length prev = kMaxHeight ->
  exists prev', FindGreaterOrEqual compare_ sl k prev = Some (fst <$> head hi, prev')
    /\ length prev' = kMaxHeight
    /\ (forall i, (i < max_height_ sl)%nat -> prev' !! i = Some (last_from head_ (level (arena_ sl) i lo))).
Proof.
  clear Ord.
  intros Hi Hlo Hhi Hp. pose proof (inv_max _ _ Hi). pose proof (inv_count _ _ Hi) as Hn. rewrite length_app in Hn.
  destruct (find_spec sl lo hi k (length (arena_ sl) + max_height_ sl) (max_height_ sl - 1) head_ [] lo prev
    Hi Hlo Hhi eq_refl) as (prev' & H1 & H2 & H3 & _); [by left|lia|done|lia|].
  exists prev'. split_and!; [exact H1|done|]. intros i Hlt. apply H3. lia.
Qed.

(** ** Insertion *)

Lemma RandomHeight_bounds rnd : (1 <= fst (RandomHeight rnd) <= kMaxHeight)%nat.
Proof.
  unfold RandomHeight. assert (forall n h r, (h <= fst (RandomHeight_loop n h r) <= h + n)%nat) as H.
  { induction n as [|n IH]; intros h r; cbn [RandomHeight_loop fst]; [lia|].
    destruct (_ =? 0); [|cbn; lia]. specialize (IH (S h) (Random_Next r)). lia. }
  specialize (H (kMaxHeight - 1)%nat 1%nat rnd). unfold kMaxHeight in *. lia.
Qed.

Lemma fill_prev n i0 prev :
  (i0 + n <= length prev)%nat ->
  let prev' := foldl (fun prev i => <[i := head_]> prev) prev (seq i0 n) in
  length prev' = length prev
  /\ (forall i, (i < i0)%nat -> prev' !! i = prev !! i)
  /\ (forall i, (i0 <= i < i0 + n)%nat -> prev' !! i = Some head_).
Proof.
  revert i0 prev. induction n as [|n IH]; intros i0 prev Hl; cbn [seq foldl]; [split_and!; [done|done|lia]|].
  destruct (IH (S i0) (<[i0 := head_]> prev)) as (H1 & H2 & H3); [rewrite length_insert; lia|].
  split_and!.
  - by rewrite H1, length_insert.
  - intros i Hi. rewrite H2, list_lookup_insert_ne by lia. done.
  - intros i Hi. destruct (decide (i = i0)) as [->|]; [|apply H3; lia].
    rewrite H2 by lia. apply list_lookup_insert_eq. lia.
Qed.

(** Linking a new node [x] of height [h] into the levels from [i] on. *)
Lemma link_spec n i a0 a x h prev lv1 lv2 :
  (i + n = h)%nat -> (h <= length prev)%nat -> (h <= height a x)%nat ->
  (forall p, height a p = height a0 p) -> (forall p, node_key a p = node_key a0 p) -> length a = length a0 ->
  (forall j, (j < h)%nat -> prev !! j = Some (last_from head_ (lv1 j))) ->
  (forall j, (j < h)%nat -> (j < height a (last_from head_ (lv1 j)))%nat) ->
  (forall j, (i <= j)%nat -> chain a j head_ (lv1 j ++ lv2 j) \/ (h <= j)%nat) ->
  (forall j, (j < h)%nat -> NoDup (head_ :: lv1 j ++ lv2 j) /\ x ∉ head_ :: lv1 j ++ lv2 j) ->
  exists a', link_loop n i a x prev = Some a'
    /\ length a' = length a0 /\ (forall p, height a' p = height a0 p) /\ (forall p, node_key a' p = node_key a0 p)
    /\ (forall j p, (j < i)%nat \/ (h <= j)%nat -> Next a' p j = Next a p j)
    /\ (forall j, (i <= j < h)%nat -> chain a' j head_ (lv1 j ++ x :: lv2 j)).
Proof.
  revert i a. induction n as [|n IH]; intros i a Hih Hlp Hhx Hh Hk Hla Hprev Hph Hch Hnd; cbn [link_loop].
  { exists a. split_and!; try done. lia. }
  rewrite Hprev by lia. cbn [mbind option_bind]. set (p := last_from head_ (lv1 i)).
  destruct (Hnd i ltac:(lia)) as [Hnd1 Hx].
  assert (x <> p) as Hxp.
  { intros ->. apply Hx. unfold p, last_from. destruct (last (lv1 i)) as [z|] eqn:El; cbn; [|set_solver].
    apply last_Some_elem_of in El. set_solver. }
  destruct (Next_total a p i (Hph i ltac:(lia))) as [nx Hnx]. rewrite Hnx. cbn [mbind option_bind].
  destruct (SetNext_total a x i nx ltac:(lia)) as [a1 H1]. rewrite H1. cbn [mbind option_bind].
  destruct (SetNext_spec _ _ _ _ _ H1) as (L1 & K1 & G1 & N1 & O1).
  destruct (SetNext_total a1 p i (Some x)) as [a2 H2]; [rewrite G1; apply Hph; lia|]. rewrite H2. cbn [mbind option_bind].
  destruct (SetNext_spec _ _ _ _ _ H2) as (L2 & K2 & G2 & N2 & O2).
  assert (forall q j, j <> i -> Next a2 q j = Next a q j) as Hother.
  { intros q j Hj. rewrite O2, O1 by congruence. done. }
  destruct (IH (S i) a2) as (a' & Hrun & Hl' & Hh' & Hk' & Hn' & Hc');
    [lia|done|by rewrite G2, G1|intros q; by rewrite G2, G1, Hh|intros q; by rewrite K2, K1, Hk|congruence
    |done|intros j Hj; rewrite G2, G1; by apply Hph| |done|].
  { intros j Hj. destruct (Hch j ltac:(lia)) as [H|H]; [left|by right].
    apply (chain_ext a); [|done]. intros q _. apply Hother. lia. }
  exists a'. split_and!; try done.
  - intros j q Hj. rewrite Hn' by lia. apply Hother. lia.
  - intros j Hj. destruct (decide (j = i)) as [->|]; [|apply Hc'; lia].
    apply (chain_ext a2); [intros q _; apply Hn'; lia|].
    destruct (Hch i ltac:(lia)) as [H|]; [|lia]. apply (chain_insert a); try done.
    + rewrite O2 by congruence. fold p. congruence.
    + intros q Hq1 Hq2. fold p in Hq2. rewrite O2, O1 by congruence. done.
Qed.

Lemma before_nodup ord : StronglySorted before ord -> Forall (fun y => ok (snd y)) ord -> NoDup ord.
Proof.
  intros Hs Ho. induction Hs as [|y ord Hs IH Hy]; [constructor|]. apply Forall_cons in Ho as [Hoy Ho].
  constructor; [|auto]. intros Hin. rewrite Forall_forall in Hy. specialize (Hy y Hin). unfold before in Hy.
  pose proof (proj1 (compare_anti _ _ Hoy Hoy) Hy). lia.
Qed.

Lemma height_new a node p : (p < length a)%nat -> height (a ++ [node]) p = height a p.
Proof. intros Hp. unfold height. by rewrite lookup_app_l. Qed.
Lemma height_last a node : height (a ++ [node]) (length a) = length (next_ node).
Proof. unfold height. by rewrite list_lookup_middle. Qed.
Lemma key_new a node p : (p < length a)%nat -> node_key (a ++ [node]) p = node_key a p.
Proof. intros Hp. unfold node_key. by rewrite lookup_app_l. Qed.
Lemma Next_new a node p i : (p < length a)%nat -> Next (a ++ [node]) p i = Next a p i.
Proof. intros Hp. unfold Next. by rewrite lookup_app_l. Qed.

Lemma level_height a a' i ord :
  (forall p k, (p, k) ∈ ord -> height a' p = height a p) -> level a' i ord = level a i ord.
Proof.
  intros H. unfold level. f_equal. apply List.filter_ext_in. intros [p k] Hp.
  cbn [fst]. by rewrite (H p k) by by apply list_elem_of_In.
Qed.

Lemma level_elem a i ord p : p ∈ level a i ord -> exists k, (p, k) ∈ ord /\ (i < height a p)%nat.
Proof.
  unfold level. intros Hp. apply list_elem_of_In, in_map_iff in Hp as ([q k] & E & Hq). cbn in E. subst q.
  apply filter_In in Hq as [Hq Hlt]. exists k. split; [by apply list_elem_of_In|]. by apply Nat.ltb_lt in Hlt.
Qed.

Lemma level_nodup a i ord : NoDup (map fst ord) -> NoDup (level a i ord).
Proof.
  unfold level. induction ord as [|y ord IH]; intros H; cbn [map List.filter] in *; [constructor|].
  apply NoDup_cons in H as [Hy H]. destruct (_ <? _)%nat; [|auto]. cbn [map]. constructor; [|auto].
  intros Hin. apply Hy. apply list_elem_of_In, in_map_iff in Hin as (z & E & Hz). apply filter_In in Hz as [Hz _].
  rewrite <- E. apply list_elem_of_In, in_map, Hz.
Qed.

Lemma inv_place sl ord p k : sl_inv sl ord -> (p, k) ∈ ord -> (p < length (arena_ sl))%nat.
Proof.
  intros Hi Hp. destruct (inv_node _ _ Hi _ _ Hp) as (_ & Hk & _). unfold node_key in Hk.
  apply bind_Some in Hk as (node & H & _). by eapply lookup_lt_Some.
Qed.

Lemma sorted_insert lo hi x k :
  StronglySorted before (lo ++ hi) -> Forall (fun y => ok (snd y)) (lo ++ hi) -> ok k ->
  Forall (fun y => compare_ (snd y) k < 0) lo -> Forall (fun y => compare_ k (snd y) < 0) hi ->
  StronglySorted before (lo ++ (x, k) :: hi).
Proof.
  intros Hs Ho Hk Hlo Hhi. induction lo as [|y lo IH]; cbn in *.
  - constructor; [done|]. exact Hhi.
  - apply StronglySorted_inv in Hs as [Hs Hy]. apply Forall_cons in Ho as [Hoy Ho], Hlo as [Hyk Hlo].
    constructor; [auto|]. apply Forall_app in Hy as [Hy1 Hy2]. apply Forall_app. split; [done|].
    constructor; [done|done].
Qed.

Lemma Insert_spec k sl lo hi :
  sl_inv sl (lo ++ hi) -> ok k ->
  Forall (fun y => compare_ (snd y) k < 0) lo -> Forall (fun y => compare_ k (snd y) < 0) hi ->
  exists sl' x, Insert compare_ k sl = Some sl' /\ sl_inv sl' (lo ++ (x, k) :: hi).
Proof.
  intros Hi Hk Hlo Hhi. pose proof (inv_ok _ _ Hi) as Hok. pose proof Hok as Hok'.
  apply Forall_app in Hok' as [_ Hokhi].
  assert (Forall (fun y => ~ compare_ (snd y) k < 0) hi) as Hhi'.
  { rewrite Forall_forall in Hhi, Hokhi |- *. intros y Hy H. specialize (Hhi y Hy).
    apply (compare_anti _ _ Hk (Hokhi y Hy)) in Hhi. lia. }
  unfold Insert.
  destruct (FindGreaterOrEqual_spec sl lo hi k (replicate kMaxHeight head_) Hi Hlo Hhi' eq_refl)
    as (prev & Hfind & Hlen & Hprev). rewrite Hfind. cbn [mbind option_bind].
  pose proof (RandomHeight_bounds (rnd_ sl)) as Hh. destruct (RandomHeight (rnd_ sl)) as [h rnd]. cbn [fst] in Hh.
  pose proof (inv_max _ _ Hi) as Hm.
  assert (exists prev2, (if (max_height_ sl <? h)%nat
      then (foldl (fun prev i => <[i := head_]> prev) prev (seq (max_height_ sl) (h - max_height_ sl)), h)
      else (prev, max_height_ sl)) = (prev2, Nat.max (max_height_ sl) h)
    /\ length prev2 = kMaxHeight
    /\ (forall i, (i < h)%nat -> prev2 !! i = Some (last_from head_ (level (arena_ sl) i lo))))
    as (prev2 & -> & Hlen2 & Hprev2).
  { destruct (Nat.ltb_spec (max_height_ sl) h) as [Hlt|Hge].
    - destruct (fill_prev (h - max_height_ sl) (max_height_ sl) prev) as (F1 & F2 & F3); [lia|].
      eexists. split; [f_equal; lia|]. split; [congruence|]. intros i Hlt'.
      destruct (decide (i < max_height_ sl)%nat); [rewrite F2, Hprev by lia; done|]. rewrite F3 by lia.
      destruct (level (arena_ sl) i lo) as [|p r] eqn:El; [done|].
      destruct (level_elem (arena_ sl) i lo p) as (kp & Hp & Hgt); [rewrite El; set_solver|].
      destruct (inv_node _ _ Hi p kp ltac:(set_solver)) as (_ & _ & ? & _). lia.
    - exists prev. split; [f_equal; lia|]. split; [done|]. intros i Hlt'. apply Hprev. lia. }
  set (x := length (arena_ sl)).
  set (a1 := (arena_ sl ++ [{| key := Some k; next_ := replicate h None |}])%list).
  assert (forall p kp, (p, kp) ∈ (lo ++ hi)%list -> (p < x)%nat) as Hplace by (intros; by eapply inv_place).
  assert (head_ < x)%nat as Hhead by (unfold x, head_; rewrite (inv_count _ _ Hi); lia).
  assert (forall i p, p ∈ head_ :: level (arena_ sl) i (lo ++ hi) -> (p < x)%nat) as Hlevel.
  { intros i p Hp. apply elem_of_cons in Hp as [->|Hp]; [done|].
    apply level_elem in Hp as (kp & Hp & _). by eapply Hplace. }
  assert (height a1 x = h) as Hhx by (unfold a1, x; rewrite height_last; apply length_replicate).
  assert (forall p, (p < x)%nat -> height a1 p = height (arena_ sl) p) as Hhp by (intros; by apply height_new).
  assert (forall i, (i < kMaxHeight)%nat -> chain a1 i head_ (level (arena_ sl) i (lo ++ hi))) as Hch1.
  { intros i Hi'. apply (chain_ext (arena_ sl)); [|by apply (inv_chain _ _ Hi)].
    intros p Hp. apply Next_new. by apply (Hlevel i). }
  destruct (link_spec h 0 a1 a1 x h prev2 (fun j => level (arena_ sl) j lo) (fun j => level (arena_ sl) j hi))
    as (a' & Hrun & Hla & Hha & Hka & Hna & Hca); try done; [lia|lia| | | |].
  { intros j Hj. unfold last_from. destruct (last (level (arena_ sl) j lo)) as [p|] eqn:El; cbn.
    - apply last_Some_elem_of, level_elem in El as (kp & Hp & Hgt).
      rewrite Hhp; [done|]. apply (Hplace p kp). set_solver.
    - rewrite Hhp by done. rewrite (inv_head _ _ Hi). lia. }
  { intros j _. destruct (decide (j < h)%nat); [left|right; lia]. rewrite <- level_app. apply Hch1. lia. }
  { intros j Hj. rewrite <- level_app. split.
    - constructor; [|apply level_nodup, (inv_nodup _ _ Hi)]. intros Hp.
      apply level_elem in Hp as (kp & Hp & _). by destruct (inv_node _ _ Hi _ _ Hp).
    - intros Hp. apply Hlevel in Hp. lia. }
  rewrite Hrun. cbn [mbind option_bind].
  eexists {| arena_ := a'; max_height_ := Nat.max (max_height_ sl) h; rnd_ := rnd |}, x. split; [done|].
  assert (forall i, level a' i (lo ++ (x, k) :: hi)
    = (level (arena_ sl) i lo ++ (if (i <? h)%nat then [x] else []) ++ level (arena_ sl) i hi)%list) as Hlev.
  { intros i. change ((x, k) :: hi) with ([(x, k)] ++ hi)%list. rewrite !level_app. f_equal; [|f_equal].
    - apply level_height. intros p kp Hp. rewrite Hha. apply Hhp, (Hplace p kp). set_solver.
    - unfold level. cbn [List.filter fst]. rewrite Hha, Hhx. by destruct (_ <? _)%nat.
    - apply level_height. intros p kp Hp. rewrite Hha. apply Hhp, (Hplace p kp). set_solver. }
  split; cbn [arena_ max_height_].
  - intros p kp Hp. rewrite Hka, Hha. apply elem_of_app in Hp. rewrite elem_of_cons in Hp.
    assert ((p, kp) = (x, k) \/ (p, kp) ∈ (lo ++ hi)%list) as [[= -> ->]|Hp'] by set_solver.
    + rewrite Hhx. split_and!; [unfold head_ in *; lia| |lia|lia|done].
      unfold a1, x, node_key. by rewrite list_lookup_middle.
    + destruct (inv_node _ _ Hi _ _ Hp') as (H1 & H2 & H3 & H4). specialize (Hplace _ _ Hp').
      rewrite Hhp by done. unfold a1. rewrite key_new by done. split_and!; [done|done|lia|lia|done].
  - apply sorted_insert; try done. apply (inv_order _ _ Hi).
  - rewrite map_app. cbn [map fst]. rewrite <- Permutation_middle. constructor.
    + rewrite <- map_app. intros Hp. apply list_elem_of_In, in_map_iff in Hp as ([p kp] & E & Hp). cbn in E. subst p.
      apply list_elem_of_In in Hp. specialize (Hplace _ _ Hp). lia.
    + rewrite <- map_app. apply (inv_nodup _ _ Hi).
  - rewrite Hha, Hhp by done. apply (inv_head _ _ Hi).
  - lia.
  - intros i Hi'. rewrite Hlev. destruct (Nat.ltb_spec i h); cbn [app].
    + apply Hca. lia.
    + rewrite <- level_app. apply (chain_ext a1); [intros p _; apply Hna; lia|]. by apply Hch1.
  - rewrite Hla. unfold a1. rewrite !length_app, (inv_count _ _ Hi), length_app. cbn. lia.
Qed.

Lemma new_SkipList_inv : sl_inv new_SkipList [].
Proof.
  split.
  - intros p k Hp. by apply elem_of_nil in Hp.
  - constructor.
  - constructor.
  - reflexivity.
  - cbn. unfold kMaxHeight. lia.
  - intros i Hi. unfold kMaxHeight in Hi. do 12 (destruct i as [|i]; [done|]). lia.
  - reflexivity.
Qed.

Lemma Seek_spec sl ord k :
  sl_inv sl ord -> ok k ->
  exists lo hi, ord = (lo ++ hi)%list /\ Forall (fun y => compare_ (snd y) k < 0) lo
    /\ Forall (fun y => ~ compare_ (snd y) k < 0) hi
    /\ Iterator_Seek compare_ k sl = Some (fst <$> head hi).
Proof.
  intros Hi Hk. destruct (split_at ord k (inv_order _ _ Hi) (inv_ok _ _ Hi) Hk) as (lo & hi & -> & Hlo & Hhi).
  exists lo, hi. split_and!; try done. unfold Iterator_Seek.
  destruct (FindGreaterOrEqual_spec sl lo hi k (replicate kMaxHeight head_) Hi Hlo Hhi eq_refl) as (prev & -> & _).
  done.
Qed.

(** ** Walking forwards and backwards *)

(** Both searches for a predecessor stop at the node that an insertion would hang
    its new node on. *)
Lemma FindLessThan_loop_prev fuel a k x l prev r prev' :
  (l < length prev)%nat ->
  FindGreaterOrEqual_loop compare_ fuel a k x l prev = Some (r, prev') ->
  FindLessThan_loop compare_ fuel a k x l = prev' !! 0%nat.
Proof.
  revert x l prev. induction fuel as [|fuel IH]; intros x l prev Hl H; [done|].
  cbn [FindGreaterOrEqual_loop FindLessThan_loop] in *.
  apply bind_Some in H as (next & -> & H). apply bind_Some in H as (after & Ha & H). cbn [mbind option_bind].
  assert (match next with
      | None => Some true
      | Some n => nk ← node_key a n; Some (0 <=? compare_ nk k) end = Some (negb after)) as ->.
  { destruct next as [n|]; cbn in Ha |- *; [|by injection Ha as <-].
    destruct (node_key a n); cbn in *; [|done]. injection Ha as <-. by rewrite Z.leb_antisym. }
  cbn [mbind option_bind]. destruct after; cbn [negb].
  - destruct next; [|done]. by eapply IH.
  - destruct l as [|l].
    + injection H as <- <-. by rewrite list_lookup_insert_eq.
    + eapply IH; [|exact H]. rewrite length_insert. lia.
Qed.

Lemma FindLast_loop_prev fuel a k x l r :
  FindLessThan_loop (fun _ _ : Key => -1) fuel a k x l = Some r -> FindLast_loop fuel a x l = Some r.
Proof.
  revert x l. induction fuel as [|fuel IH]; intros x l H; [done|].
  cbn [FindLast_loop FindLessThan_loop] in *.
  destruct (Next a x l) as [[n|]|]; cbn [mbind option_bind] in *; [|destruct l; [done|by apply IH]|done].
  destruct (node_key a n); cbn [mbind option_bind] in H; [|done]. by apply IH.
Qed.

Lemma level_0 sl ord l1 l2 : sl_inv sl ord -> ord = (l1 ++ l2)%list -> level (arena_ sl) 0 l1 = map fst l1.
Proof.
  clear Ord.
  intros Hi ->. assert (Forall (fun y => (0 < height (arena_ sl) (fst y))%nat) l1) as H.
  { apply Forall_forall. intros [p k] Hp. destruct (inv_node _ _ Hi p k) as (_ & _ & H & _); [set_solver|].
    cbn. lia. }
  clear Hi. induction H as [|[p k] l H Hl IH]; [done|]. unfold level in *. cbn [List.filter map fst] in *.
  destruct (Nat.ltb_spec 0 (height (arena_ sl) p)); [|lia]. cbn [map fst]. by rewrite IH.
Qed.

Lemma last_fst (l : list (ptr * Key)) : last (map fst l) = fst <$> last l.
Proof. apply fmap_last. Qed.

Lemma no_head_last sl ord lo hi :
  sl_inv sl ord -> ord = (lo ++ hi)%list ->
  no_head (last_from head_ (level (arena_ sl) 0 lo)) = fst <$> last lo.
Proof.
  clear Ord.
  intros Hi E. rewrite (level_0 sl ord lo hi Hi E). unfold last_from. rewrite last_fst.
  destruct (last lo) as [[p k]|] eqn:El; [|done]. cbn. apply last_Some_elem_of in El.
  destruct (inv_node _ _ Hi p k) as (H & _); [rewrite E; set_solver|]. unfold no_head.
  by rewrite (proj2 (Nat.eqb_neq _ _) H).
Qed.

Lemma FindLessThan_spec sl lo hi k :
  sl_inv sl (lo ++ hi) ->
  Forall (fun y => compare_ (snd y) k < 0) lo -> Forall (fun y => ~ compare_ (snd y) k < 0) hi ->
  no_head <$> FindLessThan compare_ sl k = Some (fst <$> last lo).
Proof.
  clear Ord.
  intros Hi Hlo Hhi.
  destruct (FindGreaterOrEqual_spec sl lo hi k (replicate kMaxHeight head_) Hi Hlo Hhi eq_refl)
    as (prev & H & _ & Hp). pose proof (inv_max _ _ Hi). unfold FindLessThan.
  rewrite (FindLessThan_loop_prev _ _ _ _ _ (replicate kMaxHeight head_) (fst <$> head hi) prev);
    [|rewrite length_replicate; lia|exact H].
  rewrite Hp by lia. cbn [fmap option_fmap option_map]. f_equal. by apply (no_head_last sl (lo ++ hi) lo hi).
Qed.

(** Stepping from a node. *)
Lemma Iterator_Next_spec sl lo p k hi :
  sl_inv sl (lo ++ (p, k) :: hi) -> Iterator_Next sl p = Some (fst <$> head hi).
Proof.
  intros Hi. pose proof (inv_chain _ _ Hi 0 ltac:(unfold kMaxHeight; lia)) as Hc.
  rewrite (level_0 _ _ _ [] Hi) in Hc by (by rewrite app_nil_r). rewrite map_app in Hc.
  replace (map fst ((p, k) :: hi)) with ([p] ++ map fst hi)%list in Hc by done. rewrite app_assoc in Hc.
  apply chain_split in Hc. rewrite last_from_snoc in Hc. unfold Iterator_Next.
  destruct hi as [|[q kq] hi]; cbn in Hc |- *; [done|apply Hc].
Qed.

Lemma SeekToFirst_spec sl ord : sl_inv sl ord -> Iterator_SeekToFirst sl = Some (fst <$> head ord).
Proof.
  intros Hi. pose proof (inv_chain _ _ Hi 0 ltac:(unfold kMaxHeight; lia)) as Hc.
  rewrite (level_0 _ _ _ [] Hi) in Hc by (by rewrite app_nil_r). unfold Iterator_SeekToFirst.
  destruct ord as [|[q kq] hi]; cbn in Hc |- *; [done|apply Hc].
Qed.

Lemma ordered_split lo p k hi :
  StronglySorted before (lo ++ (p, k) :: hi) -> Forall (fun y => ok (snd y)) (lo ++ (p, k) :: hi) ->
  Forall (fun y => compare_ (snd y) k < 0) lo /\ Forall (fun y => ~ compare_ (snd y) k < 0) ((p, k) :: hi).
Proof.
  intros Hs Ho. apply StronglySorted_app in Hs as (Hx & _ & Hs). apply Forall_app in Ho as [_ Ho].
  apply Forall_cons in Ho as [Hk Ho]. cbn in Hk. split.
  - apply Forall_forall. intros y Hy. apply (Hx y (p, k)); set_solver.
  - constructor; cbn; [pose proof (compare_anti k k Hk Hk); lia|].
    apply StronglySorted_inv in Hs as [_ Hs]. rewrite Forall_forall in Hs, Ho |- *.
    intros y Hy H. specialize (Hs y Hy). unfold before in Hs. cbn in Hs.
    apply (compare_anti _ _ Hk (Ho y Hy)) in Hs. lia.
Qed.

Lemma Iterator_Prev_spec sl lo p k hi :
  sl_inv sl (lo ++ (p, k) :: hi) -> Iterator_Prev compare_ sl p = Some (fst <$> last lo).
Proof.
  intros Hi. destruct (inv_node _ _ Hi p k ltac:(set_solver)) as (_ & E & _). unfold Iterator_Prev.
  rewrite E. cbn [mbind option_bind].
  destruct (ordered_split lo p k hi (inv_order _ _ Hi) (inv_ok _ _ Hi)). by apply (FindLessThan_spec sl lo ((p, k) :: hi)).
Qed.
End search.

Section last.
Context {Key : Type} (compare_ : Key -> Key -> Z) (ok : Key -> Prop) `{Ord : !KeyOrder compare_ ok}.

(** The last node is the one before a key that is after all others. *)
Lemma sl_inv_max sl ord : sl_inv compare_ ok sl ord -> sl_inv (fun _ _ => -1) ok sl ord.
Proof.
  intros [H1 H2 H3 H4 H5 H6 H7]. split; try done. clear -ord. induction ord as [|y ord IH]; constructor; [done|].
  apply Forall_forall. intros z _. unfold before. lia.
Qed.

Lemma SeekToLast_spec sl ord :
  sl_inv compare_ ok sl ord -> Iterator_SeekToLast sl = Some (fst <$> last ord).
Proof.
  intros Hi%sl_inv_max. destruct ord as [|y ord'] eqn:E.
  - unfold Iterator_SeekToLast, FindLast. pose proof (inv_count _ _ _ _ Hi) as Hn. cbn in Hn.
    pose proof (inv_max _ _ _ _ Hi) as Hm. rewrite Hn.
    assert (forall l f, (l < kMaxHeight)%nat -> (l < f)%nat -> FindLast_loop f (arena_ sl) head_ l = Some head_) as H.
    { induction l as [|l IH]; intros [|f] Hl Hf; try lia; cbn [FindLast_loop];
        pose proof (inv_chain _ _ _ _ Hi _ Hl) as Hc; cbn in Hc; rewrite Hc; cbn [mbind option_bind]; [done|].
      apply IH; lia. }
    rewrite H by lia. done.
  - rewrite <- E in *. assert (no_head <$> FindLessThan (fun _ _ => -1) sl (snd y) = Some (fst <$> last ord)) as H.
    { apply (FindLessThan_spec (fun _ _ => -1) ok sl ord []); [by rewrite app_nil_r| |constructor].
      apply Forall_forall. intros; lia. }
    unfold Iterator_SeekToLast, FindLast, FindLessThan in *.
    destruct (FindLessThan_loop _ _ _ _ _ _) as [r|] eqn:El; [|done]. by rewrite (FindLast_loop_prev _ _ _ _ _ _ El).
Qed.

(** ** Whole histories: insert keys one by one, then walk the list *)

Definition insert_all (keys : list Key) (sl : SkipList Key) : option (SkipList Key) :=
  foldl (fun sl k => sl ← sl; Insert compare_ k sl) (Some sl) keys.

(** [for (it.SeekToFirst(); it.Valid(); it.Next())] and the same backwards; [n] bounds
    the nodes. *)
Fixpoint walk (step : ptr -> option (option ptr)) (n : nat) (sl : SkipList Key) (x : option ptr)
    : option (list Key) :=
  match x with
  | None => Some []
  | Some x =>
      match n with
      | O => None
      | S n' => k ← Iterator_key sl x; y ← step x; l ← walk step n' sl y; Some (k :: l)
      end
  end.
Definition forward (sl : SkipList Key) : option (list Key) :=
  x ← Iterator_SeekToFirst sl; walk (Iterator_Next sl) (length (arena_ sl)) sl x.
Definition backward (sl : SkipList Key) : option (list Key) :=
  x ← Iterator_SeekToLast sl; walk (Iterator_Prev compare_ sl) (length (arena_ sl)) sl x.

Lemma walk_forward sl ord l1 l2 n :
  sl_inv compare_ ok sl ord -> ord = (l1 ++ l2)%list -> (length l2 <= n)%nat ->
  walk (Iterator_Next sl) n sl (fst <$> head l2) = Some (map snd l2).
Proof.
  intros Hi. revert l1 n. induction l2 as [|[p k] l2 IH]; intros l1 n E Hn; [by destruct n|].
  destruct n as [|n]; cbn in Hn; [lia|]. cbn [head fmap option_fmap option_map walk map snd fst].
  destruct (inv_node _ _ _ _ Hi p k ltac:(rewrite E; set_solver)) as (_ & Hk & _).
  unfold Iterator_key. rewrite Hk. cbn [mbind option_bind]. subst ord.
  rewrite (Iterator_Next_spec _ _ _ _ _ _ _ Hi). cbn [mbind option_bind].
  rewrite (IH (l1 ++ [(p, k)])%list); [done|by rewrite <- app_assoc|lia].
Qed.

Lemma walk_backward sl ord l1 l2 n :
  sl_inv compare_ ok sl ord -> ord = (l1 ++ l2)%list -> (length l1 <= n)%nat ->
  walk (Iterator_Prev compare_ sl) n sl (fst <$> last l1) = Some (reverse (map snd l1)).
Proof.
  intros Hi. revert l2 n. induction l1 as [|[p k] l1 IH] using rev_ind; intros l2 n E Hn; [by destruct n|].
  rewrite length_app in Hn. cbn in Hn. destruct n as [|n]; [lia|]. rewrite last_snoc.
  cbn [fmap option_fmap option_map walk fst].
  destruct (inv_node _ _ _ _ Hi p k ltac:(rewrite E; set_solver)) as (_ & Hk & _).
  unfold Iterator_key. rewrite Hk. cbn [mbind option_bind]. subst ord. rewrite <- app_assoc in Hi. cbn [app] in Hi.
  rewrite (Iterator_Prev_spec _ _ _ _ _ _ _ Hi). cbn [mbind option_bind].
  rewrite (IH ((p, k) :: l2)%list); [|by rewrite <- app_assoc|lia]. cbn [mbind option_bind].
  by rewrite map_app, reverse_app.
Qed.

Definition distinct (k k' : Key) : Prop := compare_ k k' <> 0.

Lemma Insert_any k sl ord :
  sl_inv compare_ ok sl ord -> ok k -> Forall (fun y => distinct k (snd y)) ord ->
  exists sl' x lo hi, ord = (lo ++ hi)%list /\ Insert compare_ k sl = Some sl'
    /\ sl_inv compare_ ok sl' (lo ++ (x, k) :: hi)
    /\ Forall (fun y => compare_ (snd y) k < 0) lo /\ Forall (fun y => compare_ k (snd y) < 0) hi.
Proof.
  intros Hi Hk Hd.
  destruct (split_at compare_ ok ord k (inv_order _ _ _ _ Hi) (inv_ok _ _ _ _ Hi) Hk) as (lo & hi & -> & Hlo & Hhi).
  assert (Forall (fun y => compare_ k (snd y) < 0) hi) as Hhi'.
  { pose proof (inv_ok _ _ _ _ Hi) as Ho. rewrite Forall_forall in Ho, Hd, Hhi |- *. intros y Hy.
    specialize (Hd y ltac:(set_solver)). specialize (Hhi y Hy). specialize (Ho y ltac:(set_solver)).
    unfold distinct in Hd. destruct (Z.lt_trichotomy (compare_ k (snd y)) 0) as [|[|H]]; [done|done|].
    by apply (compare_anti _ _ Ho Hk) in H. }
  destruct (Insert_spec compare_ ok k sl lo hi Hi Hk Hlo Hhi') as (sl' & x & H1 & H2).
  by exists sl', x, lo, hi.
Qed.

Lemma insert_all_spec keys sl ord :
  sl_inv compare_ ok sl ord -> Forall ok keys ->
  Forall (fun k => Forall (fun y => distinct k (snd y)) ord) keys ->
  ForallOrdPairs (fun k k' => distinct k' k) keys ->
  exists sl' ord', insert_all keys sl = Some sl' /\ sl_inv compare_ ok sl' ord'
    /\ map snd ord' ≡ₚ map snd ord ++ keys.
Proof.
  revert sl ord. induction keys as [|k keys IH]; intros sl ord Hi Hk Ho Hd.
  - exists sl, ord. by rewrite app_nil_r.
  - apply Forall_cons in Hk as [Hk Hks], Ho as [Hok Hos]. inversion_clear Hd as [|? ? Hdk Hds].
    destruct (Insert_any k sl ord Hi Hk Hok) as (sl1 & x & lo & hi & -> & E & Hi1 & _).
    destruct (IH sl1 _ Hi1 Hks) as (sl' & ord' & H1 & H2 & H3).
    + apply Forall_forall. intros k' Hk'. rewrite Forall_forall in Hos. specialize (Hos k' Hk').
      rewrite Stdlib.Lists.List.Forall_forall in Hdk. apply list_elem_of_In in Hk'.
      apply Forall_app in Hos as [? ?]. apply Forall_app. split; [done|]. constructor; [|done]. by apply Hdk.
    + done.
    + exists sl', ord'. split_and!; [|done|].
      * unfold insert_all in *. cbn [foldl mbind option_bind]. by rewrite E.
      * rewrite H3, !map_app. cbn [map snd]. rewrite <- !app_assoc. apply Permutation_app_head.
        cbn. rewrite <- Permutation_middle. done.
Qed.

Lemma Contains_spec k sl ord :
  sl_inv compare_ ok sl ord -> ok k ->
  exists b, Contains compare_ k sl = Some b /\ (b = true <-> exists k', k' ∈ map snd ord /\ compare_ k k' = 0).
Proof.
  intros Hi Hk.
  destruct (split_at compare_ ok ord k (inv_order _ _ _ _ Hi) (inv_ok _ _ _ _ Hi) Hk) as (lo & hi & -> & Hlo & Hhi).
  unfold Contains.
  destruct (FindGreaterOrEqual_spec compare_ ok sl lo hi k (replicate kMaxHeight head_) Hi Hlo Hhi eq_refl)
    as (prev & -> & _). cbn [mbind option_bind].
  pose proof (inv_ok _ _ _ _ Hi) as Ho. pose proof (inv_order _ _ _ _ Hi) as Hs.
  assert (forall y, y ∈ lo -> compare_ k (snd y) <> 0) as Hne.
  { intros y Hy. rewrite Forall_forall in Hlo, Ho. specialize (Hlo y Hy).
    apply (compare_anti _ _ (Ho y ltac:(set_solver)) Hk) in Hlo. lia. }
  destruct hi as [|[p kp] hi]; cbn [head fmap option_fmap option_map fst].
  - exists false. split; [done|]. split; [done|]. intros (k' & Hk' & E). exfalso. rewrite app_nil_r in Hk'.
    apply list_elem_of_In, in_map_iff in Hk' as (y & <- & Hy%list_elem_of_In). by apply (Hne y Hy).
  - destruct (inv_node _ _ _ _ Hi p kp ltac:(set_solver)) as (_ & -> & _ & Hkp). cbn [mbind option_bind].
    exists (compare_ k kp =? 0). split; [done|]. rewrite Z.eqb_eq. split.
    + intros E. exists kp. split; [|done]. rewrite map_app. set_solver.
    + intros (k' & Hk' & E). apply list_elem_of_In, in_map_iff in Hk' as (y & <- & Hy%list_elem_of_In).
      apply elem_of_app in Hy as [Hy|Hy]; [by apply Hne in Hy|]. apply elem_of_cons in Hy as [->|Hy]; [done|].
      apply StronglySorted_app in Hs as (_ & _ & Hs). apply StronglySorted_inv in Hs as [_ Hs].
      rewrite Forall_forall in Hs, Ho, Hhi. specialize (Hs y Hy). unfold before in Hs. cbn in Hs.
      assert (ok (snd y)) as Hoy by (apply Ho; set_solver).
      destruct (Z.lt_trichotomy (compare_ k kp) 0) as [Hc|[Hc|Hc]].
      * pose proof (compare_trans _ _ _ Hk Hkp Hoy Hc Hs). lia.
      * done.
      * exfalso. apply (compare_anti _ _ Hkp Hk) in Hc. specialize (Hhi (p, kp) ltac:(set_solver)). cbn in Hhi. lia.
Qed.
End last.

(** ** The list as a sorted set *)

Section history.
Context {Key : Type} (compare_ : Key -> Key -> Z) (ok : Key -> Prop) `{Ord : !KeyOrder compare_ ok}.

Lemma sorted_keys (ord : list (ptr * Key)) :
  StronglySorted (before compare_) ord -> StronglySorted (fun k k' => compare_ k k' < 0) (map snd ord).
Proof.
  induction 1 as [|y l Hs IH Hy]; [constructor|]. cbn. constructor; [done|]. by apply Forall_map.
Qed.

Lemma find_split lo hi k :
  Forall (fun y : ptr * Key => compare_ (snd y) k < 0) lo -> Forall (fun y => ~ compare_ (snd y) k < 0) hi ->
  List.find (fun k' => negb (compare_ k' k <? 0)) (map snd (lo ++ hi)) = snd <$> head hi.
Proof.
  intros Hlo Hhi. induction Hlo as [|y lo Hy Hlo IH]; cbn [app map List.find].
  - destruct hi as [|y hi]; [done|]. apply Forall_cons in Hhi as [Hy _]. cbn [map List.find].
    by rewrite (proj2 (Z.ltb_ge _ _)) by lia.
  - by rewrite (proj2 (Z.ltb_lt _ _) Hy).
Qed.

(** C30: For every comparison that orders the keys, inserting any sequence of keys of which
    no two compare equal succeeds, whatever heights the random generator chooses, and the
    result behaves as the sorted sequence of these keys: walking forwards gives it,
    walking backwards gives its reverse, [Contains] decides membership, and [Seek] stops
    at the first key that is not before its target. *)
Theorem skiplist_sorted_set (keys : list Key) :
  Forall ok keys -> ForallOrdPairs (fun k k' => compare_ k' k <> 0) keys ->
  exists sl sorted, insert_all compare_ keys new_SkipList = Some sl
    /\ sorted ≡ₚ keys /\ StronglySorted (fun k k' => compare_ k k' < 0) sorted
    /\ forward sl = Some sorted /\ backward compare_ sl = Some (reverse sorted)
    /\ forall k, ok k ->
      (exists b, Contains compare_ k sl = Some b /\ (b = true <-> exists k', k' ∈ keys /\ compare_ k k' = 0))
      /\ exists x, Iterator_Seek compare_ k sl = Some x
        /\ x ≫= Iterator_key sl = List.find (fun k' => negb (compare_ k' k <? 0)) sorted.
Proof.
  intros Ho Hd.
  destruct (insert_all_spec compare_ ok keys new_SkipList [] (new_SkipList_inv compare_ ok) Ho)
    as (sl & ord & E & Hi & Hp); [by apply Forall_forall; constructor|done|]. cbn in Hp.
  exists sl, (map snd ord). pose proof (inv_count _ _ _ _ Hi) as Hn. split_and!.
  - done.
  - done.
  - apply sorted_keys, (inv_order _ _ _ _ Hi).
  - unfold forward. rewrite (SeekToFirst_spec compare_ ok sl ord Hi). cbn [mbind option_bind].
    apply (walk_forward compare_ ok sl ord []); [done|done|lia].
  - unfold backward. rewrite (SeekToLast_spec compare_ ok sl ord Hi). cbn [mbind option_bind].
    apply (walk_backward compare_ ok sl ord ord []); [done|by rewrite app_nil_r|lia].
  - intros k Hk. split.
    + destruct (Contains_spec compare_ ok k sl ord Hi Hk) as (b & H1 & H2). exists b. split; [done|].
      rewrite H2. by setoid_rewrite Hp.
    + destruct (Seek_spec compare_ ok sl ord k Hi Hk) as (lo & hi & -> & Hlo & Hhi & H). eexists. split; [done|].
      rewrite (find_split lo hi k Hlo Hhi). destruct hi as [|[p kp] hi]; [done|].
      destruct (inv_node _ _ _ _ Hi p kp ltac:(set_solver)) as (_ & Hkp & _). exact Hkp.
Qed.
End history.

#[export] Instance Z_order : KeyOrder Z.sub (fun _ => True).
Proof. split; intros; lia. Qed.

Lemma skiplist_sorted_set_witness :
  exists sl sorted, insert_all Z.sub [50; 20; 70; 10; 60] new_SkipList = Some sl
    /\ sorted ≡ₚ [50; 20; 70; 10; 60] /\ forward sl = Some sorted.
Proof.
  destruct (skiplist_sorted_set Z.sub (fun _ => True) [50; 20; 70; 10; 60]) as (sl & sorted & H1 & H2 & _ & H3 & _).
  - repeat constructor.
  - repeat (constructor; [repeat (constructor; [discriminate|]); constructor|]). constructor.
  - exists sl, sorted. auto.
Defined.

Example skiplist_run :
  (sl ← insert_all Z.sub [50; 20; 70; 10; 60] new_SkipList; l ← forward sl; r ← backward Z.sub sl; Some (l, r))
    = Some ([10; 20; 50; 60; 70], [70; 60; 50; 20; 10]).
Proof. vm_compute. reflexivity. Qed.
