(* ===== verification/DbFormat.v ===== *)
(** * Keys of LevelDB: include/leveldb/slice.h, util/comparator.cc, db/dbformat.h and
    db/dbformat.cc of src/packages/LevelDB.1.16.0.5/lib/native

    A slice is the list of its bytes.  An internal key is a user key followed by eight
    bytes that hold a sequence number and a type; the definitions on internal keys are
    used on keys of at least eight bytes, which the code asserts. *)
From stdpp Require Import base numbers option list.
From S2P Require Import Prelude Coding SkipList.
Open Scope Z_scope.
Open Scope word_scope.

(** ** Slices *)

(** [memcmp] on two arrays of [n] bytes; only the sign of its result is used. *)
Fixpoint memcmp (a b : list Z) (n : nat) : Z :=
  match n, a, b with
  | S n', x :: a', y :: b' => if x =? y then memcmp a' b' n' else if x <? y then -1 else 1
  | _, _, _ => 0
  end.

Definition Slice_compare (a b : list Z) : Z :=
  let min_len := if (length a <? length b)%nat then length a else length b in
  let r := memcmp a b min_len in
  if r =? 0 then
    if (length a <? length b)%nat then -1 else if (length b <? length a)%nat then 1 else r
  else r.

Definition starts_with (a x : list Z) : bool :=
  (length x <=? length a)%nat && (memcmp a x (length x) =? 0).

(** ** The bytewise comparator *)

Definition Bytewise_Compare (a b : list Z) : Z := Slice_compare a b.

(** [while ((diff_index < min_length) && start[diff_index] == limit[diff_index])] *)
Fixpoint common_prefix (a b : list Z) : nat :=
  match a, b with
  | x :: a', y :: b' => if x =? y then S (common_prefix a' b') else O
  | _, _ => O
  end.

Definition Bytewise_FindShortestSeparator (start limit : list Z) : list Z :=
  let min_length := Nat.min (length start) (length limit) in
  let diff_index := common_prefix start limit in
  if (min_length <=? diff_index)%nat then start
  else
    let diff_byte := nth diff_index start 0 in
    if (diff_byte <? 0xff) && (diff_byte + 1 <? nth diff_index limit 0)
    then take diff_index start ++ [diff_byte + 1]
    else start.

(** [for (size_t i = 0; i < n; i++)]; [done] are the bytes before [i]. *)
Fixpoint short_successor_loop (done key : list Z) : list Z :=
  match key with
  | [] => done
  | byte :: key' =>
      if byte =? 0xff then short_successor_loop (done ++ [byte]) key' else done ++ [w8 (byte + 1)]
  end.
Definition Bytewise_FindShortSuccessor (key : list Z) : list Z := short_successor_loop [] key.

(** ** Internal keys *)

Definition kTypeDeletion : Z := 0.
Definition kTypeValue : Z := 1.
Definition kValueTypeForSeek : Z := kTypeValue.
Definition kMaxSequenceNumber : Z := 0xff_ffff_ffff_ffff.

Record ParsedInternalKey := { pk_user_key : list Z; pk_sequence : Z; pk_type : Z }.

Definition PackSequenceAndType (seq t : Z) : Z := shl64 seq 8 .| t.
Definition AppendInternalKey (result : list Z) (key : ParsedInternalKey) : list Z :=
  PutFixed64 (result ++ pk_user_key key) (PackSequenceAndType (pk_sequence key) (pk_type key)).

Definition ExtractUserKey (internal_key : list Z) : list Z :=
  take (length internal_key - 8) internal_key.
(** The last eight bytes. *)
Definition key_tag (internal_key : list Z) : Z :=
  DecodeFixed64 (drop (length internal_key - 8) internal_key).
Definition ExtractValueType (internal_key : list Z) : Z := key_tag internal_key .& 0xff.

(** [bool ParseInternalKey(internal_key, result)] *)
Definition ParseInternalKey (internal_key : list Z) : option ParsedInternalKey :=
  if (length internal_key <? 8)%nat then None
  else
    let num := key_tag internal_key in
    let c := num .& 0xff in
    if c <=? kTypeValue
    then Some {| pk_user_key := ExtractUserKey internal_key; pk_sequence := num >> 8; pk_type := c |}
    else None.

Definition InternalKey_Compare (akey bkey : list Z) : Z :=
  let r := Bytewise_Compare (ExtractUserKey akey) (ExtractUserKey bkey) in
  if r =? 0 then
    let anum := key_tag akey in
    let bnum := key_tag bkey in
    if bnum <? anum then -1 else if anum <? bnum then 1 else r
  else r.

Definition InternalKey_FindShortestSeparator (start limit : list Z) : list Z :=
  let user_start := ExtractUserKey start in
  let user_limit := ExtractUserKey limit in
  let tmp := Bytewise_FindShortestSeparator user_start user_limit in
  if (length tmp <? length user_start)%nat && (Bytewise_Compare user_start tmp <? 0)
  then PutFixed64 tmp (PackSequenceAndType kMaxSequenceNumber kValueTypeForSeek)
  else start.

Definition InternalKey_FindShortSuccessor (key : list Z) : list Z :=
  let user_key := ExtractUserKey key in
  let tmp := Bytewise_FindShortSuccessor user_key in
  if (length tmp <? length user_key)%nat && (Bytewise_Compare user_key tmp <? 0)
  then PutFixed64 tmp (PackSequenceAndType kMaxSequenceNumber kValueTypeForSeek)
  else key.

(** [LookupKey(user_key, s)]: its array, and the parts of it. *)
Definition LookupKey (user_key : list Z) (s : Z) : list Z :=
  EncodeVarint32 (w32 (Z.of_nat (length user_key) + 8)) ++ user_key
    ++ EncodeFixed64 (PackSequenceAndType s kValueTypeForSeek).
Definition lookup_internal_key (user_key : list Z) (s : Z) : list Z :=
  user_key ++ EncodeFixed64 (PackSequenceAndType s kValueTypeForSeek).

(** ** The order of slices *)

(** The lexicographic order, as a reference. *)
Fixpoint lex (a b : list Z) : Z :=
  match a, b with
  | [], [] => 0
  | [], _ :: _ => -1
  | _ :: _, [] => 1
  | x :: a', y :: b' => if x =? y then lex a' b' else if x <? y then -1 else 1
  end.

Lemma memcmp_lex a b :
  lex a b = (let r := memcmp a b (Nat.min (length a) (length b)) in
             if r =? 0 then if (length a <? length b)%nat then -1
                            else if (length b <? length a)%nat then 1 else 0 else r).
Proof.
  revert b. induction a as [|x a IH]; intros [|y b]; try done. cbn [lex length Nat.min memcmp].
  destruct (x =? y); [by rewrite IH|]. by destruct (x <? y).
Qed.

Lemma Slice_compare_lex a b : Slice_compare a b = lex a b.
Proof.
  rewrite memcmp_lex. unfold Slice_compare.
  replace (if (length a <? length b)%nat then length a else length b) with (Nat.min (length a) (length b))
    by (destruct (Nat.ltb_spec (length a) (length b)); lia).
  cbn zeta. destruct (Z.eqb_spec (memcmp a b (Nat.min (length a) (length b))) 0) as [->|]; [|done].
  reflexivity.
Qed.

Lemma lex_refl a : lex a a = 0.
Proof. induction a as [|x a IH]; cbn; [done|]. by rewrite Z.eqb_refl. Qed.
Lemma lex_eq a b : lex a b = 0 -> a = b.
Proof.
  revert b. induction a as [|x a IH]; intros [|y b]; cbn; try done.
  destruct (Z.eqb_spec x y) as [->|]; [intros H; f_equal; auto|]. by destruct (x <? y).
Qed.
Lemma lex_opp a b : lex b a = - lex a b.
Proof.
  revert b. induction a as [|x a IH]; intros [|y b]; cbn; try done. rewrite (Z.eqb_sym y x).
  destruct (Z.eqb_spec x y); [apply IH|]. destruct (Z.ltb_spec x y), (Z.ltb_spec y x); try done; lia.
Qed.
Lemma lex_trans a b c : lex a b < 0 -> lex b c < 0 -> lex a c < 0.
Proof.
  revert b c. induction a as [|x a IH]; intros [|y b] [|z c]; cbn; try done.
  destruct (Z.eqb_spec x y) as [->|]; destruct (Z.eqb_spec y z) as [->|];
    try (destruct (Z.eqb_spec x z)); subst; rewrite ?Z.eqb_refl; try apply IH; try done;
    repeat case_match; try lia; try done.
Qed.
Lemma lex_le_lt a b c : lex a b <= 0 -> lex b c < 0 -> lex a c < 0.
Proof.
  intros H1 H2. destruct (Z.eq_dec (lex a b) 0) as [E|]; [apply lex_eq in E; by subst|]. by apply (lex_trans a b c); [lia|].
Qed.
Lemma lex_lt_le a b c : lex a b < 0 -> lex b c <= 0 -> lex a c < 0.
Proof.
  intros H1 H2. destruct (Z.eq_dec (lex b c) 0) as [E|]; [apply lex_eq in E; by subst|]. by apply (lex_trans a b c); [|lia].
Qed.
Lemma lex_app_l p a b : lex (p ++ a) (p ++ b) = lex a b.
Proof. induction p as [|x p IH]; cbn; [done|]. by rewrite Z.eqb_refl. Qed.

(** ** Separators *)

Lemma common_prefix_refl a : common_prefix a a = length a.
Proof. induction a as [|x a IH]; cbn; [done|]. by rewrite Z.eqb_refl, IH. Qed.

Lemma common_prefix_spec a b :
  (common_prefix a b < Nat.min (length a) (length b))%nat ->
  exists p x y a' b', a = p ++ x :: a' /\ b = p ++ y :: b' /\ x <> y /\ common_prefix a b = length p.
Proof.
  revert b. induction a as [|x a IH]; intros [|y b]; cbn; try lia.
  destruct (Z.eqb_spec x y) as [->|Hn].
  - intros H. destruct (IH b ltac:(lia)) as (p & x' & y' & a' & b' & -> & -> & Hn & ->).
    by exists (y :: p), x', y', a', b'.
  - intros _. by exists [], x, y, a, b.
Qed.

Lemma Bytewise_separator start limit :
  lex start limit < 0 ->
  let sep := Bytewise_FindShortestSeparator start limit in
  lex start sep <= 0 /\ lex sep limit < 0 /\ (length sep <= length start)%nat
    /\ (sep <> start -> lex start sep < 0).
Proof.
  intros Hlt sep. subst sep. unfold Bytewise_FindShortestSeparator.
  destruct (Nat.leb_spec (Nat.min (length start) (length limit)) (common_prefix start limit)) as [|Hd].
  { rewrite lex_refl. split_and!; try done; lia. }
  destruct (common_prefix_spec _ _ Hd) as (p & x & y & a' & b' & -> & -> & Hn & ->).
  rewrite lex_app_l in Hlt. cbn in Hlt. rewrite (proj2 (Z.eqb_neq _ _) Hn) in Hlt.
  destruct (Z.ltb_spec x y) as [Hxy|]; [|lia].
  rewrite !nth_middle. destruct ((x <? 255) && (x + 1 <? y)) eqn:E.
  - apply andb_prop in E as [_ E%Z.ltb_lt]. rewrite take_app_length, !lex_app_l. cbn.
    rewrite (proj2 (Z.eqb_neq x (x + 1))), (proj2 (Z.ltb_lt x (x + 1))) by lia.
    rewrite (proj2 (Z.eqb_neq (x + 1) y)), (proj2 (Z.ltb_lt (x + 1) y)) by lia.
    rewrite !length_app. cbn. split_and!; try done; lia.
  - rewrite lex_refl, lex_app_l. cbn. rewrite (proj2 (Z.eqb_neq _ _) Hn), (proj2 (Z.ltb_lt _ _) Hxy).
    split_and!; try done; lia.
Qed.

Lemma Bytewise_successor key :
  bytes key ->
  let succ := Bytewise_FindShortSuccessor key in
  lex key succ <= 0 /\ (length succ <= length key)%nat.
Proof.
  intros Hb succ. subst succ. unfold Bytewise_FindShortSuccessor.
  assert (forall d k, bytes k -> lex (d ++ k) (short_successor_loop d k) <= 0
    /\ (length (short_successor_loop d k) <= length (d ++ k))%nat) as H.
  { intros d k. revert d. induction k as [|x k IH]; intros d Hk; cbn [short_successor_loop].
    - rewrite app_nil_r, lex_refl. lia.
    - apply bytes_cons in Hk as [Hx Hk]. destruct (Z.eqb_spec x 255) as [->|Hn].
      + specialize (IH (d ++ [255])). rewrite <- app_assoc in IH. apply IH. done.
      + rewrite lex_app_l, !length_app. cbn. unfold is8 in Hx. rewrite w8_small by (unfold is8; lia).
        rewrite (proj2 (Z.eqb_neq x (x + 1))), (proj2 (Z.ltb_lt x (x + 1))) by lia. lia. }
  apply (H [] key Hb).
Qed.

(** ** The order of internal keys *)

Lemma InternalKey_Compare_lt a b :
  InternalKey_Compare a b < 0 <->
  lex (ExtractUserKey a) (ExtractUserKey b) < 0
  \/ (ExtractUserKey a = ExtractUserKey b /\ key_tag b < key_tag a).
Proof.
  unfold InternalKey_Compare, Bytewise_Compare. rewrite Slice_compare_lex.
  destruct (Z.eqb_spec (lex (ExtractUserKey a) (ExtractUserKey b)) 0) as [E|E].
  - rewrite E. apply lex_eq in E. destruct (Z.ltb_spec (key_tag b) (key_tag a)), (Z.ltb_spec (key_tag a) (key_tag b));
      split; intros; try lia; try (destruct H1; [lia|lia]); auto; lia.
  - split; [by left|]. intros [H|[H _]]; [done|]. by rewrite H, lex_refl in E.
Qed.

Lemma InternalKey_Compare_opp a b : InternalKey_Compare b a = - InternalKey_Compare a b.
Proof.
  unfold InternalKey_Compare, Bytewise_Compare. rewrite !Slice_compare_lex.
  rewrite (lex_opp (ExtractUserKey a) (ExtractUserKey b)).
  destruct (Z.eqb_spec (lex (ExtractUserKey a) (ExtractUserKey b)) 0) as [E|E].
  - rewrite E. cbn [Z.opp Z.eqb].
    destruct (Z.ltb_spec (key_tag b) (key_tag a)), (Z.ltb_spec (key_tag a) (key_tag b)); try done; lia.
  - by rewrite (proj2 (Z.eqb_neq _ _)) by lia.
Qed.

#[export] Instance InternalKey_order : KeyOrder InternalKey_Compare (fun _ => True).
Proof.
  split.
  - intros a b c _ _ _ H1%InternalKey_Compare_lt H2%InternalKey_Compare_lt. apply InternalKey_Compare_lt.
    destruct H1 as [H1|[E1 H1]], H2 as [H2|[E2 H2]].
    + left. by eapply lex_trans.
    + left. by rewrite <- E2.
    + left. by rewrite E1.
    + right. split; [congruence|lia].
  - intros a b _ _. rewrite (InternalKey_Compare_opp a b). lia.
Qed.

Lemma Compare_zero a b c : InternalKey_Compare b c = 0 -> InternalKey_Compare a b = InternalKey_Compare a c.
Proof.
  unfold InternalKey_Compare, Bytewise_Compare. rewrite !Slice_compare_lex. intros Hz.
  destruct (Z.eqb_spec (lex (ExtractUserKey b) (ExtractUserKey c)) 0) as [E|]; [|done]. apply lex_eq in E. rewrite E.
  replace (key_tag c) with (key_tag b); [done|]. destruct (Z.ltb_spec (key_tag c) (key_tag b)), (Z.ltb_spec (key_tag b) (key_tag c)); lia.
Qed.
Lemma Compare_lt_le a b c : InternalKey_Compare a b < 0 -> InternalKey_Compare b c <= 0 -> InternalKey_Compare a c < 0.
Proof.
  intros H1 H2. destruct (Z.eq_dec (InternalKey_Compare b c) 0) as [E|]; [by rewrite <- (Compare_zero a b c E)|].
  by apply (compare_trans (ok := fun _ => True) a b c); try lia.
Qed.
Lemma Compare_le_lt a b c : InternalKey_Compare a b <= 0 -> InternalKey_Compare b c < 0 -> InternalKey_Compare a c < 0.
Proof.
  intros H1 H2. destruct (Z.eq_dec (InternalKey_Compare b a) 0) as [E|].
  - rewrite (InternalKey_Compare_opp c a), <- (Compare_zero c b a E), <- (InternalKey_Compare_opp c b). done.
  - rewrite (InternalKey_Compare_opp a b) in *. by apply (compare_trans (ok := fun _ => True) a b c); try lia.
Qed.


(** A key put together from its parts. *)
Lemma ExtractUserKey_app u t : length t = 8%nat -> ExtractUserKey (u ++ t) = u.
Proof. intros H. unfold ExtractUserKey. rewrite length_app, H. replace (length u + 8 - 8)%nat with (length u) by lia. apply take_app_length. Qed.
Lemma key_tag_app u t : length t = 8%nat -> key_tag (u ++ t) = DecodeFixed64 t.
Proof. intros H. unfold key_tag. rewrite length_app, H. replace (length u + 8 - 8)%nat with (length u) by lia. by rewrite drop_app_length. Qed.

Lemma length_EncodeFixed64 v : length (EncodeFixed64 v) = 8%nat.
Proof. apply length_le_bytes. Qed.

Lemma ExtractUserKey_Encode u v : ExtractUserKey (u ++ EncodeFixed64 v) = u.
Proof. apply ExtractUserKey_app, length_EncodeFixed64. Qed.
Lemma key_tag_Encode u v : is64 v -> key_tag (u ++ EncodeFixed64 v) = v.
Proof.
  intros Hv. rewrite key_tag_app by apply length_EncodeFixed64.
  rewrite <- (app_nil_r (EncodeFixed64 v)). by apply DecodeFixed64_Encode.
Qed.

Definition is_seq (s : Z) : Prop := 0 <= s <= kMaxSequenceNumber.
Definition is_type (t : Z) : Prop := t = kTypeDeletion \/ t = kTypeValue.

Lemma PackSequenceAndType_add s t : is_seq s -> is_type t -> PackSequenceAndType s t = s * 256 + t.
Proof.
  intros Hs Ht. unfold is_seq, kMaxSequenceNumber in Hs. unfold is_type, kTypeDeletion, kTypeValue in Ht.
  unfold PackSequenceAndType, shl64. rewrite w64_small.
  - rewrite Z.lor_comm, lor_shiftl_add by lia. lia.
  - rewrite Z.shiftl_mul_pow2 by lia. unfold is64. lia.
Qed.
Lemma is64_pack s t : is_seq s -> is_type t -> is64 (PackSequenceAndType s t).
Proof.
  intros Hs Ht. rewrite PackSequenceAndType_add by done. unfold is_seq, kMaxSequenceNumber in Hs.
  unfold is_type, kTypeDeletion, kTypeValue in Ht. unfold is64. lia.
Qed.
Lemma pack_type s t : is_seq s -> is_type t -> PackSequenceAndType s t .& 0xff = t.
Proof.
  intros Hs Ht. rewrite PackSequenceAndType_add by done. change 0xff with (Z.ones 8). rewrite Z.land_ones by lia.
  rewrite Z.add_comm, Z.mod_add by lia. apply Z.mod_small. unfold is_type, kTypeDeletion, kTypeValue in Ht. lia.
Qed.
Lemma pack_seq s t : is_seq s -> is_type t -> PackSequenceAndType s t >> 8 = s.
Proof.
  intros Hs Ht. rewrite PackSequenceAndType_add by done. rewrite Z.shiftr_div_pow2 by lia.
  change (2 ^ 8) with 256. rewrite Z.div_add_l by lia.
  unfold is_type, kTypeDeletion, kTypeValue in Ht. rewrite Z.div_small by lia. lia.
Qed.

Create HintDb leveldb.
#[export] Hint Resolve is64_pack pack_type pack_seq length_EncodeFixed64 : leveldb.

(** Parsing gives back the parts. *)
Lemma ParseInternalKey_Append k :
  is_seq (pk_sequence k) -> is_type (pk_type k) -> ParseInternalKey (AppendInternalKey [] k) = Some k.
Proof.
  intros Hs Ht. unfold ParseInternalKey, AppendInternalKey, PutFixed64. rewrite app_nil_l.
  rewrite length_app, length_EncodeFixed64, ExtractUserKey_Encode, key_tag_Encode by (by apply is64_pack).
  rewrite (proj2 (Nat.ltb_ge _ _)) by lia. rewrite pack_type, pack_seq by done.
  rewrite (proj2 (Z.leb_le _ _)) by (destruct Ht as [->| ->]; done). by destruct k.
Qed.

Lemma key_tag_bound k : bytes k -> (8 <= length k)%nat -> 0 <= key_tag k < 2 ^ 64.
Proof.
  intros Hb Hl. unfold key_tag, DecodeFixed64.
  pose proof (le_val_bound (take 8 (drop (length k - 8) k)) (bytes_take _ _ (bytes_drop _ _ Hb))) as H.
  rewrite length_take, length_drop in H. replace (8 `min` (length k - (length k - 8)))%nat with 8%nat in H by lia.
  exact H.
Qed.

(** A separator of two internal keys lies between them, and is no longer than the first:
    it can stand for the first key in an index. *)
Lemma InternalKey_separator start limit :
  InternalKey_Compare start limit < 0 ->
  let sep := InternalKey_FindShortestSeparator start limit in
  InternalKey_Compare start sep <= 0 /\ InternalKey_Compare sep limit < 0.
Proof.
  intros Hlt sep. subst sep. unfold InternalKey_FindShortestSeparator.
  destruct (_ && _) eqn:E; [|split; [|done]].
  - apply andb_prop in E as [El%Nat.ltb_lt Ec%Z.ltb_lt]. unfold Bytewise_Compare in Ec. rewrite Slice_compare_lex in Ec.
    unfold PutFixed64. set (tmp := Bytewise_FindShortestSeparator _ _) in *.
    split.
    + apply Z.lt_le_incl, InternalKey_Compare_lt. left. by rewrite ExtractUserKey_Encode.
    + apply InternalKey_Compare_lt. left. rewrite ExtractUserKey_Encode.
      apply InternalKey_Compare_lt in Hlt as [Hlt|[Eq _]].
      * by apply Bytewise_separator.
      * exfalso. unfold tmp, Bytewise_FindShortestSeparator in El. rewrite Eq in El.
        rewrite common_prefix_refl, Nat.min_id, Nat.leb_refl in El. lia.
  - pose proof (InternalKey_Compare_opp start start). lia.
Qed.

Lemma InternalKey_successor key :
  InternalKey_Compare key (InternalKey_FindShortSuccessor key) <= 0.
Proof.
  unfold InternalKey_FindShortSuccessor. destruct (_ && _) eqn:E.
  - apply andb_prop in E as [_ Ec%Z.ltb_lt]. unfold Bytewise_Compare in Ec. rewrite Slice_compare_lex in Ec.
    apply Z.lt_le_incl, InternalKey_Compare_lt. left. unfold PutFixed64. by rewrite ExtractUserKey_Encode.
  - pose proof (InternalKey_Compare_opp key key). lia.
Qed.

Lemma separator_length start limit : (8 <= length start)%nat ->
  (8 <= length (InternalKey_FindShortestSeparator start limit) <= length start)%nat.
Proof.
  intros Hl. unfold InternalKey_FindShortestSeparator. destruct (_ && _) eqn:E; [|lia].
  apply andb_prop in E as [El%Nat.ltb_lt _]. unfold PutFixed64. rewrite length_app, length_EncodeFixed64.
  unfold ExtractUserKey in El at 3. rewrite length_take in El. lia.
Qed.
Lemma successor_length key : (8 <= length key)%nat ->
  (8 <= length (InternalKey_FindShortSuccessor key) <= length key)%nat.
Proof.
  intros Hl. unfold InternalKey_FindShortSuccessor. destruct (_ && _) eqn:E; [|lia].
  apply andb_prop in E as [El%Nat.ltb_lt _]. unfold PutFixed64. rewrite length_app, length_EncodeFixed64.
  unfold ExtractUserKey in El at 2. rewrite length_take in El. lia.
Qed.

Lemma separator_bytes start limit : bytes start -> bytes (InternalKey_FindShortestSeparator start limit).
Proof.
  intros Hb. unfold InternalKey_FindShortestSeparator. destruct (_ && _); [|done].
  unfold PutFixed64. apply bytes_app. split; [|apply bytes_le_bytes].
  assert (bytes (ExtractUserKey start)) as Hu by (by apply bytes_take).
  unfold Bytewise_FindShortestSeparator. destruct (Nat.leb_spec (Nat.min (length (ExtractUserKey start)) (length (ExtractUserKey limit)))
    (common_prefix (ExtractUserKey start) (ExtractUserKey limit))) as [|Hd]; [done|].
  destruct (_ && _) eqn:E; [|done]. apply andb_prop in E as [E%Z.ltb_lt _]. apply bytes_app. split; [by apply bytes_take|].
  apply bytes_1. unfold bytes in Hu. rewrite Forall_forall in Hu.
  assert (is8 (nth (common_prefix (ExtractUserKey start) (ExtractUserKey limit)) (ExtractUserKey start) 0)) as Hn.
  { apply Hu, list_elem_of_In, nth_In. lia. }
  unfold is8 in *. lia.
Qed.
Lemma successor_bytes key : bytes key -> bytes (InternalKey_FindShortSuccessor key).
Proof.
  intros Hb. unfold InternalKey_FindShortSuccessor. destruct (_ && _); [|done].
  unfold PutFixed64. apply bytes_app. split; [|apply bytes_le_bytes]. unfold Bytewise_FindShortSuccessor.
  assert (forall d k, bytes d -> bytes k -> bytes (short_successor_loop d k)) as H; [|apply H; [constructor|by apply bytes_take]].
  intros d k. revert d. induction k as [|x k IH]; intros d Hd Hk; cbn [short_successor_loop]; [done|].
  apply bytes_cons in Hk as [Hx Hk]. destruct (_ =? _).
  - apply IH; [|done]. apply bytes_app. split; [done|by apply bytes_1].
  - apply bytes_app. split; [done|]. apply bytes_1, is8_w8.
Qed.

Lemma user_key_le a b : InternalKey_Compare a b <= 0 -> lex (ExtractUserKey a) (ExtractUserKey b) <= 0.
Proof.
  intros Hle. destruct (Z.le_gt_cases (lex (ExtractUserKey a) (ExtractUserKey b)) 0) as [|Hgt]; [done|].
  assert (InternalKey_Compare b a < 0) as Hba
    by (apply InternalKey_Compare_lt; left; rewrite (lex_opp (ExtractUserKey a)); lia).
  rewrite (InternalKey_Compare_opp a b) in Hba. lia.
Qed.

(** A key in the gap that a separator leaves behind [start] has a smaller user key than [limit]. *)
Lemma separator_gap start limit k :
  InternalKey_Compare start limit < 0 -> InternalKey_Compare start k < 0 ->
  InternalKey_Compare k (InternalKey_FindShortestSeparator start limit) <= 0 ->
  lex (ExtractUserKey k) (ExtractUserKey limit) < 0.
Proof.
  intros Hlt Hsk Hks. pose proof (InternalKey_separator start limit Hlt) as [_ Hsl].
  unfold InternalKey_FindShortestSeparator in *. destruct (_ && _) eqn:E.
  - apply user_key_le in Hks. apply andb_prop in E as [El%Nat.ltb_lt Ec%Z.ltb_lt].
    unfold PutFixed64 in *. rewrite ExtractUserKey_Encode in Hks. set (tmp := Bytewise_FindShortestSeparator _ _) in *.
    assert (lex tmp (ExtractUserKey limit) < 0) as Ht.
    { apply InternalKey_Compare_lt in Hlt as [Hlt|[Eq _]]; [by apply Bytewise_separator|].
      unfold tmp in Ec. rewrite Eq in Ec. unfold Bytewise_Compare, Bytewise_FindShortestSeparator in Ec.
      rewrite Slice_compare_lex in Ec.
      rewrite common_prefix_refl, Nat.min_id, Nat.leb_refl, lex_refl in Ec. lia. }
    destruct (Z.eq_dec (lex (ExtractUserKey k) tmp) 0) as [E|]; [apply lex_eq in E; by rewrite E|].
    eapply lex_trans; [|exact Ht]. lia.
  - rewrite (InternalKey_Compare_opp start k) in Hks. lia.
Qed.

(** ** Claims *)

(** The keys of an index block.  A separator of two internal keys that are in order is not
    before the first and is before the second, a successor is not before its key, and neither
    is longer than the key it stands for. *)
Theorem index_keys_between (start limit : list Z) :
  InternalKey_Compare start limit < 0 -> (8 <= length start)%nat ->
  let sep := InternalKey_FindShortestSeparator start limit in
  let succ := InternalKey_FindShortSuccessor start in
  InternalKey_Compare start sep <= 0 /\ InternalKey_Compare sep limit < 0
  /\ InternalKey_Compare start succ <= 0
  /\ (length sep <= length start)%nat /\ (length succ <= length start)%nat.
Proof.
  intros Hlt Hl sep succ. destruct (InternalKey_separator start limit Hlt) as [H1 H2].
  split_and!; [done|done|apply InternalKey_successor|by apply separator_length|by apply successor_length].
Qed.

Lemma index_keys_between_witness :
  let start := [97; 98; 99; 5; 1; 0; 0; 0; 0; 0; 0] in
  let limit := [97; 102; 1; 1; 0; 0; 0; 0; 0; 0] in
  InternalKey_FindShortestSeparator start limit = [97; 99; 1; 255; 255; 255; 255; 255; 255; 255]
  /\ InternalKey_Compare (InternalKey_FindShortestSeparator start limit) limit < 0.
Proof.
  split; [reflexivity|].
  apply (index_keys_between [97; 98; 99; 5; 1; 0; 0; 0; 0; 0; 0] [97; 102; 1; 1; 0; 0; 0; 0; 0; 0]);
    [reflexivity|cbn; lia].
Defined.
