(* ===== verification/MemTable.v ===== *)
(** * The table in memory of LevelDB: db/memtable.cc of
    src/packages/LevelDB.1.16.0.5/lib/native/src

    A table is a skip list of entries, each an array of bytes: the length of the
    internal key, the internal key, the length of the value, the value.  A pointer to
    an entry is the list of the bytes from it on.  [None] is a failure of the skip
    list, which [MemTable_history] excludes. *)
From stdpp Require Import base numbers option sets list sorting.
From S2P Require Import Prelude Coding SkipList DbFormat.
Open Scope Z_scope.
Open Scope word_scope.

Module MemTable.

(** [GetLengthPrefixedSlice(const char* data)].  The limit [p + 5] is that of the loop of
    [GetVarint32Ptr]; a corrupted length, on which the code would go through a null
    pointer, is read as an empty slice. *)
Definition GetLengthPrefixedSlice (data : list Z) : list Z :=
  match GetVarint32Ptr data with
  | Some (len, p) => take (Z.to_nat len) p
  | None => []
  end.

Definition KeyComparator (aptr bptr : list Z) : Z :=
  InternalKey_Compare (GetLengthPrefixedSlice aptr) (GetLengthPrefixedSlice bptr).

Abbreviation MemTable := (SkipList (list Z)).
Definition new_MemTable : MemTable := new_SkipList.

(** The buffer that [Add] fills, and the size it allocates for it. *)
Definition encode_entry (s type : Z) (key value : list Z) : list Z :=
  let key_size := Z.of_nat (length key) in
  let val_size := Z.of_nat (length value) in
  let internal_key_size := key_size + 8 in
  EncodeVarint32 (w32 internal_key_size) ++ key ++ EncodeFixed64 (shl64 s 8 .| type)
    ++ EncodeVarint32 (w32 val_size) ++ value.
Definition encoded_len (key value : list Z) : Z :=
  let internal_key_size := Z.of_nat (length key) + 8 in
  let val_size := Z.of_nat (length value) in
  VarintLength internal_key_size + internal_key_size + VarintLength val_size + val_size.

Definition Add (s type : Z) (key value : list Z) (mem : MemTable) : option MemTable :=
  Insert KeyComparator (encode_entry s type key value) mem.

(** [bool Get(key, value, s)]: false, or true with a value or with [Status::NotFound]. *)
Inductive get_result := Absent | Found (value : list Z) | Deleted.

Definition Get (user_key : list Z) (s : Z) (mem : MemTable) : option get_result :=
  node ← Iterator_Seek KeyComparator (LookupKey user_key s) mem;
  match node with
  | None => Some Absent
  | Some x =>
      entry ← Iterator_key mem x;
      '(key_length, key_ptr) ← GetVarint32Ptr entry;
      if Bytewise_Compare (take (Z.to_nat (w32 (key_length - 8))) key_ptr) user_key =? 0 then
        let tag := DecodeFixed64 (drop (Z.to_nat (key_length - 8)) key_ptr) in
        if tag .& 0xff =? kTypeValue
        then Some (Found (GetLengthPrefixedSlice (drop (Z.to_nat key_length) key_ptr)))
        else if tag .& 0xff =? kTypeDeletion then Some Deleted
        else Some Absent
      else Some Absent
  end.

(** The iterator over a table: its keys are internal keys. *)
Definition EncodeKey (target : list Z) : list Z :=
  PutVarint32 [] (w32 (Z.of_nat (length target))) ++ target.
Definition Iter_Seek (k : list Z) (mem : MemTable) : option (option nat) :=
  Iterator_Seek KeyComparator (EncodeKey k) mem.
Definition Iter_key (mem : MemTable) (x : nat) : option (list Z) :=
  GetLengthPrefixedSlice <$> Iterator_key mem x.
Definition Iter_value (mem : MemTable) (x : nat) : option (list Z) :=
  entry ← Iterator_key mem x;
  '(len, p) ← GetVarint32Ptr entry;
  Some (GetLengthPrefixedSlice (drop (Z.to_nat len) p)).

(** ** Entries *)

Record op := { op_seq : Z; op_type : Z; op_key : list Z; op_value : list Z }.

(** What an entry can hold: lengths are stored in 32 bits. *)
Definition op_ok (o : op) : Prop :=
  is_seq (op_seq o) /\ is_type (op_type o)
  /\ Z.of_nat (length (op_key o)) + 8 < 0x1_0000_0000 /\ Z.of_nat (length (op_value o)) < 0x1_0000_0000.

Definition op_ikey (o : op) : list Z :=
  op_key o ++ EncodeFixed64 (PackSequenceAndType (op_seq o) (op_type o)).
Definition op_entry (o : op) : list Z := encode_entry (op_seq o) (op_type o) (op_key o) (op_value o).

Lemma GetLengthPrefixedSlice_app l rest :
  Z.of_nat (length l) < 0x1_0000_0000 ->
  GetLengthPrefixedSlice (EncodeVarint32 (w32 (Z.of_nat (length l))) ++ l ++ rest) = l.
Proof.
  intros H. unfold GetLengthPrefixedSlice. rewrite w32_small, GetVarint32_Encode by (unfold is32; lia).
  by rewrite Nat2Z.id, take_app_length.
Qed.

Lemma op_entry_ikey o : op_ok o ->
  op_entry o = EncodeVarint32 (w32 (Z.of_nat (length (op_ikey o)))) ++ op_ikey o
    ++ EncodeVarint32 (w32 (Z.of_nat (length (op_value o)))) ++ op_value o.
Proof.
  intros (_ & _ & Hk & Hv). unfold op_entry, encode_entry, op_ikey, PackSequenceAndType.
  rewrite length_app, length_EncodeFixed64, Nat2Z.inj_add, <- !app_assoc. done.
Qed.

Lemma length_op_ikey o : length (op_ikey o) = (length (op_key o) + 8)%nat.
Proof. unfold op_ikey. by rewrite length_app, length_EncodeFixed64. Qed.

Lemma op_entry_key o : op_ok o -> GetLengthPrefixedSlice (op_entry o) = op_ikey o.
Proof.
  intros Ho. rewrite op_entry_ikey by done. apply GetLengthPrefixedSlice_app.
  rewrite length_op_ikey. destruct Ho as (_ & _ & ? & _). lia.
Qed.

Lemma op_ikey_parts o : op_ok o ->
  ExtractUserKey (op_ikey o) = op_key o /\ key_tag (op_ikey o) = PackSequenceAndType (op_seq o) (op_type o).
Proof.
  intros (Hs & Ht & _). unfold op_ikey. split; [apply ExtractUserKey_Encode|].
  apply key_tag_Encode. auto with leveldb.
Qed.

(** [Add] fills exactly what it allocates. *)
Lemma length_op_entry o : op_ok o -> Z.of_nat (length (op_entry o)) = encoded_len (op_key o) (op_value o).
Proof.
  intros (_ & _ & Hk & Hv). unfold op_entry, encode_entry, encoded_len.
  rewrite !w32_small by (unfold is32; lia). rewrite !VarintLength_Encode by (unfold is32; lia).
  rewrite !length_app, length_EncodeFixed64. lia.
Qed.

#[export] Instance KeyComparator_order : KeyOrder KeyComparator (fun _ => True).
Proof.
  split.
  - intros a b c _ _ _. unfold KeyComparator. by apply compare_trans.
  - intros a b _ _. unfold KeyComparator. by apply compare_anti.
Qed.

(** Entries are ordered by key, and the newest first within a key. *)
Lemma KeyComparator_lt o o' : op_ok o -> op_ok o' ->
  KeyComparator (op_entry o) (op_entry o') < 0 <->
  lex (op_key o) (op_key o') < 0
  \/ (op_key o = op_key o'
      /\ PackSequenceAndType (op_seq o') (op_type o') < PackSequenceAndType (op_seq o) (op_type o)).
Proof.
  intros Ho Ho'. unfold KeyComparator. rewrite !op_entry_key, InternalKey_Compare_lt by done.
  destruct (op_ikey_parts o Ho) as [-> ->], (op_ikey_parts o' Ho') as [-> ->]. done.
Qed.

(** ** Histories *)

(** The content of a table: the operations it took, in the order of their sequence
    numbers. *)
Definition mem_inv (mem : MemTable) (ops : list op) : Prop :=
  Forall op_ok ops /\ StronglySorted (fun o o' => op_seq o < op_seq o') ops
  /\ exists ord, sl_inv KeyComparator (fun _ => True) mem ord /\ map snd ord ≡ₚ map op_entry ops.

(** The newest operation on a key that is not later than [s]. *)
Definition newest (k : list Z) (s : Z) (ops : list op) : option op :=
  last (filter (fun o => op_key o = k /\ op_seq o <= s) ops).
Definition answer (o : option op) : get_result :=
  match o with
  | None => Absent
  | Some o => if op_type o =? kTypeValue then Found (op_value o) else Deleted
  end.

Lemma new_MemTable_inv : mem_inv new_MemTable [].
Proof. split_and!; [constructor|constructor|]. exists []. split; [apply new_SkipList_inv|done]. Qed.

Lemma pack_lt s t s' t' : is_seq s -> is_type t -> is_seq s' -> is_type t' ->
  PackSequenceAndType s t < PackSequenceAndType s' t' <-> s < s' \/ (s = s' /\ t < t').
Proof.
  intros Hs Ht Hs' Ht'. rewrite !PackSequenceAndType_add by done.
  unfold is_type, kTypeDeletion, kTypeValue in *. lia.
Qed.

Lemma KeyComparator_opp a b : KeyComparator b a = - KeyComparator a b.
Proof. apply InternalKey_Compare_opp. Qed.

Lemma KeyComparator_eq o o' : op_ok o -> op_ok o' -> op_seq o <> op_seq o' ->
  KeyComparator (op_entry o) (op_entry o') <> 0.
Proof.
  intros Ho Ho' Hn E. pose proof (KeyComparator_opp (op_entry o) (op_entry o')) as Eo.
  pose proof (KeyComparator_lt o o' Ho Ho') as H1. pose proof (KeyComparator_lt o' o Ho' Ho) as H2.
  destruct Ho as (Hs & Ht & _), Ho' as (Hs' & Ht' & _).
  rewrite pack_lt in H1, H2 by done.
  destruct (Z.lt_trichotomy (lex (op_key o) (op_key o')) 0) as [H|[H|H]].
  - assert (KeyComparator (op_entry o) (op_entry o') < 0) by (apply H1; auto). lia.
  - apply lex_eq in H. destruct (Z.lt_total (op_seq o) (op_seq o')) as [?|[?|?]]; [|done|].
    + assert (KeyComparator (op_entry o') (op_entry o) < 0) by (apply H2; auto). lia.
    + assert (KeyComparator (op_entry o) (op_entry o') < 0) by (apply H1; auto). lia.
  - assert (KeyComparator (op_entry o') (op_entry o) < 0) by (apply H2; left; rewrite lex_opp; lia). lia.
Qed.

Lemma Add_spec o mem ops :
  mem_inv mem ops -> op_ok o -> Forall (fun o' => op_seq o' < op_seq o) ops ->
  exists mem', Add (op_seq o) (op_type o) (op_key o) (op_value o) mem = Some mem' /\ mem_inv mem' (ops ++ [o]).
Proof.
  intros (Hops & Hsorted & ord & Hi & Hp) Ho Hlt.
  destruct (Insert_any KeyComparator (fun _ => True) (op_entry o) mem ord Hi I) as (mem' & x & lo & hi & -> & E & Hi' & _).
  - apply Forall_forall. intros y Hy.
    assert (snd y ∈ map op_entry ops) as Hm by (rewrite <- Hp; by apply list_elem_of_fmap_2).
    apply list_elem_of_fmap in Hm as (o' & -> & Ho'). rewrite Forall_forall in Hlt, Hops.
    apply KeyComparator_eq; auto. specialize (Hlt o' Ho'). lia.
  - exists mem'. split; [exact E|]. split_and!.
    + apply Forall_app. split; [done|]. by constructor.
    + apply StronglySorted_app_2; [|done|by repeat constructor]. intros o1 o2 H1 H2. apply list_elem_of_singleton in H2 as ->.
      rewrite Forall_forall in Hlt. by apply Hlt.
    + exists (lo ++ (x, op_entry o) :: hi). split; [done|]. rewrite !map_app in Hp |- *. cbn [map snd].
      rewrite <- Permutation_middle, Hp, <- Permutation_cons_append. done.
Qed.

Lemma filter_none {A} (P : A -> Prop) `{forall x, Decision (P x)} l :
  (forall x, x ∈ l -> ~ P x) -> filter P l = [].
Proof.
  intros Hn. induction l as [|x l IH]; [done|]. rewrite filter_cons_False by (apply Hn; set_solver).
  apply IH. intros y Hy. apply Hn. set_solver.
Qed.

Lemma newest_spec k s ops o :
  StronglySorted (fun o o' => op_seq o < op_seq o') ops -> o ∈ ops -> op_key o = k -> op_seq o <= s ->
  (forall o', o' ∈ ops -> op_key o' = k -> op_seq o' <= s -> op_seq o' <= op_seq o) ->
  newest k s ops = Some o.
Proof.
  intros Hs Hin Hk Hle Hmax. apply list_elem_of_split in Hin as (l1 & l2 & ->). unfold newest.
  rewrite filter_app, filter_cons_True by done.
  assert (filter (fun o => op_key o = k /\ op_seq o <= s) l2 = []) as ->; [|by rewrite last_snoc].
  apply filter_none. intros o' Ho' [E1 E2].
  apply StronglySorted_app in Hs as (_ & _ & Hs). apply StronglySorted_inv in Hs as [_ Hs].
  rewrite Forall_forall in Hs. specialize (Hs o' Ho'). specialize (Hmax o' ltac:(set_solver) E1 E2). lia.
Qed.

Lemma newest_none k s ops :
  (forall o, o ∈ ops -> op_key o = k -> s < op_seq o) -> newest k s ops = None.
Proof.
  intros H. unfold newest.
  assert (filter (fun o => op_key o = k /\ op_seq o <= s) ops = []) as ->; [|done].
  apply filter_none. intros o Ho [E1 E2]. specialize (H o Ho E1). lia.
Qed.

(** The operation that a search stands for. *)
Definition seek_op (k : list Z) (s : Z) : op :=
  {| op_seq := s; op_type := kValueTypeForSeek; op_key := k; op_value := [] |}.

Lemma LookupKey_entry k s e : Z.of_nat (length k) + 8 < 0x1_0000_0000 -> is_seq s ->
  KeyComparator e (LookupKey k s) = KeyComparator e (op_entry (seek_op k s)).
Proof.
  intros Hk Hs. unfold KeyComparator. rewrite (op_entry_key (seek_op k s)).
  - f_equal. unfold LookupKey. unfold op_ikey, seek_op. cbn [op_key op_seq op_type].
    set (t := EncodeFixed64 _).
    replace (Z.of_nat (length k) + 8) with (Z.of_nat (length (k ++ t))) in *
      by (rewrite length_app; unfold t; rewrite length_EncodeFixed64; lia).
    pose proof (GetLengthPrefixedSlice_app (k ++ t) [] Hk) as H. by rewrite app_nil_r in H.
  - split_and!; [done|by right|done|done].
Qed.

Lemma Get_entry o k s x mem :
  op_ok o -> Iterator_Seek KeyComparator (LookupKey k s) mem = Some (Some x) -> Iterator_key mem x = Some (op_entry o) ->
  Get k s mem = Some (if decide (op_key o = k) then answer (Some o) else Absent).
Proof.
  intros Ho Hx He. pose proof Ho as (Hs & Ht & Hk & Hv). unfold Get. rewrite Hx. cbn [mbind option_bind].
  rewrite He. cbn [mbind option_bind]. rewrite op_entry_ikey by done. rewrite length_op_ikey.
  rewrite w32_small, GetVarint32_Encode by (unfold is32; lia). cbn [mbind option_bind].
  set (v := EncodeVarint32 _ ++ op_value o).
  replace (Z.of_nat (length (op_key o) + 8) - 8) with (Z.of_nat (length (op_key o))) by lia.
  rewrite w32_small, !Nat2Z.id by (unfold is32; lia).
  rewrite <- length_op_ikey, drop_app_length. unfold op_ikey. rewrite <- app_assoc, take_app_length, drop_app_length.
  rewrite DecodeFixed64_Encode, pack_type by auto with leveldb.
  unfold Bytewise_Compare. rewrite Slice_compare_lex. unfold v.
  destruct (decide (op_key o = k)) as [<-|Hn].
  - rewrite lex_refl. cbn [Z.eqb]. rewrite <- (app_nil_r (op_value o)) at 2.
    rewrite GetLengthPrefixedSlice_app by done. cbn [answer]. destruct Ht as [->| ->]; done.
  - destruct (Z.eqb_spec (lex (op_key o) k) 0) as [E|]; [by apply lex_eq in E|done].
Qed.

Lemma not_before_seek o k s : op_ok o -> op_ok (seek_op k s) ->
  KeyComparator (op_entry o) (op_entry (seek_op k s)) < 0 -> op_key o = k -> s < op_seq o.
Proof.
  intros Ho Hs H E. apply KeyComparator_lt in H as [H|[_ H]]; [|..|done|done].
  - cbn in H. rewrite E, lex_refl in H. lia.
  - destruct Ho as (? & Ht & _), Hs as (? & Ht' & _). rewrite pack_lt in H by done. cbn in *.
    unfold is_type, kValueTypeForSeek, kTypeDeletion, kTypeValue in *. lia.
Qed.

(** What comes after the first entry that a search for [k] may see is older. *)
Lemma first_is_newest o o' k s : op_ok o -> op_ok o' -> op_ok (seek_op k s) ->
  ~ KeyComparator (op_entry o) (op_entry (seek_op k s)) < 0 -> op_key o' = k ->
  op_entry o' = op_entry o \/ KeyComparator (op_entry o) (op_entry o') < 0 ->
  op_key o = k /\ op_seq o' <= op_seq o.
Proof.
  intros Ho Ho' Hl Hge Ek. pose proof Ho as (? & ? & _). pose proof Ho' as (? & ? & _). intros [Ee|Hlt].
  - assert (op_ikey o' = op_ikey o) as Ei by (rewrite <- !op_entry_key by auto; by rewrite Ee).
    destruct (op_ikey_parts o Ho) as [P1 P2], (op_ikey_parts o' Ho') as [P3 P4].
    rewrite Ei in P3, P4. split; [congruence|]. rewrite P4 in P2.
    rewrite <- (pack_seq (op_seq o') (op_type o')), P2, pack_seq by done. lia.
  - apply KeyComparator_lt in Hlt as [Hlt|[Ek' Hlt]]; [| |done|done].
    + exfalso. apply Hge, KeyComparator_lt; auto. left. cbn. by rewrite <- Ek.
    + split; [congruence|]. rewrite pack_lt in Hlt by done. lia.
Qed.

(** A search finds the newest operation that it may see. *)
Lemma Get_spec k s mem ops :
  mem_inv mem ops -> is_seq s -> Z.of_nat (length k) + 8 < 0x1_0000_0000 ->
  Get k s mem = Some (answer (newest k s ops)).
Proof.
  intros (Hops & Hsorted & ord & Hi & Hp) Hs Hk.
  assert (op_ok (seek_op k s)) as Hl by (split_and!; [done|by right|done|done]).
  destruct (Seek_spec KeyComparator (fun _ => True) mem ord (LookupKey k s) Hi I)
    as (lo & hi & -> & Hlo & Hhi & Hx).
  rewrite Forall_forall in Hops.
  assert (forall o, o ∈ ops -> exists y, y ∈ lo ++ hi /\ snd y = op_entry o) as Hof.
  { intros o Ho. assert (op_entry o ∈ map snd (lo ++ hi)) as Hm by (rewrite Hp; by apply list_elem_of_fmap_2).
    apply list_elem_of_fmap in Hm as (y & ? & ?). eauto. }
  assert (forall y, y ∈ lo ++ hi -> exists o, o ∈ ops /\ snd y = op_entry o) as Hto.
  { intros y Hy. assert (snd y ∈ map op_entry ops) as Hm by (rewrite <- Hp; by apply list_elem_of_fmap_2).
    apply list_elem_of_fmap in Hm as (o & ? & ?). eauto. }
  assert (forall y o, y ∈ lo -> snd y = op_entry o -> o ∈ ops -> op_key o = k -> s < op_seq o) as Hout.
  { intros y o Hy E Ho Ek. rewrite Forall_forall in Hlo. specialize (Hlo y Hy).
    rewrite E, LookupKey_entry in Hlo by done. by apply (not_before_seek o k s); auto. }
  pose proof (inv_order _ _ _ _ Hi) as Hord.
  destruct hi as [|[p e] hi].
  - cbn in Hx. unfold Get. rewrite Hx. cbn [mbind option_bind]. rewrite newest_none; [done|].
    intros o Ho Ek. destruct (Hof o Ho) as (y & Hy & E). rewrite app_nil_r in Hy. eauto.
  - destruct (Hto (p, e)) as (o & Ho & E); [set_solver|]. cbn in E. subst e.
    destruct (inv_node _ _ _ _ Hi p (op_entry o)) as (_ & He & _); [set_solver|].
    rewrite (Get_entry o k s p mem); auto. f_equal.
    apply Forall_cons in Hhi as [Hge _]. cbn in Hge. rewrite LookupKey_entry in Hge by done.
    assert (forall o', o' ∈ ops -> op_key o' = k -> op_seq o' <= s -> op_key o = k /\ op_seq o' <= op_seq o) as Hmax.
    { intros o' Ho' Ek Hle. apply (first_is_newest o o' k s); auto.
      destruct (Hof o' Ho') as (y & Hy & Ey). apply elem_of_app in Hy as [Hy|Hy].
      - specialize (Hout y o' Hy Ey Ho' Ek). lia.
      - apply elem_of_cons in Hy as [->|Hy]; [by cbn in Ey; auto|]. right.
        apply StronglySorted_app in Hord as (_ & _ & Hord). apply StronglySorted_inv in Hord as [_ Hord].
        rewrite Forall_forall in Hord. specialize (Hord y Hy). unfold before in Hord. cbn in Hord. by rewrite <- Ey. }
    destruct (decide (op_key o = k)) as [Ek|Hn].
    + rewrite (newest_spec k s ops o); auto.
      * destruct (Z.le_gt_cases (op_seq o) s) as [|Hgt]; [done|]. exfalso. apply Hge, KeyComparator_lt; auto.
        right. split; [done|]. destruct (Hops o Ho) as (? & ? & _), Hl as (? & ? & _).
        rewrite pack_lt by done. cbn. lia.
      * intros o' Ho' E1 E2. by apply Hmax.
    + rewrite newest_none; [done|]. intros o' Ho' E1. apply Z.nle_gt. intros E2. by destruct (Hmax o' Ho' E1 E2).
Qed.

(** ** Claims *)

Definition add_all (ops : list op) (mem : MemTable) : option MemTable :=
  foldl (fun mem o => mem ← mem; Add (op_seq o) (op_type o) (op_key o) (op_value o) mem) (Some mem) ops.

Lemma add_all_spec ops mem l :
  mem_inv mem l -> Forall op_ok ops -> StronglySorted (fun o o' => op_seq o < op_seq o') (l ++ ops) ->
  exists mem', add_all ops mem = Some mem' /\ mem_inv mem' (l ++ ops).
Proof.
  unfold add_all. revert mem l. induction ops as [|o ops IH]; intros mem l Hm Ho Hs.
  - exists mem. by rewrite app_nil_r.
  - apply Forall_cons in Ho as [Ho Hos].
    destruct (Add_spec o mem l Hm Ho) as (mem1 & E & Hm1).
    { apply StronglySorted_app in Hs as (Hs & _). apply Forall_forall. intros o' Ho'. apply Hs; set_solver. }
    destruct (IH mem1 (l ++ [o]) Hm1 Hos) as (mem' & E' & Hm'); [by rewrite <- app_assoc|].
    exists mem'. cbn [foldl mbind option_bind]. rewrite E, E'. by rewrite <- app_assoc in Hm'.
Qed.

(** An iterator at an entry. *)
Lemma Iter_at mem x o : op_ok o -> Iterator_key mem x = Some (op_entry o) ->
  Iter_key mem x = Some (op_ikey o) /\ Iter_value mem x = Some (op_value o).
Proof.
  intros Ho He. pose proof Ho as (_ & _ & Hk & Hv). unfold Iter_key, Iter_value. rewrite He. split.
  - cbn. by rewrite op_entry_key.
  - cbn [mbind option_bind]. rewrite op_entry_ikey by done.
    rewrite w32_small, GetVarint32_Encode by (rewrite ?length_op_ikey; unfold is32; lia). cbn [mbind option_bind].
    rewrite Nat2Z.id, drop_app_length. pose proof (GetLengthPrefixedSlice_app (op_value o) [] Hv) as E.
    rewrite app_nil_r in E. by rewrite E.
Qed.

(** C31: A table in memory that takes operations in the order of their sequence numbers answers
    every search for a key at a sequence number with the newest operation on the key that is
    not later: its value, or the deletion; [Absent] when there is none.  Walking it gives every
    operation once, by user key and the newest first, and each buffer is exactly as long as
    the size allocated for it. *)
Theorem memtable_get_newest (ops : list op) (k : list Z) (s : Z) :
  Forall op_ok ops -> StronglySorted (fun o o' => op_seq o < op_seq o') ops ->
  is_seq s -> Z.of_nat (length k) + 8 < 0x1_0000_0000 ->
  exists mem l, add_all ops new_MemTable = Some mem
    /\ Get k s mem = Some (answer (newest k s ops))
    /\ forward mem = Some l /\ l ≡ₚ map op_entry ops
    /\ StronglySorted (fun a b => KeyComparator a b < 0) l
    /\ Forall (fun o => Z.of_nat (length (op_entry o)) = encoded_len (op_key o) (op_value o)) ops.
Proof.
  intros Ho Hsort Hs Hk.
  destruct (add_all_spec ops new_MemTable [] new_MemTable_inv Ho Hsort) as (mem & E & Hm). cbn [app] in Hm.
  pose proof Hm as (_ & _ & ord & Hi & Hp). exists mem, (map snd ord). split_and!.
  - done.
  - by apply Get_spec.
  - unfold forward. rewrite (SeekToFirst_spec _ _ _ _ Hi). cbn [mbind option_bind].
    apply (walk_forward KeyComparator (fun _ => True) mem ord []); [done|done|].
    rewrite (inv_count _ _ _ _ Hi). lia.
  - done.
  - apply sorted_keys, (inv_order _ _ _ _ Hi).
  - eapply Forall_impl; [exact Ho|]. apply length_op_entry.
Qed.

Lemma memtable_get_newest_witness :
  let ops := [{| op_seq := 1; op_type := kTypeValue; op_key := [97]; op_value := [1] |};
              {| op_seq := 2; op_type := kTypeDeletion; op_key := [97]; op_value := [] |};
              {| op_seq := 3; op_type := kTypeValue; op_key := [97]; op_value := [3] |}] in
  exists mem, add_all ops new_MemTable = Some mem /\ Get [97] 2 mem = Some Deleted.
Proof.
  intros ops. destruct (memtable_get_newest ops [97] 2) as (mem & l & H1 & H2 & _).
  - repeat constructor; unfold is_seq, is_type, kMaxSequenceNumber; cbn; auto; lia.
  - repeat constructor.
  - unfold is_seq, kMaxSequenceNumber. lia.
  - reflexivity.
  - exists mem. split; [exact H1|]. rewrite H2. vm_compute. reflexivity.
Defined.
End MemTable.
