(* ===== verification/WriteBatch.v ===== *)
(** * Batches of updates of LevelDB: db/write_batch.cc and db/write_batch_internal.h of
    src/packages/LevelDB.1.16.0.5/lib/native/src

    A batch is the string [rep_]: a sequence number in eight bytes, a count in four, and
    the records.  The handler that [Iterate] drives is a record of two operations on a
    state, as the virtual class has two methods; [None] is a failure of a handler. *)
From stdpp Require Import base numbers option sets list sorting strings.
From S2P Require Import Prelude Coding SkipList DbFormat MemTable.
Open Scope Z_scope.
Open Scope word_scope.

Inductive Status :=
  OK | NotFound | Corruption (msg : string) | InvalidArgument (msg : string) | IOError (msg : string).

Definition kHeader : nat := 12.
Definition Clear : list Z := replicate kHeader 0.

(** An [int] from the bits of an unsigned number. *)
Definition to_int (x : Z) : Z := if x <? 0x8000_0000 then x else x - 0x1_0000_0000.

Definition Count (rep : list Z) : Z := to_int (DecodeFixed32 (drop 8 rep)).
Definition SetCount (rep : list Z) (n : Z) : list Z := take 8 rep ++ EncodeFixed32 (w32 n) ++ drop 12 rep.
Definition Sequence (rep : list Z) : Z := DecodeFixed64 rep.
Definition SetSequence (rep : list Z) (seq : Z) : list Z := EncodeFixed64 seq ++ drop 8 rep.
Definition ByteSize (rep : list Z) : Z := Z.of_nat (length rep).

Definition Put (rep key value : list Z) : list Z :=
  let rep := SetCount rep (Count rep + 1) in
  let rep := rep ++ [kTypeValue] in
  PutLengthPrefixedSlice (PutLengthPrefixedSlice rep key) value.
Definition Delete (rep key : list Z) : list Z :=
  let rep := SetCount rep (Count rep + 1) in
  let rep := rep ++ [kTypeDeletion] in
  PutLengthPrefixedSlice rep key.

Record Handler (St : Type) := {
  handle_Put : list Z -> list Z -> St -> option St;
  handle_Delete : list Z -> St -> option St }.
Arguments handle_Put {St}.
Arguments handle_Delete {St}.

(** [while (!input.empty())]; every turn takes a byte or more.  The count of the records
    is returned when all of them could be read. *)
Fixpoint Iterate_loop {St} (h : Handler St) (fuel : nat) (input : list Z) (found : Z) (st : St)
    : option (St * (Z + Status)) :=
  match input with
  | [] => Some (st, inl found)
  | tag :: input =>
      match fuel with
      | O => None
      | S fuel' =>
          let found := found + 1 in
          if tag =? kTypeValue then
            match ('(key, input) ← GetLengthPrefixedSlice input;
                   '(value, input) ← GetLengthPrefixedSlice input; Some (key, value, input)) with
            | Some (key, value, input) =>
                st ← handle_Put h key value st; Iterate_loop h fuel' input found st
            | None => Some (st, inr (Corruption "bad WriteBatch Put"))
            end
          else if tag =? kTypeDeletion then
            match GetLengthPrefixedSlice input with
            | Some (key, input) => st ← handle_Delete h key st; Iterate_loop h fuel' input found st
            | None => Some (st, inr (Corruption "bad WriteBatch Delete"))
            end
          else Some (st, inr (Corruption "unknown WriteBatch tag"))
      end
  end.

Definition Iterate {St} (h : Handler St) (rep : list Z) (st : St) : option (St * Status) :=
  if (length rep <? kHeader)%nat then Some (st, Corruption "malformed WriteBatch (too small)")
  else
    '(st, r) ← Iterate_loop h (length rep) (drop kHeader rep) 0 st;
    match r with
    | inl found =>
        Some (st, if found =? Count rep then OK else Corruption "WriteBatch has wrong count")
    | inr s => Some (st, s)
    end.

(** The handler with a sequence number and a table. *)
Definition MemTableInserter : Handler (Z * SkipList (list Z)) := {|
  handle_Put key value '(sequence_, mem) :=
    mem ← MemTable.Add sequence_ kTypeValue key value mem; Some (w64 (sequence_ + 1), mem);
  handle_Delete key '(sequence_, mem) :=
    mem ← MemTable.Add sequence_ kTypeDeletion key [] mem; Some (w64 (sequence_ + 1), mem) |}.

Definition InsertInto (rep : list Z) (mem : SkipList (list Z)) : option (SkipList (list Z) * Status) :=
  '((_, mem), s) ← Iterate MemTableInserter rep (Sequence rep, mem); Some (mem, s).

Definition SetContents (contents : list Z) : list Z := contents.
Definition Append (dst src : list Z) : list Z :=
  SetCount dst (Count dst + Count src) ++ drop kHeader src.

(** ** What a batch means *)

Inductive update := UPut (key value : list Z) | UDelete (key : list Z).

Definition apply_update {St} (h : Handler St) (u : update) (st : St) : option St :=
  match u with UPut k v => handle_Put h k v st | UDelete k => handle_Delete h k st end.
Definition apply_updates {St} (h : Handler St) (us : list update) (st : St) : option St :=
  foldl (fun st u => st ← st; apply_update h u st) (Some st) us.

(** The batch that the calls of a list of updates build. *)
Definition add_update (rep : list Z) (u : update) : list Z :=
  match u with UPut k v => Put rep k v | UDelete k => Delete rep k end.

Definition encode_update (u : update) : list Z :=
  match u with
  | UPut k v => kTypeValue :: PutLengthPrefixedSlice [] k ++ PutLengthPrefixedSlice [] v
  | UDelete k => kTypeDeletion :: PutLengthPrefixedSlice [] k
  end.
Definition update_ok (u : update) : Prop :=
  match u with
  | UPut k v => Z.of_nat (length k) + 8 < 0x1_0000_0000 /\ Z.of_nat (length v) < 0x1_0000_0000
  | UDelete k => Z.of_nat (length k) + 8 < 0x1_0000_0000
  end.

Definition batch (seq : Z) (us : list update) : list Z :=
  EncodeFixed64 seq ++ EncodeFixed32 (Z.of_nat (length us)) ++ concat (map encode_update us).
Abbreviation max_count := 0x8000_0000.

Lemma drop_app_n {A} (l k : list A) n : n = length l -> drop n (l ++ k) = k.
Proof. intros ->. apply drop_app_length. Qed.
Lemma take_app_n {A} (l k : list A) n : n = length l -> take n (l ++ k) = l.
Proof. intros ->. apply take_app_length. Qed.


Lemma drop_batch seq us : drop kHeader (batch seq us) = concat (map encode_update us).
Proof.
  unfold batch. rewrite app_assoc. apply drop_app_n. by rewrite length_app, length_EncodeFixed64, length_EncodeFixed32.
Qed.

Lemma Count_batch seq us : Z.of_nat (length us) < max_count -> Count (batch seq us) = Z.of_nat (length us).
Proof.
  intros H. unfold Count, batch. rewrite drop_app_n by (by rewrite length_EncodeFixed64).
  rewrite DecodeFixed32_Encode by (unfold is32; lia). unfold to_int. by rewrite (proj2 (Z.ltb_lt _ _)) by lia.
Qed.

Lemma Sequence_batch seq us : is64 seq -> Sequence (batch seq us) = seq.
Proof. intros H. unfold Sequence, batch. by apply DecodeFixed64_Encode. Qed.

Lemma SetSequence_batch seq seq' us : SetSequence (batch seq us) seq' = batch seq' us.
Proof. unfold SetSequence, batch. by rewrite drop_app_n by (by rewrite length_EncodeFixed64). Qed.

Lemma SetCount_batch seq us n :
  SetCount (batch seq us) n = EncodeFixed64 seq ++ EncodeFixed32 (w32 n) ++ concat (map encode_update us).
Proof.
  unfold SetCount. replace 12%nat with kHeader by done. rewrite drop_batch. unfold batch.
  by rewrite take_app_n by (by rewrite length_EncodeFixed64).
Qed.

Lemma add_update_batch seq us u :
  Z.of_nat (length us) + 1 < max_count -> add_update (batch seq us) u = batch seq (us ++ [u]).
Proof.
  intros H. assert (forall s x, EncodeFixed64 seq ++ EncodeFixed32 (w32 (Count (batch seq us) + 1)) ++ s ++ x
    = EncodeFixed64 seq ++ EncodeFixed32 (Z.of_nat (length (us ++ [u]))) ++ s ++ x) as E.
  { intros s x. rewrite Count_batch by lia. rewrite w32_small by (unfold is32; lia). rewrite length_app. cbn.
    by rewrite Nat2Z.inj_add. }
  assert (batch seq (us ++ [u]) = EncodeFixed64 seq ++ EncodeFixed32 (Z.of_nat (length (us ++ [u])))
    ++ concat (map encode_update us) ++ encode_update u) as ->.
  { unfold batch. rewrite map_app, concat_app. cbn [map concat]. by rewrite app_nil_r. }
  unfold add_update, Put, Delete. destruct u as [k v|k]; rewrite SetCount_batch; cbn [encode_update].
  - rewrite (PutLengthPrefixedSlice_app (PutLengthPrefixedSlice _ k)), (PutLengthPrefixedSlice_app _ k).
    rewrite <- !app_assoc. rewrite E. cbn [app]. done.
  - rewrite (PutLengthPrefixedSlice_app _ k), <- !app_assoc. rewrite E. done.
Qed.

Lemma Clear_batch : Clear = batch 0 [].
Proof. reflexivity. Qed.

Lemma Append_batch s s' us us' :
  Z.of_nat (length us) + Z.of_nat (length us') < max_count ->
  Append (batch s us) (batch s' us') = batch s (us ++ us').
Proof.
  intros H. unfold Append. rewrite drop_batch, SetCount_batch, !Count_batch by lia.
  rewrite w32_small by (unfold is32; lia). unfold batch. rewrite length_app, Nat2Z.inj_add, map_app, concat_app.
  by rewrite <- !app_assoc.
Qed.

(** A client builds its batch with the calls of [WriteBatch]. *)
Definition build (us : list update) : list Z := foldl add_update Clear us.

Lemma build_batch us : Z.of_nat (length us) < max_count -> build us = batch 0 us.
Proof.
  unfold build. rewrite Clear_batch. intros Hn.
  assert (forall us', Z.of_nat (length us' + length us) < max_count ->
    foldl add_update (batch 0 us') us = batch 0 (us' ++ us)) as Hgen; [|by rewrite Hgen].
  clear Hn. induction us as [|u us IH]; intros us' H; cbn [foldl length] in *; [by rewrite app_nil_r|].
  rewrite add_update_batch by lia. rewrite IH by (rewrite length_app; cbn; lia). by rewrite <- app_assoc.
Qed.

(** ** Reading a batch *)

Section iterate.
Context {St : Type} (h : Handler St).

Lemma Iterate_loop_app us rest fuel found st :
  Forall update_ok us -> (length us <= fuel)%nat ->
  Iterate_loop h fuel (concat (map encode_update us) ++ rest) found st
    = st ← apply_updates h us st; Iterate_loop h (fuel - length us) rest (found + Z.of_nat (length us)) st.
Proof.
  intros Hus. unfold apply_updates. revert fuel found st. induction Hus as [|u us Hu Hus IH]; intros fuel found st Hf.
  - cbn. by rewrite Z.add_0_r, Nat.sub_0_r.
  - destruct fuel as [|fuel]; [cbn in Hf; lia|].
    assert (forall st', Iterate_loop h fuel (concat (map encode_update us) ++ rest) (found + 1) st'
      = st ← foldl (fun st u => st ← st; apply_update h u st) (Some st') us;
        Iterate_loop h (S fuel - length (u :: us)) rest (found + Z.of_nat (length (u :: us))) st) as IH'.
    { intros st'. rewrite IH by (cbn in Hf; lia). destruct (foldl _ _ us); [|done]. cbn [mbind option_bind length].
      f_equal. lia. }
    assert (forall us, foldl (fun (st : option St) u => st ← st; apply_update h u st) None us = None) as Hnone.
    { intros us'. by induction us'. }
    destruct u as [k v|k]; cbn [map concat encode_update] in *; rewrite <- ?app_comm_cons, <- ?app_assoc in *;
      cbn [Iterate_loop foldl mbind option_bind apply_update] in *.
    + destruct Hu as [Hk Hv]. change (kTypeValue =? kTypeValue) with true. cbn iota.
      rewrite GetLengthPrefixedSlice_Put by lia. cbn [mbind option_bind].
      rewrite GetLengthPrefixedSlice_Put by lia. cbn [mbind option_bind].
      destruct (handle_Put h k v st) as [st'|]; [apply IH'|by rewrite Hnone].
    + change (kTypeDeletion =? kTypeValue) with false. change (kTypeDeletion =? kTypeDeletion) with true. cbn iota.
      cbn in Hu. rewrite GetLengthPrefixedSlice_Put by lia. cbn [mbind option_bind].
      destruct (handle_Delete h k st) as [st'|]; [apply IH'|by rewrite Hnone].
Qed.

Lemma length_updates us : (length us <= length (concat (map encode_update us)))%nat.
Proof.
  induction us as [|u us IH]; cbn [map concat length]; [lia|]. rewrite length_app. destruct u; cbn [encode_update length]; lia.
Qed.

Lemma length_batch_rep seq us : length (batch seq us) = (kHeader + length (concat (map encode_update us)))%nat.
Proof. unfold batch. rewrite !length_app, length_EncodeFixed64, length_EncodeFixed32. unfold kHeader. lia. Qed.

Lemma Iterate_loop_nil fuel found st : Iterate_loop h fuel [] found st = Some (st, inl found).
Proof. by destruct fuel. Qed.

(** A batch with its header and something behind its records. *)
Lemma Iterate_batch_app us rest rep st :
  Forall update_ok us -> length rep = kHeader -> 
  Iterate h (rep ++ concat (map encode_update us) ++ rest) st
    = '(st, r) ← (st ← apply_updates h us st;
        Iterate_loop h (length (rep ++ concat (map encode_update us) ++ rest) - length us) rest (Z.of_nat (length us)) st);
      match r with
      | inl found => Some (st, if found =? Count (rep ++ concat (map encode_update us) ++ rest)
                               then OK else Corruption "WriteBatch has wrong count")
      | inr s => Some (st, s)
      end.
Proof.
  intros Hus Hrep. unfold Iterate. rewrite (proj2 (Nat.ltb_ge _ _)) by (rewrite length_app; lia).
  rewrite (drop_app_n rep) by done. rewrite Iterate_loop_app; [done|done|].
  pose proof (length_updates us). rewrite !length_app. lia.
Qed.

(** The handler sees the updates in the order in which they were put into the batch. *)
Lemma Iterate_batch seq us st :
  Forall update_ok us -> Z.of_nat (length us) < max_count ->
  Iterate h (batch seq us) st = st ← apply_updates h us st; Some (st, OK).
Proof.
  intros Hus Hn. pose proof (Count_batch seq us Hn) as Hc. unfold batch in *. rewrite app_assoc in *.
  rewrite <- (app_nil_r (concat (map encode_update us))) in Hc |- *.
  rewrite (Iterate_batch_app us []) by (done || rewrite length_app, length_EncodeFixed64, length_EncodeFixed32; done).
  destruct (apply_updates h us st) as [st'|]; [|done]. cbn [mbind option_bind]. rewrite Iterate_loop_nil.
  cbn [mbind option_bind]. by rewrite Hc, Z.eqb_refl.
Qed.
End iterate.

(** ** Inserting a batch into a table *)

Definition number1 (seq : Z) (u : update) : MemTable.op :=
  match u with
  | UPut k v => {| MemTable.op_seq := seq; MemTable.op_type := kTypeValue; MemTable.op_key := k;
                   MemTable.op_value := v |}
  | UDelete k => {| MemTable.op_seq := seq; MemTable.op_type := kTypeDeletion; MemTable.op_key := k;
                    MemTable.op_value := [] |}
  end.
Fixpoint number (seq : Z) (us : list update) : list MemTable.op :=
  match us with [] => [] | u :: us => number1 seq u :: number (seq + 1) us end.

Lemma number1_ok seq u : is_seq seq -> update_ok u -> MemTable.op_ok (number1 seq u).
Proof.
  intros Hs Hu. destruct u as [k v|k]; unfold MemTable.op_ok; cbn in *; split_and!; try done; try lia.
  - by right.
  - by left.
Qed.

Lemma number_app seq us us' : number seq (us ++ us') = number seq us ++ number (seq + Z.of_nat (length us)) us'.
Proof.
  revert seq. induction us as [|u us IH]; intros seq; cbn [app number length]; [by rewrite Z.add_0_r|].
  rewrite IH. by replace (seq + 1 + Z.of_nat (length us)) with (seq + Z.of_nat (S (length us))) by lia.
Qed.

Lemma number_seq seq us :
  Forall (fun o => seq <= MemTable.op_seq o < seq + Z.of_nat (length us)) (number seq us).
Proof.
  revert seq. induction us as [|u us IH]; intros seq; cbn [number length]; [constructor|]. constructor.
  - destruct u; cbn; lia.
  - eapply Forall_impl; [apply IH|]. intros o Ho. cbn in Ho |- *. lia.
Qed.

Lemma inserter_step u seq mem :
  apply_update MemTableInserter u (seq, mem)
    = mem ← (let o := number1 seq u in
             MemTable.Add (MemTable.op_seq o) (MemTable.op_type o) (MemTable.op_key o) (MemTable.op_value o) mem);
      Some (w64 (seq + 1), mem).
Proof. by destruct u. Qed.

Lemma apply_inserter us seq mem ops :
  MemTable.mem_inv mem ops -> Forall (fun o => MemTable.op_seq o < seq) ops -> Forall update_ok us ->
  0 <= seq -> seq + Z.of_nat (length us) <= kMaxSequenceNumber + 1 ->
  exists mem', apply_updates MemTableInserter us (seq, mem) = Some (seq + Z.of_nat (length us), mem')
    /\ MemTable.mem_inv mem' (ops ++ number seq us).
Proof.
  unfold kMaxSequenceNumber. unfold apply_updates. revert seq mem ops.
  induction us as [|u us IH]; intros seq mem ops Hm Hlt Hus H0 Hb.
  - exists mem. cbn. by rewrite Z.add_0_r, app_nil_r.
  - apply Forall_cons in Hus as [Hu Hus]. cbn [length] in Hb. rewrite Nat2Z.inj_succ in Hb.
    assert (is_seq seq) as Hseq by (unfold is_seq, kMaxSequenceNumber; lia).
    assert (MemTable.op_seq (number1 seq u) = seq) as Eseq by (by destruct u).
    destruct (MemTable.Add_spec (number1 seq u) mem ops Hm (number1_ok _ _ Hseq Hu)) as (mem1 & E1 & Hm1);
      [by rewrite Eseq|].
    destruct (IH (seq + 1) mem1 (ops ++ [number1 seq u]) Hm1) as (mem' & E & Hm'); [..|done|lia|lia|].
    + apply Forall_app. split; [eapply Forall_impl; [exact Hlt|]; cbn; intros; lia|].
      constructor; [rewrite Eseq; lia|constructor].
    + exists mem'. cbn [foldl mbind option_bind]. rewrite inserter_step. cbn zeta. rewrite E1. cbn [mbind option_bind].
      rewrite w64_small by (unfold is64; lia). rewrite E. split.
      * f_equal. f_equal. cbn [length]. lia.
      * cbn [number]. by rewrite <- app_assoc in Hm'.
Qed.

Lemma InsertInto_batch us seq mem ops :
  MemTable.mem_inv mem ops -> Forall (fun o => MemTable.op_seq o < seq) ops -> Forall update_ok us ->
  0 <= seq -> seq + Z.of_nat (length us) <= kMaxSequenceNumber + 1 -> Z.of_nat (length us) < max_count ->
  exists mem', InsertInto (batch seq us) mem = Some (mem', OK) /\ MemTable.mem_inv mem' (ops ++ number seq us).
Proof.
  intros Hm Hlt Hus H0 Hb Hn. destruct (apply_inserter us seq mem ops Hm Hlt Hus H0 Hb) as (mem' & E & Hm').
  exists mem'. split; [|done]. unfold InsertInto.
  rewrite Sequence_batch, Iterate_batch by (unfold kMaxSequenceNumber in Hb; unfold is64; done || lia).
  by rewrite E.
Qed.

(** ** Claims *)

(** A batch is read back as it was built: the handler that [Iterate] drives sees the updates
    in the order of the calls, each with its key and value, and the status is [OK]; appending a
    batch to another gives the updates of both; and inserting a batch into a table adds its
    updates with consecutive sequence numbers from the one in its header. *)
Theorem batch_roundtrip {St : Type} (h : Handler St) (st : St) (us us' : list update)
    (seq : Z) (mem : SkipList (list Z)) (ops : list MemTable.op) :
  Forall update_ok us -> Forall update_ok us' -> Z.of_nat (length us) + Z.of_nat (length us') < max_count ->
  MemTable.mem_inv mem ops -> Forall (fun o => MemTable.op_seq o < seq) ops ->
  0 <= seq -> seq + Z.of_nat (length us) <= kMaxSequenceNumber + 1 ->
  Iterate h (build us) st = (st ← apply_updates h us st; Some (st, OK))
  /\ Iterate h (Append (build us) (build us')) st = (st ← apply_updates h (us ++ us') st; Some (st, OK))
  /\ Count (build us) = Z.of_nat (length us)
  /\ exists mem', InsertInto (SetSequence (build us) seq) mem = Some (mem', OK)
       /\ MemTable.mem_inv mem' (ops ++ number seq us).
Proof.
  intros Hus Hus' Hn Hm Hlt H0 Hb. rewrite !build_batch, Append_batch, SetSequence_batch by lia. split_and!.
  - apply Iterate_batch; [done|lia].
  - apply Iterate_batch; [by apply Forall_app|]. rewrite length_app. lia.
  - apply Count_batch. lia.
  - apply InsertInto_batch; (done || lia).
Qed.

Definition collect : Handler (list update) :=
  {| handle_Put k v l := Some (l ++ [UPut k v]); handle_Delete k l := Some (l ++ [UDelete k]) |}.

Lemma batch_roundtrip_witness :
  Iterate collect (build [UPut [1] [2; 3]; UDelete [4]]) [] = Some ([UPut [1] [2; 3]; UDelete [4]], OK).
Proof.
  apply (batch_roundtrip collect [] [UPut [1] [2; 3]; UDelete [4]] [] 1 MemTable.new_MemTable []).
  - repeat constructor.
  - constructor.
  - reflexivity.
  - apply MemTable.new_MemTable_inv.
  - constructor.
  - lia.
  - vm_compute. discriminate.
Defined.

(** A damaged batch is refused, not misread: a header that is cut short, an unknown tag, a
    string that runs past the end, and a count that does not match all give [Corruption], and
    the handler has seen only the updates before the damage. *)
Theorem damaged_batch_refused {St : Type} (h : Handler St) (st : St) (us : list update) (seq : Z)
    (tag : Z) (rest : list Z) :
  Forall update_ok us -> Z.of_nat (length us) < max_count -> tag <> kTypeValue -> tag <> kTypeDeletion ->
  Iterate h (batch seq us ++ tag :: rest) st
    = (st ← apply_updates h us st; Some (st, Corruption "unknown WriteBatch tag"))
  /\ Iterate h (SetCount (batch seq us) (Z.of_nat (length us) + 1)) st
    = (st ← apply_updates h us st; Some (st, Corruption "WriteBatch has wrong count"))
  /\ Iterate h (take 11 (batch seq us)) st = Some (st, Corruption "malformed WriteBatch (too small)").
Proof.
  intros Hus Hn Ht1 Ht2. split_and!.
  - unfold batch. rewrite app_assoc, <- app_assoc.
    rewrite (Iterate_batch_app h us (tag :: rest)) by (done || rewrite length_app, length_EncodeFixed64, length_EncodeFixed32; done).
    destruct (apply_updates h us st) as [st'|]; [|done]. cbn [mbind option_bind].
    destruct (_ - _)%nat as [|fuel] eqn:Ef.
    { rewrite !length_app, length_EncodeFixed64 in Ef. pose proof (length_updates us). lia. }
    cbn [Iterate_loop]. rewrite (proj2 (Z.eqb_neq _ _) Ht1), (proj2 (Z.eqb_neq _ _) Ht2). done.
  - rewrite SetCount_batch. set (c := w32 _). rewrite app_assoc, <- (app_nil_r (concat (map encode_update us))).
    rewrite (Iterate_batch_app h us []) by (done || rewrite length_app, length_EncodeFixed64, length_EncodeFixed32; done).
    destruct (apply_updates h us st) as [st'|]; [|done]. cbn [mbind option_bind]. rewrite Iterate_loop_nil.
    cbn [mbind option_bind]. unfold Count. rewrite <- app_assoc, (drop_app_n (EncodeFixed64 seq)) by (by rewrite length_EncodeFixed64).
    rewrite DecodeFixed32_Encode by apply is32_w32. rewrite (proj2 (Z.eqb_neq _ _)); [done|]. unfold c.
    rewrite w32_small by (unfold is32; lia). unfold to_int. destruct (_ <? _); lia.
  - unfold Iterate. rewrite (proj2 (Nat.ltb_lt _ _)); [done|]. rewrite length_take. unfold kHeader. lia.
Qed.

Lemma damaged_batch_refused_witness :
  Iterate collect (batch 1 [UDelete [4]] ++ [9]) [] = Some ([UDelete [4]], Corruption "unknown WriteBatch tag").
Proof.
  apply (damaged_batch_refused collect [] [UDelete [4]] 1 9 []); [repeat constructor|reflexivity|discriminate|discriminate].
Defined.
