(* ===== verification/DbImpl.v ===== *)
(** * The database of LevelDB: reads, writes and recovery in db/db_impl.cc of
    src/packages/LevelDB.1.16.0.5/lib/native/src

    A write goes to the log and then into the table in memory [mem_]; a full table is
    set aside as [imm_] with a new log for the next one, and a background thread turns
    it into a table on disk and drops its log.  Writers queue up, and the one in front
    writes for those behind it.  A read looks into [mem_], [imm_] and the tables on disk
    in turn, at a sequence number.

    Tables on disk are behind the class [TableStore]: what a version answers, and that
    writing a table in memory to it adds its content.  Threads are steps: each step is
    the work between two points where the mutex is free, so that other writers, readers
    and the background thread come in between.  The environment succeeds, except that
    the creation of a log file may fail; [bg_error_] is set by the background thread. *)
From stdpp Require Import base numbers option gmap sets list sorting strings.
From S2P Require Import Prelude Coding Crc32c LogFile SkipList DbFormat MemTable WriteBatch.
Open Scope list_scope.
Open Scope Z_scope.
Open Scope word_scope.

Abbreviation memtable := (SkipList (list Z)).

(** ** Tables on disk *)

(** What the database relies on of its tables.  The code behind it is that of db/version_set.cc,
    db/builder.cc and table/; TableLaws.v shows these laws of it, for table files whose sizes the
    formats can hold. *)
Class TableStore := {
  Version : Type;
  new_Version : Version;
  Version_Get : Version -> list Z -> Z -> MemTable.get_result;
  NumLevelFiles : Version -> Z -> Z;
  WriteLevel0Table : memtable -> Version -> Version;
  (** The operations a version holds. *)
  holds : Version -> list MemTable.op -> Prop;
  new_Version_holds : holds new_Version [];
  Version_Get_holds v ops k s : holds v ops -> is_seq s -> Z.of_nat (length k) + 8 < 0x1_0000_0000 ->
    Version_Get v k s = MemTable.answer (MemTable.newest k s ops);
  WriteLevel0Table_holds mem v ops ops' :
    holds v ops -> MemTable.mem_inv mem ops' ->
    Forall (fun o => Forall (fun o' => MemTable.op_seq o < MemTable.op_seq o') ops') ops ->
    holds (WriteLevel0Table mem v) (ops ++ ops');
  WriteLevel0Table_files mem v : NumLevelFiles (WriteLevel0Table mem v) 0 <= NumLevelFiles v 0 + 1 }.

Definition kL0_SlowdownWritesTrigger : Z := 8.
Definition kL0_StopWritesTrigger : Z := 12.

Definition is_ok (s : Status) : bool := match s with OK => true | _ => false end.

Section db.
Context `{TableStore}.
Context (ApproximateMemoryUsage : memtable -> Z) (write_buffer_size : Z) (paranoid_checks : bool).

(** ** State *)

Record QWriter := { qw_batch : option (list Z); qw_sync : bool }.

(** Where the writer in front is: not started, in the loop of [MakeRoomForWrite], with a
    group to log, and done with it. *)
Inductive phase :=
| Idle
| Making (force allow_delay : bool)
| Logging (updates : list Z) (in_tmp : bool) (last_sequence : Z) (group : nat)
| Applied (status : Status) (in_tmp : bool) (last_sequence : Z) (group : nat).

Record DB := {
  mem_ : memtable;
  imm_ : option memtable;
  log_ : Writer;
  old_logs : list (list Z);  (* log files that recovery would still read, the oldest first *)
  current : Version;
  LastSequence : Z;
  manifest_sequence : Z;  (* the last sequence number in the descriptor *)
  bg_error_ : Status;
  tmp_batch_ : list Z;
  writers_ : list QWriter;
  front : phase;
  returned : list Status (* what the calls of [Write] have returned *) }.

Definition new_DB : DB :=
  {| mem_ := MemTable.new_MemTable; imm_ := None; log_ := new_Writer; old_logs := [];
     current := new_Version; LastSequence := 0; manifest_sequence := 0; bg_error_ := OK;
     tmp_batch_ := Clear; writers_ := []; front := Idle; returned := [] |}.

Definition set_front (p : phase) (db : DB) : DB :=
  {| mem_ := mem_ db; imm_ := imm_ db; log_ := log_ db; old_logs := old_logs db; current := current db;
     LastSequence := LastSequence db; manifest_sequence := manifest_sequence db;
     bg_error_ := bg_error_ db; tmp_batch_ := tmp_batch_ db; writers_ := writers_ db; front := p;
     returned := returned db |}.
Definition set_writers (ws : list QWriter) (ret : list Status) (db : DB) : DB :=
  {| mem_ := mem_ db; imm_ := imm_ db; log_ := log_ db; old_logs := old_logs db; current := current db;
     LastSequence := LastSequence db; manifest_sequence := manifest_sequence db;
     bg_error_ := bg_error_ db; tmp_batch_ := tmp_batch_ db; writers_ := ws; front := front db;
     returned := ret |}.
Definition set_tmp (tmp : list Z) (db : DB) : DB :=
  {| mem_ := mem_ db; imm_ := imm_ db; log_ := log_ db; old_logs := old_logs db; current := current db;
     LastSequence := LastSequence db; manifest_sequence := manifest_sequence db;
     bg_error_ := bg_error_ db; tmp_batch_ := tmp; writers_ := writers_ db; front := front db;
     returned := returned db |}.

(** ** Writing *)

(** [Write], up to the wait for the front of the queue. *)
Definition enqueue (w : QWriter) (db : DB) : DB := set_writers (writers_ db ++ [w]) (returned db) db.

(** The loop of [BuildBatchGroup]: the batch, whether it is [tmp_batch_], and the number of
    writers up to [last_writer]. *)
Fixpoint BuildBatchGroup_loop (first : list Z) (first_sync : bool) (max_size size : Z) (tmp : list Z)
    (result : list Z) (in_tmp : bool) (group : nat) (ws : list QWriter) : list Z * bool * nat :=
  match ws with
  | [] => (result, in_tmp, group)
  | w :: ws' =>
      if qw_sync w && negb first_sync then (result, in_tmp, group)
      else
        match qw_batch w with
        | Some b =>
            let size := size + ByteSize b in
            if max_size <? size then (result, in_tmp, group)
            else
              let result := if in_tmp then result else Append tmp first in
              let result := Append result b in
              BuildBatchGroup_loop first first_sync max_size size tmp result true (S group) ws'
        | None => BuildBatchGroup_loop first first_sync max_size size tmp result in_tmp (S group) ws'
        end
  end.
Definition BuildBatchGroup (first : list Z) (first_sync : bool) (tmp : list Z) (ws : list QWriter)
    : list Z * bool * nat :=
  let size := ByteSize first in
  let max_size := if size <=? Z.shiftl 128 10 then size + Z.shiftl 128 10 else Z.shiftl 1 20 in
  BuildBatchGroup_loop first first_sync max_size size tmp first false 1 ws.

(** The rest of [Write] once [MakeRoomForWrite] has answered [status]: form the group and
    let go of the mutex, or go straight to the end. *)
Definition Write_grouped (status : Status) (db : DB) : option DB :=
  w ← head (writers_ db);
  match is_ok status, qw_batch w with
  | true, Some b =>
      let '(updates, in_tmp, group) := BuildBatchGroup b (qw_sync w) (tmp_batch_ db) (tail (writers_ db)) in
      let updates := SetSequence updates (w64 (LastSequence db + 1)) in
      let last_sequence := w64 (LastSequence db + Count updates) in
      let db := if in_tmp then set_tmp updates db else db in
      Some (set_front (Logging updates in_tmp last_sequence group) db)
  | _, _ => Some (set_front (Applied status false (LastSequence db) 1) db)
  end.

(** One turn of the loop of [MakeRoomForWrite]; [None] while it waits for the background
    thread.  [file_ok] is whether the new log file could be created. *)
Definition MakeRoomForWrite_turn (file_ok : bool) (force allow_delay : bool) (db : DB) : option DB :=
  if negb (is_ok (bg_error_ db)) then Write_grouped (bg_error_ db) db
  else if allow_delay && (kL0_SlowdownWritesTrigger <=? NumLevelFiles (current db) 0)
  then Some (set_front (Making force false) db)
  else if negb force && (ApproximateMemoryUsage (mem_ db) <=? write_buffer_size)
  then Write_grouped OK db
  else
    match imm_ db with
    | Some _ => None
    | None =>
        if kL0_StopWritesTrigger <=? NumLevelFiles (current db) 0 then None
        else if negb file_ok then Write_grouped (IOError "NewWritableFile") db
        else
          Some {| mem_ := MemTable.new_MemTable; imm_ := Some (mem_ db); log_ := new_Writer;
                  old_logs := old_logs db ++ [dest_ (log_ db)]; current := current db;
                  LastSequence := LastSequence db; manifest_sequence := manifest_sequence db;
                  bg_error_ := bg_error_ db; tmp_batch_ := tmp_batch_ db; writers_ := writers_ db;
                  front := Making false allow_delay; returned := returned db |}
    end.

(** The writer in front starts: [MakeRoomForWrite(my_batch == NULL)]. *)
Definition Write_start (db : DB) : option DB :=
  w ← head (writers_ db);
  let force := match qw_batch w with None => true | Some _ => false end in
  match front db with
  | Idle => Some (set_front (Making force (negb force)) db)
  | _ => None
  end.

(** The part without the mutex: the log, then the table. *)
Definition Write_log (db : DB) : option DB :=
  match front db with
  | Logging updates in_tmp last_sequence group =>
      log ← AddRecord updates (log_ db);
      '(mem, status) ← InsertInto updates (mem_ db);
      Some {| mem_ := mem; imm_ := imm_ db; log_ := log; old_logs := old_logs db; current := current db;
              LastSequence := LastSequence db; manifest_sequence := manifest_sequence db;
              bg_error_ := bg_error_ db; tmp_batch_ := tmp_batch_ db; writers_ := writers_ db;
              front := Applied status in_tmp last_sequence group; returned := returned db |}
  | _ => None
  end.

(** The end of [Write]: all writers of the group are done, with the same status. *)
Definition Write_finish (db : DB) : option DB :=
  match front db with
  | Applied status in_tmp last_sequence group =>
      Some {| mem_ := mem_ db; imm_ := imm_ db; log_ := log_ db; old_logs := old_logs db;
              current := current db; LastSequence := last_sequence;
              manifest_sequence := manifest_sequence db; bg_error_ := bg_error_ db;
              tmp_batch_ := if in_tmp then Clear else tmp_batch_ db;
              writers_ := drop group (writers_ db); front := Idle;
              returned := returned db ++ replicate group status |}
  | _ => None
  end.

(** ** The background thread *)

(** [CompactMemTable]: [imm_] goes to disk, and the logs before the current one are no
    longer needed. *)
Definition CompactMemTable (db : DB) : option DB :=
  imm ← imm_ db;
  Some {| mem_ := mem_ db; imm_ := None; log_ := log_ db; old_logs := [];
          current := WriteLevel0Table imm (current db); LastSequence := LastSequence db;
          manifest_sequence := LastSequence db; bg_error_ := bg_error_ db; tmp_batch_ := tmp_batch_ db;
          writers_ := writers_ db; front := front db; returned := returned db |}.

Definition RecordBackgroundError (s : Status) (db : DB) : DB :=
  {| mem_ := mem_ db; imm_ := imm_ db; log_ := log_ db; old_logs := old_logs db; current := current db;
     LastSequence := LastSequence db; manifest_sequence := manifest_sequence db;
     bg_error_ := if is_ok (bg_error_ db) then s else bg_error_ db; tmp_batch_ := tmp_batch_ db;
     writers_ := writers_ db; front := front db; returned := returned db |}.

(** [BackgroundCall] with the part of [BackgroundCompaction] that concerns [imm_]: no work
    after an error; with no table set aside the thread turns to the tables on disk, which is
    not a step here. *)
Definition BackgroundCall (db : DB) : option DB :=
  if negb (is_ok (bg_error_ db)) then Some db else CompactMemTable db.

(** ** Reading *)

(** [Get]: a value, or [Status::NotFound]. *)
Definition Get (snapshot : option Z) (key : list Z) (db : DB) : option (option (list Z)) :=
  let snapshot := default (LastSequence db) snapshot in
  let found r := match r with MemTable.Found v => Some v | _ => None end in
  r ← MemTable.Get key snapshot (mem_ db);
  match r with
  | MemTable.Absent =>
      r ← match imm_ db with
          | Some imm => MemTable.Get key snapshot imm
          | None => Some MemTable.Absent
          end;
      match r with
      | MemTable.Absent => Some (found (Version_Get (current db) key snapshot))
      | _ => Some (found r)
      end
  | _ => Some (found r)
  end.

(** ** Recovery *)

Definition MaybeIgnoreError (s : Status) : Status :=
  if is_ok s || paranoid_checks then s else OK.

(** The status after the reader has reported [r' \ r]. *)
Definition reported_status (r r' : Reader) (status : Status) : Status :=
  match drop (length (reported_ r)) (reported_ r') with
  | (_, reason) :: _ => if paranoid_checks && is_ok status then Corruption reason else status
  | [] => status
  end.

Record recovery := { rec_mem : option memtable; rec_version : Version; rec_max : Z }.

(** [while (reader.ReadRecord(&record, &scratch) && status.ok())] of [RecoverLogFile] *)
Fixpoint RecoverLogFile_loop (fuel : nat) (r : Reader) (status : Status) (st : recovery)
    : option (Status * recovery) :=
  match fuel with
  | O => None
  | S fuel' =>
      '(res, r') ← ReadRecord true 0 r;
      let status := reported_status r r' status in
      match res with
      | None => Some (status, st)
      | Some record =>
          if negb (is_ok status) then Some (status, st)
          else if (length record <? 12)%nat
          then RecoverLogFile_loop fuel' r'
                 (if paranoid_checks then Corruption "log record too small" else status) st
          else
            let batch := SetContents record in
            let mem := default MemTable.new_MemTable (rec_mem st) in
            '(mem, s) ← InsertInto batch mem;
            let status := MaybeIgnoreError s in
            if negb (is_ok status)
            then Some (status, {| rec_mem := Some mem; rec_version := rec_version st; rec_max := rec_max st |})
            else
              let last_seq := w64 (Sequence batch + Count batch - 1) in
              let max := if rec_max st <? last_seq then last_seq else rec_max st in
              if write_buffer_size <? ApproximateMemoryUsage mem
              then RecoverLogFile_loop fuel' r' status
                     {| rec_mem := None; rec_version := WriteLevel0Table mem (rec_version st); rec_max := max |}
              else RecoverLogFile_loop fuel' r' status
                     {| rec_mem := Some mem; rec_version := rec_version st; rec_max := max |}
      end
  end.

Definition RecoverLogFile (file : list Z) (v : Version) (max_sequence : Z) : option (Status * Version * Z) :=
  '(status, st) ← RecoverLogFile_loop (S (length file)) (new_Reader file) OK
    {| rec_mem := None; rec_version := v; rec_max := max_sequence |};
  match is_ok status, rec_mem st with
  | true, Some mem => Some (status, WriteLevel0Table mem (rec_version st), rec_max st)
  | _, _ => Some (status, rec_version st, rec_max st)
  end.

(** The logs in the order of their numbers; the status is that of the last one. *)
Fixpoint Recover_logs (logs : list (list Z)) (s : Status) (v : Version) (max_sequence : Z)
    : option (Status * Version * Z) :=
  match logs with
  | [] => Some (s, v, max_sequence)
  | file :: logs' =>
      '(s, v, max_sequence) ← RecoverLogFile file v max_sequence;
      Recover_logs logs' s v max_sequence
  end.

(** [DB::Open] on what is left on disk: the tables with the sequence number of the
    descriptor, and the log files. *)
Definition Open (v : Version) (manifest_seq : Z) (logs : list (list Z)) : option (Status * DB) :=
  '(s, v, max_sequence) ← Recover_logs logs OK v 0;
  let seq := if is_ok s && (manifest_seq <? max_sequence) then max_sequence else manifest_seq in
  Some (s, {| mem_ := MemTable.new_MemTable; imm_ := None; log_ := new_Writer; old_logs := [];
              current := v; LastSequence := seq; manifest_sequence := seq; bg_error_ := OK;
              tmp_batch_ := Clear; writers_ := []; front := Idle; returned := [] |}).
End db.

(** ** The meaning of updates *)

Definition apply_to_map (m : gmap (list Z) (list Z)) (u : update) : gmap (list Z) (list Z) :=
  match u with UPut k v => <[k := v]> m | UDelete k => delete k m end.
Definition value_map (us : list update) : gmap (list Z) (list Z) := foldl apply_to_map ∅ us.

Definition update_of (o : MemTable.op) : update :=
  if MemTable.op_type o =? kTypeValue then UPut (MemTable.op_key o) (MemTable.op_value o)
  else UDelete (MemTable.op_key o).

Abbreviation seq_lt := (fun o o' => MemTable.op_seq o < MemTable.op_seq o').

Lemma update_of_number seq us : map update_of (number seq us) = us.
Proof. revert seq. induction us as [|u us IH]; intros seq; cbn; [done|]. rewrite IH. by destruct u. Qed.

Lemma length_number seq us : length (number seq us) = length us.
Proof. rewrite <- (update_of_number seq us) at 2. by rewrite length_map. Qed.

Lemma number_sorted seq us : StronglySorted seq_lt (number seq us).
Proof.
  revert seq. induction us as [|u us IH]; intros seq; cbn [number]; constructor; [done|].
  eapply Forall_impl; [apply number_seq|]. intros o Ho. cbn in Ho |- *. destruct u; cbn; lia.
Qed.

Definition found (r : MemTable.get_result) : option (list Z) :=
  match r with MemTable.Found v => Some v | _ => None end.

Lemma newest_app k s l1 l2 :
  MemTable.newest k s (l1 ++ l2) = match MemTable.newest k s l2 with Some o => Some o | None => MemTable.newest k s l1 end.
Proof. unfold MemTable.newest. by rewrite filter_app, last_app. Qed.

(** The newest operation on a key decides its value. *)
Lemma newest_value k s ops :
  found (MemTable.answer (MemTable.newest k s ops))
    = value_map (map update_of (filter (fun o => MemTable.op_seq o <= s) ops)) !! k.
Proof.
  induction ops as [|o ops IH] using rev_ind; [done|].
  rewrite newest_app, filter_app, map_app. unfold value_map. rewrite foldl_app. fold (value_map
    (map update_of (filter (fun o => MemTable.op_seq o <= s) ops))).
  unfold MemTable.newest at 1. rewrite !filter_cons, !filter_nil.
  destruct (decide (MemTable.op_seq o <= s)) as [Hs|Hs].
  - destruct (decide (MemTable.op_key o = k /\ MemTable.op_seq o <= s)) as [[Hk _]|Hk]; cbn [last map foldl].
    + cbn [MemTable.answer]. unfold update_of. destruct (_ =? _); cbn [apply_to_map found]; subst k.
      * by rewrite lookup_insert_eq.
      * by rewrite lookup_delete_eq.
    + assert (MemTable.op_key o <> k) as Hn by (intros E; apply Hk; auto). rewrite IH.
      unfold update_of. destruct (_ =? _); cbn [apply_to_map].
      * by rewrite lookup_insert_ne.
      * by rewrite lookup_delete_ne.
  - rewrite decide_False by (intros [_ ?]; lia). cbn [last map foldl]. apply IH.
Qed.

Lemma filter_all {A} (P : A -> Prop) `{forall x, Decision (P x)} l : Forall P l -> filter P l = l.
Proof. induction 1 as [|x l Hx Hl IH]; [done|]. by rewrite filter_cons_True, IH. Qed.

(** ** Logs *)

Definition wf_update (u : update) : Prop :=
  update_ok u /\ match u with UPut k v => bytes k /\ bytes v | UDelete k => bytes k end.

Definition wf_group (g : Z * list update) : Prop :=
  Forall wf_update (snd g) /\ Z.of_nat (length (snd g)) < max_count
  /\ 1 <= fst g /\ fst g + Z.of_nat (length (snd g)) <= kMaxSequenceNumber + 1.

Definition group_ops (gs : list (Z * list update)) : list MemTable.op :=
  concat (map (fun g => number (fst g) (snd g)) gs).
Definition group_records (gs : list (Z * list update)) : list (list Z) :=
  map (fun g => batch (fst g) (snd g)) gs.

Lemma bytes_batch seq us : Forall wf_update us -> bytes (batch seq us).
Proof.
  intros Hus. unfold batch. rewrite !bytes_app. split_and!; [apply bytes_le_bytes|apply bytes_le_bytes|].
  induction Hus as [|u us [Hu Hb] Hus IH]; cbn [map concat]; [constructor|]. apply bytes_app. split; [|done].
  destruct u as [k v|k]; cbn in Hu, Hb |- *; apply bytes_cons; (split; [done|]).
  - destruct Hu, Hb. apply bytes_app. split; apply bytes_slice; (done || lia).
  - apply bytes_slice; (done || lia).
Qed.

Lemma length_batch s us : Z.of_nat (length us) <= ByteSize (batch s us).
Proof.
  unfold ByteSize, batch. rewrite !length_app.
  assert (length us <= length (concat (map encode_update us)))%nat; [|lia].
  induction us as [|u us IH]; cbn [map concat length]; [lia|]. rewrite length_app. destruct u; cbn [encode_update length]; lia.
Qed.

Lemma bytes_group_records gs : Forall wf_group gs -> Forall bytes (group_records gs).
Proof. intros H. apply Forall_map. eapply Forall_impl; [exact H|]. intros g (Hg & _). by apply bytes_batch. Qed.

(** Groups that follow each other after [b], up to [e]. *)
Fixpoint chain_groups (b : Z) (gs : list (Z * list update)) (e : Z) : Prop :=
  match gs with
  | [] => b <= e
  | g :: gs' => b < fst g /\ chain_groups (fst g + Z.of_nat (length (snd g)) - 1) gs' e
  end.

Lemma chain_groups_snoc b gs e g :
  chain_groups b gs e -> e < fst g -> chain_groups b (gs ++ [g]) (fst g + Z.of_nat (length (snd g)) - 1).
Proof.
  revert b. induction gs as [|g' gs IH]; intros b H He; cbn in *; [lia|]. destruct H as [H1 H2]. auto.
Qed.

(** The log [w] holds [ops], in groups. *)
Definition log_inv (w : Writer) (e : Z) (ops : list MemTable.op) : Prop :=
  exists gs, Forall wf_group gs /\ chain_groups 0 gs e /\ group_ops gs = ops
    /\ add_records (group_records gs) new_Writer = Some w /\ exists s, w_at w s.

#[local] Opaque AddRecord batch.

Lemma new_log_inv e : 0 <= e -> log_inv new_Writer e [].
Proof. intros He. exists []. split_and!; [constructor|done|done|done|]. eexists. apply new_Writer_at. Qed.

Lemma AddRecord_log_inv w e ops g :
  log_inv w e ops -> wf_group g -> e < fst g ->
  exists w', AddRecord (batch (fst g) (snd g)) w = Some w'
    /\ log_inv w' (fst g + Z.of_nat (length (snd g)) - 1) (ops ++ number (fst g) (snd g)).
Proof.
  intros (gs & Hgs & Hch & <- & Hw & s & Hs) Hg He.
  assert (bytes (batch (fst g) (snd g))) as Hb by apply bytes_batch, Hg.
  destruct (AddRecord_total _ w s Hs Hb) as [w' Hw']. exists w'. split; [done|].
  destruct (AddRecord_at _ _ _ _ Hw' Hs Hb) as [s' Hs'].
  exists (gs ++ [g]). split_and!.
  - apply Forall_app. split; [done|]. by constructor.
  - by eapply chain_groups_snoc.
  - unfold group_ops. rewrite map_app, concat_app. cbn. by rewrite app_nil_r.
  - unfold group_records. rewrite map_app. exact (add_records_snoc _ _ _ _ _ Hw Hw').
  - by exists s'.
Qed.

(** ** Reads against the content *)

Section proofs.
Context `{TS : TableStore}.
Context (ApproximateMemoryUsage : memtable -> Z) (write_buffer_size : Z) (paranoid_checks : bool).

(** What the three places hold: [ov] on disk, [oi] in [imm_], [om] in [mem_]. *)
Record content (db : DB) (ov oi om : list MemTable.op) : Prop := {
  c_sorted : StronglySorted seq_lt (ov ++ oi ++ om);
  c_version : holds (current db) ov;
  c_imm : match imm_ db with Some imm => MemTable.mem_inv imm oi | None => oi = [] end;
  c_mem : MemTable.mem_inv (mem_ db) om }.

(** A read at any sequence number sees the operations up to it. *)
Lemma Get_content db ov oi om snapshot k :
  content db ov oi om -> is_seq (default (LastSequence db) snapshot) -> Z.of_nat (length k) + 8 < 0x1_0000_0000 ->
  Get snapshot k db
    = Some (value_map (map update_of
        (filter (fun o => MemTable.op_seq o <= default (LastSequence db) snapshot) (ov ++ oi ++ om))) !! k).
Proof.
  intros [_ Hv Hi Hm] Hs Hk. rewrite <- newest_value. unfold Get. set (s := default (LastSequence db) snapshot) in *.
  rewrite (MemTable.Get_spec k s _ om Hm Hs Hk). cbn [mbind option_bind].
  assert ((match imm_ db with Some imm => MemTable.Get k s imm | None => Some MemTable.Absent end)
    = Some (MemTable.answer (MemTable.newest k s oi))) as ->.
  { destruct (imm_ db) as [imm|]; [by apply MemTable.Get_spec|]. by rewrite Hi. }
  cbn [mbind option_bind]. rewrite (Version_Get_holds _ ov k s Hv Hs Hk). rewrite !newest_app.
  destruct (MemTable.newest k s om) as [o|]; cbn [MemTable.answer].
  - by destruct (_ =? _).
  - destruct (MemTable.newest k s oi) as [o|]; cbn [MemTable.answer]; [|done]. by destruct (_ =? _).
Qed.

(** ** The queue of writers *)

Definition queued (w : QWriter) (q : option (list update)) : Prop :=
  match qw_batch w, q with
  | Some b, Some us => exists s, b = batch s us
  | None, None => True
  | _, _ => False
  end.
Definition wf_queued (q : option (list update)) : Prop :=
  match q with Some us => Forall wf_update us /\ Z.of_nat (length us) < max_count | None => True end.
Definition group_updates (qs : list (option (list update))) : list update := concat (map (default []) qs).

Lemma group_updates_app q1 q2 : group_updates (q1 ++ q2) = group_updates q1 ++ group_updates q2.
Proof. unfold group_updates. by rewrite map_app, concat_app. Qed.

(** A group that has grown is small; it is the updates of its writers in order. *)
Lemma BuildBatchGroup_loop_spec s0 us0 fs max_size sz ws qs s acc in_tmp g :
  Forall2 queued ws qs -> max_size < max_count ->
  Z.of_nat (length us0) < max_count -> Z.of_nat (length acc) < max_count ->
  Z.of_nat (length acc) <= sz ->
  (in_tmp = false -> acc = us0) ->
  exists n s' in_tmp', (n <= length ws)%nat
    /\ BuildBatchGroup_loop (batch s0 us0) fs max_size sz Clear (batch s acc) in_tmp g ws
       = (batch s' (acc ++ group_updates (take n qs)), in_tmp', (g + n)%nat)
    /\ Z.of_nat (length (acc ++ group_updates (take n qs))) < max_count.
Proof.
  intros Hq Hmax H0. revert sz s acc in_tmp g. induction Hq as [|w q ws qs Hw Hq IH]; intros sz s acc in_tmp g Ha Hsz Htmp.
  - exists 0%nat, s, in_tmp. cbn. rewrite app_nil_r, Nat.add_0_r. split_and!; [lia|done|lia].
  - assert (exists n s' in_tmp', (n <= length (w :: ws))%nat
      /\ (batch s acc, in_tmp, g)
         = (batch s' (acc ++ group_updates (take n (q :: qs))), in_tmp', (g + n)%nat)
      /\ Z.of_nat (length (acc ++ group_updates (take n (q :: qs)))) < max_count) as Hstop.
    { exists 0%nat, s, in_tmp. cbn. rewrite app_nil_r, Nat.add_0_r. split_and!; [lia|done|lia]. }
    cbn [BuildBatchGroup_loop]. destruct (qw_sync w && negb fs); [done|]. unfold queued in Hw.
    destruct (qw_batch w) as [b|], q as [us|]; try done.
    + destruct Hw as [sb ->]. destruct (Z.ltb_spec max_size (sz + ByteSize (batch sb us))) as [|Hle]; [done|].
      pose proof (length_batch sb us). clear Hstop.
      assert (exists s1, (if in_tmp then batch s acc else Append Clear (batch s0 us0)) = batch s1 acc) as [s1 ->].
      { destruct in_tmp; [by exists s|]. rewrite (Htmp eq_refl) in *. exists 0. rewrite Clear_batch, Append_batch; [done|].
        cbn. lia. }
      rewrite Append_batch by lia.
      destruct (IH (sz + ByteSize (batch sb us)) s1 (acc ++ us) true (S g)) as (n & s' & t' & Hn & E & Hl);
        [rewrite length_app; lia|rewrite length_app; lia|done|].
      exists (S n), s', t'. cbn [length take]. unfold group_updates in *. cbn [map concat default].
      rewrite <- app_assoc in E, Hl. rewrite E. split_and!; [lia|f_equal; lia|done].
    + destruct (IH sz s acc in_tmp (S g) Ha Hsz Htmp) as (n & s' & t' & Hn & E & Hl).
      exists (S n), s', t'. cbn [length take]. unfold group_updates in *. cbn [map concat default app].
      rewrite E. split_and!; [lia|f_equal; lia|done].
Qed.

Lemma BuildBatchGroup_spec s0 us0 fs ws qs :
  Forall2 queued ws qs -> Z.of_nat (length us0) < max_count ->
  exists n s' in_tmp', (n <= length ws)%nat
    /\ BuildBatchGroup (batch s0 us0) fs Clear ws
       = (batch s' (us0 ++ group_updates (take n qs)), in_tmp', S n)
    /\ Z.of_nat (length (us0 ++ group_updates (take n qs))) < max_count.
Proof.
  intros Hq H0. unfold BuildBatchGroup.
  apply (BuildBatchGroup_loop_spec s0 us0 fs _ (ByteSize (batch s0 us0)) ws qs s0 us0 false 1); try done.
  - destruct (Z.leb_spec (ByteSize (batch s0 us0)) (Z.shiftl 128 10)) as [Hs|]; [|done].
    change (Z.shiftl 128 10) with 131072 in *. lia.
  - apply length_batch.
Qed.

(** ** The invariant *)

(** [pend] is in the log and in [mem_], but not yet visible. *)
Definition phase_inv (db : DB) (qs : list (option (list update))) (pend : list MemTable.op) : Prop :=
  match front db with
  | Idle | Making _ _ => pend = [] /\ tmp_batch_ db = Clear
  | Logging updates in_tmp ls g =>
      let us := group_updates (take g qs) in
      pend = [] /\ (in_tmp = false -> tmp_batch_ db = Clear) /\ (1 <= g <= length qs)%nat
      /\ updates = batch (LastSequence db + 1) us /\ ls = LastSequence db + Z.of_nat (length us)
      /\ Z.of_nat (length us) < max_count
  | Applied status in_tmp ls g =>
      let us := if is_ok status then group_updates (take g qs) else [] in
      (in_tmp = false -> tmp_batch_ db = Clear) /\ (1 <= g <= length qs)%nat
      /\ pend = number (LastSequence db + 1) us /\ ls = LastSequence db + Z.of_nat (length us)
  end.

(** [room] more updates may come before the sequence numbers run out. *)
Record db_inv (room : Z) (db : DB) (qs : list (option (list update))) (ov oi om pend : list MemTable.op)
    : Prop := {
  d_content : content db ov oi (om ++ pend);
  d_log : log_inv (log_ db) (LastSequence db + Z.of_nat (length pend)) (om ++ pend);
  d_old : match imm_ db with
          | Some _ => exists w e, old_logs db = [dest_ w] /\ e <= LastSequence db /\ log_inv w e oi
          | None => old_logs db = []
          end;
  d_manifest : 0 <= manifest_sequence db <= LastSequence db;
  d_seq : Forall (fun o => MemTable.op_seq o <= LastSequence db) (ov ++ oi ++ om);
  d_disk : Forall (fun o => MemTable.op_seq o <= manifest_sequence db) ov;
  d_queue : Forall2 queued (writers_ db) qs;
  d_wf : Forall wf_queued qs;
  d_room : 0 <= room /\ LastSequence db + Z.of_nat (length (group_updates qs)) + room <= kMaxSequenceNumber;
  d_front : phase_inv db qs pend }.

Lemma new_DB_inv : db_inv kMaxSequenceNumber new_DB [] [] [] [] [].
Proof.
  split; cbn; try done; try lia.
  - split; cbn; [constructor|apply new_Version_holds|done|apply MemTable.new_MemTable_inv].
  - by apply new_log_inv.
Qed.

Lemma queue_updates_wf qs n : Forall wf_queued qs -> Forall wf_update (group_updates (take n qs)).
Proof.
  intros H. assert (Forall wf_queued (take n qs)) as Ht by by apply Forall_take.
  unfold group_updates. induction Ht as [|q l Hq Hl IH]; cbn [map concat]; [constructor|].
  apply Forall_app. split; [|done]. destruct q; [apply Hq|constructor].
Qed.

Lemma group_updates_take qs n : (length (group_updates (take n qs)) <= length (group_updates qs))%nat.
Proof. rewrite <- (take_drop n qs) at 2. rewrite group_updates_app, length_app. lia. Qed.

Lemma take_le_app {A} n (l k : list A) : (n <= length l)%nat -> take n (l ++ k) = take n l.
Proof. intros Hn. by rewrite take_app_le. Qed.

Lemma enqueue_inv room db qs ov oi om pend w q :
  db_inv room db qs ov oi om pend -> queued w q -> wf_queued q ->
  Z.of_nat (length (default [] q)) <= room ->
  db_inv (room - Z.of_nat (length (default [] q))) (enqueue w db) (qs ++ [q]) ov oi om pend.
Proof.
  intros [Hc Hl Ho Hm Hs Hd Hq Hw Hr Hf] Hwq Hq' Hn. split; try done.
  - by destruct Hc.
  - cbn. apply Forall2_app; [done|]. by constructor.
  - apply Forall_app. split; [done|]. by constructor.
  - rewrite group_updates_app, length_app. unfold group_updates at 2. cbn [map concat].
    rewrite app_nil_r. cbn [enqueue set_writers LastSequence]. lia.
  - unfold phase_inv in *. cbn [enqueue set_writers front tmp_batch_ LastSequence] in *.
    destruct (front db); cbn zeta in *; try done; rewrite take_le_app, length_app by lia; cbn [length];
      naive_solver lia.
Qed.

Lemma start_inv room db db' qs ov oi om pend :
  db_inv room db qs ov oi om pend -> Write_start db = Some db' -> db_inv room db' qs ov oi om pend.
Proof.
  intros [Hc Hl Ho Hm Hs Hd Hq Hw Hr Hf] H. unfold Write_start in H. apply bind_Some in H as (w & _ & H).
  destruct (front db) eqn:Ef; try done. apply Some_inj in H as <-. unfold phase_inv in Hf. rewrite Ef in Hf.
  split; try done. by destruct Hc.
Qed.

Lemma grouped_inv room db db' qs ov oi om pend status f d :
  db_inv room db qs ov oi om pend -> front db = Making f d -> Write_grouped status db = Some db' ->
  db_inv room db' qs ov oi om pend.
Proof.
  intros [Hc Hl Ho Hm Hs Hd Hq Hw Hr Hf] Ef H. unfold Write_grouped in H. apply bind_Some in H as (w & Hh & H).
  unfold phase_inv in Hf. rewrite Ef in Hf. destruct Hf as [-> Htmp].
  destruct (writers_ db) as [|w' ws] eqn:Ews; [done|]. cbn in Hh. injection Hh as ->. pose proof Hq as Hqs.
  apply Forall2_cons_inv_l in Hq as (q & qs' & Hwq & Hq & ->). rename qs' into qs.
  assert (match qw_batch w with None => True | Some _ => is_ok status = false end -> 
    db' = set_front (Applied status false (LastSequence db) 1) db -> db_inv room db' (q :: qs) ov oi om []) as Hskip.
  { intros Hb ->. split; try done; [by destruct Hc|by cbn; rewrite Ews|]. unfold phase_inv. cbn [set_front front LastSequence].
    split; [done|]. split; [cbn; lia|].
    assert ((if is_ok status then group_updates (take 1 (q :: qs)) else []) = []) as ->; [|by rewrite Z.add_0_r].
    destruct (is_ok status); [|done]. unfold queued in Hwq. destruct (qw_batch w), q; try done. }
  destruct (is_ok status) eqn:Es; [|apply Some_inj in H; apply Hskip; [by destruct (qw_batch w)|done]].
  destruct (qw_batch w) as [b|] eqn:Eb; [|apply Some_inj in H; by apply Hskip]. clear Hskip.
  unfold queued in Hwq. rewrite Eb in Hwq. destruct q as [us|]; [|done]. destruct Hwq as [s0 ->].
  apply Forall_cons in Hw as Hw'. destruct Hw' as [[Hus Hn0] _].
  cbn [tail writers_] in H. rewrite Htmp in H.
  destruct (BuildBatchGroup_spec s0 us (qw_sync w) ws qs Hq Hn0) as (n & s' & t' & Hn & E & Hcount).
  rewrite E in H. rewrite SetSequence_batch in H.
  assert (group_updates (take (S n) (Some us :: qs)) = us ++ group_updates (take n qs)) as Eg by done.
  pose proof (group_updates_take (Some us :: qs) (S n)) as Hle. rewrite Eg in Hle.
  unfold kMaxSequenceNumber in Hr.
  rewrite Count_batch, !w64_small in H by (unfold is64; lia || done). apply Some_inj in H as <-.
  split; try (by destruct t'); [by destruct t', Hc|destruct t'; cbn; by rewrite Ews|].
  unfold phase_inv. apply Forall2_length in Hq.
  destruct t'; cbn [set_front set_tmp front LastSequence tmp_batch_]; rewrite Eg; cbn [length]; split_and!; (done || lia).
Qed.

Lemma turn_inv room db db' qs ov oi om pend file_ok f d :
  db_inv room db qs ov oi om pend -> front db = Making f d ->
  MakeRoomForWrite_turn ApproximateMemoryUsage write_buffer_size file_ok f d db = Some db' ->
  exists oi' om', oi ++ om = oi' ++ om' /\ db_inv room db' qs ov oi' om' pend.
Proof.
  intros Hinv Ef H. unfold MakeRoomForWrite_turn in H.
  destruct (negb (is_ok (bg_error_ db))); [exists oi, om; split; [done|]; by eapply grouped_inv|].
  destruct (d && _).
  { exists oi, om. split; [done|]. apply Some_inj in H as <-. destruct Hinv as [Hc Hl Ho Hm Hs Hd Hq Hw Hr Hf].
    unfold phase_inv in Hf. rewrite Ef in Hf. split; try done. by destruct Hc. }
  destruct (negb f && _); [exists oi, om; split; [done|]; by eapply grouped_inv|].
  destruct (imm_ db) as [|] eqn:Ei; [done|]. destruct (_ <=? _); [done|].
  destruct (negb file_ok); [exists oi, om; split; [done|]; by eapply grouped_inv|]. apply Some_inj in H as <-.
  destruct Hinv as [[Hcs Hcv Hci Hcm] Hl Ho Hm Hs Hd Hq Hw Hr Hf]. unfold phase_inv in Hf. rewrite Ef in Hf.
  destruct Hf as [-> Htmp]. rewrite Ei in Hci, Ho. rewrite app_nil_r in *. subst oi.
  exists om, []. rewrite app_nil_r. split; [done|]. split; try done.
  - split; cbn; try done; [by rewrite app_nil_r|apply MemTable.new_MemTable_inv].
  - cbn [log_ LastSequence length]. apply new_log_inv. lia.
  - cbn [imm_ old_logs]. rewrite Ho. eexists (log_ db), _. split; [done|]. split; [|exact Hl]. cbn. lia.
  - cbn [LastSequence]. by rewrite app_nil_r.
Qed.

(** History is only added to, with new sequence numbers. *)
Definition extends (db db' : DB) (hist hist' : list MemTable.op) : Prop :=
  LastSequence db <= LastSequence db'
  /\ exists new, hist' = hist ++ new /\ Forall (fun o => LastSequence db < MemTable.op_seq o) new.

Lemma extends_same db db' hist : LastSequence db' = LastSequence db -> extends db db' hist hist.
Proof. intros E. split; [lia|]. exists []. by rewrite app_nil_r. Qed.

Lemma history_extends_trans db1 db2 db3 h1 h2 h3 : extends db1 db2 h1 h2 -> extends db2 db3 h2 h3 -> extends db1 db3 h1 h3.
Proof.
  intros (H1 & n1 & -> & F1) (H2 & n2 & -> & F2). split; [lia|]. exists (n1 ++ n2). rewrite app_assoc. split; [done|].
  apply Forall_app. split; [done|]. eapply Forall_impl; [exact F2|]. cbn. intros; lia.
Qed.

(** Logging and inserting a group succeed. *)
Lemma Write_log_inv room db qs ov oi om pend u t ls g :
  db_inv room db qs ov oi om pend -> front db = Logging u t ls g ->
  exists db' pend', Write_log db = Some db' /\ front db' = Applied OK t ls g
    /\ (returned db' = returned db /\ LastSequence db' = LastSequence db)
    /\ db_inv room db' qs ov oi om pend'.
Proof.
  intros [[Hcs Hcv Hci Hcm] Hl Ho Hm Hs Hd Hq Hw Hr Hf] Ef. unfold phase_inv in Hf. rewrite Ef in Hf. cbn zeta in Hf.
  set (us := group_updates (take g qs)) in *. destruct Hf as (-> & Htmp & Hg & -> & -> & Hcount).
  rewrite app_nil_r in *. pose proof (group_updates_take qs g) as Hle. fold us in Hle.
  assert (Forall wf_update us) as Hus by by apply queue_updates_wf.
  assert (wf_group (LastSequence db + 1, us)) as Hwg by (unfold wf_group; cbn [fst snd]; split_and!; done || lia).
  destruct (AddRecord_log_inv _ _ _ _ Hl Hwg) as (w' & Ew & Hl'); [cbn; lia|]. cbn [fst snd] in Ew, Hl'.
  assert (Forall (fun o => MemTable.op_seq o < LastSequence db + 1) om) as Hom.
  { apply Forall_app in Hs as [_ Hs]. apply Forall_app in Hs as [_ Hs]. eapply Forall_impl; [exact Hs|]. cbn. lia. }
  destruct (InsertInto_batch us (LastSequence db + 1) (mem_ db) om Hcm Hom) as (mem' & Em & Hm').
  { eapply Forall_impl; [exact Hus|]. by intros ? []. }
  { lia. } { lia. } { done. }
  unfold Write_log. rewrite Ef, Ew. cbn [mbind option_bind]. rewrite Em. cbn [mbind option_bind].
  eexists _, (number (LastSequence db + 1) us). split; [done|]. split; [done|]. split; [done|]. split; try done.
  - split; try done. cbn. rewrite !app_assoc. apply StronglySorted_app_2; [|by rewrite <- app_assoc|apply number_sorted].
    intros o o' H1 H2. rewrite <- app_assoc in H1. rewrite Forall_forall in Hs. specialize (Hs o H1).
    pose proof (number_seq (LastSequence db + 1) us) as Hn. rewrite Forall_forall in Hn. specialize (Hn o' H2). lia.
  - cbn [log_ LastSequence]. rewrite length_number. by replace (LastSequence db + Z.of_nat (length us))
      with (LastSequence db + 1 + Z.of_nat (length us) - 1) by lia.
Qed.

Lemma Write_finish_inv room db qs ov oi om pend st t ls g :
  db_inv room db qs ov oi om pend -> front db = Applied st t ls g ->
  exists db', Write_finish db = Some db' /\ (1 <= g <= length qs)%nat
    /\ returned db' = returned db ++ replicate g st
    /\ map update_of pend = (if is_ok st then group_updates (take g qs) else [])
    /\ extends db db' (ov ++ oi ++ om) ((ov ++ oi ++ om) ++ pend)
    /\ db_inv room db' (drop g qs) ov oi (om ++ pend) [].
Proof.
  intros [[Hcs Hcv Hci Hcm] Hl Ho Hm Hs Hd Hq Hw Hr Hf] Ef. unfold phase_inv in Hf. rewrite Ef in Hf. cbn zeta in Hf.
  destruct Hf as (Htmp & Hg & -> & ->). set (us := if is_ok st then group_updates (take g qs) else []) in *.
  unfold Write_finish. rewrite Ef. eexists. split; [done|]. split; [done|]. split; [done|].
  split; [by rewrite update_of_number|]. split.
  { split; [cbn; lia|]. eexists. split; [done|]. eapply Forall_impl; [apply number_seq|]. cbn. intros; lia. }
  assert (length us + length (group_updates (drop g qs)) <= length (group_updates qs))%nat as Hle.
  { pose proof (group_updates_app (take g qs) (drop g qs)) as E. rewrite take_drop in E.
    rewrite E, length_app. unfold us. destruct (is_ok st); cbn; lia. }
  rewrite length_number in Hl.
  split; cbn [LastSequence imm_ old_logs manifest_sequence log_ length]; rewrite ?app_nil_r, ?Z.add_0_r; try done.
  - destruct (imm_ db); [|done]. destruct Ho as (w & e & ? & ? & ?). exists w, e. split_and!; try done. lia.
  - lia.
  - rewrite !app_assoc. apply Forall_app. split.
    + rewrite <- app_assoc. eapply Forall_impl; [exact Hs|]. cbn. intros; lia.
    + eapply Forall_impl; [apply number_seq|]. cbn. intros; lia.
  - cbn. by apply Forall2_drop.
  - by apply Forall_drop.
  - lia.
  - unfold phase_inv. cbn. split; [done|]. destruct t; auto.
Qed.

Lemma CompactMemTable_inv room db db' qs ov oi om pend :
  db_inv room db qs ov oi om pend -> CompactMemTable db = Some db' ->
  (returned db' = returned db /\ LastSequence db' = LastSequence db) /\ db_inv room db' qs (ov ++ oi) [] om pend.
Proof.
  intros [[Hcs Hcv Hci Hcm] Hl Ho Hm Hs Hd Hq Hw Hr Hf] H. unfold CompactMemTable in H.
  apply bind_Some in H as (imm & Ei & H). apply Some_inj in H as <-. split; [done|]. rewrite Ei in Hci.
  split; cbn [LastSequence imm_ old_logs manifest_sequence log_ mem_ current]; try done.
  - split; cbn; try done; [by rewrite <- app_assoc|]. apply WriteLevel0Table_holds; [done|done|].
    apply StronglySorted_app in Hcs as (Hcs & _). apply Forall_forall. intros o Ho'. apply Forall_forall. intros o' Ho''.
    apply Hcs; set_solver.
  - lia.
  - by rewrite <- app_assoc.
  - rewrite app_assoc in Hs. by apply Forall_app in Hs as [Hs _].
Qed.

(** ** Runs *)

(** The steps: a client queues up a write; the writer in front; the background thread, either
    on its own or, for [Compact], in the loop of [DoCompactionWork], which sees to a table that
    is set aside without a look at [bg_error_]; and an error of the background thread. *)
Inductive action :=
| Enqueue (us : option (list update)) (sync : bool)
| Start
| Turn (file_ok : bool)
| Log
| Finish
| Background
| Compact
| BackgroundError (s : Status).

Definition exec (act : action) (db : DB) : option DB :=
  match act with
  | Enqueue us sync => Some (enqueue {| qw_batch := build <$> us; qw_sync := sync |} db)
  | Start => Write_start db
  | Turn file_ok =>
      match front db with
      | Making f d => MakeRoomForWrite_turn ApproximateMemoryUsage write_buffer_size file_ok f d db
      | _ => None
      end
  | Log => Write_log db
  | Finish => Write_finish db
  | Background => BackgroundCall db
  | Compact => CompactMemTable db
  | BackgroundError s => Some (RecordBackgroundError s db)
  end.
Definition run (acts : list action) (db : DB) : option DB :=
  foldl (fun db act => db ← db; exec act db) (Some db) acts.

(** The writes of a run, in the order of the queue. *)
Definition enqueued (acts : list action) : list (option (list update)) :=
  omap (fun act => match act with Enqueue us _ => Some us | _ => None end) acts.

(** The updates of the writes that have returned [OK]. *)
Definition committed (returned : list Status) (writes : list (option (list update))) : list update :=
  concat (zip_with (fun st q => if is_ok st then default [] q else []) returned writes).

Lemma committed_app r1 r2 w1 w2 : length r1 = length w1 ->
  committed (r1 ++ r2) (w1 ++ w2) = committed r1 w1 ++ committed r2 w2.
Proof. intros Hl. unfold committed. by rewrite zip_with_app, concat_app. Qed.

Lemma committed_replicate g st ws : length ws = g ->
  committed (replicate g st) ws = if is_ok st then group_updates ws else [].
Proof.
  intros <-. unfold committed, group_updates. induction ws as [|w ws IH]; cbn; [by destruct (is_ok st)|].
  rewrite IH. by destruct (is_ok st).
Qed.

(** The state after a run that began with [base]: [dn] are the writes that have returned,
    [qs] the others. *)
Definition reached (base : list update) (room : Z) (db : DB) (writes : list (option (list update)))
    (pend ov oi om : list MemTable.op) : Prop :=
  exists dn qs, writes = dn ++ qs /\ length (returned db) = length dn
    /\ map update_of (ov ++ oi ++ om) = base ++ committed (returned db) dn
    /\ db_inv room db qs ov oi om pend.

Definition action_cost (act : action) : Z :=
  match act with Enqueue us _ => Z.of_nat (length (default [] us)) | _ => 0 end.
Definition action_ok (act : action) : Prop :=
  match act with Enqueue us _ => wf_queued us | _ => True end.

Lemma build_queued q sync : wf_queued q -> queued {| qw_batch := build <$> q; qw_sync := sync |} q.
Proof. intros Hq. unfold queued. destruct q as [us|]; cbn; [|done]. exists 0. apply build_batch, Hq. Qed.

Lemma returned_grouped st db db' :
  Write_grouped st db = Some db' -> returned db' = returned db /\ LastSequence db' = LastSequence db.
Proof.
  unfold Write_grouped. intros H. apply bind_Some in H as (w & _ & H).
  destruct (is_ok st); [|by apply Some_inj in H as <-]. destruct (qw_batch w); [|by apply Some_inj in H as <-].
  destruct (BuildBatchGroup _ _ _ _) as [[? []] ?]; by apply Some_inj in H as <-.
Qed.

Lemma returned_turn f d ok db db' :
  MakeRoomForWrite_turn ApproximateMemoryUsage write_buffer_size ok f d db = Some db' ->
  returned db' = returned db /\ LastSequence db' = LastSequence db.
Proof.
  unfold MakeRoomForWrite_turn. intros H.
  repeat match type of H with (if ?c then _ else _) = _ => destruct c end;
    first [discriminate | exact (returned_grouped _ _ _ H) | by apply Some_inj in H as <-].
Qed.

Lemma exec_reached act base room db db' writes pend ov oi om :
  reached base room db writes pend ov oi om -> exec act db = Some db' -> action_ok act -> action_cost act <= room ->
  exists pend' ov' oi' om', reached base (room - action_cost act) db' (writes ++ enqueued [act]) pend' ov' oi' om'
    /\ extends db db' (ov ++ oi ++ om) (ov' ++ oi' ++ om').
Proof.
  intros (dn & qs & -> & Hlen & Hcom & Hinv) H Hok Hcost.
  assert (forall db' ov' oi' om' pend', returned db' = returned db /\ LastSequence db' = LastSequence db ->
    ov ++ oi ++ om = ov' ++ oi' ++ om' -> enqueued [act] = [] -> action_cost act = 0 ->
    db_inv room db' qs ov' oi' om' pend' ->
    exists pend' ov' oi' om', reached base (room - action_cost act) db' ((dn ++ qs) ++ enqueued [act]) pend' ov' oi' om'
      /\ extends db db' (ov ++ oi ++ om) (ov' ++ oi' ++ om')) as Hsame.
  { intros db1 ov' oi' om' pend' [Hret Hseq] E He Hc Hinv'. exists pend', ov', oi', om'. split.
    - exists dn, qs. by rewrite Hret, He, Hc, <- E, app_nil_r, Z.sub_0_r.
    - rewrite E. by apply extends_same. }
  assert (CompactMemTable db = Some db' -> enqueued [act] = [] -> action_cost act = 0 ->
    exists pend' ov' oi' om', reached base (room - action_cost act) db' ((dn ++ qs) ++ enqueued [act]) pend' ov' oi' om'
      /\ extends db db' (ov ++ oi ++ om) (ov' ++ oi' ++ om')) as Hcompact.
  { intros Hc He Hz. destruct (CompactMemTable_inv _ _ _ _ _ _ _ _ Hinv Hc) as [Hret Hinv'].
    apply (Hsame db' (ov ++ oi) [] om pend); try done. by rewrite <- app_assoc. }
  destruct act as [q sync| |ok| | | | |st]; cbn [exec] in H.
  - apply Some_inj in H as <-. exists pend, ov, oi, om. split; [|by apply extends_same].
    exists dn, (qs ++ [q]). rewrite <- app_assoc. split_and!; try done.
    cbn [action_cost action_ok] in *. apply enqueue_inv; try done. by apply build_queued.
  - apply (Hsame db' ov oi om pend); try done; [|by eapply start_inv].
    unfold Write_start in H. apply bind_Some in H as (w & _ & H). destruct (front db); try done.
    by apply Some_inj in H as <-.
  - destruct (front db) as [|f d| |] eqn:Ef; try done.
    destruct (turn_inv _ _ _ _ _ _ _ _ _ _ _ Hinv Ef H) as (oi' & om' & E & Hinv').
    apply (Hsame db' ov oi' om' pend); try done; [by eapply returned_turn|by rewrite E].
  - destruct (front db) as [| |u t ls g|] eqn:Ef; try (unfold Write_log in H; by rewrite Ef in H).
    destruct (Write_log_inv _ _ _ _ _ _ _ _ _ _ _ Hinv Ef) as (db1 & pend' & E & _ & Hret & Hinv').
    rewrite E in H. apply Some_inj in H as <-. by apply (Hsame db1 ov oi om pend').
  - destruct (front db) as [| | |st t ls g] eqn:Ef; try (unfold Write_finish in H; by rewrite Ef in H).
    destruct (Write_finish_inv _ _ _ _ _ _ _ _ _ _ _ Hinv Ef) as (db1 & E & Hg & Hret & Hp & Hext & Hinv').
    rewrite E in H. apply Some_inj in H as <-.
    exists [], ov, oi, (om ++ pend). split; [|by rewrite <- !app_assoc in Hext].
    exists (dn ++ take g qs), (drop g qs). cbn [enqueued omap list_omap action_cost].
    rewrite app_nil_r, <- app_assoc, take_drop, Hret, !length_app, length_replicate, length_take, Z.sub_0_r.
    split_and!; try done; [lia|]. rewrite committed_app by done.
    rewrite committed_replicate by (rewrite length_take; lia).
    rewrite (app_assoc base), <- Hcom, <- Hp, <- map_app. by rewrite <- !app_assoc.
  - unfold BackgroundCall in H. destruct (negb _); [|by apply Hcompact].
    apply Some_inj in H as <-. by apply (Hsame db ov oi om pend).
  - by apply Hcompact.
  - apply Some_inj in H as <-. apply (Hsame _ ov oi om pend); try done. destruct Hinv as [[] ? ? ? ? ? ? ? ? ?]. by split.
Qed.

Definition total_cost (acts : list action) : Z := foldr (fun act n => action_cost act + n) 0 acts.

Lemma action_cost_pos act : 0 <= action_cost act.
Proof. destruct act; cbn; lia. Qed.
Lemma total_cost_pos acts : 0 <= total_cost acts.
Proof.
  induction acts as [|act acts IH]; [done|]. pose proof (action_cost_pos act). change (0 <= action_cost act + total_cost acts). lia.
Qed.

Lemma run_None acts : foldl (fun db act => db ← db; exec act db) None acts = None.
Proof. induction acts; [done|]. done. Qed.

Lemma run_reached acts base room db db' writes pend ov oi om :
  reached base room db writes pend ov oi om -> run acts db = Some db' -> Forall action_ok acts -> total_cost acts <= room ->
  exists pend' ov' oi' om', reached base (room - total_cost acts) db' (writes ++ enqueued acts) pend' ov' oi' om'
    /\ extends db db' (ov ++ oi ++ om) (ov' ++ oi' ++ om').
Proof.
  revert room db writes pend ov oi om. induction acts as [|act acts IH]; intros room db writes pend ov oi om Hr H Hok Hc.
  - injection H as <-. exists pend, ov, oi, om. cbn. rewrite app_nil_r, Z.sub_0_r. split; [done|]. by apply extends_same.
  - apply Forall_cons in Hok as [Hok Hoks]. unfold run in H. cbn [foldl mbind option_bind] in H. cbn [total_cost foldr] in Hc.
    fold (total_cost acts) in Hc. pose proof (total_cost_pos acts).
    destruct (exec act db) as [db1|] eqn:E; [|by rewrite run_None in H].
    destruct (exec_reached act base room db db1 writes pend ov oi om Hr E Hok ltac:(lia)) as (pend1 & ov1 & oi1 & om1 & Hr1 & Hx1).
    destruct (IH _ _ _ _ _ _ _ Hr1 H Hoks ltac:(lia)) as (pend' & ov' & oi' & om' & Hr' & Hx').
    exists pend', ov', oi', om'. split; [|by eapply history_extends_trans]. cbn [total_cost foldr]. fold (total_cost acts).
    replace (room - (action_cost act + total_cost acts)) with (room - action_cost act - total_cost acts) by lia.
    replace (writes ++ enqueued (act :: acts)) with ((writes ++ enqueued [act]) ++ enqueued acts); [done|].
    rewrite <- app_assoc. f_equal. unfold enqueued. cbn. by destruct act.
Qed.

(** What a read sees in a reached state. *)
Lemma reached_Get base room db writes pend ov oi om s k :
  reached base room db writes pend ov oi om -> 0 <= default (LastSequence db) s <= LastSequence db ->
  Z.of_nat (length k) + 8 < 0x1_0000_0000 ->
  Get s k db = Some (value_map (map update_of
    (filter (fun o => MemTable.op_seq o <= default (LastSequence db) s) (ov ++ oi ++ om))) !! k).
Proof.
  intros (dn & qs & _ & _ & _ & Hinv) Hs Hk. pose proof (d_front _ _ _ _ _ _ _ Hinv) as Hf.
  pose proof (d_room _ _ _ _ _ _ _ Hinv) as Hr.
  rewrite (Get_content db ov oi (om ++ pend) s k (d_content _ _ _ _ _ _ _ Hinv)); [|unfold is_seq; lia|done].
  do 3 f_equal. rewrite !app_assoc, (filter_app _ _ pend).
  rewrite (MemTable.filter_none _ pend); [by rewrite app_nil_r|].
  intros o Ho. unfold phase_inv in Hf.
  assert (Forall (fun o => LastSequence db < MemTable.op_seq o) pend) as Hp.
  { destruct (front db); cbn zeta in Hf; try (destruct Hf as [-> _]; constructor).
    destruct Hf as (_ & _ & -> & _). eapply Forall_impl; [apply number_seq|]. cbn. intros; lia. }
  rewrite Forall_forall in Hp. specialize (Hp o Ho). cbn. lia.
Qed.

Lemma reached_latest base room db writes pend ov oi om k :
  reached base room db writes pend ov oi om -> Z.of_nat (length k) + 8 < 0x1_0000_0000 ->
  Get None k db = Some (value_map (base ++ committed (returned db) writes) !! k).
Proof.
  intros Hr Hk. pose proof Hr as (dn & qs & -> & Hlen & Hcom & Hinv).
  pose proof (d_manifest _ _ _ _ _ _ _ Hinv). rewrite (reached_Get _ _ _ _ _ _ _ _ None k Hr); [|cbn; lia|done].
  rewrite filter_all by apply (d_seq _ _ _ _ _ _ _ Hinv). rewrite Hcom. do 4 f_equal.
  rewrite <- (app_nil_r (returned db)) at 2. rewrite committed_app by done. unfold committed at 3.
  cbn. by rewrite app_nil_r.
Qed.
End proofs.
