(* ===== verification/DbProps.v ===== *)
(** * What the database of LevelDB promises: reads, progress and recovery

    The theorems about the definitions of DbImpl: reads see exactly the writes that have
    returned, the writer in front can get on while level 0 has room, and a database that is opened again
    after a crash has a prefix of what was written. *)
From stdpp Require Import base numbers option gmap sets list sorting strings.
From S2P Require Import Prelude Coding Crc32c LogFile SkipList DbFormat MemTable WriteBatch DbImpl.
Open Scope list_scope.
Open Scope Z_scope.
Open Scope word_scope.

#[local] Opaque AddRecord batch ReadRecord.

#[export] Instance Status_eq_dec : EqDecision Status.
Proof. solve_decision. Defined.

Section props.
Context `{TS : TableStore}.
Context (ApproximateMemoryUsage : memtable -> Z) (write_buffer_size : Z) (paranoid_checks : bool).

(** ** Recovery *)

(** What a recovery holds so far, on disk and in its table. *)
Definition recovered (st : recovery) (ov om : list MemTable.op) : Prop :=
  holds (rec_version st) ov
  /\ match rec_mem st with Some m => MemTable.mem_inv m om | None => om = [] end.

Lemma recovered_mem st ov om : recovered st ov om ->
  MemTable.mem_inv (default MemTable.new_MemTable (rec_mem st)) om.
Proof.
  intros [_ Hm]. destruct (rec_mem st); [done|]. rewrite Hm. apply MemTable.new_MemTable_inv.
Qed.

Lemma long_batch seq us : (12 <= length (batch seq us))%nat.
Proof.
  Transparent batch. unfold batch. rewrite !length_app, length_EncodeFixed64, length_EncodeFixed32. lia.
Qed.
#[local] Opaque batch.

Lemma group_bound b g om : b < fst g -> Forall (fun o => MemTable.op_seq o <= b) om ->
  Forall (fun o => MemTable.op_seq o <= fst g + Z.of_nat (length (snd g)) - 1) (om ++ number (fst g) (snd g)).
Proof.
  intros Hb Hom. apply Forall_app. split.
  - eapply Forall_impl; [exact Hom|]. cbn. intros; lia.
  - eapply Forall_impl; [apply number_seq|]. cbn. intros; lia.
Qed.

Lemma sorted_lt ov om : StronglySorted seq_lt (ov ++ om) ->
  Forall (fun o => Forall (fun o' => MemTable.op_seq o < MemTable.op_seq o') om) ov.
Proof.
  intros Hs. apply StronglySorted_app in Hs as (Hs & _). apply Forall_forall. intros o Ho.
  apply Forall_forall. intros o' Ho'. by apply Hs.
Qed.

Lemma chain_groups_le b gs e : Forall wf_group gs -> chain_groups b gs e -> b <= e.
Proof.
  intros Hw. revert b. induction Hw as [|g gs Hg Hw IH]; intros b H; cbn in *; [done|]. destruct H as [H1 H2].
  specialize (IH _ H2). lia.
Qed.

Lemma reported_status_ok r r' : reported_ r' = [] -> reported_status paranoid_checks r r' OK = OK.
Proof. intros H. unfold reported_status. by rewrite H, drop_nil. Qed.

Definition last_of (g : Z * list update) : Z := fst g + Z.of_nat (length (snd g)) - 1.

(** One record of a log. *)
Lemma RecoverLogFile_loop_record g fuel r r1 st ov om b :
  ReadRecord true 0 r = Some (Some (batch (fst g) (snd g)), r1) -> reported_ r1 = [] -> wf_group g ->
  b < fst g -> Forall (fun o => MemTable.op_seq o <= b) om -> recovered st ov om ->
  StronglySorted seq_lt (ov ++ om ++ number (fst g) (snd g)) ->
  exists st1 ov1 om1,
    RecoverLogFile_loop ApproximateMemoryUsage write_buffer_size paranoid_checks (S fuel) r OK st
      = RecoverLogFile_loop ApproximateMemoryUsage write_buffer_size paranoid_checks fuel r1 OK st1
    /\ recovered st1 ov1 om1 /\ ov1 ++ om1 = ov ++ om ++ number (fst g) (snd g)
    /\ rec_max st1 = Z.max (rec_max st) (last_of g)
    /\ Forall (fun o => MemTable.op_seq o <= last_of g) om1.
Proof.
  intros Er Hr1 (Hus & Hn & Hg1 & Hg2) Hbg Hb Hst Hs. cbn [RecoverLogFile_loop]. rewrite Er. cbn [mbind option_bind].
  rewrite (reported_status_ok r r1 Hr1). cbn [is_ok negb]. pose proof (long_batch (fst g) (snd g)) as Hlen.
  rewrite (proj2 (Nat.ltb_ge _ _)) by lia. unfold SetContents.
  assert (Forall update_ok (snd g)) as Hus' by (eapply Forall_impl; [exact Hus|]; by intros ? []).
  destruct (InsertInto_batch (snd g) (fst g) _ om (recovered_mem _ _ _ Hst)) as (mem' & -> & Hm'); try done; [|lia|].
  { eapply Forall_impl; [exact Hb|]. cbn. intros; lia. }
  cbn [mbind option_bind]. unfold MaybeIgnoreError. cbn [is_ok orb negb]. unfold kMaxSequenceNumber in Hg2.
  rewrite Sequence_batch, Count_batch, w64_small by (unfold is64; lia || done). fold (last_of g).
  assert ((if rec_max st <? last_of g then last_of g else rec_max st) = Z.max (rec_max st) (last_of g)) as ->
    by (destruct (Z.ltb_spec (rec_max st) (last_of g)); lia).
  pose proof (group_bound b g om Hbg Hb) as Hb'. destruct (_ <? ApproximateMemoryUsage _).
  - eexists _, (ov ++ om ++ number (fst g) (snd g)), []. split; [done|]. rewrite app_nil_r. split_and!; try done.
    split; [|done]. exact (WriteLevel0Table_holds mem' _ ov _ (proj1 Hst) Hm' (sorted_lt _ _ Hs)).
  - eexists _, ov, (om ++ number (fst g) (snd g)). split; [done|]. split_and!; try done. split; [apply Hst|done].
Qed.

(** The loop on the records of a log that the reader gets through without complaint. *)
Lemma RecoverLogFile_loop_groups gs fuel r r' st ov om b e :
  read_records fuel r = Some (group_records gs, r') -> reported_ r' = [] ->
  Forall wf_group gs -> chain_groups b gs e -> Forall (fun o => MemTable.op_seq o <= b) om ->
  recovered st ov om -> StronglySorted seq_lt ((ov ++ om) ++ group_ops gs) ->
  exists st' ov' om', RecoverLogFile_loop ApproximateMemoryUsage write_buffer_size paranoid_checks fuel r OK st = Some (OK, st')
    /\ recovered st' ov' om' /\ ov' ++ om' = (ov ++ om) ++ group_ops gs
    /\ rec_max st <= rec_max st' <= Z.max (rec_max st) e
    /\ Forall (fun o => MemTable.op_seq o <= rec_max st') (group_ops gs).
Proof.
  revert fuel r st ov om b. induction gs as [|g gs IH]; intros fuel r st ov om b Hrd Hrep Hwf Hch Hb Hst Hsort;
    (destruct fuel as [|fuel]; [done|]); cbn [read_records group_records map] in *;
    apply bind_Some in Hrd as ([res r1] & Er & Hrd).
  - destruct res as [rec|]; [apply bind_Some in Hrd as ([? ?] & _ & ?); done|].
    apply Some_inj, pair_eq in Hrd as [_ <-]. cbn [RecoverLogFile_loop]. rewrite Er. cbn [mbind option_bind].
    rewrite reported_status_ok by done. exists st, ov, om. unfold group_ops. cbn [map concat]. rewrite app_nil_r.
    split_and!; try done; lia.
  - destruct res as [rec|]; [|done]. apply bind_Some in Hrd as ([recs r2] & Hrd & E).
    apply Some_inj, pair_eq in E as [E <-]. injection E as -> ->.
    apply Forall_cons in Hwf as [Hg Hwf]. cbn [chain_groups] in Hch. destruct Hch as [Hbg Hch]. fold (last_of g) in Hch.
    assert (group_ops (g :: gs) = number (fst g) (snd g) ++ group_ops gs) as Eops by done.
    rewrite Eops in Hsort |- *. rewrite app_assoc, <- (app_assoc ov om) in Hsort.
    destruct (RecoverLogFile_loop_record g fuel r r1 st ov om b) as (st1 & ov1 & om1 & -> & Hst1 & E1 & Hmax1 & Hb1); try done.
    { by eapply read_records_reported. }
    { by apply StronglySorted_app in Hsort as (_ & ? & _). }
    destruct (IH fuel r1 st1 ov1 om1 (last_of g)) as (st' & ov' & om' & -> & Hst' & E & Hmax & Hall); try done.
    { by rewrite E1. }
    pose proof (chain_groups_le _ _ _ Hwf Hch). exists st', ov', om'. split_and!; try done; try lia.
    + rewrite E, E1. by rewrite <- !app_assoc.
    + apply Forall_app. split; [|done]. eapply Forall_impl; [apply number_seq|]. cbn. unfold last_of in *. intros; lia.
Qed.

(** A log file, cut anywhere. *)
Lemma RecoverLogFile_cut w e ops v ov max k :
  log_inv w e ops -> holds v ov -> StronglySorted seq_lt (ov ++ ops) -> 0 <= k <= size (dest_ w) ->
  exists v' n max', RecoverLogFile ApproximateMemoryUsage write_buffer_size paranoid_checks (take (Z.to_nat k) (dest_ w)) v max
      = Some (OK, v', max')
    /\ holds v' (ov ++ take n ops) /\ (k = size (dest_ w) -> take n ops = ops)
    /\ max <= max' <= Z.max max e /\ Forall (fun o => MemTable.op_seq o <= max') (take n ops).
Proof.
  intros (gs & Hwf & Hch & <- & Hw & _) Hv Hs Hk.
  destruct (read_log_cut (group_records gs) w k (bytes_group_records gs Hwf) Hw Hk) as (j & r & Hrd & Hrep & Hj & Hall).
  unfold read_log in Hrd. unfold group_records in Hrd. rewrite firstn_map in Hrd.
  assert (chain_groups 0 (take j gs) e) as Hch'.
  { clear -Hch Hwf. revert j Hch. generalize 0. induction Hwf as [|g gs Hg Hw IH]; intros b j Hch; [by rewrite take_nil|].
    destruct j as [|j]; cbn in *; [|naive_solver]. destruct Hch as [H1 H2]. apply chain_groups_le in H2; [lia|done]. }
  assert (exists n, group_ops (take j gs) = take n (group_ops gs)) as [n En].
  { exists (length (group_ops (take j gs))). 
    assert (group_ops gs = group_ops (take j gs) ++ group_ops (drop j gs)) as ->; [|by rewrite take_app_length].
    unfold group_ops. by rewrite <- concat_app, <- map_app, take_drop. }
  assert (StronglySorted seq_lt ((ov ++ []) ++ group_ops (take j gs))) as Hs'.
  { rewrite app_nil_r, En. rewrite <- (take_drop n (group_ops gs)), app_assoc in Hs.
    by apply StronglySorted_app in Hs as (_ & ? & _). }
  destruct (RecoverLogFile_loop_groups (take j gs) _ _ r {| rec_mem := None; rec_version := v; rec_max := max |} ov [] 0 e
    Hrd Hrep) as (st & ov' & om' & E & [Hv' Hm'] & Eo & Hmax & Hle); try done; [by apply Forall_take|].
  rewrite app_nil_r in Eo. unfold RecoverLogFile. rewrite E. cbn [mbind option_bind is_ok rec_max] in *.
  rewrite En in Eo, Hle.
  assert (k = size (dest_ w) -> take n (group_ops gs) = group_ops gs) as Hfull.
  { intros ->. rewrite <- En. assert (length gs <= j)%nat; [|by rewrite take_ge].
    unfold group_records in Hall. rewrite length_map in Hall. apply (Hall (length gs) w); [done| |done].
    by rewrite <- (length_map (fun g => batch (fst g) (snd g)) gs), firstn_all. }
  destruct (rec_mem st) as [m|].
  - eexists _, n, _. split; [done|]. split_and!; try done; try lia. rewrite <- Eo. apply WriteLevel0Table_holds; [done|done|].
    apply sorted_lt. rewrite Eo. by rewrite <- En, <- (app_nil_r ov).
  - eexists _, n, _. split; [done|]. split_and!; try done; try lia. rewrite <- Eo, Hm', app_nil_r. done.
Qed.

Lemma Recover_logs_snoc l f s v m s1 v1 m1 x :
  Recover_logs ApproximateMemoryUsage write_buffer_size paranoid_checks l s v m = Some (s1, v1, m1) ->
  RecoverLogFile ApproximateMemoryUsage write_buffer_size paranoid_checks f v1 m1 = Some x ->
  Recover_logs ApproximateMemoryUsage write_buffer_size paranoid_checks (l ++ [f]) s v m = Some x.
Proof.
  intros H Hf. revert s v m H. induction l as [|f' l IH]; intros s v m H; cbn [app Recover_logs] in *.
  - apply Some_inj, pair_eq in H as [[_ ->]%pair_eq ->]. rewrite Hf. by destruct x as [[? ?] ?].
  - apply bind_Some in H as ([[s2 v2] m2] & -> & H). cbn [mbind option_bind]. by apply IH.
Qed.

(** The status of a recovery is that of the last log file, whatever the others gave. *)
Theorem recovery_error_lost (logs : list (list Z)) (file : list Z) v seq s v1 max1 v2 max2 :
  Recover_logs ApproximateMemoryUsage write_buffer_size paranoid_checks logs OK v 0 = Some (s, v1, max1) ->
  RecoverLogFile ApproximateMemoryUsage write_buffer_size paranoid_checks file v1 max1 = Some (OK, v2, max2) ->
  exists db, Open ApproximateMemoryUsage write_buffer_size paranoid_checks v seq (logs ++ [file]) = Some (OK, db) /\ current db = v2.
Proof.
  intros H Hf. unfold Open. rewrite (Recover_logs_snoc _ _ _ _ _ _ _ _ _ H Hf). by eexists.
Qed.

(** The tables of a database, its older log whole and its current log cut at byte [k]. *)
Lemma Open_cut room db qs ov oi om pend k :
  db_inv room db qs ov oi om pend -> 0 <= k <= size (dest_ (log_ db)) ->
  exists db' n, Open ApproximateMemoryUsage write_buffer_size paranoid_checks (current db) (manifest_sequence db)
      (old_logs db ++ [take (Z.to_nat k) (dest_ (log_ db))]) = Some (OK, db')
    /\ (k = size (dest_ (log_ db)) -> take n (om ++ pend) = om ++ pend)
    /\ returned db' = [] /\ 0 <= LastSequence db' <= LastSequence db + Z.of_nat (length pend)
    /\ db_inv (kMaxSequenceNumber - LastSequence db') db' [] (ov ++ oi ++ take n (om ++ pend)) [] [] [].
Proof.
  intros [[Hcs Hcv Hci Hcm] Hl Ho Hm Hs Hd Hq Hw Hr Hf] Hk.
  assert (LastSequence db + Z.of_nat (length pend) <= kMaxSequenceNumber) as Hpend.
  { unfold phase_inv in Hf. destruct (front db); cbn zeta in Hf; try (destruct Hf as [-> _]; cbn; lia).
    destruct Hf as (_ & _ & -> & _). rewrite length_number. pose proof (group_updates_take qs group).
    destruct (is_ok status); cbn [length]; lia. }
  assert (exists v max, Recover_logs ApproximateMemoryUsage write_buffer_size paranoid_checks (old_logs db) OK (current db) 0
      = Some (OK, v, max)
    /\ holds v (ov ++ oi) /\ 0 <= max <= LastSequence db /\ Forall (fun o => MemTable.op_seq o <= max) oi)
    as (v1 & max1 & E1 & Hv1 & Hmax1 & Hoi).
  { destruct (imm_ db) as [imm|].
    - destruct Ho as (w & e & -> & He & Hw'). cbn [Recover_logs].
      assert (StronglySorted seq_lt (ov ++ oi)) as Hs1
        by (rewrite app_assoc in Hcs; by apply StronglySorted_app in Hcs as (_ & ? & _)).
      destruct (RecoverLogFile_cut w e oi (current db) ov 0 (size (dest_ w)) Hw' Hcv Hs1) as (v & n & max & E & Hv & Hn & Hmax & Hle);
        [unfold size; lia|]. unfold size in E at 1. rewrite Nat2Z.id, firstn_all in E. rewrite E. cbn [mbind option_bind].
      rewrite (Hn eq_refl) in *. eexists _, _. split; [done|]. split_and!; try done; lia.
    - rewrite Ho, Hci. cbn. rewrite app_nil_r. eexists _, _. split_and!; try done; lia. }
  destruct (RecoverLogFile_cut (log_ db) _ (om ++ pend) v1 (ov ++ oi) max1 k Hl Hv1) as (v & n & max & E & Hv & Hn & Hmax & Hle);
    [by rewrite <- app_assoc|done|].
  assert (Recover_logs ApproximateMemoryUsage write_buffer_size paranoid_checks
    (old_logs db ++ [take (Z.to_nat k) (dest_ (log_ db))]) OK (current db) 0 = Some (OK, v, max)) as Er.
  { by eapply Recover_logs_snoc. }
  unfold Open. rewrite Er. cbn [mbind option_bind is_ok andb].
  assert ((if manifest_sequence db <? max then max else manifest_sequence db) = Z.max (manifest_sequence db) max) as ->
    by (destruct (Z.ltb_spec (manifest_sequence db) max); lia).
  assert (StronglySorted seq_lt (ov ++ oi ++ take n (om ++ pend))) as Hsn.
  { replace (ov ++ oi ++ om ++ pend) with ((ov ++ oi ++ take n (om ++ pend)) ++ drop n (om ++ pend)) in Hcs
      by (by rewrite <- !app_assoc, take_drop). by apply StronglySorted_app in Hcs as (_ & ? & _). }
  eexists _, n. split; [done|]. split; [done|]. split; [done|]. split; [cbn; lia|].
  split; cbn [current imm_ mem_ log_ LastSequence manifest_sequence old_logs writers_ app length]; try done; try lia.
  - split; cbn; try done; [by rewrite app_nil_r|by rewrite app_assoc|apply MemTable.new_MemTable_inv].
  - apply new_log_inv. lia.
  - rewrite app_nil_r. rewrite !Forall_app. split_and!.
    + eapply Forall_impl; [exact Hd|]. cbn. intros; lia.
    + eapply Forall_impl; [exact Hoi|]. cbn. intros; lia.
    + eapply Forall_impl; [exact Hle|]. cbn. intros; lia.
  - rewrite !Forall_app. split_and!.
    + eapply Forall_impl; [exact Hd|]. cbn. intros; lia.
    + eapply Forall_impl; [exact Hoi|]. cbn. intros; lia.
    + eapply Forall_impl; [exact Hle|]. cbn. intros; lia.
  - cbn [group_updates map concat length]. unfold group_updates. cbn. lia.
Qed.

(** ** Sessions *)

Lemma new_reached : reached [] kMaxSequenceNumber new_DB [] [] [] [] [].
Proof. exists [], []. split_and!; try done. apply new_DB_inv. Qed.

(** C11: A read sees exactly the writes that have returned [OK].  Whatever the clients, the
    background thread and the scheduler do, after any run the value of a key is the one that
    the updates of these writes give when they are applied to an empty map in the order of the
    queue: groups, the switch of tables and their way to disk are not visible, and a group that
    is in the log and in the table but has not returned is not visible either. *)
Theorem reads_see_returned_writes (acts : list action) (db : DB) (k : list Z) :
  run ApproximateMemoryUsage write_buffer_size acts new_DB = Some db ->
  Forall action_ok acts -> total_cost acts <= kMaxSequenceNumber -> Z.of_nat (length k) + 8 < 0x1_0000_0000 ->
  Get None k db = Some (value_map (committed (returned db) (enqueued acts)) !! k).
Proof.
  intros H Hok Hc Hk.
  destruct (run_reached _ _ _ _ _ _ _ _ _ _ _ _ new_reached H Hok Hc) as (pend & ov & oi & om & Hr & _).
  exact (reached_latest _ _ _ _ _ _ _ _ k Hr Hk).
Qed.


(** C12: Recovery after a crash.  Stop a run anywhere, also inside a write, and let the crash
    cut the current log file after any number [k] of its bytes: opening the database succeeds,
    and it holds a prefix of the updates that were written, in the order of the queue.  With
    the whole log on disk, everything that had returned [OK] is in this prefix.  The opened
    database works on from there: reads in any later run see the prefix and the writes that
    have returned since. *)
Theorem crash_recovery (acts : list action) (db : DB) (k : Z) :
  run ApproximateMemoryUsage write_buffer_size acts new_DB = Some db ->
  Forall action_ok acts -> total_cost acts <= kMaxSequenceNumber -> 0 <= k <= size (dest_ (log_ db)) ->
  exists db' us,
    Open ApproximateMemoryUsage write_buffer_size paranoid_checks (current db) (manifest_sequence db)
      (old_logs db ++ [take (Z.to_nat k) (dest_ (log_ db))]) = Some (OK, db')
    /\ us `prefix_of` committed (returned db) (enqueued acts)
          ++ group_updates (drop (length (returned db)) (enqueued acts))
    /\ (k = size (dest_ (log_ db)) -> committed (returned db) (enqueued acts) `prefix_of` us)
    /\ forall acts' db'' key, run ApproximateMemoryUsage write_buffer_size acts' db' = Some db'' ->
          Forall action_ok acts' -> total_cost acts + total_cost acts' <= kMaxSequenceNumber ->
          Z.of_nat (length key) + 8 < 0x1_0000_0000 ->
          Get None key db'' = Some (value_map (us ++ committed (returned db'') (enqueued acts')) !! key).
Proof.
  intros H Hok Hc Hk.
  destruct (run_reached _ _ _ _ _ _ _ _ _ _ _ _ new_reached H Hok Hc) as (pend & ov & oi & om & Hr & _).
  destruct Hr as (dn & qs & Ew & Hlen & Hcom & Hinv). cbn [app] in Ew, Hcom. rewrite Ew in *.
  assert (committed (returned db) (dn ++ qs) = committed (returned db) dn) as Ec.
  { rewrite <- (app_nil_r (returned db)) at 1. rewrite committed_app by done. unfold committed at 2. cbn. apply app_nil_r. }
  rewrite Ec, Hlen, drop_app_length.
  assert (map update_of pend `prefix_of` group_updates qs) as Hp.
  { pose proof (d_front _ _ _ _ _ _ _ Hinv) as Hf. unfold phase_inv in Hf.
    destruct (front db); cbn zeta in Hf; try (destruct Hf as [-> _]; apply prefix_nil).
    destruct Hf as (_ & _ & -> & _). rewrite update_of_number. destruct (is_ok status); [|apply prefix_nil].
    exists (group_updates (drop group qs)). by rewrite <- group_updates_app, take_drop. }
  assert (LastSequence db + Z.of_nat (length pend) <= total_cost acts) as Hseq.
  { pose proof (d_room _ _ _ _ _ _ _ Hinv). pose proof (prefix_length _ _ Hp) as Hl. rewrite length_map in Hl. lia. }
  destruct (Open_cut _ _ _ _ _ _ _ k Hinv Hk) as (db' & n & Eo & Hfull & Hret & Hls & Hinv').
  exists db', (map update_of (ov ++ oi ++ take n (om ++ pend))). split; [done|]. split_and!.
  - assert (map update_of (ov ++ oi ++ om ++ pend) = committed (returned db) dn ++ map update_of pend) as E.
    { rewrite <- Hcom, <- map_app. by rewrite <- !app_assoc. }
    etrans; [|apply prefix_app; exact Hp]. rewrite <- E. exists (map update_of (drop n (om ++ pend))).
    rewrite <- map_app. by rewrite <- !app_assoc, take_drop.
  - intros Ek. rewrite (Hfull Ek), <- Hcom. exists (map update_of pend). rewrite <- map_app. by rewrite <- !app_assoc.
  - intros acts' db'' key Hrun Hok' Hc' Hkey.
    assert (reached (map update_of (ov ++ oi ++ take n (om ++ pend))) (kMaxSequenceNumber - LastSequence db') db' []
      [] (ov ++ oi ++ take n (om ++ pend)) [] []) as Hr'.
    { exists [], []. rewrite Hret. split_and!; try done. by rewrite !app_nil_r. }
    destruct (run_reached _ _ _ _ _ _ _ _ _ _ _ _ Hr' Hrun Hok' ltac:(lia)) as (pend2 & ov2 & oi2 & om2 & Hr2 & _).
    exact (reached_latest _ _ _ _ _ _ _ _ key Hr2 Hkey).
Qed.

(** ** Progress *)

(** The steps of the writer in front and of the background thread. *)
Definition system (act : action) : Prop :=
  match act with Start | Turn true | Log | Finish | Background => True | _ => False end.
Definition ready (p : phase) : Prop :=
  match p with Logging _ _ _ _ | Applied _ _ _ _ => True | _ => False end.

(** Level 0 stays below the limit at which writes stop, also with the table that is set aside. *)
Definition level0_room (db : DB) : Prop :=
  NumLevelFiles (current db) 0 + (match imm_ db with Some _ => 1 | None => 0 end) < kL0_StopWritesTrigger.

(** The writer in front can get to [P] without any help from clients. *)
Definition leads (db : DB) (P : DB -> Prop) : Prop :=
  exists acts db', Forall system acts /\ run ApproximateMemoryUsage write_buffer_size acts db = Some db' /\ P db'.

Lemma leads_now db (P : DB -> Prop) : P db -> leads db P.
Proof. intros HP. by exists [], db. Qed.
Lemma leads_step act db db1 P :
  system act -> exec ApproximateMemoryUsage write_buffer_size act db = Some db1 -> leads db1 P -> leads db P.
Proof.
  intros Ha He (acts & db' & Hs & Hr & HP). exists (act :: acts), db'. split; [by constructor|]. split; [|done].
  unfold run. cbn [foldl mbind option_bind]. by rewrite He.
Qed.

Definition at_front (db : DB) (w : QWriter) (ws : list QWriter) (ret : list Status) (bg : Status) : Prop :=
  writers_ db = w :: ws /\ returned db = ret /\ bg_error_ db = bg.
(** Without a background error, a batch is on its way to the log. *)
Definition is_ready (w : QWriter) (ws : list QWriter) (ret : list Status) (bg : Status) (db : DB) : Prop :=
  ready (front db) /\ at_front db w ws ret bg
  /\ (is_ok bg = true -> is_Some (qw_batch w) -> exists u t l g, front db = Logging u t l g).

Lemma grouped_ready st db w ws ret bg :
  at_front db w ws ret bg -> st = OK \/ st = bg ->
  exists db', Write_grouped st db = Some db' /\ is_ready w ws ret bg db'.
Proof.
  intros (Hw & Hr & Hb) Hst. unfold Write_grouped, is_ready, at_front. rewrite Hw. cbn [head mbind option_bind].
  destruct (is_ok st) eqn:Es.
  - destruct (qw_batch w) as [b|].
    + destruct (BuildBatchGroup _ _ _ _) as [[u [|]] g]; (eexists; split; [done|]); cbn; naive_solver.
    + eexists. split; [done|]. cbn. naive_solver.
  - eexists. split; [by destruct (qw_batch w)|]. cbn. split_and!; try done. intros Hbg. by destruct Hst; subst; rewrite ?Hbg in Es.
Qed.

Section room.
Context (small_new : ApproximateMemoryUsage MemTable.new_MemTable <= write_buffer_size).

(** What keeps a turn of the loop of [MakeRoomForWrite] from waiting. *)
Definition unblocked (bg : Status) (db : DB) : Prop :=
  is_ok bg = false \/ (imm_ db = None /\ NumLevelFiles (current db) 0 < kL0_StopWritesTrigger).

(** A turn that does not wait is ready, or has used up its delay, or has made a new table. *)
Lemma turn_progress db f d w ws ret bg :
  at_front db w ws ret bg -> front db = Making f d ->
  unblocked bg db \/ (f = false /\ ApproximateMemoryUsage (mem_ db) <= write_buffer_size) ->
  exists db', exec ApproximateMemoryUsage write_buffer_size (Turn true) db = Some db' /\
    (is_ready w ws ret bg db'
     \/ (d = true /\ front db' = Making f false /\ imm_ db' = imm_ db /\ current db' = current db /\ mem_ db' = mem_ db
         /\ at_front db' w ws ret bg)
     \/ ((f = true \/ write_buffer_size < ApproximateMemoryUsage (mem_ db))
         /\ front db' = Making false d /\ mem_ db' = MemTable.new_MemTable /\ at_front db' w ws ret bg)).
Proof.
  intros Hf Ef Hor. cbn [exec]. rewrite Ef. unfold MakeRoomForWrite_turn.
  destruct (negb (is_ok (bg_error_ db))) eqn:Eb.
  { destruct (grouped_ready (bg_error_ db) db _ _ _ _ Hf) as (db' & -> & ?); [right; apply Hf|]. exists db'. split; [done|]. by left. }
  destruct (d && _) eqn:Ed.
  { apply andb_prop in Ed as [-> _]. eexists. split; [done|]. right; left. by cbn. }
  destruct (negb f && _) eqn:Er.
  { destruct (grouped_ready OK db _ _ _ _ Hf) as (db' & -> & ?); [by left|]. exists db'. split; [done|]. by left. }
  destruct Hor as [[Hbg|[Ei Hn]]|[-> Hu]]; [| |cbn in Er; apply Z.leb_gt in Er; lia].
  { destruct Hf as (_ & _ & E). rewrite E, Hbg in Eb. done. }
  rewrite Ei, (proj2 (Z.leb_gt _ _)) by lia. cbn [negb].
  eexists. split; [done|]. right; right. split_and!; try done; [|apply Hf..].
  destruct f; [by left|]. right. cbn in Er. by apply Z.leb_gt in Er.
Qed.

Lemma room_ready db d w ws ret bg :
  at_front db w ws ret bg -> front db = Making false d -> ApproximateMemoryUsage (mem_ db) <= write_buffer_size ->
  leads db (is_ready w ws ret bg).
Proof.
  intros Hf Ef Hu. destruct (turn_progress db false d w ws ret bg Hf Ef) as (db1 & E1 & H1); [by right|].
  eapply leads_step; [|exact E1|]; [done|].
  destruct H1 as [H1|[(-> & Ef1 & _ & _ & Em & Hf1)|([?|?] & _)]]; [by apply leads_now| |done|lia].
  destruct (turn_progress db1 false false w ws ret bg Hf1 Ef1) as (db2 & E2 & H2); [right; by rewrite Em|].
  eapply leads_step; [|exact E2|]; [done|].
  destruct H2 as [H2|[(? & _)|([?|?] & _)]]; [by apply leads_now|done|done|rewrite Em in *; lia].
Qed.

Lemma make_room_ready db f d w ws ret bg :
  at_front db w ws ret bg -> front db = Making f d -> unblocked bg db -> leads db (is_ready w ws ret bg).
Proof.
  intros Hf Ef Hun. destruct (turn_progress db f d w ws ret bg Hf Ef) as (db1 & E1 & H1); [by left|].
  eapply leads_step; [|exact E1|]; [done|].
  destruct H1 as [H1|[(-> & Ef1 & Ei1 & Ec1 & _ & Hf1)|(_ & Ef1 & Em & Hf1)]]; [by apply leads_now| |].
  - destruct (turn_progress db1 f false w ws ret bg Hf1 Ef1) as (db2 & E2 & H2); [left; unfold unblocked in *; congruence|].
    eapply leads_step; [|exact E2|]; [done|].
    destruct H2 as [H2|[(? & _)|(_ & Ef2 & Em & Hf2)]]; [by apply leads_now|done|].
    apply (room_ready db2 false); try done. by rewrite Em.
  - apply (room_ready db1 d); try done. by rewrite Em.
Qed.

(** A table that is set aside can go to disk, unless there is an error, which ends the write. *)
Lemma imm_gone db f d w ws ret bg :
  at_front db w ws ret bg -> front db = Making f d -> level0_room db -> leads db (is_ready w ws ret bg).
Proof.
  intros Hf Ef Hroom. destruct (is_ok bg) eqn:Eb; [|by apply (make_room_ready _ f d); try left].
  assert (is_ok (bg_error_ db) = true) as Eok by (destruct Hf as (_ & _ & ->); done).
  unfold level0_room in Hroom. destruct (imm_ db) as [imm|] eqn:Ei.
  - eapply (leads_step Background).
    + done.
    + cbn [exec]. unfold BackgroundCall, CompactMemTable. rewrite Eok, Ei. done.
    + apply (make_room_ready _ f d); [exact Hf|exact Ef|]. right. cbn. split; [done|].
      pose proof (WriteLevel0Table_files imm (current db)). lia.
  - apply (make_room_ready _ f d); [exact Hf|exact Ef|]. right. split; [done|]. lia.
Qed.

Lemma front_ready db w ws ret bg :
  at_front db w ws ret bg -> ~ ready (front db) -> level0_room db -> leads db (is_ready w ws ret bg).
Proof.
  intros Hf Hn Hroom. destruct (front db) as [|f d| |] eqn:Ef; cbn in Hn; try tauto.
  - eapply (leads_step Start); [done|cbn; unfold Write_start; rewrite (proj1 Hf), Ef; done|].
    by apply (imm_gone _ (match qw_batch w with None => true | _ => false end)
      (negb (match qw_batch w with None => true | _ => false end))).
  - by eapply imm_gone.
Qed.
End room.

Lemma run_app acts1 acts2 db db1 :
  run ApproximateMemoryUsage write_buffer_size acts1 db = Some db1 ->
  run ApproximateMemoryUsage write_buffer_size (acts1 ++ acts2) db = run ApproximateMemoryUsage write_buffer_size acts2 db1.
Proof. intros H. unfold run in *. by rewrite foldl_app, H. Qed.

Lemma system_ok act : system act -> action_ok act /\ action_cost act = 0.
Proof. by destruct act as [| |[]| | | | |]. Qed.
Lemma system_run_ok acts : Forall system acts -> Forall action_ok acts /\ total_cost acts = 0.
Proof.
  induction 1 as [|act l Ha Hl [IH1 IH2]]; [done|]. destruct (system_ok act Ha) as [? Hz].
  split; [by constructor|]. change (action_cost act + total_cost l = 0). lia.
Qed.
Lemma system_enqueued acts : Forall system acts -> enqueued acts = [].
Proof. induction 1 as [|act l Ha Hl IH]; [done|]. unfold enqueued in *. cbn. by destruct act. Qed.

(** C28: Writers do not get stuck.  After any run, if a writer waits in the queue, the writer in
    front and the background thread can go on by themselves until it has returned: the steps
    exist, whatever state the loop of [MakeRoomForWrite] is in and also after a background error,
    which returns to the writer.  Two conditions: an empty table fits into the write buffer, and
    in the state at hand the files of level 0, with the table that is set aside, are below the
    limit at which writes stop until tables are merged. *)
Theorem writers_progress (acts : list action) (db : DB) :
  run ApproximateMemoryUsage write_buffer_size acts new_DB = Some db ->
  Forall action_ok acts -> total_cost acts <= kMaxSequenceNumber -> writers_ db <> [] ->
  ApproximateMemoryUsage MemTable.new_MemTable <= write_buffer_size -> level0_room db ->
  exists acts' db', Forall system acts' /\ run ApproximateMemoryUsage write_buffer_size acts' db = Some db'
    /\ (length (returned db) < length (returned db'))%nat.
Proof.
  intros H Hok Hc Hw Hnew Hroom.
  destruct (run_reached _ _ _ _ _ _ _ _ _ _ _ _ new_reached H Hok Hc) as (pend & ov & oi & om & Hr & _).
  destruct (writers_ db) as [|w ws] eqn:Ew; [done|].
  assert (leads db (fun db1 => ready (front db1) /\ returned db1 = returned db)) as (acts1 & db1 & Hs1 & H1 & Hready & Hret1).
  { destruct (front db) as [| | |] eqn:Ef; try (apply leads_now; by rewrite Ef);
      (destruct (front_ready Hnew db w ws (returned db) (bg_error_ db)) as (acts1 & db1 & Hs1 & H1 & Hready & (_ & Hret1 & _) & _);
        [done|rewrite Ef; cbn; tauto|done|by exists acts1, db1]). }
  destruct (system_run_ok acts1 Hs1) as [Hok1 Hc1].
  destruct (run_reached _ _ _ _ _ _ _ _ _ _ _ _ Hr H1 Hok1 ltac:(lia)) as (p1 & v1 & i1 & m1 & (dn & qs & _ & _ & _ & Hi1) & _).
  assert (forall db2 qs2 ov2 oi2 om2 p2 st t ls g room, db_inv room db2 qs2 ov2 oi2 om2 p2 -> front db2 = Applied st t ls g ->
    exists db3, Write_finish db2 = Some db3 /\ (length (returned db2) < length (returned db3))%nat) as Hfin.
  { intros db2 qs2 ov2 oi2 om2 p2 st t ls g room Hi2 Ef.
    destruct (Write_finish_inv _ _ _ _ _ _ _ _ _ _ _ Hi2 Ef) as (db3 & E3 & Hg & Hret & _). exists db3. split; [done|].
    rewrite Hret, length_app, length_replicate. lia. }
  destruct (front db1) as [| |u t ls g|st t ls g] eqn:Ef; try done.
  - destruct (Write_log_inv _ _ _ _ _ _ _ _ _ _ _ Hi1 Ef) as (db2 & p2 & E2 & Ef2 & [Hret2 _] & Hi2).
    destruct (Hfin _ _ _ _ _ _ _ _ _ _ _ Hi2 Ef2) as (db3 & E3 & Hlt).
    exists (acts1 ++ [Log; Finish]), db3. split; [apply Forall_app; by repeat constructor|].
    rewrite (run_app _ _ _ _ H1). unfold run. cbn [foldl mbind option_bind exec]. rewrite E2. cbn [mbind option_bind].
    rewrite E3. split; [done|]. rewrite Hret2, Hret1 in Hlt. done.
  - destruct (Hfin _ _ _ _ _ _ _ _ _ _ _ Hi1 Ef) as (db3 & E3 & Hlt).
    exists (acts1 ++ [Finish]), db3. split; [apply Forall_app; by repeat constructor|].
    rewrite (run_app _ _ _ _ H1). unfold run. cbn [foldl mbind option_bind exec]. rewrite E3.
    split; [done|]. rewrite Hret1 in Hlt. done.
Qed.


(** ** Every schedule *)









End props.

(** ** Tables in memory, for concrete runs: a version is a list of written tables *)

Definition tables_Get (v : list memtable) (k : list Z) (s : Z) : MemTable.get_result :=
  foldr (fun mem r => match MemTable.Get k s mem with Some MemTable.Absent | None => r | Some a => a end)
    MemTable.Absent v.

Definition tables_hold (v : list memtable) (ops : list MemTable.op) : Prop :=
  exists opss, Forall2 MemTable.mem_inv v opss /\ ops = concat (reverse opss).

Lemma tables_Get_hold v ops k s :
  tables_hold v ops -> is_seq s -> Z.of_nat (length k) + 8 < 0x1_0000_0000 ->
  tables_Get v k s = MemTable.answer (MemTable.newest k s ops).
Proof.
  intros (opss & Hv & ->) Hs Hk. induction Hv as [|mem l v opss Hm Hv IH]; [done|].
  cbn [tables_Get foldr]. rewrite (MemTable.Get_spec k s mem l Hm Hs Hk). fold (tables_Get v k s). rewrite IH.
  rewrite reverse_cons, concat_app. cbn [concat]. rewrite app_nil_r, newest_app.
  destruct (MemTable.newest k s l) as [o|]; cbn; [|done]. by destruct (_ =? _).
Qed.

#[export] Instance memory_tables : TableStore.
Proof.
  refine {| Version := list memtable; new_Version := []; Version_Get := tables_Get;
            NumLevelFiles v level := if level =? 0 then Z.of_nat (length v) else 0;
            WriteLevel0Table mem v := mem :: v; holds := tables_hold |}.
  - exists []. split; [constructor|done].
  - intros. by apply tables_Get_hold.
  - intros mem v ops ops' (opss & Hv & ->) Hm _. exists (ops' :: opss). split; [by constructor|].
    rewrite reverse_cons, concat_app. cbn. by rewrite app_nil_r.
  - intros mem v. cbn [Z.eqb length]. lia.
Defined.

#[local] Transparent AddRecord batch ReadRecord.

(** ** A concrete database *)

Definition demo_usage (mem : memtable) : Z := Z.of_nat (length (arena_ mem)).

(** Two writers, one group; then a third write, for which a new table is made; the old one
    goes to disk. *)
Definition demo_acts : list action :=
  [Enqueue (Some [UPut [1] [10]; UPut [2] [20]]) false; Enqueue (Some [UDelete [1]; UPut [3] [30]]) false;
   Start; Turn true; Log; Finish].
Definition demo_acts2 : list action :=
  [Enqueue (Some [UPut [1] [11]]) false; Start; Turn true; Turn true; Compact; Log; Finish].
Definition demo_db : DB := default new_DB (run demo_usage 4 demo_acts new_DB).

Lemma run_default (r : option DB) :
  match r with Some _ => true | None => false end = true -> r = Some (default new_DB r).
Proof. by destruct r. Qed.

Lemma demo_run : run demo_usage 4 demo_acts new_DB = Some demo_db.
Proof. apply run_default. vm_compute. reflexivity. Qed.
Lemma demo_ok : Forall action_ok (demo_acts ++ demo_acts2).
Proof. repeat constructor; cbn; unfold is8; lia. Qed.
Lemma demo_ok1 : Forall action_ok demo_acts.
Proof. pose proof demo_ok as H. by apply Forall_app in H as [H _]. Qed.

Lemma reads_see_returned_writes_witness :
  Get None [1] demo_db = Some None /\ Get None [3] demo_db = Some (Some [30]).
Proof.
  split.
  - rewrite (reads_see_returned_writes demo_usage 4 demo_acts demo_db [1] demo_run demo_ok1); [|done|done].
    vm_compute. reflexivity.
  - rewrite (reads_see_returned_writes demo_usage 4 demo_acts demo_db [3] demo_run demo_ok1); [|done|done].
    vm_compute. reflexivity.
Defined.


Lemma crash_recovery_witness :
  exists db', Open demo_usage 4 true (current demo_db) (manifest_sequence demo_db)
    (old_logs demo_db ++ [take 20 (dest_ (log_ demo_db))]) = Some (OK, db').
Proof.
  destruct (crash_recovery demo_usage 4 true demo_acts demo_db 20 demo_run demo_ok1) as (db' & us & H & _); [done| |by exists db'].
  vm_compute. split; discriminate.
Defined.

Lemma writers_progress_witness :
  exists acts' db', Forall system acts'
    /\ run demo_usage 4 acts' (enqueue {| qw_batch := Some (build [UPut [1] [10]]); qw_sync := false |} new_DB) = Some db'
    /\ (0 < length (returned db'))%nat.
Proof.
  apply (writers_progress demo_usage 4) with (acts := [Enqueue (Some [UPut [1] [10]]) false]).
  - reflexivity.
  - repeat constructor; cbn; unfold is8; lia.
  - vm_compute. discriminate.
  - vm_compute. discriminate.
  - vm_compute. discriminate.
  - vm_compute. reflexivity.
Defined.


(** ** An error that recovery forgets *)

(** A log file with one update, and the same file with a damaged byte in the update. *)
Definition put_log : list Z := dest_ (default new_Writer (AddRecord (batch 1 [UPut [1] [10]]) new_Writer)).
Definition damaged_log : list Z := <[(length put_log - 1)%nat := 11]> put_log.
Definition opened_get (logs : list (list Z)) (k : list Z) : option (Status * option (option (list Z))) :=
  '(st, db) ← Open demo_usage 4 true new_Version 0 logs; Some (st, Get None k db).

(** With [paranoid_checks] a database with the damaged log alone does not open, but with an
    empty log behind it, it does, and the update is lost without an error. *)
Example damaged_log_lost :
  opened_get [put_log] [1] = Some (OK, Some (Some [10]))
  /\ (fst <$> opened_get [damaged_log] [1]) = Some (Corruption "checksum mismatch")
  /\ opened_get [damaged_log; []] [1] = Some (OK, Some None).
Proof. split_and!; vm_compute; reflexivity. Qed.
