(* ===== verification/Bloom.v ===== *)
(** * Bloom filters of LevelDB: util/hash.cc, util/bloom.cc and the filter policies of
    src/packages/LevelDB.1.16.0.5/lib/native/src

    The program opens its database with [NewBloomFilterPolicy(4)].  A filter must never
    miss a key that it was made from, or a read would not find what is there. *)
From Stdlib Require Import SpecFloat.
From stdpp Require Import base numbers option sets list.
From S2P Require Import Prelude Coding DbFormat.
Open Scope list_scope.
Open Scope Z_scope.
Open Scope word_scope.

(** ** Hash *)

(** A [char] is signed; the shifts of negative ones are those of two's complement. *)
Definition sext8 (b : Z) : Z := if b <? 128 then b else b - 256.

Definition hash_m : Z := 0xc6a4_a793.
Definition hash_r : Z := 24.

Fixpoint Hash_loop (fuel : nat) (h : Z) (data : list Z) : Z * list Z :=
  match fuel with
  | O => (h, data)
  | S fuel' =>
      if (4 <=? length data)%nat then
        let w := DecodeFixed32 data in
        let h := h +w w in
        let h := w32 (h * hash_m) in
        let h := h .^ (h >> 16) in
        Hash_loop fuel' h (drop 4 data)
      else (h, data)
  end.

Definition Hash (data : list Z) (seed : Z) : Z :=
  let h := seed .^ w32 (Z.of_nat (length data) * hash_m) in
  let '(h, data) := Hash_loop (length data) h data in
  let finish h := let h := w32 (h * hash_m) in h .^ (h >> hash_r) in
  match data with
  | [b0; b1; b2] =>
      let h := h +w w32 (Z.shiftl (sext8 b2) 16) in
      let h := h +w w32 (Z.shiftl (sext8 b1) 8) in
      finish (h +w w32 (sext8 b0))
  | [b0; b1] => finish ((h +w w32 (Z.shiftl (sext8 b1) 8)) +w w32 (sext8 b0))
  | [b0] => finish (h +w w32 (sext8 b0))
  | _ => h
  end.

Definition BloomHash (key : list Z) : Z := Hash key 0xbc9f_1d34.

(** ** The policy *)

(** [0.69] and an [int] as doubles, and the conversion to [size_t], which drops the
    fraction. *)
Definition double_of_Z (z : Z) : spec_float := binary_normalize 53 1024 z 0 false.
Definition trunc_double (f : spec_float) : Z :=
  match f with
  | S754_finite false m e => if 0 <=? e then Z.shiftl (Z.pos m) e else Z.shiftr (Z.pos m) (- e)
  | _ => 0
  end.
Definition double_0_69 : spec_float := S754_finite false 6214967485771284 (-53).

Record BloomFilterPolicy := { bits_per_key_ : Z; k_ : Z }.
Definition new_BloomFilterPolicy (bits_per_key : Z) : BloomFilterPolicy :=
  let k := trunc_double (SFmul 53 1024 (double_of_Z bits_per_key) double_0_69) in
  let k := if k <? 1 then 1 else k in
  let k := if 30 <? k then 30 else k in
  {| bits_per_key_ := bits_per_key; k_ := k |}.

(** [array[bitpos/8] |= (1 << (bitpos % 8))] *)
Definition set_bit (array : list Z) (bitpos : Z) : list Z :=
  let i := Z.to_nat (bitpos / 8) in
  alter (fun b => b .| Z.shiftl 1 (bitpos mod 8)) i array.

(** [for (size_t j = 0; j < k_; j++)] of the two functions. *)
Fixpoint set_probes (n : nat) (h delta bits : Z) (array : list Z) : list Z :=
  match n with
  | O => array
  | S n' => set_probes n' (h +w delta) delta bits (set_bit array (h mod bits))
  end.
Fixpoint check_probes (n : nat) (h delta bits : Z) (array : list Z) : bool :=
  match n with
  | O => true
  | S n' =>
      let bitpos := h mod bits in
      if nthZ array (bitpos / 8) .& Z.shiftl 1 (bitpos mod 8) =? 0 then false
      else check_probes n' (h +w delta) delta bits array
  end.

Definition bloom_delta (h : Z) : Z := (h >> 17) .| (h << 15).

Definition Bloom_CreateFilter (p : BloomFilterPolicy) (keys : list (list Z)) (dst : list Z) : list Z :=
  let bits := w64 (Z.of_nat (length keys) * bits_per_key_ p) in
  let bits := if bits <? 64 then 64 else bits in
  let bytes := (bits + 7) / 8 in
  let bits := bytes * 8 in
  let array := replicate (Z.to_nat bytes) 0 in
  let array :=
    foldl (fun array key => let h := BloomHash key in
             set_probes (Z.to_nat (k_ p)) h (bloom_delta h) bits array) array keys in
  dst ++ array ++ [w8 (k_ p)].

Definition Bloom_KeyMayMatch (key filter : list Z) : bool :=
  let len := Z.of_nat (length filter) in
  if len <? 2 then false
  else
    let array := filter in
    let bits := (len - 1) * 8 in
    let k := w64 (sext8 (nthZ array (len - 1))) in
    if 30 <? k then true
    else
      let h := BloomHash key in
      check_probes (Z.to_nat k) h (bloom_delta h) bits array.

(** ** Filter policies *)

(** What a table asks of a policy: the filter goes behind what is there, and no key of the
    filter is missed. *)
Class FilterPolicy := {
  CreateFilter : list (list Z) -> list Z -> list Z;
  KeyMayMatch : list Z -> list Z -> bool;
  CreateFilter_app keys dst : CreateFilter keys dst = dst ++ CreateFilter keys [];
  KeyMayMatch_Create keys k : k ∈ keys -> KeyMayMatch k (CreateFilter keys []) = true }.

(** ** No key is missed *)

Definition bit_at (array : list Z) (bitpos : Z) : bool := Z.testbit (nthZ array (bitpos / 8)) (bitpos mod 8).

Lemma length_set_bit array bitpos : length (set_bit array bitpos) = length array.
Proof. apply length_alter. Qed.

Lemma bit_at_set array p q :
  0 <= p < 8 * Z.of_nat (length array) -> 0 <= q ->
  bit_at (set_bit array p) q = bit_at array q || (p =? q).
Proof.
  intros Hp Hq. unfold bit_at, set_bit, nthZ. pose proof (Z.mod_pos_bound p 8). pose proof (Z.mod_pos_bound q 8).
  assert (0 <= p / 8 < Z.of_nat (length array)) as Hd.
  { split; [apply Z.div_pos; lia|]. apply Z.div_lt_upper_bound; lia. }
  destruct (decide (p / 8 = q / 8)) as [E|Hn].
  - rewrite <- E, list_lookup_alter_eq.
    destruct (lookup_lt_is_Some_2 array (Z.to_nat (p / 8))) as [b ->]; [lia|]. cbn [fmap option_fmap option_map from_option id].
    rewrite Z.lor_spec. f_equal. rewrite Z.shiftl_1_l, Z.pow2_bits_eqb by lia.
    apply eq_iff_eq_true. rewrite !Z.eqb_eq. split; [|by intros ->].
    intros Em. rewrite (Z.div_mod p 8), (Z.div_mod q 8) by lia. congruence.
  - rewrite list_lookup_alter_ne; [|intros E; apply Hn; apply Z2Nat.inj in E; [done|lia|apply Z.div_pos; lia]].
    rewrite (proj2 (Z.eqb_neq p q)) by (intros ->; done). by rewrite orb_false_r.
Qed.

(** The places that the two loops visit. *)
Fixpoint probes (n : nat) (h delta bits : Z) : list Z :=
  match n with O => [] | S n' => h mod bits :: probes n' (h +w delta) delta bits end.

Lemma probes_range n h delta bits : 0 < bits -> Forall (fun p => 0 <= p < bits) (probes n h delta bits).
Proof.
  intros Hb. revert h. induction n as [|n IH]; intros h; constructor; [by apply Z.mod_pos_bound|apply IH].
Qed.

Lemma set_probes_fold n h delta bits array :
  set_probes n h delta bits array = foldl set_bit array (probes n h delta bits).
Proof. revert h array. induction n as [|n IH]; intros h array; [done|]. apply IH. Qed.

Lemma bit_test x i : 0 <= i -> (x .& Z.shiftl 1 i =? 0) = negb (Z.testbit x i).
Proof.
  intros Hi. rewrite Z.shiftl_1_l. destruct (Z.testbit x i) eqn:E; cbn [negb].
  - apply Z.eqb_neq. intros H0. assert (Z.testbit (Z.land x (2 ^ i)) i = true) as H.
    { by rewrite Z.land_spec, E, Z.pow2_bits_true by done. }
    by rewrite H0, Z.bits_0 in H.
  - apply Z.eqb_eq. apply Z.bits_inj'. intros j Hj. rewrite Z.land_spec, Z.pow2_bits_eqb, Z.bits_0 by done.
    destruct (Z.eqb_spec i j) as [<-|]; [by rewrite E|apply andb_false_r].
Qed.

Lemma check_probes_forallb n h delta bits array : 0 < bits ->
  check_probes n h delta bits array = forallb (bit_at array) (probes n h delta bits).
Proof.
  intros Hb. revert h. induction n as [|n IH]; intros h; [done|]. cbn [check_probes probes forallb].
  rewrite bit_test by (apply Z.mod_pos_bound; lia). unfold bit_at at 1. destruct (Z.testbit _ _); cbn; [apply IH|done].
Qed.

Lemma set_bits_spec ps array q :
  Forall (fun p => 0 <= p < 8 * Z.of_nat (length array)) ps -> 0 <= q ->
  length (foldl set_bit array ps) = length array
  /\ (bit_at array q = true \/ q ∈ ps -> bit_at (foldl set_bit array ps) q = true).
Proof.
  intros Hps Hq. revert array Hps. induction ps as [|p ps IH]; intros array Hps; cbn [foldl].
  - split; [done|]. intros [H|H]; [done|set_solver].
  - apply Forall_cons in Hps as [Hp Hps]. destruct (IH (set_bit array p)) as [Hl Hb]; [by rewrite length_set_bit|].
    rewrite length_set_bit in Hl. split; [done|]. intros H. apply Hb. rewrite bit_at_set by done.
    destruct H as [->|H]; [by left|]. apply elem_of_cons in H as [->|H]; [left; rewrite Z.eqb_refl; apply orb_true_r|by right].
Qed.

(** All keys at once. *)
Lemma filter_bits (ps : list Z -> list Z) keys array :
  (forall k, Forall (fun p => 0 <= p < 8 * Z.of_nat (length array)) (ps k)) ->
  let array' := foldl (fun a k => foldl set_bit a (ps k)) array keys in
  length array' = length array
  /\ forall q, 0 <= q -> bit_at array q = true \/ (exists k, k ∈ keys /\ q ∈ ps k) -> bit_at array' q = true.
Proof.
  revert array. induction keys as [|k keys IH]; intros array Hps; cbn [foldl].
  - split; [done|]. intros q _ [H|(k & Hk & _)]; [done|set_solver].
  - pose proof (fun q => set_bits_spec (ps k) array q (Hps k)) as H1.
    assert (length (foldl set_bit array (ps k)) = length array) as Hl by by apply (H1 0).
    destruct (IH (foldl set_bit array (ps k))) as [Hl' Hb]; [by rewrite Hl|]. split; [congruence|].
    intros q Hq H. apply Hb; [done|]. destruct H as [H|(k' & Hk' & Hq')].
    + left. apply H1; auto.
    + apply elem_of_cons in Hk' as [->|Hk']; [left; apply H1; auto|right; eauto].
Qed.

Lemma new_policy_k b : 1 <= k_ (new_BloomFilterPolicy b) <= 30.
Proof. cbn [new_BloomFilterPolicy k_]. repeat match goal with |- context [?x <? ?y] => destruct (Z.ltb_spec x y) end; lia. Qed.

Lemma Bloom_no_miss p keys k :
  1 <= k_ p <= 30 -> k ∈ keys -> Bloom_KeyMayMatch k (Bloom_CreateFilter p keys []) = true.
Proof.
  intros Hkp Hk. unfold Bloom_CreateFilter. rewrite app_nil_l.
  set (b0 := w64 _). set (b1 := if b0 <? 64 then 64 else b0).
  assert (64 <= b1) as Hb1 by (unfold b1; destruct (Z.ltb_spec b0 64); lia).
  set (nb := (b1 + 7) / 8). assert (8 <= nb) as Hnb by (apply Z.div_le_lower_bound; lia). clearbody nb. clear b0 b1 Hb1.
  set (array0 := replicate (Z.to_nat nb) 0).
  set (ps := fun key => probes (Z.to_nat (k_ p)) (BloomHash key) (bloom_delta (BloomHash key)) (nb * 8)).
  assert (Z.of_nat (length array0) = nb) as Hl0 by (unfold array0; rewrite length_replicate; lia).
  destruct (filter_bits ps keys array0) as [Hl Hb].
  { intros key. rewrite Hl0. replace (8 * nb) with (nb * 8) by lia. apply probes_range. lia. }
  assert (forall a, foldl (fun array key => set_probes (Z.to_nat (k_ p)) (BloomHash key) (bloom_delta (BloomHash key)) (nb * 8) array) a keys
    = foldl (fun a k => foldl set_bit a (ps k)) a keys) as E.
  { clear. induction keys as [|key keys IH]; intros a; cbn [foldl]; [done|]. by rewrite IH, set_probes_fold. }
  cbv zeta. rewrite E. clear E. set (array := foldl _ array0 keys) in *.
  assert (length array = Z.to_nat nb) as Hla by (rewrite Hl; lia). clearbody array.
  unfold Bloom_KeyMayMatch. rewrite length_app, Nat2Z.inj_add, Hla, Z2Nat.id by lia. cbn [length]. change (Z.of_nat 1) with 1.
  rewrite (proj2 (Z.ltb_ge _ _)) by lia. replace (nb + 1 - 1) with nb by lia.
  assert (nthZ (array ++ [w8 (k_ p)]) nb = k_ p) as ->.
  { apply nthZ_lookup. rewrite lookup_app_r by lia. replace (Z.to_nat nb - length array)%nat with 0%nat by lia.
    cbn. by rewrite w8_small by (unfold is8; lia). }
  unfold sext8. rewrite (proj2 (Z.ltb_lt (k_ p) 128)) by lia. rewrite w64_small by (unfold is64; lia).
  rewrite (proj2 (Z.ltb_ge _ _)) by lia. rewrite check_probes_forallb by lia. apply forallb_forall. intros q Hq.
  fold (ps k) in Hq. apply list_elem_of_In in Hq.
  assert (0 <= q < nb * 8) as Hr.
  { pose proof (probes_range (Z.to_nat (k_ p)) (BloomHash k) (bloom_delta (BloomHash k)) (nb * 8) ltac:(lia)) as H.
    rewrite Forall_forall in H. by apply H. }
  assert (0 <= q / 8 < nb) as Hd by (split; [apply Z.div_pos; lia|apply Z.div_lt_upper_bound; lia]).
  rewrite <- (Hb q) by (lia || right; eauto). unfold bit_at, nthZ. by rewrite lookup_app_l by lia.
Qed.

#[export] Instance bloom_policy (bits_per_key : Z) : FilterPolicy.
Proof.
  refine {| CreateFilter := Bloom_CreateFilter (new_BloomFilterPolicy bits_per_key); KeyMayMatch := Bloom_KeyMayMatch |}.
  - intros keys dst. done.
  - intros keys k. apply Bloom_no_miss, new_policy_k.
Defined.

(** The wrapper that hands user keys to the policy of the user. *)
Definition InternalFilterPolicy (user : FilterPolicy) : FilterPolicy.
Proof.
  refine {| CreateFilter keys dst := CreateFilter (map ExtractUserKey keys) dst;
            KeyMayMatch key f := KeyMayMatch (ExtractUserKey key) f |}.
  - intros keys dst. apply CreateFilter_app.
  - intros keys k Hk. apply KeyMayMatch_Create. by apply list_elem_of_fmap_2.
Defined.

(** ** Claims *)

(** A Bloom filter never misses a key: whatever the number of bits per key, the keys and
    what stands before the filter, every key that the filter was made from may match it; also
    through the wrapper for internal keys, where any sequence number will do. *)
Theorem bloom_no_false_negative (bits_per_key : Z) (keys : list (list Z)) (key ikey dst : list Z) :
  key ∈ keys -> ExtractUserKey ikey = key ->
  let filter := drop (length dst) (Bloom_CreateFilter (new_BloomFilterPolicy bits_per_key) keys dst) in
  Bloom_KeyMayMatch key filter = true
  /\ @KeyMayMatch (InternalFilterPolicy (bloom_policy bits_per_key)) ikey filter = true.
Proof.
  intros Hk Hi filter.
  assert (filter = Bloom_CreateFilter (new_BloomFilterPolicy bits_per_key) keys []) as -> by apply drop_app_length.
  pose proof (Bloom_no_miss _ keys key (new_policy_k bits_per_key) Hk) as H. split; [done|]. cbn. by rewrite Hi.
Qed.

Lemma bloom_no_false_negative_witness :
  Bloom_KeyMayMatch [1; 2; 3] (Bloom_CreateFilter (new_BloomFilterPolicy 4) [[9]; [1; 2; 3]] []) = true
  /\ Bloom_KeyMayMatch [7; 7] (Bloom_CreateFilter (new_BloomFilterPolicy 4) [[9]; [1; 2; 3]] []) = false.
Proof.
  split; [|vm_compute; reflexivity].
  apply (bloom_no_false_negative 4 [[9]; [1; 2; 3]] [1; 2; 3] ([1; 2; 3] ++ replicate 8 0) []).
  - right. left.
  - reflexivity.
Defined.

(** The program asks for four bits and gets two probes per key. *)
Example four_bits : k_ (new_BloomFilterPolicy 4) = 2.
Proof. vm_compute. reflexivity. Qed.
Example hash_known : Hash [] 0xbc9f_1d34 = 0xbc9f_1d34 /\ Hash [0x62] 0xbc9f_1d34 = 0xef13_45c4.
Proof. vm_compute. split; reflexivity. Qed.
