(* ===== verification/FilterBlock.v ===== *)
(** * Filter blocks of LevelDB: table/filter_block.cc of
    src/packages/LevelDB.1.16.0.5/lib/native/src

    A table has one filter for every 2 KB of data; a filter block holds them one after
    the other, then where each begins, then where this array begins.  The builder is
    driven by (StartBlock AddKey* )* Finish, for any policy of the class [FilterPolicy]. *)
From stdpp Require Import base numbers option sets list sorting.
From S2P Require Import Prelude Coding DbFormat Bloom.
Open Scope list_scope.
Open Scope Z_scope.
Open Scope word_scope.

Definition kFilterBaseLg : Z := 11.
Definition kFilterBase : Z := Z.shiftl 1 kFilterBaseLg.

Section filter_block.
Context `{FilterPolicy}.

(** ** Builder *)

Record FilterBlockBuilder := {
  keys_ : list Z;
  start_ : list nat;
  result_ : list Z;
  filter_offsets_ : list Z }.
Definition new_FilterBlockBuilder : FilterBlockBuilder :=
  {| keys_ := []; start_ := []; result_ := []; filter_offsets_ := [] |}.

(** [tmp_keys_[i]]: the slices of [keys_] between consecutive starts. *)
Fixpoint tmp_keys (keys : list Z) (start : list nat) : list (list Z) :=
  match start with
  | a :: (b :: _) as rest => take (b - a) (drop a keys) :: tmp_keys keys rest
  | _ => []
  end.

Definition GenerateFilter (b : FilterBlockBuilder) : FilterBlockBuilder :=
  let num_keys := length (start_ b) in
  let offsets := filter_offsets_ b ++ [w32 (Z.of_nat (length (result_ b)))] in
  if (num_keys =? 0)%nat
  then {| keys_ := keys_ b; start_ := start_ b; result_ := result_ b; filter_offsets_ := offsets |}
  else
    let start := start_ b ++ [length (keys_ b)] in
    {| keys_ := []; start_ := [];
       result_ := CreateFilter (tmp_keys (keys_ b) start) (result_ b); filter_offsets_ := offsets |}.

(** [while (filter_index > filter_offsets_.size())] *)
Fixpoint StartBlock_loop (fuel : nat) (filter_index : Z) (b : FilterBlockBuilder) : FilterBlockBuilder :=
  match fuel with
  | O => b
  | S fuel' =>
      if Z.of_nat (length (filter_offsets_ b)) <? filter_index
      then StartBlock_loop fuel' filter_index (GenerateFilter b) else b
  end.
Definition StartBlock (block_offset : Z) (b : FilterBlockBuilder) : FilterBlockBuilder :=
  let filter_index := block_offset / kFilterBase in
  StartBlock_loop (Z.to_nat filter_index) filter_index b.

Definition AddKey (b : FilterBlockBuilder) (key : list Z) : FilterBlockBuilder :=
  {| keys_ := keys_ b ++ key; start_ := start_ b ++ [length (keys_ b)];
     result_ := result_ b; filter_offsets_ := filter_offsets_ b |}.

Definition Finish (b : FilterBlockBuilder) : list Z :=
  let b := if (length (start_ b) =? 0)%nat then b else GenerateFilter b in
  let array_offset := w32 (Z.of_nat (length (result_ b))) in
  let result := foldl PutFixed32 (result_ b) (filter_offsets_ b) in
  PutFixed32 result array_offset ++ [kFilterBaseLg].

(** ** Reader *)

Record FilterBlockReader := {
  data_ : list Z;
  offset_ : Z;
  num_ : Z;
  base_lg_ : Z }.

Definition new_FilterBlockReader (contents : list Z) : FilterBlockReader :=
  let n := Z.of_nat (length contents) in
  if n <? 5 then {| data_ := []; offset_ := 0; num_ := 0; base_lg_ := 0 |}
  else
    let base_lg := w64 (sext8 (nthZ contents (n - 1))) in
    let last_word := DecodeFixed32 (drop (Z.to_nat (n - 5)) contents) in
    if n - 5 <? last_word then {| data_ := []; offset_ := 0; num_ := 0; base_lg_ := base_lg |}
    else {| data_ := contents; offset_ := last_word; num_ := (n - 5 - last_word) / 4; base_lg_ := base_lg |}.

Definition Reader_KeyMayMatch (r : FilterBlockReader) (block_offset : Z) (key : list Z) : bool :=
  let index := Z.shiftr block_offset (base_lg_ r) in
  if index <? num_ r then
    let start := DecodeFixed32 (drop (Z.to_nat (offset_ r + index * 4)) (data_ r)) in
    let limit := DecodeFixed32 (drop (Z.to_nat (offset_ r + index * 4 + 4)) (data_ r)) in
    if (start <=? limit) && (limit <=? offset_ r)
    then KeyMayMatch key (take (Z.to_nat (limit - start)) (drop (Z.to_nat start) (data_ r)))
    else negb (start =? limit)
  else true.

(** ** What a builder has seen *)

(** The filter of a list of keys; none for no keys. *)
Definition filter_of (ks : list (list Z)) : list Z := match ks with [] => [] | _ => CreateFilter ks [] end.
Definition place (fs : list (list (list Z))) (i : nat) : nat := length (concat (map filter_of (take i fs))).

(** [closed] are the keys of the filters that are written, [cur] those of the next. *)
Record builder_inv (b : FilterBlockBuilder) (closed : list (list (list Z))) (cur : list (list Z)) : Prop := {
  b_keys : keys_ b = concat cur;
  b_start : start_ b = map (fun i => length (concat (take i cur))) (seq 0 (length cur));
  b_result : result_ b = concat (map filter_of closed);
  b_offsets : filter_offsets_ b = map (fun i => w32 (Z.of_nat (place closed i))) (seq 0 (length closed)) }.

Lemma tmp_keys_cons keys a b rest :
  tmp_keys keys (a :: b :: rest) = take (b - a) (drop a keys) :: tmp_keys keys (b :: rest).
Proof. done. Qed.

Lemma tmp_keys_concat pre cur :
  tmp_keys (concat (pre ++ cur)) (map (fun i => length (concat (take i (pre ++ cur)))) (seq (length pre) (S (length cur)))) = cur.
Proof.
  revert pre. induction cur as [|k cur IH]; intros pre; [done|].
  change (seq (length pre) (S (length (k :: cur))))
    with (length pre :: S (length pre) :: seq (S (S (length pre))) (length cur)).
  cbn [map]. rewrite tmp_keys_cons. specialize (IH (pre ++ [k])). rewrite length_app, Nat.add_1_r, <- !app_assoc in IH.
  cbn [app] in IH. cbn [length seq map] in IH. rewrite IH. f_equal.
  rewrite take_app_length. replace (S (length pre)) with (length pre + 1)%nat by lia.
  rewrite take_app_add. cbn [take]. rewrite !concat_app, length_app. cbn [concat].
  rewrite drop_app_length. rewrite app_nil_r. replace (length (concat pre) + length k - length (concat pre))%nat with (length k) by lia.
  apply take_app_length.
Qed.

Lemma map_seq_snoc {A B} (f : list A -> B) l x :
  map (fun i => f (take i (l ++ [x]))) (seq 0 (length l)) = map (fun i => f (take i l)) (seq 0 (length l)).
Proof.
  apply map_ext_in. intros i Hi. apply Stdlib.Lists.List.in_seq in Hi. by rewrite take_app_le by lia.
Qed.

Lemma AddKey_inv b closed cur k : builder_inv b closed cur -> builder_inv (AddKey b k) closed (cur ++ [k]).
Proof.
  intros [H1 H2 H3 H4]. split; cbn; try done.
  - rewrite concat_app, H1. cbn. by rewrite app_nil_r.
  - rewrite length_app, Nat.add_1_r, seq_S, map_app, (map_seq_snoc (fun l => length (concat l))), <- H2. cbn [map].
    rewrite Nat.add_0_l, take_app_length, H1. done.
Qed.

Lemma GenerateFilter_inv b closed cur : builder_inv b closed cur -> builder_inv (GenerateFilter b) (closed ++ [cur]) [].
Proof.
  intros [H1 H2 H3 H4].
  assert (filter_offsets_ b ++ [w32 (Z.of_nat (length (result_ b)))]
    = map (fun i => w32 (Z.of_nat (place (closed ++ [cur]) i))) (seq 0 (length (closed ++ [cur])))) as Ho.
  { rewrite length_app, Nat.add_1_r, seq_S, map_app. unfold place.
    rewrite (map_seq_snoc (fun l => w32 (Z.of_nat (length (concat (map filter_of l)))))). cbn [map].
    rewrite Nat.add_0_l, take_app_length, H4, H3. done. }
  unfold GenerateFilter. destruct cur as [|k cur].
  - rewrite H2. cbn [length seq map]. rewrite Nat.eqb_refl. split; cbn [keys_ start_ result_ filter_offsets_]; try done.
    + rewrite map_app, concat_app, H3. cbn. by rewrite app_nil_r.
  - rewrite H2 at 1. rewrite length_map, length_seq. cbn [length Nat.eqb].
    split; cbn [keys_ start_ result_ filter_offsets_]; try done.
    + rewrite CreateFilter_app, H3, map_app, concat_app. f_equal. cbn [map concat filter_of]. rewrite app_nil_r. f_equal.
      rewrite H1, H2. pose proof (tmp_keys_concat [] (k :: cur)) as E. cbn [app] in E.
      rewrite seq_S, map_app in E. cbn [map] in E. rewrite Nat.add_0_l in E.
      rewrite (take_ge (k :: cur) (length (k :: cur))) in E by done. exact E.
Qed.

Lemma length_offsets b closed cur : builder_inv b closed cur -> length (filter_offsets_ b) = length closed.
Proof. intros Hb. by rewrite (b_offsets _ _ _ Hb), length_map, length_seq. Qed.

Lemma StartBlock_loop_inv fuel idx b closed cur :
  builder_inv b closed cur -> (length closed <= idx)%nat -> (idx - length closed <= fuel)%nat ->
  exists closed' cur', builder_inv (StartBlock_loop fuel (Z.of_nat idx) b) closed' cur' /\ length closed' = idx
    /\ closed ++ [cur] `prefix_of` closed' ++ [cur'].
Proof.
  revert b closed cur. induction fuel as [|fuel IH]; intros b closed cur Hb Hle Hf; cbn [StartBlock_loop].
  - exists closed, cur. split_and!; [done|lia|done].
  - rewrite (length_offsets _ _ _ Hb). destruct (Z.ltb_spec (Z.of_nat (length closed)) (Z.of_nat idx)) as [Hlt|Hge].
    + destruct (IH _ _ _ (GenerateFilter_inv _ _ _ Hb)) as (closed' & cur' & H1 & H2 & H3);
        [rewrite length_app; cbn; lia|rewrite length_app; cbn; lia|].
      exists closed', cur'. split_and!; try done. etrans; [|exact H3]. by apply prefix_app_r.
    + exists closed, cur. split_and!; [done|lia|done].
Qed.

Lemma StartBlock_inv off b closed cur :
  builder_inv b closed cur -> 0 <= off -> (length closed <= Z.to_nat (off / kFilterBase))%nat ->
  exists closed' cur', builder_inv (StartBlock off b) closed' cur' /\ length closed' = Z.to_nat (off / kFilterBase)
    /\ closed ++ [cur] `prefix_of` closed' ++ [cur'].
Proof.
  intros Hb Ho Hle. unfold StartBlock. assert (0 <= off / kFilterBase) as Hp by (apply Z.div_pos; [done|reflexivity]).
  pose proof (StartBlock_loop_inv (Z.to_nat (off / kFilterBase)) (Z.to_nat (off / kFilterBase)) b closed cur Hb Hle) as Hi.
  rewrite Z2Nat.id in Hi by done. apply Hi. lia.
Qed.

Lemma AddKeys_inv ks b closed cur : builder_inv b closed cur -> builder_inv (foldl AddKey b ks) closed (cur ++ ks).
Proof.
  revert b cur. induction ks as [|k ks IH]; intros b cur Hb; cbn [foldl]; [by rewrite app_nil_r|].
  replace (cur ++ k :: ks) with ((cur ++ [k]) ++ ks) by (by rewrite <- app_assoc). by apply IH, AddKey_inv.
Qed.

(** ** Whole blocks *)

Definition add_block (b : FilterBlockBuilder) (block : Z * list (list Z)) : FilterBlockBuilder :=
  foldl AddKey (StartBlock (fst block) b) (snd block).
Definition build_filter_block (blocks : list (Z * list (list Z))) : list Z :=
  Finish (foldl add_block new_FilterBlockBuilder blocks).

(** Every key of a block is in the filter of the block's place. *)
Definition covers (fs : list (list (list Z))) (blocks : list (Z * list (list Z))) : Prop :=
  forall off ks k, (off, ks) ∈ blocks -> k ∈ ks ->
    exists f, fs !! Z.to_nat (off / kFilterBase) = Some f /\ k ∈ f.

Definition in_order (blocks : list (Z * list (list Z))) : Prop :=
  StronglySorted (fun x y => fst x <= fst y) blocks /\ Forall (fun x => 0 <= fst x) blocks.

Lemma covers_prefix fs fs' blocks : covers fs blocks -> fs `prefix_of` fs' -> covers fs' blocks.
Proof.
  intros Hc Hp off ks k Hb Hk. destruct (Hc off ks k Hb Hk) as (f & Hf & Hin). exists f. split; [|done].
  by eapply prefix_lookup_Some.
Qed.

Lemma add_blocks_inv todo b closed cur seen last :
  builder_inv b closed cur -> covers (closed ++ [cur]) seen ->
  (length closed <= Z.to_nat (last / kFilterBase))%nat -> 0 <= last ->
  StronglySorted (fun x y => fst x <= fst y) todo -> Forall (fun x => last <= fst x) todo ->
  exists closed' cur', builder_inv (foldl add_block b todo) closed' cur' /\ covers (closed' ++ [cur']) (seen ++ todo).
Proof.
  revert b closed cur seen last. induction todo as [|[off ks] todo IH]; intros b closed cur seen last Hb Hc Hlen H0 Hs Hl.
  - exists closed, cur. by rewrite app_nil_r.
  - apply StronglySorted_inv in Hs as [Hs Hoff]. apply Forall_cons in Hl as [Hl Hls]. cbn [fst] in *.
    assert (last / kFilterBase <= off / kFilterBase) by (apply Z.div_le_mono; [reflexivity|done]).
    assert (0 <= last / kFilterBase) by (apply Z.div_pos; [done|reflexivity]).
    destruct (StartBlock_inv off b closed cur Hb ltac:(lia) ltac:(lia)) as (closed1 & cur1 & Hb1 & Hlen1 & Hp1).
    pose proof (AddKeys_inv ks _ _ _ Hb1) as Hb2.
    destruct (IH _ closed1 (cur1 ++ ks) (seen ++ [(off, ks)]) off Hb2) as (closed' & cur' & Hb' & Hc'); try done; [|lia|lia|].
    + intros off' ks' k Hin Hk. apply elem_of_app in Hin as [Hin|Hin].
      * destruct (covers_prefix _ _ _ Hc Hp1 off' ks' k Hin Hk) as (f & Hf & Hin').
        apply lookup_app_Some in Hf as [Hf|[Hge Hf]]; [exists f; split; [by apply lookup_app_l_Some|done]|].
        apply list_lookup_singleton_Some in Hf as [Hz <-]. exists (cur1 ++ ks). split; [|set_solver].
        rewrite lookup_app_r by done. by rewrite Hz.
      * apply list_elem_of_singleton in Hin. injection Hin as -> ->. exists (cur1 ++ ks). split; [|set_solver].
        rewrite lookup_app_r by lia. by rewrite Hlen1, Nat.sub_diag.
    + exists closed', cur'. cbn [foldl]. split; [done|]. by rewrite <- app_assoc in Hc'.
Qed.

(** ** Reading *)

(** The block that [Finish] returns, for the filters [fs]; the last word closes the array. *)
Definition block_bytes (fs : list (list (list Z))) : list Z :=
  concat (map filter_of fs)
    ++ concat (map EncodeFixed32 (map (fun i => Z.of_nat (place fs i)) (seq 0 (S (length fs))))) ++ [kFilterBaseLg].

Lemma place_all fs : place fs (length fs) = length (concat (map filter_of fs)).
Proof. unfold place. by rewrite firstn_all. Qed.
Lemma place_le fs i : (place fs i <= place fs (length fs))%nat.
Proof.
  unfold place. rewrite firstn_all. rewrite <- (take_drop i fs) at 2. rewrite map_app, concat_app, length_app. lia.
Qed.
Lemma place_mono fs i : (place fs i <= place fs (S i))%nat.
Proof.
  unfold place. destruct (decide (i < length fs)%nat) as [Hi|Hi].
  - destruct (lookup_lt_is_Some_2 fs i Hi) as [f Hf]. rewrite (take_S_r _ _ _ Hf), map_app, concat_app, length_app. lia.
  - by rewrite !take_ge by lia.
Qed.

Lemma Finish_bytes b closed cur :
  builder_inv b closed cur ->
  let fs := if (length cur =? 0)%nat then closed else closed ++ [cur] in
  Z.of_nat (place fs (length fs)) < 0x1_0000_0000 -> Finish b = block_bytes fs.
Proof.
  intros Hb fs Hsz. assert (builder_inv (if (length (start_ b) =? 0)%nat then b else GenerateFilter b) fs
    (if (length cur =? 0)%nat then cur else [])) as Hb'.
  { rewrite (b_start _ _ _ Hb), length_map, length_seq. unfold fs. destruct (_ =? _)%nat; [done|]. by apply GenerateFilter_inv. }
  clearbody fs. unfold Finish. set (b' := if (length (start_ b) =? 0)%nat then b else GenerateFilter b) in *. clearbody b'.
  rewrite foldl_PutFixed32, (b_result _ _ _ Hb'), (b_offsets _ _ _ Hb'). unfold PutFixed32, block_bytes.
  assert (forall i, w32 (Z.of_nat (place fs i)) = Z.of_nat (place fs i)) as Hw.
  { intros i. apply w32_small. pose proof (place_le fs i). unfold is32. lia. }
  assert (length (concat (map filter_of fs)) = place fs (length fs)) as Hl by (unfold place; by rewrite firstn_all).
  rewrite Hl, Hw, seq_S, !map_app, concat_app. cbn [map concat]. rewrite app_nil_r, Nat.add_0_l, <- !app_assoc.
  do 3 f_equal. rewrite !map_map. apply map_ext. intros i. by rewrite Hw.
Qed.

Lemma Reader_fields fs :
  Z.of_nat (place fs (length fs)) < 0x1_0000_0000 ->
  new_FilterBlockReader (block_bytes fs)
    = {| data_ := block_bytes fs; offset_ := Z.of_nat (place fs (length fs)); num_ := Z.of_nat (length fs);
         base_lg_ := kFilterBaseLg |}.
Proof.
  intros Hsz. unfold new_FilterBlockReader.
  assert (length (block_bytes fs) = place fs (length fs) + 4 * S (length fs) + 1)%nat as Hlen.
  { unfold block_bytes. rewrite !length_app, length_fixed_array, length_map, length_seq. unfold place. rewrite firstn_all. cbn. lia. }
  rewrite Hlen. set (n := Z.of_nat _). rewrite (proj2 (Z.ltb_ge n 5)) by lia.
  assert (nthZ (block_bytes fs) (n - 1) = kFilterBaseLg) as ->.
  { apply nthZ_lookup. unfold block_bytes. rewrite app_assoc, lookup_app_r;
      rewrite length_app, length_fixed_array, length_map, length_seq, <- place_all; [|lia].
    match goal with |- [_] !! ?x = _ => by replace x with 0%nat by lia end. }
  assert (DecodeFixed32 (drop (Z.to_nat (n - 5)) (block_bytes fs)) = Z.of_nat (place fs (length fs))) as ->.
  { replace (Z.to_nat (n - 5)) with (length (concat (map filter_of fs)) + 4 * length fs)%nat
      by (rewrite <- place_all; lia).
    unfold block_bytes. rewrite drop_app_add. apply DecodeFixed32_array; [|unfold is32; lia].
    rewrite list_lookup_fmap, lookup_seq_lt by lia. done. }
  rewrite (proj2 (Z.ltb_ge _ _)) by lia. f_equal.
  replace (n - 5 - Z.of_nat (place fs (length fs))) with (Z.of_nat (length fs) * 4) by lia. by rewrite Z.div_mul.
Qed.

Lemma Reader_filter fs off f k :
  Z.of_nat (place fs (length fs)) < 0x1_0000_0000 -> 0 <= off ->
  fs !! Z.to_nat (off / kFilterBase) = Some f -> k ∈ f ->
  Reader_KeyMayMatch (new_FilterBlockReader (block_bytes fs)) off k = true.
Proof.
  intros Hsz Ho Hf Hk. rewrite Reader_fields by done. unfold Reader_KeyMayMatch. cbn [data_ offset_ num_ base_lg_].
  assert (Z.shiftr off kFilterBaseLg = off / kFilterBase) as -> by (unfold kFilterBaseLg; by rewrite Z.shiftr_div_pow2).
  set (idx := off / kFilterBase) in *. assert (0 <= idx) as Hi by (apply Z.div_pos; [done|reflexivity]).
  pose proof (lookup_lt_Some _ _ _ Hf) as Hlt. rewrite (proj2 (Z.ltb_lt _ _)) by lia.
  assert (forall j, (j <= length fs)%nat ->
    DecodeFixed32 (drop (Z.to_nat (Z.of_nat (place fs (length fs)) + Z.of_nat j * 4)) (block_bytes fs)) = Z.of_nat (place fs j)) as Hd.
  { intros j Hj. replace (Z.to_nat (Z.of_nat (place fs (length fs)) + Z.of_nat j * 4))
      with (length (concat (map filter_of fs)) + 4 * j)%nat by (rewrite <- place_all; lia).
    unfold block_bytes. rewrite drop_app_add. apply DecodeFixed32_array; [|pose proof (place_le fs j); unfold is32; lia].
    by rewrite list_lookup_fmap, lookup_seq_lt by lia. }
  pose proof (Hd (Z.to_nat idx) ltac:(lia)) as H1. pose proof (Hd (S (Z.to_nat idx)) ltac:(lia)) as H2.
  rewrite Z2Nat.id in H1 by done. rewrite Nat2Z.inj_succ, Z2Nat.id in H2 by done.
  replace (Z.of_nat (place fs (length fs)) + idx * 4 + 4) with (Z.of_nat (place fs (length fs)) + Z.succ idx * 4) by lia.
  rewrite H1, H2. pose proof (place_mono fs (Z.to_nat idx)). pose proof (place_le fs (S (Z.to_nat idx))).
  rewrite !(proj2 (Z.leb_le _ _)) by lia. cbn [andb].
  assert (take (Z.to_nat (Z.of_nat (place fs (S (Z.to_nat idx))) - Z.of_nat (place fs (Z.to_nat idx))))
    (drop (Z.to_nat (Z.of_nat (place fs (Z.to_nat idx)))) (block_bytes fs)) = filter_of f) as ->.
  { assert (concat (map filter_of fs) = concat (map filter_of (take (Z.to_nat idx) fs)) ++ filter_of f
      ++ concat (map filter_of (drop (S (Z.to_nat idx)) fs))) as Ec.
    { rewrite <- (take_drop_middle fs (Z.to_nat idx) f Hf) at 1. by rewrite map_app, concat_app. }
    unfold block_bytes. rewrite Ec, <- !app_assoc, Nat2Z.id. unfold place at 3.
    rewrite drop_app_length. unfold place. rewrite (take_S_r _ _ _ Hf), map_app, concat_app, length_app.
    cbn [map concat]. rewrite app_nil_r. match goal with |- take ?x _ = _ => replace x with (length (filter_of f)) by lia end.
    apply take_app_length. }
  unfold filter_of. destruct f; [set_solver|]. by apply KeyMayMatch_Create.
Qed.

Lemma filter_block_may_match (blocks : list (Z * list (list Z))) (off : Z) (ks : list (list Z)) (k : list Z) :
  in_order blocks -> Z.of_nat (length (build_filter_block blocks)) < 0x1_0000_0000 ->
  (off, ks) ∈ blocks -> k ∈ ks ->
  Reader_KeyMayMatch (new_FilterBlockReader (build_filter_block blocks)) off k = true.
Proof.
  intros [Hs H0] Hsz Hin Hk. unfold build_filter_block in *.
  destruct (add_blocks_inv blocks new_FilterBlockBuilder [] [] [] 0) as (closed & cur & Hb & Hc); try done.
  { intros off' ks' k' Hin'. set_solver. }
  destruct (Hc off ks k Hin Hk) as (f & Hf & Hkf).
  set (fs := if (length cur =? 0)%nat then closed else closed ++ [cur]).
  assert (fs !! Z.to_nat (off / kFilterBase) = Some f) as Hf'.
  { unfold fs. destruct (Nat.eqb_spec (length cur) 0) as [E|E]; [|done]. destruct cur; [|done].
    apply lookup_app_Some in Hf as [Hf|[_ Hf]]; [done|]. apply list_lookup_singleton_Some in Hf as [_ <-]. set_solver. }
  assert (0 <= off) as Hoff by (rewrite Forall_forall in H0; apply (H0 (off, ks) Hin)).
  assert (Z.of_nat (place fs (length fs)) < 0x1_0000_0000) as Hp.
  { eapply Z.le_lt_trans; [|exact Hsz]. apply Nat2Z.inj_le. unfold Finish.
    set (b0 := foldl add_block new_FilterBlockBuilder blocks) in *.
    set (b' := if (length (start_ b0) =? 0)%nat then b0 else GenerateFilter b0).
    assert (builder_inv b' fs (if (length cur =? 0)%nat then cur else [])) as Hb'.
    { unfold b', fs. rewrite (b_start _ _ _ Hb), length_map, length_seq. destruct (_ =? _)%nat; [done|]. by apply GenerateFilter_inv. }
    rewrite foldl_PutFixed32, (b_result _ _ _ Hb'). unfold PutFixed32. rewrite !length_app. unfold place. rewrite firstn_all. lia. }
  rewrite (Finish_bytes _ closed cur Hb Hp). fold fs. by apply (Reader_filter fs off f k).
Qed.

(** A filter block never hides a key.  For every policy that misses none of its keys, and
    blocks of data at increasing offsets (several may fall into the same 2 KB, and stretches
    may stay empty), the reader of the finished filter block says for each block that each
    of its keys may match.  The block must stay below 4 GB, as offsets have 32 bits. *)
Theorem filter_block_no_false_negative (blocks : list (Z * list (list Z))) (off : Z) (ks : list (list Z)) (k : list Z) :
  in_order blocks -> Z.of_nat (length (build_filter_block blocks)) < 0x1_0000_0000 ->
  (off, ks) ∈ blocks -> k ∈ ks ->
  Reader_KeyMayMatch (new_FilterBlockReader (build_filter_block blocks)) off k = true.
Proof. apply filter_block_may_match. Qed.
End filter_block.

Lemma filter_block_no_false_negative_witness :
  let blocks := [(0, [[1]; [2; 2]]); (100, [[3]]); (5000, [[4]])] in
  @Reader_KeyMayMatch (bloom_policy 4) (new_FilterBlockReader (@build_filter_block (bloom_policy 4) blocks)) 100 [3] = true.
Proof.
  apply (@filter_block_no_false_negative (bloom_policy 4) [(0, [[1]; [2; 2]]); (100, [[3]]); (5000, [[4]])] 100 [[3]] [3]).
  - split; repeat constructor; cbn; lia.
  - vm_compute. reflexivity.
  - right. left.
  - left.
Defined.
