(* ===== verification/TableBlock.v ===== *)
(** * Blocks of sorted tables: table/block_builder.cc and table/block.cc of
    src/packages/LevelDB.1.16.0.5/lib/native/src

    A block is a sequence of entries, each with the length of the prefix that its key shares
    with the key before, the rest of the key and the value; every [block_restart_interval]
    entries a key is stored whole, and the places of these restart points stand at the end
    of the block.  The iterator finds a key by binary search among the restart points and
    a walk from there.

    A pointer into the block is its offset; [None] is missing fuel, which the theorems
    exclude.  The comparator is a parameter of the iterator. *)
From stdpp Require Import base numbers option sets list sorting.
From S2P Require Import Prelude Coding SkipList DbFormat.
Open Scope list_scope.
Open Scope Z_scope.
Open Scope word_scope.

(** ** Builder *)

Record BlockBuilder := {
  bb_buffer : list Z;
  bb_restarts : list Z;
  bb_counter : Z;
  bb_last_key : list Z }.
Definition new_BlockBuilder : BlockBuilder :=
  {| bb_buffer := []; bb_restarts := [0]; bb_counter := 0; bb_last_key := [] |}.

Definition BlockBuilder_Reset (b : BlockBuilder) : BlockBuilder :=
  {| bb_buffer := []; bb_restarts := [] ++ [0]; bb_counter := 0; bb_last_key := [] |}.

Definition CurrentSizeEstimate (b : BlockBuilder) : Z :=
  Z.of_nat (length (bb_buffer b)) + Z.of_nat (length (bb_restarts b)) * 4 + 4.

Definition BlockBuilder_Finish (b : BlockBuilder) : list Z :=
  PutFixed32 (foldl PutFixed32 (bb_buffer b) (bb_restarts b)) (w32 (Z.of_nat (length (bb_restarts b)))).

Definition BlockBuilder_Add (block_restart_interval : Z) (key value : list Z) (b : BlockBuilder) : BlockBuilder :=
  let last_key_piece := bb_last_key b in
  let '(shared, restarts, counter) :=
    if bb_counter b <? block_restart_interval
    then (common_prefix last_key_piece key, bb_restarts b, bb_counter b)
    else (0%nat, bb_restarts b ++ [w32 (Z.of_nat (length (bb_buffer b)))], 0) in
  let non_shared := (length key - shared)%nat in
  let buffer := PutVarint32 (bb_buffer b) (w32 (Z.of_nat shared)) in
  let buffer := PutVarint32 buffer (w32 (Z.of_nat non_shared)) in
  let buffer := PutVarint32 buffer (w32 (Z.of_nat (length value))) in
  let buffer := buffer ++ drop shared key in
  let buffer := buffer ++ value in
  {| bb_buffer := buffer; bb_restarts := restarts; bb_counter := counter + 1;
     bb_last_key := take shared last_key_piece ++ drop shared key |}.

(** ** Blocks *)

Definition NumRestarts (data : list Z) : Z := DecodeFixed32 (drop (length data - 4) data).

(** A block with its offset of the restart array; [None] is the error marker [size_ = 0]. *)
Definition new_Block (contents : list Z) : option (list Z * Z) :=
  let size := Z.of_nat (length contents) in
  if size <? 4 then None
  else
    let max_restarts_allowed := (size - 4) / 4 in
    if max_restarts_allowed <? NumRestarts contents then None
    else Some (contents, w32 (size - w32 (1 + NumRestarts contents) * 4)).

(** What [Block::NewIterator] makes of a block. *)
Inductive block_iterator :=
  | ErrorIterator | EmptyIterator
  | Iter (data_ : list Z) (restarts_ num_restarts_ : Z).
Definition NewIterator (contents : list Z) : block_iterator :=
  match new_Block contents with
  | None => ErrorIterator
  | Some (data, restart_offset) =>
      let num_restarts := NumRestarts data in
      if num_restarts =? 0 then EmptyIterator else Iter data restart_offset num_restarts
  end.

(** [DecodeEntry(p, limit, ...)] on the bytes between [p] and [limit]: the three numbers and
    the bytes behind them. *)
Definition DecodeEntry (p : list Z) : option (Z * Z * Z * list Z) :=
  if Z.of_nat (length p) <? 3 then None
  else
    let shared := nthZ p 0 in
    let non_shared := nthZ p 1 in
    let value_length := nthZ p 2 in
    r ← (if (shared .| non_shared) .| value_length <? 128
         then Some (shared, non_shared, value_length, drop 3 p)
         else
           '(shared, p) ← GetVarint32Ptr p;
           '(non_shared, p) ← GetVarint32Ptr p;
           '(value_length, p) ← GetVarint32Ptr p;
           Some (shared, non_shared, value_length, p));
    let '(shared, non_shared, value_length, p) := r in
    if w32 (Z.of_nat (length p)) <? w32 (non_shared + value_length) then None else Some r.

(** ** The iterator *)

Record BlockIter := {
  current_ : Z;
  restart_index_ : Z;
  key_ : list Z;
  value_at : Z;      (* where [value_] begins *)
  value_size : Z;
  corrupted : bool (* whether [status_] is the error "bad entry in block" *) }.

Section iter.
Context (compare_ : list Z -> list Z -> Z) (data_ : list Z) (restarts_ num_restarts_ : Z).

Definition new_BlockIter : BlockIter :=
  {| current_ := restarts_; restart_index_ := num_restarts_; key_ := []; value_at := 0; value_size := 0;
     corrupted := false |}.
Definition Valid (it : BlockIter) : bool := current_ it <? restarts_.
Definition iter_value (it : BlockIter) : list Z :=
  take (Z.to_nat (value_size it)) (drop (Z.to_nat (value_at it)) data_).

Definition NextEntryOffset (it : BlockIter) : Z := w32 (value_at it + value_size it).
Definition GetRestartPoint (index : Z) : Z := DecodeFixed32 (drop (Z.to_nat (restarts_ + index * 4)) data_).

Definition SeekToRestartPoint (index : Z) (it : BlockIter) : BlockIter :=
  {| current_ := current_ it; restart_index_ := index; key_ := []; value_at := GetRestartPoint index;
     value_size := 0; corrupted := corrupted it |}.

(** [value_.clear()] leaves an empty slice that is not in the block; it is not read again. *)
Definition CorruptionError (it : BlockIter) : BlockIter :=
  {| current_ := restarts_; restart_index_ := num_restarts_; key_ := []; value_at := 0; value_size := 0;
     corrupted := true |}.

(** [while (restart_index_ + 1 < num_restarts_ && GetRestartPoint(restart_index_ + 1) < current_)] *)
Fixpoint advance_restart (fuel : nat) (index current : Z) : Z :=
  match fuel with
  | O => index
  | S fuel' =>
      if (index + 1 <? num_restarts_) && (GetRestartPoint (index + 1) <? current)
      then advance_restart fuel' (index + 1) current else index
  end.

Definition bytes_from (p : Z) : list Z := drop (Z.to_nat p) (take (Z.to_nat restarts_) data_).

Definition ParseNextKey (it : BlockIter) : bool * BlockIter :=
  let current := NextEntryOffset it in
  if restarts_ <=? current then
    (false, {| current_ := restarts_; restart_index_ := num_restarts_; key_ := key_ it;
               value_at := value_at it; value_size := value_size it; corrupted := corrupted it |})
  else
    match DecodeEntry (bytes_from current) with
    | None => (false, CorruptionError it)
    | Some (shared, non_shared, value_length, p) =>
        if Z.of_nat (length (key_ it)) <? shared then (false, CorruptionError it)
        else
          let at_ := restarts_ - Z.of_nat (length p) in
          (true, {| current_ := current;
                    restart_index_ := advance_restart (Z.to_nat num_restarts_) (restart_index_ it) current;
                    key_ := take (Z.to_nat shared) (key_ it) ++ take (Z.to_nat non_shared) p;
                    value_at := at_ + non_shared; value_size := value_length; corrupted := corrupted it |})
    end.

Definition Iter_Next (it : BlockIter) : BlockIter := snd (ParseNextKey it).
Definition Iter_SeekToFirst (it : BlockIter) : BlockIter := snd (ParseNextKey (SeekToRestartPoint 0 it)).

(** [while (ParseNextKey() && NextEntryOffset() < limit)], of [SeekToLast] and [Prev]. *)
Fixpoint skip_to (fuel : nat) (limit : Z) (it : BlockIter) : option BlockIter :=
  match fuel with
  | O => None
  | S fuel' =>
      let '(ok, it) := ParseNextKey it in
      if ok && (NextEntryOffset it <? limit) then skip_to fuel' limit it else Some it
  end.
Definition Iter_SeekToLast (it : BlockIter) : option BlockIter :=
  skip_to (S (Z.to_nat restarts_)) restarts_ (SeekToRestartPoint (num_restarts_ - 1) it).

(** [while (GetRestartPoint(restart_index_) >= original)]; [None] when there is no entry
    before. *)
Fixpoint back_up (fuel : nat) (index original : Z) : option Z :=
  match fuel with
  | O => None
  | S fuel' =>
      if original <=? GetRestartPoint index
      then if index =? 0 then None else back_up fuel' (index - 1) original
      else Some index
  end.
Definition Iter_Prev (it : BlockIter) : option BlockIter :=
  let original := current_ it in
  match back_up (S (Z.to_nat num_restarts_)) (restart_index_ it) original with
  | None =>
      Some {| current_ := restarts_; restart_index_ := num_restarts_; key_ := key_ it;
              value_at := value_at it; value_size := value_size it; corrupted := corrupted it |}
  | Some index => skip_to (S (Z.to_nat restarts_)) original (SeekToRestartPoint index it)
  end.

(** The binary search; [None] is a corrupted restart point. *)
Fixpoint search_restart (fuel : nat) (target : list Z) (left right : Z) : option (option Z) :=
  match fuel with
  | O => None
  | S fuel' =>
      if left <? right then
        let mid := (left + right + 1) / 2 in
        match DecodeEntry (bytes_from (GetRestartPoint mid)) with
        | None => Some None
        | Some (shared, non_shared, _, p) =>
            if negb (shared =? 0) then Some None
            else if compare_ (take (Z.to_nat non_shared) p) target <? 0
            then search_restart fuel' target mid right
            else search_restart fuel' target left (mid - 1)
        end
      else Some (Some left)
  end.

(** [while (true)]: up to the first key that is not before the target. *)
Fixpoint linear_search (fuel : nat) (target : list Z) (it : BlockIter) : option BlockIter :=
  match fuel with
  | O => None
  | S fuel' =>
      let '(ok, it) := ParseNextKey it in
      if negb ok then Some it
      else if 0 <=? compare_ (key_ it) target then Some it
      else linear_search fuel' target it
  end.

Definition Iter_Seek (target : list Z) (it : BlockIter) : option BlockIter :=
  found ← search_restart (S (Z.to_nat num_restarts_)) target 0 (num_restarts_ - 1);
  match found with
  | None => Some (CorruptionError it)
  | Some index => linear_search (S (Z.to_nat restarts_)) target (SeekToRestartPoint index it)
  end.
End iter.

(** ** The bytes of an entry *)

Record ent := { e_shared : nat; e_key : list Z; e_value : list Z }.

Definition enc (e : ent) : list Z :=
  EncodeVarint32 (Z.of_nat (e_shared e)) ++ EncodeVarint32 (Z.of_nat (length (e_key e) - e_shared e))
    ++ EncodeVarint32 (Z.of_nat (length (e_value e))) ++ drop (e_shared e) (e_key e) ++ e_value e.

Definition ent_ok (e : ent) : Prop :=
  (e_shared e <= length (e_key e))%nat
  /\ Z.of_nat (length (e_key e)) + Z.of_nat (length (e_value e)) < 0x1_0000_0000.

(** A number of one byte is that byte; a longer one starts with a byte that is marked. *)
Lemma varint_first v rest : is32 v -> (v < 128 -> EncodeVarint32 v ++ rest = v :: rest)
  /\ (128 <= v -> exists b tl, EncodeVarint32 v ++ rest = b :: tl /\ 128 <= b).
Proof.
  intros Hv. rewrite EncodeVarint32_groups by done. cbn [groups]. unfold is32 in Hv. split; intros H.
  - by rewrite (proj2 (Z.ltb_lt _ _) H).
  - rewrite (proj2 (Z.ltb_ge _ _) H). pose proof (Z.mod_pos_bound v 128). eexists _, _. split; [done|]. lia.
Qed.

Lemma lor_lt_128 a b : 0 <= a -> 0 <= b -> (a .| b) < 128 <-> a < 128 /\ b < 128.
Proof.
  intros Ha Hb. assert (forall x, 0 <= x -> x < 128 <-> (Z.shiftr x 7 = 0)) as Hs.
  { intros x Hx. rewrite Z.shiftr_div_pow2 by lia. change (2 ^ 7) with 128. split; intros H.
    - apply Z.div_small. lia.
    - apply Z.div_small_iff in H; lia. }
  rewrite !Hs by (try apply Z.lor_nonneg; auto). rewrite Z.shiftr_lor. apply Z.lor_eq_0_iff.
Qed.

Lemma enc_parts e rest : ent_ok e ->
  enc e ++ rest = EncodeVarint32 (Z.of_nat (e_shared e)) ++ EncodeVarint32 (Z.of_nat (length (e_key e) - e_shared e))
    ++ EncodeVarint32 (Z.of_nat (length (e_value e))) ++ (drop (e_shared e) (e_key e) ++ e_value e ++ rest).
Proof. intros _. unfold enc. by rewrite <- !app_assoc. Qed.

Lemma varint_nonempty v : (1 <= length (EncodeVarint32 v))%nat.
Proof. unfold EncodeVarint32. repeat case_match; cbn; lia. Qed.

Lemma length_enc e : (3 <= length (enc e))%nat.
Proof.
  unfold enc. rewrite !length_app. pose proof (varint_nonempty (Z.of_nat (e_shared e))).
  pose proof (varint_nonempty (Z.of_nat (length (e_key e) - e_shared e))). pose proof (varint_nonempty (Z.of_nat (length (e_value e)))). lia.
Qed.

(** The fast path is taken when all three numbers have one byte, and both agree. *)
Lemma three_numbers a b c rest :
  is32 a -> is32 b -> is32 c ->
  let p := EncodeVarint32 a ++ EncodeVarint32 b ++ EncodeVarint32 c ++ rest in
  (if (nthZ p 0 .| nthZ p 1) .| nthZ p 2 <? 128
   then Some (nthZ p 0, nthZ p 1, nthZ p 2, drop 3 p)
   else '(shared, p) ← GetVarint32Ptr p; '(non_shared, p) ← GetVarint32Ptr p;
        '(value_length, p) ← GetVarint32Ptr p; Some (shared, non_shared, value_length, p))
  = Some (a, b, c, rest).
Proof.
  intros Ha Hb Hc p.
  assert (('(shared, p) ← GetVarint32Ptr p; '(non_shared, p) ← GetVarint32Ptr p;
        '(value_length, p) ← GetVarint32Ptr p; Some (shared, non_shared, value_length, p)) = Some (a, b, c, rest)) as Hslow.
  { unfold p. rewrite GetVarint32_Encode by done. cbn [mbind option_bind]. rewrite GetVarint32_Encode by done.
    cbn [mbind option_bind]. by rewrite GetVarint32_Encode. }
  assert (bytes (EncodeVarint32 a) /\ bytes (EncodeVarint32 b) /\ bytes (EncodeVarint32 c)) as (Ba & Bb & Bc)
    by (split_and!; by apply bytes_EncodeVarint32).
  destruct (Z.ltb_spec ((nthZ p 0 .| nthZ p 1) .| nthZ p 2) 128) as [Hlt|]; [|done]. clear Hslow.
  assert (forall i, (i < 3)%nat -> 0 <= nthZ p (Z.of_nat i)) as Hpos.
  { intros i Hi. unfold nthZ. rewrite Nat2Z.id. destruct (p !! i) as [x|] eqn:E; cbn; [|lia].
    pose proof (varint_nonempty a). pose proof (varint_nonempty b). pose proof (varint_nonempty c).
    assert (x ∈ EncodeVarint32 a ++ EncodeVarint32 b ++ EncodeVarint32 c) as Hx.
    { unfold p in E. rewrite !app_assoc in E. rewrite lookup_app_l in E by (rewrite !length_app; lia).
      rewrite <- app_assoc in E. by eapply list_elem_of_lookup_2. }
    assert (bytes (EncodeVarint32 a ++ EncodeVarint32 b ++ EncodeVarint32 c)) as Hall by (by rewrite !bytes_app).
    unfold bytes in Hall. rewrite Forall_forall in Hall. apply (Hall x Hx). }
  pose proof (Hpos 0%nat ltac:(lia)) as P0. pose proof (Hpos 1%nat ltac:(lia)) as P1. pose proof (Hpos 2%nat ltac:(lia)) as P2.
  cbn [Z.of_nat Pos.of_succ_nat Pos.succ] in P0, P1, P2. change (Z.of_nat 0) with 0 in P0.
  apply lor_lt_128 in Hlt as [Hlt L2]; [|by apply Z.lor_nonneg|done]. apply lor_lt_128 in Hlt as [L0 L1]; [|done..].
  unfold p in *. clear p.
  destruct (varint_first a (EncodeVarint32 b ++ EncodeVarint32 c ++ rest) Ha) as [Fa Ga].
  destruct (Z.lt_ge_cases a 128) as [Ha'|Ha']; [rewrite (Fa Ha') in *|destruct (Ga Ha') as (x & tl & E & ?); rewrite E in L0; change (nthZ (x :: tl) 0) with x in L0; lia].
  destruct (varint_first b (EncodeVarint32 c ++ rest) Hb) as [Fb Gb].
  destruct (Z.lt_ge_cases b 128) as [Hb'|Hb']; [rewrite (Fb Hb') in *|destruct (Gb Hb') as (x & tl & E & ?); rewrite E in L1; change (nthZ (a :: x :: tl) 1) with x in L1; lia].
  destruct (varint_first c rest Hc) as [Fc Gc].
  destruct (Z.lt_ge_cases c 128) as [Hc'|Hc']; [rewrite (Fc Hc') in *|destruct (Gc Hc') as (x & tl & E & ?); rewrite E in L2; change (nthZ (a :: b :: x :: tl) 2) with x in L2; lia].
  done.
Qed.

Lemma DecodeEntry_enc e rest :
  ent_ok e -> Z.of_nat (length (enc e ++ rest)) < 0x1_0000_0000 ->
  DecodeEntry (enc e ++ rest)
    = Some (Z.of_nat (e_shared e), Z.of_nat (length (e_key e) - e_shared e), Z.of_nat (length (e_value e)),
            drop (e_shared e) (e_key e) ++ e_value e ++ rest).
Proof.
  intros He Hsz. pose proof He as [Hsh Hlen]. unfold DecodeEntry. pose proof (length_enc e).
  rewrite (proj2 (Z.ltb_ge _ _)) by (rewrite length_app; lia). rewrite enc_parts by done.
  rewrite three_numbers by (unfold is32; lia). cbn [mbind option_bind].
  rewrite (proj2 (Z.ltb_ge _ _)); [done|].
  assert (length (drop (e_shared e) (e_key e) ++ e_value e ++ rest) <= length (enc e ++ rest))%nat as Hle
    by (rewrite enc_parts by done; rewrite !length_app; lia).
  rewrite !w32_small by (unfold is32; rewrite ?length_app, ?length_drop in *; lia).
  rewrite !length_app, length_drop. lia.
Qed.

(** ** Blocks in general: the entries [items], and the indices [rs] of the restart points *)

Section layout.
Context (compare_ : list Z -> list Z -> Z) (items : list ent) (rs : list nat) (data : list Z).

Definition off (i : nat) : Z := Z.of_nat (length (concat (map enc (take i items)))).
Definition total : Z := off (length items).
Definition num : Z := Z.of_nat (length rs).

Record layout : Prop := {
  l_ok : Forall ent_ok items;
  l_first e : items !! 0%nat = Some e -> e_shared e = 0%nat;
  l_chain i e e' : items !! i = Some e -> items !! S i = Some e' ->
    (e_shared e' <= length (e_key e))%nat /\ take (e_shared e') (e_key e) = take (e_shared e') (e_key e');
  l_data : take (Z.to_nat total) data = concat (map enc items);
  l_size : total < 0x1_0000_0000;
  l_sorted : StronglySorted lt rs;
  l_zero : rs !! 0%nat = Some 0%nat;
  l_inside r : r ∈ rs -> (r < length items)%nat \/ (items = [] /\ rs = [0%nat]);
  l_whole r e : r ∈ rs -> items !! r = Some e -> e_shared e = 0%nat;
  l_points j r : rs !! j = Some r -> GetRestartPoint data total (Z.of_nat j) = off r }.

Context (Lay : layout).

Lemma off_S i e : items !! i = Some e -> off (S i) = off i + Z.of_nat (length (enc e)).
Proof.
  intros He. unfold off. rewrite (take_S_r _ _ _ He), map_app, concat_app, length_app. cbn [map concat].
  rewrite app_nil_r. lia.
Qed.
Lemma off_mono i j : (i <= j)%nat -> off i <= off j.
Proof.
  intros Hij. unfold off. rewrite <- (take_drop i (take j items)), take_take, Nat.min_l by done.
  rewrite map_app, concat_app, length_app. lia.
Qed.
Lemma off_lt i j : (i < j)%nat -> (j <= length items)%nat -> off i < off j.
Proof.
  intros Hij Hj. destruct (lookup_lt_is_Some_2 items i) as [e He]; [lia|].
  pose proof (off_mono (S i) j ltac:(lia)). rewrite (off_S i e He) in *. pose proof (length_enc e). lia.
Qed.
Lemma off_lt_iff i j : (i <= length items)%nat -> (j <= length items)%nat -> off i < off j <-> (i < j)%nat.
Proof.
  intros Hi Hj. split; [|intros; by apply off_lt]. intros H.
  destruct (decide (i < j)%nat); [done|]. pose proof (off_mono j i ltac:(lia)). lia.
Qed.
Lemma off_bounds i : 0 <= off i <= total.
Proof.
  split; [unfold off; lia|]. destruct (decide (i <= length items)%nat); [by apply off_mono|].
  unfold total, off. by rewrite !take_ge by lia.
Qed.

Lemma bytes_at i : bytes_from data total (off i) = concat (map enc (drop i items)).
Proof.
  unfold bytes_from. rewrite (l_data Lay). unfold off. rewrite Nat2Z.id.
  rewrite <- (take_drop i items) at 2. rewrite map_app, concat_app. apply drop_app_length.
Qed.

Lemma DecodeEntry_at i e : items !! i = Some e ->
  DecodeEntry (bytes_from data total (off i))
    = Some (Z.of_nat (e_shared e), Z.of_nat (length (e_key e) - e_shared e), Z.of_nat (length (e_value e)),
            drop (e_shared e) (e_key e) ++ e_value e ++ concat (map enc (drop (S i) items))).
Proof.
  intros He. rewrite bytes_at. rewrite (drop_S items e i He). cbn [map concat]. apply DecodeEntry_enc.
  - pose proof (l_ok Lay) as Ho. rewrite Forall_forall in Ho. apply Ho. by eapply list_elem_of_lookup_2.
  - pose proof (l_size Lay) as Hs. eapply Z.le_lt_trans; [|exact Hs]. unfold total, off. rewrite firstn_all.
    rewrite <- (take_drop_middle items i e He) at 2. rewrite map_app, concat_app, !length_app. cbn [map concat].
    rewrite length_app. lia.
Qed.

(** Where the iterator is. *)
Definition in_restart (index : Z) (i : nat) : Prop :=
  exists j r, index = Z.of_nat j /\ rs !! j = Some r /\ (r <= i)%nat.

Record at_entry (it : BlockIter) (i : nat) (e : ent) : Prop := {
  ae_item : items !! i = Some e;
  ae_current : current_ it = off i;
  ae_key : key_ it = e_key e;
  ae_next : value_at it + value_size it = off (S i);
  ae_value : iter_value data it = e_value e;
  ae_status : corrupted it = false;
  ae_index : in_restart (restart_index_ it) i }.

Record before_entry (it : BlockIter) (i : nat) : Prop := {
  be_next : value_at it + value_size it = off i;
  be_key e : items !! i = Some e ->
    (e_shared e <= length (key_ it))%nat /\ take (e_shared e) (key_ it) = take (e_shared e) (e_key e);
  be_status : corrupted it = false;
  be_index : in_restart (restart_index_ it) i }.

(** Past the last entry. *)
Definition at_end (it : BlockIter) : Prop := current_ it = total /\ corrupted it = false.

Lemma at_before it i e : at_entry it i e -> before_entry it (S i).
Proof.
  intros [Hi Hc Hk Hn Hv Hs (j & r & Ej & Hj & Hr)]. split; try done.
  - intros e' He'. rewrite Hk. by apply (l_chain Lay i).
  - exists j, r. split_and!; try done. lia.
Qed.

Lemma restart_before it j r : rs !! j = Some r -> corrupted it = false ->
  before_entry (SeekToRestartPoint data total (Z.of_nat j) it) r.
Proof.
  intros Hj Hs. split; cbn [SeekToRestartPoint value_at value_size key_ corrupted restart_index_].
  - rewrite (l_points Lay j r Hj). lia.
  - intros e He. rewrite (l_whole Lay r e); [split; [cbn; lia|done]|by eapply list_elem_of_lookup_2|done].
  - done.
  - exists j, r. done.
Qed.

Lemma advance_in_restart fuel index i :
  (i < length items)%nat -> in_restart index i -> in_restart (advance_restart data total num fuel index (off i)) i.
Proof.
  intros Hi. revert index. induction fuel as [|fuel IH]; intros index Hin; [done|]. cbn [advance_restart].
  destruct (_ && _) eqn:E; [|done]. apply andb_prop in E as [E1%Z.ltb_lt E2%Z.ltb_lt]. apply IH.
  destruct Hin as (j & r & -> & Hj & Hr). unfold num in E1.
  destruct (lookup_lt_is_Some_2 rs (S j)) as [r' Hr']; [lia|]. exists (S j), r'. split_and!; [lia|done|].
  replace (Z.of_nat j + 1) with (Z.of_nat (S j)) in E2 by lia. rewrite (l_points Lay _ _ Hr') in E2.
  destruct (l_inside Lay r') as [H|[-> _]]; [by eapply list_elem_of_lookup_2| |cbn in Hi; lia].
  apply off_lt_iff in E2; lia.
Qed.

Lemma next_offset it i : value_at it + value_size it = off i -> NextEntryOffset it = off i.
Proof.
  intros E. unfold NextEntryOffset. rewrite E. apply w32_small. pose proof (off_bounds i). pose proof (l_size Lay).
  unfold is32. lia.
Qed.

Lemma take_drop_prefix (n m t : nat) (l : list Z) : (m + n <= t)%nat -> take n (drop m l) = take n (drop m (take t l)).
Proof. intros H. rewrite !take_drop_commute, take_take. by rewrite Nat.min_l. Qed.

Lemma parse_some it i e :
  before_entry it i -> items !! i = Some e ->
  exists it', ParseNextKey data total num it = (true, it') /\ at_entry it' i e.
Proof.
  intros [Hn Hk Hs Hin] He. destruct (Hk e He) as [Hsh Hpre].
  pose proof (l_ok Lay) as Ho. rewrite Forall_forall in Ho.
  destruct (Ho e ltac:(by eapply list_elem_of_lookup_2)) as [Hsk Hlen].
  pose proof (lookup_lt_Some _ _ _ He) as Hi.
  unfold ParseNextKey. rewrite (next_offset it i Hn).
  rewrite (proj2 (Z.leb_gt total (off i))) by (apply off_lt; lia). rewrite (DecodeEntry_at i e He).
  rewrite (proj2 (Z.ltb_ge _ _)) by lia. eexists. split; [done|].
  set (post := concat (map enc (drop (S i) items))).
  assert (exists A, concat (map enc items) = A ++ drop (e_shared e) (e_key e) ++ e_value e ++ post
    /\ Z.of_nat (length A) + Z.of_nat (length (drop (e_shared e) (e_key e))) + Z.of_nat (length (e_value e)) = off (S i))
    as (A & EA & HA).
  { assert (concat (map enc items) = concat (map enc (take i items)) ++ enc e ++ post) as ->.
    { rewrite <- (take_drop_middle items i e He) at 1. by rewrite map_app, concat_app. }
    exists (concat (map enc (take i items)) ++ EncodeVarint32 (Z.of_nat (e_shared e))
      ++ EncodeVarint32 (Z.of_nat (length (e_key e) - e_shared e)) ++ EncodeVarint32 (Z.of_nat (length (e_value e)))).
    split; [rewrite (enc_parts e) by done; by rewrite <- !app_assoc|].
    rewrite (off_S i e He). unfold off. rewrite <- (app_nil_r (enc e)), (enc_parts e []) by done.
    rewrite !length_app. cbn [length]. lia. }
  assert (total = Z.of_nat (length (concat (map enc items)))) as Et by (unfold total, off; by rewrite firstn_all).
  assert (total - Z.of_nat (length (drop (e_shared e) (e_key e) ++ e_value e ++ post)) = Z.of_nat (length A)) as Eat.
  { rewrite Et, EA, !length_app. lia. }
  rewrite Eat. rewrite length_drop in HA.
  split; cbn [current_ restart_index_ key_ value_at value_size corrupted]; try done.
  - rewrite !Nat2Z.id, Hpre. rewrite take_app_le by (rewrite length_drop; lia).
    rewrite (take_ge (drop _ _)) by (rewrite length_drop; lia). apply take_drop.
  - unfold iter_value. cbn [value_at value_size]. rewrite Nat2Z.id.
    rewrite (take_drop_prefix _ _ (Z.to_nat total)).
    + rewrite (l_data Lay), EA. replace (Z.to_nat _) with (length A + length (drop (e_shared e) (e_key e)))%nat
        by (rewrite length_drop; lia).
      rewrite drop_app_add, drop_app_length. apply take_app_length.
    + pose proof (off_bounds (S i)). lia.
  - apply advance_in_restart; done.
Qed.

Lemma parse_none it :
  before_entry it (length items) -> exists it', ParseNextKey data total num it = (false, it') /\ at_end it'.
Proof.
  intros [Hn _ Hs _]. unfold ParseNextKey. rewrite (next_offset it _ Hn). fold total. rewrite Z.leb_refl.
  eexists. split; [done|]. done.
Qed.

(** [while (ParseNextKey() && NextEntryOffset() < limit)] stops at the entry that ends there. *)
Lemma skip_to_entry j e it i fuel :
  before_entry it i -> (i <= j)%nat -> items !! j = Some e -> (j - i < fuel)%nat ->
  exists it', skip_to data total num fuel (off (S j)) it = Some it' /\ at_entry it' j e.
Proof.
  intros Hb Hij He. revert it i Hb Hij. induction fuel as [|fuel IH]; intros it i Hb Hij Hf; [lia|]. cbn [skip_to].
  pose proof (lookup_lt_Some _ _ _ He) as Hj.
  destruct (lookup_lt_is_Some_2 items i) as [e' He']; [lia|].
  destruct (parse_some it i e' Hb He') as (it' & -> & Ha). cbn [andb].
  rewrite (next_offset it' (S i)) by apply Ha. destruct (decide (i = j)) as [->|Hn].
  - rewrite Z.ltb_irrefl. simplify_eq. by exists it'.
  - rewrite (proj2 (Z.ltb_lt _ _)) by (apply off_lt; lia). apply (IH it' (S i)); [by eapply at_before|lia..].
Qed.

Lemma off_count i : (i <= length items)%nat -> Z.of_nat i <= off i.
Proof.
  induction i as [|i IH]; intros Hi; [unfold off; lia|].
  destruct (lookup_lt_is_Some_2 items i) as [e He]; [lia|]. rewrite (off_S i e He). pose proof (length_enc e).
  specialize (IH ltac:(lia)). lia.
Qed.
Lemma fuel_enough i : (i <= length items)%nat -> (i < S (Z.to_nat total))%nat.
Proof. intros Hi. pose proof (off_count _ Hi). pose proof (off_mono i (length items) Hi). unfold total. lia. Qed.

(** ** The five ways to place the iterator *)

Lemma Iter_Next_at it i e : at_entry it i e ->
  match items !! S i with
  | Some e' => at_entry (Iter_Next data total num it) (S i) e'
  | None => at_end (Iter_Next data total num it)
  end.
Proof.
  intros Ha. pose proof (at_before it i e Ha) as Hb. unfold Iter_Next. destruct (items !! S i) as [e'|] eqn:E.
  - by destruct (parse_some it (S i) e' Hb E) as (it' & -> & H).
  - apply lookup_ge_None_1 in E. pose proof (lookup_lt_Some _ _ _ (ae_item _ _ _ Ha)).
    replace (S i) with (length items) in Hb by lia. by destruct (parse_none it Hb) as (it' & -> & Hd).
Qed.

Lemma Iter_SeekToFirst_at it : corrupted it = false ->
  match items !! 0%nat with
  | Some e => at_entry (Iter_SeekToFirst data total num it) 0 e
  | None => at_end (Iter_SeekToFirst data total num it)
  end.
Proof.
  intros Hs. pose proof (restart_before it 0 0 (l_zero Lay) Hs) as Hb. unfold Iter_SeekToFirst.
  change (Z.of_nat 0) with 0 in Hb. destruct (items !! 0%nat) as [e|] eqn:E.
  - by destruct (parse_some _ 0 e Hb E) as (it' & -> & H).
  - apply lookup_ge_None_1 in E. replace 0%nat with (length items) in Hb by lia.
    by destruct (parse_none _ Hb) as (it' & -> & H).
Qed.

Lemma rs_nonempty : (0 < length rs)%nat.
Proof. apply (lookup_lt_Some _ _ _ (l_zero Lay)). Qed.

Lemma restart_inside j r e i : rs !! j = Some r -> items !! i = Some e -> (r < length items)%nat.
Proof.
  intros Hj He. destruct (l_inside Lay r) as [H|[H _]]; [by eapply list_elem_of_lookup_2|done|].
  by rewrite H in He.
Qed.

Lemma Iter_SeekToLast_at it : corrupted it = false ->
  exists it', Iter_SeekToLast data total num it = Some it' /\
  match last items with Some e => at_entry it' (length items - 1) e | None => at_end it' end.
Proof.
  intros Hs. pose proof rs_nonempty as Hn. destruct (lookup_lt_is_Some_2 rs (length rs - 1)) as [r Hr]; [lia|].
  pose proof (restart_before it _ r Hr Hs) as Hb. unfold Iter_SeekToLast.
  replace (num - 1) with (Z.of_nat (length rs - 1)) by (unfold num; lia).
  rewrite last_lookup. replace (pred (length items)) with (length items - 1)%nat by lia.
  destruct (items !! (length items - 1)%nat) as [e|] eqn:E.
  - pose proof (restart_inside _ _ _ _ Hr E).
    pose proof (fuel_enough (length items - 1) ltac:(lia)).
    destruct (skip_to_entry (length items - 1) e _ r (S (Z.to_nat total)) Hb ltac:(lia) E ltac:(lia)) as (it' & Hk & Ha).
    replace (off (S (length items - 1))) with total in Hk by (unfold total; f_equal; lia). by exists it'.
  - apply lookup_ge_None_1 in E. destruct (l_inside Lay r) as [H|[H1 H2]]; [by eapply list_elem_of_lookup_2|lia|].
    rewrite H2 in Hr. cbn in Hr. simplify_eq/=. replace 0%nat with (length items) in Hb at 2 by (rewrite H1; done).
    cbn [skip_to]. destruct (parse_none _ Hb) as (it' & Hp & H). rewrite H2 in Hp |- *. cbn [length Nat.sub] in Hp |- *.
    rewrite Hp. by exists it'.
Qed.

(** The last restart point before an entry, if there is an entry before. *)
Lemma back_up_at fuel j r i :
  (i < length items)%nat -> rs !! j = Some r -> (r <= i)%nat -> (j < fuel)%nat ->
  (i = 0%nat /\ back_up data total fuel (Z.of_nat j) (off i) = None)
  \/ exists j' r', back_up data total fuel (Z.of_nat j) (off i) = Some (Z.of_nat j') /\ rs !! j' = Some r' /\ (r' < i)%nat.
Proof.
  intros Hi. revert j r. induction fuel as [|fuel IH]; intros j r Hj Hr Hf; [lia|]. cbn [back_up].
  rewrite (l_points Lay j r Hj). destruct (Z.leb_spec (off i) (off r)) as [Hle|Hlt].
  - assert (r = i) as -> by (destruct (decide (r < i)%nat) as [H|]; [apply off_lt in H; lia|lia]).
    destruct j as [|j].
    + left. split; [|done]. rewrite (l_zero Lay) in Hj. congruence.
    + rewrite (proj2 (Z.eqb_neq _ _)) by lia. replace (Z.of_nat (S j) - 1) with (Z.of_nat j) by lia.
      destruct (lookup_lt_is_Some_2 rs j) as [r' Hr']; [apply lookup_lt_Some in Hj; lia|].
      assert (r' < i)%nat by (apply (sorted_lookup lt rs j (S j)); [apply (l_sorted Lay)|lia|done..]).
      apply (IH j r'); [done|lia..].
  - right. exists j, r. split_and!; [done..|]. apply off_lt_iff in Hlt; lia.
Qed.

Lemma Iter_Prev_at it i e : at_entry it i e ->
  exists it', Iter_Prev data total num it = Some it' /\
  match i with
  | O => at_end it'
  | S i' => exists e', at_entry it' i' e'
  end.
Proof.
  intros [He Hc Hk Hn Hv Hs (j & r & Ej & Hj & Hr)]. unfold Iter_Prev. rewrite Hc, Ej.
  pose proof (lookup_lt_Some _ _ _ He) as Hi. pose proof (lookup_lt_Some _ _ _ Hj) as Hj'.
  destruct (back_up_at (S (Z.to_nat num)) j r i Hi Hj Hr) as [[-> ->]|(j' & r' & -> & Hj1 & Hr1)].
  { unfold num. lia. }
  { eexists. split; [done|]. done. }
  destruct i as [|i]; [lia|]. destruct (lookup_lt_is_Some_2 items i) as [e' He']; [lia|].
  pose proof (fuel_enough i ltac:(lia)).
  destruct (skip_to_entry i e' (SeekToRestartPoint data total (Z.of_nat j') it) r' (S (Z.to_nat total))) as (it' & Hsk & Ha);
    [by apply restart_before|lia|done|lia|].
  exists it'. split; [done|]. by exists e'.
Qed.

(** *** [Seek], when the keys are in order *)

Context (target : list Z)
  (Sorted_keys : forall i j e e', (i < j)%nat -> items !! i = Some e -> items !! j = Some e' ->
     compare_ (e_key e') target < 0 -> compare_ (e_key e) target < 0).

Definition before_target (n : nat) : Prop := forall i e, (i < n)%nat -> items !! i = Some e -> compare_ (e_key e) target < 0.

Lemma linear_search_at fuel it i :
  before_entry it i -> (i <= length items)%nat -> before_target i -> (length items - i < fuel)%nat ->
  exists it', linear_search compare_ data total num fuel target it = Some it' /\
    ((exists j e, at_entry it' j e /\ 0 <= compare_ (e_key e) target /\ before_target j)
     \/ (at_end it' /\ before_target (length items))).
Proof.
  revert it i. induction fuel as [|fuel IH]; intros it i Hb Hi Ht Hf; [lia|]. cbn [linear_search].
  destruct (items !! i) as [e|] eqn:E.
  - destruct (parse_some it i e Hb E) as (it' & -> & Ha). cbn [negb]. rewrite (ae_key _ _ _ Ha).
    pose proof (lookup_lt_Some _ _ _ E). destruct (Z.leb_spec 0 (compare_ (e_key e) target)) as [H0|H0].
    + exists it'. split; [done|]. left. by exists i, e.
    + apply (IH it' (S i)); [by eapply at_before|lia| |lia]. intros k e' Hk Hk'.
      destruct (decide (k = i)) as [->|]; [by simplify_eq|]. apply (Ht k); [lia|done].
  - apply lookup_ge_None_1 in E. replace i with (length items) in * by lia.
    destruct (parse_none it Hb) as (it' & -> & Ha). exists it'. split; [done|]. by right.
Qed.

(** The binary search ends at a restart point with nothing but smaller keys before it. *)
Lemma search_restart_at fuel l r rl :
  rs !! l = Some rl -> before_target rl -> (l <= r < length rs)%nat -> (r - l < fuel)%nat ->
  exists l' rl', search_restart compare_ data total fuel target (Z.of_nat l) (Z.of_nat r) = Some (Some (Z.of_nat l'))
    /\ rs !! l' = Some rl' /\ before_target rl'.
Proof.
  revert l r rl. induction fuel as [|fuel IH]; intros l r rl Hl Ht Hlr Hf; [lia|]. cbn [search_restart].
  destruct (Z.ltb_spec (Z.of_nat l) (Z.of_nat r)) as [Hlt|]; [|by exists l, rl].
  set (mid := Z.to_nat ((Z.of_nat l + Z.of_nat r + 1) / 2)).
  pose proof (Z.div_mod (Z.of_nat l + Z.of_nat r + 1) 2 ltac:(lia)).
  pose proof (Z.mod_pos_bound (Z.of_nat l + Z.of_nat r + 1) 2 ltac:(lia)).
  replace ((Z.of_nat l + Z.of_nat r + 1) / 2) with (Z.of_nat mid) by (unfold mid; lia).
  assert (l < mid <= r)%nat as Hm by (unfold mid; lia).
  destruct (lookup_lt_is_Some_2 rs mid) as [rm Hrm]; [lia|]. rewrite (l_points Lay mid rm Hrm).
  destruct (l_inside Lay rm) as [Hin|[_ H1]]; [by eapply list_elem_of_lookup_2| |rewrite H1 in Hlr; cbn in Hlr; lia].
  destruct (lookup_lt_is_Some_2 items rm Hin) as [e He]. rewrite (DecodeEntry_at rm e He).
  rewrite (l_whole Lay rm e) by (done || by eapply list_elem_of_lookup_2). cbn [Z.eqb Z.of_nat negb].
  rewrite drop_0, Nat.sub_0_r, Nat2Z.id, take_app_length.
  destruct (Z.ltb_spec (compare_ (e_key e) target) 0) as [Hc|Hc].
  - apply (IH mid r rm); [done| |lia..]. intros i e' Hi Hi'. by apply (Sorted_keys i rm e' e).
  - replace (Z.of_nat mid - 1) with (Z.of_nat (mid - 1)) by lia. apply (IH l (mid - 1)%nat rl); [done..|lia|lia].
Qed.

Lemma Iter_Seek_at it : corrupted it = false ->
  exists it', Iter_Seek compare_ data total num target it = Some it' /\
    ((exists j e, at_entry it' j e /\ 0 <= compare_ (e_key e) target /\ before_target j)
     \/ (at_end it' /\ before_target (length items))).
Proof.
  intros Hs. unfold Iter_Seek. pose proof rs_nonempty.
  destruct (search_restart_at (S (Z.to_nat num)) 0 (length rs - 1) 0 (l_zero Lay)) as (l & rl & E & Hl & Ht).
  { intros i e ?. lia. } { lia. } { unfold num. lia. }
  change (Z.of_nat 0) with 0 in E. replace (Z.of_nat (length rs - 1)) with (num - 1) in E by (unfold num; lia).
  rewrite E. cbn [mbind option_bind]. apply (linear_search_at _ _ rl); [by apply restart_before| |done|].
  - destruct (l_inside Lay rl) as [|[-> H1]]; [by eapply list_elem_of_lookup_2|lia|].
    rewrite H1 in Hl. destruct l; cbn in Hl; [by simplify_eq|done].
  - pose proof (fuel_enough (length items) ltac:(lia)). lia.
Qed.
End layout.

(** ** The builder makes such a block *)

Definition kv (e : ent) : list Z * list Z := (e_key e, e_value e).
Definition build (interval : Z) (es : list (list Z * list Z)) (b : BlockBuilder) : BlockBuilder :=
  foldl (fun b '(key, value) => BlockBuilder_Add interval key value b) b es.
Definition fits (es : list (list Z * list Z)) : Prop :=
  Forall (fun '(key, value) => Z.of_nat (length key) + Z.of_nat (length value) < 0x1_0000_0000) es.

Record built (b : BlockBuilder) (items : list ent) (rs : list nat) : Prop := {
  b_ok : Forall ent_ok items;
  b_first e : items !! 0%nat = Some e -> e_shared e = 0%nat;
  b_chain i e e' : items !! i = Some e -> items !! S i = Some e' ->
    (e_shared e' <= length (e_key e))%nat /\ take (e_shared e') (e_key e) = take (e_shared e') (e_key e');
  b_buffer : bb_buffer b = concat (map enc items);
  b_restarts : bb_restarts b = map (off items) rs;
  b_last : bb_last_key b = default [] (e_key <$> last items);
  b_counter : items = [] -> bb_counter b = 0 /\ rs = [0%nat];
  b_sorted : StronglySorted lt rs;
  b_zero : rs !! 0%nat = Some 0%nat;
  b_inside r : r ∈ rs -> (r < length items)%nat \/ (items = [] /\ rs = [0%nat]);
  b_whole r e : r ∈ rs -> items !! r = Some e -> e_shared e = 0%nat }.

Lemma common_prefix_le a b : (common_prefix a b <= length a /\ common_prefix a b <= length b)%nat
  /\ take (common_prefix a b) a = take (common_prefix a b) b.
Proof.
  revert b. induction a as [|x a IH]; intros [|y b]; cbn; try (split; [lia|done]).
  destruct (Z.eqb_spec x y) as [->|]; cbn; [|split; [lia|done]]. destruct (IH b) as [[H1 H2] H3]. split; [lia|].
  by rewrite H3.
Qed.

(** The entry that [Add] appends. *)
Lemma Add_entry interval key value b items rs :
  1 <= interval -> built b items rs -> Z.of_nat (length key) + Z.of_nat (length value) < 0x1_0000_0000 ->
  Z.of_nat (length (bb_buffer (BlockBuilder_Add interval key value b))) < 0x1_0000_0000 ->
  exists sh rs', let e := {| e_shared := sh; e_key := key; e_value := value |} in
    ent_ok e /\ (items = [] -> sh = 0%nat)
    /\ (forall l, last items = Some l -> (sh <= length (e_key l))%nat /\ take sh (e_key l) = take sh key)
    /\ bb_buffer (BlockBuilder_Add interval key value b) = bb_buffer b ++ enc e
    /\ bb_last_key (BlockBuilder_Add interval key value b) = key
    /\ bb_restarts (BlockBuilder_Add interval key value b) = map (off items) rs'
    /\ (rs' = rs \/ (rs' = rs ++ [length items] /\ sh = 0%nat /\ items <> [])).
Proof.
  intros Hi [] Hf Hsz. unfold BlockBuilder_Add in *.
  destruct (Z.ltb_spec (bb_counter b) interval) as [Hc|Hc]; cbn [bb_buffer bb_last_key bb_restarts] in *.
  - destruct (common_prefix_le (bb_last_key b) key) as [[H1 H2] H3]. exists (common_prefix (bb_last_key b) key), rs.
    cbn zeta. split_and!.
    + split; cbn; [done|lia].
    + intros ->. rewrite b_last0. done.
    + intros l Hl. rewrite b_last0, Hl in *. done.
    + unfold PutVarint32, enc. cbn [e_shared e_key e_value]. rewrite !w32_small by (unfold is32; lia).
      by rewrite <- !app_assoc.
    + rewrite H3. apply take_drop.
    + done.
    + by left.
  - exists 0%nat, (rs ++ [length items]). cbn zeta. split_and!; try done.
    + split; cbn; [lia|lia].
    + intros l _. split; [lia|done].
    + unfold PutVarint32, enc. cbn [e_shared e_key e_value]. rewrite !w32_small by (unfold is32; lia).
      by rewrite <- !app_assoc.
    + rewrite map_app, b_restarts0. cbn [map]. unfold PutVarint32 in Hsz. rewrite !length_app in Hsz.
      rewrite w32_small by (unfold is32; lia). unfold off. by rewrite firstn_all, b_buffer0.
    + right. split_and!; [done..|]. intros ->. destruct b_counter0 as [H0 _]; [done|]. lia.
Qed.

Lemma off_app items e i : (i <= length items)%nat -> off (items ++ [e]) i = off items i.
Proof. intros Hi. unfold off. by rewrite take_app_le. Qed.

Lemma Add_built interval key value b items rs :
  1 <= interval -> built b items rs -> Z.of_nat (length key) + Z.of_nat (length value) < 0x1_0000_0000 ->
  Z.of_nat (length (bb_buffer (BlockBuilder_Add interval key value b))) < 0x1_0000_0000 ->
  exists e rs', kv e = (key, value) /\ built (BlockBuilder_Add interval key value b) (items ++ [e]) rs'.
Proof.
  intros Hi Hb Hf Hsz.
  destruct (Add_entry interval key value b items rs Hi Hb Hf Hsz) as (sh & rs' & Hok & H0 & Hch & Hbuf & Hlast & Hrs & Hor).
  destruct Hb. set (e := {| e_shared := sh; e_key := key; e_value := value |}) in *. exists e, rs'. split; [done|].
  assert (forall r, r ∈ rs' -> (r <= length items)%nat) as Hle.
  { intros r Hr. destruct Hor as [->|[-> _]].
    - destruct (b_inside0 r Hr) as [|[-> ->]]; [lia|]. apply list_elem_of_singleton in Hr as ->. done.
    - apply elem_of_app in Hr as [Hr|Hr%list_elem_of_singleton]; [|lia].
      destruct (b_inside0 r Hr) as [|[-> ->]]; [lia|]. apply list_elem_of_singleton in Hr as ->. done. }
  split.
  - apply Forall_app_2; [done|]. by constructor.
  - intros e' He. destruct items as [|x items]; cbn in He; [|by apply b_first0]. simplify_eq. by apply H0.
  - intros i x y Hx Hy. apply lookup_app_Some in Hy as [Hy|[Hge Hy]].
    { rewrite lookup_app_l in Hx by (apply lookup_lt_Some in Hy; lia). by apply (b_chain0 i). }
    apply list_lookup_singleton_Some in Hy as [Hy <-]. rewrite lookup_app_l in Hx by lia.
    apply Hch. rewrite last_lookup, <- Hx. f_equal. lia.
  - rewrite Hbuf, b_buffer0, map_app, concat_app. cbn [map concat]. by rewrite app_nil_r.
  - rewrite Hrs. apply map_ext_in. intros r Hr. symmetry. apply off_app, Hle. by apply list_elem_of_In.
  - by rewrite Hlast, last_snoc.
  - intros H. by destruct items.
  - destruct Hor as [->|(-> & _ & Hne)]; [done|]. apply StronglySorted_app. split_and!; [|done|by repeat constructor].
    intros x y Hx Hy%list_elem_of_singleton. destruct (b_inside0 x Hx) as [|[? _]]; [lia|done].
  - destruct Hor as [->|[-> _]]; [done|]. by apply lookup_app_l_Some.
  - intros r Hr. left. rewrite length_app. cbn [length]. apply Hle in Hr. lia.
  - intros r x Hr Hx. destruct (decide (r = length items)) as [->|Hn].
    + rewrite lookup_app_r, Nat.sub_diag in Hx by lia. cbn in Hx. simplify_eq.
      destruct Hor as [->|(_ & Hz & _)]; [|done]. destruct (b_inside0 _ Hr) as [|[-> _]]; [lia|]. by apply H0.
    + pose proof (Hle r Hr). rewrite lookup_app_l in Hx by lia. apply (b_whole0 r x); [|done].
      destruct Hor as [->|[-> _]]; [done|]. apply elem_of_app in Hr as [|Hr%list_elem_of_singleton]; [done|lia].
Qed.

Lemma Add_grows interval key value b :
  (length (bb_buffer b) <= length (bb_buffer (BlockBuilder_Add interval key value b)))%nat.
Proof. unfold BlockBuilder_Add, PutVarint32. destruct (_ <? _); cbn [bb_buffer]; rewrite !length_app; lia. Qed.

Lemma build_built interval es :
  1 <= interval -> fits es -> Z.of_nat (length (bb_buffer (build interval es new_BlockBuilder))) < 0x1_0000_0000 ->
  exists items rs, map kv items = es /\ built (build interval es new_BlockBuilder) items rs.
Proof.
  intros Hi. induction es as [|[key value] es IH] using rev_ind; intros Hf Hsz.
  { exists [], [0%nat]. split; [done|]. split; try done; try (by repeat constructor). }
  unfold build in *. rewrite foldl_app in *. cbn [foldl] in *. apply Forall_app in Hf as [Hf Hk].
  apply Forall_cons in Hk as [Hk _]. destruct IH as (items & rs & <- & Hb); [done| |].
  { eapply Z.le_lt_trans; [|exact Hsz]. apply inj_le, Add_grows. }
  destruct (Add_built interval key value _ items rs Hi Hb Hk Hsz) as (e & rs' & Hkv & Hb').
  exists (items ++ [e]), rs'. split; [|done]. rewrite map_app. cbn [map]. by rewrite Hkv.
Qed.

(** *** [Finish] *)

Lemma Finish_layout b items rs :
  built b items rs -> Z.of_nat (length (BlockBuilder_Finish b)) < 0x1_0000_0000 ->
  layout items rs (BlockBuilder_Finish b)
  /\ NewIterator (BlockBuilder_Finish b) = Iter (BlockBuilder_Finish b) (total items) (num rs).
Proof.
  intros Hb Hsz. pose proof Hb as [].
  assert (BlockBuilder_Finish b = bb_buffer b ++ concat (map EncodeFixed32 (bb_restarts b)) ++ EncodeFixed32 (w32 (Z.of_nat (length rs)))) as E.
  { unfold BlockBuilder_Finish. rewrite foldl_PutFixed32. unfold PutFixed32. rewrite <- app_assoc. do 4 f_equal.
    rewrite b_restarts0. by rewrite length_map. }
  assert (total items = Z.of_nat (length (bb_buffer b))) as Et by (unfold total, off; by rewrite firstn_all, b_buffer0).
  assert (Z.of_nat (length (BlockBuilder_Finish b)) = total items + 4 * Z.of_nat (length rs) + 4) as El.
  { rewrite E, !length_app, length_fixed_array, length_EncodeFixed32, b_restarts0, length_map. lia. }
  assert (0 <= total items) by (unfold total, off; lia).
  assert (forall i, off items i <= total items) as Hoff by (intros; apply off_bounds).
  assert (0 < length rs)%nat as Hn by (apply (lookup_lt_Some _ _ _ b_zero0)).
  assert (NumRestarts (BlockBuilder_Finish b) = Z.of_nat (length rs)) as Hnum.
  { unfold NumRestarts. rewrite E at 2. rewrite app_assoc.
    replace (_ - 4)%nat with (length (bb_buffer b ++ concat (map EncodeFixed32 (bb_restarts b)))).
    - rewrite drop_app_length. rewrite <- (app_nil_r (EncodeFixed32 _)), w32_small by (unfold is32; lia).
      apply DecodeFixed32_Encode. unfold is32. lia.
    - rewrite length_app, length_fixed_array, b_restarts0, length_map. lia. }
  split.
  - split; try done; [..|lia|].
    + rewrite Et, Nat2Z.id, E, take_app_length. done.
    + intros j r Hj. unfold GetRestartPoint. rewrite E.
      replace (Z.to_nat _) with (length (bb_buffer b) + 4 * j)%nat by lia. rewrite drop_app_add.
      apply DecodeFixed32_array; [|unfold is32; pose proof (Hoff r); unfold off in *; lia].
      rewrite b_restarts0. change (map (off items) rs) with (off items <$> rs). by rewrite list_lookup_fmap, Hj.
  - unfold NewIterator, new_Block. rewrite Hnum.
    rewrite (proj2 (Z.ltb_ge _ _)) by lia. pose proof (Z.div_mod (Z.of_nat (length (BlockBuilder_Finish b)) - 4) 4 ltac:(lia)).
    pose proof (Z.mod_pos_bound (Z.of_nat (length (BlockBuilder_Finish b)) - 4) 4 ltac:(lia)).
    rewrite (proj2 (Z.ltb_ge _ _)) by lia. rewrite Hnum, (proj2 (Z.eqb_neq _ _)) by lia. unfold num. f_equal.
    rewrite (w32_small (1 + _)), w32_small by (unfold is32; lia). lia.
Qed.

(** ** What a reader of the block sees *)

Definition entry_here (data : list Z) (restarts : Z) (it : BlockIter) : option (list Z * list Z) :=
  if Valid restarts it then Some (key_ it, iter_value data it) else None.

(** The entries that an iterator passes, up to where it is no longer valid. *)
Fixpoint walk (step : BlockIter -> option BlockIter) (data : list Z) (restarts : Z) (fuel : nat) (it : BlockIter)
  : option (list (list Z * list Z)) :=
  match fuel with
  | O => None
  | S fuel' =>
      match entry_here data restarts it with
      | None => Some []
      | Some x => it' ← step it; xs ← walk step data restarts fuel' it'; Some (x :: xs)
      end
  end.

Section walks.
Context (items : list ent) (rs : list nat) (data : list Z) (Lay : layout items rs data).

Lemma entry_here_at it i e : at_entry items rs data it i e -> entry_here data (total items) it = Some (kv e).
Proof.
  intros [He Hc Hk _ Hv _ _]. unfold entry_here, Valid. rewrite Hc, Hk, Hv. apply lookup_lt_Some in He.
  rewrite (proj2 (Z.ltb_lt _ _)); [done|]. apply off_lt; lia.
Qed.
Lemma entry_here_end it : at_end items it -> entry_here data (total items) it = None.
Proof. intros [Hc _]. unfold entry_here, Valid. by rewrite Hc, Z.ltb_irrefl. Qed.

Lemma forward_walk fuel it i e : at_entry items rs data it i e -> (length items - i < fuel)%nat ->
  walk (fun it => Some (Iter_Next data (total items) (num rs) it)) data (total items) fuel it = Some (map kv (drop i items)).
Proof.
  revert it i e. induction fuel as [|fuel IH]; intros it i e Ha Hf; [lia|]. cbn [walk].
  rewrite (entry_here_at it i e Ha). cbn [mbind option_bind].
  pose proof (ae_item _ _ _ _ _ _ Ha) as He. pose proof (lookup_lt_Some _ _ _ He). rewrite (drop_S items e i He).
  pose proof (Iter_Next_at items rs data Lay it i e Ha) as Hn. destruct (items !! S i) as [e'|] eqn:E.
  - rewrite (IH _ _ _ Hn) by lia. done.
  - destruct fuel as [|fuel]; [lia|]. cbn [walk]. rewrite entry_here_end by done. cbn [mbind option_bind].
    apply lookup_ge_None_1 in E. by rewrite drop_ge.
Qed.

Lemma backward_walk fuel it i e : at_entry items rs data it i e -> (S i < fuel)%nat ->
  walk (Iter_Prev data (total items) (num rs)) data (total items) fuel it = Some (map kv (reverse (take (S i) items))).
Proof.
  revert it i e. induction fuel as [|fuel IH]; intros it i e Ha Hf; [lia|]. cbn [walk].
  rewrite (entry_here_at it i e Ha). cbn [mbind option_bind]. pose proof (ae_item _ _ _ _ _ _ Ha) as He.
  rewrite (take_S_r _ _ _ He), reverse_app, reverse_singleton. cbn [app map].
  destruct (Iter_Prev_at items rs data Lay it i e Ha) as (it' & -> & Hp). destruct i as [|i].
  - destruct fuel as [|fuel]; [lia|]. cbn [mbind option_bind walk]. by rewrite entry_here_end.
  - destruct Hp as [e' Ha']. cbn [mbind option_bind]. rewrite (IH _ _ _ Ha') by lia. done.
Qed.
End walks.

(** The block made of some entries. *)
Definition build_block (interval : Z) (es : list (list Z * list Z)) : list Z :=
  BlockBuilder_Finish (build interval es new_BlockBuilder).

Section reader.
Context (interval : Z) (es : list (list Z * list Z)).
Context (Interval : 1 <= interval) (Fits : fits es).
Abbreviation data := (build_block interval es).
Context (Size : Z.of_nat (length data) < 0x1_0000_0000).

Lemma finished_block : exists items rs, map kv items = es /\ layout items rs data
  /\ NewIterator data = Iter data (total items) (num rs).
Proof.
  destruct (build_built interval es Interval Fits) as (items & rs & Hm & Hb).
  - eapply Z.le_lt_trans; [|exact Size]. unfold build_block, BlockBuilder_Finish. rewrite foldl_PutFixed32.
    unfold PutFixed32. rewrite !length_app. lia.
  - destruct (Finish_layout _ items rs Hb Size) as [Hl Hn]. by exists items, rs.
Qed.

(** A block that the builder makes holds its entries in both directions: every key and
    value comes back, first to last by [SeekToFirst] and [Next], last to first by
    [SeekToLast] and [Prev], from every state of the iterator without an error. *)
Theorem block_iterates :
  exists restarts num, NewIterator data = Iter data restarts num /\
  forall it, corrupted it = false ->
    walk (fun it => Some (Iter_Next data restarts num it)) data restarts (S (S (length es)))
      (Iter_SeekToFirst data restarts num it) = Some es
    /\ (it ← Iter_SeekToLast data restarts num it;
        walk (Iter_Prev data restarts num) data restarts (S (S (length es))) it) = Some (reverse es).
Proof.
  destruct finished_block as (items & rs & <- & Hl & Hn). exists (total items), (num rs). split; [done|].
  intros it Hs. rewrite length_map. split.
  - pose proof (Iter_SeekToFirst_at items rs _ Hl it Hs) as H. destruct (items !! 0%nat) as [e|] eqn:E.
    + rewrite (forward_walk items rs _ Hl _ _ 0 e H) by lia. by rewrite drop_0.
    + cbn [walk]. rewrite entry_here_end by done. apply lookup_ge_None_1 in E. destruct items; [done|cbn in E; lia].
  - destruct (Iter_SeekToLast_at items rs _ Hl it Hs) as (it' & -> & H). cbn [mbind option_bind].
    destruct (last items) as [e|] eqn:E.
    + pose proof (lookup_lt_Some _ _ _ (ae_item _ _ _ _ _ _ H)).
      rewrite (backward_walk items rs _ Hl _ _ _ e H) by lia.
      rewrite take_ge by lia. change (map kv) with (fmap kv : list ent -> _). by rewrite fmap_reverse.
    + cbn [walk]. rewrite entry_here_end by done. apply last_None in E as ->. done.
Qed.

Context (compare_ : list Z -> list Z -> Z) (ok : list Z -> Prop) `{Ord : !KeyOrder compare_ ok}.
Context (Keys : Forall (fun x => ok (fst x)) es) (Sorted_es : StronglySorted (fun x y => compare_ (fst x) (fst y) < 0) es).

Lemma finished_seek target : ok target ->
  exists restarts num, NewIterator data = Iter data restarts num /\
  forall it, corrupted it = false ->
    exists it', Iter_Seek compare_ data restarts num target it = Some it'
      /\ entry_here data restarts it' = snd <$> list_find (fun x => 0 <= compare_ (fst x) target) es
      /\ corrupted it' = false.
Proof.
  intros Ht. destruct finished_block as (items & rs & Hm & Hl & Hn). exists (total items), (num rs). split; [done|].
  intros it Hs. assert (forall i e, items !! i = Some e -> es !! i = Some (kv e)) as Hes.
  { intros i e He. rewrite <- Hm. change (map kv) with (fmap kv : list ent -> _). by rewrite list_lookup_fmap, He. }
  assert (forall i x, es !! i = Some x -> exists e, items !! i = Some e /\ x = kv e) as Hes'.
  { intros i x. rewrite <- Hm. change (map kv) with (fmap kv : list ent -> _). rewrite list_lookup_fmap.
    destruct (items !! i) as [e|]; cbn; intros [= <-]. by exists e. }
  rewrite Forall_forall in Keys.
  assert (forall i e, items !! i = Some e -> ok (e_key e)) as Hok.
  { intros i e He. apply (Keys (kv e)). eapply list_elem_of_lookup_2, Hes, He. }
  destruct (Iter_Seek_at compare_ items rs data Hl target) with (it := it) as (it' & Hk & Hor); [|done|].
  { intros i j e e' Hij Hi Hj Hlt. apply (compare_trans _ (e_key e')); eauto.
    apply (sorted_lookup _ es i j (kv e) (kv e') Sorted_es Hij); auto. }
  exists it'. split; [done|]. destruct Hor as [(j & e & Ha & Hge & Hb)|[Hend Hb]].
  - rewrite (entry_here_at items rs data _ j e Ha). split; [|apply Ha].
    assert (list_find (fun x => 0 <= compare_ (fst x) target) es = Some (j, kv e)) as ->; [|done].
    apply list_find_Some. split_and!; [apply Hes, Ha|done|]. intros k y Hy Hkj.
    destruct (Hes' k y Hy) as (e' & He' & ->). pose proof (Hb k e' Hkj He'). cbn. lia.
  - rewrite entry_here_end by done. split; [|apply Hend].
    assert (list_find (fun x => 0 <= compare_ (fst x) target) es = None) as ->; [|done].
    apply list_find_None, Forall_lookup. intros k y Hy. destruct (Hes' k y Hy) as (e' & He' & ->).
    pose proof (Hb k e' (lookup_lt_Some _ _ _ He') He'). cbn. lia.
Qed.

(** C32: [Seek] in a block that the builder makes from keys in order stops at the first entry
    whose key is not before the target, or past the end when there is none; the binary
    search among the restart points and the walk from there both end, without an error. *)
Theorem block_seek target : ok target ->
  exists restarts num, NewIterator data = Iter data restarts num /\
  forall it, corrupted it = false ->
    exists it', Iter_Seek compare_ data restarts num target it = Some it'
      /\ entry_here data restarts it' = snd <$> list_find (fun x => 0 <= compare_ (fst x) target) es
      /\ corrupted it' = false.
Proof. apply finished_seek. Qed.
End reader.

(** ** The order of bytes, and an example *)

#[export] Instance Bytewise_order : KeyOrder Bytewise_Compare (fun _ => True).
Proof.
  split; intros *; unfold Bytewise_Compare; rewrite !Slice_compare_lex.
  - intros _ _ _. apply lex_trans.
  - intros _ _. rewrite (lex_opp a b). lia.
Qed.

(** "app", "apple", "apply" and "bat", of which the third is the second restart point. *)
Definition fruit : list (list Z * list Z) :=
  [([97; 112; 112], [1]); ([97; 112; 112; 108; 101], [2; 2]); ([97; 112; 112; 108; 121], []); ([98; 97; 116], [4])].

Example fruit_block :
  build_block 2 fruit
  = [0; 3; 1; 97; 112; 112; 1; 3; 2; 2; 108; 101; 2; 2; 0; 5; 0; 97; 112; 112; 108; 121; 0; 3; 1; 98; 97; 116; 4;
     0; 0; 0; 0; 14; 0; 0; 0; 2; 0; 0; 0].
Proof. vm_compute. reflexivity. Qed.

(** A damaged length: the walk stops with the error, and so does a block that is too short. *)
Example fruit_damaged :
  let data := <[7%nat := 99]> (build_block 2 fruit) in
  let it := Iter_Next data 29 2 (Iter_SeekToFirst data 29 2 (new_BlockIter 29 2)) in
  Valid 29 it = false /\ corrupted it = true /\ NewIterator [1; 2; 3] = ErrorIterator
  /\ NewIterator [9; 0; 0; 0] = ErrorIterator /\ NewIterator [0; 0; 0; 0] = EmptyIterator.
Proof. vm_compute. done. Qed.

Lemma block_iterates_witness :
  exists restarts num, NewIterator (build_block 2 fruit) = Iter (build_block 2 fruit) restarts num /\
  forall it, corrupted it = false ->
    walk (fun it => Some (Iter_Next (build_block 2 fruit) restarts num it)) (build_block 2 fruit) restarts 6
      (Iter_SeekToFirst (build_block 2 fruit) restarts num it) = Some fruit
    /\ (it ← Iter_SeekToLast (build_block 2 fruit) restarts num it;
        walk (Iter_Prev (build_block 2 fruit) restarts num) (build_block 2 fruit) restarts 6 it) = Some (reverse fruit).
Proof.
  apply (block_iterates 2 fruit); [lia|by repeat constructor|by vm_compute].
Defined.

Lemma block_seek_witness :
  exists restarts num, NewIterator (build_block 2 fruit) = Iter (build_block 2 fruit) restarts num /\
  forall it, corrupted it = false ->
    exists it', Iter_Seek Bytewise_Compare (build_block 2 fruit) restarts num [97; 112; 112; 108; 102] it = Some it'
      /\ entry_here (build_block 2 fruit) restarts it' = Some ([97; 112; 112; 108; 121], [])
      /\ corrupted it' = false.
Proof.
  apply (block_seek 2 fruit) with (ok := fun _ => True) (target := [97; 112; 112; 108; 102]);
    [lia|by repeat constructor|by vm_compute|apply _|by repeat constructor|by repeat constructor|done].
Defined.
