(* ===== verification/TableFile.v ===== *)
(** * Table files of LevelDB: table/format.cc, table/table_builder.cc and table/table.cc of
    src/packages/LevelDB.1.16.0.5/lib/native/src

    A table file holds blocks of entries in order, a filter block, an index of the filter
    block, an index of the data blocks and a footer that says where the two indices are.
    The index of the data blocks has for each block a key that separates it from the next.

    The comparator is the one of internal keys, with which the database makes all its
    tables; the filter policy is any policy of the class [FilterPolicy], and compression any
    of the class [Compression].  Writing to the file succeeds.  A cache of blocks, which
    returns what was read before, is left out. *)
From stdpp Require Import base numbers option sets list sorting strings.
From S2P Require Import Prelude Coding Crc32c SkipList DbFormat WriteBatch Bloom FilterBlock TableBlock.
Open Scope list_scope.
Open Scope Z_scope.
Open Scope word_scope.

(** ** Handles and the footer *)

Record BlockHandle := { h_offset : Z; h_size : Z }.

Definition kMaxEncodedLength : nat := 20.
Definition kEncodedLength : nat := 48.
Definition kTableMagicNumber : Z := 0xdb47_7524_8b80_fb57.
Definition kBlockTrailerSize : Z := 5.

Definition Handle_EncodeTo (h : BlockHandle) (dst : list Z) : list Z :=
  PutVarint64 (PutVarint64 dst (h_offset h)) (h_size h).
Definition Handle_DecodeFrom (input : list Z) : option (BlockHandle * list Z) :=
  '(offset, input) ← GetVarint64 input;
  '(size, input) ← GetVarint64 input;
  Some ({| h_offset := offset; h_size := size |}, input).

Record Footer := { metaindex_handle : BlockHandle; index_handle : BlockHandle }.

(** [resize] cuts or pads with zeros. *)
Definition resize (l : list Z) (n : nat) : list Z := take n l ++ replicate (n - length l) 0.
Definition Footer_EncodeTo (f : Footer) (dst : list Z) : list Z :=
  let dst := Handle_EncodeTo (metaindex_handle f) dst in
  let dst := Handle_EncodeTo (index_handle f) dst in
  let dst := resize dst (2 * kMaxEncodedLength) in
  let dst := PutFixed32 dst (w32 (kTableMagicNumber .& 0xffff_ffff)) in
  PutFixed32 dst (w32 (kTableMagicNumber >> 32)).

Definition Footer_DecodeFrom (input : list Z) : Status + Footer :=
  let magic_ptr := drop (kEncodedLength - 8) input in
  let magic_lo := DecodeFixed32 magic_ptr in
  let magic_hi := DecodeFixed32 (drop 4 magic_ptr) in
  let magic := w64 (Z.shiftl magic_hi 32) .| magic_lo in
  if negb (magic =? kTableMagicNumber) then inl (InvalidArgument "not an sstable (bad magic number)")
  else
    match Handle_DecodeFrom input with
    | None => inl (Corruption "bad block handle")
    | Some (m, input) =>
        match Handle_DecodeFrom input with
        | None => inl (Corruption "bad block handle")
        | Some (i, _) => inr {| metaindex_handle := m; index_handle := i |}
        end
    end.

(** ** Reading a block *)

Class Compression := {
  Snappy_Compress : list Z -> option (list Z);
  Snappy_Uncompress : list Z -> option (list Z);
  Snappy_roundtrip raw c :
    bytes raw -> Z.of_nat (length raw) < 0x1_0000_0000 -> Z.of_nat (length c) < 0x1_0000_0000 ->
    Snappy_Compress raw = Some c -> Snappy_Uncompress c = Some raw;
  Snappy_bytes raw c :
    bytes raw -> Z.of_nat (length raw) < 0x1_0000_0000 -> Snappy_Compress raw = Some c -> bytes c }.

Definition kNoCompression : Z := 0.
Definition kSnappyCompression : Z := 1.

(** [file->Read]: as many bytes as there are. *)
Definition file_read (file : list Z) (offset n : Z) : list Z := take (Z.to_nat n) (drop (Z.to_nat offset) file).

Section table.
Context `{FilterPolicy} `{Compression}.

(** [None]: the size in a damaged handle overflows, and the type is read outside the buffer. *)
Definition ReadBlock (file : list Z) (verify_checksums : bool) (handle : BlockHandle) : option (Status + list Z) :=
  let n := h_size handle in
  if 0x1_0000_0000_0000_0000 <=? n + kBlockTrailerSize then None
  else
    let contents := file_read file (h_offset handle) (n + kBlockTrailerSize) in
    if negb (Z.of_nat (length contents) =? n + kBlockTrailerSize) then Some (inl (Corruption "truncated block read"))
    else
      let data := take (Z.to_nat n) contents in
      let crc := Unmask (DecodeFixed32 (drop (Z.to_nat n + 1) contents)) in
      let actual := Value 0 (take (Z.to_nat n + 1) contents) in
      if verify_checksums && negb (actual =? crc) then Some (inl (Corruption "block checksum mismatch"))
      else
        let type := nthZ contents n in
        if type =? kNoCompression then Some (inr data)
        else if type =? kSnappyCompression then
          match Snappy_Uncompress data with
          | None => Some (inl (Corruption "corrupted compressed block contents"))
          | Some ubuf => Some (inr ubuf)
          end
        else Some (inl (Corruption "bad block type")).

(** ** Building a table *)

Context (block_restart_interval block_size : Z) (compression : Z) (policy_name : option (list Z)).

Record Rep := {
  r_file : list Z;
  r_offset : Z;
  data_block : BlockBuilder;
  index_block : BlockBuilder;
  last_key : list Z;
  num_entries : Z;
  filter_block : option FilterBlockBuilder;
  pending_index_entry : bool;
  pending_handle : BlockHandle }.

Definition new_TableBuilder : Rep :=
  {| r_file := []; r_offset := 0; data_block := new_BlockBuilder; index_block := new_BlockBuilder;
     last_key := []; num_entries := 0;
     filter_block := (fun _ => StartBlock 0 new_FilterBlockBuilder) <$> policy_name;
     pending_index_entry := false; pending_handle := {| h_offset := w64 (-1); h_size := w64 (-1) |} |}.

(** [WriteRawBlock]: the file and the offset behind the block, and its handle. *)
Definition WriteRawBlock (file : list Z) (offset : Z) (block_contents : list Z) (type : Z) : list Z * Z * BlockHandle :=
  let handle := {| h_offset := offset; h_size := Z.of_nat (length block_contents) |} in
  let crc := Value 0 block_contents in
  let crc := Extend 0 crc [type] in
  let trailer := type :: EncodeFixed32 (Mask crc) in
  (file ++ block_contents ++ trailer,
   w64 (offset + Z.of_nat (length block_contents) + kBlockTrailerSize), handle).

Definition WriteBlock (file : list Z) (offset : Z) (block : BlockBuilder) : list Z * Z * BlockHandle :=
  let raw := BlockBuilder_Finish block in
  let '(block_contents, type) :=
    if compression =? kSnappyCompression then
      match Snappy_Compress raw with
      | Some compressed =>
          if Z.of_nat (length compressed) <? Z.of_nat (length raw) - Z.of_nat (length raw) / 8
          then (compressed, kSnappyCompression) else (raw, kNoCompression)
      | None => (raw, kNoCompression)
      end
    else (raw, kNoCompression) in
  WriteRawBlock file offset block_contents type.

Definition Flush (r : Rep) : Rep :=
  match bb_buffer (data_block r) with
  | [] => r
  | _ =>
      let '(file, offset, handle) := WriteBlock (r_file r) (r_offset r) (data_block r) in
      {| r_file := file; r_offset := offset; data_block := BlockBuilder_Reset (data_block r);
         index_block := index_block r; last_key := last_key r; num_entries := num_entries r;
         filter_block := StartBlock offset <$> filter_block r;
         pending_index_entry := true; pending_handle := handle |}
  end.

(** The entry of the last block in the index, when the key that follows it is known; in
    [Finish] there is none. *)
Definition add_index_entry (key : list Z) (r : Rep) : Rep :=
  if pending_index_entry r then
    {| r_file := r_file r; r_offset := r_offset r; data_block := data_block r;
       index_block := BlockBuilder_Add 1 key (Handle_EncodeTo (pending_handle r) []) (index_block r);
       last_key := key; num_entries := num_entries r; filter_block := filter_block r;
       pending_index_entry := false; pending_handle := pending_handle r |}
  else r.

Definition add_data (key value : list Z) (r : Rep) : Rep :=
  {| r_file := r_file r; r_offset := r_offset r;
     data_block := BlockBuilder_Add block_restart_interval key value (data_block r);
     index_block := index_block r; last_key := key; num_entries := num_entries r + 1;
     filter_block := (fun b => AddKey b key) <$> filter_block r;
     pending_index_entry := pending_index_entry r; pending_handle := pending_handle r |}.

Definition TableBuilder_Add (key value : list Z) (r : Rep) : Rep :=
  let r := add_index_entry (InternalKey_FindShortestSeparator (last_key r) key) r in
  let r := add_data key value r in
  if block_size <=? CurrentSizeEstimate (data_block r) then Flush r else r.

(** "filter." and the name of the policy. *)
Definition filter_key (name : list Z) : list Z := [102; 105; 108; 116; 101; 114; 46] ++ name.

Definition TableBuilder_Finish (r : Rep) : list Z :=
  let r := Flush r in
  let '(file, offset, meta_index_block) :=
    match filter_block r, policy_name with
    | Some b, Some name =>
        let '(file, offset, filter_block_handle) := WriteRawBlock (r_file r) (r_offset r) (FilterBlock.Finish b) kNoCompression in
        (file, offset,
         BlockBuilder_Add block_restart_interval (filter_key name) (Handle_EncodeTo filter_block_handle []) new_BlockBuilder)
    | _, _ => (r_file r, r_offset r, new_BlockBuilder)
    end in
  let '(file, offset, metaindex_block_handle) := WriteBlock file offset meta_index_block in
  let r := add_index_entry (InternalKey_FindShortSuccessor (last_key r)) r in
  let '(file, offset, index_block_handle) := WriteBlock file offset (index_block r) in
  file ++ Footer_EncodeTo {| metaindex_handle := metaindex_block_handle; index_handle := index_block_handle |} [].

(** ** Reading a table *)

(** [NewIterator(cmp)], [Seek(target)]: the entry at the iterator, and its status. *)
Definition Block_Seek (compare_ : list Z -> list Z -> Z) (contents target : list Z)
    : option (option (list Z * list Z) * Status) :=
  match TableBlock.NewIterator contents with
  | ErrorIterator => Some (None, Corruption "bad block contents")
  | EmptyIterator => Some (None, OK)
  | Iter data restarts num =>
      it ← Iter_Seek compare_ data restarts num target (new_BlockIter restarts num);
      Some (entry_here data restarts it, if corrupted it then Corruption "bad entry in block" else OK)
  end.

Record Table := {
  t_file : list Z;
  t_filter : option FilterBlockReader;
  t_metaindex_handle : BlockHandle;
  t_index_block : list Z }.

Definition ReadFilter (file filter_handle_value : list Z) : option (option FilterBlockReader) :=
  match Handle_DecodeFrom filter_handle_value with
  | None => Some None
  | Some (filter_handle, _) =>
      block ← ReadBlock file false filter_handle;
      match block with
      | inl _ => Some None
      | inr data => Some (Some (new_FilterBlockReader data))
      end
  end.

Definition ReadMeta (file : list Z) (footer : Footer) : option (option FilterBlockReader) :=
  match policy_name with
  | None => Some None
  | Some name =>
      contents ← ReadBlock file false (metaindex_handle footer);
      match contents with
      | inl _ => Some None
      | inr meta =>
          '(here, _) ← Block_Seek Bytewise_Compare meta (filter_key name);
          match here with
          | Some (key, value) => if bool_decide (key = filter_key name) then ReadFilter file value else Some None
          | None => Some None
          end
      end
  end.

Definition Table_Open (file : list Z) (size : Z) : option (Status + Table) :=
  if size <? Z.of_nat kEncodedLength then Some (inl (InvalidArgument "file is too short to be an sstable"))
  else
    match Footer_DecodeFrom (file_read file (size - Z.of_nat kEncodedLength) (Z.of_nat kEncodedLength)) with
    | inl s => Some (inl s)
    | inr footer =>
        contents ← ReadBlock file false (index_handle footer);
        match contents with
        | inl s => Some (inl s)
        | inr index_block =>
            filter ← ReadMeta file footer;
            Some (inr {| t_file := file; t_filter := filter; t_metaindex_handle := metaindex_handle footer;
                         t_index_block := index_block |})
        end
    end.

(** [BlockReader] and [Seek] in its block. *)
Definition BlockReader_Seek (t : Table) (verify_checksums : bool) (index_value k : list Z)
    : option (option (list Z * list Z) * Status) :=
  match Handle_DecodeFrom index_value with
  | None => Some (None, Corruption "bad block handle")
  | Some (handle, _) =>
      contents ← ReadBlock (t_file t) verify_checksums handle;
      match contents with
      | inl s => Some (None, s)
      | inr block => Block_Seek InternalKey_Compare block k
      end
  end.

(** [filter != NULL && handle.DecodeFrom(&handle_value).ok() && !filter->KeyMayMatch(...)] *)
Definition filter_skips (t : Table) (handle_value k : list Z) : bool :=
  match t_filter t, Handle_DecodeFrom handle_value with
  | Some filter, Some (handle, _) => negb (Reader_KeyMayMatch filter (h_offset handle) k)
  | _, _ => false
  end.

(** What [saver] is called with, and the status. *)
Definition InternalGet (t : Table) (verify_checksums : bool) (k : list Z) : option (option (list Z * list Z) * Status) :=
  '(iiter, istatus) ← Block_Seek InternalKey_Compare (t_index_block t) k;
  '(saved, s) ←
    match iiter with
    | None => Some (None, OK)
    | Some (_, handle_value) =>
        if filter_skips t handle_value k then Some (None, OK) else BlockReader_Seek t verify_checksums handle_value k
    end;
  Some (saved, match s with OK => istatus | _ => s end).

Definition ApproximateOffsetOf (t : Table) (key : list Z) : option Z :=
  '(index_iter, _) ← Block_Seek InternalKey_Compare (t_index_block t) key;
  Some match index_iter with
       | Some (_, value) =>
           match Handle_DecodeFrom value with
           | Some (handle, _) => h_offset handle
           | None => h_offset (t_metaindex_handle t)
           end
       | None => h_offset (t_metaindex_handle t)
       end.
End table.

(** ** What a written block reads as *)

Lemma Handle_roundtrip h rest : is64 (h_offset h) -> is64 (h_size h) ->
  Handle_DecodeFrom (Handle_EncodeTo h [] ++ rest) = Some (h, rest).
Proof.
  intros H1 H2. unfold Handle_DecodeFrom, Handle_EncodeTo, PutVarint64, GetVarint64. cbn [app].
  rewrite <- app_assoc, GetVarint64_Encode by done. cbn [mbind option_bind]. rewrite GetVarint64_Encode by done. by destruct h.
Qed.

Section stored.
Context `{Compression}.

Definition stored (file : list Z) (h : BlockHandle) (raw : list Z) : Prop :=
  is64 (h_offset h) /\ is64 (h_size h)
  /\ forall verify_checksums rest, ReadBlock (file ++ rest) verify_checksums h = Some (inr raw).

Lemma stored_app file more h raw : stored file h raw -> stored (file ++ more) h raw.
Proof. intros (H1 & H2 & H3). split_and!; [done..|]. intros v rest. rewrite <- app_assoc. apply H3. Qed.

Definition reads_as (type : Z) (contents raw : list Z) : Prop :=
  (type = kNoCompression /\ contents = raw) \/ (type = kSnappyCompression /\ Snappy_Uncompress contents = Some raw).

(** Checksums are those of bytes. *)
Lemma WriteRawBlock_stored file contents type raw :
  reads_as type contents raw ->
  Z.of_nat (length file) + Z.of_nat (length contents) + 5 < 0x1_0000_0000_0000_0000 ->
  exists file' h, WriteRawBlock file (Z.of_nat (length file)) contents type = (file ++ file', Z.of_nat (length (file ++ file')), h)
    /\ is64 (h_offset h) /\ is64 (h_size h)
    /\ (forall verify_checksums rest, (verify_checksums = true -> bytes contents) ->
          ReadBlock ((file ++ file') ++ rest) verify_checksums h = Some (inr raw))
    /\ h_offset h = Z.of_nat (length file) /\ length file' = (length contents + 5)%nat.
Proof.
  intros Hr Hsz. assert (is8 type) as Ht by (destruct Hr as [[-> _]|[-> _]]; unfold is8, kNoCompression, kSnappyCompression; lia).
  assert (bytes [type]) as Hbt by (by apply bytes_1).
  eexists _, _. unfold WriteRawBlock. split; [|split; [|split; [|split]]].
  - f_equal. f_equal. rewrite w64_small.
    + rewrite !length_app. cbn [length]. rewrite length_EncodeFixed32. unfold kBlockTrailerSize. lia.
    + unfold is64, kBlockTrailerSize. lia.
  - cbn [h_offset]. unfold is64. lia.
  - cbn [h_size]. unfold is64. lia.
  - set (crc := Extend 0 (Value 0 contents) [type]). set (trailer := type :: EncodeFixed32 (Mask crc)).
    intros v rest Hv. unfold ReadBlock. cbn [h_offset h_size].
    rewrite (proj2 (Z.leb_gt _ _)) by (unfold kBlockTrailerSize; lia).
    assert (file_read ((file ++ contents ++ trailer) ++ rest) (Z.of_nat (length file)) (Z.of_nat (length contents) + kBlockTrailerSize)
      = contents ++ trailer) as ->.
    { unfold file_read. rewrite Nat2Z.id, <- app_assoc, drop_app_length.
      replace (Z.to_nat _) with (length (contents ++ trailer)) by (rewrite length_app; cbn [length trailer]; rewrite length_EncodeFixed32; unfold kBlockTrailerSize; lia).
      apply take_app_length. }
    assert (length (contents ++ trailer) = length contents + 5)%nat as Hl by (rewrite length_app; cbn [length trailer]; by rewrite length_EncodeFixed32).
    rewrite Hl. rewrite (proj2 (Z.eqb_eq _ _)) by (unfold kBlockTrailerSize; lia). cbn [negb].
    rewrite Nat2Z.id, take_app_length.
    assert (take (length contents + 1) (contents ++ trailer) = contents ++ [type]) as ->.
    { rewrite take_app_add. done. }
    assert (drop (length contents + 1) (contents ++ trailer) = EncodeFixed32 (Mask crc)) as ->.
    { rewrite drop_app_add. done. }
    assert (v && negb (Value 0 (contents ++ [type]) =? Unmask (DecodeFixed32 (EncodeFixed32 (Mask crc)))) = false) as ->.
    { destruct v; [|done]. specialize (Hv eq_refl). cbn [andb].
      assert (is32 (Value 0 contents)) as H32 by (apply is32_Extend; [unfold is32; lia|done]).
      rewrite <- (app_nil_r (EncodeFixed32 _)), DecodeFixed32_Encode by apply is32_Mask.
      rewrite Unmask_Mask by (by apply is32_Extend).
      assert (Value 0 (contents ++ [type]) = crc) as ->; [|by rewrite Z.eqb_refl].
      unfold crc, Value. symmetry. apply Extend_app; [unfold is32; lia|done..]. }
    assert (nthZ (contents ++ trailer) (Z.of_nat (length contents)) = type) as ->.
    { apply nthZ_lookup. rewrite Nat2Z.id, lookup_app_r, Nat.sub_diag by lia. done. }
    destruct Hr as [[-> ->]|[-> Hu]]; [done|]. cbn. by rewrite Hu.
  - split; [done|]. rewrite length_app. cbn [length]. rewrite length_EncodeFixed32. lia.
Qed.

Lemma WriteBlock_stored compression file block :
  bytes (BlockBuilder_Finish block) -> Z.of_nat (length (BlockBuilder_Finish block)) < 0x1_0000_0000 ->
  Z.of_nat (length file) + Z.of_nat (length (BlockBuilder_Finish block)) + 5 < 0x1_0000_0000_0000_0000 ->
  exists file' h, WriteBlock compression file (Z.of_nat (length file)) block = (file ++ file', Z.of_nat (length (file ++ file')), h)
    /\ stored (file ++ file') h (BlockBuilder_Finish block) /\ h_offset h = Z.of_nat (length file)
    /\ (length file' <= length (BlockBuilder_Finish block) + 5)%nat /\ (5 <= length file')%nat.
Proof.
  intros Hb H32 Hsz. unfold WriteBlock. set (raw := BlockBuilder_Finish block) in *.
  set (c := if compression =? kSnappyCompression then _ else _).
  assert (exists contents type, c = (contents, type) /\ bytes contents /\ reads_as type contents raw
    /\ (length contents <= length raw)%nat) as (contents & type & -> & Hc & Hr & Hle).
  { unfold c. destruct (_ =? _); [|exists raw, kNoCompression; split_and!; [done..|by left|done]].
    destruct (Snappy_Compress raw) as [z|] eqn:E; [|exists raw, kNoCompression; split_and!; [done..|by left|done]].
    destruct (Z.ltb_spec (Z.of_nat (length z)) (Z.of_nat (length raw) - Z.of_nat (length raw) / 8)) as [Hlt|_];
      [|exists raw, kNoCompression; split_and!; [done..|by left|done]].
    exists z, kSnappyCompression. split_and!; [done|by eapply Snappy_bytes| |].
    all: pose proof (Z.div_pos (Z.of_nat (length raw)) 8 ltac:(lia) ltac:(lia)).
    - right. split; [done|]. apply Snappy_roundtrip; (done || lia).
    - lia. }
  destruct (WriteRawBlock_stored file contents type raw) as (file' & h & E & Ho64 & Hs64 & Hs & Ho & Hl); [done|lia|].
  exists file', h. rewrite E. split_and!; [done|by split_and!; auto|done|lia|lia].
Qed.
End stored.

(** ** The footer, and the blocks that the builder makes *)

Lemma length_EncodeVarint64 v : is64 v -> (length (EncodeVarint64 v) <= 10)%nat.
Proof.
  intros Hv. unfold is64 in Hv. unfold EncodeVarint64.
  rewrite varint64_groups by (change (128 ^ Z.of_nat 10) with (2 ^ 70); lia). apply length_groups.
Qed.
Definition handle_ok (h : BlockHandle) : Prop := is64 (h_offset h) /\ is64 (h_size h).
Lemma length_Handle h : handle_ok h -> (length (Handle_EncodeTo h []) <= 20)%nat.
Proof.
  intros [H1%length_EncodeVarint64 H2%length_EncodeVarint64]. unfold Handle_EncodeTo, PutVarint64.
  cbn [app]. rewrite length_app. lia.
Qed.
Lemma bytes_Handle h : handle_ok h -> bytes (Handle_EncodeTo h []).
Proof.
  intros [H1 H2]. unfold Handle_EncodeTo, PutVarint64. cbn [app]. apply bytes_app. split; by apply bytes_EncodeVarint64.
Qed.
Lemma Handle_EncodeTo_app h dst : Handle_EncodeTo h dst = dst ++ Handle_EncodeTo h [].
Proof. unfold Handle_EncodeTo, PutVarint64. by rewrite <- app_assoc. Qed.

Lemma Footer_roundtrip f : handle_ok (metaindex_handle f) -> handle_ok (index_handle f) ->
  length (Footer_EncodeTo f []) = kEncodedLength /\ Footer_DecodeFrom (Footer_EncodeTo f []) = inr f.
Proof.
  intros Hm Hi. pose proof (length_Handle _ Hm). pose proof (length_Handle _ Hi).
  unfold Footer_EncodeTo. rewrite (Handle_EncodeTo_app (index_handle f)).
  set (hs := Handle_EncodeTo (metaindex_handle f) [] ++ Handle_EncodeTo (index_handle f) []).
  assert (length hs <= 40)%nat as Hl by (unfold hs; rewrite length_app; lia).
  unfold resize. rewrite take_ge by (unfold kMaxEncodedLength; lia). set (pad := replicate _ 0).
  assert (length (hs ++ pad) = 40)%nat as Hp by (unfold pad; rewrite length_app, length_replicate; unfold kMaxEncodedLength; lia).
  unfold PutFixed32. split.
  { rewrite (length_app (_ ++ _)), (length_app (hs ++ pad)), Hp, !length_EncodeFixed32. done. }
  unfold Footer_DecodeFrom. rewrite <- (app_assoc (hs ++ pad)).
  replace (kEncodedLength - 8)%nat with (length (hs ++ pad)) by (by rewrite Hp).
  rewrite drop_app_length. rewrite DecodeFixed32_Encode by (vm_compute; done).
  rewrite (drop_app_length' (EncodeFixed32 (w32 (kTableMagicNumber .& 0xffff_ffff)))) by done.
  rewrite <- (app_nil_r (EncodeFixed32 (w32 (kTableMagicNumber >> 32)))), DecodeFixed32_Encode by (vm_compute; done).
  rewrite (proj2 (Z.eqb_eq _ _)) by (vm_compute; done). cbn [negb].
  unfold hs. rewrite <- !app_assoc. destruct Hm, Hi. rewrite Handle_roundtrip by done. rewrite Handle_roundtrip by done. by destruct f.
Qed.

Definition entries_size (es : list (list Z * list Z)) : Z :=
  foldr (fun x n => Z.of_nat (length (fst x)) + Z.of_nat (length (snd x)) + 48 + n) 0 es.
Definition entry_bytes (es : list (list Z * list Z)) : Prop := Forall (fun x => bytes (fst x) /\ bytes (snd x)) es.

Lemma entries_size_app es es' : entries_size (es ++ es') = entries_size es + entries_size es'.
Proof. induction es as [|x es IH]; cbn; [done|]. unfold entries_size in *. lia. Qed.
Lemma entries_size_pos es : 0 <= entries_size es.
Proof. induction es as [|x es IH]; cbn; [done|]. unfold entries_size in *. lia. Qed.
Lemma entries_fit es : entries_size es < 0x1_0000_0000 -> fits es.
Proof.
  induction es as [|[k v] es IH]; cbn; intros Hs; constructor; fold (entries_size es) in Hs.
  - pose proof (entries_size_pos es). lia.
  - apply IH. lia.
Qed.

Lemma Add_size interval key value b :
  Z.of_nat (length (bb_buffer (BlockBuilder_Add interval key value b))) + 4 * Z.of_nat (length (bb_restarts (BlockBuilder_Add interval key value b)))
  <= Z.of_nat (length (bb_buffer b)) + 4 * Z.of_nat (length (bb_restarts b)) + Z.of_nat (length key) + Z.of_nat (length value) + 19.
Proof.
  unfold BlockBuilder_Add, PutVarint32. destruct (_ <? _); cbn [bb_buffer bb_restarts]; rewrite !length_app, length_drop; cbn [length].
  all: repeat match goal with |- context [length (EncodeVarint32 (w32 ?x))] =>
    pose proof (length_EncodeVarint32 (w32 x) (is32_w32 x)); generalize dependent (length (EncodeVarint32 (w32 x))); intros end; lia.
Qed.

Lemma build_size interval es b :
  Z.of_nat (length (bb_buffer (build interval es b))) + 4 * Z.of_nat (length (bb_restarts (build interval es b)))
  <= Z.of_nat (length (bb_buffer b)) + 4 * Z.of_nat (length (bb_restarts b)) + entries_size es - 29 * Z.of_nat (length es).
Proof.
  revert b. induction es as [|[k v] es IH]; intros b; cbn [build foldl entries_size foldr fst snd length]; [lia|].
  fold (build interval es (BlockBuilder_Add interval k v b)). fold (entries_size es).
  specialize (IH (BlockBuilder_Add interval k v b)). pose proof (Add_size interval k v b). lia.
Qed.

Lemma build_block_size interval es : Z.of_nat (length (build_block interval es)) <= entries_size es - 29 * Z.of_nat (length es) + 8.
Proof.
  unfold build_block, BlockBuilder_Finish. rewrite foldl_PutFixed32. unfold PutFixed32.
  rewrite !length_app, length_fixed_array, length_EncodeFixed32.
  pose proof (build_size interval es new_BlockBuilder) as H. cbn [bb_buffer bb_restarts new_BlockBuilder length] in H. lia.
Qed.

Lemma Add_bytes interval key value b : bytes key -> bytes value -> bytes (bb_buffer b) -> bytes (bb_buffer (BlockBuilder_Add interval key value b)).
Proof.
  intros Hk Hv Hb. unfold BlockBuilder_Add, PutVarint32. destruct (_ <? _); cbn [bb_buffer]; rewrite !bytes_app;
    split_and!; auto using bytes_EncodeVarint32, is32_w32, bytes_drop.
Qed.

Lemma build_block_bytes interval es : entry_bytes es -> bytes (build_block interval es).
Proof.
  intros He. unfold build_block, BlockBuilder_Finish. rewrite foldl_PutFixed32. unfold PutFixed32. rewrite !bytes_app. split_and!.
  - assert (forall b, bytes (bb_buffer b) -> bytes (bb_buffer (build interval es b))) as Hb; [|by apply Hb; constructor].
    induction He as [|[k v] es [Hk Hv] He IH]; intros b Hb; [done|]. cbn [build foldl].
    apply IH. by apply Add_bytes.
  - apply Forall_concat, Forall_fmap, Forall_true. intros x. apply bytes_le_bytes.
  - apply bytes_le_bytes.
Qed.

Lemma Block_Seek_built (compare_ : list Z -> list Z -> Z) (ok : list Z -> Prop) `{Ord : !KeyOrder compare_ ok} interval es target :
  1 <= interval -> entries_size es < 0xffff_fff0 -> Forall (fun x => ok (fst x)) es ->
  StronglySorted (fun x y => compare_ (fst x) (fst y) < 0) es -> ok target ->
  Block_Seek compare_ (build_block interval es) target
    = Some (snd <$> list_find (fun x => 0 <= compare_ (fst x) target) es, OK).
Proof.
  intros Hi Hs Hok Hsort Ht. pose proof (build_block_size interval es).
  destruct (finished_seek interval es Hi (entries_fit es ltac:(lia)) ltac:(lia) compare_ ok Hok Hsort target Ht) as (r & n & E & Hseek).
  unfold Block_Seek. rewrite E. destruct (Hseek (new_BlockIter r n) eq_refl) as (it & E1 & E2 & E3).
  rewrite E1. cbn [mbind option_bind]. by rewrite E2, E3.
Qed.

(** ** What the builder has written *)

Lemma build_snoc interval es x b : build interval (es ++ [x]) b = BlockBuilder_Add interval (fst x) (snd x) (build interval es b).
Proof. unfold build. rewrite foldl_app. by destruct x. Qed.

Lemma build_buffer_nil interval es : bb_buffer (build interval es new_BlockBuilder) = [] <-> es = [].
Proof.
  split; [|by intros ->]. destruct es as [|x es _] using rev_ind; [done|]. rewrite build_snoc.
  unfold BlockBuilder_Add, PutVarint32. intros E. apply (f_equal length) in E.
  pose proof (varint_nonempty (w32 (Z.of_nat (length (snd x))))). destruct (_ <? _); cbn [bb_buffer] in E; rewrite !length_app in E; cbn [length] in E; lia.
Qed.

Section build.
Context `{FilterPolicy} `{Compression} (interval block_size compression : Z) (policy_name : option (list Z)).
Context (Interval : 1 <= interval).

Abbreviation entry := (list Z * list Z)%type.

(** The key of the index for a block that ends with [k], before the key [next]. *)
Definition index_key (k : list Z) (next : option (list Z)) : list Z :=
  match next with
  | Some k' => InternalKey_FindShortestSeparator k k'
  | None => InternalKey_FindShortSuccessor k
  end.
Definition rest_of (blocks : list (list entry)) (cur : list entry) (i : nat) : list entry := concat (drop (S i) blocks) ++ cur.
Definition indexed (blocks : list (list entry)) (cur : list entry) (hs : list BlockHandle) (i : nat) (x : entry) : Prop :=
  exists h b kl, hs !! i = Some h /\ blocks !! i = Some b /\ last b = Some kl
    /\ x = (index_key (fst kl) (fst <$> head (rest_of blocks cur i)), Handle_EncodeTo h []).

Definition filter_blocks (hs : list BlockHandle) (blocks : list (list entry)) : list (Z * list (list Z)) :=
  zip_with (fun h b => (h_offset h, map fst b)) hs blocks.

Record table_inv (r : Rep) (blocks : list (list entry)) (cur : list entry) (hs : list BlockHandle) (idx : list entry) : Prop := {
  ti_len : length hs = length blocks;
  ti_offset : r_offset r = Z.of_nat (length (r_file r));
  ti_data : data_block r = build interval cur new_BlockBuilder;
  ti_index : index_block r = build 1 idx new_BlockBuilder;
  ti_stored i b h : blocks !! i = Some b -> hs !! i = Some h -> stored (r_file r) h (build_block interval b);
  ti_nonempty : Forall (fun b => b <> []) blocks;
  ti_pending : if pending_index_entry r
    then cur = [] /\ length blocks = S (length idx) /\ last hs = Some (pending_handle r)
    else length blocks = length idx /\ (blocks <> [] -> cur <> []);
  ti_last : last_key r = default [] (fst <$> last (concat blocks ++ cur));
  ti_idx i x : idx !! i = Some x -> rest_of blocks cur i <> [] /\ indexed blocks cur hs i x;
  ti_filter : filter_block r
    = (fun _ => foldl add_block new_FilterBlockBuilder (filter_blocks hs blocks ++ [(r_offset r, map fst cur)])) <$> policy_name;
  ti_order : StronglySorted (fun x y => fst x <= fst y) (filter_blocks hs blocks ++ [(r_offset r, map fst cur)]);
  ti_size : Z.of_nat (length (r_file r)) <= entries_size (concat blocks) }.

Lemma new_inv : table_inv (new_TableBuilder policy_name) [] [] [] [].
Proof. split; try done. by repeat constructor. Qed.

Lemma head_app_ne {A} (l l' : list A) : l <> [] -> head (l ++ l') = head l.
Proof. by destruct l. Qed.
Lemma last_app_ne {A} (l l' : list A) : l' <> [] -> last (l ++ l') = last l'.
Proof. intros Hn. destruct l' as [|x l' _] using rev_ind; [done|]. by rewrite app_assoc, !last_snoc. Qed.
Lemma last_concat {A} (ls : list (list A)) l : l <> [] -> last (concat (ls ++ [l])) = last l.
Proof. intros Hn. rewrite concat_app. cbn [concat]. rewrite app_nil_r. by apply last_app_ne. Qed.

Lemma filter_blocks_snoc hs blocks h b : length hs = length blocks ->
  filter_blocks (hs ++ [h]) (blocks ++ [b]) = filter_blocks hs blocks ++ [(h_offset h, map fst b)].
Proof. intros Hl. unfold filter_blocks. by rewrite zip_with_app. Qed.

Lemma Flush_inv r blocks cur hs idx :
  table_inv r blocks cur hs idx -> pending_index_entry r = false -> cur <> [] -> entry_bytes cur ->
  entries_size (concat blocks ++ cur) < 0xffff_0000 ->
  exists h, table_inv (Flush compression r) (blocks ++ [cur]) [] (hs ++ [h]) idx
    /\ pending_index_entry (Flush compression r) = true /\ last_key (Flush compression r) = last_key r.
Proof.
  intros [] Hp Hne Hb Hs. rewrite Hp in ti_pending0. unfold Flush.
  destruct (bb_buffer (data_block r)) eqn:E; [rewrite ti_data0 in E; by apply build_buffer_nil in E|]. clear E.
  rewrite entries_size_app in Hs. pose proof (entries_size_pos (concat blocks)).
  pose proof (build_block_size interval cur) as Hbs. unfold build_block in Hbs. rewrite ti_data0, ti_offset0.
  destruct (WriteBlock_stored compression (r_file r) (build interval cur new_BlockBuilder)) as (file' & h & -> & Hst & Ho & Hl1 & Hl2).
  { by apply build_block_bytes. } { lia. } { lia. }
  exists h. split; [|done]. split; cbn; try done.
  - rewrite !length_app. cbn [length]. lia.
  - intros i b h' Hi Hh. apply lookup_app_Some in Hi as [Hi|[Hge Hi]].
    + rewrite lookup_app_l in Hh by (apply lookup_lt_Some in Hi; lia). apply stored_app. by apply (ti_stored0 i).
    + apply list_lookup_singleton_Some in Hi as [Hz <-]. rewrite lookup_app_r in Hh by lia.
      replace (i - length hs)%nat with 0%nat in Hh by lia. by injection Hh as <-.
  - apply Forall_app_2; [done|]. by constructor.
  - destruct ti_pending0 as [Hp1 _]. rewrite last_snoc, length_app. cbn [length]. split_and!; [done|lia|done].
  - rewrite app_nil_r, last_concat by done. rewrite ti_last0. by rewrite last_app_ne.
  - intros i x Hi. destruct (ti_idx0 i x Hi) as [Hrest (h0 & b & kl & Hh & Hb0 & Hk & ->)].
    assert (rest_of (blocks ++ [cur]) [] i = rest_of blocks cur i) as Er.
    { unfold rest_of. rewrite drop_app_le by (apply lookup_lt_Some in Hb0; lia). rewrite concat_app. cbn [concat]. by rewrite !app_nil_r. }
    split; [by rewrite Er|]. exists h0, b, kl. rewrite Er. split_and!; [by apply lookup_app_l_Some..|done|done].
  - rewrite filter_blocks_snoc by done. rewrite ti_filter0. destruct policy_name; [|done]. cbn. f_equal.
    rewrite Ho, <- ti_offset0. rewrite (foldl_app _ (_ ++ [_]) [_]). done.
  - rewrite filter_blocks_snoc by done. rewrite Ho, <- ti_offset0. apply StronglySorted_app. split_and!; [|done|by repeat constructor].
    intros x y Hx Hy%list_elem_of_singleton. subst y. cbn [fst]. rewrite length_app.
    apply elem_of_app in Hx as [Hx|Hx%list_elem_of_singleton]; [|subst x; cbn; lia].
    assert (fst x <= r_offset r); [|lia].
    apply (StronglySorted_app_1_elem_of _ _ _ _ _ ti_order0 Hx (proj2 (list_elem_of_singleton _ _) eq_refl)).
  - rewrite length_app, concat_app. cbn [concat]. rewrite app_nil_r, entries_size_app.
    destruct cur; [done|]. cbn [length] in *. lia.
Qed.

Lemma Flush_empty r blocks hs idx : table_inv r blocks [] hs idx -> Flush compression r = r.
Proof. intros []. unfold Flush. by rewrite ti_data0. Qed.

Lemma rest_of_snoc blocks cur x i : rest_of blocks (cur ++ [x]) i = rest_of blocks cur i ++ [x].
Proof. unfold rest_of. by rewrite app_assoc. Qed.

Lemma indexed_more blocks cur hs i x y :
  rest_of blocks cur i <> [] -> indexed blocks cur hs i x -> indexed blocks (cur ++ [y]) hs i x.
Proof.
  intros Hne (h & b & kl & Hh & Hb & Hk & ->). exists h, b, kl. rewrite rest_of_snoc, head_app_ne by done. done.
Qed.

(** The entry of the block that waits for the next key, or for the end. *)
Lemma pending_indexed r blocks hs idx cur next :
  table_inv r blocks [] hs idx -> pending_index_entry r = true -> head cur = next ->
  indexed blocks cur hs (length idx) (index_key (last_key r) (fst <$> next), Handle_EncodeTo (pending_handle r) []).
Proof.
  intros [] Hp <-. rewrite Hp in ti_pending0. destruct ti_pending0 as (_ & Hlen & Hh).
  destruct blocks as [|b blocks _] using rev_ind; [done|]. rewrite length_app in Hlen. cbn [length] in Hlen.
  apply Forall_app in ti_nonempty0 as [_ Hne]. apply Forall_cons in Hne as [Hne _].
  rewrite app_nil_r, last_concat in ti_last0 by done. destruct (last b) as [kl|] eqn:E; [|by apply last_None in E].
  exists (pending_handle r), b, kl. split_and!; [| |done|].
  - rewrite last_lookup in Hh. rewrite <- Hh. f_equal. rewrite ti_len0, length_app. cbn [length]. lia.
  - rewrite lookup_app_r by lia. by replace (length idx - length blocks)%nat with 0%nat by lia.
  - unfold rest_of. rewrite drop_ge by (rewrite length_app; cbn [length]; lia). cbn [concat app]. by rewrite ti_last0.
Qed.

Lemma add_entry_inv r blocks cur hs idx key value :
  table_inv r blocks cur hs idx ->
  let r1 := add_index_entry (InternalKey_FindShortestSeparator (last_key r) key) r in
  exists idx', table_inv (add_data interval key value r1) blocks (cur ++ [(key, value)]) hs idx'
    /\ pending_index_entry (add_data interval key value r1) = false.
Proof.
  intros Hi r1. pose proof Hi as [].
  assert (filter_block r1 = filter_block r /\ r_file r1 = r_file r /\ r_offset r1 = r_offset r /\ data_block r1 = data_block r
    /\ pending_index_entry r1 = false) as (Ef & Efi & Eo & Ed & Epf).
  { unfold r1, add_index_entry. destruct (pending_index_entry r) eqn:E; by split_and!. }
  exists (if pending_index_entry r then idx ++ [(InternalKey_FindShortestSeparator (last_key r) key, Handle_EncodeTo (pending_handle r) [])] else idx).
  split; [|done]. split; cbn [add_data r_file r_offset data_block index_block last_key filter_block pending_index_entry pending_handle];
    rewrite ?Ef, ?Efi, ?Eo, ?Ed, ?Epf; try done.
  - by rewrite build_snoc, ti_data0.
  - unfold r1, add_index_entry. destruct (pending_index_entry r); [|done]. cbn [index_block]. by rewrite build_snoc, ti_index0.
  - destruct (pending_index_entry r).
    + destruct ti_pending0 as (-> & Hlen & _). rewrite length_app. cbn [length]. split; [lia|]. intros _. done.
    + destruct ti_pending0 as [Hlen _]. split; [done|]. intros _. by destruct cur.
  - by rewrite app_assoc, last_snoc.
  - assert (forall i x, idx !! i = Some x -> rest_of blocks (cur ++ [(key, value)]) i <> [] /\ indexed blocks (cur ++ [(key, value)]) hs i x) as Hold.
    { intros i x Hx. destruct (ti_idx0 i x Hx) as [Hne Hin]. split; [rewrite rest_of_snoc; by destruct (rest_of blocks cur i)|].
      by apply indexed_more. }
    destruct (pending_index_entry r) eqn:Ep; [|done]. intros i x Hx. apply lookup_app_Some in Hx as [Hx|[Hge Hx]]; [by apply Hold|].
    apply list_lookup_singleton_Some in Hx as [Hz <-]. replace i with (length idx) by lia. destruct ti_pending0 as (Hc & _). subst cur.
    split; [rewrite rest_of_snoc; by destruct (rest_of blocks [] (length idx))|].
    apply (pending_indexed r blocks hs idx [(key, value)] (Some (key, value)) Hi Ep eq_refl).
  - rewrite ti_filter0. destruct policy_name; [|done]. cbn. f_equal. rewrite !foldl_app. cbn [foldl]. unfold add_block. cbn [fst snd].
    by rewrite map_app, foldl_app.
  - apply StronglySorted_app in ti_order0 as (H1 & H2 & H3). apply StronglySorted_app. split_and!; [|done|by repeat constructor].
    intros x y Hx Hy%list_elem_of_singleton. subst y. cbn [fst]. by apply (H1 x (r_offset r, map fst cur) Hx (proj2 (list_elem_of_singleton _ _) eq_refl)).
Qed.

Lemma TableBuilder_Add_inv r blocks cur hs idx key value :
  table_inv r blocks cur hs idx -> entry_bytes (cur ++ [(key, value)]) ->
  entries_size ((concat blocks ++ cur) ++ [(key, value)]) < 0xffff_0000 ->
  exists blocks' cur' hs' idx', table_inv (TableBuilder_Add interval block_size compression key value r) blocks' cur' hs' idx'
    /\ concat blocks' ++ cur' = (concat blocks ++ cur) ++ [(key, value)].
Proof.
  intros Hi Hb Hs. destruct (add_entry_inv r blocks cur hs idx key value Hi) as (idx' & Hi' & Hp). unfold TableBuilder_Add.
  destruct (_ <=? _); [|exists blocks, (cur ++ [(key, value)]), hs, idx'; by rewrite <- app_assoc].
  destruct (Flush_inv _ _ _ _ _ Hi' Hp) as (h & Hf & _); [by destruct cur|done|by rewrite app_assoc|].
  exists (blocks ++ [cur ++ [(key, value)]]), [], (hs ++ [h]), idx'. split; [done|].
  rewrite concat_app. cbn [concat]. by rewrite !app_nil_r, <- app_assoc.
Qed.

Definition build_rep (es : list entry) : Rep :=
  foldl (fun r '(key, value) => TableBuilder_Add interval block_size compression key value r) (new_TableBuilder policy_name) es.
Definition build_table (es : list entry) : list Z := TableBuilder_Finish interval compression policy_name (build_rep es).

Lemma build_rep_inv es : entry_bytes es -> entries_size es < 0xffff_0000 ->
  exists blocks cur hs idx, table_inv (build_rep es) blocks cur hs idx /\ concat blocks ++ cur = es.
Proof.
  induction es as [|[key value] es IH] using rev_ind; intros Hb Hs.
  { exists [], [], [], []. split; [apply new_inv|done]. }
  apply Forall_app in Hb as [Hb Hk]. pose proof Hs as Hs'. rewrite entries_size_app in Hs'.
  pose proof (entries_size_pos [(key, value)]). destruct (IH Hb ltac:(lia)) as (blocks & cur & hs & idx & Hi & <-).
  unfold build_rep. rewrite foldl_app. cbn [foldl]. fold (build_rep (concat blocks ++ cur)).
  apply Forall_app in Hb as [_ Hc]. eapply TableBuilder_Add_inv; [done| |done]. by apply Forall_app_2.
Qed.

(** *** The index *)

Definition key_ok (k : list Z) : Prop := bytes k /\ (8 <= length k)%nat.

Lemma index_key_ok k next : key_ok k -> key_ok (index_key k next) /\ (length (index_key k next) <= length k)%nat.
Proof.
  intros [Hb Hl]. destruct next as [k'|]; cbn [index_key].
  - pose proof (separator_length k k' Hl). split; [|lia]. split; [by apply separator_bytes|lia].
  - pose proof (successor_length k Hl). split; [|lia]. split; [by apply successor_bytes|lia].
Qed.

Lemma indexed_entry blocks cur hs i x :
  Forall (fun y => key_ok (fst y)) (concat blocks) -> indexed blocks cur hs i x -> (forall h, h ∈ hs -> handle_ok h) ->
  exists b, blocks !! i = Some b /\ key_ok (fst x) /\ bytes (snd x)
    /\ Z.of_nat (length (fst x)) + Z.of_nat (length (snd x)) + 48 <= entries_size b + 20.
Proof.
  intros Hk (h & b & kl & Hh & Hb & Hl & ->) Hok. exists b. split; [done|]. cbn [fst snd].
  assert (key_ok (fst kl)) as Hkl.
  { rewrite Forall_forall in Hk. apply Hk. apply list_elem_of_In, in_concat. exists b.
    split; [by eapply list_elem_of_In, list_elem_of_lookup_2|]. rewrite last_lookup in Hl. by eapply list_elem_of_In, list_elem_of_lookup_2. }
  destruct (index_key_ok (fst kl) (fst <$> head (rest_of blocks cur i)) Hkl) as [H1 H2].
  assert (handle_ok h) as Hh' by (apply Hok; by eapply list_elem_of_lookup_2).
  split_and!; [apply H1..|by apply bytes_Handle|]. pose proof (length_Handle h Hh').
  rewrite last_lookup in Hl. pose proof (take_drop_middle b _ kl Hl) as E. rewrite <- E, entries_size_app.
  cbn [entries_size foldr]. fold (entries_size (drop (S (pred (length b))) b)).
  pose proof (entries_size_pos (take (pred (length b)) b)). pose proof (entries_size_pos (drop (S (pred (length b))) b)). lia.
Qed.

Lemma index_size (blocks : list (list entry)) (idx : list entry) :
  length idx = length blocks -> Forall (fun b => b <> []) blocks ->
  (forall i x, idx !! i = Some x -> exists b, blocks !! i = Some b
     /\ Z.of_nat (length (fst x)) + Z.of_nat (length (snd x)) + 48 <= entries_size b + 20) ->
  2 * entries_size idx <= 3 * entries_size (concat blocks).
Proof.
  revert idx. induction blocks as [|b blocks IH]; intros [|x idx] Hl Hne Hall; try done. apply Forall_cons in Hne as [Hb Hne].
  cbn [concat]. rewrite entries_size_app. cbn [entries_size foldr]. fold (entries_size idx).
  destruct (Hall 0%nat x eq_refl) as (b' & [= <-] & Hx).
  specialize (IH idx ltac:(cbn in Hl; lia) Hne (fun i => Hall (S i))).
  assert (48 <= entries_size b); [|lia]. destruct b as [|y b]; [done|]. cbn [entries_size foldr]. fold (entries_size b).
  pose proof (entries_size_pos b). lia.
Qed.

(** *** The last steps *)

Lemma WriteBlock_prefix c file offset block : exists more, fst (fst (WriteBlock c file offset block)) = file ++ more.
Proof.
  unfold WriteBlock. set (p := if _ =? _ then _ else _). destruct p as [contents type]. by eexists.
Qed.

Lemma filter_in_table r b : filter_block (Flush compression r) = Some b -> policy_name <> None ->
  (length (FilterBlock.Finish b) <= length (TableBuilder_Finish interval compression policy_name r))%nat.
Proof.
  intros Hb Hn. unfold TableBuilder_Finish. rewrite Hb. destruct policy_name as [name|]; [|done]. unfold WriteRawBlock.
  set (file1 := _ ++ _ ++ _). set (off1 := w64 _). set (mb := BlockBuilder_Add _ _ _ _).
  destruct (WriteBlock_prefix compression file1 off1 mb) as [m1 E1]. destruct (WriteBlock compression file1 off1 mb) as [[file2 off2] h2].
  cbn [fst] in E1. set (ib := index_block _). destruct (WriteBlock_prefix compression file2 off2 ib) as [m2 E2].
  destruct (WriteBlock compression file2 off2 ib) as [[file3 off3] h3]. cbn [fst] in E2.
  rewrite E2, E1. unfold file1. rewrite !length_app. lia.
Qed.

(** The filter block and the index of it. *)
Lemma filter_part r fb : filter_block r = (fun _ => fb) <$> policy_name ->
  r_offset r = Z.of_nat (length (r_file r)) ->
  (policy_name <> None -> Z.of_nat (length (r_file r)) + Z.of_nat (length (FilterBlock.Finish fb)) + 5 < 0x1_0000_0000_0000_0000) ->
  exists more metas,
    match filter_block r, policy_name with
    | Some b, Some name =>
        let '(file, offset, filter_block_handle) := WriteRawBlock (r_file r) (r_offset r) (FilterBlock.Finish b) kNoCompression in
        (file, offset, BlockBuilder_Add interval (filter_key name) (Handle_EncodeTo filter_block_handle []) new_BlockBuilder)
    | _, _ => (r_file r, r_offset r, new_BlockBuilder)
    end = (r_file r ++ more, Z.of_nat (length (r_file r ++ more)), build interval metas new_BlockBuilder)
    /\ Z.of_nat (length more) <= (if policy_name is Some _ then Z.of_nat (length (FilterBlock.Finish fb)) + 5 else 0)
    /\ match policy_name with
       | None => metas = []
       | Some name => exists h, metas = [(filter_key name, Handle_EncodeTo h [])] /\ handle_ok h
           /\ forall rest, ReadBlock ((r_file r ++ more) ++ rest) false h = Some (inr (FilterBlock.Finish fb))
       end.
Proof.
  intros Hf Ho Hs. rewrite Hf, Ho. destruct policy_name as [name|]; cbn [fmap option_fmap option_map].
  - destruct (WriteRawBlock_stored (r_file r) (FilterBlock.Finish fb) kNoCompression (FilterBlock.Finish fb)) as (more & h & -> & H1 & H2 & H3 & _ & H4).
    { by left. } { by apply Hs. }
    exists more, [(filter_key name, Handle_EncodeTo h [])]. split_and!; [done|lia|]. exists h. split_and!; [done|done|].
    intros rest. by apply H3.
  - exists [], []. rewrite app_nil_r. split_and!; [done|cbn; lia|done].
Qed.

(** A finished table: what its parts read as. *)
Record table_file (file : list Z) (blocks : list (list entry)) (hs : list BlockHandle) (idx : list entry) (fend : Z) (t : Table) : Prop := {
  tf_len : length hs = length blocks;
  tf_idx_len : length idx = length blocks;
  tf_stored i b h : blocks !! i = Some b -> hs !! i = Some h -> stored file h (build_block interval b);
  tf_nonempty : Forall (fun b => b <> []) blocks;
  tf_idx i x : idx !! i = Some x -> indexed blocks [] hs i x;
  tf_idx_size : entries_size idx < 0xffff_fff0;
  tf_order : in_order (filter_blocks hs blocks ++ [(fend, [])]);
  tf_open : Table_Open policy_name file (Z.of_nat (length file)) = Some (inr t);
  tf_file : t_file t = file;
  tf_index : t_index_block t = build_block 1 idx;
  tf_filter : t_filter t
    = (fun _ => new_FilterBlockReader (build_filter_block (filter_blocks hs blocks ++ [(fend, [])]))) <$> policy_name;
  tf_filter_size : policy_name <> None ->
    Z.of_nat (length (build_filter_block (filter_blocks hs blocks ++ [(fend, [])]))) < 0x1_0000_0000 }.

Definition name_ok : Prop := match policy_name with None => True | Some name => bytes name /\ Z.of_nat (length name) < 0x1_0000 end.

(** Reading the index of the filter block. *)
Lemma ReadMeta_spec file footer more metas fb :
  name_ok ->
  ReadBlock file false (metaindex_handle footer) = Some (inr (build_block interval metas)) ->
  match policy_name with
  | None => metas = []
  | Some name => exists h, metas = [(filter_key name, Handle_EncodeTo h [])] /\ handle_ok h
      /\ forall rest, ReadBlock (more ++ rest) false h = Some (inr fb)
  end ->
  more `prefix_of` file ->
  ReadMeta policy_name file footer = Some ((fun _ => new_FilterBlockReader fb) <$> policy_name).
Proof.
  intros Hn Hr Hm [rest ->]. unfold ReadMeta, name_ok in *. destruct policy_name as [name|]; [|done]. destruct Hn as [Hn1 Hn2].
  rewrite Hr. cbn [mbind option_bind]. destruct Hm as (h & -> & Hh & Hf). pose proof (length_Handle h Hh).
  assert (Bytewise_Compare (filter_key name) (filter_key name) = 0) as Hc
    by (unfold Bytewise_Compare; by rewrite Slice_compare_lex, lex_refl).
  rewrite (Block_Seek_built Bytewise_Compare (fun _ => True)); [|done| |by repeat constructor|by repeat constructor|done].
  2: { cbn [entries_size foldr fst snd filter_key length app]. lia. }
  cbn [mbind option_bind list_find fst]. rewrite decide_True by (rewrite Hc; lia).
  cbn [fmap option_fmap option_map snd mbind option_bind]. rewrite bool_decide_eq_true_2 by done.
  unfold ReadFilter. rewrite <- (app_nil_r (Handle_EncodeTo h [])), Handle_roundtrip by apply Hh. by rewrite Hf.
Qed.

Lemma final_index r blocks hs idx :
  table_inv r blocks [] hs idx ->
  exists idx', index_block (add_index_entry (InternalKey_FindShortSuccessor (last_key r)) r) = build 1 idx' new_BlockBuilder
    /\ length idx' = length blocks /\ forall i x, idx' !! i = Some x -> indexed blocks [] hs i x.
Proof.
  intros Hi. pose proof Hi as []. unfold add_index_entry. destruct (pending_index_entry r) eqn:E.
  - destruct ti_pending0 as (_ & Hl & _).
    exists (idx ++ [(InternalKey_FindShortSuccessor (last_key r), Handle_EncodeTo (pending_handle r) [])]). split_and!.
    + cbn [index_block]. by rewrite build_snoc, ti_index0.
    + rewrite length_app. cbn [length]. lia.
    + intros i x Hx. apply lookup_app_Some in Hx as [Hx|[Hge Hx]]; [by apply ti_idx0|].
      apply list_lookup_singleton_Some in Hx as [Hz <-]. replace i with (length idx) by lia.
      apply (pending_indexed r blocks hs idx [] None Hi E eq_refl).
  - destruct ti_pending0 as (Hl & _). exists idx. split_and!; [done..|]. intros i x Hx. by apply ti_idx0.
Qed.

Lemma flushed_inv es : entry_bytes es -> entries_size es < 0xffff_0000 ->
  exists blocks hs idx, table_inv (Flush compression (build_rep es)) blocks [] hs idx /\ concat blocks = es.
Proof.
  intros Hb Hs. destruct (build_rep_inv es Hb Hs) as (blocks & cur & hs & idx & Hi & Hes). destruct cur as [|x cur].
  - exists blocks, hs, idx. rewrite (Flush_empty _ _ _ _ Hi). rewrite app_nil_r in Hes. done.
  - destruct (Flush_inv _ _ _ _ _ Hi) as (h & Hf & _); try done.
    + pose proof (ti_pending _ _ _ _ _ Hi) as Hp. destruct (pending_index_entry _); [|done]. by destruct Hp.
    + rewrite <- Hes in Hb. by apply Forall_app in Hb as [_ Hb].
    + by rewrite Hes.
    + exists (blocks ++ [x :: cur]), (hs ++ [h]), idx. split; [done|]. rewrite concat_app. cbn [concat]. by rewrite app_nil_r.
Qed.

Lemma table_handles r blocks hs idx h : table_inv r blocks [] hs idx -> h ∈ hs -> handle_ok h.
Proof.
  intros [] [i Hh]%list_elem_of_lookup. destruct (lookup_lt_is_Some_2 blocks i) as [b Hb]; [apply lookup_lt_Some in Hh; lia|].
  by destruct (ti_stored0 i b h Hb Hh) as (? & ? & _).
Qed.

Lemma index_entries_ok blocks hs idx :
  Forall (fun y => key_ok (fst y)) (concat blocks) -> (forall h, h ∈ hs -> handle_ok h) -> length idx = length blocks ->
  Forall (fun b => b <> []) blocks -> (forall i x, idx !! i = Some x -> indexed blocks [] hs i x) ->
  entry_bytes idx /\ 2 * entries_size idx <= 3 * entries_size (concat blocks).
Proof.
  intros Hk Hhs Hl Hne Hidx. split.
  - apply Forall_lookup. intros i x Hx. destruct (indexed_entry blocks [] hs i x Hk (Hidx i x Hx) Hhs) as (b & _ & Hkx & Hvx & _).
    split; [apply Hkx|done].
  - apply index_size; [done|done|]. intros i x Hx. destruct (indexed_entry blocks [] hs i x Hk (Hidx i x Hx) Hhs) as (b & ? & _ & _ & ?).
    by exists b.
Qed.

Lemma metas_ok (metas : list entry) (P : BlockHandle -> Prop) : name_ok ->
  match policy_name with
  | None => metas = []
  | Some name => exists h, metas = [(filter_key name, Handle_EncodeTo h [])] /\ handle_ok h /\ P h
  end -> entry_bytes metas /\ entries_size metas < 0x10_0000.
Proof.
  unfold name_ok. destruct policy_name as [name|]; [|intros _ ->; by split; [constructor|]]. intros Hname (h & -> & Hh & _).
  pose proof (length_Handle h Hh). split.
  - constructor; [|constructor]. split; cbn [fst snd]; [|by apply bytes_Handle]. apply bytes_app. split; [|apply Hname].
    repeat constructor; lia.
  - cbn [entries_size foldr fst snd filter_key length app]. lia.
Qed.

Lemma filter_offsets_ok r blocks hs idx :
  table_inv r blocks [] hs idx -> in_order (filter_blocks hs blocks ++ [(r_offset r, [])]).
Proof.
  intros Hi. pose proof Hi as []. split; [done|]. apply Forall_app_2; [|constructor; [cbn; lia|constructor]].
  apply Forall_lookup. intros i [o ks] Hx. unfold filter_blocks in Hx. apply lookup_zip_with_Some in Hx as (h & b & [= -> ->] & Hh & _).
  cbn. destruct (table_handles _ _ _ _ h Hi) as [? _]; [by eapply list_elem_of_lookup_2|]. unfold is64 in *. lia.
Qed.

Lemma build_table_file es :
  Forall (fun x => key_ok (fst x) /\ bytes (snd x)) es -> entries_size es < 0x8000_0000 -> name_ok ->
  Z.of_nat (length (build_table es)) < 0x1_0000_0000 ->
  exists blocks hs idx fend t, concat blocks = es /\ table_file (build_table es) blocks hs idx fend t.
Proof.
  intros Hes Hsz Hname Hfile.
  assert (entry_bytes es) as Hb by (eapply Forall_impl; [exact Hes|]; intros x [[? _] ?]; done).
  destruct (flushed_inv es Hb ltac:(lia)) as (blocks & hs & idx0 & Hi & Hc).
  destruct (final_index _ _ _ _ Hi) as (idx & Eidx & Hlen & Hidx). pose proof Hi as [].
  pose proof (filter_in_table (build_rep es)) as Hfs. fold (build_table es) in Hfs.
  set (r := Flush compression (build_rep es)) in *. cbn [map] in *.
  set (fb := foldl add_block new_FilterBlockBuilder (filter_blocks hs blocks ++ [(r_offset r, [])])) in *.
  assert (policy_name <> None -> Z.of_nat (length (FilterBlock.Finish fb)) < 0x1_0000_0000) as Hfsz.
  { intros Hn. specialize (Hfs fb). rewrite ti_filter0 in Hfs. destruct policy_name; [|done]. specialize (Hfs eq_refl Hn). lia. }
  rewrite Hc in ti_size0.
  destruct (filter_part r fb ti_filter0 ti_offset0) as (more & metas & Efp & Hmore & Hmetas). { intros Hn. specialize (Hfsz Hn). lia. }
  assert (Z.of_nat (length more) < 0x1_0000_0000 + 5) as Hmore'.
  { destruct policy_name; [specialize (Hfsz ltac:(done)); lia|lia]. }
  (* the index of the filter block *)
  destruct (metas_ok metas _ Hname Hmetas) as [Hmb Hms].
  pose proof (build_block_size interval metas) as Hmsz. unfold build_block in Hmsz.
  destruct (WriteBlock_stored compression (r_file r ++ more) (build interval metas new_BlockBuilder)) as (m2 & h2 & E2 & St2 & _ & L2 & _).
  { by apply build_block_bytes. } { lia. } { rewrite length_app. lia. }
  (* the index of the data blocks *)
  assert (Forall (fun y => key_ok (fst y)) (concat blocks)) as Hk by (rewrite Hc; eapply Forall_impl; [exact Hes|]; by intros x [? _]).
  destruct (index_entries_ok blocks hs idx Hk (fun h => table_handles _ _ _ _ h Hi) Hlen ti_nonempty0 Hidx) as [Hib His].
  rewrite Hc in His. pose proof (build_block_size 1 idx) as Hisz. unfold build_block in Hisz.
  destruct (WriteBlock_stored compression ((r_file r ++ more) ++ m2) (build 1 idx new_BlockBuilder)) as (m3 & h3 & E3 & St3 & _ & _ & _).
  { by apply build_block_bytes. } { lia. } { rewrite !length_app. lia. }
  set (footer := {| metaindex_handle := h2; index_handle := h3 |}).
  assert (build_table es = (((r_file r ++ more) ++ m2) ++ m3) ++ Footer_EncodeTo footer []) as EF.
  { unfold build_table, TableBuilder_Finish. fold r. rewrite Efp, E2, Eidx, E3. done. }
  destruct (Footer_roundtrip footer) as [Hfl Hfd]; [split; apply St2|split; apply St3|].
  exists blocks, hs, idx, (r_offset r), {| t_file := build_table es; t_filter := (fun _ => new_FilterBlockReader (FilterBlock.Finish fb)) <$> policy_name;
    t_metaindex_handle := h2; t_index_block := build_block 1 idx |}.
  split; [done|]. split; try done.
  - intros i b h Hb' Hh. rewrite EF, <- !app_assoc. by apply stored_app, (ti_stored0 i).
  - lia.
  - by eapply filter_offsets_ok.
  - unfold Table_Open. rewrite EF. rewrite length_app, Hfl. rewrite (proj2 (Z.ltb_ge _ _)) by lia.
    replace (file_read _ _ _) with (Footer_EncodeTo footer []); [rewrite Hfd|].
    + destruct St3 as (_ & _ & St3). change (index_handle footer) with h3. rewrite St3. cbn [mbind option_bind].
      rewrite (ReadMeta_spec _ footer (r_file r ++ more) metas (FilterBlock.Finish fb)); [by rewrite <- EF|done| |done|].
      * destruct St2 as (_ & _ & St2). rewrite <- app_assoc. change (metaindex_handle footer) with h2. apply St2.
      * rewrite <- !app_assoc. eexists. by rewrite <- app_assoc.
    + unfold file_read. rewrite !Z2Nat.inj_sub, !Nat2Z.id by lia. replace (_ - _)%nat with (length (((r_file r ++ more) ++ m2) ++ m3)) by lia.
      rewrite drop_app_length, take_ge; [done|]. by rewrite Hfl.
Qed.
End build.

(** ** Searching a table *)

(** A filter policy for internal keys looks at the user keys only. *)
Class UserKeyFilter `{FilterPolicy} :=
  KeyMayMatch_user k k' f : ExtractUserKey k = ExtractUserKey k' -> KeyMayMatch k f = KeyMayMatch k' f.

#[export] Instance InternalFilterPolicy_user (user : FilterPolicy) : @UserKeyFilter (InternalFilterPolicy user).
Proof. intros k k' f E. cbn. by rewrite E. Qed.

Section search.
Context `{FilterPolicy} `{!UserKeyFilter} `{Compression} (interval : Z) (policy_name : option (list Z)) (Interval : 1 <= interval).
Abbreviation entry := (list Z * list Z)%type.
Abbreviation before := (fun x y : entry => InternalKey_Compare (fst x) (fst y) < 0).
Context (file : list Z) (blocks : list (list entry)) (hs : list BlockHandle) (idx : list entry) (fend : Z) (t : Table).
Context (Tf : table_file interval policy_name file blocks hs idx fend t) (Sorted_es : StronglySorted before (concat blocks)).

(** The key of a block in the index, against the entries up to it and behind it. *)
Lemma index_bounds i x :
  idx !! i = Some x ->
  (forall y, y ∈ concat (take (S i) blocks) -> InternalKey_Compare (fst y) (fst x) <= 0)
  /\ (forall y, y ∈ concat (drop (S i) blocks) -> InternalKey_Compare (fst x) (fst y) < 0)
  /\ (forall k y, (forall z, z ∈ concat (take (S i) blocks) -> InternalKey_Compare (fst z) k < 0) ->
        InternalKey_Compare k (fst x) <= 0 -> y ∈ concat (drop (S i) blocks) -> ExtractUserKey (fst y) <> ExtractUserKey k).
Proof.
  intros Hx. destruct (tf_idx _ _ _ _ _ _ _ _ Tf i x Hx) as (h & b & kl & Hh & Hb & Hk & ->). unfold rest_of. cbn [fst].
  rewrite app_nil_r. assert (exists pre, concat (take (S i) blocks) = pre ++ [kl]) as [pre Epre].
  { rewrite (take_S_r _ _ _ Hb), concat_app. cbn [concat]. rewrite app_nil_r. rewrite last_lookup in Hk.
    destruct b as [|y b _] using rev_ind; [done|]. rewrite length_app, Nat.add_1_r in Hk. cbn [pred] in Hk.
    rewrite lookup_app_r, Nat.sub_diag in Hk by lia. injection Hk as <-. eexists. by rewrite app_assoc. }
  pose proof Sorted_es as Hs. rewrite <- (take_drop (S i) blocks), concat_app, Epre in Hs.
  apply StronglySorted_app in Hs as (Hcross & Hpre & Hrest). apply StronglySorted_app in Hpre as (Hlast & _ & _).
  set (rest := concat (drop (S i) blocks)) in *.
  assert (forall z, z ∈ rest -> InternalKey_Compare (fst kl) (fst z) < 0) as Hkl by (intros z Hz; apply Hcross; [set_solver|done]).
  assert (forall y, y ∈ rest -> exists n, head rest = Some n /\ InternalKey_Compare (fst n) (fst y) <= 0) as Hhead.
  { intros y Hy. destruct rest as [|n rest']; [set_solver|]. exists n. split; [done|]. apply StronglySorted_inv in Hrest as [_ Hn].
    apply elem_of_cons in Hy as [->|Hy]; [pose proof (InternalKey_Compare_opp (fst n) (fst n)); lia|]. rewrite Forall_forall in Hn. by apply Z.lt_le_incl, Hn. }
  assert (InternalKey_Compare (fst kl) (index_key (fst kl) (fst <$> head rest)) <= 0) as Hle.
  { destruct rest as [|n rest']; [apply InternalKey_successor|]. apply InternalKey_separator, Hkl. set_solver. }
  split_and!.
  - intros y Hy. rewrite Epre in Hy. apply elem_of_app in Hy as [Hy|Hy%list_elem_of_singleton]; [|by subst y].
    apply Z.lt_le_incl. eapply Compare_lt_le; [|exact Hle]. apply Hlast; [done|set_solver].
  - intros y Hy. destruct (Hhead y Hy) as (n & En & Hny). rewrite En. cbn [fmap option_fmap option_map index_key].
    eapply Compare_lt_le; [|exact Hny]. apply InternalKey_separator, Hkl. destruct rest; [done|]. injection En as <-. set_solver.
  - intros k y Hz Hkx Hy Eu. destruct (Hhead y Hy) as (n & En & Hny). rewrite En in Hkx. cbn [fmap option_fmap option_map index_key] in Hkx.
    assert (n ∈ rest) as Hn by (destruct rest; [done|]; injection En as <-; set_solver).
    pose proof (separator_gap (fst kl) (fst n) k (Hkl n Hn) (Hz kl ltac:(rewrite Epre; set_solver)) Hkx) as Hgap.
    apply user_key_le in Hny. rewrite Eu, (lex_opp (ExtractUserKey k)) in Hny. lia.
Qed.

Lemma index_sorted : StronglySorted before idx.
Proof.
  apply sorted_of_lookup. intros i j x y Hij Hi Hj. destruct (index_bounds i x Hi) as (_ & Hafter & _).
  destruct (index_bounds j y Hj) as (Hupto & _). destruct (tf_idx _ _ _ _ _ _ _ _ Tf j y Hj) as (h & b & kl & Hh & Hb & Hk & _).
  assert (kl ∈ b) as Hkl by (rewrite last_lookup in Hk; by eapply list_elem_of_lookup_2).
  apply (Compare_lt_le _ (fst kl)).
  - apply Hafter. apply list_elem_of_In, in_concat. exists b. split; [|by apply list_elem_of_In].
    apply list_elem_of_In. apply (list_elem_of_lookup_2 _ (j - S i)). rewrite lookup_drop. by replace (S i + (j - S i))%nat with j by lia.
  - apply Hupto. apply list_elem_of_In, in_concat. exists b. split; [|by apply list_elem_of_In].
    apply list_elem_of_In, (list_elem_of_lookup_2 _ j). by rewrite lookup_take_lt by lia.
Qed.

Definition found (es : list entry) (k : list Z) : option entry := snd <$> list_find (fun x => 0 <= InternalKey_Compare (fst x) k) es.

Lemma found_None es k : Forall (fun x => InternalKey_Compare (fst x) k < 0) es -> found es k = None.
Proof.
  intros Hf. unfold found. assert (list_find (fun x : entry => 0 <= InternalKey_Compare (fst x) k) es = None) as ->; [|done].
  apply list_find_None. eapply Forall_impl; [exact Hf|]. cbn. lia.
Qed.
Lemma found_app es es' k :
  found (es ++ es') k = match found es k with Some x => Some x | None => found es' k end.
Proof.
  induction es as [|x es IH]; [done|]. unfold found in *. cbn [app list_find]. destruct (decide _); [done|].
  destruct (list_find _ (es ++ es')) as [[]|], (list_find _ es) as [[]|], (list_find _ es') as [[]|]; cbn in *; congruence.
Qed.
Lemma found_Some es k x : found es k = Some x -> x ∈ es /\ 0 <= InternalKey_Compare (fst x) k.
Proof.
  unfold found. destruct (list_find _ es) as [[i y]|] eqn:E; cbn; [|done]. intros [= ->].
  apply list_find_Some in E as (Hi & Hx & _). split; [by eapply list_elem_of_lookup_2|done].
Qed.
Lemma found_None_inv es k x : found es k = None -> x ∈ es -> InternalKey_Compare (fst x) k < 0.
Proof.
  unfold found. destruct (list_find _ es) as [[i y]|] eqn:E; cbn; [done|]. intros _ Hx.
  apply list_find_None in E. rewrite Forall_forall in E. specialize (E x Hx). lia.
Qed.

Context (Size : entries_size (concat blocks) < 0x8000_0000).

Lemma block_size_le i b : blocks !! i = Some b -> entries_size b <= entries_size (concat blocks).
Proof.
  intros Hb. rewrite <- (take_drop_middle blocks i b Hb), concat_app. cbn [concat]. rewrite !entries_size_app.
  pose proof (entries_size_pos (concat (take i blocks))). pose proof (entries_size_pos (concat (drop (S i) blocks))). lia.
Qed.
Lemma block_sorted i b : blocks !! i = Some b -> StronglySorted before b.
Proof.
  intros Hb. pose proof Sorted_es as Hs. rewrite <- (take_drop_middle blocks i b Hb), concat_app in Hs. cbn [concat] in Hs.
  apply StronglySorted_app_1_r in Hs. by apply StronglySorted_app_1_l in Hs.
Qed.

(** The filter of a block says that nothing has the user key. *)
Lemma filter_excludes i b h k filter y :
  blocks !! i = Some b -> hs !! i = Some h -> t_filter t = Some filter ->
  Reader_KeyMayMatch filter (h_offset h) k = false -> y ∈ b -> ExtractUserKey (fst y) <> ExtractUserKey k.
Proof.
  intros Hb Hh Hf Hno Hy Eu. rewrite (tf_filter _ _ _ _ _ _ _ _ Tf) in Hf. pose proof (tf_filter_size _ _ _ _ _ _ _ _ Tf) as Hsz.
  destruct policy_name as [name|]; [|done]. specialize (Hsz ltac:(done)). cbn in Hf. injection Hf as <-.
  enough (Reader_KeyMayMatch (new_FilterBlockReader (build_filter_block (filter_blocks hs blocks ++ [(fend, [])]))) (h_offset h) k = true)
    by congruence.
  transitivity (Reader_KeyMayMatch (new_FilterBlockReader (build_filter_block (filter_blocks hs blocks ++ [(fend, [])]))) (h_offset h) (fst y)).
  { unfold Reader_KeyMayMatch. destruct (_ <? _); [|done]. destruct (_ && _); [|done]. by apply KeyMayMatch_user. }
  apply (filter_block_may_match _ _ (map fst b)); [apply (tf_order _ _ _ _ _ _ _ _ Tf)|done| |by apply list_elem_of_fmap_2].
  apply elem_of_app. left. apply (list_elem_of_lookup_2 _ i). apply lookup_zip_with_Some. by exists h, b.
Qed.

Lemma BlockReader_Seek_spec verify i b h k :
  blocks !! i = Some b -> hs !! i = Some h ->
  BlockReader_Seek t verify (Handle_EncodeTo h []) k = Some (found b k, OK).
Proof.
  intros Hb Hh. destruct (tf_stored _ _ _ _ _ _ _ _ Tf i b h Hb Hh) as (H1' & H2' & Hread). unfold BlockReader_Seek.
  rewrite <- (app_nil_r (Handle_EncodeTo h [])), Handle_roundtrip by done. rewrite (tf_file _ _ _ _ _ _ _ _ Tf).
  rewrite <- (app_nil_r file), Hread. cbn [mbind option_bind]. pose proof (block_size_le i b Hb).
  apply (Block_Seek_built InternalKey_Compare (fun _ => True)); [done|lia|by apply Forall_true|by eapply block_sorted|done].
Qed.

Lemma InternalGet_spec verify k :
  exists r, InternalGet t verify k = Some (r, OK)
    /\ (r = found (concat blocks) k
        \/ (r = None /\ forall y, found (concat blocks) k = Some y -> ExtractUserKey (fst y) <> ExtractUserKey k)).
Proof.
  unfold InternalGet. rewrite (tf_index _ _ _ _ _ _ _ _ Tf).
  rewrite (Block_Seek_built InternalKey_Compare (fun _ => True)); [|done|apply (tf_idx_size _ _ _ _ _ _ _ _ Tf)|by apply Forall_true|apply index_sorted|done].
  cbn [mbind option_bind]. destruct (list_find _ idx) as [[i x]|] eqn:E; cbn [fmap option_fmap option_map snd].
  2: { exists None. split; [done|]. left. symmetry. apply found_None, Forall_forall. intros y Hy.
       apply list_elem_of_In, in_concat in Hy as (b & Hb & Hy). apply list_elem_of_In, list_elem_of_lookup in Hb as [i Hb].
       destruct (lookup_lt_is_Some_2 idx i) as [x Hx]; [rewrite (tf_idx_len _ _ _ _ _ _ _ _ Tf); by eapply lookup_lt_Some|].
       apply list_find_None in E. rewrite Forall_lookup in E. specialize (E i x Hx).
       destruct (index_bounds i x Hx) as (Hupto & _). apply (Compare_le_lt _ (fst x)); [|lia]. apply Hupto.
       rewrite (take_S_r _ _ _ Hb), concat_app. apply elem_of_app. right. cbn [concat]. rewrite app_nil_r. by apply list_elem_of_In. }
  apply list_find_Some in E as (Hx & Hge & Hlt). destruct (index_bounds i x Hx) as (_ & _ & Hgap).
  destruct (tf_idx _ _ _ _ _ _ _ _ Tf i x Hx) as (h & b & kl & Hh & Hb & _ & Ex).
  assert (Forall (fun y => InternalKey_Compare (fst y) k < 0) (concat (take i blocks))) as Hbefore.
  { destruct i as [|i]; [constructor|]. apply Forall_forall. intros y Hy.
    destruct (lookup_lt_is_Some_2 idx i) as [x' Hx']; [apply lookup_lt_Some in Hx; lia|].
    destruct (index_bounds i x' Hx') as (Hupto & _). specialize (Hlt i x' Hx' ltac:(lia)).
    apply (Compare_le_lt _ (fst x')); [by apply Hupto|lia]. }
  assert (found (concat blocks) k = match found b k with Some y => Some y | None => found (concat (drop (S i) blocks)) k end) as Ef.
  { rewrite <- (take_drop_middle blocks i b Hb) at 1. rewrite concat_app. cbn [concat]. by rewrite found_app, (found_None _ _ Hbefore), found_app. }
  assert (found b k = None -> forall y, found (concat (drop (S i) blocks)) k = Some y -> ExtractUserKey (fst y) <> ExtractUserKey k) as Hnext.
  { intros Hnone y [Hy _]%found_Some. apply Hgap; [|rewrite (InternalKey_Compare_opp (fst x) k); lia|done].
    intros z Hz. rewrite (take_S_r _ _ _ Hb), concat_app in Hz. cbn [concat] in Hz. rewrite app_nil_r in Hz.
    apply elem_of_app in Hz as [Hz|Hz]; [rewrite Forall_forall in Hbefore; by apply Hbefore|by apply (found_None_inv b)]. }
  destruct x as [sep v]. cbn [fst snd] in *. injection Ex as _ ->. destruct (filter_skips _ _ _) eqn:Es.
  - exists None. split; [done|]. right. split; [done|]. intros y. rewrite Ef. unfold filter_skips in Es.
    destruct (t_filter t) as [filter|] eqn:Hf; [|done]. destruct (tf_stored _ _ _ _ _ _ _ _ Tf i b h Hb Hh) as (H1' & H2' & _).
    rewrite <- (app_nil_r (Handle_EncodeTo h [])), Handle_roundtrip in Es by done. apply negb_true_iff in Es.
    destruct (found b k) as [z|] eqn:Efb; [|by apply Hnext]. intros [= <-]. apply found_Some in Efb as [Hz _].
    by apply (filter_excludes i b h k filter).
  - rewrite (BlockReader_Seek_spec verify i b h k Hb Hh). cbn [mbind option_bind]. exists (found b k). split; [done|].
    rewrite Ef. destruct (found b k) as [z|] eqn:Efb; [by left|]. right. split; [done|]. by apply Hnext.
Qed.
End search.

Lemma built_table_get `{FilterPolicy} `{!UserKeyFilter} `{Compression}
    (interval block_size compression : Z) (policy_name : option (list Z)) (es : list (list Z * list Z)) :
  1 <= interval -> name_ok policy_name ->
  Forall (fun x => key_ok (fst x) /\ bytes (snd x)) es ->
  StronglySorted (fun x y => InternalKey_Compare (fst x) (fst y) < 0) es ->
  entries_size es < 0x8000_0000 ->
  Z.of_nat (length (build_table interval block_size compression policy_name es)) < 0x1_0000_0000 ->
  let file := build_table interval block_size compression policy_name es in
  exists t, Table_Open policy_name file (Z.of_nat (length file)) = Some (inr t)
    /\ forall verify_checksums k, exists r, InternalGet t verify_checksums k = Some (r, OK)
      /\ (r = found es k
          \/ (r = None /\ forall y, found es k = Some y -> ExtractUserKey (fst y) <> ExtractUserKey k)).
Proof.
  intros Hi Hn He Hs Hsz Hf file.
  destruct (build_table_file interval block_size compression policy_name Hi es He Hsz Hn Hf) as (blocks & hs & idx & fend & t & <- & Tf).
  exists t. split; [apply (tf_open _ _ _ _ _ _ _ _ Tf)|]. intros verify k.
  by apply (InternalGet_spec interval policy_name Hi _ _ _ _ _ _ Tf Hs Hsz).
Qed.

(** C17: A table file answers searches.  A table that the builder makes from entries in the
    order of internal keys can be opened, for every block size, restart interval, filter
    policy and compression.  A search in it, with or without checksums, reads through the
    index, the filter and one block without an error, and hands over the first entry that is
    not before the key; it may find nothing instead, but only when no entry with the user key
    of the search is there to be found.  The size is limited to 2 GB of keys and values. *)
Theorem table_get `{FilterPolicy} `{!UserKeyFilter} `{Compression}
    (interval block_size compression : Z) (policy_name : option (list Z)) (es : list (list Z * list Z)) :
  1 <= interval -> name_ok policy_name ->
  Forall (fun x => key_ok (fst x) /\ bytes (snd x)) es ->
  StronglySorted (fun x y => InternalKey_Compare (fst x) (fst y) < 0) es ->
  entries_size es < 0x8000_0000 ->
  Z.of_nat (length (build_table interval block_size compression policy_name es)) < 0x1_0000_0000 ->
  let file := build_table interval block_size compression policy_name es in
  exists t, Table_Open policy_name file (Z.of_nat (length file)) = Some (inr t)
    /\ forall verify_checksums k, exists r, InternalGet t verify_checksums k = Some (r, OK)
      /\ (r = found es k
          \/ (r = None /\ forall y, found es k = Some y -> ExtractUserKey (fst y) <> ExtractUserKey k)).
Proof. apply built_table_get. Qed.

(** ** A table *)

(** A simple compression, for concrete runs: runs of zeros are counted. *)
Definition run_of (n : nat) : list Z := match n with O => [] | _ => [0; Z.of_nat n] end.
Fixpoint count_zeros (n : nat) (l : list Z) : list Z :=
  match l with
  | [] => run_of n
  | x :: l' =>
      if x =? 0 then if (n <? 255)%nat then count_zeros (S n) l' else run_of n ++ count_zeros 1 l'
      else run_of n ++ x :: count_zeros 0 l'
  end.
Fixpoint expand_zeros (l : list Z) : list Z :=
  match l with
  | x :: l' =>
      if x =? 0 then match l' with n :: l'' => replicate (Z.to_nat n) 0 ++ expand_zeros l'' | [] => [] end
      else x :: expand_zeros l'
  | [] => []
  end.

Lemma expand_run n l : expand_zeros (run_of n ++ l) = replicate n 0 ++ expand_zeros l.
Proof. destruct n; [done|]. cbn [run_of app expand_zeros Z.eqb]. by rewrite Nat2Z.id. Qed.
Lemma expand_count n l : expand_zeros (count_zeros n l) = replicate n 0 ++ l.
Proof.
  revert n. induction l as [|x l IH]; intros n; cbn [count_zeros].
  - rewrite <- (app_nil_r (run_of n)), expand_run. done.
  - destruct (Z.eqb_spec x 0) as [->|Hx].
    + destruct (n <? 255)%nat; [rewrite IH, replicate_S_end, <- app_assoc; done|]. by rewrite expand_run, IH.
    + rewrite expand_run. cbn [expand_zeros]. by rewrite (proj2 (Z.eqb_neq _ _) Hx), IH.
Qed.
Lemma count_zeros_bytes n l : (n <= 255)%nat -> bytes l -> bytes (count_zeros n l).
Proof.
  revert n. assert (forall n, (n <= 255)%nat -> bytes (run_of n)) as Hr.
  { intros [|n] Hn; [constructor|]. repeat constructor; unfold is8; lia. }
  induction l as [|x l IH]; intros n Hn Hl; cbn [count_zeros]; [by apply Hr|]. apply bytes_cons in Hl as [Hx Hl].
  destruct (_ =? _); [destruct (Nat.ltb_spec n 255); [apply IH; [lia|done]|]|]; apply bytes_app; split; auto.
  - apply IH; [lia|done].
  - apply bytes_cons. split; [done|]. apply IH; [lia|done].
Qed.

Definition zero_runs : Compression.
Proof.
  refine {| Snappy_Compress raw := Some (count_zeros 0 raw); Snappy_Uncompress c := Some (expand_zeros c) |}.
  - intros raw c _ _ _ [= <-]. by rewrite expand_count.
  - intros raw c Hb _ [= <-]. apply count_zeros_bytes; [lia|done].
Defined.

(** Versions of the keys "a" to "d", in blocks of two entries. *)
Definition letters : list (list Z * list Z) :=
  map (fun '(c, seq, t, v) => ([c] ++ EncodeFixed64 (PackSequenceAndType seq t), v))
    [(97, 5, 1, [1; 0; 0; 0; 0; 0]); (97, 2, 1, [2]); (98, 7, 0, []); (98, 3, 1, [3]); (100, 6, 1, [4])].

Lemma table_get_witness :
  let policy := InternalFilterPolicy (bloom_policy 10) in
  let file := @build_table policy zero_runs 2 30 kSnappyCompression (Some [98]) letters in
  exists t, @Table_Open zero_runs (Some [98]) file (Z.of_nat (length file)) = Some (inr t)
    /\ forall verify_checksums, exists r,
      @InternalGet policy zero_runs t verify_checksums ([98] ++ EncodeFixed64 (PackSequenceAndType 6 1)) = Some (r, OK)
      /\ (r = Some ([98] ++ EncodeFixed64 (PackSequenceAndType 3 1), [3])
          \/ (r = None /\ forall y, Some ([98] ++ EncodeFixed64 (PackSequenceAndType 3 1), [3]) = Some y ->
                ExtractUserKey (fst y) <> ExtractUserKey ([98] ++ EncodeFixed64 (PackSequenceAndType 6 1)))).
Proof.
  destruct (@table_get (InternalFilterPolicy (bloom_policy 10)) _ zero_runs 2 30 kSnappyCompression (Some [98]) letters)
    as (t & Ho & Hg).
  - lia.
  - split; [repeat constructor|cbn]; unfold is8; lia.
  - repeat constructor; vm_compute; congruence || lia.
  - repeat constructor.
  - reflexivity.
  - vm_compute. reflexivity.
  - exists t. split; [done|]. intros verify. apply (Hg verify ([98] ++ EncodeFixed64 (PackSequenceAndType 6 1))).
Defined.

(** The same search, computed; and in a damaged file. *)
Example letters_read :
  let policy := InternalFilterPolicy (bloom_policy 10) in
  let file := @build_table policy zero_runs 2 30 kSnappyCompression (Some [98]) letters in
  let get file k :=
    match @Table_Open zero_runs (Some [98]) file (Z.of_nat (length file)) with
    | Some (inr t) => @InternalGet policy zero_runs t true k
    | _ => None
    end in
  get file ([98] ++ EncodeFixed64 (PackSequenceAndType 6 1))
    = Some (Some ([98] ++ EncodeFixed64 (PackSequenceAndType 3 1), [3]), OK)
  /\ get file ([99] ++ EncodeFixed64 (PackSequenceAndType 6 1)) = Some (None, OK)
  /\ get (<[3%nat := 77]> file) ([97] ++ EncodeFixed64 (PackSequenceAndType 6 1)) = Some (None, Corruption "block checksum mismatch")
  /\ @Table_Open zero_runs (Some [98]) (take 47 file) 47 = Some (inl (InvalidArgument "file is too short to be an sstable"))
  /\ @Table_Open zero_runs (Some [98]) (take 90 file) 90 = Some (inl (InvalidArgument "not an sstable (bad magic number)")).
Proof. vm_compute. done. Qed.
