(* ===== verification/VersionEdit.v ===== *)
(** * Version edits: db/version_edit.h and db/version_edit.cc of
    src/packages/LevelDB.1.16.0.5/lib/native/src

    An edit says how a version differs from the one before: the files that were added and
    deleted, with the numbers the database goes on from.  The descriptor of a database is a
    log of encoded edits.

    A field [x_] with its flag [has_x_] is an option; a [std::set] is the list of its
    elements in order; keys are their encoded bytes. *)
From stdpp Require Import base numbers option list sorting strings.
From S2P Require Import Prelude Coding DbFormat WriteBatch.
Open Scope list_scope.
Open Scope Z_scope.
Open Scope word_scope.

Definition kNumLevels : nat := 7.

Record FileMetaData := {
  number : Z;
  file_size : Z;
  smallest : list Z;
  largest : list Z }.

Record VersionEdit := {
  comparator_ : option (list Z);
  log_number_ : option Z;
  prev_log_number_ : option Z;
  next_file_number_ : option Z;
  last_sequence_ : option Z;
  compact_pointers_ : list (nat * list Z);
  deleted_files_ : list (nat * Z);
  new_files_ : list (nat * FileMetaData) }.

(** [Clear] leaves the compaction pointers as they are. *)
Definition Clear (e : VersionEdit) : VersionEdit :=
  {| comparator_ := None; log_number_ := None; prev_log_number_ := None; next_file_number_ := None; last_sequence_ := None;
     compact_pointers_ := compact_pointers_ e; deleted_files_ := []; new_files_ := [] |}.
Definition new_VersionEdit : VersionEdit :=
  {| comparator_ := None; log_number_ := None; prev_log_number_ := None; next_file_number_ := None; last_sequence_ := None;
     compact_pointers_ := []; deleted_files_ := []; new_files_ := [] |}.

Definition SetComparatorName (name : list Z) (e : VersionEdit) : VersionEdit :=
  {| comparator_ := Some name; log_number_ := log_number_ e; prev_log_number_ := prev_log_number_ e;
     next_file_number_ := next_file_number_ e; last_sequence_ := last_sequence_ e;
     compact_pointers_ := compact_pointers_ e; deleted_files_ := deleted_files_ e; new_files_ := new_files_ e |}.
Definition SetLogNumber (num : Z) (e : VersionEdit) : VersionEdit :=
  {| comparator_ := comparator_ e; log_number_ := Some num; prev_log_number_ := prev_log_number_ e;
     next_file_number_ := next_file_number_ e; last_sequence_ := last_sequence_ e;
     compact_pointers_ := compact_pointers_ e; deleted_files_ := deleted_files_ e; new_files_ := new_files_ e |}.
Definition SetPrevLogNumber (num : Z) (e : VersionEdit) : VersionEdit :=
  {| comparator_ := comparator_ e; log_number_ := log_number_ e; prev_log_number_ := Some num;
     next_file_number_ := next_file_number_ e; last_sequence_ := last_sequence_ e;
     compact_pointers_ := compact_pointers_ e; deleted_files_ := deleted_files_ e; new_files_ := new_files_ e |}.
Definition SetNextFile (num : Z) (e : VersionEdit) : VersionEdit :=
  {| comparator_ := comparator_ e; log_number_ := log_number_ e; prev_log_number_ := prev_log_number_ e;
     next_file_number_ := Some num; last_sequence_ := last_sequence_ e;
     compact_pointers_ := compact_pointers_ e; deleted_files_ := deleted_files_ e; new_files_ := new_files_ e |}.
Definition SetLastSequence (seq : Z) (e : VersionEdit) : VersionEdit :=
  {| comparator_ := comparator_ e; log_number_ := log_number_ e; prev_log_number_ := prev_log_number_ e;
     next_file_number_ := next_file_number_ e; last_sequence_ := Some seq;
     compact_pointers_ := compact_pointers_ e; deleted_files_ := deleted_files_ e; new_files_ := new_files_ e |}.
Definition SetCompactPointer (level : nat) (key : list Z) (e : VersionEdit) : VersionEdit :=
  {| comparator_ := comparator_ e; log_number_ := log_number_ e; prev_log_number_ := prev_log_number_ e;
     next_file_number_ := next_file_number_ e; last_sequence_ := last_sequence_ e;
     compact_pointers_ := compact_pointers_ e ++ [(level, key)]; deleted_files_ := deleted_files_ e; new_files_ := new_files_ e |}.
Definition AddFile (level : nat) (f : FileMetaData) (e : VersionEdit) : VersionEdit :=
  {| comparator_ := comparator_ e; log_number_ := log_number_ e; prev_log_number_ := prev_log_number_ e;
     next_file_number_ := next_file_number_ e; last_sequence_ := last_sequence_ e;
     compact_pointers_ := compact_pointers_ e; deleted_files_ := deleted_files_ e; new_files_ := new_files_ e ++ [(level, f)] |}.

(** [deleted_files_.insert] in the order of pairs. *)
Definition deleted_lt (a b : nat * Z) : bool := (fst a <? fst b)%nat || ((fst a =? fst b)%nat && (snd a <? snd b)).
Fixpoint deleted_insert (x : nat * Z) (l : list (nat * Z)) : list (nat * Z) :=
  match l with
  | [] => [x]
  | y :: l' => if deleted_lt x y then x :: l else if deleted_lt y x then y :: deleted_insert x l' else l
  end.
Definition DeleteFile (level : nat) (file : Z) (e : VersionEdit) : VersionEdit :=
  {| comparator_ := comparator_ e; log_number_ := log_number_ e; prev_log_number_ := prev_log_number_ e;
     next_file_number_ := next_file_number_ e; last_sequence_ := last_sequence_ e;
     compact_pointers_ := compact_pointers_ e; deleted_files_ := deleted_insert (level, file) (deleted_files_ e); new_files_ := new_files_ e |}.

(** ** Encoding *)

Definition kComparator : Z := 1.
Definition kLogNumber : Z := 2.
Definition kNextFileNumber : Z := 3.
Definition kLastSequence : Z := 4.
Definition kCompactPointer : Z := 5.
Definition kDeletedFile : Z := 6.
Definition kNewFile : Z := 7.
Definition kPrevLogNumber : Z := 9.

(** [if (has_x_) { PutVarint32(dst, tag); PutVarint64(dst, x_); }] *)
Definition put_number (tag : Z) (x : option Z) (dst : list Z) : list Z :=
  match x with Some num => PutVarint64 (PutVarint32 dst tag) num | None => dst end.

Definition VersionEdit_EncodeTo (e : VersionEdit) (dst : list Z) : list Z :=
  let dst := match comparator_ e with
             | Some name => PutLengthPrefixedSlice (PutVarint32 dst kComparator) name
             | None => dst
             end in
  let dst := put_number kLogNumber (log_number_ e) dst in
  let dst := put_number kPrevLogNumber (prev_log_number_ e) dst in
  let dst := put_number kNextFileNumber (next_file_number_ e) dst in
  let dst := put_number kLastSequence (last_sequence_ e) dst in
  let dst := foldl (fun dst '(level, key) =>
    PutLengthPrefixedSlice (PutVarint32 (PutVarint32 dst kCompactPointer) (w32 (Z.of_nat level))) key) dst (compact_pointers_ e) in
  let dst := foldl (fun dst '(level, file) =>
    PutVarint64 (PutVarint32 (PutVarint32 dst kDeletedFile) (w32 (Z.of_nat level))) file) dst (deleted_files_ e) in
  foldl (fun dst '(level, f) =>
    let dst := PutVarint32 (PutVarint32 dst kNewFile) (w32 (Z.of_nat level)) in
    let dst := PutVarint64 (PutVarint64 dst (number f)) (file_size f) in
    PutLengthPrefixedSlice (PutLengthPrefixedSlice dst (smallest f)) (largest f)) dst (new_files_ e).

(** ** Decoding *)

Definition GetInternalKey (input : list Z) : option (list Z * list Z) := GetLengthPrefixedSlice input.
Definition GetLevel (input : list Z) : option (nat * list Z) :=
  '(v, input) ← GetVarint32 input;
  if v <? Z.of_nat kNumLevels then Some (Z.to_nat v, input) else None.

(** One turn of the [switch]: a message, or the edit and the input left. *)
Definition decode_field (tag : Z) (input : list Z) (e : VersionEdit) : string + VersionEdit * list Z :=
  let done msg r := match r with Some x => inr x | None => inl msg end in
  if tag =? kComparator then
    done "comparator name" ('(str, input) ← GetLengthPrefixedSlice input; Some (SetComparatorName str e, input))
  else if tag =? kLogNumber then
    done "log number" ('(num, input) ← GetVarint64 input; Some (SetLogNumber num e, input))
  else if tag =? kPrevLogNumber then
    done "previous log number" ('(num, input) ← GetVarint64 input; Some (SetPrevLogNumber num e, input))
  else if tag =? kNextFileNumber then
    done "next file number" ('(num, input) ← GetVarint64 input; Some (SetNextFile num e, input))
  else if tag =? kLastSequence then
    done "last sequence number" ('(num, input) ← GetVarint64 input; Some (SetLastSequence num e, input))
  else if tag =? kCompactPointer then
    done "compaction pointer"
      ('(level, input) ← GetLevel input; '(key, input) ← GetInternalKey input; Some (SetCompactPointer level key e, input))
  else if tag =? kDeletedFile then
    done "deleted file"
      ('(level, input) ← GetLevel input; '(num, input) ← GetVarint64 input; Some (DeleteFile level num e, input))
  else if tag =? kNewFile then
    done "new-file entry"
      ('(level, input) ← GetLevel input;
       '(num, input) ← GetVarint64 input;
       '(fsize, input) ← GetVarint64 input;
       '(small, input) ← GetInternalKey input;
       '(large, input) ← GetInternalKey input;
       Some (AddFile level {| number := num; file_size := fsize; smallest := small; largest := large |} e, input))
  else inl "unknown tag"%string.

Fixpoint DecodeFrom_loop (fuel : nat) (input : list Z) (e : VersionEdit) : option (Status * VersionEdit) :=
  match fuel with
  | O => None
  | S fuel' =>
      match GetVarint32 input with
      | None =>
          Some (match input with [] => OK | _ => Corruption ("VersionEdit: " +:+ "invalid tag") end, e)
      | Some (tag, input) =>
          match decode_field tag input e with
          | inl msg => Some (Corruption ("VersionEdit: " +:+ msg), e)
          | inr (e, input) => DecodeFrom_loop fuel' input e
          end
      end
  end.
Definition VersionEdit_DecodeFrom (src : list Z) (e : VersionEdit) : option (Status * VersionEdit) :=
  DecodeFrom_loop (S (length src)) src (Clear e).

(** ** Decoding ends *)

Lemma GetVarint_loop_shorter shl n shift result p v rest :
  GetVarint_loop shl n shift result p = Some (v, rest) -> (length rest < length p)%nat.
Proof.
  revert shift result p. induction n as [|n IH]; intros shift result p; [by destruct p|]. destruct p as [|b p]; [done|]. cbn [GetVarint_loop].
  destruct (negb _); [intros H%IH; cbn [length]; lia|]. intros [= _ <-]. cbn [length]. lia.
Qed.
Lemma GetVarint32_shorter p v rest : GetVarint32 p = Some (v, rest) -> (length rest < length p)%nat.
Proof.
  unfold GetVarint32, GetVarint32Ptr, GetVarint32PtrFallback. destruct p as [|b p]; [apply GetVarint_loop_shorter|].
  destruct (_ =? 0); [|apply GetVarint_loop_shorter]. intros [= _ <-]. cbn [length]. lia.
Qed.
Lemma GetVarint64_shorter p v rest : GetVarint64 p = Some (v, rest) -> (length rest <= length p)%nat.
Proof. intros H%GetVarint_loop_shorter. lia. Qed.
Lemma GetSlice_shorter p s rest : GetLengthPrefixedSlice p = Some (s, rest) -> (length rest <= length p)%nat.
Proof.
  unfold GetLengthPrefixedSlice. destruct (GetVarint32 p) as [[n q]|] eqn:E; [|done]. apply GetVarint32_shorter in E. cbn.
  destruct (_ <=? _); [|done]. intros [= _ <-]. rewrite length_drop. lia.
Qed.
Lemma GetLevel_shorter p l rest : GetLevel p = Some (l, rest) -> (length rest <= length p)%nat.
Proof.
  unfold GetLevel. destruct (GetVarint32 p) as [[n q]|] eqn:E; [|done]. apply GetVarint32_shorter in E. cbn.
  destruct (_ <? _); [|done]. intros [= _ <-]. lia.
Qed.

(** Reads one more item of a goal about what is left of the input. *)
Ltac shorter :=
  repeat match goal with
  | |- context [mbind _ (?get ?p)] =>
      let E := fresh in let q := fresh "q" in
      destruct (get p) as [[? q]|] eqn:E; cbn [mbind option_bind];
      [|by intros]; first [apply GetVarint64_shorter in E|apply GetSlice_shorter in E|apply GetLevel_shorter in E]
  end.
Lemma decode_field_shorter tag input e e' rest : decode_field tag input e = inr (e', rest) -> (length rest <= length input)%nat.
Proof.
  unfold decode_field, GetInternalKey. repeat (destruct (tag =? _); [shorter; intros [= _ <-]; lia|]). done.
Qed.

Lemma DecodeFrom_loop_total fuel input e : (length input < fuel)%nat -> exists s e', DecodeFrom_loop fuel input e = Some (s, e').
Proof.
  revert input e. induction fuel as [|fuel IH]; intros input e Hf; [lia|]. cbn [DecodeFrom_loop].
  destruct (GetVarint32 input) as [[tag rest]|] eqn:E; [|by eexists _, _]. apply GetVarint32_shorter in E.
  destruct (decode_field tag rest e) as [msg|[e' rest']] eqn:E'; [by eexists _, _|]. apply decode_field_shorter in E'. apply IH. lia.
Qed.

(** ** An edit as a list of fields *)

Inductive field :=
  | FComparator (name : list Z) | FLog (num : Z) | FPrevLog (num : Z) | FNextFile (num : Z) | FLastSequence (num : Z)
  | FPointer (level : nat) (key : list Z) | FDeleted (level : nat) (file : Z) | FNew (level : nat) (f : FileMetaData).

Definition field_tag (f : field) : Z :=
  match f with
  | FComparator _ => kComparator | FLog _ => kLogNumber | FPrevLog _ => kPrevLogNumber | FNextFile _ => kNextFileNumber
  | FLastSequence _ => kLastSequence | FPointer _ _ => kCompactPointer | FDeleted _ _ => kDeletedFile | FNew _ _ => kNewFile
  end.
Definition field_body (f : field) : list Z :=
  let level l := EncodeVarint32 (w32 (Z.of_nat l)) in
  match f with
  | FComparator name => PutLengthPrefixedSlice [] name
  | FLog n | FPrevLog n | FNextFile n | FLastSequence n => EncodeVarint64 n
  | FPointer l k => level l ++ PutLengthPrefixedSlice [] k
  | FDeleted l n => level l ++ EncodeVarint64 n
  | FNew l f => level l ++ EncodeVarint64 (number f) ++ EncodeVarint64 (file_size f)
                  ++ PutLengthPrefixedSlice [] (smallest f) ++ PutLengthPrefixedSlice [] (largest f)
  end.
Definition encode_field (f : field) : list Z := EncodeVarint32 (field_tag f) ++ field_body f.
Definition apply_field (e : VersionEdit) (f : field) : VersionEdit :=
  match f with
  | FComparator name => SetComparatorName name e
  | FLog n => SetLogNumber n e
  | FPrevLog n => SetPrevLogNumber n e
  | FNextFile n => SetNextFile n e
  | FLastSequence n => SetLastSequence n e
  | FPointer l k => SetCompactPointer l k e
  | FDeleted l n => DeleteFile l n e
  | FNew l f => AddFile l f e
  end.

(** What fits into the encoding. *)
Definition short (k : list Z) : Prop := bytes k /\ Z.of_nat (length k) < 0x1_0000_0000.
Definition file_ok (f : FileMetaData) : Prop := is64 (number f) /\ is64 (file_size f) /\ short (smallest f) /\ short (largest f).
Definition field_ok (f : field) : Prop :=
  match f with
  | FComparator name => short name
  | FLog n | FPrevLog n | FNextFile n | FLastSequence n => is64 n
  | FPointer l k => (l < kNumLevels)%nat /\ short k
  | FDeleted l n => (l < kNumLevels)%nat /\ is64 n
  | FNew l f => (l < kNumLevels)%nat /\ file_ok f
  end.

Definition opt_field {A} (c : A -> field) (x : option A) : list field := match x with Some a => [c a] | None => [] end.
Definition fields (e : VersionEdit) : list field :=
  opt_field FComparator (comparator_ e) ++ opt_field FLog (log_number_ e) ++ opt_field FPrevLog (prev_log_number_ e)
  ++ opt_field FNextFile (next_file_number_ e) ++ opt_field FLastSequence (last_sequence_ e)
  ++ map (fun '(l, k) => FPointer l k) (compact_pointers_ e) ++ map (fun '(l, n) => FDeleted l n) (deleted_files_ e)
  ++ map (fun '(l, f) => FNew l f) (new_files_ e).
Abbreviation encode_fields := (fun fs => concat (map encode_field fs)).

Lemma foldl_encode {A} (put : list Z -> A -> list Z) (c : A -> field) l dst :
  (forall dst x, put dst x = dst ++ encode_field (c x)) -> foldl put dst l = dst ++ encode_fields (map c l).
Proof.
  intros Hput. revert dst. induction l as [|x l IH]; intros dst; cbn [foldl map concat]; [by rewrite app_nil_r|]. by rewrite IH, Hput, <- app_assoc.
Qed.
Lemma put_number_field tag c x dst :
  (forall n, encode_field (c n) = EncodeVarint32 tag ++ EncodeVarint64 n) -> put_number tag x dst = dst ++ encode_fields (opt_field c x).
Proof.
  intros Hc. destruct x as [n|]; cbn; [|by rewrite app_nil_r]. unfold PutVarint64, PutVarint32. by rewrite Hc, app_nil_r, app_assoc.
Qed.

Lemma EncodeTo_fields e dst : VersionEdit_EncodeTo e dst = dst ++ encode_fields (fields e).
Proof.
  unfold VersionEdit_EncodeTo.
  rewrite (foldl_encode _ (fun '(l, f) => FNew l f)), (foldl_encode _ (fun '(l, n) => FDeleted l n)), (foldl_encode _ (fun '(l, k) => FPointer l k)).
  - rewrite (put_number_field _ FLastSequence), (put_number_field _ FNextFile), (put_number_field _ FPrevLog), (put_number_field _ FLog) by done.
    unfold fields. rewrite !map_app, !concat_app. rewrite !app_assoc. do 7 f_equal.
    destruct (comparator_ e) as [name|]; cbn; [|by rewrite app_nil_r]. rewrite PutLengthPrefixedSlice_app. unfold PutVarint32, encode_field.
    by rewrite app_nil_r, <- app_assoc.
  - intros d [l k]. rewrite PutLengthPrefixedSlice_app. unfold PutVarint32, encode_field. by rewrite <- !app_assoc.
  - intros d [l n]. unfold PutVarint64, PutVarint32, encode_field. by rewrite <- !app_assoc.
  - intros d [l f]. rewrite PutLengthPrefixedSlice_app, (PutLengthPrefixedSlice_app (PutVarint64 _ _)). unfold PutVarint64, PutVarint32, encode_field.
    by rewrite <- !app_assoc.
Qed.

Lemma GetLevel_Encode l s : (l < kNumLevels)%nat -> GetLevel (EncodeVarint32 (w32 (Z.of_nat l)) ++ s) = Some (l, s).
Proof.
  unfold kNumLevels. intros Hl. unfold GetLevel, GetVarint32. rewrite w32_small, GetVarint32_Encode by (unfold is32; lia). cbn [mbind option_bind].
  unfold kNumLevels. rewrite (proj2 (Z.ltb_lt _ _)) by lia. by rewrite Nat2Z.id.
Qed.

Lemma decode_field_Encode f s e : field_ok f -> decode_field (field_tag f) (field_body f ++ s) e = inr (apply_field e f, s).
Proof.
  unfold decode_field, GetInternalKey, GetVarint64. destruct f as [name|n|n|n|n|l k|l n|l f]; cbn [field_ok field_tag field_body apply_field Z.eqb Pos.eqb kComparator kLogNumber kPrevLogNumber kNextFileNumber kLastSequence kCompactPointer kDeletedFile kNewFile].
  - intros [_ Hn]. by rewrite GetLengthPrefixedSlice_Put.
  - intros Hn. by rewrite GetVarint64_Encode.
  - intros Hn. by rewrite GetVarint64_Encode.
  - intros Hn. by rewrite GetVarint64_Encode.
  - intros Hn. by rewrite GetVarint64_Encode.
  - intros (Hl & _ & Hk). rewrite <- app_assoc, GetLevel_Encode by done. cbn [mbind option_bind]. by rewrite GetLengthPrefixedSlice_Put.
  - intros [Hl Hk]. rewrite <- app_assoc, GetLevel_Encode by done. cbn [mbind option_bind]. by rewrite GetVarint64_Encode.
  - intros (Hl & Hn & Hz & [_ Hs] & [_ Hla]). rewrite <- !app_assoc, GetLevel_Encode by done. cbn [mbind option_bind].
    rewrite GetVarint64_Encode by done. cbn [mbind option_bind]. rewrite GetVarint64_Encode by done. cbn [mbind option_bind].
    rewrite GetLengthPrefixedSlice_Put by done. cbn [mbind option_bind]. rewrite GetLengthPrefixedSlice_Put by done. by destruct f.
Qed.

Lemma DecodeFrom_loop_fields fuel fs e :
  (length fs < fuel)%nat -> Forall field_ok fs -> DecodeFrom_loop fuel (encode_fields fs) e = Some (OK, foldl apply_field e fs).
Proof.
  revert fuel e. induction fs as [|f fs IH]; intros fuel e Hf Hok; (destruct fuel as [|fuel]; cbn [length] in Hf; [lia|]); [done|].
  apply Forall_cons in Hok as [Hok Hoks]. cbn [map concat foldl DecodeFrom_loop]. unfold encode_field, GetVarint32. rewrite <- app_assoc.
  rewrite GetVarint32_Encode by (destruct f; unfold is32; vm_compute; lia || (split; congruence)).
  rewrite decode_field_Encode by done. apply IH; [lia|done].
Qed.

Lemma field_nonempty f : (1 <= length (encode_field f))%nat.
Proof. unfold encode_field. rewrite length_app. destruct f; cbn; lia. Qed.
Lemma length_fields fs : (length fs <= length (encode_fields fs))%nat.
Proof.
  induction fs as [|f fs IH]; [done|]. cbn [map concat length]. rewrite length_app. pose proof (field_nonempty f). lia.
Qed.

Lemma bytes_field f : field_ok f -> bytes (encode_field f).
Proof.
  intros Hok. unfold encode_field. apply bytes_app. split; [apply bytes_EncodeVarint32; destruct f; split; vm_compute; congruence|].
  assert (forall l : nat, bytes (EncodeVarint32 (w32 (Z.of_nat l)))) as Hl by (intros l; apply bytes_EncodeVarint32, is32_w32).
  destruct f as [name|n|n|n|n|l k|l n|l f]; cbn [field_ok field_body] in *;
    rewrite ?bytes_app; split_and?; try done; try (by apply bytes_EncodeVarint64; apply Hok); apply bytes_slice; apply Hok.
Qed.
Lemma bytes_fields fs : Forall field_ok fs -> bytes (encode_fields fs).
Proof. induction 1 as [|f fs Hf Hfs IH]; [constructor|]. cbn [map concat]. apply bytes_app. split; [by apply bytes_field|done]. Qed.

(** *** The fields of an edit give the edit *)

Lemma deleted_lt_true a b : deleted_lt a b = true <-> (fst a < fst b)%nat \/ (fst a = fst b /\ snd a < snd b).
Proof. unfold deleted_lt. by rewrite orb_true_iff, andb_true_iff, Nat.ltb_lt, Nat.eqb_eq, Z.ltb_lt. Qed.

Lemma deleted_insert_last x l : Forall (fun y => deleted_lt y x = true) l -> deleted_insert x l = l ++ [x].
Proof.
  induction 1 as [|y l Hy Hl IH]; [done|]. cbn [deleted_insert app]. rewrite Hy, IH.
  destruct (deleted_lt x y) eqn:E; [|done]. apply deleted_lt_true in E, Hy. lia.
Qed.

Definition deleted_sorted (l : list (nat * Z)) : Prop := StronglySorted (fun a b => deleted_lt a b = true) l.

Lemma foldl_pointers l e : foldl apply_field e (map (fun '(l, k) => FPointer l k) l)
  = {| comparator_ := comparator_ e; log_number_ := log_number_ e; prev_log_number_ := prev_log_number_ e;
       next_file_number_ := next_file_number_ e; last_sequence_ := last_sequence_ e;
       compact_pointers_ := compact_pointers_ e ++ l; deleted_files_ := deleted_files_ e; new_files_ := new_files_ e |}.
Proof.
  revert e. induction l as [|[n k] l IH]; intros e; cbn [map foldl]; [rewrite app_nil_r; by destruct e|]. rewrite IH. cbn. by rewrite <- app_assoc.
Qed.
Lemma foldl_deleted l e : deleted_sorted (deleted_files_ e ++ l) -> foldl apply_field e (map (fun '(l, n) => FDeleted l n) l)
  = {| comparator_ := comparator_ e; log_number_ := log_number_ e; prev_log_number_ := prev_log_number_ e;
       next_file_number_ := next_file_number_ e; last_sequence_ := last_sequence_ e;
       compact_pointers_ := compact_pointers_ e; deleted_files_ := deleted_files_ e ++ l; new_files_ := new_files_ e |}.
Proof.
  revert e. induction l as [|[n k] l IH]; intros e Hs; cbn [map foldl]; [rewrite app_nil_r; by destruct e|].
  assert (deleted_insert (n, k) (deleted_files_ e) = deleted_files_ e ++ [(n, k)]) as E.
  { apply deleted_insert_last, Forall_forall. intros y Hy. apply StronglySorted_app in Hs as (Hx & _). apply Hx; [done|left]. }
  rewrite IH; cbn [apply_field DeleteFile deleted_files_ comparator_ log_number_ prev_log_number_ next_file_number_ last_sequence_ compact_pointers_ new_files_];
    rewrite E, <- app_assoc; done.
Qed.
Lemma foldl_new l e : foldl apply_field e (map (fun '(l, f) => FNew l f) l)
  = {| comparator_ := comparator_ e; log_number_ := log_number_ e; prev_log_number_ := prev_log_number_ e;
       next_file_number_ := next_file_number_ e; last_sequence_ := last_sequence_ e;
       compact_pointers_ := compact_pointers_ e; deleted_files_ := deleted_files_ e; new_files_ := new_files_ e ++ l |}.
Proof.
  revert e. induction l as [|[n k] l IH]; intros e; cbn [map foldl]; [rewrite app_nil_r; by destruct e|]. rewrite IH. cbn. by rewrite <- app_assoc.
Qed.

(** The edit with the pointers of another one before its own. *)
Definition with_pointers (l : list (nat * list Z)) (e : VersionEdit) : VersionEdit :=
  {| comparator_ := comparator_ e; log_number_ := log_number_ e; prev_log_number_ := prev_log_number_ e;
     next_file_number_ := next_file_number_ e; last_sequence_ := last_sequence_ e;
     compact_pointers_ := l ++ compact_pointers_ e; deleted_files_ := deleted_files_ e; new_files_ := new_files_ e |}.

Lemma foldl_fields e e0 : deleted_sorted (deleted_files_ e) ->
  foldl apply_field (Clear e0) (fields e) = with_pointers (compact_pointers_ e0) e.
Proof.
  intros Hs. unfold fields. rewrite !foldl_app, foldl_new, foldl_deleted, foldl_pointers.
  - destruct e as [[] [] [] [] [] p d n]; done.
  - rewrite foldl_pointers. destruct e as [[] [] [] [] [] p d n]; done.
Qed.

Definition edit_ok (e : VersionEdit) : Prop := Forall field_ok (fields e) /\ deleted_sorted (deleted_files_ e).

Lemma decode_encode e e0 : edit_ok e ->
  VersionEdit_DecodeFrom (VersionEdit_EncodeTo e []) e0 = Some (OK, with_pointers (compact_pointers_ e0) e).
Proof.
  intros [Hok Hs]. unfold VersionEdit_DecodeFrom. rewrite EncodeTo_fields, app_nil_l, DecodeFrom_loop_fields, foldl_fields; [done|done| |done].
  pose proof (length_fields (fields e)). lia.
Qed.

(** [DeleteFile] keeps the set in order. *)
Lemma deleted_insert_elem x y l : y ∈ deleted_insert x l <-> y = x \/ y ∈ l.
Proof.
  induction l as [|z l IH]; cbn [deleted_insert]; [by rewrite list_elem_of_singleton, elem_of_nil; naive_solver|].
  destruct (deleted_lt x z) eqn:E1; [by rewrite elem_of_cons|]. destruct (deleted_lt z x) eqn:E2.
  { rewrite !elem_of_cons, IH. naive_solver. }
  assert (x = z) as ->; [|rewrite elem_of_cons; naive_solver].
  apply not_true_iff_false in E1, E2. rewrite deleted_lt_true in E1, E2. destruct x, z; cbn in *. f_equal; lia.
Qed.
Lemma deleted_insert_sorted x l : deleted_sorted l -> deleted_sorted (deleted_insert x l).
Proof.
  induction 1 as [|z l Hl IH Hz]; cbn [deleted_insert]; [by repeat constructor|].
  destruct (deleted_lt x z) eqn:E1.
  - constructor; [by constructor|]. constructor; [done|]. rewrite Forall_forall in *. intros y Hy. specialize (Hz y Hy).
    rewrite deleted_lt_true in *. lia.
  - destruct (deleted_lt z x) eqn:E2; [|by constructor]. constructor; [done|]. rewrite Forall_forall in *.
    intros y [->|Hy]%deleted_insert_elem; [done|by apply Hz].
Qed.

(** C37: Edits of the file list survive the descriptor.  Decoding ends on every input.  When the
    values of an edit fit their encoding, decoding what it was encoded to succeeds and gives
    the same edit: comparator, numbers, deleted files, and new files with their level, number,
    size and keys.  The object that is decoded into is cleared first except for its compaction
    pointers, which stay in front of those that were read. *)
Theorem version_edit_roundtrip (e e0 : VersionEdit) :
  edit_ok e ->
  (forall src, exists s e', VersionEdit_DecodeFrom src e0 = Some (s, e'))
  /\ VersionEdit_DecodeFrom (VersionEdit_EncodeTo e []) e0 = Some (OK, with_pointers (compact_pointers_ e0) e)
  /\ VersionEdit_DecodeFrom (VersionEdit_EncodeTo e []) new_VersionEdit = Some (OK, e).
Proof.
  intros He. split_and!; [|by apply decode_encode|].
  - intros src. apply DecodeFrom_loop_total. lia.
  - rewrite decode_encode by done. by destruct e.
Qed.

Definition some_edit : VersionEdit :=
  AddFile 2 {| number := 300; file_size := 70000; smallest := [97; 1; 5; 0; 0; 0; 0; 0; 0]; largest := [98; 1; 9; 0; 0; 0; 0; 0; 0] |}
    (DeleteFile 1 200 (DeleteFile 0 7 (DeleteFile 1 8
      (SetCompactPointer 1 [97; 1; 3; 0; 0; 0; 0; 0; 0] (SetLastSequence 1000 (SetLogNumber 12 (SetComparatorName [108; 101] new_VersionEdit))))))).

Lemma version_edit_roundtrip_witness :
  VersionEdit_DecodeFrom (VersionEdit_EncodeTo some_edit []) new_VersionEdit = Some (OK, some_edit).
Proof.
  apply (version_edit_roundtrip some_edit new_VersionEdit). split.
  - repeat constructor; vm_compute; lia || congruence || done.
  - repeat constructor.
Defined.

(** An edit, encoded; and inputs that are refused. *)
Example some_edit_bytes :
  take 12 (VersionEdit_EncodeTo some_edit []) = [1; 2; 108; 101; 2; 12; 4; 232; 7; 5; 1; 9]
  /\ deleted_files_ some_edit = [(0%nat, 7); (1%nat, 8); (1%nat, 200)]
  /\ fst <$> VersionEdit_DecodeFrom [6; 7; 1] new_VersionEdit = Some (Corruption "VersionEdit: deleted file")
  /\ fst <$> VersionEdit_DecodeFrom [8; 1] new_VersionEdit = Some (Corruption "VersionEdit: unknown tag")
  /\ fst <$> VersionEdit_DecodeFrom [2; 5; 128] new_VersionEdit = Some (Corruption "VersionEdit: invalid tag").
Proof. vm_compute. done. Qed.
