(* ===== verification/VersionSet.v ===== *)
(** * Versions of LevelDB: the files of each level, in db/version_set.cc, db/builder.cc,
    db/table_cache.cc and db/db_impl.cc of src/packages/LevelDB.1.16.0.5/lib/native/src

    A version has seven levels of table files.  Those of level 0 come from tables in memory
    and may overlap; those of a deeper level are in order and do not.  A read asks the
    files that can hold its key, the newest first.  A table in memory becomes a file of
    level 0, or of level 1 or 2 when nothing there overlaps it.

    A version is the list of its levels; the files are a map from their numbers to their
    contents.  The cache of open tables, which returns a table that was opened before, and
    reference counts are left out. *)
From stdpp Require Import base numbers option sets gmap list sorting strings.
From S2P Require Import Prelude Coding SkipList DbFormat MemTable WriteBatch Bloom FilterBlock TableBlock TableFile VersionEdit.
Open Scope list_scope.
Open Scope Z_scope.
Open Scope word_scope.

Definition kMaxMemCompactLevel : nat := 2.
Definition kTargetFileSize : Z := 2 * 1048576.
Definition kMaxGrandParentOverlapBytes : Z := 10 * kTargetFileSize.

Definition TotalFileSize (files : list FileMetaData) : Z := foldl (fun sum f => sum + file_size f) 0 files.

(** ** Finding a file *)

Fixpoint FindFile_loop (fuel : nat) (files : list FileMetaData) (key : list Z) (lo hi : Z) : option Z :=
  match fuel with
  | O => None
  | S fuel' =>
      if lo <? hi then
        let mid := (lo + hi) / 2 in
        f ← files !! Z.to_nat mid;
        if InternalKey_Compare (largest f) key <? 0
        then FindFile_loop fuel' files key (mid + 1) hi
        else FindFile_loop fuel' files key lo mid
      else Some hi
  end.
Definition FindFile (files : list FileMetaData) (key : list Z) : option Z :=
  FindFile_loop (S (length files)) files key 0 (Z.of_nat (length files)).

Definition AfterFile (user_key : option (list Z)) (f : FileMetaData) : bool :=
  match user_key with
  | Some k => 0 <? Bytewise_Compare k (ExtractUserKey (largest f))
  | None => false
  end.
Definition BeforeFile (user_key : option (list Z)) (f : FileMetaData) : bool :=
  match user_key with
  | Some k => Bytewise_Compare k (ExtractUserKey (smallest f)) <? 0
  | None => false
  end.

Definition SomeFileOverlapsRange (disjoint_sorted_files : bool) (files : list FileMetaData)
    (smallest_user_key largest_user_key : option (list Z)) : option bool :=
  if negb disjoint_sorted_files
  then Some (existsb (fun f => negb (AfterFile smallest_user_key f || BeforeFile largest_user_key f)) files)
  else
    index ← match smallest_user_key with
            | Some k => FindFile files (k ++ EncodeFixed64 (PackSequenceAndType kMaxSequenceNumber kValueTypeForSeek))
            | None => Some 0
            end;
    if Z.of_nat (length files) <=? index then Some false
    else f ← files !! Z.to_nat index; Some (negb (BeforeFile largest_user_key f)).

(** [GetOverlappingInputs(level, begin, end)] with both ends given: [i] runs over the files,
    and starts again when a file of level 0 has made the range larger. *)
Fixpoint GetOverlappingInputs_loop (fuel : nat) (level : nat) (files : list FileMetaData) (i : nat)
    (user_begin user_end : list Z) (inputs : list FileMetaData) : option (list FileMetaData) :=
  match fuel with
  | O => None
  | S fuel' =>
      match files !! i with
      | None => Some inputs
      | Some f =>
          let file_start := ExtractUserKey (smallest f) in
          let file_limit := ExtractUserKey (largest f) in
          if Bytewise_Compare file_limit user_begin <? 0
          then GetOverlappingInputs_loop fuel' level files (S i) user_begin user_end inputs
          else if 0 <? Bytewise_Compare file_start user_end
          then GetOverlappingInputs_loop fuel' level files (S i) user_begin user_end inputs
          else if (level =? 0)%nat && (Bytewise_Compare file_start user_begin <? 0)
          then GetOverlappingInputs_loop fuel' level files 0 file_start user_end []
          else if (level =? 0)%nat && (0 <? Bytewise_Compare file_limit user_end)
          then GetOverlappingInputs_loop fuel' level files 0 user_begin file_limit []
          else GetOverlappingInputs_loop fuel' level files (S i) user_begin user_end (inputs ++ [f])
      end
  end.
Definition GetOverlappingInputs (level : nat) (files : list FileMetaData) (begin end_ : list Z) : option (list FileMetaData) :=
  let n := length files in
  GetOverlappingInputs_loop (S ((2 * n + 1) * S n)) level files 0 (ExtractUserKey begin) (ExtractUserKey end_) [].

Abbreviation Version := (list (list FileMetaData)).
Definition files_ (v : Version) (level : nat) : list FileMetaData := default [] (v !! level).

Definition OverlapInLevel (v : Version) (level : nat) (smallest_user_key largest_user_key : list Z) : option bool :=
  SomeFileOverlapsRange (0 <? level)%nat (files_ v level) (Some smallest_user_key) (Some largest_user_key).

(** [while (level < config::kMaxMemCompactLevel)]; [todo] turns are left. *)
Fixpoint PickLevel_loop (todo : nat) (v : Version) (smallest_user_key largest_user_key : list Z) (level : nat) : option nat :=
  match todo with
  | O => Some level
  | S todo' =>
      overlap ← OverlapInLevel v (level + 1) smallest_user_key largest_user_key;
      if overlap : bool then Some level
      else if (level + 2 <? kNumLevels)%nat then
        let start := smallest_user_key ++ EncodeFixed64 (PackSequenceAndType kMaxSequenceNumber kValueTypeForSeek) in
        let limit := largest_user_key ++ EncodeFixed64 (PackSequenceAndType 0 0) in
        overlaps ← GetOverlappingInputs (level + 2) (files_ v (level + 2)) start limit;
        if kMaxGrandParentOverlapBytes <? TotalFileSize overlaps then Some level
        else PickLevel_loop todo' v smallest_user_key largest_user_key (level + 1)
      else PickLevel_loop todo' v smallest_user_key largest_user_key (level + 1)
  end.
Definition PickLevelForMemTableOutput (v : Version) (smallest_user_key largest_user_key : list Z) : option nat :=
  overlap ← OverlapInLevel v 0 smallest_user_key largest_user_key;
  if overlap : bool then Some 0%nat else PickLevel_loop kMaxMemCompactLevel v smallest_user_key largest_user_key 0.

(** ** Reading *)

Section get.
Context `{FilterPolicy} `{Compression} (policy_name : option (list Z)) (disk : gmap Z (list Z)).

(** [TableCache::Get]: what [saver] is called with, and the status. *)
Definition TableCache_Get (verify_checksums : bool) (f : FileMetaData) (k : list Z)
    : option (option (list Z * list Z) * Status) :=
  match disk !! number f with
  | None => Some (None, IOError "file not found")
  | Some file =>
      opened ← Table_Open policy_name file (file_size f);
      match opened with
      | inl s => Some (None, s)
      | inr t => InternalGet t verify_checksums k
      end
  end.

Inductive SaverState := kNotFound | kFound (value : list Z) | kDeleted | kCorrupt.
Definition SaveValue (user_key ikey v : list Z) : SaverState :=
  match ParseInternalKey ikey with
  | None => kCorrupt
  | Some parsed_key =>
      if Bytewise_Compare (pk_user_key parsed_key) user_key =? 0
      then if pk_type parsed_key =? kTypeValue then kFound v else kDeleted
      else kNotFound
  end.

Definition NewestFirst (a b : FileMetaData) : Prop := number b <= number a.
#[global] Instance NewestFirst_dec a b : Decision (NewestFirst a b).
Proof. unfold NewestFirst. apply _. Defined.

#[global] Instance NewestFirst_trans : Transitive NewestFirst.
Proof. intros a b c. unfold NewestFirst. lia. Qed.
#[global] Instance NewestFirst_total : Total NewestFirst.
Proof. intros a b. unfold NewestFirst. lia. Qed.

(** The files of a level to search. *)
Definition level_files (level : nat) (files : list FileMetaData) (user_key ikey : list Z) : option (list FileMetaData) :=
  match level with
  | O =>
      Some (merge_sort NewestFirst
        (filter (fun f => 0 <= Bytewise_Compare user_key (ExtractUserKey (smallest f))
                          /\ Bytewise_Compare user_key (ExtractUserKey (largest f)) <= 0) files))
  | _ =>
      index ← FindFile files ikey;
      if Z.of_nat (length files) <=? index then Some []
      else
        tmp2 ← files !! Z.to_nat index;
        if Bytewise_Compare user_key (ExtractUserKey (smallest tmp2)) <? 0 then Some [] else Some [tmp2]
  end.

(** [GetStats::seek_file] with its level, and the last file that was read. *)
Record GetStats := { seek_file : option (FileMetaData * nat); last_file_read : option (FileMetaData * nat) }.

(** What the search of some files comes to: the end of it, or the files that follow. *)
Inductive search_result :=
  | Stop (s : Status) (value : option (list Z)) (stats : GetStats)
  | KeepSearching (stats : GetStats).

Fixpoint search_files (verify_checksums : bool) (level : nat) (files : list FileMetaData) (user_key ikey : list Z)
    (stats : GetStats) : option search_result :=
  match files with
  | [] => Some (KeepSearching stats)
  | f :: rest =>
      let seek :=
        match last_file_read stats, seek_file stats with
        | Some l, None => Some l
        | _, s => s
        end in
      let stats := {| seek_file := seek; last_file_read := Some (f, level) |} in
      '(saved, s) ← TableCache_Get verify_checksums f ikey;
      match s with
      | OK =>
          match from_option (fun e => SaveValue user_key (fst e) (snd e)) kNotFound saved with
          | kNotFound => search_files verify_checksums level rest user_key ikey stats
          | kFound value => Some (Stop OK (Some value) stats)
          | kDeleted => Some (Stop NotFound None stats)
          | kCorrupt => Some (Stop (Corruption "corrupted key for ") None stats)
          end
      | _ => Some (Stop s None stats)
      end
  end.

Fixpoint search_levels (verify_checksums : bool) (level : nat) (levels : Version) (user_key ikey : list Z) (stats : GetStats)
    : option (Status * option (list Z) * GetStats) :=
  match levels with
  | [] => Some (NotFound, None, stats)
  | files :: rest =>
      tmp ← level_files level files user_key ikey;
      r ← search_files verify_checksums level tmp user_key ikey stats;
      match r with
      | Stop s value stats => Some (s, value, stats)
      | KeepSearching stats => search_levels verify_checksums (S level) rest user_key ikey stats
      end
  end.

Definition Version_Get (verify_checksums : bool) (v : Version) (user_key : list Z) (s : Z)
    : option (Status * option (list Z) * GetStats) :=
  search_levels verify_checksums 0 v user_key (lookup_internal_key user_key s) {| seek_file := None; last_file_read := None |}.
End get.

(** ** The newest operation *)

Abbreviation op := MemTable.op.
Definition newer_than (ops ops' : list op) : Prop :=
  forall o o', o ∈ ops -> o' ∈ ops' -> MemTable.op_key o = MemTable.op_key o' -> MemTable.op_seq o' < MemTable.op_seq o.
Definition visible (k : list Z) (s : Z) (o : op) : Prop := MemTable.op_key o = k /\ MemTable.op_seq o <= s.

(** [r] is the newest of some operations on [k] at the sequence number [s]. *)
Definition is_newest (k : list Z) (s : Z) (ops : list op) (r : option op) : Prop :=
  match r with
  | None => forall o, o ∈ ops -> ~ visible k s o
  | Some o => o ∈ ops /\ visible k s o /\ forall o', o' ∈ ops -> visible k s o' -> MemTable.op_seq o' <= MemTable.op_seq o
  end.

Lemma is_newest_app k s ops ops' r r' :
  is_newest k s ops r -> (r = None -> is_newest k s ops' r') -> newer_than ops ops' ->
  is_newest k s (ops ++ ops') (match r with Some o => Some o | None => r' end).
Proof.
  intros Hr Hr' Hnew. destruct r as [o|].
  - destruct Hr as (Ho & Hv & Hmax). split_and!; [apply elem_of_app; by left|done|]. intros o' [Ho'|Ho']%elem_of_app Hv'; [by apply Hmax|].
    apply Z.lt_le_incl, Hnew; [done..|]. destruct Hv, Hv'. congruence.
  - specialize (Hr' eq_refl). destruct r' as [o|].
    + destruct Hr' as (Ho & Hv & Hmax). split_and!; [apply elem_of_app; by right|done|].
      intros o' [Ho'|Ho']%elem_of_app Hv'; [by destruct (Hr o' Ho')|by apply Hmax].
    + intros o [Ho|Ho]%elem_of_app; [by apply Hr|by apply Hr'].
Qed.

(** Operations that are not visible, or older than a visible one, do not matter. *)
Lemma is_newest_select k s ops ops' r :
  (forall o, o ∈ ops' -> o ∈ ops) ->
  (forall o, o ∈ ops -> visible k s o -> exists o', o' ∈ ops' /\ visible k s o' /\ MemTable.op_seq o <= MemTable.op_seq o') ->
  is_newest k s ops' r -> is_newest k s ops r.
Proof.
  intros Hsub Hsel. destruct r as [o|].
  - intros (Ho & Hv & Hmax). split_and!; [by apply Hsub|done|]. intros o' Ho' Hv'.
    destruct (Hsel o' Ho' Hv') as (o2 & Ho2 & Hv2 & Hle). specialize (Hmax o2 Ho2 Hv2). lia.
  - intros Hno o Ho Hv. destruct (Hsel o Ho Hv) as (o2 & Ho2 & Hv2 & _). by apply (Hno o2).
Qed.

Lemma is_newest_newest k s ops all r :
  StronglySorted (fun o o' => MemTable.op_seq o < MemTable.op_seq o') all -> (forall o, o ∈ all <-> o ∈ ops) ->
  is_newest k s ops r -> MemTable.newest k s all = r.
Proof.
  intros Hs He. destruct r as [o|].
  - intros (Ho & (Hk & Hle) & Hmax). apply MemTable.newest_spec; [done|by apply He|done|done|].
    intros o' Ho' Hk' Hs'. apply Hmax; [by apply He|done].
  - intros Hno. apply MemTable.newest_none. intros o Ho Hk. apply He in Ho.
    destruct (Z.lt_ge_cases s (MemTable.op_seq o)); [done|]. by destruct (Hno o Ho).
Qed.

(** ** One file *)

Definition ikey_lt (o o' : op) : Prop := InternalKey_Compare (MemTable.op_ikey o) (MemTable.op_ikey o') < 0.
Definition op_kv (o : op) : list Z * list Z := (MemTable.op_ikey o, MemTable.op_value o).

Lemma ikey_entry o o' : MemTable.op_ok o -> MemTable.op_ok o' ->
  InternalKey_Compare (MemTable.op_ikey o) (MemTable.op_ikey o') = MemTable.KeyComparator (MemTable.op_entry o) (MemTable.op_entry o').
Proof. intros Ho Ho'. unfold MemTable.KeyComparator. by rewrite !MemTable.op_entry_key. Qed.

Lemma lookup_key_op k s : lookup_internal_key k s = MemTable.op_ikey (MemTable.seek_op k s).
Proof. done. Qed.
Lemma seek_op_ok k s : is_seq s -> Z.of_nat (length k) + 8 < 0x1_0000_0000 -> MemTable.op_ok (MemTable.seek_op k s).
Proof. intros Hs Hk. split_and!; [done|by right|done|done]. Qed.

Lemma SaveValue_op k o : MemTable.op_ok o ->
  SaveValue k (MemTable.op_ikey o) (MemTable.op_value o)
    = if bool_decide (MemTable.op_key o = k)
      then if MemTable.op_type o =? kTypeValue then kFound (MemTable.op_value o) else kDeleted
      else kNotFound.
Proof.
  intros Ho. pose proof Ho as (Hs & Ht & _). unfold SaveValue, ParseInternalKey.
  rewrite (proj2 (Nat.ltb_ge _ _)) by (rewrite MemTable.length_op_ikey; lia).
  destruct (MemTable.op_ikey_parts o Ho) as [Ek Et]. rewrite Et, Ek, pack_type by done.
  rewrite (proj2 (Z.leb_le _ _)) by (unfold is_type, kTypeDeletion, kTypeValue in *; lia). cbn [pk_user_key pk_type].
  unfold Bytewise_Compare. rewrite Slice_compare_lex. case_bool_decide as E.
  - by rewrite E, lex_refl.
  - rewrite (proj2 (Z.eqb_neq _ _)); [done|]. intros E'. by apply lex_eq in E'.
Qed.

Lemma not_before_visible o k s : MemTable.op_ok o -> MemTable.op_ok (MemTable.seek_op k s) ->
  0 <= InternalKey_Compare (MemTable.op_ikey o) (MemTable.op_ikey (MemTable.seek_op k s)) -> MemTable.op_key o = k -> visible k s o.
Proof.
  intros Ho Hseek Hge Ek. split; [done|]. destruct (Z.le_gt_cases (MemTable.op_seq o) s) as [|Hgt]; [done|]. exfalso.
  enough (InternalKey_Compare (MemTable.op_ikey o) (MemTable.op_ikey (MemTable.seek_op k s)) < 0) by lia.
  rewrite ikey_entry by auto. apply MemTable.KeyComparator_lt; [auto..|]. right. split; [done|].
  apply MemTable.pack_lt; [apply Hseek..|apply Ho|apply Ho|]. left. cbn. lia.
Qed.

Section file.
Context `{FilterPolicy} `{Compression} (policy_name : option (list Z)) (disk : gmap Z (list Z)).

Record file_holds (f : FileMetaData) (ops : list op) : Prop := {
  fh_ok : Forall MemTable.op_ok ops;
  fh_sorted : StronglySorted ikey_lt ops;
  fh_smallest : exists o, head ops = Some o /\ smallest f = MemTable.op_ikey o;
  fh_largest : exists o, last ops = Some o /\ largest f = MemTable.op_ikey o;
  fh_get verify_checksums k : exists r, TableCache_Get policy_name disk verify_checksums f k = Some (r, OK)
    /\ (r = found (map op_kv ops) k
        \/ (r = None /\ forall y, found (map op_kv ops) k = Some y -> ExtractUserKey (fst y) <> ExtractUserKey k)) }.

Definition saver_of (r : option op) : SaverState :=
  match r with
  | None => kNotFound
  | Some o => if MemTable.op_type o =? kTypeValue then kFound (MemTable.op_value o) else kDeleted
  end.

(** The first entry at or behind the key of the search, among operations in order. *)
Lemma found_newest ops k s :
  Forall MemTable.op_ok ops -> StronglySorted ikey_lt ops -> is_seq s -> Z.of_nat (length k) + 8 < 0x1_0000_0000 ->
  match found (map op_kv ops) (lookup_internal_key k s) with
  | None => is_newest k s ops None
  | Some e => exists o, e = op_kv o /\ MemTable.op_ok o /\ is_newest k s ops (if bool_decide (MemTable.op_key o = k) then Some o else None)
  end.
Proof.
  intros Hok Hsort Hs Hk. pose proof (seek_op_ok k s Hs Hk) as Hseek. rewrite lookup_key_op. rewrite Forall_forall in Hok.
  assert (forall o, o ∈ ops -> visible k s o -> 0 <= InternalKey_Compare (MemTable.op_ikey o) (MemTable.op_ikey (MemTable.seek_op k s))) as Hvis.
  { intros o Ho [Hkey Hle]. destruct (Z.le_gt_cases 0 (InternalKey_Compare (MemTable.op_ikey o) (MemTable.op_ikey (MemTable.seek_op k s)))) as [|Hlt]; [done|].
    rewrite ikey_entry in Hlt by auto. pose proof (MemTable.not_before_seek o k s (Hok o Ho) Hseek Hlt Hkey). lia. }
  unfold found. destruct (list_find _ (map op_kv ops)) as [[i e]|] eqn:E; cbn.
  - apply list_find_Some in E as (Hi & Hge & Hbefore). change (map op_kv ops) with (op_kv <$> ops) in *.
    rewrite list_lookup_fmap in Hi. destruct (ops !! i) as [o|] eqn:Ho; [|done]. cbn in Hi. injection Hi as <-.
    assert (o ∈ ops) as Hin by (by eapply list_elem_of_lookup_2). exists o. split; [done|]. split; [by apply Hok|]. unfold op_kv in Hge. cbn [fst] in Hge.
    assert (forall o', o' ∈ ops -> visible k s o' -> MemTable.op_key o = k /\ MemTable.op_seq o' <= MemTable.op_seq o) as Hfirst.
    { intros o' Ho' Hv'. pose proof (Hvis o' Ho' Hv') as Hge'. pose proof Ho' as [j Hj]%list_elem_of_lookup.
      destruct (decide (j < i)%nat) as [Hji|Hji].
      { exfalso. apply (Hbefore j (op_kv o')); [by rewrite list_lookup_fmap, Hj|done|done]. }
      apply (MemTable.first_is_newest o o' k s); auto; [rewrite <- ikey_entry by auto; lia|apply Hv'|].
      destruct (decide (j = i)) as [->|]; [left; congruence|]. right. rewrite <- ikey_entry by auto.
      apply (sorted_lookup ikey_lt ops i j); [done|lia|done..]. }
    case_bool_decide as Ek.
    + split_and!; [done|by apply not_before_visible; auto|intros o' Ho' Hv'; by apply Hfirst].
    + intros o' Ho' Hv'. by apply Ek, (Hfirst o').
  - apply list_find_None in E. intros o Ho Hv. rewrite Forall_forall in E. apply (E (op_kv o)); [by apply list_elem_of_fmap_2|].
    by apply Hvis.
Qed.

Lemma file_get verify f ops k s :
  file_holds f ops -> is_seq s -> Z.of_nat (length k) + 8 < 0x1_0000_0000 ->
  exists saved r, TableCache_Get policy_name disk verify f (lookup_internal_key k s) = Some (saved, OK)
    /\ from_option (fun e => SaveValue k (fst e) (snd e)) kNotFound saved = saver_of r /\ is_newest k s ops r.
Proof.
  intros [] Hs Hk. pose proof (found_newest ops k s fh_ok0 fh_sorted0 Hs Hk) as Hf.
  assert (ExtractUserKey (lookup_internal_key k s) = k) as Eu by apply ExtractUserKey_Encode.
  destruct (fh_get0 verify (lookup_internal_key k s)) as (r & Hget & Hr). destruct (found _ _) as [e|].
  - destruct Hf as (o & -> & Ho & Hn). destruct Hr as [->|[-> Hdiff]].
    + eexists _, _. split; [exact Hget|]. split; [|exact Hn]. cbn [from_option]. unfold op_kv. cbn [fst snd]. rewrite SaveValue_op by done.
      by case_bool_decide.
    + exists None, None. split; [done|]. split; [done|]. specialize (Hdiff _ eq_refl). cbn [op_kv fst] in Hdiff.
      rewrite Eu, (proj1 (MemTable.op_ikey_parts o Ho)) in Hdiff. by rewrite bool_decide_eq_false_2 in Hn.
  - assert (r = None) as -> by (by destruct Hr as [|[? _]]). exists None, None. done.
Qed.
End file.

(** ** Finding a file, specified *)

Lemma FindFile_loop_spec fuel files key lo hi :
  (forall i j f g, (i < j)%nat -> files !! i = Some f -> files !! j = Some g ->
     InternalKey_Compare (largest g) key < 0 -> InternalKey_Compare (largest f) key < 0) ->
  (lo <= hi <= length files)%nat -> (hi - lo < fuel)%nat ->
  (forall j f, (j < lo)%nat -> files !! j = Some f -> InternalKey_Compare (largest f) key < 0) ->
  (forall f, files !! hi = Some f -> 0 <= InternalKey_Compare (largest f) key) ->
  exists i, FindFile_loop fuel files key (Z.of_nat lo) (Z.of_nat hi) = Some (Z.of_nat i) /\ (i <= length files)%nat
    /\ (forall j f, (j < i)%nat -> files !! j = Some f -> InternalKey_Compare (largest f) key < 0)
    /\ (forall f, files !! i = Some f -> 0 <= InternalKey_Compare (largest f) key).
Proof.
  intros Hmono. revert lo hi. induction fuel as [|fuel IH]; intros lo hi Hb Hf Hlo Hhi; [lia|]. cbn [FindFile_loop].
  destruct (Z.ltb_spec (Z.of_nat lo) (Z.of_nat hi)) as [Hlt|Hge].
  2: { exists hi. split_and!; [done|lia| |done]. intros j f Hj. apply Hlo. lia. }
  set (mid := Z.to_nat ((Z.of_nat lo + Z.of_nat hi) / 2)).
  pose proof (Z.div_mod (Z.of_nat lo + Z.of_nat hi) 2 ltac:(lia)). pose proof (Z.mod_pos_bound (Z.of_nat lo + Z.of_nat hi) 2 ltac:(lia)).
  replace ((Z.of_nat lo + Z.of_nat hi) / 2) with (Z.of_nat mid) by (unfold mid; lia).
  assert (lo <= mid < hi)%nat as Hm by (unfold mid; lia).
  destruct (lookup_lt_is_Some_2 files mid) as [f Hfm]; [lia|]. rewrite Hfm. cbn [mbind option_bind].
  destruct (Z.ltb_spec (InternalKey_Compare (largest f) key) 0) as [Hc|Hc].
  - replace (Z.of_nat mid + 1) with (Z.of_nat (S mid)) by lia. apply IH; [lia|lia| |done].
    intros j g Hj Hg. destruct (decide (j = mid)) as [->|]; [by simplify_eq|]. by apply (Hmono j mid g f); [lia|..].
  - apply IH; [lia|lia|done|]. intros g Hg. by simplify_eq.
Qed.

Lemma FindFile_spec files key :
  (forall i j f g, (i < j)%nat -> files !! i = Some f -> files !! j = Some g ->
     InternalKey_Compare (largest g) key < 0 -> InternalKey_Compare (largest f) key < 0) ->
  exists i, FindFile files key = Some (Z.of_nat i) /\ (i <= length files)%nat
    /\ (forall j f, (j < i)%nat -> files !! j = Some f -> InternalKey_Compare (largest f) key < 0)
    /\ (forall f, files !! i = Some f -> 0 <= InternalKey_Compare (largest f) key).
Proof.
  intros Hmono. unfold FindFile. change 0 with (Z.of_nat 0). apply FindFile_loop_spec; [done|lia|lia| |].
  - intros j f Hj. lia.
  - intros f Hf. apply lookup_lt_Some in Hf. lia.
Qed.

(** ** Levels *)

Section levels.
Context `{FilterPolicy} `{Compression} (policy_name : option (list Z)) (disk : gmap Z (list Z)).
Abbreviation afile := (FileMetaData * list op)%type.
Abbreviation holds := (fun x : afile => file_holds policy_name disk (fst x) (snd x)).
Definition level_ops (fs : list afile) : list op := concat (map snd fs).

Record level_ok (level : nat) (fs : list afile) : Prop := {
  lo_holds : Forall holds fs;
  lo_zero : level = 0%nat -> NoDup (map (fun x => number (fst x)) fs)
    /\ forall x y, x ∈ fs -> y ∈ fs -> number (fst y) < number (fst x) -> newer_than (snd x) (snd y);
  lo_deep : level <> 0%nat -> StronglySorted (fun x y => InternalKey_Compare (largest (fst x)) (smallest (fst y)) < 0) fs }.

Lemma elem_of_level_ops fs o : o ∈ level_ops fs <-> exists x, x ∈ fs /\ o ∈ snd x.
Proof.
  unfold level_ops. rewrite list_elem_of_In, in_concat. split.
  - intros (ops & (x & <- & Hx)%in_map_iff & Ho). exists x. by rewrite !list_elem_of_In.
  - intros (x & Hx & Ho). exists (snd x). rewrite <- !list_elem_of_In. split; [|done]. by apply list_elem_of_fmap_2.
Qed.

Lemma file_bounds f ops o : file_holds policy_name disk f ops -> o ∈ ops ->
  InternalKey_Compare (smallest f) (MemTable.op_ikey o) <= 0 /\ InternalKey_Compare (MemTable.op_ikey o) (largest f) <= 0.
Proof.
  intros [] [i Hi]%list_elem_of_lookup. destruct fh_smallest0 as (a & Ha & ->), fh_largest0 as (b & Hb & ->).
  assert (forall x, InternalKey_Compare x x <= 0) as Hrefl by (intros x; pose proof (InternalKey_Compare_opp x x); lia).
  split.
  - destruct i as [|i]; [destruct ops; [done|]; cbn in *; simplify_eq; apply Hrefl|]. apply Z.lt_le_incl.
    apply (sorted_lookup ikey_lt ops 0 (S i)); [done|lia| |done]. by destruct ops.
  - rewrite last_lookup in Hb. pose proof (lookup_lt_Some _ _ _ Hi).
    destruct (decide (i = pred (length ops))) as [->|]; [simplify_eq; apply Hrefl|]. apply Z.lt_le_incl.
    apply (sorted_lookup ikey_lt ops i (pred (length ops))); [done|lia|done..].
Qed.

Lemma file_user_bounds f ops o : file_holds policy_name disk f ops -> o ∈ ops ->
  lex (ExtractUserKey (smallest f)) (MemTable.op_key o) <= 0 /\ lex (MemTable.op_key o) (ExtractUserKey (largest f)) <= 0.
Proof.
  intros Hf Ho. destruct (file_bounds f ops o Hf Ho) as [H1%user_key_le H2%user_key_le].
  pose proof (fh_ok _ _ _ _ Hf) as Hok. rewrite Forall_forall in Hok.
  by rewrite (proj1 (MemTable.op_ikey_parts o (Hok o Ho))) in H1, H2.
Qed.

Lemma file_self f ops : file_holds policy_name disk f ops -> InternalKey_Compare (smallest f) (largest f) <= 0.
Proof.
  intros Hf. destruct (fh_smallest _ _ _ _ Hf) as (o & Ho & ->). apply (file_bounds _ _ o Hf).
  destruct ops; [done|]. injection Ho as ->. left.
Qed.

(** In a deeper level the largest keys are in order. *)
Lemma deep_mono level fs key : level <> 0%nat -> level_ok level fs ->
  forall i j f g, (i < j)%nat -> map fst fs !! i = Some f -> map fst fs !! j = Some g ->
    InternalKey_Compare (largest g) key < 0 -> InternalKey_Compare (largest f) key < 0.
Proof.
  intros Hl [Hall _ Hdeep] i j f g Hij. specialize (Hdeep Hl). rewrite Forall_forall in Hall.
  change (map fst fs) with (fst <$> fs). rewrite !list_lookup_fmap.
  destruct (fs !! i) as [x|] eqn:Hx; [|done]. destruct (fs !! j) as [y|] eqn:Hy; [|done]. cbn. intros [= <-] [= <-] Hc.
  pose proof (sorted_lookup _ fs i j x y Hdeep Hij Hx Hy) as Hxy. cbn in Hxy. apply (Compare_lt_le _ _ (largest (fst y))) in Hxy.
  - by apply (compare_trans (ok := fun _ => True) _ (largest (fst y))).
  - eapply file_self, Hall. by eapply list_elem_of_lookup_2.
Qed.

Definition outcome (r : option op) (stats : GetStats) : search_result :=
  match saver_of r with
  | kFound value => Stop OK (Some value) stats
  | kDeleted => Stop NotFound None stats
  | _ => KeepSearching stats
  end.

Lemma search_files_spec verify level (fs : list afile) k s stats :
  is_seq s -> Z.of_nat (length k) + 8 < 0x1_0000_0000 ->
  Forall holds fs -> StronglySorted (fun x y => newer_than (snd x) (snd y)) fs ->
  exists r stats', search_files policy_name disk verify level (map fst fs) k (lookup_internal_key k s) stats = Some (outcome r stats')
    /\ is_newest k s (level_ops fs) r.
Proof.
  intros Hs Hk Hall. revert stats. induction Hall as [|[f ops] fs Hf Hall IH]; intros stats Hsort.
  { exists None, stats. split; [done|]. intros o Ho. by apply elem_of_nil in Ho. }
  apply StronglySorted_inv in Hsort as [Hsort Hnew]. cbn [map fst search_files].
  set (stats1 := Build_GetStats _ _). destruct (file_get policy_name disk verify f ops k s Hf Hs Hk) as (saved & r & -> & Hsave & Hr).
  cbn [mbind option_bind]. rewrite Hsave. change (level_ops ((f, ops) :: fs)) with (ops ++ level_ops fs).
  assert (newer_than ops (level_ops fs)) as Hn.
  { intros o o' Ho Ho' E. apply elem_of_level_ops in Ho' as (x & Hx & Ho'). rewrite Forall_forall in Hnew. by apply (Hnew x Hx o o'). }
  destruct r as [o|].
  - exists (Some o), stats1. split; [unfold outcome, saver_of; by destruct (_ =? _)|].
    apply (is_newest_app k s ops (level_ops fs) (Some o) None); [done|done|done].
  - destruct (IH stats1 Hsort) as (r' & stats' & E & Hr'). exists r', stats'. split; [exact E|].
    by apply (is_newest_app k s ops (level_ops fs) None r').
Qed.

(** *** The files of a level that are searched *)

Definition selects (k : list Z) (s : Z) (fs sel : list afile) : Prop :=
  Forall holds sel /\ StronglySorted (fun x y => newer_than (snd x) (snd y)) sel
  /\ (forall o, o ∈ level_ops sel -> o ∈ level_ops fs)
  /\ (forall o, o ∈ level_ops fs -> visible k s o ->
        exists o', o' ∈ level_ops sel /\ visible k s o' /\ MemTable.op_seq o <= MemTable.op_seq o').

Lemma filter_map_fst (P : FileMetaData -> Prop) `{!forall f, Decision (P f)} (fs : list afile) :
  filter P (map fst fs) = map fst (filter (fun x => P (fst x)) fs).
Proof.
  induction fs as [|[f ops] fs IH]; [done|]. cbn [map fst]. rewrite !filter_cons. cbn [fst]. destruct (decide (P f)); cbn [map fst]; by rewrite IH.
Qed.

Lemma level_zero_files fs k s :
  level_ok 0 fs -> exists sel, level_files 0 (map fst fs) k (lookup_internal_key k s) = Some (map fst sel) /\ selects k s fs sel.
Proof.
  intros [Hall Hzero _]. destruct (Hzero eq_refl) as [Hnd Hnew]. unfold level_files. rewrite filter_map_fst.
  set (P := fun x : afile => _ /\ _). pose proof (merge_sort_Permutation NewestFirst (map fst (filter P fs))) as Hp.
  destruct (Permutation_map_inv fst _ Hp) as (sel & E & Hsel). exists sel. rewrite E. split; [done|].
  assert (forall x, x ∈ sel <-> P x /\ x ∈ fs) as Hin by (intros x; rewrite <- Hsel; apply list_elem_of_filter).
  assert (NoDup (map (fun x => number (fst x)) sel)) as Hnd'.
  { rewrite <- Hsel. eapply sublist_NoDup; [exact Hnd|].
    apply (fmap_sublist (fun x : afile => number (fst x))), sublist_filter. }
  assert (StronglySorted NewestFirst (map fst sel)) as Hsorted.
  { rewrite <- E. apply (StronglySorted_merge_sort NewestFirst). }
  split_and!.
  - apply Forall_forall. intros x Hx. rewrite Forall_forall in Hall. by apply Hall, Hin.
  - apply sorted_of_lookup. intros i j x y Hij Hx Hy. apply Hnew.
    + eapply Hin, list_elem_of_lookup_2, Hx.
    + eapply Hin, list_elem_of_lookup_2, Hy.
    + assert (number (fst y) <= number (fst x)) as Hle.
      { apply (sorted_lookup NewestFirst (map fst sel) i j); [done|done|..]; change (map fst sel) with (fst <$> sel); rewrite list_lookup_fmap;
          [by rewrite Hx|by rewrite Hy]. }
      assert (number (fst y) <> number (fst x)); [|lia]. intros En.
      assert (j = i) as ->; [|lia]. eapply (NoDup_lookup _ j i (number (fst y)) Hnd').
      * change (map ?g sel) with (g <$> sel). by rewrite list_lookup_fmap, Hy.
      * change (map ?g sel) with (g <$> sel). rewrite list_lookup_fmap, Hx. cbn. by rewrite En.
  - intros o (x & Hx & Ho)%elem_of_level_ops. apply elem_of_level_ops. exists x. split; [by apply Hin|done].
  - intros o (x & Hx & Ho)%elem_of_level_ops Hv. exists o. split; [|done]. destruct Hv as [Hk _].
    apply elem_of_level_ops. exists x. split; [|done]. apply Hin. split; [|done].
    rewrite Forall_forall in Hall. destruct (file_user_bounds _ _ o (Hall x Hx) Ho) as [H1' H2']. rewrite Hk in H1', H2'.
    unfold P, Bytewise_Compare. rewrite !Slice_compare_lex. rewrite (lex_opp k) in H1'. lia.
Qed.

Lemma level_deep_files level fs k s :
  level <> 0%nat -> level_ok level fs -> is_seq s -> Z.of_nat (length k) + 8 < 0x1_0000_0000 ->
  exists sel, level_files level (map fst fs) k (lookup_internal_key k s) = Some (map fst sel) /\ selects k s fs sel.
Proof.
  intros Hl Hlev Hs Hk. pose proof (lo_holds _ _ Hlev) as Hall. pose proof (lo_deep _ _ Hlev Hl) as Hdeep.
  rewrite Forall_forall in Hall. set (ik := lookup_internal_key k s).
  assert (forall x o, x ∈ fs -> o ∈ snd x -> InternalKey_Compare (largest (fst x)) ik < 0 -> ~ visible k s o) as Hsmall.
  { intros x o Hx Ho Hlt [Hkey Hle]. destruct (file_bounds _ _ o (Hall x Hx) Ho) as [_ Hb].
    pose proof (Compare_le_lt _ _ _ Hb Hlt) as Hc. pose proof (fh_ok _ _ _ _ (Hall x Hx)) as Hok. rewrite Forall_forall in Hok.
    unfold ik in Hc. rewrite lookup_key_op, ikey_entry in Hc by (auto; by apply seek_op_ok).
    pose proof (MemTable.not_before_seek o k s (Hok o Ho) (seek_op_ok k s Hs Hk) Hc Hkey). lia. }
  destruct (FindFile_spec (map fst fs) ik (deep_mono level fs ik Hl Hlev)) as (i & Hfind & Hi & Hbefore & Hat).
  assert (forall j x o, (j < i)%nat -> fs !! j = Some x -> o ∈ snd x -> ~ visible k s o) as Hno.
  { intros j x o Hj Hx Ho. apply (Hsmall x o); [by eapply list_elem_of_lookup_2|done|]. apply (Hbefore j); [done|].
    change (map fst fs) with (fst <$> fs). by rewrite list_lookup_fmap, Hx. }
  assert (level_files level (map fst fs) k ik = (index ← FindFile (map fst fs) ik;
    if Z.of_nat (length (map fst fs)) <=? index then Some []
    else tmp2 ← map fst fs !! Z.to_nat index; if Bytewise_Compare k (ExtractUserKey (smallest tmp2)) <? 0 then Some [] else Some [tmp2])) as ->
    by (by destruct level). rewrite Hfind. cbn [mbind option_bind]. rewrite Nat2Z.id.
  assert (forall x o, fs !! i = Some x -> lex k (ExtractUserKey (smallest (fst x))) < 0 -> o ∈ level_ops fs -> ~ visible k s o) as Hafter.
  { intros x o Hx Hlt (y & [j Hy]%list_elem_of_lookup & Ho)%elem_of_level_ops Hv. destruct (decide (j < i)%nat) as [Hj|Hj]; [by apply (Hno j y o)|].
    assert (y ∈ fs) as Hyin by (by eapply list_elem_of_lookup_2). destruct (file_user_bounds _ _ o (Hall y Hyin) Ho) as [Hlow _]. destruct Hv as [Hv _].
    rewrite Hv in Hlow. assert (lex (ExtractUserKey (smallest (fst x))) (ExtractUserKey (smallest (fst y))) <= 0) as Hxy.
    { destruct (decide (j = i)) as [->|]; [simplify_eq; by rewrite lex_refl|]. apply user_key_le, Z.lt_le_incl.
      apply (Compare_le_lt _ (largest (fst x))); [eapply file_self, Hall; by eapply list_elem_of_lookup_2|].
      apply (sorted_lookup _ fs i j x y Hdeep); [lia|done|done]. }
    destruct (Z.eq_dec (lex (ExtractUserKey (smallest (fst x))) (ExtractUserKey (smallest (fst y)))) 0) as [E|].
    - apply lex_eq in E. rewrite <- E, (lex_opp k) in Hlow. lia.
    - assert (lex (ExtractUserKey (smallest (fst x))) (ExtractUserKey (smallest (fst y))) < 0) as Hc by lia.
      apply (lex_trans k _ _ Hlt) in Hc. rewrite (lex_opp k) in Hlow. lia. }
  destruct (Z.leb_spec (Z.of_nat (length (map fst fs))) (Z.of_nat i)) as [Hge|Hlt].
  { exists []. split; [done|]. split_and!; [constructor|constructor|intros o Ho; by apply elem_of_nil in Ho|].
    intros o (y & [j Hy]%list_elem_of_lookup & Ho)%elem_of_level_ops Hv. exfalso. apply (Hno j y o); [|done..].
    apply lookup_lt_Some in Hy. rewrite length_map in Hge. lia. }
  rewrite length_map in Hlt. destruct (lookup_lt_is_Some_2 fs i) as [x Hx]; [lia|].
  change (map fst fs) with (fst <$> fs). rewrite list_lookup_fmap, Hx. cbn [fmap option_fmap option_map mbind option_bind].
  unfold Bytewise_Compare. rewrite Slice_compare_lex. destruct (Z.ltb_spec (lex k (ExtractUserKey (smallest (fst x)))) 0) as [Hc|Hc].
  { exists []. split; [done|]. split_and!; [constructor|constructor|intros o Ho; by apply elem_of_nil in Ho|].
    intros o Ho Hv. by destruct (Hafter x o Hx Hc Ho). }
  assert (x ∈ fs) as Hxin by (by eapply list_elem_of_lookup_2). exists [x]. split; [done|]. split_and!.
  - constructor; [by apply Hall|constructor].
  - by repeat constructor.
  - intros o (y & Hy%list_elem_of_singleton & Ho)%elem_of_level_ops. subst y. apply elem_of_level_ops. by exists x.
  - intros o (y & [j Hy]%list_elem_of_lookup & Ho)%elem_of_level_ops Hv.
    destruct (decide (j < i)%nat) as [Hj|Hj]; [by destruct (Hno j y o)|].
    destruct (decide (j = i)) as [->|Hn].
    { simplify_eq. exists o. split; [|done]. apply elem_of_level_ops. exists x. split; [left|done]. }
    (* a later file: then the last operation of [x] has the same key, and is newer *)
    assert (y ∈ fs) as Hyin by (by eapply list_elem_of_lookup_2).
    destruct (fh_largest _ _ _ _ (Hall x Hxin)) as (l & Hlast & El). assert (l ∈ snd x) as Hlin by (rewrite last_lookup in Hlast; by eapply list_elem_of_lookup_2).
    assert (MemTable.op_ok l) as Hlok by (pose proof (fh_ok _ _ _ _ (Hall x Hxin)) as Hok; rewrite Forall_forall in Hok; by apply Hok).
    assert (MemTable.op_ok o) as Hook by (pose proof (fh_ok _ _ _ _ (Hall y Hyin)) as Hok; rewrite Forall_forall in Hok; by apply Hok).
    assert (0 <= InternalKey_Compare (MemTable.op_ikey l) ik) as Hlik.
    { rewrite <- El. apply Hat. change (map fst fs) with (fst <$> fs). by rewrite list_lookup_fmap, Hx. }
    pose proof (seek_op_ok k s Hs Hk) as Hseek.
    destruct (MemTable.first_is_newest l o k s) as [Hkl Hle]; [done..|rewrite <- ikey_entry by done; unfold ik in Hlik; rewrite lookup_key_op in Hlik; lia|apply Hv| |].
    { right. rewrite <- ikey_entry by done. apply (Compare_lt_le _ (smallest (fst y))); [|by apply (file_bounds _ _ o (Hall y Hyin))].
      rewrite <- El. apply (sorted_lookup _ fs i j x y Hdeep); [lia|done|done]. }
    exists l. split; [apply elem_of_level_ops; exists x; split; [left|done]|]. split; [by apply not_before_visible|done].
Qed.

Lemma level_files_spec level fs k s :
  level_ok level fs -> is_seq s -> Z.of_nat (length k) + 8 < 0x1_0000_0000 ->
  exists sel, level_files level (map fst fs) k (lookup_internal_key k s) = Some (map fst sel) /\ selects k s fs sel.
Proof.
  intros Hl Hs Hk. destruct (decide (level = 0%nat)) as [->|]; [by apply level_zero_files|by apply level_deep_files].
Qed.

(** ** Versions *)

Definition version_ops (levels : list (list afile)) : list op := concat (map level_ops levels).
Definition levels_ok (from : nat) (levels : list (list afile)) : Prop :=
  (forall i fs, levels !! i = Some fs -> level_ok (from + i) fs)
  /\ StronglySorted (fun fs fs' => newer_than (level_ops fs) (level_ops fs')) levels.

Lemma elem_of_version_ops levels o : o ∈ version_ops levels <-> exists fs, fs ∈ levels /\ o ∈ level_ops fs.
Proof.
  unfold version_ops. rewrite list_elem_of_In, in_concat. split.
  - intros (ops & (fs & <- & Hx)%in_map_iff & Ho). exists fs. by rewrite !list_elem_of_In.
  - intros (fs & Hx & Ho). exists (level_ops fs). rewrite <- !list_elem_of_In. split; [|done]. by apply list_elem_of_fmap_2.
Qed.

Lemma search_levels_spec verify from levels k s stats :
  is_seq s -> Z.of_nat (length k) + 8 < 0x1_0000_0000 -> levels_ok from levels ->
  exists r stats', search_levels policy_name disk verify from (map (map fst) levels) k (lookup_internal_key k s) stats
      = Some (match saver_of r with kFound v => (OK, Some v) | _ => (NotFound, None) end, stats')
    /\ is_newest k s (version_ops levels) r.
Proof.
  intros Hs Hk. revert from stats. induction levels as [|fs levels IH]; intros from stats [Hlev Hsort].
  { exists None, stats. split; [done|]. intros o Ho. by apply elem_of_nil in Ho. }
  apply StronglySorted_inv in Hsort as [Hsort Hnew]. cbn [map search_levels].
  destruct (level_files_spec from fs k s) as (sel & -> & Hsel1 & Hsel2 & Hsel3 & Hsel4); [|done|done|].
  { specialize (Hlev 0%nat fs eq_refl). by rewrite Nat.add_0_r in Hlev. }
  cbn [mbind option_bind].
  destruct (search_files_spec verify from sel k s stats Hs Hk Hsel1 Hsel2) as (r & stats1 & -> & Hr). cbn [mbind option_bind].
  assert (is_newest k s (level_ops fs) r) as Hr' by (by apply (is_newest_select k s _ (level_ops sel))).
  change (version_ops (fs :: levels)) with (level_ops fs ++ version_ops levels).
  assert (newer_than (level_ops fs) (version_ops levels)) as Hn.
  { intros o o' Ho (fs' & Hfs' & Ho')%elem_of_version_ops E. rewrite Forall_forall in Hnew. by apply (Hnew fs' Hfs' o o'). }
  destruct r as [o|].
  - exists (Some o), stats1. split; [unfold outcome, saver_of; by destruct (_ =? _)|].
    by apply (is_newest_app k s (level_ops fs) (version_ops levels) (Some o) None).
  - destruct (IH (S from) stats1) as (r' & stats' & E & Hr2).
    { split; [|done]. intros i fs' Hi. specialize (Hlev (S i) fs' Hi). by replace (S from + i)%nat with (from + S i)%nat by lia. }
    exists r', stats'. split; [exact E|]. by apply (is_newest_app k s (level_ops fs) (version_ops levels) None r').
Qed.
End levels.
