(* ===== verification/VersionBuilder.v ===== *)
(** * Making a version from an edit: VersionSet::Builder of db/version_set.cc in
    src/packages/LevelDB.1.16.0.5/lib/native/src

    A builder collects edits, and gives the version that they make of a base.  Recovery puts
    all edits of a descriptor into one builder, while a running database makes a version
    for each edit; both come to the same when no level sees a file number twice.

    Reference counts and the number of seeks that a file allows are left out; so are the
    assertions on overlapping files, which do not change the result. *)
From stdpp Require Import base numbers option sets gmap list sorting strings.
From S2P Require Import Prelude Coding SkipList DbFormat WriteBatch VersionEdit.
Open Scope list_scope.
Open Scope Z_scope.
Open Scope word_scope.

Abbreviation Version := (list (list FileMetaData)).
(** [new Version(vset)] *)
Definition empty_version : Version := replicate kNumLevels [].

Definition BySmallestKey (f1 f2 : FileMetaData) : bool :=
  let r := InternalKey_Compare (smallest f1) (smallest f2) in
  if negb (r =? 0) then r <? 0 else number f1 <? number f2.

(** A [FileSet] is the list of its elements in order. *)
Fixpoint set_insert (f : FileMetaData) (l : list FileMetaData) : list FileMetaData :=
  match l with
  | [] => [f]
  | g :: l' =>
      if BySmallestKey f g then f :: l
      else if BySmallestKey g f then g :: set_insert f l'
      else l
  end.

Record LevelState := { deleted_files : list Z; added_files : list FileMetaData }.
Definition new_Builder : nat -> LevelState := fun _ => {| deleted_files := []; added_files := [] |}.

Definition set_level (level : nat) (s : LevelState) (levels : nat -> LevelState) : nat -> LevelState :=
  fun l => if (l =? level)%nat then s else levels l.
(** The pointers that [Apply] sets in the version set. *)
Definition Apply_pointers (edit : VersionEdit) (compact_pointer_ : list (list Z)) : list (list Z) :=
  foldl (fun cp '(level, key) => <[level := key]> cp) compact_pointer_ (compact_pointers_ edit).
Definition Apply (edit : VersionEdit) (levels : nat -> LevelState) : nat -> LevelState :=
  let levels := foldl (fun levels '(level, number) =>
    set_level level {| deleted_files := number :: deleted_files (levels level); added_files := added_files (levels level) |} levels)
    levels (deleted_files_ edit) in
  foldl (fun levels '(level, f) =>
    set_level level {| deleted_files := filter (fun n => n <> number f) (deleted_files (levels level));
                       added_files := set_insert f (added_files (levels level)) |} levels)
    levels (new_files_ edit).

Definition MaybeAddFile (s : LevelState) (files : list FileMetaData) (f : FileMetaData) : list FileMetaData :=
  if bool_decide (number f ∈ deleted_files s) then files else files ++ [f].

(** [upper_bound]: the files before the first one that comes after [f], and the rest. *)
Fixpoint upper_bound (f : FileMetaData) (base : list FileMetaData) : list FileMetaData * list FileMetaData :=
  match base with
  | [] => ([], [])
  | g :: base' => if BySmallestKey f g then ([], base) else let '(a, b) := upper_bound f base' in (g :: a, b)
  end.
Fixpoint merge_level (s : LevelState) (added base files : list FileMetaData) : list FileMetaData :=
  match added with
  | [] => foldl (MaybeAddFile s) files base
  | f :: added' =>
      let '(before, rest) := upper_bound f base in
      merge_level s added' rest (MaybeAddFile s (foldl (MaybeAddFile s) files before) f)
  end.
Definition SaveTo (levels : nat -> LevelState) (base : Version) : Version :=
  imap (fun level files => merge_level (levels level) (added_files (levels level)) files []) base.

(** ** Saving one more file *)

Definition insert_at {A} (p : nat) (x : A) (l : list A) : list A := take p l ++ x :: drop p l.

Lemma insert_at_perm {A} p (x : A) l : insert_at p x l ≡ₚ x :: l.
Proof. unfold insert_at. rewrite <- Permutation_middle. by rewrite take_drop. Qed.

Lemma upper_bound_split f base :
  exists p, upper_bound f base = (take p base, drop p base) /\ (p <= length base)%nat
    /\ (forall g, g ∈ take p base -> BySmallestKey f g = false)
    /\ (forall g, head (drop p base) = Some g -> BySmallestKey f g = true).
Proof.
  induction base as [|g base IH]; cbn [upper_bound].
  - exists 0%nat. split_and!; [done|done|intros g Hg; by apply elem_of_nil in Hg|done].
  - destruct (BySmallestKey f g) eqn:E.
    + exists 0%nat. split_and!; [done|lia|intros g' Hg; by apply elem_of_nil in Hg|]. by intros g' [= <-].
    + destruct IH as (p & -> & Hp & H1 & H2). exists (S p). cbn [take drop length]. split_and!; [done|lia| |done].
      intros g' [->|Hg]%elem_of_cons; [done|by apply H1].
Qed.

Lemma foldl_keep s files base : deleted_files s = [] -> foldl (MaybeAddFile s) files base = files ++ base.
Proof.
  intros Hd. revert files. induction base as [|g base IH]; intros files; cbn [foldl]; [by rewrite app_nil_r|].
  rewrite IH. unfold MaybeAddFile. rewrite Hd, bool_decide_eq_false_2 by (intros Hin; by apply elem_of_nil in Hin). by rewrite <- app_assoc.
Qed.

(** An edit that adds one file. *)
Lemma SaveTo_add level f (v : Version) files :
  v !! level = Some files ->
  exists p, SaveTo (Apply (AddFile level f new_VersionEdit) new_Builder) v = <[level := insert_at p f files]> v
    /\ (p <= length files)%nat
    /\ (forall g, g ∈ take p files -> BySmallestKey f g = false)
    /\ (forall g, head (drop p files) = Some g -> BySmallestKey f g = true).
Proof.
  intros Hv. destruct (upper_bound_split f files) as (p & Ep & Hp & H1 & H2). exists p. split_and!; [|done..].
  apply list_eq. intros l. unfold SaveTo. rewrite list_lookup_imap. cbn [Apply AddFile new_VersionEdit deleted_files_ new_files_ foldl app].
  unfold set_level. destruct (Nat.eqb_spec l level) as [->|Hn].
  - rewrite Hv, list_lookup_insert_eq by (by eapply lookup_lt_Some). cbn [fmap option_fmap option_map new_Builder added_files set_insert merge_level].
    rewrite Ep, !foldl_keep by done. unfold MaybeAddFile. cbn [deleted_files]. rewrite bool_decide_eq_false_2 by (cbn; intros Hin; by apply elem_of_nil in Hin).
    f_equal. unfold insert_at. by rewrite <- app_assoc.
  - rewrite list_lookup_insert_ne by done. destruct (v !! l) as [fs|]; [|done]. cbn [fmap option_fmap option_map new_Builder added_files merge_level].
    by rewrite foldl_keep.
Qed.

Lemma BySmallestKey_true f g : BySmallestKey f g = true -> InternalKey_Compare (smallest f) (smallest g) <= 0.
Proof.
  unfold BySmallestKey. destruct (Z.eqb_spec (InternalKey_Compare (smallest f) (smallest g)) 0) as [E|]; cbn [negb]; [lia|].
  intros Hc%Z.ltb_lt. lia.
Qed.
Lemma BySmallestKey_false f g : BySmallestKey f g = false -> 0 <= InternalKey_Compare (smallest f) (smallest g).
Proof.
  unfold BySmallestKey. destruct (Z.eqb_spec (InternalKey_Compare (smallest f) (smallest g)) 0) as [E|]; cbn [negb]; [lia|].
  intros Hc%Z.ltb_ge. lia.
Qed.

(** ** The order of files *)

Definition by_smallest (f g : FileMetaData) : Prop := BySmallestKey f g = true.
Abbreviation numbers := (map number).

Lemma by_smallest_iff f g : by_smallest f g <->
  InternalKey_Compare (smallest f) (smallest g) < 0 \/ (InternalKey_Compare (smallest f) (smallest g) = 0 /\ number f < number g).
Proof.
  unfold by_smallest, BySmallestKey. destruct (Z.eqb_spec (InternalKey_Compare (smallest f) (smallest g)) 0); cbn [negb]; rewrite Z.ltb_lt; lia.
Qed.
Lemma by_smallest_irrefl f : ~ by_smallest f f.
Proof. rewrite by_smallest_iff. pose proof (InternalKey_Compare_opp (smallest f) (smallest f)). lia. Qed.
#[export] Instance by_smallest_trans : Transitive by_smallest.
Proof.
  intros f g h. rewrite !by_smallest_iff. intros [H1|[H1 N1]] [H2|[H2 N2]].
  - left. by apply (Compare_lt_le _ (smallest g)); [|lia].
  - left. apply (Compare_lt_le _ (smallest g)); [done|lia].
  - left. apply (Compare_le_lt _ (smallest g)); [lia|done].
  - right. split; [|lia]. by rewrite <- (Compare_zero _ _ _ H2).
Qed.
Lemma by_smallest_total f g : number f <> number g -> BySmallestKey f g = false -> by_smallest g f.
Proof.
  intros Hn Hf. rewrite by_smallest_iff, (InternalKey_Compare_opp (smallest f)). apply not_true_iff_false in Hf.
  change (~ by_smallest f g) in Hf. rewrite by_smallest_iff in Hf. lia.
Qed.

Abbreviation files_sorted := (StronglySorted by_smallest).

Lemma set_insert_perm f l : number f ∉ numbers l -> set_insert f l ≡ₚ f :: l.
Proof.
  induction l as [|g l IH]; cbn [set_insert map]; intros Hn; [done|].
  rewrite not_elem_of_cons in Hn. destruct Hn as [Hg Hn]. destruct (BySmallestKey f g) eqn:E; [done|].
  rewrite (by_smallest_total f g) by done. rewrite IH by done. apply Permutation_swap.
Qed.
Lemma set_insert_sorted f l : number f ∉ numbers l -> files_sorted l -> files_sorted (set_insert f l).
Proof.
  intros Hn Hs. induction Hs as [|g l Hl IH Hg]; cbn [set_insert]; [by repeat constructor|].
  cbn [map] in Hn. rewrite not_elem_of_cons in Hn. destruct Hn as [Hfg Hn]. destruct (BySmallestKey f g) eqn:E.
  - constructor; [by constructor|]. constructor; [done|]. rewrite Forall_forall in *. intros x Hx. etransitivity; [exact E|by apply Hg].
  - pose proof (by_smallest_total f g Hfg E) as Hgf. rewrite Hgf. constructor; [by apply IH|]. rewrite Forall_forall in *.
    intros x. rewrite set_insert_perm by done. intros [->|Hx]%elem_of_cons; [done|by apply Hg].
Qed.

(** ** Merging *)

(** The base files and the added ones, in order. *)
Fixpoint merge_files (added base : list FileMetaData) : list FileMetaData :=
  match added with
  | [] => base
  | f :: added' => (upper_bound f base).1 ++ f :: merge_files added' (upper_bound f base).2
  end.

Lemma foldl_MaybeAdd s files l : foldl (MaybeAddFile s) files l = files ++ filter (fun f => number f ∉ deleted_files s) l.
Proof.
  revert files. induction l as [|f l IH]; intros files; cbn [foldl]; [by rewrite app_nil_r|]. rewrite IH, filter_cons. unfold MaybeAddFile.
  destruct (decide (number f ∉ deleted_files s)); case_bool_decide; try done. by rewrite <- app_assoc.
Qed.
Lemma merge_level_files s added base files :
  merge_level s added base files = files ++ filter (fun f => number f ∉ deleted_files s) (merge_files added base).
Proof.
  revert base files. induction added as [|f added IH]; intros base files; cbn [merge_level merge_files]; [apply foldl_MaybeAdd|].
  destruct (upper_bound f base) as [a b]. cbn [fst snd]. rewrite IH, filter_app. change (MaybeAddFile s ?x f) with (foldl (MaybeAddFile s) x [f]).
  rewrite !foldl_MaybeAdd, <- !app_assoc. by rewrite <- (filter_app _ [f]).
Qed.

Lemma merge_files_perm added base : merge_files added base ≡ₚ added ++ base.
Proof.
  revert base. induction added as [|f added IH]; intros base; cbn [merge_files app]; [done|].
  destruct (upper_bound_split f base) as (p & -> & _). cbn [fst snd]. rewrite IH, <- Permutation_middle. f_equiv.
  rewrite (app_assoc _ added), (Permutation_app_comm _ added), <- app_assoc, take_drop. done.
Qed.

Lemma merge_files_sorted added base :
  files_sorted added -> files_sorted base -> (forall f g, f ∈ added -> g ∈ base -> number f <> number g) ->
  files_sorted (merge_files added base).
Proof.
  intros Ha. revert base. induction Ha as [|f added Ha IH Hf]; intros base Hb Hne; cbn [merge_files]; [done|].
  destruct (upper_bound_split f base) as (p & -> & _ & Hlo & Hhi). cbn [fst snd].
  pose proof Hb as Hb'. rewrite <- (take_drop p base) in Hb'. apply StronglySorted_app in Hb' as (Hcross & Hb1 & Hb2).
  assert (forall g, g ∈ take p base -> g ∈ base) as Ht by (intros g Hg; rewrite <- (take_drop p base); apply elem_of_app; by left).
  assert (forall g, g ∈ drop p base -> g ∈ base) as Hd by (intros g Hg; rewrite <- (take_drop p base); apply elem_of_app; by right).
  assert (forall g, g ∈ take p base -> by_smallest g f) as Hbefore.
  { intros g Hg. apply by_smallest_total; [|by apply Hlo]. apply Hne; [left|by apply Ht]. }
  assert (forall g, g ∈ drop p base -> by_smallest f g) as Hbehind.
  { intros g Hg. destruct (drop p base) as [|h rest]; [by apply elem_of_nil in Hg|]. apply StronglySorted_inv in Hb2 as [_ Hh].
    apply elem_of_cons in Hg as [->|Hg]; [by apply Hhi|]. rewrite Forall_forall in Hh. transitivity h; [by apply Hhi|by apply Hh]. }
  rewrite Forall_forall in Hf.
  assert (forall x, x ∈ merge_files added (drop p base) -> by_smallest f x) as Hrest.
  { intros x. rewrite merge_files_perm. intros [Hx|Hx]%elem_of_app; [by apply Hf|by apply Hbehind]. }
  apply StronglySorted_app. split_and!; [|done|].
  - intros x y Hx [->|Hy]%elem_of_cons; [by apply Hbefore|]. transitivity f; [by apply Hbefore|by apply Hrest].
  - constructor; [|by apply Forall_forall]. apply IH; [done|]. intros x y Hx Hy. apply Hne; [by right|by apply Hd].
Qed.

(** ** Applying an edit *)

(** What an edit adds to a level, and what it deletes there. *)
Definition added_at (l : nat) (e : VersionEdit) : list FileMetaData := map snd (filter (fun x => fst x = l) (new_files_ e)).
Abbreviation insert_all := (foldl (fun s f => set_insert f s)).

Lemma Apply_deletions (del : list (nat * Z)) B l :
  let B' := foldl (fun levels '(level, number) =>
    set_level level {| deleted_files := number :: deleted_files (levels level); added_files := added_files (levels level) |} levels) B del in
  added_files (B' l) = added_files (B l) /\ forall n, n ∈ deleted_files (B' l) <-> n ∈ deleted_files (B l) \/ (l, n) ∈ del.
Proof.
  revert B. induction del as [|[m k] del IH]; intros B; cbn [foldl].
  { split; [done|]. intros n. rewrite elem_of_nil. naive_solver. }
  set (B1 := set_level _ _ _). destruct (IH B1) as [Ha Hd]. assert (B1 l = if (l =? m)%nat then _ else B l) as E by done.
  rewrite E in Ha, Hd. destruct (Nat.eqb_spec l m) as [->|Hne]; cbn [deleted_files added_files] in Ha, Hd.
  - split; [done|]. intros n. rewrite Hd, !elem_of_cons. naive_solver.
  - split; [done|]. intros n. rewrite Hd, elem_of_cons. naive_solver.
Qed.

Lemma Apply_additions (new : list (nat * FileMetaData)) B l :
  let B' := foldl (fun levels '(level, f) =>
    set_level level {| deleted_files := filter (fun n => n <> number f) (deleted_files (levels level));
                       added_files := set_insert f (added_files (levels level)) |} levels) B new in
  let adds := map snd (filter (fun x => fst x = l) new) in
  added_files (B' l) = insert_all (added_files (B l)) adds
  /\ forall n, n ∈ deleted_files (B' l) <-> n ∈ deleted_files (B l) /\ n ∉ numbers adds.
Proof.
  revert B. induction new as [|[m f] new IH]; intros B; cbn [foldl].
  { split; [done|]. intros n. cbn. rewrite elem_of_nil. naive_solver. }
  set (B1 := set_level _ _ _). destruct (IH B1) as [Ha Hd]. assert (B1 l = if (l =? m)%nat then _ else B l) as E by done.
  rewrite E in Ha, Hd. rewrite filter_cons. cbn [fst]. destruct (Nat.eqb_spec l m) as [->|Hne]; cbn [deleted_files added_files] in Ha, Hd.
  - rewrite decide_True by done. cbn [map snd foldl]. split; [done|]. intros n. rewrite Hd, list_elem_of_filter, not_elem_of_cons. naive_solver.
  - rewrite decide_False by done. done.
Qed.

Lemma Apply_spec e B l :
  added_files (Apply e B l) = insert_all (added_files (B l)) (added_at l e)
  /\ forall n, n ∈ deleted_files (Apply e B l)
       <-> (n ∈ deleted_files (B l) \/ (l, n) ∈ deleted_files_ e) /\ n ∉ numbers (added_at l e).
Proof.
  unfold Apply. destruct (Apply_additions (new_files_ e) (foldl (fun levels '(level, number) =>
    set_level level {| deleted_files := number :: deleted_files (levels level); added_files := added_files (levels level) |} levels) B (deleted_files_ e)) l) as [Ha Hd].
  destruct (Apply_deletions (deleted_files_ e) B l) as [Ha' Hd']. rewrite Ha' in Ha. split; [done|]. intros n. by rewrite Hd, Hd'.
Qed.

Lemma added_all_spec A adds : files_sorted A -> NoDup (numbers (A ++ adds)) ->
  insert_all A adds ≡ₚ A ++ adds /\ files_sorted (insert_all A adds).
Proof.
  revert A. induction adds as [|f adds IH]; intros A Hs Hnd; cbn [foldl]; [by rewrite app_nil_r|].
  assert (number f ∉ numbers A) as Hf.
  { rewrite map_app in Hnd. apply NoDup_app in Hnd as (_ & Hx & _). intros Hin. apply (Hx _ Hin). left. }
  assert (set_insert f A ++ adds ≡ₚ A ++ f :: adds) as Hp by (rewrite set_insert_perm by done; by rewrite <- Permutation_middle).
  destruct (IH (set_insert f A)) as [Hp' Hs']; [by apply set_insert_sorted|by rewrite Hp|]. split; [by rewrite Hp', Hp|done].
Qed.

(** *** Builders *)

Definition builder_ok (B : nat -> LevelState) (v : Version) : Prop :=
  forall l base, v !! l = Some base -> files_sorted base /\ files_sorted (added_files (B l)) /\ NoDup (numbers (base ++ added_files (B l))).
(** No level sees a number twice. *)
Definition fresh_edit (e : VersionEdit) (B : nat -> LevelState) (v : Version) : Prop :=
  forall l base, v !! l = Some base -> NoDup (numbers ((base ++ added_files (B l)) ++ added_at l e)).

Lemma SaveTo_lookup B v l : SaveTo B v !! l = (fun base => merge_level (B l) (added_files (B l)) base []) <$> v !! l.
Proof. unfold SaveTo. by rewrite list_lookup_imap. Qed.

Lemma SaveTo_spec B v l base : builder_ok B v -> v !! l = Some base ->
  exists fs, SaveTo B v !! l = Some fs /\ files_sorted fs
    /\ fs ≡ₚ filter (fun f => number f ∉ deleted_files (B l)) (base ++ added_files (B l)).
Proof.
  intros HB Hv. destruct (HB l base Hv) as (Hs & Ha & Hnd). rewrite SaveTo_lookup, Hv. eexists. split; [done|].
  rewrite merge_level_files, app_nil_l. split.
  - apply sorted_filter, merge_files_sorted; [done|done|]. intros f g Hf Hg E. rewrite map_app in Hnd.
    apply NoDup_app in Hnd as (_ & Hx & _). apply (Hx (number g)); [by apply list_elem_of_fmap_2|]. rewrite <- E. by apply list_elem_of_fmap_2.
  - apply filter_Permutation. rewrite merge_files_perm. apply Permutation_app_comm.
Qed.

(** The files of every level in order, under different numbers. *)
Definition version_sorted (v : Version) : Prop := forall l base, v !! l = Some base -> files_sorted base /\ NoDup (numbers base).

Lemma new_Builder_ok v : version_sorted v <-> builder_ok new_Builder v.
Proof.
  split; intros Hv l base Hl; specialize (Hv l base Hl); cbn [new_Builder added_files] in *; rewrite app_nil_r in *.
  - destruct Hv. split_and!; [done|constructor|done].
  - by destruct Hv as (? & _ & ?).
Qed.

Lemma Apply_ok e B v : builder_ok B v -> fresh_edit e B v -> builder_ok (Apply e B) v
  /\ forall l base, v !! l = Some base -> added_files (Apply e B l) ≡ₚ added_files (B l) ++ added_at l e.
Proof.
  intros HB He.
  assert (forall l base, v !! l = Some base -> files_sorted base /\ files_sorted (added_files (Apply e B l))
    /\ added_files (Apply e B l) ≡ₚ added_files (B l) ++ added_at l e) as H.
  { intros l base Hl. destruct (HB l base Hl) as (Hs & Ha & _). specialize (He l base Hl). rewrite <- app_assoc, map_app in He.
    apply NoDup_app in He as (_ & _ & He). rewrite (proj1 (Apply_spec e B l)). destruct (added_all_spec _ _ Ha He). done. }
  split; [|intros l base Hl; by apply (H l base)]. intros l base Hl. destruct (H l base Hl) as (H1 & H2 & H3). split_and!; [done|done|].
  rewrite H3, app_assoc. by apply He.
Qed.

Lemma SaveTo_ok B v : builder_ok B v -> version_sorted (SaveTo B v).
Proof.
  intros HB l fs Hl. rewrite SaveTo_lookup in Hl. destruct (v !! l) as [base|] eqn:Hv; [|done].
  destruct (SaveTo_spec B v l base HB Hv) as (fs' & Hl' & Hs & Hp). rewrite SaveTo_lookup, Hv in Hl'. simplify_eq. split; [done|].
  rewrite Hp. destruct (HB l base Hv) as (_ & _ & Hnd). eapply sublist_NoDup; [exact Hnd|]. apply (fmap_sublist number), sublist_filter.
Qed.

Lemma fresh_saved e B v : builder_ok B v -> fresh_edit e B v -> fresh_edit e new_Builder (SaveTo B v).
Proof.
  intros HB He l fs Hl. rewrite SaveTo_lookup in Hl. destruct (v !! l) as [base|] eqn:Hv; [|done].
  destruct (SaveTo_spec B v l base HB Hv) as (fs' & Hl' & _ & Hp). rewrite SaveTo_lookup, Hv in Hl'. simplify_eq.
  cbn [new_Builder added_files]. rewrite app_nil_r, Hp. eapply sublist_NoDup; [apply (He l base Hv)|].
  apply (fmap_sublist number), sublist_app; [apply sublist_filter|done].
Qed.

(** One more edit in the builder, or a builder on the version of the edits so far. *)
Lemma SaveTo_Apply e B v : builder_ok B v -> fresh_edit e B v -> SaveTo (Apply e B) v = SaveTo (Apply e new_Builder) (SaveTo B v).
Proof.
  intros HB He. pose proof (proj1 (new_Builder_ok _) (SaveTo_ok B v HB)) as HB1. pose proof (fresh_saved e B v HB He) as He1.
  destruct (Apply_ok e B v HB He) as [HA Hadd]. destruct (Apply_ok e new_Builder _ HB1 He1) as [HA1 Hadd1].
  apply list_eq. intros l. destruct (v !! l) as [base|] eqn:Hv.
  2: { by rewrite !SaveTo_lookup, Hv. }
  destruct (SaveTo_spec _ _ _ _ HB Hv) as (mid & Hmid & _ & Pmid). destruct (SaveTo_spec _ _ _ _ HA Hv) as (fs & -> & Hs & Pfs).
  destruct (SaveTo_spec _ _ _ _ HA1 Hmid) as (fs' & -> & Hs' & Pfs'). f_equal.
  apply (sorted_ext by_smallest); [apply by_smallest_irrefl|apply _|done|done|]. intros f.
  rewrite Pfs, Pfs', !list_elem_of_filter, !elem_of_app, (Hadd _ _ Hv), (Hadd1 _ _ Hmid), !elem_of_app, Pmid, list_elem_of_filter, elem_of_app.
  rewrite !(proj2 (Apply_spec e _ l)). cbn [new_Builder deleted_files added_files]. rewrite !elem_of_nil.
  specialize (He l base Hv). rewrite map_app in He. apply NoDup_app in He as (_ & Hx & _).
  assert (f ∈ base \/ f ∈ added_files (B l) -> number f ∉ numbers (added_at l e)) as Hold.
  { intros Hf. apply Hx, list_elem_of_fmap_2, elem_of_app. done. }
  assert (f ∈ added_at l e -> number f ∈ numbers (added_at l e)) as Hnew by (intros Hf; by apply list_elem_of_fmap_2).
  destruct (decide (number f ∈ numbers (added_at l e))); tauto.
Qed.

(** ** Many edits *)

Definition run_edits (es : list VersionEdit) (v : Version) : Version := foldl (fun v e => SaveTo (Apply e new_Builder) v) v es.
Definition apply_edits (es : list VersionEdit) (B : nat -> LevelState) : nat -> LevelState := foldl (fun B e => Apply e B) B es.
Definition all_added (l : nat) (es : list VersionEdit) : list FileMetaData := concat (map (added_at l) es).
Definition edits_fresh (es : list VersionEdit) (B : nat -> LevelState) (v : Version) : Prop :=
  forall l base, v !! l = Some base -> NoDup (numbers ((base ++ added_files (B l)) ++ all_added l es)).

Lemma edits_fresh_cons e es B v : builder_ok B v -> edits_fresh (e :: es) B v -> fresh_edit e B v /\ edits_fresh es (Apply e B) v.
Proof.
  intros HB He. assert (fresh_edit e B v) as Hf.
  { intros l base Hl. specialize (He l base Hl). cbn [all_added map concat] in He. rewrite app_assoc, map_app in He. by apply NoDup_app in He as (He & _). }
  split; [done|]. intros l base Hl. rewrite (proj2 (Apply_ok e B v HB Hf) l base Hl). specialize (He l base Hl). cbn [all_added map concat] in He.
  by rewrite !app_assoc in He |- *.
Qed.

Lemma apply_run es B v : builder_ok B v -> edits_fresh es B v -> SaveTo (apply_edits es B) v = run_edits es (SaveTo B v).
Proof.
  revert B. induction es as [|e es IH]; intros B HB He; [done|]. destruct (edits_fresh_cons e es B v HB He) as [Hf Hfs].
  cbn [apply_edits run_edits foldl]. rewrite <- SaveTo_Apply by done. apply IH; [by apply Apply_ok|done].
Qed.

Lemma SaveTo_new v : SaveTo new_Builder v = v.
Proof.
  apply list_eq. intros l. rewrite SaveTo_lookup. destruct (v !! l); [|done]. cbn. by rewrite foldl_keep.
Qed.

Lemma apply_edits_ok es B v : builder_ok B v -> edits_fresh es B v -> builder_ok (apply_edits es B) v.
Proof.
  revert B. induction es as [|e es IH]; intros B HB He; [done|]. destruct (edits_fresh_cons e es B v HB He) as [Hf Hfs].
  apply IH; [by apply Apply_ok|done].
Qed.

Lemma apply_edits_added es B v l base : builder_ok B v -> edits_fresh es B v -> v !! l = Some base ->
  added_files (apply_edits es B l) ≡ₚ added_files (B l) ++ all_added l es.
Proof.
  revert B. induction es as [|e es IH]; intros B HB He Hl; [cbn; by rewrite app_nil_r|]. destruct (edits_fresh_cons e es B v HB He) as [Hf Hfs].
  cbn [apply_edits foldl all_added map concat]. rewrite (IH (Apply e B)); [|by apply Apply_ok|done|done].
  by rewrite (proj2 (Apply_ok e B v HB Hf) l base Hl), <- app_assoc.
Qed.

(** A builder with many edits.  Applying a sequence of edits to one builder and saving once
    gives the version that comes of making one version after the other, provided that no level
    gets a file under a number that it has had before.  The files of each level are in the order
    of their smallest keys, under different numbers. *)
Theorem edits_in_one_builder (es : list VersionEdit) (v : Version) :
  version_sorted v -> edits_fresh es new_Builder v ->
  SaveTo (apply_edits es new_Builder) v = run_edits es v /\ version_sorted (run_edits es v).
Proof.
  intros Hv%new_Builder_ok He. pose proof (apply_run es new_Builder v Hv He) as E. rewrite SaveTo_new in E. rewrite <- E.
  split; [done|]. by apply SaveTo_ok, apply_edits_ok.
Qed.

(** A file that goes to level 0, then moves to level 1 while another one comes. *)
Definition file_a : FileMetaData := {| number := 5; file_size := 100; smallest := [97; 1; 3; 0; 0; 0; 0; 0; 0]; largest := [99; 1; 2; 0; 0; 0; 0; 0; 0] |}.
Definition file_b : FileMetaData := {| number := 6; file_size := 200; smallest := [97; 1; 9; 0; 0; 0; 0; 0; 0]; largest := [98; 1; 8; 0; 0; 0; 0; 0; 0] |}.
Definition moves : list VersionEdit :=
  [AddFile 0 file_a new_VersionEdit; AddFile 0 file_b new_VersionEdit; AddFile 1 file_a (DeleteFile 0 5 new_VersionEdit)].

Lemma edits_in_one_builder_witness :
  SaveTo (apply_edits moves new_Builder) [[]; []; []] = run_edits moves [[]; []; []] /\ run_edits moves [[]; []; []] = [[file_b]; [file_a]; []].
Proof.
  split; [|reflexivity]. apply edits_in_one_builder.
  - intros l base Hl. do 3 (destruct l as [|l]; [injection Hl as <-; split; constructor|]). done.
  - intros l base Hl. do 3 (destruct l as [|l]; [injection Hl as <-; apply (bool_decide_unpack _); vm_compute; exact I|]). done.
Defined.
