(* ===== verification/Level0.v ===== *)
(** * From a table in memory to a file of a version: db/builder.cc, VersionSet::Builder of
    db/version_set.cc and WriteLevel0Table of db/db_impl.cc, in
    src/packages/LevelDB.1.16.0.5/lib/native/src

    The background thread writes a full table in memory to a table file, chooses a level for
    it, and makes a new version with the file in its place.  The class [TableStore] of
    DbImpl.v says what the database expects of this; TableLaws.v puts the two together. *)
From stdpp Require Import base numbers option sets gmap list sorting strings.
From S2P Require Import Prelude Coding SkipList DbFormat MemTable WriteBatch Bloom FilterBlock TableBlock TableFile VersionEdit VersionSet VersionBuilder.
Open Scope list_scope.
Open Scope Z_scope.
Open Scope word_scope.

(** ** Writing a table *)

(** The entries that an iterator over a table in memory passes. *)
Fixpoint mem_walk (n : nat) (mem : SkipList (list Z)) (x : option nat) : option (list (list Z * list Z)) :=
  match x with
  | None => Some []
  | Some x =>
      match n with
      | O => None
      | S n' =>
          k ← MemTable.Iter_key mem x;
          v ← MemTable.Iter_value mem x;
          y ← Iterator_Next mem x;
          l ← mem_walk n' mem y;
          Some ((k, v) :: l)
      end
  end.
Definition mem_entries (mem : SkipList (list Z)) : option (list (list Z * list Z)) :=
  x ← Iterator_SeekToFirst mem; mem_walk (length (arena_ mem)) mem x.

Section build.
Context `{FilterPolicy} `{Compression} (interval block_size compression : Z) (policy_name : option (list Z)).

(** [BuildTable]: its status, and the file with its description if there is one. *)
Definition BuildTable (file_number : Z) (mem : SkipList (list Z)) : option (Status * option (FileMetaData * list Z)) :=
  iter ← mem_entries mem;
  match iter with
  | [] => Some (OK, None)
  | (first_key, _) :: _ =>
      let file := build_table interval block_size compression policy_name iter in
      let meta := {| number := file_number; file_size := Z.of_nat (length file);
                     smallest := first_key; largest := default [] (fst <$> last iter) |} in
      it ← Table_Open policy_name file (file_size meta);
      match it with
      | inl s => Some (s, None)
      | inr _ => Some (OK, if 0 <? file_size meta then Some (meta, file) else None)
      end
  end.

(** [WriteLevel0Table]: [base] is given when a level may be chosen; [disk] gets the file. *)
Definition WriteLevel0Table (mem : SkipList (list Z)) (file_number : Z) (edit : VersionEdit) (base : option Version) (disk : gmap Z (list Z))
    : option (Status * VersionEdit * gmap Z (list Z)) :=
  '(s, built) ← BuildTable file_number mem;
  match built with
  | None => Some (s, edit, disk)
  | Some (meta, file) =>
      level ← match base with
              | Some v => PickLevelForMemTableOutput v (ExtractUserKey (smallest meta)) (ExtractUserKey (largest meta))
              | None => Some 0%nat
              end;
      Some (s, AddFile level meta edit, <[file_number := file]> disk)
  end.
End build.

(** ** The file of a table in memory *)

Lemma mem_walk_spec mem ord l1 l2 ops n :
  sl_inv MemTable.KeyComparator (fun _ => True) mem ord -> ord = l1 ++ l2 -> (length l2 <= n)%nat ->
  map snd l2 = map MemTable.op_entry ops -> Forall MemTable.op_ok ops ->
  mem_walk n mem (fst <$> head l2) = Some (map op_kv ops).
Proof.
  intros Hi. revert l1 n ops. induction l2 as [|[p k] l2 IH]; intros l1 n ops E Hn Hops Hok.
  { destruct ops; [by destruct n|done]. }
  destruct ops as [|o ops]; [done|]. cbn [map snd] in Hops. injection Hops as -> Hops. apply Forall_cons in Hok as [Ho Hok].
  destruct n as [|n]; cbn [length] in Hn; [lia|]. cbn [head fmap option_fmap option_map mem_walk map fst].
  destruct (inv_node _ _ _ _ Hi p (MemTable.op_entry o) ltac:(rewrite E; apply elem_of_app; right; left)) as (_ & Hk & _).
  destruct (MemTable.Iter_at mem p o Ho Hk) as [-> ->]. cbn [mbind option_bind]. subst ord.
  rewrite (Iterator_Next_spec _ _ _ _ _ _ _ Hi). cbn [mbind option_bind].
  rewrite (IH (l1 ++ [(p, MemTable.op_entry o)]) n ops); [done|by rewrite <- app_assoc|lia|done|done].
Qed.

Lemma mem_entries_spec mem ops :
  MemTable.mem_inv mem ops ->
  exists sorted, mem_entries mem = Some (map op_kv sorted) /\ sorted ≡ₚ ops /\ StronglySorted ikey_lt sorted
    /\ Forall MemTable.op_ok sorted.
Proof.
  intros (Hok & _ & ord & Hi & Hp). destruct (Permutation_map_inv _ _ Hp) as (sorted & E & Hperm).
  assert (Forall MemTable.op_ok sorted) as Hok' by (by rewrite <- Hperm). exists sorted. split_and!; [|done| |done].
  - unfold mem_entries. rewrite (SeekToFirst_spec _ _ _ _ Hi). cbn [mbind option_bind].
    apply (mem_walk_spec mem ord []); [done|done| |done|done]. rewrite (inv_count _ _ _ _ Hi). lia.
  - pose proof (sorted_keys _ _ (inv_order _ _ _ _ Hi)) as Hs. rewrite E in Hs. apply sorted_of_lookup. intros i j o o' Hij Ho Ho'.
    rewrite Forall_lookup in Hok'. unfold ikey_lt. rewrite ikey_entry by (by eapply Hok').
    apply (sorted_lookup (fun k k' => MemTable.KeyComparator k k' < 0) (map MemTable.op_entry sorted) i j); [done|done|..]; change (map ?g sorted) with (g <$> sorted);
      rewrite list_lookup_fmap; [by rewrite Ho|by rewrite Ho'].
Qed.

Section table.
Context `{FilterPolicy} `{!UserKeyFilter} `{Compression} (interval block_size compression : Z) (policy_name : option (list Z)).
Context (Interval : 1 <= interval) (Name : name_ok policy_name).

(** The bytes and the size of a table that can be written. *)
Definition writable (mem : SkipList (list Z)) (ops : list op) : Prop :=
  Forall (fun o => bytes (MemTable.op_key o) /\ bytes (MemTable.op_value o)) ops
  /\ forall es, mem_entries mem = Some es -> entries_size es < 0x8000_0000
       /\ Z.of_nat (length (build_table interval block_size compression policy_name es)) < 0x1_0000_0000.

Lemma op_kv_ok o : bytes (MemTable.op_key o) /\ bytes (MemTable.op_value o) -> key_ok (fst (op_kv o)) /\ bytes (snd (op_kv o)).
Proof.
  intros [Hk Hv]. split; [|done]. unfold op_kv, MemTable.op_ikey. cbn [fst]. split.
  - apply bytes_app. split; [done|apply bytes_le_bytes].
  - rewrite length_app, length_EncodeFixed64. lia.
Qed.

Lemma BuildTable_spec n mem ops :
  MemTable.mem_inv mem ops -> ops <> [] -> writable mem ops ->
  exists meta file sorted, BuildTable interval block_size compression policy_name n mem = Some (OK, Some (meta, file))
    /\ number meta = n /\ is64 (file_size meta) /\ sorted ≡ₚ ops
    /\ forall disk, disk !! n = Some file -> file_holds policy_name disk meta sorted.
Proof.
  intros Hm Hne [Hb Hw]. destruct (mem_entries_spec mem ops Hm) as (sorted & He & Hp & Hs & Hok). destruct (Hw _ He) as [Hsz Hf].
  destruct sorted as [|o sorted]; [by apply Permutation_nil_l in Hp|].
  set (es := map op_kv (o :: sorted)) in *. set (file := build_table _ _ _ _ es) in *.
  destruct (built_table_get interval block_size compression policy_name es Interval Name) as (t & Ho & Hg).
  { apply Forall_map. rewrite <- Hp in Hb. eapply Forall_impl; [exact Hb|]. intros x. apply op_kv_ok. }
  { unfold es. apply sorted_of_lookup. intros i j x y Hij. change (map op_kv ?l) with (op_kv <$> l). rewrite !list_lookup_fmap.
    destruct ((o :: sorted) !! i) as [a|] eqn:Ea, ((o :: sorted) !! j) as [b|] eqn:Eb; cbn; intros [= <-] [= <-].
    apply (sorted_lookup ikey_lt _ i j a b Hs Hij Ea Eb). }
  { done. } { done. }
  fold file in Ho. set (meta := {| number := n; file_size := Z.of_nat (length file); smallest := MemTable.op_ikey o;
    largest := default [] (fst <$> last es) |}).
  assert (BuildTable interval block_size compression policy_name n mem = (it ← Table_Open policy_name file (Z.of_nat (length file));
    match it with inl s => Some (s, None) | inr _ => Some (OK, if 0 <? Z.of_nat (length file) then Some (meta, file) else None) end)) as ->
    by (unfold BuildTable; by rewrite He).
  exists meta, file, (o :: sorted). rewrite Ho. cbn [mbind option_bind].
  rewrite (proj2 (Z.ltb_lt _ _)).
  2: { unfold Table_Open in Ho. destruct (Z.ltb_spec (Z.of_nat (length file)) (Z.of_nat kEncodedLength)) as [|Hge]; [done|]. unfold kEncodedLength in Hge. lia. }
  split_and!; [done|done|unfold is64; cbn [file_size meta]; lia|done|]. intros disk Hd. split; [done|done| | |].
  - by exists o.
  - destruct (last (o :: sorted)) as [l|] eqn:El; [|by apply last_None in El]. exists l. split; [done|]. cbn [largest meta].
    unfold es. change (map op_kv ?l) with (op_kv <$> l). by rewrite fmap_last, El.
  - intros verify k. unfold TableCache_Get. change (number meta) with n. rewrite Hd. change (file_size meta) with (Z.of_nat (length file)).
    rewrite Ho. cbn [mbind option_bind]. apply Hg.
Qed.

Lemma holds_file_ok disk meta sorted : file_holds policy_name disk meta sorted -> is64 (number meta) -> is64 (file_size meta) ->
  Forall (fun o => bytes (MemTable.op_key o) /\ bytes (MemTable.op_value o)) sorted -> file_ok meta.
Proof.
  intros Hf Hn Hs Hb. pose proof (fh_ok _ _ _ _ Hf) as Hok. rewrite Forall_forall in Hb, Hok.
  assert (forall o, o ∈ sorted -> short (MemTable.op_ikey o)) as Hkey.
  { intros o Ho. split; [apply (op_kv_ok o (Hb o Ho))|]. rewrite MemTable.length_op_ikey. destruct (Hok o Ho) as (_ & _ & Hl & _). lia. }
  destruct (fh_smallest _ _ _ _ Hf) as (a & Ha & Es), (fh_largest _ _ _ _ Hf) as (b & Hb' & El). split_and!; [done|done| |].
  - rewrite Es. apply Hkey. destruct sorted; [done|]. injection Ha as ->. left.
  - rewrite El. apply Hkey. rewrite last_lookup in Hb'. by eapply list_elem_of_lookup_2.
Qed.
End table.

(** ** Choosing a level *)

Lemma GetOverlappingInputs_total level files begin end_ : level <> 0%nat -> exists r, GetOverlappingInputs level files begin end_ = Some r.
Proof.
  intros Hl. unfold GetOverlappingInputs.
  assert (forall fuel i b e inputs, (length files - i < fuel)%nat -> exists r, GetOverlappingInputs_loop fuel level files i b e inputs = Some r) as H.
  { induction fuel as [|fuel IH]; intros i b e inputs Hf; [lia|]. cbn [GetOverlappingInputs_loop].
    destruct (files !! i) as [f|] eqn:E; [|by eexists]. apply lookup_lt_Some in E.
    rewrite (proj2 (Nat.eqb_neq _ _) Hl). cbn [andb]. repeat destruct (_ <? _); apply IH; lia. }
  apply H. nia.
Qed.

Section levels.
Context `{FilterPolicy} `{Compression} (policy_name : option (list Z)) (disk : gmap Z (list Z)).
Abbreviation afile := (FileMetaData * list op)%type.
Abbreviation holds := (fun x : afile => file_holds policy_name disk (fst x) (snd x)).
Abbreviation level_ok := (VersionSet.level_ok policy_name disk).

(** The user keys of some operations are all outside of a range. *)
Definition outside (su lu : list Z) (ops : list op) : Prop :=
  forall o, o ∈ ops -> lex (MemTable.op_key o) su < 0 \/ lex lu (MemTable.op_key o) < 0.


Lemma overlap_zero fs su lu : Forall holds fs ->
  exists b, SomeFileOverlapsRange false (map fst fs) (Some su) (Some lu) = Some b /\ (b = false -> outside su lu (level_ops fs)).
Proof.
  intros Hall. eexists. split; [done|]. intros Hno o (x & Hx & Ho)%elem_of_level_ops. rewrite Forall_forall in Hall.
  destruct (file_user_bounds _ _ _ _ o (Hall x Hx) Ho) as [Hlo Hhi].
  destruct (AfterFile (Some su) (fst x) || BeforeFile (Some lu) (fst x)) eqn:E.
  - apply orb_prop in E as [E|E]; unfold AfterFile, BeforeFile, Bytewise_Compare in E; rewrite Slice_compare_lex in E; apply Z.ltb_lt in E.
    + left. apply (lex_le_lt _ _ _ Hhi). rewrite (lex_opp su). lia.
    + right. by apply (lex_lt_le _ _ _ E).
  - exfalso. apply not_true_iff_false in Hno. apply Hno, existsb_exists. exists (fst x). rewrite E. split; [|done].
    rewrite <- list_elem_of_In. by apply list_elem_of_fmap_2.
Qed.

Lemma before_small f ops su : file_holds policy_name disk f ops ->
  InternalKey_Compare (largest f) (su ++ EncodeFixed64 (PackSequenceAndType kMaxSequenceNumber kValueTypeForSeek)) < 0 ->
  lex (ExtractUserKey (largest f)) su < 0.
Proof.
  intros Hf Hc. destruct (fh_largest _ _ _ _ Hf) as (l & Hl & El). pose proof (fh_ok _ _ _ _ Hf) as Hok. rewrite Forall_forall in Hok.
  assert (MemTable.op_ok l) as Hlok by (apply Hok; rewrite last_lookup in Hl; by eapply list_elem_of_lookup_2).
  rewrite El in *. destruct (MemTable.op_ikey_parts l Hlok) as [Hu Ht]. apply InternalKey_Compare_lt in Hc as [Hc|[_ Hc]].
  - by rewrite ExtractUserKey_Encode in Hc.
  - exfalso. assert (is_seq kMaxSequenceNumber) as Hmax by (unfold is_seq, kMaxSequenceNumber; lia).
    assert (is_type kValueTypeForSeek) as Hty by (by right).
    rewrite key_tag_Encode, Ht in Hc by (by apply is64_pack). destruct Hlok as (Hs & Ht' & _).
    apply MemTable.pack_lt in Hc; [|done..]. unfold is_seq, is_type, kValueTypeForSeek, kTypeValue, kTypeDeletion in *. lia.
Qed.

(** In a deeper level: the files before the range, and those behind it. *)
Lemma overlap_deep level fs su lu : level <> 0%nat -> level_ok level fs ->
  exists b, SomeFileOverlapsRange true (map fst fs) (Some su) (Some lu) = Some b
    /\ (b = false -> exists lo hi, fs = lo ++ hi
          /\ (forall x, x ∈ lo -> lex (ExtractUserKey (largest (fst x))) su < 0)
          /\ (forall x, x ∈ hi -> lex lu (ExtractUserKey (smallest (fst x))) < 0)).
Proof.
  intros Hl Hlev. pose proof (lo_holds _ _ _ _ Hlev) as Hall. pose proof (lo_deep _ _ _ _ Hlev Hl) as Hdeep. rewrite Forall_forall in Hall.
  unfold SomeFileOverlapsRange. cbn [negb]. set (small := su ++ _).
  assert (forall i x, map fst fs !! i = Some x -> exists y, fs !! i = Some y /\ x = fst y) as Hlk.
  { intros i x. change (map fst fs) with (fst <$> fs). rewrite list_lookup_fmap. destruct (fs !! i) as [y|]; cbn; intros [= <-]. by exists y. }
  destruct (FindFile_spec (map fst fs) small (deep_mono _ _ _ _ small Hl Hlev)) as (i & -> & Hi & Hbefore & _).
  cbn [mbind option_bind]. rewrite length_map in *. rewrite Nat2Z.id.
  assert (forall x, x ∈ take i fs -> lex (ExtractUserKey (largest (fst x))) su < 0) as Hlo.
  { intros x [j Hj]%list_elem_of_lookup. apply lookup_take_Some in Hj as [Hj Hlt]. eapply before_small; [apply Hall; by eapply list_elem_of_lookup_2|].
    apply (Hbefore j); [done|]. change (map fst fs) with (fst <$> fs). by rewrite list_lookup_fmap, Hj. }
  destruct (Z.leb_spec (Z.of_nat (length fs)) (Z.of_nat i)) as [Hge|Hlt].
  { exists false. split; [done|]. intros _. exists fs, []. rewrite app_nil_r. split_and!; [done| |intros x Hx; by apply elem_of_nil in Hx].
    intros x Hx. apply Hlo. by rewrite take_ge by lia. }
  destruct (lookup_lt_is_Some_2 fs i) as [x Hx]; [lia|]. change (map fst fs) with (fst <$> fs). rewrite list_lookup_fmap, Hx.
  cbn [fmap option_fmap option_map mbind option_bind]. eexists. split; [done|]. intros Hb. exists (take i fs), (drop i fs).
  split_and!; [by rewrite take_drop|done|]. apply negb_false_iff in Hb. unfold BeforeFile, Bytewise_Compare in Hb.
  rewrite Slice_compare_lex in Hb. apply Z.ltb_lt in Hb. intros y [j Hj]%list_elem_of_lookup. rewrite lookup_drop in Hj.
  destruct j as [|j]; [rewrite Nat.add_0_r in Hj; by simplify_eq|]. apply (lex_lt_le _ _ _ Hb), user_key_le, Z.lt_le_incl.
  apply (Compare_le_lt _ (largest (fst x))).
  - apply (file_self _ _ _ _ (Hall x ltac:(by eapply list_elem_of_lookup_2))).
  - apply (sorted_lookup _ fs i (i + S j) x y Hdeep); [lia|done|done].
Qed.

(** Where a file can go: some files before it, the others behind it. *)
Definition room (su lu : list Z) (fs : list afile) : Prop :=
  exists lo hi, fs = lo ++ hi
    /\ (forall x, x ∈ lo -> lex (ExtractUserKey (largest (fst x))) su < 0)
    /\ (forall x, x ∈ hi -> lex lu (ExtractUserKey (smallest (fst x))) < 0).

Lemma room_outside su lu fs : Forall holds fs -> room su lu fs -> outside su lu (level_ops fs).
Proof.
  intros Hall (lo & hi & -> & Hlo & Hhi) o (x & Hx & Ho)%elem_of_level_ops. rewrite Forall_forall in Hall.
  destruct (file_user_bounds _ _ _ _ o (Hall x Hx) Ho) as [H1 H2]. apply elem_of_app in Hx as [Hx|Hx].
  - left. by apply (lex_le_lt _ _ _ H2), Hlo.
  - right. by apply (lex_lt_le _ _ _ (Hhi x Hx)).
Qed.

Lemma files_at (levels : list (list afile)) l fs : levels !! l = Some fs -> files_ (map (map fst) levels) l = map fst fs.
Proof. intros Hl. unfold files_. change (map (map fst) levels) with (map fst <$> levels). by rewrite list_lookup_fmap, Hl. Qed.

Context (levels : list (list afile)) (Levels : levels_ok policy_name disk 0 levels) (Seven : length levels = kNumLevels).
Abbreviation v := (map (map fst) levels).

Lemma OverlapInLevel_deep l su lu : (0 < l < kNumLevels)%nat ->
  exists b, OverlapInLevel v l su lu = Some b /\ (b = false -> forall fs, levels !! l = Some fs -> room su lu fs).
Proof.
  intros Hl. destruct (lookup_lt_is_Some_2 levels l) as [fs Hfs]; [lia|]. unfold OverlapInLevel. rewrite (files_at _ _ _ Hfs).
  rewrite (proj2 (Nat.ltb_lt 0 l)) by lia. destruct (overlap_deep l fs su lu) as (b & E & Hb); [lia|by apply (proj1 Levels l)|].
  exists b. split; [done|]. intros Hf fs' Hfs'. simplify_eq. by apply Hb.
Qed.

Lemma PickLevel_loop_spec todo su lu level :
  (level + todo <= kMaxMemCompactLevel)%nat ->
  exists L, PickLevel_loop todo v su lu level = Some L /\ (level <= L <= kMaxMemCompactLevel)%nat
    /\ forall l fs, (level < l <= L)%nat -> levels !! l = Some fs -> room su lu fs.
Proof.
  unfold kMaxMemCompactLevel. revert level. induction todo as [|todo IH]; intros level Ht; cbn [PickLevel_loop].
  { exists level. split_and!; [done|lia|lia|]. intros l fs Hl. lia. }
  destruct (OverlapInLevel_deep (level + 1) su lu) as (b & -> & Hb); [unfold kNumLevels; lia|]. cbn [mbind option_bind].
  destruct b. { exists level. split_and!; [done|lia|lia|]. intros l fs Hl. lia. }
  assert (exists L, PickLevel_loop todo v su lu (level + 1) = Some L /\ (level <= L <= 2)%nat
    /\ forall l fs, (level < l <= L)%nat -> levels !! l = Some fs -> room su lu fs) as Hnext.
  { destruct (IH (level + 1)%nat ltac:(lia)) as (L & E & HL & Hr). exists L. split_and!; [done|lia|lia|].
    intros l fs Hl Hfs. destruct (decide (l = (level + 1)%nat)) as [->|]; [by apply Hb|]. apply (Hr l); [lia|done]. }
  destruct (_ <? kNumLevels)%nat; [|done].
  destruct (GetOverlappingInputs_total (level + 2) (files_ v (level + 2))
    (su ++ EncodeFixed64 (PackSequenceAndType kMaxSequenceNumber kValueTypeForSeek)) (lu ++ EncodeFixed64 (PackSequenceAndType 0 0)))
    as [r ->]; [lia|]. cbn [mbind option_bind]. destruct (_ <? _); [|done].
  exists level. split_and!; [done|lia|lia|]. intros l fs Hl. lia.
Qed.

Lemma PickLevel_spec su lu :
  exists L, PickLevelForMemTableOutput v su lu = Some L /\ (L <= kMaxMemCompactLevel)%nat
    /\ (forall l fs, (0 < l <= L)%nat -> levels !! l = Some fs -> room su lu fs)
    /\ (L <> 0%nat -> forall fs, levels !! 0%nat = Some fs -> outside su lu (level_ops fs)).
Proof.
  unfold PickLevelForMemTableOutput, OverlapInLevel. destruct (lookup_lt_is_Some_2 levels 0) as [fs Hfs]; [unfold kNumLevels in *; lia|].
  rewrite (files_at _ _ _ Hfs). destruct (overlap_zero fs su lu) as (b & E & Hb); [apply (lo_holds _ _ _ _ (proj1 Levels 0%nat fs Hfs))|].
  cbn [Nat.ltb Nat.leb]. rewrite E. cbn [mbind option_bind]. destruct b.
  { exists 0%nat. split_and!; [done|lia|intros l fs' Hl; lia|done]. }
  destruct (PickLevel_loop_spec kMaxMemCompactLevel su lu 0) as (L & EL & HL & Hr); [lia|]. exists L. split_and!; [done|lia|done|].
  intros _ fs' Hfs'. simplify_eq. by apply Hb.
Qed.
End levels.

(** ** The new version *)

Lemma user_key_lt a b : lex (ExtractUserKey a) (ExtractUserKey b) < 0 -> InternalKey_Compare a b < 0.
Proof. intros Hl. apply InternalKey_Compare_lt. by left. Qed.

Section flush.
Context `{FilterPolicy} `{Compression} (policy_name : option (list Z)).
Abbreviation afile := (FileMetaData * list op)%type.

Lemma holds_more disk n file f ops :
  number f <> n -> file_holds policy_name disk f ops -> file_holds policy_name (<[n := file]> disk) f ops.
Proof.
  intros Hn [Hok Hs Hsm Hla Hget]. split; [done..|]. intros verify k. unfold TableCache_Get. rewrite lookup_insert_ne by done. apply Hget.
Qed.

Lemma level_more disk n file level fs :
  (forall x, x ∈ fs -> number (fst x) < n) -> level_ok policy_name disk level fs -> level_ok policy_name (<[n := file]> disk) level fs.
Proof.
  intros Hn [Hall Hzero Hdeep]. split; [|done..]. rewrite Forall_forall in *. intros x Hx. apply holds_more; [|by apply Hall].
  specialize (Hn x Hx). lia.
Qed.

Context (disk : gmap Z (list Z)) (meta : FileMetaData) (ops : list op) (Meta : file_holds policy_name disk meta ops).

Lemma insert_zero p fs :
  level_ok policy_name disk 0 fs -> (forall x, x ∈ fs -> number (fst x) < number meta) ->
  newer_than ops (level_ops fs) -> level_ok policy_name disk 0 (insert_at p (meta, ops) fs).
Proof.
  intros [Hall Hzero _] Hn Hnew. destruct (Hzero eq_refl) as [Hnd Hold].
  pose proof (insert_at_perm p (meta, ops) fs) as Hp.
  split; [|intros _|done].
  - rewrite Hp. by constructor.
  - split.
    + rewrite Hp. cbn [map fst]. constructor; [|done]. intros (x & E & Hx)%list_elem_of_fmap. specialize (Hn x Hx). lia.
    + intros x y Hx Hy Hlt. rewrite Hp in Hx, Hy. apply elem_of_cons in Hx as [->|Hx], Hy as [->|Hy]; cbn [fst snd] in *; [lia| | |by apply Hold].
      * intros o o' Ho Ho'. apply Hnew; [done|]. apply elem_of_level_ops. by exists y.
      * specialize (Hn x Hx). lia.
Qed.

Lemma insert_deep level p fs :
  level <> 0%nat -> level_ok policy_name disk level fs ->
  room (ExtractUserKey (smallest meta)) (ExtractUserKey (largest meta)) fs ->
  (forall g, g ∈ take p (map fst fs) -> BySmallestKey meta g = false) ->
  (forall g, head (drop p (map fst fs)) = Some g -> BySmallestKey meta g = true) ->
  level_ok policy_name disk level (insert_at p (meta, ops) fs).
Proof.
  intros Hl Hlev (lo & hi & Efs & Hlo & Hhi) Hbefore Hbehind. pose proof Hlev as [Hall _ Hdeep]. specialize (Hdeep Hl).
  rewrite Forall_forall in Hall. pose proof (file_self _ _ _ _ Meta) as Hself.
  assert (forall x, x ∈ lo -> InternalKey_Compare (largest (fst x)) (smallest meta) < 0) as Hlo' by (intros x Hx; by apply user_key_lt, Hlo).
  assert (forall x, x ∈ hi -> InternalKey_Compare (largest meta) (smallest (fst x)) < 0) as Hhi' by (intros x Hx; by apply user_key_lt, Hhi).
  assert (forall x, x ∈ fs -> x ∈ lo \/ x ∈ hi) as Hcase by (intros x; rewrite Efs; apply elem_of_app).
  assert (forall x, x ∈ fs -> InternalKey_Compare (smallest (fst x)) (largest (fst x)) <= 0) as Hselfs by (intros x Hx; eapply file_self, Hall, Hx).
  assert (forall x, x ∈ take p fs -> InternalKey_Compare (largest (fst x)) (smallest meta) < 0) as Htake.
  { intros x Hx. assert (x ∈ fs) as Hxf by (by eapply elem_of_take in Hx as (? & ? & _); eapply list_elem_of_lookup_2).
    destruct (Hcase x Hxf) as [|Hx']; [by apply Hlo'|]. exfalso.
    assert (BySmallestKey meta (fst x) = false) as Hb%BySmallestKey_false by (apply Hbefore; rewrite firstn_map; by apply list_elem_of_fmap_2).
    pose proof (Compare_le_lt _ _ _ Hself (Hhi' x Hx')). lia. }
  assert (forall x, x ∈ drop p fs -> InternalKey_Compare (largest meta) (smallest (fst x)) < 0) as Hdrop.
  { intros x Hx. pose proof Hx as [j Hj]%list_elem_of_lookup. pose proof Hj as Hj'. rewrite lookup_drop in Hj'.
    assert (x ∈ fs) as Hxf by (by eapply list_elem_of_lookup_2). destruct (Hcase x Hxf) as [Hx'|]; [|by apply Hhi']. exfalso.
    destruct (drop p fs) as [|h rest] eqn:Ed; [done|]. assert (fs !! p = Some h) as Hh by (rewrite <- (Nat.add_0_r p), <- lookup_drop, Ed; done).
    assert (h ∈ fs) as Hhf by (by eapply list_elem_of_lookup_2).
    assert (BySmallestKey meta (fst h) = true) as Hb%BySmallestKey_true by (apply Hbehind; by rewrite skipn_map, Ed).
    assert (InternalKey_Compare (smallest (fst h)) (smallest meta) < 0) as Hc; [|rewrite (InternalKey_Compare_opp (smallest meta)) in Hc; lia].
    apply (Compare_le_lt _ (largest (fst x))); [|by apply Hlo']. destruct j as [|j].
    - rewrite Nat.add_0_r in Hj'. simplify_eq. by apply Hselfs.
    - apply Z.lt_le_incl, (Compare_le_lt _ _ _ (Hselfs h Hhf)). eapply Compare_lt_le; [|by apply (Hselfs x)].
      apply (sorted_lookup _ fs p (p + S j) h x Hdeep); [lia|done|done]. }
  rewrite <- (take_drop p fs) in Hdeep. apply StronglySorted_app in Hdeep as (Hcross & Hd1 & Hd2).
  split; [|done|intros _].
  - apply Forall_forall. intros x Hx. unfold insert_at in Hx. rewrite elem_of_app, elem_of_cons in Hx.
    destruct Hx as [Hx|[->|Hx]]; [|done|]; apply Hall; rewrite <- (take_drop p fs); apply elem_of_app; auto.
  - unfold insert_at. apply StronglySorted_app. split_and!; [|done|].
    + intros x y Hx [->|Hy]%elem_of_cons; [by apply Htake|by apply Hcross].
    + constructor; [done|]. apply Forall_forall. intros y Hy. by apply Hdrop.
Qed.
End flush.

(** ** A version that holds a history *)

Section version.
Context `{FilterPolicy} `{!UserKeyFilter} `{Compression} (policy_name : option (list Z)).
Abbreviation afile := (FileMetaData * list op)%type.
Definition seq_lt (o o' : op) : Prop := MemTable.op_seq o < MemTable.op_seq o'.

(** A version answers for the operations [all], with its tables on [disk] under numbers
    below [next]. *)
Record version_holds (disk : gmap Z (list Z)) (v : Version) (next : Z) (all : list op) : Prop := {
  vh_levels : exists levels : list (list afile), v = map (map fst) levels /\ length levels = kNumLevels
    /\ levels_ok policy_name disk 0 levels
    /\ (forall fs x, fs ∈ levels -> x ∈ fs -> number (fst x) < next)
    /\ forall o, o ∈ all <-> o ∈ version_ops levels;
  vh_sorted : StronglySorted seq_lt all }.

Lemma version_holds_mono disk v next next' all : version_holds disk v next all -> next <= next' -> version_holds disk v next' all.
Proof.
  intros [(levels & H1' & H2' & H3' & Hn & H5') Hs] Hle. split; [|done]. exists levels. split_and!; try done.
  intros fs x Hfs Hx. specialize (Hn fs x Hfs Hx). lia.
Qed.

Lemma version_get disk v next all verify k s :
  version_holds disk v next all -> is_seq s -> Z.of_nat (length k) + 8 < 0x1_0000_0000 ->
  exists stats, Version_Get policy_name disk verify v k s
    = Some (match MemTable.answer (MemTable.newest k s all) with MemTable.Found x => (OK, Some x) | _ => (NotFound, None) end, stats).
Proof.
  intros [(levels & -> & _ & Hl & _ & He) Hs] Hseq Hk. unfold Version_Get.
  destruct (search_levels_spec policy_name disk verify 0 levels k s {| seek_file := None; last_file_read := None |} Hseq Hk Hl) as (r & stats & -> & Hr).
  exists stats. rewrite (is_newest_newest k s (version_ops levels) all r Hs He Hr). destruct r as [o|]; [|done]. cbn [saver_of MemTable.answer].
  by destruct (_ =? _).
Qed.

Lemma seq_lt_app l l' : StronglySorted seq_lt l -> StronglySorted seq_lt l' -> Forall (fun o => Forall (seq_lt o) l') l -> StronglySorted seq_lt (l ++ l').
Proof.
  intros Hl Hl' Hx. apply StronglySorted_app. split_and!; [|done|done]. intros o o' Ho Ho'. rewrite Forall_forall in Hx.
  specialize (Hx o Ho). rewrite Forall_forall in Hx. by apply Hx.
Qed.

Lemma level_ops_insert p (x : afile) fs o : o ∈ level_ops (insert_at p x fs) <-> o ∈ snd x \/ o ∈ level_ops fs.
Proof. unfold level_ops. rewrite insert_at_perm. cbn [map concat]. apply elem_of_app. Qed.

(** Putting a file into a level. *)
Lemma levels_insert disk (levels : list (list afile)) L p meta ops fs :
  levels_ok policy_name disk 0 levels -> levels !! L = Some fs ->
  level_ok policy_name disk L (insert_at p (meta, ops) fs) ->
  (forall l fs', (l < L)%nat -> levels !! l = Some fs' -> newer_than (level_ops fs') ops) ->
  (forall l fs', (L < l)%nat -> levels !! l = Some fs' -> newer_than ops (level_ops fs')) ->
  levels_ok policy_name disk 0 (<[L := insert_at p (meta, ops) fs]> levels).
Proof.
  intros [Hall Hsort] Hfs Hok Habove Hbelow.
  pose proof (fun o => level_ops_insert p (meta, ops) fs o) as Hin. cbn [snd] in Hin.
  pose proof (lookup_lt_Some _ _ _ Hfs) as HL. split.
  - intros l fs' Hl. destruct (decide (l = L)) as [->|Hne].
    + rewrite list_lookup_insert_eq in Hl by done. by simplify_eq.
    + rewrite list_lookup_insert_ne in Hl by done. by apply Hall.
  - apply sorted_of_lookup. intros i j x y Hij Hx Hy. destruct (decide (i = L)) as [->|Hi]; [|destruct (decide (j = L)) as [->|Hj]].
    + rewrite list_lookup_insert_eq in Hx by done. simplify_eq. rewrite list_lookup_insert_ne in Hy by lia.
      intros o o' [Ho|Ho]%Hin Ho' E; [by apply (Hbelow j y)|]. by apply (sorted_lookup _ levels L j fs y Hsort).
    + rewrite list_lookup_insert_eq in Hy by done. simplify_eq. rewrite list_lookup_insert_ne in Hx by lia.
      intros o o' Ho [Ho'|Ho']%Hin E; [by apply (Habove i x)|]. by apply (sorted_lookup _ levels i L x fs Hsort).
    + rewrite list_lookup_insert_ne in Hx, Hy by done. by apply (sorted_lookup _ levels i j x y Hsort).
Qed.

Lemma levels_more disk n file (levels : list (list afile)) :
  (forall fs x, fs ∈ levels -> x ∈ fs -> number (fst x) < n) -> levels_ok policy_name disk 0 levels ->
  levels_ok policy_name (<[n := file]> disk) 0 levels.
Proof.
  intros Hn [Hall Hsort]. split; [|done]. intros i fs Hi. apply level_more; [|by apply Hall]. intros x. apply Hn. by eapply list_elem_of_lookup_2.
Qed.

Lemma outside_newer disk meta ops opsA :
  file_holds policy_name disk meta ops -> outside (ExtractUserKey (smallest meta)) (ExtractUserKey (largest meta)) opsA -> newer_than opsA ops.
Proof.
  intros Hm Hout o o' Ho Ho' E. exfalso. destruct (file_user_bounds _ _ _ _ o' Hm Ho') as [Hlo Hhi]. rewrite <- E in Hlo, Hhi.
  destruct (Hout o Ho) as [Hc|Hc].
  - rewrite (lex_opp (MemTable.op_key o)) in Hlo. lia.
  - pose proof (lex_lt_le _ _ _ Hc Hhi) as Hx. rewrite lex_refl in Hx. lia.
Qed.

(** The level for a new file, with or without a choice. *)
Lemma level_choice disk (levels : list (list afile)) (base : option Version) su lu :
  length levels = kNumLevels -> levels_ok policy_name disk 0 levels -> (base = None \/ base = Some (map (map fst) levels)) ->
  exists L, match base with Some v => PickLevelForMemTableOutput v su lu | None => Some 0%nat end = Some L /\ (L < kNumLevels)%nat
    /\ (forall l fs, (0 < l <= L)%nat -> levels !! l = Some fs -> room su lu fs)
    /\ (forall l fs, (l < L)%nat -> levels !! l = Some fs -> outside su lu (level_ops fs)).
Proof.
  intros Hlen Hok [->| ->]; [exists 0%nat; split_and!; [done|unfold kNumLevels; lia|intros; lia|intros; lia]|].
  destruct (PickLevel_spec policy_name disk levels Hok Hlen su lu) as (L & HL & Hmax & Hroom & Hzero). exists L.
  split_and!; [done|unfold kNumLevels, kMaxMemCompactLevel in *; lia|done|]. intros l fs Hl Hfs. destruct (decide (l = 0%nat)) as [->|].
  - by apply Hzero; [lia|].
  - apply (room_outside policy_name disk); [apply (lo_holds _ _ _ _ (proj1 Hok l fs Hfs))|]. by apply (Hroom l); [lia|].
Qed.

Lemma map_insert_at {A B} (f : A -> B) p x l : map f (insert_at p x l) = insert_at p (f x) (map f l).
Proof. unfold insert_at. rewrite map_app. cbn [map]. by rewrite firstn_map, skipn_map. Qed.

Lemma version_ops_insert (levels : list (list afile)) L p x fs o :
  levels !! L = Some fs -> o ∈ version_ops (<[L := insert_at p x fs]> levels) <-> o ∈ version_ops levels \/ o ∈ snd x.
Proof.
  intros Hfs. pose proof (lookup_lt_Some _ _ _ Hfs) as HL. rewrite <- (take_drop_middle levels L fs Hfs) at 2.
  rewrite insert_take_drop by done. unfold version_ops. rewrite !map_app, !concat_app. cbn [map concat]. rewrite !elem_of_app.
  rewrite level_ops_insert. tauto.
Qed.

Context (interval block_size compression : Z) (Interval : 1 <= interval) (Name : name_ok policy_name).
Abbreviation write_table := (WriteLevel0Table interval block_size compression policy_name).
Abbreviation save edit v := (SaveTo (Apply edit new_Builder) v).

Lemma flush_file disk levels next all n base meta file ops sorted :
  length levels = kNumLevels -> levels_ok policy_name disk 0 levels ->
  (forall fs x, fs ∈ levels -> x ∈ fs -> number (fst x) < next) -> (forall o, o ∈ all <-> o ∈ version_ops levels) ->
  Forall (fun o => Forall (seq_lt o) ops) all -> next <= n -> (base = None \/ base = Some (map (map fst) levels)) ->
  number meta = n -> sorted ≡ₚ ops -> file_holds policy_name (<[n := file]> disk) meta sorted ->
  exists L levels', match base with Some v => PickLevelForMemTableOutput v (ExtractUserKey (smallest meta)) (ExtractUserKey (largest meta))
                    | None => Some 0%nat end = Some L /\ (L < kNumLevels)%nat
    /\ save (AddFile L meta new_VersionEdit) (map (map fst) levels) = map (map fst) levels'
    /\ length levels' = kNumLevels /\ levels_ok policy_name (<[n := file]> disk) 0 levels'
    /\ (forall fs x, fs ∈ levels' -> x ∈ fs -> number (fst x) < n + 1) /\ forall o, o ∈ all ++ ops <-> o ∈ version_ops levels'.
Proof.
  intros Hlen Hok Hnum He Hold Hn Hbase Hmeta Hp Hf.
  destruct (level_choice disk levels base (ExtractUserKey (smallest meta)) (ExtractUserKey (largest meta)) Hlen Hok Hbase) as (L & HL & Hlt & Hroom & Hout).
  assert (levels_ok policy_name (<[n := file]> disk) 0 levels) as Hok'.
  { apply levels_more; [|done]. intros fs x Hfs Hx. specialize (Hnum fs x Hfs Hx). lia. }
  destruct (lookup_lt_is_Some_2 levels L) as [fs Hfs]; [lia|]. pose proof (list_elem_of_lookup_2 _ _ _ Hfs) as Hfsin.
  destruct (SaveTo_add L meta (map (map fst) levels) (map fst fs)) as (p & Hsave & Hpl & Hbefore & Hbehind).
  { change (map (map fst) levels) with (map fst <$> levels). by rewrite list_lookup_fmap, Hfs. }
  assert (forall l fs', levels !! l = Some fs' -> newer_than sorted (level_ops fs')) as Hnewer.
  { intros l fs' Hl o o' Ho Ho' _. rewrite Hp in Ho. rewrite Forall_forall in Hold.
    assert (o' ∈ all) as Hall by (apply He, elem_of_version_ops; exists fs'; split; [by eapply list_elem_of_lookup_2|done]).
    specialize (Hold o' Hall). rewrite Forall_forall in Hold. by apply Hold. }
  exists L, (<[L := insert_at p (meta, sorted) fs]> levels). split_and!; [done|done| |by rewrite length_insert| | |].
  - rewrite Hsave. change (map (map fst) ?l) with (map fst <$> l). rewrite list_fmap_insert. by rewrite map_insert_at.
  - apply levels_insert; [done|done| | |intros l fs' _; apply Hnewer].
    + destruct (decide (L = 0%nat)) as [->|HL0].
      * apply insert_zero; [done|by apply (proj1 Hok' 0%nat)| |by apply (Hnewer 0%nat)]. intros x Hx. specialize (Hnum fs x Hfsin Hx). lia.
      * apply insert_deep; [done|done|by apply (proj1 Hok' L)| |done|done]. by apply (Hroom L); [lia|].
    + intros l fs' Hl Hfs'. eapply outside_newer; [exact Hf|]. by apply (Hout l).
  - intros fs' x Hfs' Hx. apply list_elem_of_lookup in Hfs' as [l Hl]. destruct (decide (l = L)) as [->|Hne].
    + rewrite list_lookup_insert_eq in Hl by lia. simplify_eq. rewrite insert_at_perm in Hx.
      apply elem_of_cons in Hx as [->|Hx]; [cbn; lia|]. specialize (Hnum fs x Hfsin Hx). lia.
    + rewrite list_lookup_insert_ne in Hl by done. specialize (Hnum fs' x (list_elem_of_lookup_2 _ _ _ Hl) Hx). lia.
  - intros o. rewrite (version_ops_insert levels L p (meta, sorted) fs o Hfs), elem_of_app, He. cbn [snd]. by rewrite Hp.
Qed.

Lemma flush_holds disk v next all n mem ops base :
  version_holds disk v next all -> MemTable.mem_inv mem ops -> writable interval block_size compression policy_name mem ops ->
  Forall (fun o => Forall (seq_lt o) ops) all -> next <= n -> (base = None \/ base = Some v) ->
  exists edit disk', write_table mem n new_VersionEdit base disk = Some (OK, edit, disk')
    /\ version_holds disk' (save edit v) (n + 1) (all ++ ops)
    /\ (ops = [] -> edit = new_VersionEdit /\ disk' = disk)
    /\ (ops <> [] -> exists L meta file, (L < kNumLevels)%nat /\ edit = AddFile L meta new_VersionEdit /\ number meta = n /\ (is64 n -> file_ok meta)
          /\ disk' = <[n := file]> disk).
Proof.
  intros [(levels & -> & Hlen & Hok & Hnum & He) Hs] Hm Hw Hold Hn Hbase. unfold WriteLevel0Table.
  assert (StronglySorted seq_lt (all ++ ops)) as Hs' by (apply seq_lt_app; [done|apply Hm|done]).
  destruct (decide (ops = [])) as [->|Hne].
  - destruct (mem_entries_spec mem [] Hm) as (sorted & Hent & ->%Permutation_nil_r & _). unfold BuildTable. rewrite Hent. cbn [mbind option_bind map].
    exists new_VersionEdit, disk. split; [done|]. split; [|done]. split; [|done]. exists levels. rewrite app_nil_r.
    split_and!; [apply SaveTo_new|done|done| |done]. intros fs x Hfs Hx. specialize (Hnum fs x Hfs Hx). lia.
  - destruct (BuildTable_spec interval block_size compression policy_name Interval Name n mem ops Hm Hne Hw) as (meta & file & sorted & -> & Hmeta & Hsize & Hp & Hfile).
    cbn [mbind option_bind].
    destruct (flush_file disk levels next all n base meta file ops sorted) as (L & levels' & -> & HL & Hsave & Hlen' & Hok' & Hnum' & He'); try done.
    { apply Hfile. by rewrite lookup_insert_eq. }
    cbn [mbind option_bind]. exists (AddFile L meta new_VersionEdit), (<[n := file]> disk). split; [done|]. split; [|split; [done|]].
    + split; [|done]. by exists levels'.
    + intros _. exists L, meta, file. split_and!; [done|done|done| |done]. intros Hn64.
      apply (holds_file_ok policy_name (<[n := file]> disk) meta sorted); [apply Hfile; by rewrite lookup_insert_eq|by rewrite Hmeta|done|rewrite Hp; apply Hw].
Qed.
End version.

(** ** Claims *)

(** C15: Reading a version.  A version that holds a history of writes, whose levels meet the
    conditions that the code keeps (files of level 0 newer under higher numbers, files of a
    deeper level in order and apart, each level newer than those below), answers every read at
    every snapshot with the newest write to the key that the snapshot may see: its value, or
    that there is none.  The search over levels and files, the index, filter and block of every
    table it asks, and the parsing of the entry that is found, never fail. *)
Theorem version_get_newest `{FilterPolicy} `{!UserKeyFilter} `{Compression} (policy_name : option (list Z))
    (disk : gmap Z (list Z)) (v : Version) (next : Z) (all : list op) (verify_checksums : bool) (k : list Z) (s : Z) :
  version_holds policy_name disk v next all -> is_seq s -> Z.of_nat (length k) + 8 < 0x1_0000_0000 ->
  exists stats, Version_Get policy_name disk verify_checksums v k s
    = Some (match MemTable.answer (MemTable.newest k s all) with MemTable.Found x => (OK, Some x) | _ => (NotFound, None) end, stats).
Proof. apply version_get. Qed.

(** C16: Writing a table in memory to a file.  A table in memory with operations that are newer
    than those of a version becomes a table file in the level that the code picks for it; the
    version with that file then holds the operations of both.  The code does not fail; a table
    without operations makes no file.  The sizes are those that the formats can hold. *)
Theorem flush_refines `{FilterPolicy} `{!UserKeyFilter} `{Compression} (policy_name : option (list Z))
    (interval block_size compression : Z) (disk : gmap Z (list Z)) (v : Version) (next n : Z) (all ops : list op)
    (mem : SkipList (list Z)) (base : option Version) :
  1 <= interval -> name_ok policy_name ->
  version_holds policy_name disk v next all -> MemTable.mem_inv mem ops ->
  writable interval block_size compression policy_name mem ops ->
  Forall (fun o => Forall (seq_lt o) ops) all -> next <= n -> (base = None \/ base = Some v) ->
  exists edit disk', WriteLevel0Table interval block_size compression policy_name mem n new_VersionEdit base disk = Some (OK, edit, disk')
    /\ version_holds policy_name disk' (SaveTo (Apply edit new_Builder) v) (n + 1) (all ++ ops).
Proof.
  intros Hi Hname Hv Hm Hw Hold Hn Hb.
  destruct (flush_holds policy_name interval block_size compression Hi Hname disk v next all n mem ops base) as (edit & disk' & H1' & H2' & _); try done.
  by exists edit, disk'.
Qed.

(** ** A database with one table *)

Lemma empty_version_holds `{FilterPolicy} `{Compression} policy_name disk next : version_holds policy_name disk empty_version next [].
Proof.
  split; [|constructor]. exists (replicate kNumLevels []). split_and!; [done|done| | |].
  - assert (forall i (fs : list (FileMetaData * list op)), replicate kNumLevels [] !! i = Some fs -> fs = []) as Hnil
      by (intros i fs Hi; by apply lookup_replicate in Hi as [-> _]).
    split.
    + intros i fs ->%Hnil. split; [constructor| |constructor]. split; [constructor|]. intros x y Hx. by apply elem_of_nil in Hx.
    + apply sorted_of_lookup. intros i j fs fs' _ ->%Hnil _ o o' Ho. by apply elem_of_nil in Ho.
  - intros fs x Hfs Hx. apply list_elem_of_lookup in Hfs as [i Hi]. apply lookup_replicate in Hi as [-> _]. by apply elem_of_nil in Hx.
  - done.
Qed.

Definition op_a : op := {| MemTable.op_seq := 1; MemTable.op_type := kTypeValue; MemTable.op_key := [97]; MemTable.op_value := [1; 0; 0; 0] |}.
Definition op_b : op := {| MemTable.op_seq := 2; MemTable.op_type := kTypeValue; MemTable.op_key := [98]; MemTable.op_value := [2] |}.
Definition op_c : op := {| MemTable.op_seq := 3; MemTable.op_type := kTypeDeletion; MemTable.op_key := [97]; MemTable.op_value := [] |}.
Definition some_ops : list op := [op_a; op_b; op_c].
Definition some_mem : SkipList (list Z) := default MemTable.new_MemTable (MemTable.add_all some_ops MemTable.new_MemTable).

Lemma some_mem_inv : MemTable.mem_inv some_mem some_ops.
Proof.
  destruct (MemTable.add_all_spec some_ops MemTable.new_MemTable [] MemTable.new_MemTable_inv) as (mem & E & Hm).
  - repeat constructor; unfold is_seq, is_type, kMaxSequenceNumber; cbn; auto; lia.
  - repeat constructor.
  - unfold some_mem. by rewrite E.
Qed.

Abbreviation some_policy := (InternalFilterPolicy (bloom_policy 10)).
Lemma some_writable : @writable some_policy zero_runs 2 30 kSnappyCompression (Some [98]) some_mem some_ops.
Proof.
  split.
  - repeat constructor; unfold is8; cbn; lia.
  - assert (mem_entries some_mem = Some (map op_kv [op_c; op_a; op_b])) as -> by (vm_compute; reflexivity).
    intros es [= <-]. split; vm_compute; reflexivity.
Qed.
Lemma some_name : name_ok (Some [98]).
Proof. split; [repeat constructor|cbn]; unfold is8; lia. Qed.

Lemma version_get_newest_witness :
  exists edit disk stats, @WriteLevel0Table some_policy zero_runs 2 30 kSnappyCompression (Some [98]) some_mem 3 new_VersionEdit (Some empty_version) ∅
      = Some (OK, edit, disk)
    /\ @Version_Get some_policy zero_runs (Some [98]) disk true (SaveTo (Apply edit new_Builder) empty_version) [98] 2 = Some (OK, Some [2], stats).
Proof.
  destruct (@flush_holds some_policy _ zero_runs (Some [98]) 2 30 kSnappyCompression ltac:(lia) some_name ∅ empty_version 2 [] 3 some_mem some_ops (Some empty_version))
    as (edit & disk & Hw & Hv & _); [apply empty_version_holds|apply some_mem_inv|apply some_writable|constructor|lia|by right|].
  destruct (@version_get_newest some_policy _ zero_runs (Some [98]) disk (SaveTo (Apply edit new_Builder) empty_version) 4 some_ops true [98] 2) as [stats Hs].
  - exact Hv.
  - unfold is_seq, kMaxSequenceNumber. lia.
  - reflexivity.
  - exists edit, disk, stats. split; [exact Hw|exact Hs].
Defined.

Lemma flush_refines_witness :
  exists edit disk, @WriteLevel0Table some_policy zero_runs 2 30 kSnappyCompression (Some [98]) some_mem 3 new_VersionEdit (Some empty_version) ∅
      = Some (OK, edit, disk)
    /\ @version_holds some_policy zero_runs (Some [98]) disk (SaveTo (Apply edit new_Builder) empty_version) 4 some_ops.
Proof.
  apply (@flush_refines some_policy _ zero_runs (Some [98]) 2 30 kSnappyCompression ∅ empty_version 2 3 [] some_ops some_mem (Some empty_version)).
  - lia.
  - apply some_name.
  - apply empty_version_holds.
  - apply some_mem_inv.
  - apply some_writable.
  - constructor.
  - lia.
  - by right.
Defined.

(** The same table goes to level 2 of an empty version. *)
Example flush_level :
  (fun '(s, edit, _) => (s, map fst (new_files_ edit)))
    <$> @WriteLevel0Table some_policy zero_runs 2 30 kSnappyCompression (Some [98]) some_mem 3 new_VersionEdit (Some empty_version) ∅
  = Some (OK, [2%nat]).
Proof. vm_compute. reflexivity. Qed.
