(* ===== verification/TableLaws.v ===== *)
(** * The tables of the database and the code behind them

    DbImpl.v takes its tables from the class [TableStore]; VersionSet.v and Level0.v model the
    code that keeps them in files.  Here both are shown to obey one set of laws, [table_laws]:
    every [TableStore] does, and so do the levels of table files of Level0.v, for tables in
    memory whose files the formats can hold and as long as there are file numbers. *)
From stdpp Require Import base numbers option sets gmap list sorting strings.
From S2P Require Import Prelude DbImpl.
From S2P Require Import Coding SkipList DbFormat MemTable WriteBatch Bloom FilterBlock TableBlock TableFile VersionEdit VersionSet VersionBuilder Level0.
Open Scope list_scope.
Open Scope Z_scope.
Open Scope word_scope.

(** What the database relies on: new tables hold nothing; a search finds the newest operation;
    a table in memory that fits, with newer operations, can be written, which adds its
    operations and at most one file to level 0. *)
Record table_laws {V : Type} (new : V) (get : V -> list Z -> Z -> option (list Z)) (level0 : V -> Z)
    (write : SkipList (list Z) -> V -> option V) (holds : V -> list op -> Prop)
    (fits : SkipList (list Z) -> list op -> V -> Prop) : Prop := {
  law_new : holds new [];
  law_get v ops k s : holds v ops -> is_seq s -> Z.of_nat (length k) + 8 < 0x1_0000_0000 ->
    get v k s = DbImpl.found (MemTable.answer (MemTable.newest k s ops));
  law_write mem v ops ops' : holds v ops -> MemTable.mem_inv mem ops' -> fits mem ops' v ->
    Forall (fun o => Forall (seq_lt o) ops') ops ->
    exists v', write mem v = Some v' /\ holds v' (ops ++ ops') /\ level0 v' <= level0 v + 1 }.

(** The tables that DbImpl.v assumes. *)
Theorem table_store_laws `{DbImpl.TableStore} :
  table_laws DbImpl.new_Version (fun v k s => DbImpl.found (DbImpl.Version_Get v k s)) (fun v => DbImpl.NumLevelFiles v 0)
    (fun mem v => Some (DbImpl.WriteLevel0Table mem v)) DbImpl.holds (fun _ _ _ => True).
Proof.
  split.
  - apply DbImpl.new_Version_holds.
  - intros v ops k s Hv Hs Hk. by rewrite (DbImpl.Version_Get_holds v ops k s Hv Hs Hk).
  - intros mem v ops ops' Hv Hm _ Hold. eexists. split; [done|]. split; [by apply DbImpl.WriteLevel0Table_holds|].
    apply DbImpl.WriteLevel0Table_files.
Qed.

(** ** Levels of table files *)

Section levels.
Context `{FilterPolicy} `{!UserKeyFilter} `{Compression} (interval block_size compression : Z) (policy_name : option (list Z)).
Context (Interval : 1 <= interval) (Name : name_ok policy_name).

(** The current version, the table files and the next file number. *)
Record tables := { t_disk : gmap Z (list Z); t_version : Version; t_next : Z }.
Definition new_tables : tables := {| t_disk := ∅; t_version := empty_version; t_next := 2 |}.
Definition tables_get (t : tables) (k : list Z) (s : Z) : option (list Z) :=
  match Version_Get policy_name (t_disk t) true (t_version t) k s with Some (OK, Some x, _) => Some x | _ => None end.
Definition NumLevelFiles (t : tables) (level : nat) : Z := Z.of_nat (length (files_ (t_version t) level)).
(** What [CompactMemTable] does to the tables: a file under the next number, and the version
    with it. *)
Definition tables_write (mem : SkipList (list Z)) (t : tables) : option tables :=
  '(s, edit, disk) ← WriteLevel0Table interval block_size compression policy_name mem (t_next t) new_VersionEdit (Some (t_version t)) (t_disk t);
  match s with
  | OK => Some {| t_disk := disk; t_version := SaveTo (Apply edit new_Builder) (t_version t); t_next := w64 (t_next t + 1) |}
  | _ => None
  end.
Definition tables_hold (t : tables) (ops : list op) : Prop :=
  0 <= t_next t /\ version_holds policy_name (t_disk t) (t_version t) (t_next t) ops.
Definition tables_fit (mem : SkipList (list Z)) (ops : list op) (t : tables) : Prop :=
  writable interval block_size compression policy_name mem ops /\ t_next t + 1 < 0x1_0000_0000_0000_0000.

Lemma files_added (v : Version) L meta : (L < length v)%nat ->
  (length (files_ (SaveTo (Apply (AddFile L meta new_VersionEdit) new_Builder) v) 0) <= length (files_ v 0) + 1)%nat.
Proof.
  intros HL. destruct (lookup_lt_is_Some_2 v L HL) as [fs Hfs]. destruct (SaveTo_add L meta v fs Hfs) as (p & -> & _).
  unfold files_. destruct (decide (L = 0%nat)) as [->|Hne].
  - rewrite list_lookup_insert_eq, Hfs by done. cbn [default from_option id]. rewrite (Permutation_length (insert_at_perm p meta fs)). cbn [length]. lia.
  - rewrite list_lookup_insert_ne by done. lia.
Qed.

Lemma version_levels disk v next ops : version_holds policy_name disk v next ops -> length v = kNumLevels.
Proof. intros [(levels & -> & Hlen & _) _]. by rewrite length_map. Qed.

(** The levels of table files obey the laws. *)
Theorem level_tables_laws :
  table_laws new_tables tables_get (fun t => NumLevelFiles t 0) tables_write tables_hold tables_fit.
Proof.
  split.
  - split; [done|]. apply empty_version_holds.
  - intros t ops k s [_ Ht] Hs Hk. unfold tables_get.
    destruct (version_get policy_name (t_disk t) (t_version t) (t_next t) ops true k s Ht Hs Hk) as [stats ->].
    by destruct (MemTable.answer _).
  - intros mem t ops ops' [Hn Ht] Hm [Hw Hnext] Hold. unfold tables_write.
    destruct (flush_holds policy_name interval block_size compression Interval Name (t_disk t) (t_version t) (t_next t) ops (t_next t) mem ops'
      (Some (t_version t)) Ht Hm Hw Hold ltac:(lia) ltac:(by right)) as (edit & disk & -> & Hv & Hnil & Hcons).
    cbn [mbind option_bind]. eexists. split; [done|]. split.
    + split; cbn [t_next t_disk t_version]; rewrite w64_small by (unfold is64; lia); [lia|done].
    + unfold NumLevelFiles. cbn [t_version]. destruct (decide (ops' = [])) as [->|Hne].
      * destruct (Hnil eq_refl) as [-> _]. change (Apply new_VersionEdit new_Builder) with new_Builder. rewrite SaveTo_new. lia.
      * destruct (Hcons Hne) as (L & meta & file & HL & -> & _).
        pose proof (files_added (t_version t) L meta ltac:(rewrite (version_levels _ _ _ _ Ht); done)). lia.
Qed.
End levels.
