(* ===== verification/FileName.v ===== *)
(** * Names of the files of a database: db/filename.cc and the numbers of util/logging.cc in
    src/packages/LevelDB.1.16.0.5/lib/native/src

    The name of a file says what it is and under which number.  [ParseFileName] gets both back
    when the directory is read, to find the logs and to delete what is not needed any more.

    Texts are lists of character codes; the files of an environment are a map from their
    names to their contents. *)
From Stdlib Require Import String Ascii.
From stdpp Require Import base numbers option gmap list.
From S2P Require Import Prelude.
Open Scope list_scope.
Open Scope Z_scope.
Open Scope word_scope.

(** The characters of a literal. *)
Definition text (s : string) : list Z := map (fun c => Z.of_N (N_of_ascii c)) (list_ascii_of_string s).

(** ** Numbers *)

(** [snprintf] of an unsigned 64-bit number: [%llu], and [%06llu]. *)
Fixpoint decimal (fuel : nat) (v : Z) : list Z :=
  match fuel with
  | O => []
  | S fuel' => if v <? 10 then [48 + v] else decimal fuel' (v / 10) ++ [48 + v mod 10]
  end.
Definition llu (v : Z) : list Z := decimal 20 v.
Definition llu06 (v : Z) : list Z := let d := llu v in replicate (6 - length d) 48 ++ d.

Definition kMaxUint64 : Z := 0xffff_ffff_ffff_ffff.
Fixpoint ConsumeDecimalNumber_loop (l : list Z) (v digits : Z) : option (Z * Z * list Z) :=
  match l with
  | [] => Some (v, digits, [])
  | c :: rest =>
      if (48 <=? c) && (c <=? 57) then
        let delta := c - 48 in
        if (kMaxUint64 / 10 <? v) || ((v =? kMaxUint64 / 10) && (kMaxUint64 mod 10 <? delta)) then None
        else ConsumeDecimalNumber_loop rest (w64 (v * 10 + delta)) (digits + 1)
      else Some (v, digits, l)
  end.
Definition ConsumeDecimalNumber (l : list Z) : option (Z * list Z) :=
  '(v, digits, rest) ← ConsumeDecimalNumber_loop l 0 0;
  if 0 <? digits then Some (v, rest) else None.

(** ** Names *)

Inductive FileType := kLogFile | kDBLockFile | kTableFile | kDescriptorFile | kCurrentFile | kTempFile | kInfoLogFile.

Definition MakeFileName (name : list Z) (number : Z) (suffix : list Z) : list Z :=
  name ++ text "/" ++ llu06 number ++ text "." ++ suffix.
(** The assertions that numbers are positive are those of a debug build and not checked here. *)
Definition LogFileName (name : list Z) (number : Z) : list Z := MakeFileName name number (text "log").
Definition TableFileName (name : list Z) (number : Z) : list Z := MakeFileName name number (text "ldb").
Definition SSTTableFileName (name : list Z) (number : Z) : list Z := MakeFileName name number (text "sst").
Definition DescriptorFileName (dbname : list Z) (number : Z) : list Z := dbname ++ text "/MANIFEST-" ++ llu06 number.
Definition CurrentFileName (dbname : list Z) : list Z := dbname ++ text "/CURRENT".
Definition LockFileName (dbname : list Z) : list Z := dbname ++ text "/LOCK".
Definition TempFileName (dbname : list Z) (number : Z) : list Z := MakeFileName dbname number (text "dbtmp").
Definition InfoLogFileName (dbname : list Z) : list Z := dbname ++ text "/LOG".
Definition OldInfoLogFileName (dbname : list Z) : list Z := dbname ++ text "/LOG.old".

Definition starts_with (p l : list Z) : bool := bool_decide (take (length p) l = p).

Definition ParseFileName (fname : list Z) : option (Z * FileType) :=
  if bool_decide (fname = text "CURRENT") then Some (0, kCurrentFile)
  else if bool_decide (fname = text "LOCK") then Some (0, kDBLockFile)
  else if bool_decide (fname = text "LOG") || bool_decide (fname = text "LOG.old") then Some (0, kInfoLogFile)
  else if starts_with (text "MANIFEST-") fname then
    '(num, rest) ← ConsumeDecimalNumber (drop 9 fname);
    if bool_decide (rest = []) then Some (num, kDescriptorFile) else None
  else
    '(num, suffix) ← ConsumeDecimalNumber fname;
    if bool_decide (suffix = text ".log") then Some (num, kLogFile)
    else if bool_decide (suffix = text ".sst") || bool_decide (suffix = text ".ldb") then Some (num, kTableFile)
    else if bool_decide (suffix = text ".dbtmp") then Some (num, kTempFile)
    else None.

(** [SetCurrentFile] in an environment that does not fail. *)
Definition SetCurrentFile (dbname : list Z) (descriptor_number : Z) (files : gmap (list Z) (list Z)) : gmap (list Z) (list Z) :=
  let manifest := DescriptorFileName dbname descriptor_number in
  let contents := drop (length dbname + 1) manifest in
  let tmp := TempFileName dbname descriptor_number in
  let files := <[tmp := contents ++ [10]]> files in
  <[CurrentFileName dbname := contents ++ [10]]> (delete tmp files).

(** ** Numbers are read back *)

Definition digit_list (l : list Z) : Prop := Forall (fun c => 48 <= c <= 57) l.
Definition value_of (v : Z) (l : list Z) : Z := foldl (fun v c => v * 10 + (c - 48)) v l.

Lemma value_of_ge v l : 0 <= v -> digit_list l -> v <= value_of v l.
Proof.
  intros Hv Hl. revert v Hv. induction Hl as [|c l Hc Hl IH]; intros v Hv; cbn; [lia|].
  specialize (IH (v * 10 + (c - 48)) ltac:(lia)). unfold value_of in IH. lia.
Qed.

Lemma Consume_digits l rest v d :
  digit_list l -> 0 <= v -> value_of v l <= kMaxUint64 -> (forall c, head rest = Some c -> ~ (48 <= c <= 57)) ->
  ConsumeDecimalNumber_loop (l ++ rest) v d = Some (value_of v l, d + Z.of_nat (length l), rest).
Proof.
  intros Hl. revert v d. induction Hl as [|c l Hc Hl IH]; intros v d Hv Hmax Hrest; cbn [app].
  - cbn. rewrite Z.add_0_r. destruct rest as [|c rest]; [done|]. cbn. specialize (Hrest c eq_refl).
    replace ((48 <=? c) && (c <=? 57)) with false by lia. done.
  - cbn [ConsumeDecimalNumber_loop]. replace ((48 <=? c) && (c <=? 57)) with true by lia.
    change (value_of v (c :: l)) with (value_of (v * 10 + (c - 48)) l) in *.
    pose proof (value_of_ge (v * 10 + (c - 48)) l ltac:(lia) Hl) as Hge.
    pose proof (Z.div_mod kMaxUint64 10 ltac:(lia)). unfold kMaxUint64 in *.
    assert ((0xffff_ffff_ffff_ffff / 10 <? v) || ((v =? 0xffff_ffff_ffff_ffff / 10) && (0xffff_ffff_ffff_ffff mod 10 <? c - 48)) = false) as ->.
    { change (0xffff_ffff_ffff_ffff / 10) with 1844674407370955161. change (0xffff_ffff_ffff_ffff mod 10) with 5. lia. }
    rewrite w64_small by (unfold is64; lia). rewrite IH by (done || lia). f_equal. cbn [length]. f_equal. f_equal. lia.
Qed.

Lemma decimal_spec fuel v : 0 <= v < 10 ^ Z.of_nat fuel -> (0 < fuel)%nat ->
  digit_list (decimal fuel v) /\ (1 <= length (decimal fuel v) <= fuel)%nat /\ forall x, value_of x (decimal fuel v) = x * 10 ^ Z.of_nat (length (decimal fuel v)) + v.
Proof.
  revert v. induction fuel as [|fuel IH]; intros v Hv Hf; [lia|]. cbn [decimal]. destruct (Z.ltb_spec v 10) as [Hlt|Hge].
  { split_and!; [repeat constructor; lia|cbn; lia|cbn; lia|]. intros x. cbn. lia. }
  rewrite Nat2Z.inj_succ, Z.pow_succ_r in Hv by lia. pose proof (Z.div_mod v 10 ltac:(lia)). pose proof (Z.mod_pos_bound v 10 ltac:(lia)).
  destruct fuel as [|fuel]; [change (10 ^ Z.of_nat 0) with 1 in Hv; lia|].
  destruct (IH (v / 10)) as (Hd & Hl & Hval); [split; [apply Z.div_pos; lia|apply Z.div_lt_upper_bound; lia]|lia|].
  rewrite length_app. cbn [length]. split_and!; [|lia|lia|].
  - apply Forall_app. split; [done|]. repeat constructor; lia.
  - intros x. unfold value_of in *. rewrite foldl_app, Hval. cbn [foldl]. rewrite Nat2Z.inj_add, Z.pow_add_r by lia. change (10 ^ Z.of_nat 1) with 10. nia.
Qed.

Lemma value_of_zeros n l : value_of 0 (replicate n 48 ++ l) = value_of 0 l.
Proof. induction n as [|n IH]; [done|]. cbn. exact IH. Qed.

Lemma llu06_spec v : is64 v -> digit_list (llu06 v) /\ (6 <= length (llu06 v))%nat /\ value_of 0 (llu06 v) = v.
Proof.
  intros Hv. unfold is64 in Hv. destruct (decimal_spec 20 v) as (Hd & Hl & Hval); [change (10 ^ Z.of_nat 20) with 100000000000000000000; lia|lia|].
  unfold llu06, llu. split_and!.
  - apply Forall_app. split; [|done]. apply Forall_replicate. lia.
  - rewrite length_app, length_replicate. lia.
  - by rewrite value_of_zeros, Hval.
Qed.

Lemma Consume_llu06 v rest : is64 v -> (forall c, head rest = Some c -> ~ (48 <= c <= 57)) ->
  ConsumeDecimalNumber (llu06 v ++ rest) = Some (v, rest).
Proof.
  intros Hv Hr. destruct (llu06_spec v Hv) as (Hd & Hl & Hval). unfold ConsumeDecimalNumber.
  rewrite Consume_digits; [|done|lia|rewrite Hval; unfold is64, kMaxUint64 in *; lia|done]. cbn [mbind option_bind]. rewrite Hval.
  by rewrite (proj2 (Z.ltb_lt _ _)) by lia.
Qed.

Lemma Consume_overflow l rest v d : digit_list l -> 0 <= v <= kMaxUint64 -> kMaxUint64 < value_of v l -> ConsumeDecimalNumber_loop (l ++ rest) v d = None.
Proof.
  intros Hl. revert v d. induction Hl as [|c l Hc Hl IH]; intros v d Hv Hmax; cbn in Hmax; [lia|]. cbn [app ConsumeDecimalNumber_loop].
  replace ((48 <=? c) && (c <=? 57)) with true by lia. unfold kMaxUint64 in *.
  change (0xffff_ffff_ffff_ffff / 10) with 1844674407370955161. change (0xffff_ffff_ffff_ffff mod 10) with 5.
  destruct (_ || _) eqn:E; [done|]. rewrite w64_small by (unfold is64; lia). apply IH; [lia|done].
Qed.

(** A name that starts with a number is none of the fixed ones. *)
Lemma Parse_number v suffix : is64 v -> (forall c, head suffix = Some c -> ~ (48 <= c <= 57)) ->
  ParseFileName (llu06 v ++ suffix)
    = if bool_decide (suffix = text ".log") then Some (v, kLogFile)
      else if bool_decide (suffix = text ".sst") || bool_decide (suffix = text ".ldb") then Some (v, kTableFile)
      else if bool_decide (suffix = text ".dbtmp") then Some (v, kTempFile)
      else None.
Proof.
  intros Hv Hs. destruct (llu06_spec v Hv) as (Hd & Hl & _).
  assert (forall a l, ~ (48 <= a <= 57) -> llu06 v ++ suffix <> a :: l) as Hne.
  { intros a l Ha E. destruct (llu06 v) as [|c r]; [cbn in Hl; lia|]. apply Forall_cons in Hd as [Hc _]. cbn in E. injection E as E _. lia. }
  unfold ParseFileName, starts_with. rewrite !(bool_decide_eq_false_2 (llu06 v ++ suffix = _)) by (apply Hne; cbn; lia). cbn [orb].
  rewrite bool_decide_eq_false_2.
  2: { change (length (text "MANIFEST-")) with 9%nat. intros E. apply (Hne 77 (text "ANIFEST-" ++ drop 9 (llu06 v ++ suffix))); [lia|]. rewrite <- (take_drop 9 (llu06 v ++ suffix)) at 1. by rewrite E. }
  by rewrite Consume_llu06.
Qed.

Lemma Parse_descriptor v : is64 v -> ParseFileName (text "MANIFEST-" ++ llu06 v) = Some (v, kDescriptorFile).
Proof.
  intros Hv. assert (drop 9 (text "MANIFEST-" ++ llu06 v) = llu06 v ++ []) as E by (by rewrite app_nil_r). unfold ParseFileName. rewrite E.
  rewrite Consume_llu06; done.
Qed.

Lemma base_name (dbname : list Z) (c : Z) (rest : list Z) : drop (length dbname + 1) (dbname ++ c :: rest) = rest.
Proof. rewrite drop_app_ge by lia. replace (length dbname + 1 - length dbname)%nat with 1%nat by lia. done. Qed.

(** File names of a database say what they are.  What stands behind the directory in the
    name of a log, table (old and new style), descriptor or temporary file is parsed back to
    the type and the number, for every 64-bit number; so are the names without a number.  The
    numbers in names have at least six digits.  A text of digits is read as its value exactly
    when that fits into 64 bits, and refused otherwise. *)
Theorem file_names_parsed (dbname : list Z) (n : Z) (l : list Z) :
  is64 n -> digit_list l -> l <> [] ->
  let base := drop (length dbname + 1) in
  ParseFileName (base (LogFileName dbname n)) = Some (n, kLogFile)
  /\ ParseFileName (base (TableFileName dbname n)) = Some (n, kTableFile)
  /\ ParseFileName (base (SSTTableFileName dbname n)) = Some (n, kTableFile)
  /\ ParseFileName (base (TempFileName dbname n)) = Some (n, kTempFile)
  /\ ParseFileName (base (DescriptorFileName dbname n)) = Some (n, kDescriptorFile)
  /\ ParseFileName (base (CurrentFileName dbname)) = Some (0, kCurrentFile)
  /\ ParseFileName (base (LockFileName dbname)) = Some (0, kDBLockFile)
  /\ ParseFileName (base (InfoLogFileName dbname)) = Some (0, kInfoLogFile)
  /\ ParseFileName (base (OldInfoLogFileName dbname)) = Some (0, kInfoLogFile)
  /\ (6 <= length (llu06 n))%nat
  /\ ConsumeDecimalNumber l = if value_of 0 l <=? kMaxUint64 then Some (value_of 0 l, []) else None.
Proof.
  intros Hn Hl Hne base.
  assert (forall suffix, base (MakeFileName dbname n suffix) = llu06 n ++ text "." ++ suffix) as Hm by (intros suffix; apply base_name).
  unfold LogFileName, TableFileName, SSTTableFileName, TempFileName. rewrite !Hm.
  rewrite !Parse_number by (done || (intros c [= <-]; cbn; lia)).
  unfold base, DescriptorFileName, CurrentFileName, LockFileName, InfoLogFileName, OldInfoLogFileName. cbn [text list_ascii_of_string map app].
  rewrite !base_name. split_and!; try reflexivity; [by apply Parse_descriptor|apply llu06_spec, Hn|].
  unfold ConsumeDecimalNumber. rewrite <- (app_nil_r l) at 1. destruct (Z.leb_spec (value_of 0 l) kMaxUint64) as [Hle|Hgt].
  - rewrite Consume_digits by (done || lia). cbn [mbind option_bind]. destruct l; [done|]. cbn [length]. by rewrite (proj2 (Z.ltb_lt _ _)) by lia.
  - rewrite Consume_overflow; [done|done| |lia]. unfold kMaxUint64. lia.
Qed.

Lemma file_names_parsed_witness :
  ParseFileName (text "MANIFEST-000005") = Some (5, kDescriptorFile)
  /\ ConsumeDecimalNumber (text "18446744073709551616") = None.
Proof.
  destruct (file_names_parsed (text "db") 5 (text "18446744073709551616")) as (_ & _ & _ & _ & H & _ & _ & _ & _ & _ & Hc).
  - unfold is64. lia.
  - repeat constructor; cbn; lia.
  - done.
  - split; [exact H|exact Hc].
Defined.

(** Names that are not of the database. *)
Example other_names :
  ParseFileName (text "foo") = None /\ ParseFileName (text "100") = None /\ ParseFileName (text "MANIFEST-3x") = None
  /\ ParseFileName (text "18446744073709551616.log") = None /\ ParseFileName (text "184467440737095516150.log") = None
  /\ ParseFileName (text "0.sst") = Some (0, kTableFile).
Proof. vm_compute. done. Qed.
