(* ===== verification/Manifest.v ===== *)
(** * The descriptor of a database: VersionSet of db/version_set.h and db/version_set.cc in
    src/packages/LevelDB.1.16.0.5/lib/native/src, and CompactMemTable of db/db_impl.cc

    [LogAndApply] makes a new version of an edit, appends the edit to the descriptor, a log
    file, and makes the version the current one.  The first call starts a new descriptor with
    a snapshot, and lets the file CURRENT name it.  [Recover] reads CURRENT and the descriptor
    when the database is opened.

    The files of the environment are a map from names to contents.  What the environment
    answers to the calls that can fail here is a record [IO]; the mutex that is released while
    the descriptor is written, and the compaction score of a version, are left out. *)
From stdpp Require Import base numbers option sets gmap list sorting strings.
From S2P Require Import Prelude Coding LogFile SkipList DbFormat MemTable WriteBatch Bloom FilterBlock TableBlock TableFile VersionEdit VersionSet VersionBuilder Level0 FileName.
Open Scope list_scope.
Open Scope Z_scope.
Open Scope word_scope.

Abbreviation Files := (gmap (list Z) (list Z)).

Record VersionSet := {
  vs_next_file_number : Z;
  vs_manifest_file_number : Z;
  vs_last_sequence : Z;
  vs_log_number : Z;
  vs_prev_log_number : Z;
  vs_compact_pointer : list (list Z);
  vs_current : Version;
  (** [descriptor_log_] with the file it writes. *)
  vs_descriptor : option Writer }.

Definition new_VersionSet : VersionSet :=
  {| vs_next_file_number := 2; vs_manifest_file_number := 0; vs_last_sequence := 0; vs_log_number := 0; vs_prev_log_number := 0;
     vs_compact_pointer := replicate kNumLevels []; vs_current := empty_version; vs_descriptor := None |}.

Definition set_next_file (n : Z) (vs : VersionSet) : VersionSet :=
  {| vs_next_file_number := n; vs_manifest_file_number := vs_manifest_file_number vs; vs_last_sequence := vs_last_sequence vs;
     vs_log_number := vs_log_number vs; vs_prev_log_number := vs_prev_log_number vs;
     vs_compact_pointer := vs_compact_pointer vs; vs_current := vs_current vs; vs_descriptor := vs_descriptor vs |}.
Definition NewFileNumber (vs : VersionSet) : Z * VersionSet :=
  (vs_next_file_number vs, set_next_file (w64 (vs_next_file_number vs + 1)) vs).
Definition ReuseFileNumber (file_number : Z) (vs : VersionSet) : VersionSet :=
  if vs_next_file_number vs =? w64 (file_number + 1) then set_next_file file_number vs else vs.
Definition MarkFileNumberUsed (number : Z) (vs : VersionSet) : VersionSet :=
  if vs_next_file_number vs <=? number then set_next_file (w64 (number + 1)) vs else vs.

(** [icmp_.user_comparator()->Name()] *)
Definition comparator_name : list Z := text "leveldb.BytewiseComparator".

(** ** Writing *)

Definition snapshot_edit (vs : VersionSet) : VersionEdit :=
  let edit := SetComparatorName comparator_name new_VersionEdit in
  let edit := foldl (fun edit '(level, key) => if bool_decide (key = []) then edit else SetCompactPointer level key edit)
    edit (zip (seq 0 kNumLevels) (vs_compact_pointer vs)) in
  foldl (fun edit '(level, files) => foldl (fun edit f => AddFile level f edit) edit files) edit (zip (seq 0 kNumLevels) (vs_current vs)).
Definition WriteSnapshot (vs : VersionSet) (log : Writer) : option Writer :=
  AddRecord (VersionEdit_EncodeTo (snapshot_edit vs) []) log.

Definition is_ok (s : Status) : bool := match s with OK => true | _ => false end.

(** The answers of [NewWritableFile], [Sync] and [SetCurrentFile]. *)
Record IO := { io_new : Status; io_sync : Status; io_current : Status }.
Definition all_ok : IO := {| io_new := OK; io_sync := OK; io_current := OK |}.

(** The edit with the numbers of the version set. *)
Definition fill_numbers (vs : VersionSet) (edit : VersionEdit) : VersionEdit :=
  let edit := match log_number_ edit with Some _ => edit | None => SetLogNumber (vs_log_number vs) edit end in
  let edit := match prev_log_number_ edit with Some _ => edit | None => SetPrevLogNumber (vs_prev_log_number vs) edit end in
  SetLastSequence (vs_last_sequence vs) (SetNextFile (vs_next_file_number vs) edit).

Section files.
Context (dbname : list Z).

(** [LogAndApply].  Its assertions, that a given log number is at least the current one and below
    the next file number, are those of a debug build; they are not checked here, and what is
    proved holds whether or not they are met. *)
Definition LogAndApply (io : IO) (edit : VersionEdit) (vs : VersionSet) (files : Files) : option (Status * VersionSet * Files) :=
  let edit := fill_numbers vs edit in
  let v := SaveTo (Apply edit new_Builder) (vs_current vs) in
  let vs := {| vs_next_file_number := vs_next_file_number vs; vs_manifest_file_number := vs_manifest_file_number vs;
               vs_last_sequence := vs_last_sequence vs; vs_log_number := vs_log_number vs; vs_prev_log_number := vs_prev_log_number vs;
               vs_compact_pointer := Apply_pointers edit (vs_compact_pointer vs); vs_current := vs_current vs;
               vs_descriptor := vs_descriptor vs |} in
  let manifest := DescriptorFileName dbname (vs_manifest_file_number vs) in
  let is_new := match vs_descriptor vs with None => true | Some _ => false end in
  (* a new descriptor with a snapshot *)
  '(s, log, files) ←
    match vs_descriptor vs with
    | Some w => Some (OK, Some w, files)
    | None =>
        if is_ok (io_new io) then w ← WriteSnapshot vs new_Writer; Some (OK, Some w, <[manifest := dest_ w]> files)
        else Some (io_new io, None, files)
    end;
  (* the record *)
  '(s, log, files) ←
    match log with
    | Some w => w ← AddRecord (VersionEdit_EncodeTo edit []) w; Some (io_sync io, Some w, <[manifest := dest_ w]> files)
    | None => Some (s, log, files)
    end;
  let '(s, files) :=
    if is_ok s && is_new then
      if is_ok (io_current io) then (OK, SetCurrentFile dbname (vs_manifest_file_number vs) files) else (io_current io, files)
    else (s, files) in
  if is_ok s then
    Some (s, {| vs_next_file_number := vs_next_file_number vs; vs_manifest_file_number := vs_manifest_file_number vs;
                vs_last_sequence := vs_last_sequence vs;
                vs_log_number := default 0 (log_number_ edit); vs_prev_log_number := default 0 (prev_log_number_ edit);
                vs_compact_pointer := vs_compact_pointer vs; vs_current := v; vs_descriptor := log |}, files)
  else if is_new then
    Some (s, {| vs_next_file_number := vs_next_file_number vs; vs_manifest_file_number := vs_manifest_file_number vs;
                vs_last_sequence := vs_last_sequence vs; vs_log_number := vs_log_number vs; vs_prev_log_number := vs_prev_log_number vs;
                vs_compact_pointer := vs_compact_pointer vs; vs_current := vs_current vs; vs_descriptor := None |}, delete manifest files)
  else
    Some (s, {| vs_next_file_number := vs_next_file_number vs; vs_manifest_file_number := vs_manifest_file_number vs;
                vs_last_sequence := vs_last_sequence vs; vs_log_number := vs_log_number vs; vs_prev_log_number := vs_prev_log_number vs;
                vs_compact_pointer := vs_compact_pointer vs; vs_current := vs_current vs; vs_descriptor := log |}, files).

(** ** Reading *)

(** What the loop of [Recover] knows. *)
Record recovery := {
  rc_status : Status;
  rc_builder : nat -> LevelState;
  rc_pointer : list (list Z);
  rc_log : option Z;
  rc_prev : option Z;
  rc_next : option Z;
  rc_last : option Z }.

Definition rc_set_status (s : Status) (st : recovery) : recovery :=
  {| rc_status := s; rc_builder := rc_builder st; rc_pointer := rc_pointer st; rc_log := rc_log st; rc_prev := rc_prev st;
     rc_next := rc_next st; rc_last := rc_last st |}.

Definition newer {A} (x y : option A) : option A := match x with Some _ => x | None => y end.

(** A turn of the loop, with a record. *)
Definition recover_record (record : list Z) (st : recovery) : option recovery :=
  '(s, edit) ← VersionEdit_DecodeFrom record new_VersionEdit;
  let s := if is_ok s then
             match comparator_ edit with
             | Some c => if bool_decide (c = comparator_name) then OK else InvalidArgument "does not match existing comparator"
             | None => OK
             end
           else s in
  Some {| rc_status := s;
          rc_builder := if is_ok s then Apply edit (rc_builder st) else rc_builder st;
          rc_pointer := if is_ok s then Apply_pointers edit (rc_pointer st) else rc_pointer st;
          rc_log := newer (log_number_ edit) (rc_log st);
          rc_prev := newer (prev_log_number_ edit) (rc_prev st);
          rc_next := newer (next_file_number_ edit) (rc_next st);
          rc_last := newer (last_sequence_ edit) (rc_last st) |}.

(** What the reporter has set the status to. *)
Definition reporter_status (s : Status) (r : Reader) : Status :=
  if is_ok s then match reported_ r with [] => OK | (_, reason) :: _ => Corruption reason end else s.

Fixpoint Recover_loop (fuel : nat) (r : Reader) (st : recovery) : option recovery :=
  match fuel with
  | O => None
  | S fuel' =>
      '(res, r) ← ReadRecord true 0 r;
      let st := rc_set_status (reporter_status (rc_status st) r) st in
      match res with
      | None => Some st
      | Some record => if is_ok (rc_status st) then st ← recover_record record st; Recover_loop fuel' r st else Some st
      end
  end.

(** The part of [Recover] after the loop. *)
Definition install_recovered (st : recovery) (vs : VersionSet) : Status * VersionSet :=
  let vs := {| vs_next_file_number := vs_next_file_number vs; vs_manifest_file_number := vs_manifest_file_number vs;
               vs_last_sequence := vs_last_sequence vs; vs_log_number := vs_log_number vs; vs_prev_log_number := vs_prev_log_number vs;
               vs_compact_pointer := rc_pointer st; vs_current := vs_current vs; vs_descriptor := vs_descriptor vs |} in
  if is_ok (rc_status st) then
    let s := match rc_next st, rc_log st, rc_last st with
             | None, _, _ => Corruption "no meta-nextfile entry in descriptor"
             | _, None, _ => Corruption "no meta-lognumber entry in descriptor"
             | _, _, None => Corruption "no last-sequence-number entry in descriptor"
             | _, _, _ => OK
             end in
    let prev := default 0 (rc_prev st) in
    let log := default 0 (rc_log st) in
    let next := default 0 (rc_next st) in
    let vs := MarkFileNumberUsed log (MarkFileNumberUsed prev vs) in
    if is_ok s then
      (s, {| vs_next_file_number := w64 (next + 1); vs_manifest_file_number := next;
             vs_last_sequence := default 0 (rc_last st); vs_log_number := log; vs_prev_log_number := prev;
             vs_compact_pointer := vs_compact_pointer vs; vs_current := SaveTo (rc_builder st) (vs_current vs);
             vs_descriptor := vs_descriptor vs |})
    else (s, vs)
  else (rc_status st, vs).

Definition new_recovery (compact_pointer : list (list Z)) : recovery :=
  {| rc_status := OK; rc_builder := new_Builder; rc_pointer := compact_pointer; rc_log := None; rc_prev := None; rc_next := None; rc_last := None |}.

Definition Recover (vs : VersionSet) (files : Files) : option (Status * VersionSet) :=
  match files !! CurrentFileName dbname with
  | None => Some (IOError "CURRENT", vs)
  | Some current =>
      if bool_decide (last current <> Some 10) then Some (Corruption "CURRENT file does not end with newline", vs)
      else
        let dscname := dbname ++ text "/" ++ take (length current - 1) current in
        match files !! dscname with
        | None => Some (IOError "descriptor", vs)
        | Some file =>
            st ← Recover_loop (S (length file)) (new_Reader file) (new_recovery (vs_compact_pointer vs));
            Some (install_recovered st vs)
        end
  end.
End files.

(** ** The edits of a descriptor *)

Definition recover_edit (st : recovery) (e : VersionEdit) : recovery :=
  {| rc_status := OK; rc_builder := Apply e (rc_builder st); rc_pointer := Apply_pointers e (rc_pointer st);
     rc_log := newer (log_number_ e) (rc_log st); rc_prev := newer (prev_log_number_ e) (rc_prev st);
     rc_next := newer (next_file_number_ e) (rc_next st); rc_last := newer (last_sequence_ e) (rc_last st) |}.

(** An edit that a descriptor of this database can hold. *)
Definition manifest_edit (e : VersionEdit) : Prop := edit_ok e /\ (comparator_ e = None \/ comparator_ e = Some comparator_name).
Abbreviation encode e := (VersionEdit_EncodeTo e []).

Lemma bytes_edit e : edit_ok e -> bytes (encode e).
Proof. intros [He _]. rewrite EncodeTo_fields, app_nil_l. by apply bytes_fields. Qed.

Lemma recover_record_edit e st : manifest_edit e -> recover_record (encode e) st = Some (recover_edit st e).
Proof.
  intros [He Hc]. unfold recover_record. rewrite decode_encode by done. cbn [mbind option_bind].
  assert (with_pointers (compact_pointers_ new_VersionEdit) e = e) as -> by (by destruct e). cbn [is_ok].
  destruct Hc as [->| ->]; [done|]. rewrite bool_decide_eq_true_2 by done. done.
Qed.

Lemma Recover_loop_edits fuel r r' es st :
  read_records fuel r = Some (map (fun e => encode e) es, r') -> reported_ r' = [] -> Forall manifest_edit es -> rc_status st = OK ->
  Recover_loop fuel r st = Some (foldl recover_edit st es).
Proof.
  revert r es st. induction fuel as [|fuel IH]; intros r es st; [done|]. cbn [read_records Recover_loop].
  intros ([res r1] & -> & H)%bind_Some Hrep Hes Hst. cbn [mbind option_bind].
  assert (reported_ r1 = []) as Hr1.
  { destruct res as [rec|]; [|injection H as _ <-; done]. apply bind_Some in H as ([recs' r2] & H & [= _ <-]).
    by eapply read_records_reported. }
  assert (rc_set_status (reporter_status (rc_status st) r1) st = st) as ->.
  { unfold reporter_status. rewrite Hst, Hr1. cbn. destruct st. by cbn in Hst; subst. }
  destruct res as [rec|].
  - apply bind_Some in H as ([recs' r2] & H & [= E <-]). destruct es as [|e es]; [done|]. cbn [map] in E. injection E as -> ->.
    apply Forall_cons in Hes as [He Hes]. rewrite Hst. cbn [is_ok]. rewrite recover_record_edit by done. cbn [mbind option_bind foldl].
    by apply IH.
  - injection H as E _. by destruct es.
Qed.

(** *** What the edits come to *)

Lemma foldl_recover_builder es st : rc_builder (foldl recover_edit st es) = apply_edits es (rc_builder st).
Proof. revert st. induction es as [|e es IH]; intros st; [done|]. apply (IH (recover_edit st e)). Qed.
Lemma foldl_recover_pointer es st : rc_pointer (foldl recover_edit st es) = foldl (fun cp e => Apply_pointers e cp) (rc_pointer st) es.
Proof. revert st. induction es as [|e es IH]; intros st; [done|]. apply (IH (recover_edit st e)). Qed.
Lemma foldl_recover_status es st : rc_status st = OK -> rc_status (foldl recover_edit st es) = OK.
Proof. revert st. induction es as [|e es IH]; intros st Hst; [done|]. by apply (IH (recover_edit st e)). Qed.

(** *** Compaction pointers *)

Definition pointer_in (l : nat) (ps : list (nat * list Z)) : option (list Z) := snd <$> last (filter (fun p => fst p = l) ps).
Lemma foldl_pointer_lookup ps (cp : list (list Z)) l :
  foldl (fun cp '(level, key) => <[level := key]> cp) cp ps !! l
    = match cp !! l with Some k => Some (default k (pointer_in l ps)) | None => None end.
Proof.
  revert cp. induction ps as [|[m k] ps IH]; intros cp; cbn [foldl]; [by destruct (cp !! l)|]. rewrite IH. unfold pointer_in. rewrite filter_cons. cbn [fst].
  destruct (decide (m = l)) as [->|Hne].
  - destruct (cp !! l) as [k0|] eqn:E.
    + rewrite list_lookup_insert_eq by (by eapply lookup_lt_Some). rewrite last_cons. by destruct (last (filter _ ps)).
    + destruct (<[l := k]> cp !! l) eqn:E'; [|done]. apply lookup_lt_Some in E'. rewrite length_insert in E'. by apply lookup_ge_None in E; lia.
  - by rewrite list_lookup_insert_ne.
Qed.
Lemma Apply_pointers_twice e cp : Apply_pointers e (Apply_pointers e cp) = Apply_pointers e cp.
Proof.
  apply list_eq. intros l. unfold Apply_pointers. rewrite !foldl_pointer_lookup. destruct (cp !! l); [|done]. by destruct (pointer_in l _).
Qed.

(** ** Snapshots *)

Lemma filter_zip {A} (l n : nat) (xs : list A) :
  filter (fun p => fst p = l) (zip (seq n (length xs)) xs) = match (if (n <=? l)%nat then xs !! (l - n)%nat else None) with Some x => [(l, x)] | None => [] end.
Proof.
  revert n. induction xs as [|x xs IH]; intros n; cbn [length seq zip zip_with]; [by destruct (n <=? l)%nat|].
  rewrite filter_cons. cbn [fst]. change (zip_with pair ?a ?b) with (zip a b). rewrite IH.
  destruct (decide (n = l)) as [->|Hne].
  - rewrite (proj2 (Nat.leb_gt (S l) l)), Nat.leb_refl, Nat.sub_diag by lia. done.
  - destruct (Nat.leb_spec (S n) l), (Nat.leb_spec n l); try lia; [|done]. by replace (l - n)%nat with (S (l - S n)) by lia.
Qed.

Definition level_pairs (p : nat * list FileMetaData) : list (nat * FileMetaData) := map (pair (fst p)) (snd p).

Lemma snapshot_fields vs :
  snapshot_edit vs = {| comparator_ := Some comparator_name; log_number_ := None; prev_log_number_ := None; next_file_number_ := None;
    last_sequence_ := None; compact_pointers_ := filter (fun p => snd p <> []) (zip (seq 0 kNumLevels) (vs_compact_pointer vs));
    deleted_files_ := []; new_files_ := concat (map level_pairs (zip (seq 0 kNumLevels) (vs_current vs))) |}.
Proof.
  unfold snapshot_edit.
  assert (forall ps e, foldl (fun edit '(level, key) => if bool_decide (key = []) then edit else SetCompactPointer level key edit) e ps
    = foldl apply_field e (map (fun '(l, k) => FPointer l k) (filter (fun p => snd p <> []) ps))) as ->.
  { induction ps as [|[m k] ps IH]; intros e; [done|]. cbn [foldl]. rewrite filter_cons. cbn [snd].
    destruct (decide (k <> [])) as [Hk|Hk]; case_bool_decide; try done; rewrite IH; done. }
  assert (forall L e, foldl (fun edit '(level, files) => foldl (fun edit f => AddFile level f edit) edit files) e L
    = foldl apply_field e (map (fun '(l, f) => FNew l f) (concat (map level_pairs L)))) as ->.
  { induction L as [|[m fs] L IH]; intros e; [done|]. cbn [foldl map concat]. rewrite map_app, foldl_app, IH. f_equal.
    revert e. induction fs as [|f fs IHf]; intros e; [done|]. apply (IHf (AddFile m f e)). }
  rewrite foldl_new, foldl_pointers. done.
Qed.

Lemma snapshot_added vs l base : length (vs_current vs) = kNumLevels -> vs_current vs !! l = Some base -> added_at l (snapshot_edit vs) = base.
Proof.
  intros Hlen Hl. rewrite snapshot_fields. unfold added_at. cbn [new_files_]. rewrite <- Hlen.
  assert (forall Z0 : list (nat * list FileMetaData), filter (fun x => fst x = l) (concat (map level_pairs Z0)) = concat (map level_pairs (filter (fun p => fst p = l) Z0))) as ->.
  { induction Z0 as [|[m fs] Z0 IH]; [done|]. cbn [map concat]. rewrite filter_app, IH, filter_cons. cbn [fst].
    assert (filter (fun x => fst x = l) (level_pairs (m, fs)) = if decide (m = l) then level_pairs (m, fs) else []) as ->.
    { unfold level_pairs. cbn [fst snd]. clear. induction fs as [|f fs IH]; [by destruct (decide _)|]. cbn [map]. rewrite filter_cons. cbn [fst].
      rewrite IH. by destruct (decide (m = l)). }
    by destruct (decide (m = l)). }
  rewrite filter_zip, Nat.sub_0_r. cbn [Nat.leb]. rewrite Hl. cbn [map concat]. rewrite app_nil_r. unfold level_pairs. cbn [fst snd].
  clear. induction base as [|f base IH]; [done|]. cbn [map snd]. by rewrite IH.
Qed.

Lemma filter_comm {A} (P Q : A -> Prop) `{!forall x, Decision (P x), !forall x, Decision (Q x)} (l : list A) : filter P (filter Q l) = filter Q (filter P l).
Proof.
  induction l as [|x l IH]; [done|]. rewrite (filter_cons P), (filter_cons Q). destruct (decide (P x)), (decide (Q x));
    rewrite ?filter_cons, IH; by repeat case_decide.
Qed.

Lemma snapshot_pointers vs : length (vs_compact_pointer vs) = kNumLevels ->
  Apply_pointers (snapshot_edit vs) (replicate kNumLevels []) = vs_compact_pointer vs.
Proof.
  intros Hlen. rewrite snapshot_fields. unfold Apply_pointers. cbn [compact_pointers_]. rewrite <- Hlen. apply list_eq. intros l. rewrite foldl_pointer_lookup.
  unfold pointer_in. rewrite filter_comm, filter_zip. rewrite Nat.sub_0_r. cbn [Nat.leb].
  destruct (vs_compact_pointer vs !! l) as [k|] eqn:E.
  - rewrite lookup_replicate_2 by (by eapply lookup_lt_Some). rewrite filter_cons, filter_nil. cbn [snd].
    destruct (decide (k <> [])) as [|Hk]; [done|]. destruct k; [done|]. by destruct Hk.
  - apply lookup_ge_None in E. by rewrite (proj2 (lookup_ge_None _ _)) by (rewrite length_replicate; lia).
Qed.

(** The files of a snapshot, applied to nothing, are the version. *)
Lemma snapshot_current vs : length (vs_current vs) = kNumLevels -> version_sorted (vs_current vs) ->
  SaveTo (Apply (snapshot_edit vs) new_Builder) empty_version = vs_current vs.
Proof.
  intros Hlen Hs.
  assert (builder_ok new_Builder empty_version) as HB.
  { apply new_Builder_ok. intros l base Hl. apply lookup_replicate in Hl as [-> _]. split; constructor. }
  assert (forall l base, empty_version !! l = Some base -> exists fs, vs_current vs !! l = Some fs /\ base = []) as Hlk.
  { intros l base Hl. apply lookup_replicate in Hl as [-> Hl]. destruct (lookup_lt_is_Some_2 (vs_current vs) l) as [fs Hfs]; [lia|]. by exists fs. }
  assert (fresh_edit (snapshot_edit vs) new_Builder empty_version) as Hf.
  { intros l base Hl. destruct (Hlk l base Hl) as (fs & Hfs & ->). rewrite (snapshot_added vs l fs) by done. by apply (Hs l fs). }
  destruct (Apply_ok _ _ _ HB Hf) as [HA Hadd]. apply list_eq. intros l. destruct (empty_version !! l) as [base|] eqn:Hl.
  - destruct (Hlk l base Hl) as (fs & Hfs & ->). destruct (SaveTo_spec _ _ l _ HA Hl) as (fs' & -> & Hs' & Hp). rewrite Hfs. f_equal.
    apply (sorted_ext by_smallest); [apply by_smallest_irrefl|apply _|done|by apply (Hs l fs)|]. intros f.
    rewrite Hp, list_elem_of_filter, app_nil_l, (Hadd l [] Hl), (snapshot_added vs l fs) by done. cbn [new_Builder added_files]. rewrite app_nil_l.
    rewrite (proj2 (Apply_spec _ _ l)), snapshot_fields. cbn [new_Builder deleted_files deleted_files_]. rewrite !elem_of_nil. tauto.
  - rewrite SaveTo_lookup, Hl. apply lookup_ge_None in Hl. unfold empty_version in Hl. rewrite length_replicate in Hl.
    symmetry. apply lookup_ge_None. lia.
Qed.

(** ** Edits that fit *)

Lemma edit_ok_parts e : edit_ok e <->
  (forall c, comparator_ e = Some c -> short c) /\ (forall n, log_number_ e = Some n -> is64 n) /\ (forall n, prev_log_number_ e = Some n -> is64 n)
  /\ (forall n, next_file_number_ e = Some n -> is64 n) /\ (forall n, last_sequence_ e = Some n -> is64 n)
  /\ Forall (fun p => (fst p < kNumLevels)%nat /\ short (snd p)) (compact_pointers_ e)
  /\ Forall (fun p => (fst p < kNumLevels)%nat /\ is64 (snd p)) (deleted_files_ e)
  /\ Forall (fun p => (fst p < kNumLevels)%nat /\ file_ok (snd p)) (new_files_ e) /\ deleted_sorted (deleted_files_ e).
Proof.
  unfold edit_ok, fields. rewrite !Forall_app, !Forall_map.
  assert (forall {A} (c : A -> field) (x : option A) (P : A -> Prop), (forall a, field_ok (c a) <-> P a) -> Forall field_ok (opt_field c x) <-> (forall a, x = Some a -> P a)) as Hopt.
  { intros A c [a|] P Hc; cbn [opt_field]; [rewrite Forall_singleton, Hc; split; [by intros ? ? [= <-]|by intros H; apply H]|by split; [|constructor]]. }
  rewrite (Hopt _ FComparator _ short), (Hopt _ FLog _ is64), (Hopt _ FPrevLog _ is64), (Hopt _ FNextFile _ is64), (Hopt _ FLastSequence _ is64) by done.
  assert (forall {A} (g : nat * A -> field) (P : A -> Prop) l, (forall n a, field_ok (g (n, a)) <-> (n < kNumLevels)%nat /\ P a) ->
    Forall (fun x => field_ok (g x)) l <-> Forall (fun p => (fst p < kNumLevels)%nat /\ P (snd p)) l) as Hl.
  { intros A g P l Hg. apply Forall_proper; [|done]. intros [n a]. apply Hg. }
  rewrite (Hl _ _ short), (Hl _ _ is64), (Hl _ _ file_ok) by done. tauto.
Qed.

Definition vs_ok (vs : VersionSet) : Prop := is64 (vs_log_number vs) /\ is64 (vs_prev_log_number vs) /\ is64 (vs_next_file_number vs) /\ is64 (vs_last_sequence vs).

Lemma fill_numbers_fields vs e : fill_numbers vs e =
  {| comparator_ := comparator_ e; log_number_ := Some (default (vs_log_number vs) (log_number_ e));
     prev_log_number_ := Some (default (vs_prev_log_number vs) (prev_log_number_ e));
     next_file_number_ := Some (vs_next_file_number vs); last_sequence_ := Some (vs_last_sequence vs);
     compact_pointers_ := compact_pointers_ e; deleted_files_ := deleted_files_ e; new_files_ := new_files_ e |}.
Proof. destruct e as [c [l|] [p|] n s cp d f]; done. Qed.

Lemma manifest_fill vs e : manifest_edit e -> vs_ok vs -> manifest_edit (fill_numbers vs e).
Proof.
  intros [He Hc] (H1 & H2 & H3 & H4). rewrite fill_numbers_fields. split; [|done]. rewrite edit_ok_parts in *.
  destruct He as (P1 & P2 & P3 & _ & _ & P6 & P7 & P8 & P9). cbn. split_and!; try done.
  - intros n [= <-]. destruct (log_number_ e) as [x|]; [by apply P2|done].
  - intros n [= <-]. destruct (prev_log_number_ e) as [x|]; [by apply P3|done].
  - by intros n [= <-].
  - by intros n [= <-].
Qed.

Lemma zip_seq_elem {A} n m (xs : list A) p : p ∈ zip (seq n m) xs -> (fst p < n + m)%nat /\ snd p ∈ xs.
Proof.
  revert n xs. induction m as [|m IH]; intros n xs; [intros H; by apply elem_of_nil in H|]. destruct xs as [|x xs]; [intros H; by apply elem_of_nil in H|].
  cbn [seq zip zip_with]. intros [->|H]%elem_of_cons; [cbn; split; [lia|left]|]. apply IH in H as [H1 H2]. split; [lia|by right].
Qed.

(** A version set that can be written to a descriptor. *)
Record writable_set (vs : VersionSet) : Prop := {
  ws_levels : length (vs_current vs) = kNumLevels;
  ws_sorted : version_sorted (vs_current vs);
  ws_files : Forall (Forall file_ok) (vs_current vs);
  ws_pointers : length (vs_compact_pointer vs) = kNumLevels;
  ws_keys : Forall short (vs_compact_pointer vs);
  ws_log : is64 (vs_log_number vs);
  ws_prev : is64 (vs_prev_log_number vs) }.

Lemma manifest_snapshot vs : Forall (Forall file_ok) (vs_current vs) -> Forall short (vs_compact_pointer vs) -> manifest_edit (snapshot_edit vs).
Proof.
  intros Hf Hk. rewrite snapshot_fields. split; [|by right]. rewrite edit_ok_parts. cbn. split_and!; try done.
  - intros c [= <-]. apply (bool_decide_unpack _). vm_compute. exact I.
  - apply Forall_forall. intros p [_ Hp]%list_elem_of_filter. apply (zip_seq_elem 0 kNumLevels) in Hp as [H1 H2]. split; [done|]. rewrite Forall_forall in Hk. by apply Hk.
  - apply Forall_forall. intros p Hp. apply list_elem_of_In, in_concat in Hp as (ps & Hps & Hp). apply in_map_iff in Hps as (q & <- & Hq).
    apply list_elem_of_In in Hq. apply (zip_seq_elem 0 kNumLevels) in Hq as [H1 H2]. unfold level_pairs in Hp. apply in_map_iff in Hp as (f & <- & Hf').
    cbn. split; [done|]. rewrite Forall_forall in Hf. specialize (Hf _ H2). rewrite Forall_forall in Hf. by apply Hf, list_elem_of_In.
  - constructor.
Qed.

(** ** A run of the database *)

(** Between two edits the counters of files and of sequence numbers may have moved on. *)
Definition event := (VersionEdit * Z * Z)%type.
Definition ev_edit (ev : event) : VersionEdit := ev.1.1.
Definition advance (next_file last_seq : Z) (vs : VersionSet) : VersionSet :=
  {| vs_next_file_number := next_file; vs_manifest_file_number := vs_manifest_file_number vs; vs_last_sequence := last_seq;
     vs_log_number := vs_log_number vs; vs_prev_log_number := vs_prev_log_number vs;
     vs_compact_pointer := vs_compact_pointer vs; vs_current := vs_current vs; vs_descriptor := vs_descriptor vs |}.

(** Some edits, one after the other, in an environment that does not fail. *)
Definition log_one (dbname : list Z) (ev : event) (st : VersionSet * Files) : option (VersionSet * Files) :=
  let '(e, next_file, last_seq) := ev in
  '(s, vs, files) ← LogAndApply dbname all_ok e (advance next_file last_seq (fst st)) (snd st);
  if is_ok s then Some (vs, files) else None.
Definition log_all (dbname : list Z) (evs : list event) (st : VersionSet * Files) : option (VersionSet * Files) :=
  foldl (fun st ev => st ← st; log_one dbname ev st) (Some st) evs.

Definition event_ok (ev : event) : Prop := manifest_edit (ev_edit ev) /\ is64 ev.1.2 /\ is64 ev.2.

(** The version set that opening the database gives. *)
Definition reopened (vs : VersionSet) : VersionSet :=
  {| vs_next_file_number := w64 (vs_next_file_number vs + 1); vs_manifest_file_number := vs_next_file_number vs;
     vs_last_sequence := vs_last_sequence vs; vs_log_number := vs_log_number vs; vs_prev_log_number := vs_prev_log_number vs;
     vs_compact_pointer := vs_compact_pointer vs; vs_current := vs_current vs; vs_descriptor := None |}.

Section run.
Context (dbname : list Z).

Definition installed (fe : VersionEdit) (w : Writer) (vs : VersionSet) : VersionSet :=
  {| vs_next_file_number := vs_next_file_number vs; vs_manifest_file_number := vs_manifest_file_number vs; vs_last_sequence := vs_last_sequence vs;
     vs_log_number := default 0 (log_number_ fe); vs_prev_log_number := default 0 (prev_log_number_ fe);
     vs_compact_pointer := Apply_pointers fe (vs_compact_pointer vs); vs_current := SaveTo (Apply fe new_Builder) (vs_current vs);
     vs_descriptor := Some w |}.
Abbreviation descriptor vs := (DescriptorFileName dbname (vs_manifest_file_number vs)).

Lemma LogAndApply_old e vs files w w' :
  vs_descriptor vs = Some w -> AddRecord (encode (fill_numbers vs e)) w = Some w' ->
  LogAndApply dbname all_ok e vs files = Some (OK, installed (fill_numbers vs e) w' vs, <[descriptor vs := dest_ w']> files).
Proof.
  intros Hd Hw. unfold LogAndApply. cbn [vs_descriptor]. rewrite Hd. cbn [mbind option_bind]. rewrite Hw. cbn [mbind option_bind all_ok io_sync is_ok andb]. done.
Qed.

(** The version set whose snapshot starts a descriptor. *)
Definition with_pointers_of (fe : VersionEdit) (vs : VersionSet) : VersionSet :=
  {| vs_next_file_number := vs_next_file_number vs; vs_manifest_file_number := vs_manifest_file_number vs; vs_last_sequence := vs_last_sequence vs;
     vs_log_number := vs_log_number vs; vs_prev_log_number := vs_prev_log_number vs;
     vs_compact_pointer := Apply_pointers fe (vs_compact_pointer vs); vs_current := vs_current vs; vs_descriptor := vs_descriptor vs |}.

Lemma LogAndApply_new e vs files w w' :
  vs_descriptor vs = None -> WriteSnapshot (with_pointers_of (fill_numbers vs e) vs) new_Writer = Some w ->
  AddRecord (encode (fill_numbers vs e)) w = Some w' ->
  LogAndApply dbname all_ok e vs files = Some (OK, installed (fill_numbers vs e) w' vs,
    SetCurrentFile dbname (vs_manifest_file_number vs) (<[descriptor vs := dest_ w']> (<[descriptor vs := dest_ w]> files))).
Proof.
  intros Hd Hs Hw. unfold LogAndApply. cbn [vs_descriptor]. rewrite Hd. cbn [all_ok io_new is_ok].
  unfold with_pointers_of in Hs. rewrite Hd in Hs. rewrite Hs. cbn [mbind option_bind]. rewrite Hw. cbn [mbind option_bind io_sync is_ok andb io_current]. done.
Qed.

(** *** What a descriptor tells *)

Abbreviation start := (new_recovery (replicate kNumLevels [])).

Record told (st : recovery) (vs : VersionSet) : Prop := {
  told_status : rc_status st = OK;
  told_files : SaveTo (rc_builder st) empty_version = vs_current vs;
  told_pointer : rc_pointer st = vs_compact_pointer vs;
  told_log : rc_log st = Some (vs_log_number vs);
  told_prev : rc_prev st = Some (vs_prev_log_number vs);
  told_next : rc_next st = Some (vs_next_file_number vs);
  told_last : rc_last st = Some (vs_last_sequence vs) }.

(** One more edit.  The state before need not know the numbers yet, and may have the pointers already. *)
Lemma told_edit st vs e w :
  SaveTo (rc_builder st) empty_version = vs_current vs ->
  (rc_pointer st = vs_compact_pointer vs \/ rc_pointer st = Apply_pointers (fill_numbers vs e) (vs_compact_pointer vs)) ->
  builder_ok (rc_builder st) empty_version -> fresh_edit (fill_numbers vs e) (rc_builder st) empty_version ->
  told (recover_edit st (fill_numbers vs e)) (installed (fill_numbers vs e) w vs).
Proof.
  intros Hf Hp HB He. assert (SaveTo (Apply (fill_numbers vs e) (rc_builder st)) empty_version = SaveTo (Apply (fill_numbers vs e) new_Builder) (vs_current vs)) as Hs
    by (by rewrite SaveTo_Apply, Hf).
  assert (Apply_pointers (fill_numbers vs e) (rc_pointer st) = Apply_pointers (fill_numbers vs e) (vs_compact_pointer vs)) as Hp'
    by (destruct Hp as [->| ->]; [done|apply Apply_pointers_twice]).
  rewrite fill_numbers_fields in *. split; done.
Qed.

(** The files of a running database: [es] is what its descriptor holds. *)
Record tracked (vs : VersionSet) (files : Files) (es : list VersionEdit) : Prop := {
  tr_log : exists w, vs_descriptor vs = Some w /\ add_records (map (fun e => encode e) es) new_Writer = Some w
    /\ files !! descriptor vs = Some (dest_ w);
  tr_current : files !! CurrentFileName dbname = Some ((text "MANIFEST-" ++ llu06 (vs_manifest_file_number vs)) ++ [10]);
  tr_edits : Forall manifest_edit es;
  tr_told : told (foldl recover_edit start es) vs;
  tr_builder : builder_ok (apply_edits es new_Builder) empty_version;
  tr_numbers : is64 (vs_log_number vs) /\ is64 (vs_prev_log_number vs) }.

(** *** Steps *)

Lemma name_facts n : is64 n -> DescriptorFileName dbname n <> CurrentFileName dbname /\ TempFileName dbname n <> CurrentFileName dbname
  /\ TempFileName dbname n <> DescriptorFileName dbname n.
Proof.
  intros Hn. destruct (llu06_spec n Hn) as (Hd & Hl & _). unfold DescriptorFileName, CurrentFileName, TempFileName, MakeFileName.
  destruct (llu06 n) as [|c r] eqn:E; [cbn in Hl; lia|]. apply Forall_cons in Hd as [Hc _].
  split_and!; intros H%app_inv_head; cbn in H; injection H; intros; lia.
Qed.

Lemma SetCurrent_lookup n files w : is64 n -> files !! DescriptorFileName dbname n = Some w ->
  SetCurrentFile dbname n files !! CurrentFileName dbname = Some ((text "MANIFEST-" ++ llu06 n) ++ [10])
  /\ SetCurrentFile dbname n files !! DescriptorFileName dbname n = Some w.
Proof.
  intros Hn Hw. destruct (name_facts n Hn) as (H1 & H2 & H3). unfold SetCurrentFile. split.
  - rewrite lookup_insert_eq. f_equal. f_equal. apply base_name.
  - rewrite lookup_insert_ne by done. rewrite lookup_delete_ne by done. by rewrite lookup_insert_ne.
Qed.

Lemma add_records_app l1 l2 w : add_records (l1 ++ l2) w = w1 ← add_records l1 w; add_records l2 w1.
Proof. revert w. induction l1 as [|x l1 IH]; intros w; [done|]. cbn [app add_records]. destruct (AddRecord x w); [|done]. apply IH. Qed.

Lemma add_next es e w : Forall manifest_edit es -> manifest_edit e -> add_records (map (fun e => encode e) es) new_Writer = Some w ->
  exists w', AddRecord (encode e) w = Some w' /\ add_records (map (fun e => encode e) (es ++ [e])) new_Writer = Some w'.
Proof.
  intros Hes He Hw. destruct (add_records_total (map (fun e => encode e) (es ++ [e])) new_Writer _ new_Writer_at) as [w' Hw'].
  { apply Forall_map, Forall_app. split; [eapply Forall_impl; [exact Hes|]; intros x Hx; apply bytes_edit, Hx|].
    constructor; [apply bytes_edit, He|constructor]. }
  exists w'. split; [|done]. rewrite map_app, add_records_app, Hw in Hw'. cbn [mbind option_bind map add_records] in Hw'. by destruct (AddRecord _ w).
Qed.

Lemma tracked_next vs files es ev :
  tracked vs files es -> is64 (vs_manifest_file_number vs) -> event_ok ev ->
  fresh_edit (ev_edit ev) (apply_edits es new_Builder) empty_version ->
  exists vs' files' fe, log_one dbname ev (vs, files) = Some (vs', files') /\ tracked vs' files' (es ++ [fe])
    /\ new_files_ fe = new_files_ (ev_edit ev) /\ vs_manifest_file_number vs' = vs_manifest_file_number vs
    /\ fe = fill_numbers (advance ev.1.2 ev.2 vs) (ev_edit ev) /\ exists w', vs' = installed fe w' (advance ev.1.2 ev.2 vs).
Proof.
  intros [(w & Hd & Hw & Hfile) Hcur Hes Ht HB [Hlog Hprev]] Hm (He & Hn & Hs) Hfresh. destruct ev as [[e nf] ls]. cbn [ev_edit fst snd] in *.
  set (vs1 := advance nf ls vs). assert (vs_ok vs1) as Hvs by (split_and!; done).
  pose proof (manifest_fill vs1 e He Hvs) as Hfe. destruct (add_next es _ w Hes Hfe Hw) as (w' & Hw' & Hall).
  exists (installed (fill_numbers vs1 e) w' vs1), (<[descriptor vs := dest_ w']> files), (fill_numbers vs1 e).
  assert (fresh_edit (fill_numbers vs1 e) (apply_edits es new_Builder) empty_version) as Hfresh' by (by rewrite fill_numbers_fields).
  split_and!; [unfold log_one; cbn [fst snd]; fold vs1; by rewrite (LogAndApply_old e vs1 files w w' Hd Hw')| |by rewrite fill_numbers_fields|done|done|by exists w'].
  split.
  - exists w'. split_and!; [done|done|]. by rewrite lookup_insert_eq.
  - rewrite lookup_insert_ne by (by apply name_facts). done.
  - apply Forall_app. by split; [|constructor].
  - rewrite foldl_app. cbn [foldl]. pose proof (foldl_recover_builder es start) as Hb. destruct Ht as [T1 T2 T3 T4 T5 T6 T7].
    apply told_edit; [done|by left|by rewrite Hb|by rewrite Hb].
  - unfold apply_edits. rewrite foldl_app. cbn [foldl]. by apply Apply_ok.
  - rewrite fill_numbers_fields. cbn. destruct He as [He _]. rewrite edit_ok_parts in He. destruct He as (_ & P2 & P3 & _). split.
    + destruct (log_number_ e); [by apply P2|done].
    + destruct (prev_log_number_ e); [by apply P3|done].
Qed.

Lemma Apply_pointers_ok e cp : Forall short (map snd (compact_pointers_ e)) -> Forall short cp ->
  Forall short (Apply_pointers e cp) /\ length (Apply_pointers e cp) = length cp.
Proof.
  unfold Apply_pointers. intros He. revert cp. induction (compact_pointers_ e) as [|[l k] ps IH]; intros cp Hcp; [done|]. cbn [foldl].
  apply Forall_cons in He as [Hk He]. destruct (IH He (<[l := k]> cp)) as [H1 H2]; [by apply Forall_insert|]. by rewrite H2, length_insert.
Qed.

Lemma start_records vs fe : writable_set vs -> manifest_edit fe ->
  let snap := snapshot_edit (with_pointers_of fe vs) in
  manifest_edit snap /\ Apply_pointers snap (replicate kNumLevels []) = Apply_pointers fe (vs_compact_pointer vs)
  /\ exists w w', WriteSnapshot (with_pointers_of fe vs) new_Writer = Some w /\ AddRecord (encode fe) w = Some w'
       /\ add_records (map (fun e => encode e) [snap; fe]) new_Writer = Some w'.
Proof.
  intros [W1 W2 W3 W4 W5 W6 W7] Hfe snap. destruct (Apply_pointers_ok fe (vs_compact_pointer vs)) as [Hcp1 Hcp2]; [|done|].
  { destruct Hfe as [Hfe _]. rewrite edit_ok_parts in Hfe. destruct Hfe as (_ & _ & _ & _ & _ & P6 & _). apply Forall_map.
    eapply Forall_impl; [exact P6|]. by intros x [_ Hx]. }
  assert (manifest_edit snap) as Hsnap by (by apply manifest_snapshot). split_and!; [done| |].
  - apply (snapshot_pointers (with_pointers_of fe vs)). change (vs_compact_pointer (with_pointers_of fe vs)) with (Apply_pointers fe (vs_compact_pointer vs)). by rewrite Hcp2.
  - destruct (add_next [] snap new_Writer) as (w & Hw & Hw1); [constructor|done|done|].
    destruct (add_next [snap] fe w) as (w' & Hw' & Hall); [by constructor; [|constructor]|done|done|]. by exists w, w'.
Qed.

Lemma tracked_start vs files ev :
  vs_descriptor vs = None -> writable_set vs -> is64 (vs_manifest_file_number vs) -> event_ok ev ->
  edits_fresh [ev_edit ev] new_Builder (vs_current vs) ->
  exists vs' files' snap fe, log_one dbname ev (vs, files) = Some (vs', files') /\ tracked vs' files' [snap; fe]
    /\ (forall l base, vs_current vs !! l = Some base -> added_at l snap = base)
    /\ new_files_ fe = new_files_ (ev_edit ev) /\ vs_manifest_file_number vs' = vs_manifest_file_number vs.
Proof.
  intros Hd [W1 W2 W3 W4 W5 W6 W7] Hm (He & Hn & Hs) Hfresh. destruct ev as [[e nf] ls]. cbn [ev_edit fst snd] in *.
  set (vs1 := advance nf ls vs). assert (vs_ok vs1) as Hvs by (split_and!; done).
  pose proof (manifest_fill vs1 e He Hvs) as Hfe. set (fe := fill_numbers vs1 e) in *. set (vs2 := with_pointers_of fe vs1).
  destruct (start_records vs1 fe) as (Hsnap & Hptr & w & w' & Hw & Hw' & Hall); [by split|done|]. fold vs2 in Hsnap, Hptr, Hw, Hall.
  set (snap := snapshot_edit vs2) in *.
  assert (forall l base, vs_current vs !! l = Some base -> added_at l snap = base) as Hadd by (intros l base Hl; by apply snapshot_added).
  assert (builder_ok new_Builder empty_version) as HB0 by (apply new_Builder_ok; intros l base Hl; apply lookup_replicate in Hl as [-> _]; split; constructor).
  assert (edits_fresh [snap; fe] new_Builder empty_version) as Hf.
  { intros l base Hl. apply lookup_replicate in Hl as [-> Hl]. destruct (lookup_lt_is_Some_2 (vs_current vs) l) as [fs Hfs]; [unfold kNumLevels in *; lia|].
    specialize (Hfresh l fs Hfs). cbn [all_added map concat new_Builder added_files] in *. rewrite app_nil_r in Hfresh. rewrite (Hadd l fs Hfs).
    assert (added_at l fe = added_at l e) as -> by (unfold fe; by rewrite fill_numbers_fields). by rewrite app_nil_l. }
  destruct (edits_fresh_cons _ _ _ _ HB0 Hf) as [Hf1 Hf2]. pose proof (proj1 (Apply_ok _ _ _ HB0 Hf1)) as HB1.
  destruct (edits_fresh_cons _ _ _ _ HB1 Hf2) as [Hf3 _].
  pose proof (SetCurrent_lookup (vs_manifest_file_number vs) (<[descriptor vs := dest_ w']> (<[descriptor vs := dest_ w]> files)) (dest_ w') Hm) as [Hc1 Hc2];
    [by rewrite lookup_insert_eq|].
  exists (installed fe w' vs1), (SetCurrentFile dbname (vs_manifest_file_number vs) (<[descriptor vs := dest_ w']> (<[descriptor vs := dest_ w]> files))), snap, fe.
  split_and!; [unfold log_one; cbn [fst snd]; fold vs1; by rewrite (LogAndApply_new e vs1 files w w' Hd Hw Hw')| |done|unfold fe; by rewrite fill_numbers_fields|done].
  split.
  - exists w'. split_and!; [done|done|exact Hc2].
  - exact Hc1.
  - constructor; [done|]. by constructor; [|constructor].
  - cbn [foldl]. apply told_edit; [by apply (snapshot_current vs2)| |done|done]. right. exact Hptr.
  - apply (Apply_ok fe); done.
  - unfold fe. rewrite fill_numbers_fields. cbn. destruct He as [He _]. rewrite edit_ok_parts in He. destruct He as (_ & P2 & P3 & _). split.
    + destruct (log_number_ e); [by apply P2|done].
    + destruct (prev_log_number_ e); [by apply P3|done].
Qed.

(** *** Whole runs *)

Lemma fresh_next (cur : Version) snap es edits e :
  length cur = kNumLevels -> (forall l base, cur !! l = Some base -> added_at l snap = base) ->
  (forall l, all_added l es = all_added l edits) -> edits_fresh (edits ++ [e]) new_Builder cur ->
  fresh_edit e (apply_edits (snap :: es) new_Builder) empty_version.
Proof.
  intros Hlen Hsnap Hes Hf.
  assert (builder_ok new_Builder empty_version) as HB0 by (apply new_Builder_ok; intros l base Hl; apply lookup_replicate in Hl as [-> _]; split; constructor).
  assert (forall l base, empty_version !! l = Some base -> base = [] /\ NoDup (numbers ((added_at l snap ++ all_added l es) ++ added_at l e))) as H.
  { intros l base Hl. apply lookup_replicate in Hl as [-> Hl]. split; [done|]. destruct (lookup_lt_is_Some_2 cur l) as [fs Hfs]; [lia|].
    specialize (Hf l fs Hfs). cbn [new_Builder added_files] in Hf. rewrite app_nil_r in Hf. unfold all_added in Hf. rewrite (map_app (added_at l)), concat_app in Hf.
    cbn [map concat] in Hf. rewrite app_nil_r, app_assoc in Hf. by rewrite (Hsnap l fs Hfs), Hes. }
  assert (edits_fresh (snap :: es) new_Builder empty_version) as Hfs.
  { intros l base Hl. destruct (H l base Hl) as [-> Hnd]. cbn [new_Builder added_files all_added map concat app]. rewrite map_app in Hnd. by apply NoDup_app in Hnd as (? & _). }
  intros l base Hl. rewrite (apply_edits_added _ _ _ _ _ HB0 Hfs Hl). destruct (H l base Hl) as [-> Hnd]. exact Hnd.
Qed.

Lemma log_all_snoc evs ev st : log_all dbname (evs ++ [ev]) st = st' ← log_all dbname evs st; log_one dbname ev st'.
Proof. unfold log_all. by rewrite foldl_app. Qed.

Lemma edits_fresh_init edits e v : edits_fresh (edits ++ [e]) new_Builder v -> edits_fresh edits new_Builder v.
Proof.
  intros Hf l base Hl. specialize (Hf l base Hl). unfold all_added in Hf. rewrite (map_app (added_at l)), concat_app, app_assoc, map_app in Hf. by apply NoDup_app in Hf as (? & _).
Qed.

Lemma run_tracked vs files ev evs :
  vs_descriptor vs = None -> writable_set vs -> is64 (vs_manifest_file_number vs) -> Forall event_ok (ev :: evs) ->
  edits_fresh (map ev_edit (ev :: evs)) new_Builder (vs_current vs) ->
  exists snap es, length es = length (ev :: evs) /\ (forall l base, vs_current vs !! l = Some base -> added_at l snap = base)
    /\ (forall l, all_added l es = all_added l (map ev_edit (ev :: evs)))
    /\ forall j, (1 <= j <= length (ev :: evs))%nat -> exists vs' files', log_all dbname (take j (ev :: evs)) (vs, files) = Some (vs', files')
         /\ tracked vs' files' (snap :: take j es) /\ vs_manifest_file_number vs' = vs_manifest_file_number vs.
Proof.
  intros Hd Hw Hm. induction evs as [|ev' evs IH] using rev_ind; intros Hok Hfresh.
  - destruct (tracked_start vs files ev Hd Hw Hm) as (vs' & files' & snap & fe & H1 & H2 & H3 & H4 & H5); [by inversion Hok|done|].
    exists snap, [fe]. split_and!; [done|done| |].
    + intros l. cbn [map all_added concat]. unfold added_at. by rewrite H4.
    + intros j Hj. cbn [length] in Hj. assert (j = 1%nat) as -> by lia. exists vs', files'. done.
  - rewrite app_comm_cons in Hok, Hfresh |- *. rewrite map_app in Hfresh. apply Forall_app in Hok as [Hok Hok']. apply (proj1 (Forall_singleton _ _)) in Hok'.
    destruct (IH Hok (edits_fresh_init _ _ _ Hfresh)) as (snap & es & Hlen & Hsnap & Hadd & Hall).
    destruct (Hall (length (ev :: evs))) as (vs1 & files1 & Hrun & Htr & Hman); [cbn [length]; lia|].
    rewrite <- Hlen in Htr at 1. rewrite take_ge in Htr by lia. rewrite take_ge in Hrun by lia.
    destruct (tracked_next vs1 files1 (snap :: es) ev' Htr) as (vs' & files' & fe & H1 & H2 & H3 & H4 & _); [by rewrite Hman|exact Hok'| |].
    { eapply fresh_next; [apply Hw|exact Hsnap|exact Hadd|exact Hfresh]. }
    exists snap, (es ++ [fe]). split_and!; [rewrite !length_app, Hlen; done|done| |].
    + intros l. unfold all_added in *. rewrite !map_app, !concat_app, Hadd. f_equal. cbn [map concat]. unfold added_at. by rewrite H3.
    + intros j Hj. rewrite length_app in Hj. cbn [length] in Hj. destruct (decide (j <= length (ev :: evs))%nat) as [Hle|Hgt].
      * rewrite !take_app_le by lia. apply Hall. lia.
      * assert (j = S (length (ev :: evs))) as -> by (cbn [length] in *; lia). rewrite !take_ge by (rewrite length_app; cbn [length] in *; lia).
        exists vs', files'. rewrite log_all_snoc, Hrun. cbn [mbind option_bind]. split_and!; [done|exact H2|by rewrite H4].
Qed.

(** ** Opening the database *)

Lemma descriptor_path n : dbname ++ text "/" ++ text "MANIFEST-" ++ llu06 n = DescriptorFileName dbname n.
Proof. done. Qed.

Lemma install_told st vs : told st vs -> install_recovered st new_VersionSet = (OK, reopened vs).
Proof.
  intros [T1 T2 T3 T4 T5 T6 T7]. unfold install_recovered, reopened. rewrite T1, T4, T5, T6, T7, <- T2, <- T3. cbn [is_ok default from_option id].
  unfold MarkFileNumberUsed. by repeat destruct (_ <=? _).
Qed.

Lemma read_log_records F x : read_log F = x -> read_records (S (length F)) (new_Reader F) = x.
Proof. unfold read_log. done. Qed.

Lemma Recover_told files F r es vs :
  files !! CurrentFileName dbname = Some ((text "MANIFEST-" ++ llu06 (vs_manifest_file_number vs)) ++ [10]) ->
  files !! descriptor vs = Some F -> read_log F = Some (map (fun e => encode e) es, r) -> reported_ r = [] ->
  Forall manifest_edit es -> told (foldl recover_edit start es) vs ->
  Recover dbname new_VersionSet files = Some (OK, reopened vs).
Proof.
  intros Hc Hf Hr Hrep Hes Ht. unfold Recover. rewrite Hc, last_snoc, bool_decide_eq_false_2 by (intros H; by apply H).
  rewrite length_app, Nat.add_sub, take_app_length, descriptor_path, Hf. change (vs_compact_pointer new_VersionSet) with (replicate kNumLevels ([] : list Z)).
  rewrite (Recover_loop_edits _ _ r es start (read_log_records _ _ Hr) Hrep Hes eq_refl). cbn [mbind option_bind].
  by rewrite (install_told _ vs Ht).
Qed.

Lemma told_files_of vs files es : tracked vs files es -> exists w, vs_descriptor vs = Some w /\ add_records (map (fun e => encode e) es) new_Writer = Some w.
Proof. intros [(w & H1 & H2 & _) _ _ _ _ _]. by exists w. Qed.

Lemma take_snap snap es m : map (fun e => encode e) (snap :: take m es) = take (S m) (map (fun e => encode e) (snap :: es)).
Proof. cbn [map take]. by rewrite firstn_map. Qed.

Lemma run_recovered vs files ev evs :
  vs_descriptor vs = None -> writable_set vs -> is64 (vs_manifest_file_number vs) -> Forall event_ok (ev :: evs) ->
  edits_fresh (map ev_edit (ev :: evs)) new_Builder (vs_current vs) ->
  exists vs1 files1 w1 vs' files' w, log_all dbname [ev] (vs, files) = Some (vs1, files1) /\ vs_descriptor vs1 = Some w1
    /\ log_all dbname (ev :: evs) (vs, files) = Some (vs', files') /\ vs_descriptor vs' = Some w /\ files' !! descriptor vs = Some (dest_ w)
    /\ forall k, size (dest_ w1) <= k <= size (dest_ w) ->
         exists j vsj filesj, (1 <= j <= length (ev :: evs))%nat /\ log_all dbname (take j (ev :: evs)) (vs, files) = Some (vsj, filesj)
           /\ Recover dbname new_VersionSet (<[descriptor vs := take (Z.to_nat k) (dest_ w)]> files') = Some (OK, reopened vsj)
           /\ forall m vsm filesm wm, (1 <= m <= length (ev :: evs))%nat ->
                log_all dbname (take m (ev :: evs)) (vs, files) = Some (vsm, filesm) -> vs_descriptor vsm = Some wm ->
                (size (dest_ wm) <= k <-> (m <= j)%nat).
Proof.
  intros Hd Hw Hm Hok Hf. destruct (run_tracked vs files ev evs Hd Hw Hm Hok Hf) as (snap & es & Hlen & _ & _ & Hall).
  destruct (Hall 1%nat) as (vs1 & files1 & Hrun1 & Htr1 & _); [cbn [length]; lia|]. destruct (told_files_of _ _ _ Htr1) as (w1 & Hd1 & Hadd1).
  destruct (Hall (length (ev :: evs))) as (vs' & files' & Hrun & Htr & Hman); [cbn [length]; lia|]. rewrite <- Hlen in Htr.
  rewrite take_ge in Hrun by lia. rewrite take_ge in Htr by lia. pose proof Htr as [(w & Hdw & Haddw & Hfile) Hcur Hes _ _ _].
  exists vs1, files1, w1, vs', files', w. rewrite Hman in Hfile. split_and!; [exact Hrun1|done|done|done|done|]. intros k Hk.
  destruct (read_log_cut (map (fun e => encode e) (snap :: es)) w k) as (j' & r & Hread & Hrep & Hj' & Hfits).
  { apply Forall_map. eapply Forall_impl; [exact Hes|]. intros x Hx. apply bytes_edit, Hx. } { done. } { unfold size in *. lia. }
  rewrite length_map in Hj', Hfits. cbn [length] in Hj', Hfits.
  assert (2 <= j')%nat as Hj2.
  { apply (Hfits 2%nat w1); [destruct es; cbn in Hlen |- *; lia| |lia]. rewrite <- (take_snap snap es 1). exact Hadd1. }
  destruct j' as [|j]; [lia|]. destruct (Hall j) as (vsj & filesj & Hrunj & Htrj & Hmanj); [cbn [length] in *; lia|].
  exists j, vsj, filesj. split_and!; [lia|cbn [length] in *; lia|done| |].
  - destruct Htrj as [_ _ Hesj Htold _ _]. rewrite <- Hmanj. eapply Recover_told; [| |rewrite take_snap; exact Hread|done|done|done].
    + rewrite Hmanj, lookup_insert_ne by (by apply name_facts). by rewrite Hcur, Hman.
    + by rewrite lookup_insert_eq.
  - intros m vsm filesm wm Hmr Hrunm Hdm. destruct (Hall m Hmr) as (vsm' & filesm' & Hrunm' & Htrm & _). rewrite Hrunm in Hrunm'. simplify_eq.
    destruct (told_files_of _ _ _ Htrm) as (wm' & Hdm' & Haddm). rewrite Hdm in Hdm'. simplify_eq.
    rewrite (Hfits (S m) wm'); [lia|cbn [length] in *; lia|]. by rewrite <- take_snap.
Qed.
End run.

(** ** Failures *)

(** The environment lets a call with this version set through. *)
Definition io_ok (io : IO) (vs : VersionSet) : bool :=
  is_ok (io_sync io) && match vs_descriptor vs with None => is_ok (io_new io) && is_ok (io_current io) | Some _ => true end.

Lemma is_ok_true s : is_ok s = true <-> s = OK.
Proof. by destruct s. Qed.
Lemma is_ok_false s : is_ok s = false -> s <> OK.
Proof. by destruct s. Qed.

(** The version set but for its pointers and its descriptor. *)
Definition same_state (vs vs' : VersionSet) : Prop :=
  vs_current vs' = vs_current vs /\ vs_log_number vs' = vs_log_number vs /\ vs_prev_log_number vs' = vs_prev_log_number vs
  /\ vs_next_file_number vs' = vs_next_file_number vs /\ vs_last_sequence vs' = vs_last_sequence vs
  /\ vs_manifest_file_number vs' = vs_manifest_file_number vs.

Definition unharmed (dbname : list Z) (vs vs' : VersionSet) (files files' : Files) : Prop :=
  let d := DescriptorFileName dbname (vs_manifest_file_number vs) in
  same_state vs vs' /\ files' !! CurrentFileName dbname = files !! CurrentFileName dbname
  /\ match vs_descriptor vs with
     | None => vs_descriptor vs' = None /\ files' !! d = None
     | Some w => exists w', vs_descriptor vs' = Some w' /\ files' !! d = Some (dest_ w')
     end.

Lemma LogAndApply_old_fails dbname io e vs files w w' :
  is64 (vs_manifest_file_number vs) -> vs_descriptor vs = Some w -> AddRecord (encode (fill_numbers vs e)) w = Some w' -> is_ok (io_sync io) = false ->
  exists s vs' files', LogAndApply dbname io e vs files = Some (s, vs', files') /\ s <> OK /\ unharmed dbname vs vs' files files'.
Proof.
  intros Hm Hd Hw Hio. unfold LogAndApply. cbn [vs_descriptor]. rewrite Hd. cbn [mbind option_bind]. rewrite Hw. cbn [mbind option_bind]. rewrite Hio. cbn [andb]. rewrite Hio.
  eexists _, _, _. split; [done|]. split; [by apply is_ok_false|]. destruct (name_facts dbname _ Hm) as (H1 & _ & _). unfold unharmed. rewrite Hd.
  split_and!; try done; [by rewrite lookup_insert_ne|]. exists w'. split; [done|]. by rewrite lookup_insert_eq.
Qed.

Lemma LogAndApply_new_fails dbname io e vs files w w' :
  is64 (vs_manifest_file_number vs) -> vs_descriptor vs = None -> WriteSnapshot (with_pointers_of (fill_numbers vs e) vs) new_Writer = Some w ->
  AddRecord (encode (fill_numbers vs e)) w = Some w' -> io_ok io vs = false ->
  exists s vs' files', LogAndApply dbname io e vs files = Some (s, vs', files') /\ s <> OK /\ unharmed dbname vs vs' files files'.
Proof.
  intros Hm Hd Hs Hw Hio. unfold with_pointers_of in Hs. rewrite Hd in Hs. destruct (name_facts dbname _ Hm) as (H1 & _ & _).
  unfold io_ok in Hio. rewrite Hd in Hio. unfold LogAndApply, unharmed. cbn [vs_descriptor]. rewrite Hd.
  destruct (is_ok (io_new io)) eqn:E1; [rewrite Hs; cbn [mbind option_bind]; rewrite Hw; cbn [mbind option_bind]|cbn [mbind option_bind]; rewrite E1; cbn [andb]; rewrite E1].
  - destruct (is_ok (io_sync io)) eqn:E2; cbn [andb]; [destruct (is_ok (io_current io)) eqn:E3; [by rewrite ?E2, ?E3 in Hio|rewrite E3]|rewrite E2];
      (eexists _, _, _; split; [done|]; split; [by apply is_ok_false|]; split_and!; try done;
       [by rewrite lookup_delete_ne, !lookup_insert_ne by done|by rewrite lookup_delete_eq]).
  - eexists _, _, _. split; [done|]. split; [by apply is_ok_false|]. split_and!; try done; [by rewrite lookup_delete_ne by done|by rewrite lookup_delete_eq].
Qed.

(** ** Claims *)

(** C14: The descriptor survives crashes.  A database that has no descriptor yet logs some edits;
    between them its counters may move on.  This succeeds.  When a crash then leaves the first
    [k] bytes of the descriptor, with at least the first edit in them, opening the database
    succeeds and gives the state after the last edit whose record is complete: its version, with
    the files of all levels, its log numbers, last sequence number and compaction pointers, and
    file numbers from the next one on.  Edit [m] is in that state if and only if the bytes
    written up to and including it are there. *)
Theorem manifest_crash_recovery (dbname : list Z) (vs : VersionSet) (files : Files) (ev : event) (evs : list event) :
  vs_descriptor vs = None -> writable_set vs -> is64 (vs_manifest_file_number vs) -> Forall event_ok (ev :: evs) ->
  edits_fresh (map ev_edit (ev :: evs)) new_Builder (vs_current vs) ->
  let descriptor := DescriptorFileName dbname (vs_manifest_file_number vs) in
  exists vs1 files1 w1 vs' files' w, log_all dbname [ev] (vs, files) = Some (vs1, files1) /\ vs_descriptor vs1 = Some w1
    /\ log_all dbname (ev :: evs) (vs, files) = Some (vs', files') /\ vs_descriptor vs' = Some w /\ files' !! descriptor = Some (dest_ w)
    /\ forall k, size (dest_ w1) <= k <= size (dest_ w) ->
         exists j vsj filesj, (1 <= j <= length (ev :: evs))%nat /\ log_all dbname (take j (ev :: evs)) (vs, files) = Some (vsj, filesj)
           /\ Recover dbname new_VersionSet (<[descriptor := take (Z.to_nat k) (dest_ w)]> files') = Some (OK, reopened vsj)
           /\ forall m vsm filesm wm, (1 <= m <= length (ev :: evs))%nat ->
                log_all dbname (take m (ev :: evs)) (vs, files) = Some (vsm, filesm) -> vs_descriptor vsm = Some wm ->
                (size (dest_ wm) <= k <-> (m <= j)%nat).
Proof. apply run_recovered. Qed.

Definition event_a : event := (SetLogNumber 3 (AddFile 0 file_a new_VersionEdit), 7, 40).
Definition event_b : event := (AddFile 1 file_a (DeleteFile 0 5 (AddFile 0 file_b new_VersionEdit)), 9, 55).

(** The version set of a new database when it is opened: its descriptor will be number 2, and
    [n] is the next number. *)
Definition opening_set (n : Z) : VersionSet :=
  {| vs_next_file_number := n; vs_manifest_file_number := 2; vs_last_sequence := 0; vs_log_number := 0; vs_prev_log_number := 0;
     vs_compact_pointer := replicate kNumLevels []; vs_current := empty_version; vs_descriptor := None |}.

Lemma opening_set_writable n : writable_set (opening_set n).
Proof.
  split; try reflexivity; try (split; vm_compute; congruence).
  - intros l base Hl. apply lookup_replicate in Hl as [-> _]. split; constructor.
  - repeat constructor.
  - repeat constructor.
Qed.
Definition log_size (r : option (VersionSet * Files)) : option Z := '(vs, _) ← r; w ← vs_descriptor vs; Some (size (dest_ w)).

Lemma log_size_known dbname evs st vs files w n :
  log_all dbname evs st = Some (vs, files) -> vs_descriptor vs = Some w -> log_size (log_all dbname evs st) = Some n -> size (dest_ w) = n.
Proof. unfold log_size. intros -> Hd. cbn [mbind option_bind]. rewrite Hd. by intros [= <-]. Qed.

(** A crash in the middle of the second record. *)
Lemma manifest_crash_recovery_witness :
  let st := (opening_set 7, ∅) in
  exists vs1 files1 vs2 files2 file, log_all (text "db") [event_a] st = Some (vs1, files1)
    /\ log_all (text "db") [event_a; event_b] st = Some (vs2, files2)
    /\ files2 !! DescriptorFileName (text "db") 2 = Some file
    /\ Recover (text "db") new_VersionSet (<[DescriptorFileName (text "db") 2 := take 100 file]> files2) = Some (OK, reopened vs1).
Proof.
  intros st.
  destruct (manifest_crash_recovery (text "db") (opening_set 7) ∅ event_a [event_b])
    as (vs1 & files1 & w1 & vs2 & files2 & w & Hrun1 & Hd1 & Hrun & Hd & Hfile & Hk).
  - reflexivity.
  - apply opening_set_writable.
  - split; vm_compute; congruence.
  - repeat constructor; vm_compute; lia || congruence || auto.
  - intros l base Hl. do 7 (destruct l as [|l]; [injection Hl as <-; apply (bool_decide_unpack _); vm_compute; exact I|]). done.
  - pose proof (log_size_known _ _ _ _ _ _ 74 Hrun1 Hd1 ltac:(vm_compute; reflexivity)) as E1.
    pose proof (log_size_known _ _ _ _ _ _ 141 Hrun Hd ltac:(vm_compute; reflexivity)) as E2.
    destruct (Hk 100 ltac:(lia)) as (j & vsj & filesj & Hj & Hrunj & Hrec & Hfits).
    assert (j = 1%nat) as ->.
    { pose proof (Hfits 2%nat vs2 files2 w ltac:(cbn; lia) Hrun Hd). cbn [length] in Hj. lia. }
    exists vs1, files1, vs2, files2, (dest_ w). split; [exact Hrun1|]. split; [exact Hrun|]. split; [exact Hfile|].
    change (take 1 [event_a; event_b]) with [event_a] in Hrunj. rewrite Hrun1 in Hrunj. injection Hrunj as <- <-. exact Hrec.
Defined.

(** C38: A failed write of the descriptor changes nothing.  When the environment fails to create,
    to sync or to install a descriptor, [LogAndApply] returns an error.  The current version, the
    log numbers and the counters are as before, and CURRENT names what it named; a descriptor that
    was being created is gone, and the next call starts a new one.  A descriptor that was in use
    stays in use, with the record of the failed edit in it. *)
Theorem log_and_apply_failure (dbname : list Z) (io : IO) (e : VersionEdit) (vs : VersionSet) (files : Files) :
  manifest_edit e -> vs_ok vs -> is64 (vs_manifest_file_number vs) ->
  (vs_descriptor vs = None /\ writable_set vs) \/ (exists es, tracked dbname vs files es) -> io_ok io vs = false ->
  exists s vs' files', LogAndApply dbname io e vs files = Some (s, vs', files') /\ s <> OK /\ unharmed dbname vs vs' files files'.
Proof.
  intros He Hvs Hm Hst Hio. pose proof (manifest_fill vs e He Hvs) as Hfe. destruct Hst as [[Hd Hw]|[es Htr]].
  - destruct (start_records vs _ Hw Hfe) as (_ & _ & w & w' & H1 & H2 & _). by eapply LogAndApply_new_fails.
  - pose proof Htr as [(w & Hd & Hw & _) _ Hes _ _ _]. destruct (add_next es _ w Hes Hfe Hw) as (w' & Hw' & _).
    eapply LogAndApply_old_fails; [done|done|done|]. unfold io_ok in Hio. rewrite Hd, andb_true_r in Hio. done.
Qed.

Lemma log_and_apply_failure_witness :
  exists s vs' files', LogAndApply (text "db") {| io_new := OK; io_sync := IOError "disk full"; io_current := OK |} (ev_edit event_a) (opening_set 7) ∅ = Some (s, vs', files')
    /\ s <> OK /\ unharmed (text "db") (opening_set 7) vs' ∅ files'.
Proof.
  apply (log_and_apply_failure (text "db") {| io_new := OK; io_sync := IOError "disk full"; io_current := OK |} (ev_edit event_a) (opening_set 7) ∅).
  - repeat constructor; vm_compute; lia || congruence || auto.
  - split_and!; split; vm_compute; congruence.
  - split; vm_compute; congruence.
  - left. split; [reflexivity|]. apply (opening_set_writable 7).
  - reflexivity.
Defined.
