(* ===== verification/CompactMem.v ===== *)
(** * From the immutable table to a durable version: CompactMemTable of db/db_impl.cc in
    src/packages/LevelDB.1.16.0.5/lib/native/src

    The background thread writes the immutable table in memory to a table file, logs the edit
    in the descriptor and drops the table.  Here the parts come together: the version that the
    database then has answers for the operations of the table too, and so does the one that a
    restart finds.

    The list of pending outputs, statistics, the error that is recorded and the deletion of
    obsolete files are left out. *)
From stdpp Require Import base numbers option sets gmap list sorting strings.
From S2P Require Import Prelude Coding LogFile SkipList DbFormat MemTable WriteBatch Bloom FilterBlock TableBlock TableFile VersionEdit VersionSet VersionBuilder Level0 FileName Manifest.
Open Scope list_scope.
Open Scope Z_scope.
Open Scope word_scope.

(** The tables by number, and the other files by name. *)
Record Storage := { st_tables : gmap Z (list Z); st_files : Files }.

Section compact.
Context `{FilterPolicy} `{Compression} (interval block_size compression : Z) (policy_name : option (list Z)) (dbname : list Z).

(** The status, what is left of [imm_], the version set and the storage. *)
Definition CompactMemTable (io : IO) (shutting_down : bool) (logfile_number : Z) (imm : SkipList (list Z)) (vs : VersionSet) (st : Storage)
    : option (Status * option (SkipList (list Z)) * VersionSet * Storage) :=
  let base := vs_current vs in
  let '(file_number, vs) := NewFileNumber vs in
  '(s, edit, tables) ← WriteLevel0Table interval block_size compression policy_name imm file_number new_VersionEdit (Some base) (st_tables st);
  let s := if is_ok s && shutting_down then IOError "Deleting DB during memtable compaction" else s in
  '(s, vs, files) ←
    (if is_ok s
     then LogAndApply dbname io (SetLogNumber logfile_number (SetPrevLogNumber 0 edit)) vs (st_files st)
     else Some (s, vs, st_files st));
  Some (s, if is_ok s then None else Some imm, vs, {| st_tables := tables; st_files := files |}).
End compact.

Section durable.
Context `{FilterPolicy} `{!UserKeyFilter} `{Compression} (interval block_size compression : Z) (policy_name : option (list Z)) (dbname : list Z).
Context (Interval : 1 <= interval) (Name : name_ok policy_name).

(** A running database: its descriptor holds [es], and its version the operations [all]. *)
Record running (vs : VersionSet) (st : Storage) (es : list VersionEdit) (all : list op) : Prop := {
  run_tracked_ : tracked dbname vs (st_files st) es;
  run_manifest : is64 (vs_manifest_file_number vs);
  run_next : is64 (vs_next_file_number vs);
  run_last : is64 (vs_last_sequence vs);
  (** the numbers that were given to files are below the next one *)
  run_numbers : forall l f, (l < kNumLevels)%nat -> f ∈ all_added l es -> number f < vs_next_file_number vs;
  run_fresh : edits_fresh es new_Builder empty_version;
  run_holds : version_holds policy_name (st_tables st) (vs_current vs) (vs_next_file_number vs) all }.

Lemma one_file_fresh es L meta e :
  edits_fresh es new_Builder empty_version -> (forall l f, (l < kNumLevels)%nat -> f ∈ all_added l es -> number f < number meta) ->
  (new_files_ e = [] \/ new_files_ e = [(L, meta)]) -> edits_fresh (es ++ [e]) new_Builder empty_version.
Proof.
  intros Hf Hn He l base Hl. specialize (Hf l base Hl). unfold all_added in *. rewrite (map_app (added_at l)), concat_app, app_assoc, map_app.
  assert (concat (map (added_at l) [e]) = [] \/ concat (map (added_at l) [e]) = [meta]) as Hadd.
  { cbn [map concat]. rewrite app_nil_r. unfold added_at. destruct He as [->| ->]; [by left|]. rewrite filter_cons, filter_nil. cbn [fst]. destruct (decide (L = l)); auto. }
  apply NoDup_app. split; [done|]. destruct Hadd as [->| ->]; cbn [map]; [split; [intros x _ Hx; by apply elem_of_nil in Hx|constructor]|].
  split; [|apply NoDup_singleton]. intros x Hx ->%list_elem_of_singleton. apply lookup_replicate in Hl as [-> Hl]. cbn [new_Builder added_files app] in Hx.
  apply list_elem_of_fmap in Hx as (f & E & Hin). specialize (Hn l f Hl Hin). lia.
Qed.

Lemma fresh_of_edits es e : edits_fresh (es ++ [e]) new_Builder empty_version -> fresh_edit e (apply_edits es new_Builder) empty_version.
Proof.
  intros Hf l base Hl.
  assert (builder_ok new_Builder empty_version) as HB0 by (apply new_Builder_ok; intros m b Hb; apply lookup_replicate in Hb as [-> _]; split; constructor).
  rewrite (apply_edits_added es new_Builder empty_version l base HB0 (edits_fresh_init _ _ _ Hf) Hl). specialize (Hf l base Hl).
  unfold all_added in *. rewrite (map_app (added_at l)), concat_app in Hf. cbn [map concat new_Builder added_files] in *.
  rewrite !app_nil_r in Hf. rewrite app_nil_l. by rewrite <- app_assoc.
Qed.

Lemma LogAndApply_io io e vs files w : vs_descriptor vs = Some w -> io_sync io = OK -> LogAndApply dbname io e vs files = LogAndApply dbname all_ok e vs files.
Proof. intros Hd Hio. unfold LogAndApply. cbn [vs_descriptor]. rewrite Hd, Hio. cbn [mbind option_bind]. by destruct (AddRecord _ w). Qed.

Lemma compact_mem io vs st es all ops imm logfile :
  running vs st es all -> MemTable.mem_inv imm ops -> writable interval block_size compression policy_name imm ops ->
  Forall (fun o => Forall (seq_lt o) ops) all -> is64 logfile -> io_sync io = OK -> vs_next_file_number vs + 1 < 0x1_0000_0000_0000_0000 ->
  exists vs' st' fe, CompactMemTable interval block_size compression policy_name dbname io false logfile imm vs st = Some (OK, None, vs', st')
    /\ running vs' st' (es ++ [fe]) (all ++ ops) /\ vs_log_number vs' = logfile /\ vs_prev_log_number vs' = 0
    /\ vs_next_file_number vs' = vs_next_file_number vs + 1.
Proof.
  intros [Htr Hm Hn Hl Hnum Hfresh Hholds] Hmem Hw Hold Hlog Hio Hmax. set (n := vs_next_file_number vs) in *. unfold is64 in Hn.
  destruct (flush_holds policy_name interval block_size compression Interval Name (st_tables st) (vs_current vs) n all n imm ops (Some (vs_current vs)))
    as (edit & tables & Hwrite & Hv & Hempty & Hfile); [done|done|done|done|lia|by right|].
  set (e := SetLogNumber logfile (SetPrevLogNumber 0 edit)). set (ev := (e, w64 (n + 1), vs_last_sequence vs)).
  assert (w64 (n + 1) = n + 1) as Hn1 by (apply w64_small; unfold is64; lia).
  assert (manifest_edit edit /\ exists L meta, number meta = n /\ (new_files_ edit = [] \/ new_files_ edit = [(L, meta)])) as (He & L & meta & Hmeta & Hnew).
  { destruct (decide (ops = [])) as [Ho|Ho].
    - destruct (Hempty Ho) as [-> _]. split; [|exists 0%nat, {| number := n; file_size := 0; smallest := []; largest := [] |}; split; [done|by left]].
      split; [|by left]. split; constructor.
    - destruct (Hfile Ho) as (L & meta & file & HL & -> & Hmeta & Hok & _). split; [|exists L, meta; split; [done|by right]].
      split; [|by left]. apply edit_ok_parts. cbn. split_and!; try done; try constructor; cbn; [split; [done|apply Hok; unfold is64; lia]|constructor]. }
  assert (manifest_edit e) as He'.
  { destruct He as [He Hc]. split; [|done]. rewrite edit_ok_parts in *. unfold e. cbn. destruct He as (P1 & P2 & P3 & P4 & P5 & P6 & P7 & P8 & P9).
    split_and!; try done; [by intros x [= <-]|intros x [= <-]; unfold is64; lia]. }
  assert (edits_fresh (es ++ [e]) new_Builder empty_version) as Hf.
  { apply (one_file_fresh es L meta); [done|by rewrite Hmeta|done]. }
  destruct (tracked_next dbname vs (st_files st) es ev Htr Hm) as (vs' & files' & fe & Hone & Htr' & Hfe & Hman & Efe & w' & Evs).
  { split; [done|]. split; [cbn; rewrite Hn1; unfold is64; lia|done]. } { by apply fresh_of_edits. }
  assert (vs_current vs' = SaveTo (Apply edit new_Builder) (vs_current vs)) as Hcur by (rewrite Evs, Efe, fill_numbers_fields; done).
  exists vs', {| st_tables := tables; st_files := files' |}, fe. split_and!.
  - unfold CompactMemTable, NewFileNumber. fold n. rewrite Hwrite. cbn [mbind option_bind is_ok andb].
    unfold log_one in Hone. cbn [fst snd ev] in Hone. destruct (tr_log _ _ _ _ Htr) as (w & Hd & _).
    rewrite (LogAndApply_io io e _ _ w) by done. change (set_next_file (w64 (n + 1)) vs) with (advance (w64 (n + 1)) (vs_last_sequence vs) vs).
    destruct (LogAndApply dbname all_ok e _ (st_files st)) as [[[s vs2] files2]|]; [|done]. cbn [mbind option_bind] in Hone |- *.
    destruct s; cbn [is_ok] in Hone; try done. by injection Hone as -> ->.
  - split; [done|by rewrite Hman| | | | |].
    + rewrite Evs. cbn. unfold is64. lia.
    + by rewrite Evs.
    + intros l f Hlt Hf'. replace (vs_next_file_number vs') with (n + 1) by (rewrite Evs; cbn; lia). unfold all_added in Hf'.
      rewrite map_app, concat_app in Hf'. apply elem_of_app in Hf' as [Hf'|Hf']; [specialize (Hnum l f Hlt Hf'); lia|].
      cbn [map concat] in Hf'. rewrite app_nil_r in Hf'. unfold added_at in Hf'. rewrite Hfe in Hf'. change (new_files_ (ev_edit ev)) with (new_files_ edit) in Hf'.
      apply list_elem_of_fmap in Hf' as (p & -> & [_ Hp]%list_elem_of_filter).
      destruct Hnew as [Hnew|Hnew]; rewrite Hnew in Hp; [by apply elem_of_nil in Hp|]. apply list_elem_of_singleton in Hp as ->. cbn. lia.
    + apply (one_file_fresh es L meta); [done|by rewrite Hmeta|by rewrite Hfe].
    + rewrite Hcur. replace (vs_next_file_number vs') with (n + 1) by (rewrite Evs; cbn; lia). done.
  - rewrite Evs, Efe, fill_numbers_fields. done.
  - rewrite Evs, Efe, fill_numbers_fields. done.
  - rewrite Evs. exact Hn1.
Qed.

(** Opening a database that runs. *)
Lemma running_recovered vs st es all : running vs st es all -> Recover dbname new_VersionSet (st_files st) = Some (OK, reopened vs).
Proof.
  intros [Htr Hm Hn Hl Hnum Hfresh Hholds]. pose proof Htr as [(w & Hd & Hw & Hfile) Hcur Hes Ht HB Hlog].
  destruct (read_log_cut (map (fun e => VersionEdit_EncodeTo e []) es) w (size (dest_ w))) as (j & r & Hread & Hrep & Hj & Hfits); [|done|unfold size; lia|].
  { apply Forall_map. eapply Forall_impl; [exact Hes|]. intros x Hx. apply bytes_edit, Hx. }
  assert (length es <= j)%nat as Hall.
  { apply (Hfits (length es) w); [by rewrite length_map| |lia]. by rewrite take_ge by (rewrite length_map; lia). }
  rewrite (take_ge (map _ es)) in Hread by (rewrite length_map in *; lia). unfold size in Hread. rewrite Nat2Z.id, take_ge in Hread by lia.
  eapply Recover_told; [exact Hcur|exact Hfile|exact Hread|exact Hrep|exact Hes|exact Ht].
Qed.
End durable.

(** C13: The background thread makes a table in memory durable.  When a running database compacts
    its immutable table, and the environment does not fail, the call succeeds and drops the table.
    The version that is current then answers for the operations of the table and for all older
    ones, and the database goes on running.  A restart from the files at that moment succeeds and
    finds this very version, and a log number from which on the logs are still needed. *)
Theorem compact_memtable_durable `{FilterPolicy} `{!UserKeyFilter} `{Compression} (interval block_size compression : Z)
    (policy_name : option (list Z)) (dbname : list Z) (io : IO) (vs : VersionSet) (st : Storage) (es : list VersionEdit)
    (all ops : list op) (imm : SkipList (list Z)) (logfile : Z) :
  1 <= interval -> name_ok policy_name -> running policy_name dbname vs st es all -> MemTable.mem_inv imm ops ->
  writable interval block_size compression policy_name imm ops -> Forall (fun o => Forall (seq_lt o) ops) all ->
  is64 logfile -> io_sync io = OK -> vs_next_file_number vs + 2 < 0x1_0000_0000_0000_0000 ->
  exists vs' st' es', CompactMemTable interval block_size compression policy_name dbname io false logfile imm vs st = Some (OK, None, vs', st')
    /\ running policy_name dbname vs' st' es' (all ++ ops)
    /\ Recover dbname new_VersionSet (st_files st') = Some (OK, reopened vs')
    /\ version_holds policy_name (st_tables st') (vs_current (reopened vs')) (vs_next_file_number (reopened vs')) (all ++ ops)
    /\ vs_log_number (reopened vs') = logfile.
Proof.
  intros Hi Hname Hrun Hmem Hw Hold Hlog Hio Hmax.
  destruct (compact_mem interval block_size compression policy_name dbname Hi Hname io vs st es all ops imm logfile) as (vs' & st' & fe & H1' & H2' & H3' & _ & H5'); try done; [lia|].
  exists vs', st', (es ++ [fe]). split_and!; [done|done|by eapply running_recovered| |done].
  pose proof (run_next _ _ _ _ _ _ Hrun) as Hn. unfold is64 in Hn. eapply version_holds_mono; [apply (run_holds _ _ _ _ _ _ H2')|].
  cbn [reopened vs_next_file_number]. rewrite H5', w64_small; unfold is64; lia.
Qed.

(** A new database, with a first edit in its descriptor: its first log was number 3, and number
    4 is the log that was begun when the table was set aside. *)
Definition first_event : event := (SetLogNumber 3 new_VersionEdit, 5, 0).

Lemma first_running `{FilterPolicy} `{Compression} policy_name :
  exists vs files es, log_one (text "db") first_event (opening_set 4, ∅) = Some (vs, files)
    /\ running policy_name (text "db") vs {| st_tables := ∅; st_files := files |} es [] /\ vs_next_file_number vs = 5.
Proof.
  destruct (tracked_start (text "db") (opening_set 4) ∅ first_event) as (vs & files & snap & fe & Hlog & Htr & Hsnap & Hfe & Hman).
  - done.
  - apply (opening_set_writable 4).
  - split; vm_compute; congruence.
  - repeat constructor; vm_compute; lia || congruence || auto.
  - intros l base Hl. apply lookup_replicate in Hl as [-> _]. constructor.
  - exists vs, files, [snap; fe].
    assert ((fun r => (vs_current r.1, vs_next_file_number r.1, vs_last_sequence r.1)) <$> log_one (text "db") first_event (opening_set 4, ∅)
      = Some (empty_version, 5, 0)) as E by (vm_compute; reflexivity).
    rewrite Hlog in E. cbn in E. injection E as Ec En El.
    assert (forall l, (l < kNumLevels)%nat -> all_added l [snap; fe] = []) as Hnone.
    { intros l Hl. cbn [all_added map concat]. rewrite (Hsnap l []) by (by apply lookup_replicate_2). unfold added_at. by rewrite Hfe. }
    split_and!; [done| |done]. split; [done|by rewrite Hman|by rewrite En|by rewrite El| | |rewrite Ec; apply empty_version_holds].
    + intros l f Hl. rewrite Hnone by done. intros Hf. by apply elem_of_nil in Hf.
    + intros l base Hl. apply lookup_replicate in Hl as [-> Hl]. rewrite Hnone by done. constructor.
Qed.

Lemma compact_memtable_durable_witness :
  exists vs st vs' st', log_one (text "db") first_event (opening_set 4, ∅) = Some (vs, st_files st)
    /\ @CompactMemTable some_policy zero_runs 2 30 kSnappyCompression (Some [98]) (text "db") all_ok false 4 some_mem vs st = Some (OK, None, vs', st')
    /\ Recover (text "db") new_VersionSet (st_files st') = Some (OK, reopened vs').
Proof.
  destruct (@first_running some_policy zero_runs (Some [98])) as (vs & files & es & Hlog & Hrun & Hnext).
  destruct (@compact_memtable_durable some_policy _ zero_runs 2 30 kSnappyCompression (Some [98]) (text "db") all_ok vs
    {| st_tables := ∅; st_files := files |} es [] some_ops some_mem 4) as (vs' & st' & es' & Hc & _ & Hr & _).
  - lia.
  - apply some_name.
  - exact Hrun.
  - apply some_mem_inv.
  - apply some_writable.
  - constructor.
  - unfold is64. lia.
  - reflexivity.
  - rewrite Hnext. reflexivity.
  - exists vs, {| st_tables := ∅; st_files := files |}, vs', st'. split; [exact Hlog|]. split; [exact Hc|exact Hr].
Defined.

(** The same, computed: the file goes to level 2, the next number is 6 and the logs before 4 are done with. *)
Example compact_first :
  (r ← log_one (text "db") first_event (opening_set 4, ∅);
   '(s, imm, vs, st) ← @CompactMemTable some_policy zero_runs 2 30 kSnappyCompression (Some [98]) (text "db") all_ok false 4 some_mem (fst r)
                         {| st_tables := ∅; st_files := snd r |};
   '(s', vs'') ← Recover (text "db") new_VersionSet (st_files st);
   Some (s, s', map length (vs_current vs''), vs_log_number vs'', vs_manifest_file_number vs''))
  = Some (OK, OK, [0; 0; 1; 0; 0; 0; 0]%nat, 4, 6).
Proof. vm_compute. reflexivity. Qed.
