(* ===== verification/SnappyFormat.v ===== *)
(** * The format of Snappy:
    src/packages/Snappy.1.1.1.7/lib/native/src/snappy.cc and include/snappy-stubs-internal.h

    LevelDB compresses the blocks of its tables with Snappy.  This file holds memory with
    its bounds, the tables and the variable-length numbers that both directions share, and
    a reference definition of what a compressed text means: a sequence of elements, each
    a literal or a copy of bytes that were produced before. *)
From stdpp Require Import base numbers option list.
From S2P Require Import Prelude Coding.
Open Scope Z_scope.
Open Scope word_scope.

(** A list of numbers that are bytes. *)
Ltac byte_list := repeat (constructor; [unfold is8; lia|]); constructor.

(** ** Memory

    An array is the list of its bytes and a pointer is a position in it; [None] is an
    access outside the array. *)

Definition load (mem : list Z) (p n : nat) : option (list Z) :=
  if (p + n <=? length mem)%nat then Some (take n (drop p mem)) else None.
Definition store (mem : list Z) (p : nat) (bs : list Z) : option (list Z) :=
  if (p + length bs <=? length mem)%nat then Some (take p mem ++ bs ++ drop (p + length bs) mem) else None.

(** The machine is little-endian and has pointers of 64 bits, so that eight bytes are
    loaded before they are stored. *)
Definition UNALIGNED_LOAD32 (mem : list Z) (p : nat) : option Z := le_val <$> load mem p 4.
Definition UNALIGNED_LOAD64 (mem : list Z) (p : nat) : option Z := le_val <$> load mem p 8.
Definition UNALIGNED_STORE16 (mem : list Z) (p : nat) (v : Z) : option (list Z) := store mem p (le_bytes 2 v).
Definition UNALIGNED_STORE64 (mem : list Z) (p : nat) (v : Z) : option (list Z) := store mem p (le_bytes 8 v).

(** [UnalignedCopy64] from one array to another; inside an array the two are the same. *)
Definition UnalignedCopy64 (from : list Z) (src : nat) (mem : list Z) (dst : nat) : option (list Z) :=
  v ← UNALIGNED_LOAD64 from src;
  UNALIGNED_STORE64 mem dst v.

Definition memcpy (from : list Z) (src : nat) (mem : list Z) (dst n : nat) : option (list Z) :=
  bs ← load from src n;
  store mem dst bs.

(** ** Tags *)

Definition LITERAL : Z := 0.
Definition COPY_1_BYTE_OFFSET : Z := 1.
Definition COPY_2_BYTE_OFFSET : Z := 2.
Definition COPY_4_BYTE_OFFSET : Z := 3.
Definition kMaximumTagLength : nat := 5.

Definition wordmask : list Z := [0; 0xff; 0xffff; 0xffffff; 0xffffffff].

Definition char_table : list Z :=
  [0x0001; 0x0804; 0x1001; 0x2001; 0x0002; 0x0805; 0x1002; 0x2002;
   0x0003; 0x0806; 0x1003; 0x2003; 0x0004; 0x0807; 0x1004; 0x2004;
   0x0005; 0x0808; 0x1005; 0x2005; 0x0006; 0x0809; 0x1006; 0x2006;
   0x0007; 0x080a; 0x1007; 0x2007; 0x0008; 0x080b; 0x1008; 0x2008;
   0x0009; 0x0904; 0x1009; 0x2009; 0x000a; 0x0905; 0x100a; 0x200a;
   0x000b; 0x0906; 0x100b; 0x200b; 0x000c; 0x0907; 0x100c; 0x200c;
   0x000d; 0x0908; 0x100d; 0x200d; 0x000e; 0x0909; 0x100e; 0x200e;
   0x000f; 0x090a; 0x100f; 0x200f; 0x0010; 0x090b; 0x1010; 0x2010;
   0x0011; 0x0a04; 0x1011; 0x2011; 0x0012; 0x0a05; 0x1012; 0x2012;
   0x0013; 0x0a06; 0x1013; 0x2013; 0x0014; 0x0a07; 0x1014; 0x2014;
   0x0015; 0x0a08; 0x1015; 0x2015; 0x0016; 0x0a09; 0x1016; 0x2016;
   0x0017; 0x0a0a; 0x1017; 0x2017; 0x0018; 0x0a0b; 0x1018; 0x2018;
   0x0019; 0x0b04; 0x1019; 0x2019; 0x001a; 0x0b05; 0x101a; 0x201a;
   0x001b; 0x0b06; 0x101b; 0x201b; 0x001c; 0x0b07; 0x101c; 0x201c;
   0x001d; 0x0b08; 0x101d; 0x201d; 0x001e; 0x0b09; 0x101e; 0x201e;
   0x001f; 0x0b0a; 0x101f; 0x201f; 0x0020; 0x0b0b; 0x1020; 0x2020;
   0x0021; 0x0c04; 0x1021; 0x2021; 0x0022; 0x0c05; 0x1022; 0x2022;
   0x0023; 0x0c06; 0x1023; 0x2023; 0x0024; 0x0c07; 0x1024; 0x2024;
   0x0025; 0x0c08; 0x1025; 0x2025; 0x0026; 0x0c09; 0x1026; 0x2026;
   0x0027; 0x0c0a; 0x1027; 0x2027; 0x0028; 0x0c0b; 0x1028; 0x2028;
   0x0029; 0x0d04; 0x1029; 0x2029; 0x002a; 0x0d05; 0x102a; 0x202a;
   0x002b; 0x0d06; 0x102b; 0x202b; 0x002c; 0x0d07; 0x102c; 0x202c;
   0x002d; 0x0d08; 0x102d; 0x202d; 0x002e; 0x0d09; 0x102e; 0x202e;
   0x002f; 0x0d0a; 0x102f; 0x202f; 0x0030; 0x0d0b; 0x1030; 0x2030;
   0x0031; 0x0e04; 0x1031; 0x2031; 0x0032; 0x0e05; 0x1032; 0x2032;
   0x0033; 0x0e06; 0x1033; 0x2033; 0x0034; 0x0e07; 0x1034; 0x2034;
   0x0035; 0x0e08; 0x1035; 0x2035; 0x0036; 0x0e09; 0x1036; 0x2036;
   0x0037; 0x0e0a; 0x1037; 0x2037; 0x0038; 0x0e0b; 0x1038; 0x2038;
   0x0039; 0x0f04; 0x1039; 0x2039; 0x003a; 0x0f05; 0x103a; 0x203a;
   0x003b; 0x0f06; 0x103b; 0x203b; 0x003c; 0x0f07; 0x103c; 0x203c;
   0x0801; 0x0f08; 0x103d; 0x203d; 0x1001; 0x0f09; 0x103e; 0x203e;
   0x1801; 0x0f0a; 0x103f; 0x203f; 0x2001; 0x0f0b; 0x1040; 0x2040].

Definition MakeEntry (extra len copy_offset : Z) : Z :=
  w16 (len .| Z.shiftl copy_offset 8 .| Z.shiftl extra 11).

(** A store into [dst] with its count of assignments. *)
Definition assign (i v : Z) (st : list Z * Z) : list Z * Z := (<[Z.to_nat i := v]> (fst st), snd st + 1).
Definition each (lo hi : Z) (f : Z -> list Z * Z -> list Z * Z) (st : list Z * Z) : list Z * Z :=
  foldl (fun st i => f i st) st (seqZ lo (hi - lo)).

(** The check of [char_table] that a debug build makes; [None] stands for [abort]. *)
Definition ComputeTable : option (list Z) :=
  let st := (replicate 256 0xffff, 0) in
  let st := each 1 61 (fun len => assign (LITERAL .| Z.shiftl (len - 1) 2) (MakeEntry 0 len 0)) st in
  let st := each 1 5 (fun extra => assign (LITERAL .| Z.shiftl (extra + 59) 2) (MakeEntry extra 1 0)) st in
  let st := each 4 12 (fun len =>
    each 0 8 (fun high =>
      let offset := 256 * high in
      assign (COPY_1_BYTE_OFFSET .| Z.shiftl (len - 4) 2 .| Z.shiftl (Z.shiftr offset 8) 5)
             (MakeEntry 1 len (Z.shiftr offset 8)))) st in
  let st := each 1 65 (fun len => assign (COPY_2_BYTE_OFFSET .| Z.shiftl (len - 1) 2) (MakeEntry 2 len 0)) st in
  let '(dst, assigned) := each 1 65 (fun len => assign (COPY_4_BYTE_OFFSET .| Z.shiftl (len - 1) 2) (MakeEntry 4 len 0)) st in
  if negb (assigned =? 256) then None
  else if existsb (fun e => e =? 0xffff) dst then None
  else if bool_decide (dst = char_table) then Some dst else None.

(** ** Numbers of variable length *)

(** [Varint::Parse32WithLimit]: the number and the bytes behind it. *)
Definition Parse32WithLimit (ptr : list Z) : option (Z * list Z) :=
  match ptr with
  | [] => None
  | b :: ptr =>
      let result := b .& 127 in
      if b <? 128 then Some (result, ptr) else
      match ptr with
      | [] => None
      | b :: ptr =>
          let result := result .| (b .& 127) << 7 in
          if b <? 128 then Some (result, ptr) else
          match ptr with
          | [] => None
          | b :: ptr =>
              let result := result .| (b .& 127) << 14 in
              if b <? 128 then Some (result, ptr) else
              match ptr with
              | [] => None
              | b :: ptr =>
                  let result := result .| (b .& 127) << 21 in
                  if b <? 128 then Some (result, ptr) else
                  match ptr with
                  | [] => None
                  | b :: ptr =>
                      let result := result .| (b .& 127) << 28 in
                      if b <? 16 then Some (result, ptr) else None
                  end
              end
          end
      end
  end.

Definition Encode32 (v : Z) : list Z :=
  if v <? Z.shiftl 1 7 then [w8 v]
  else if v <? Z.shiftl 1 14 then [w8 (v .| 128); w8 (v >> 7)]
  else if v <? Z.shiftl 1 21 then [w8 (v .| 128); w8 ((v >> 7) .| 128); w8 (v >> 14)]
  else if v <? Z.shiftl 1 28 then [w8 (v .| 128); w8 ((v >> 7) .| 128); w8 ((v >> 14) .| 128); w8 (v >> 21)]
  else [w8 (v .| 128); w8 ((v >> 7) .| 128); w8 ((v >> 14) .| 128); w8 ((v >> 21) .| 128); w8 (v >> 28)].

(** ** What a compressed text means *)

Inductive element :=
  | Literal (bs : list Z)
  | Copy (offset length : Z).

(** The bytes between a tag and what follows. *)
Definition extra_bytes (tag : Z) : nat :=
  if tag mod 4 =? 0 then (if tag / 4 <? 60 then 0 else Z.to_nat (tag / 4 - 59))
  else if tag mod 4 =? 1 then 1
  else if tag mod 4 =? 2 then 2 else 4.

(** Lengths have 32 bits: the largest one of a literal, 2^32, is read as 0, an empty literal. *)
Definition read_element (l : list Z) : option (element * list Z) :=
  match l with
  | [] => None
  | tag :: l =>
      let extra := extra_bytes tag in
      if (length l <? extra)%nat then None
      else
        let x := le_val (take extra l) in
        let l := drop extra l in
        if tag mod 4 =? 0 then
          let len := w32 ((if tag / 4 <? 60 then tag / 4 else x) + 1) in
          if Z.of_nat (length l) <? len then None
          else Some (Literal (take (Z.to_nat len) l), drop (Z.to_nat len) l)
        else if tag mod 4 =? 1 then Some (Copy (tag / 32 * 256 + x) (4 + tag / 4 mod 8), l)
        else Some (Copy x (tag / 4 + 1), l)
  end.

(** A copy repeats the byte [off] places back, [len] times. *)
Fixpoint self_copy (off len : nat) (out : list Z) : list Z :=
  match len with
  | O => out
  | S len' => self_copy off len' (out ++ [out !!! (length out - off)%nat])
  end.

Definition apply_element (e : element) (out : list Z) : option (list Z) :=
  match e with
  | Literal bs => Some (out ++ bs)
  | Copy offset len =>
      if (1 <=? offset) && (offset <=? Z.of_nat (length out))
      then Some (self_copy (Z.to_nat offset) (Z.to_nat len) out) else None
  end.

Fixpoint decode_loop (fuel : nat) (l out : list Z) : option (list Z) :=
  match l with
  | [] => Some out
  | _ =>
      match fuel with
      | O => None
      | S fuel' =>
          '(e, l) ← read_element l;
          out ← apply_element e out;
          decode_loop fuel' l out
      end
  end.

(** Every element takes a byte at least. *)
Definition decode (l out : list Z) : option (list Z) := decode_loop (length l) l out.

(** A whole text: the length of the result, of which only the lower 32 bits count, and
    elements that produce so many bytes. *)
Definition meaning (data : list Z) : option (list Z) :=
  '(n, l) ← GetVarint32Ptr data;
  out ← decode l [];
  if Z.of_nat (length out) =? n then Some out else None.

(** ** Memory and prefixes

    What has been produced is a prefix of the array it is written to. *)

Lemma load_Some mem p n : (p + n <= length mem)%nat -> load mem p n = Some (take n (drop p mem)).
Proof. intros H. unfold load. by rewrite (proj2 (Nat.leb_le _ _) H). Qed.

Lemma store_Some mem p bs :
  (p + length bs <= length mem)%nat -> store mem p bs = Some (take p mem ++ bs ++ drop (p + length bs) mem).
Proof. intros H. unfold store. by rewrite (proj2 (Nat.leb_le _ _) H). Qed.

Lemma store_lookup mem p bs :
  (p + length bs <= length mem)%nat ->
  exists mem', store mem p bs = Some mem' /\ length mem' = length mem
    /\ forall i, mem' !! i = if decide (p <= i < p + length bs)%nat then bs !! (i - p)%nat else mem !! i.
Proof.
  intros H. eexists. split; [by apply store_Some|]. split.
  { rewrite !length_app, length_take, length_drop. lia. }
  intros i. case_decide as Hi.
  - rewrite lookup_app_r, length_take by (rewrite length_take; lia). replace (p `min` length mem)%nat with p by lia.
    by rewrite lookup_app_l by lia.
  - destruct (decide (i < p)%nat).
    + rewrite lookup_app_l by (rewrite length_take; lia). by rewrite lookup_take_lt.
    + rewrite lookup_app_r, length_take by (rewrite length_take; lia). rewrite lookup_app_r by lia.
      rewrite lookup_drop. f_equal. lia.
Qed.

(** A store behind the prefix extends it by as many of the bytes as are wanted. *)
Lemma store_prefix mem P bs n :
  P `prefix_of` mem -> (length P + length bs <= length mem)%nat ->
  exists mem', store mem (length P) bs = Some mem' /\ length mem' = length mem /\ P ++ take n bs `prefix_of` mem'.
Proof.
  intros [k ->] H. rewrite store_Some by done. eexists. split; [done|]. split.
  { rewrite !length_app, length_take, length_drop, !length_app. rewrite length_app in H. lia. }
  rewrite take_app_length. apply prefix_app. rewrite <- (take_drop n bs) at 2. rewrite <- app_assoc. apply prefix_app_r. done.
Qed.

Lemma bytes_load mem p n bs : bytes mem -> load mem p n = Some bs -> bytes bs.
Proof. unfold load. intros Hb. destruct (_ <=? _)%nat; [|done]. intros [= <-]. auto with words. Qed.

Lemma copy64_load_store from src mem dst :
  bytes from -> (src + 8 <= length from)%nat ->
  UnalignedCopy64 from src mem dst = store mem dst (take 8 (drop src from)).
Proof.
  intros Hb H. unfold UnalignedCopy64, UNALIGNED_LOAD64, UNALIGNED_STORE64. rewrite load_Some by done. cbn.
  rewrite le_bytes_le_val; [done|auto with words|]. rewrite length_take, length_drop. lia.
Qed.

(** Eight bytes arrive at [dst]; the rest stays. *)
Lemma copy64_lookup from src mem dst :
  bytes from -> (src + 8 <= length from)%nat -> (dst + 8 <= length mem)%nat ->
  exists mem', UnalignedCopy64 from src mem dst = Some mem' /\ length mem' = length mem
    /\ forall i, mem' !! i = if decide (dst <= i < dst + 8)%nat then from !! (src + (i - dst))%nat else mem !! i.
Proof.
  intros Hb Hs Hd. rewrite copy64_load_store by done.
  assert (length (take 8 (drop src from)) = 8%nat) as E by (rewrite length_take, length_drop; lia).
  destruct (store_lookup mem dst (take 8 (drop src from))) as (mem' & -> & Hl & Hi); [lia|].
  exists mem'. split_and!; [done..|]. intros i. rewrite Hi, E. case_decide; [|done].
  rewrite lookup_take_lt by lia. by rewrite lookup_drop.
Qed.

(** ** Copies *)

Lemma length_self_copy off len out : length (self_copy off len out) = (length out + len)%nat.
Proof.
  revert out. induction len as [|len IH]; intros out; cbn [self_copy]; [lia|]. rewrite IH, length_app. cbn. lia.
Qed.

(** The source of the byte at [i] of a copy. *)
Definition origin (n off i : nat) : nat := if decide (i < n)%nat then i else (n - off + (i - n) mod off)%nat.

Lemma mod_succ j off : (0 < off)%nat -> (S j mod off = if decide (j mod off = off - 1) then 0 else S (j mod off))%nat.
Proof.
  intros H. pose proof (Nat.div_mod j off ltac:(lia)) as E. pose proof (Nat.mod_upper_bound j off ltac:(lia)).
  case_decide.
  - symmetry. apply (Nat.mod_unique _ _ (S (j / off))); nia.
  - symmetry. apply (Nat.mod_unique _ _ (j / off)); nia.
Qed.

Lemma self_copy_lookup off len out i :
  (0 < off <= length out)%nat -> (i < length out + len)%nat ->
  self_copy off len out !! i = out !! origin (length out) off i.
Proof.
  unfold origin. revert out i. induction len as [|len IH]; intros out i Ho Hi; cbn [self_copy].
  { by rewrite decide_True by lia. }
  assert (length (out ++ [out !!! (length out - off)%nat]) = S (length out)) as E by (rewrite length_app; cbn; lia).
  rewrite IH by (rewrite E; lia). rewrite E. destruct (decide (i < length out)%nat).
  { rewrite decide_True by lia. by rewrite lookup_app_l. }
  destruct (decide (i = length out)) as [->|].
  { rewrite decide_True by lia. rewrite Nat.sub_diag, Nat.Div0.mod_0_l, Nat.add_0_r.
    rewrite list_lookup_middle by done. symmetry. apply list_lookup_lookup_total_lt. lia. }
  rewrite decide_False by lia. replace (i - length out)%nat with (S (i - S (length out))) by lia.
  rewrite mod_succ by lia. pose proof (Nat.mod_upper_bound (i - S (length out)) off ltac:(lia)).
  destruct (decide ((i - S (length out)) mod off = off - 1)%nat) as [->|].
  - replace (S (length out) - off + (off - 1))%nat with (length out) by lia.
    rewrite list_lookup_middle by done. rewrite Nat.add_0_r. symmetry. apply list_lookup_lookup_total_lt. lia.
  - rewrite lookup_app_l by lia. f_equal. lia.
Qed.

(** A copy is known by its bytes. *)
Lemma self_copy_prefix off len out mem :
  (0 < off <= length out)%nat -> (length out + len <= length mem)%nat ->
  (forall i, (i < length out + len)%nat -> mem !! i = out !! origin (length out) off i) ->
  self_copy off len out `prefix_of` mem.
Proof.
  intros Ho Hl Hi. exists (drop (length out + len) mem). rewrite <- (take_drop (length out + len) mem) at 1. f_equal.
  apply list_eq. intros i. destruct (decide (i < length out + len)%nat).
  - by rewrite lookup_take_lt, self_copy_lookup, Hi.
  - rewrite !lookup_ge_None_2; [done|rewrite length_self_copy; lia|rewrite length_take; lia].
Qed.

Lemma self_copy_add off a b out : self_copy off (a + b) out = self_copy off b (self_copy off a out).
Proof. revert out. induction a as [|a IH]; intros out; cbn [Nat.add self_copy]; [done|apply IH]. Qed.

(** A copy does not see what is farther back. *)
Lemma self_copy_app off len P out :
  (0 < off <= length out)%nat -> self_copy off len (P ++ out) = P ++ self_copy off len out.
Proof.
  revert out. induction len as [|len IH]; intros out Ho; cbn [self_copy]; [done|].
  rewrite <- IH by (rewrite length_app; cbn; lia). rewrite app_assoc. do 3 f_equal. rewrite length_app.
  rewrite !list_lookup_total_alt, lookup_app_r by lia. do 2 f_equal. lia.
Qed.

Lemma bytes_self_copy off len out : (0 < off <= length out)%nat -> bytes out -> bytes (self_copy off len out).
Proof.
  revert out. induction len as [|len IH]; intros out Ho Hb; cbn [self_copy]; [done|].
  apply IH; [rewrite length_app; cbn; lia|]. apply bytes_app. split; [done|]. apply bytes_1.
  apply (Forall_lookup_1 is8 out (length out - off)%nat); [done|]. apply list_lookup_lookup_total_lt. lia.
Qed.

(** ** The reference decoder *)

Lemma read_element_app l e l' more : read_element l = Some (e, l') -> read_element (l ++ more) = Some (e, l' ++ more).
Proof.
  destruct l as [|tag l]; [done|]. cbn [read_element app]. rewrite length_app.
  destruct (Nat.ltb_spec (length l) (extra_bytes tag)); [done|].
  destruct (Nat.ltb_spec (length l + length more) (extra_bytes tag)); [lia|].
  rewrite take_app_le, drop_app_le by lia. set (x := le_val _). set (r := drop _ l).
  destruct (tag mod 4 =? 0); [|by destruct (tag mod 4 =? 1); intros [= <- <-]].
  set (len := w32 _). rewrite length_app. destruct (Z.ltb_spec (Z.of_nat (length r)) len); [done|].
  destruct (Z.ltb_spec (Z.of_nat (length r + length more)) len); [lia|]. intros [= <- <-].
  by rewrite take_app_le, drop_app_le by lia.
Qed.

Lemma read_element_shorter l e l' : read_element l = Some (e, l') -> (length l' < length l)%nat.
Proof.
  destruct l as [|tag l]; [done|]. cbn [read_element length]. destruct (_ <? _)%nat; [done|].
  destruct (tag mod 4 =? 0); [|destruct (tag mod 4 =? 1); intros [= <- <-]; rewrite length_drop; lia].
  destruct (_ <? _); [done|]. intros [= <- <-]. rewrite !length_drop. lia.
Qed.

Lemma decode_loop_fuel n m l out : (length l <= n)%nat -> (length l <= m)%nat -> decode_loop n l out = decode_loop m l out.
Proof.
  revert m l out. induction n as [|n IH]; intros m l out Hn Hm; [by destruct l, m; cbn in *; try lia|].
  destruct l as [|t l]; [by destruct m|]. destruct m as [|m]; [cbn in Hm; lia|]. cbn [decode_loop].
  destruct (read_element (t :: l)) as [[e l']|] eqn:E; [|done]. apply read_element_shorter in E. cbn [mbind option_bind].
  destruct (apply_element e out); [|done]. cbn in *. apply IH; lia.
Qed.

Lemma decode_nil out : decode [] out = Some out.
Proof. done. Qed.

Lemma decode_step l out :
  l <> [] -> decode l out = '(e, l') ← read_element l; out' ← apply_element e out; decode l' out'.
Proof.
  intros Hl. destruct l as [|t l]; [done|]. unfold decode at 1. cbn [length decode_loop].
  destruct (read_element (t :: l)) as [[e l']|] eqn:E; [|done]. apply read_element_shorter in E. cbn [mbind option_bind].
  destruct (apply_element e out); [|done]. cbn in *. apply decode_loop_fuel; lia.
Qed.

Lemma decode_ind (Q : list Z -> list Z -> Prop) :
  (forall out, Q [] out) ->
  (forall l out, l <> [] -> (forall e l' out', read_element l = Some (e, l') -> apply_element e out = Some out' -> Q l' out') -> Q l out) ->
  forall l out, Q l out.
Proof.
  intros H0 Hs l. induction l as [l IH] using (well_founded_induction (well_founded_ltof _ length)). unfold ltof in IH.
  intros out. destruct l as [|t l]; [apply H0|]. apply Hs; [done|]. intros e l' out' E _. apply IH. by eapply read_element_shorter.
Qed.

Lemma decode_app l more out out' : decode l out = Some out' -> decode (l ++ more) out = decode more out'.
Proof.
  revert out'. pattern l, out. apply decode_ind; clear l out; [intros out out' H|intros l out Hl IH out' H]; [by injection H as ->|].
  rewrite decode_step in H by done. rewrite decode_step by (by destruct l).
  destruct (read_element l) as [[e l']|] eqn:E; [|done]. rewrite (read_element_app _ _ _ more E). cbn [mbind option_bind] in *.
  destruct (apply_element e out) as [o|] eqn:Ea; [|done]. cbn [mbind option_bind] in *. by apply (IH e l' o).
Qed.

Lemma apply_element_longer e out out' : apply_element e out = Some out' -> (length out <= length out')%nat.
Proof.
  destruct e as [bs|offset len]; cbn; [intros [= <-]; rewrite length_app; lia|].
  destruct (_ && _); [|done]. intros [= <-]. rewrite length_self_copy. lia.
Qed.

Lemma decode_longer l out out' : decode l out = Some out' -> (length out <= length out')%nat.
Proof.
  revert out'. pattern l, out. apply decode_ind; clear l out; [intros out out' H|intros l out Hl IH out' H]; [by injection H as ->|].
  rewrite decode_step in H by done. destruct (read_element l) as [[e l']|] eqn:E; [|done]. cbn [mbind option_bind] in *.
  destruct (apply_element e out) as [o|] eqn:Ea; [|done]. cbn [mbind option_bind] in *.
  pose proof (IH e l' o eq_refl Ea out' H). apply apply_element_longer in Ea. lia.
Qed.

(** ** The table of tags *)

Definition entry (c : Z) : Z := nthZ char_table c.

Lemma each_byte (P : Z -> bool) : forallb P (seqZ 0 256) = true -> forall c, is8 c -> P c = true.
Proof.
  intros H c Hc. rewrite forallb_forall in H. apply H. apply list_elem_of_In, elem_of_seqZ. unfold is8 in Hc. lia.
Qed.

Lemma entry_extra c : is8 c -> entry c >> 11 = Z.of_nat (extra_bytes c).
Proof. intros Hc. apply Z.eqb_eq. revert c Hc. by apply each_byte. Qed.

Lemma extra_bytes_4 c : is8 c -> (extra_bytes c <= 4)%nat.
Proof. intros Hc. apply Nat.leb_le. revert c Hc. by apply each_byte. Qed.

Lemma entry_length c :
  is8 c -> c mod 4 <> 0 -> entry c .& 0xff = if c mod 4 =? 1 then 4 + c / 4 mod 8 else c / 4 + 1.
Proof.
  intros Hc H. apply Z.eqb_eq. revert c Hc H.
  assert (forall c, is8 c -> (c mod 4 =? 0) || (entry c .& 0xff =? if c mod 4 =? 1 then 4 + c / 4 mod 8 else c / 4 + 1) = true) as Hb
    by (by apply each_byte).
  intros c Hc H. specialize (Hb c Hc). destruct (Z.eqb_spec (c mod 4) 0); [done|exact Hb].
Qed.

Lemma entry_offset c :
  is8 c -> c mod 4 <> 0 -> entry c .& 0x700 = if c mod 4 =? 1 then c / 32 * 256 else 0.
Proof.
  intros Hc H. apply Z.eqb_eq. revert c Hc H.
  assert (forall c, is8 c -> (c mod 4 =? 0) || (entry c .& 0x700 =? if c mod 4 =? 1 then c / 32 * 256 else 0) = true) as Hb
    by (by apply each_byte).
  intros c Hc H. specialize (Hb c Hc). destruct (Z.eqb_spec (c mod 4) 0); [done|exact Hb].
Qed.

(** The table that is written out is the one that the description of the format gives. *)
Lemma ComputeTable_char_table : ComputeTable = Some char_table.
Proof. vm_compute. reflexivity. Qed.

(** ** The length in front *)

Lemma byte_bits b : is8 b -> (b .& 128 =? 0) = (b <? 128) /\ (b < 128 -> b .& 127 = b).
Proof.
  intros Hb. split.
  - apply Bool.eqb_prop. revert b Hb. by apply each_byte.
  - intros H. change 127 with (Z.ones 7). rewrite Z.land_ones by lia. unfold is8 in Hb. apply Z.mod_small. lia.
Qed.

Lemma shl32_0 x : is32 x -> shl32 x 0 = x.
Proof. intros Hx. unfold shl32. rewrite Z.shiftl_0_r. by apply w32_small. Qed.

Lemma is32_low7 b : is8 b -> is32 (b .& 127).
Proof. intros Hb. apply is32_land; [unfold is8, is32 in *; lia|unfold is32; lia]. Qed.

(** Where the strict reader finds a length, so does the other, and it is the same. *)
Lemma Parse32_Get l v r :
  bytes l -> Parse32WithLimit l = Some (v, r) -> GetVarint32Ptr l = Some (v, r).
Proof.
  assert (forall b, is8 b -> b < 128 -> (b .& 128 =? 0) = true) as H0.
  { intros b Hb Hl. destruct (byte_bits b Hb) as [-> _]. by apply Z.ltb_lt. }
  assert (forall b, is8 b -> 128 <= b -> (b .& 128 =? 0) = false) as H1.
  { intros b Hb Hl. destruct (byte_bits b Hb) as [-> _]. by apply Z.ltb_ge. }
  intros Hl. unfold GetVarint32Ptr, GetVarint32PtrFallback, Parse32WithLimit.
  destruct l as [|b0 l]; [done|]. apply bytes_cons in Hl as [Hb0 Hl]. cbn [GetVarint_loop].
  destruct (Z.ltb_spec b0 128) as [L0|L0]; [rewrite (H0 _ Hb0 L0), (proj2 (byte_bits b0 Hb0)) by done; done|].
  rewrite (H1 _ Hb0 L0). cbn [negb]. rewrite Z.lor_0_l, shl32_0 by (by apply is32_low7).
  do 3 (let b := fresh "b" in let Hb := fresh "Hb" in let L := fresh "L" in
    destruct l as [|b l]; [done|]; apply bytes_cons in Hl as [Hb Hl]; cbn [GetVarint_loop];
    destruct (Z.ltb_spec b 128) as [L|L];
    [ rewrite (H0 _ Hb L), (proj2 (byte_bits b Hb)) by done; done | rewrite (H1 _ Hb L); cbn [negb] ]).
  destruct l as [|b4 l]; [done|]. apply bytes_cons in Hl as [Hb4 Hl].
  destruct (Z.ltb_spec b4 16); [|done]. rewrite H0, (proj2 (byte_bits b4 Hb4)) by (done || lia). done.
Qed.

Lemma Encode32_Varint v : Encode32 v = EncodeVarint32 v.
Proof. reflexivity. Qed.

Lemma Parse32_groups v s : is32 v -> exists w, Parse32WithLimit (groups 5 v ++ s) = Some (w, s).
Proof.
  intros Hv. unfold is32 in Hv. cbn [groups].
  assert (forall x, ((x mod 128 + 128) <? 128) = false) as Hm.
  { intros x. apply Z.ltb_ge. pose proof (Z.mod_pos_bound x 128). lia. }
  destruct (Z.ltb_spec v 128) as [L|L]; cbn [app Parse32WithLimit]; [by rewrite (proj2 (Z.ltb_lt _ _) L); eexists|]. rewrite Hm.
  destruct (Z.ltb_spec (v / 128) 128) as [L1|L1]; cbn [app]; [by rewrite (proj2 (Z.ltb_lt _ _) L1); eexists|]. rewrite Hm.
  destruct (Z.ltb_spec (v / 128 / 128) 128) as [L2|L2]; cbn [app]; [by rewrite (proj2 (Z.ltb_lt _ _) L2); eexists|]. rewrite Hm.
  destruct (Z.ltb_spec (v / 128 / 128 / 128) 128) as [L3|L3]; cbn [app]; [by rewrite (proj2 (Z.ltb_lt _ _) L3); eexists|]. rewrite Hm.
  assert (v / 128 / 128 / 128 / 128 < 16) as L4 by (rewrite !Z.div_div by lia; apply Z.div_lt_upper_bound; lia).
  destruct (Z.ltb_spec (v / 128 / 128 / 128 / 128) 128) as [_|?]; [|lia]. cbn [app].
  rewrite (proj2 (Z.ltb_lt _ _) L4). by eexists.
Qed.

Lemma Parse32_Encode32 v s : is32 v -> bytes s -> Parse32WithLimit (Encode32 v ++ s) = Some (v, s).
Proof.
  intros Hv Hs. rewrite Encode32_Varint. pose proof (GetVarint32_Encode v s Hv) as Hg.
  rewrite EncodeVarint32_groups in * by done. destruct (Parse32_groups v s Hv) as [w Hw]. rewrite Hw.
  apply Parse32_Get in Hw; [congruence|]. apply bytes_app. split; [|done]. apply bytes_groups. apply Hv.
Qed.
