(* ===== verification/SnappyWriter.v ===== *)
(** * The output of the decompressor of Snappy:
    src/packages/Snappy.1.1.1.7/lib/native/src/snappy.cc

    The interface of writers (class [Writer]), whose laws are what the comment on
    [DecompressionWriter] promises, the writer to an array with its fast copies, and the
    validator, which only counts. *)
From stdpp Require Import base numbers option list.
From S2P Require Import Prelude Coding SnappyFormat.
Open Scope Z_scope.
Open Scope word_scope.

(** ** Copies inside the output *)

Fixpoint IncrementalCopy_loop (n src op : nat) (mem : list Z) : option (list Z) :=
  c ← mem !! src;
  mem ← store mem op [c];
  match n with
  | O => Some mem
  | S n' => IncrementalCopy_loop n' (S src) (S op) mem
  end.
(** [do .. while (--len > 0)] *)
Definition IncrementalCopy (src op : nat) (len : Z) (mem : list Z) : option (list Z) :=
  IncrementalCopy_loop (Z.to_nat (len - 1)) src op mem.

Definition kMaxIncrementCopyOverflow : Z := 10.

(** [while (op - src < 8)]: the distance doubles, from one at least. *)
Fixpoint expand_loop (fuel : nat) (src op : nat) (len : Z) (mem : list Z) : option (nat * Z * list Z) :=
  match fuel with
  | O => None
  | S fuel' =>
      if (op - src <? 8)%nat then
        mem ← UnalignedCopy64 mem src mem op;
        expand_loop fuel' src (op + (op - src)) (len - Z.of_nat (op - src)) mem
      else Some (op, len, mem)
  end.
Fixpoint copy8_loop (fuel : nat) (src op : nat) (len : Z) (mem : list Z) : option (list Z) :=
  if 0 <? len then
    match fuel with
    | O => None
    | S fuel' =>
        mem ← UnalignedCopy64 mem src mem op;
        copy8_loop fuel' (src + 8) (op + 8) (len - 8) mem
    end
  else Some mem.
Definition IncrementalCopyFastPath (src op : nat) (len : Z) (mem : list Z) : option (list Z) :=
  '(op, len, mem) ← expand_loop 4 src op len mem;
  copy8_loop (Z.to_nat len) src op len mem.

(** ** Writers *)

Class Writer (W : Type) := {
  SetExpectedLength : Z -> W -> W;
  CheckLength : W -> bool;
  Append : list Z -> Z -> W -> option (bool * W);
  TryFastAppend : list Z -> Z -> Z -> W -> option (bool * W);
  AppendFromSelf : Z -> Z -> W -> option (bool * W) }.

(** [holds w out lim]: the writer has received [out] and expects [lim] bytes in all.  What
    does not fit is refused; a fast append leaves five bytes in the input. *)
Class WriterLaws (W : Type) `{Writer W} := {
  fresh : W -> Z -> Prop;
  holds : W -> list Z -> Z -> Prop;
  SetExpectedLength_holds w lim : fresh w lim -> is32 lim -> holds (SetExpectedLength lim w) [] lim;
  holds_fits w out lim : holds w out lim -> Z.of_nat (length out) <= lim;
  CheckLength_holds w out lim : holds w out lim -> CheckLength w = (Z.of_nat (length out) =? lim);
  Append_holds w out lim ip len :
    holds w out lim -> bytes ip -> 0 <= len <= Z.of_nat (length ip) -> len <= 0x1_0000_0000 ->
    exists ok w', Append ip len w = Some (ok, w')
      /\ if ok then holds w' (out ++ take (Z.to_nat len) ip) lim else lim < Z.of_nat (length out) + len;
  TryFastAppend_holds w out lim ip available len :
    holds w out lim -> bytes ip -> 0 <= available <= Z.of_nat (length ip) -> 1 <= len <= 64 ->
    exists ok w', TryFastAppend ip available len w = Some (ok, w')
      /\ if ok then len < 61 /\ len + Z.of_nat kMaximumTagLength <= available /\ holds w' (out ++ take (Z.to_nat len) ip) lim
         else holds w' out lim;
  AppendFromSelf_holds w out lim offset len :
    holds w out lim -> is32 offset -> 1 <= len <= 64 ->
    exists ok w', AppendFromSelf offset len w = Some (ok, w')
      /\ if ok then 1 <= offset <= Z.of_nat (length out) /\ holds w' (self_copy (Z.to_nat offset) (Z.to_nat len) out) lim
         else ~ (1 <= offset <= Z.of_nat (length out)) \/ lim < Z.of_nat (length out) + len }.

(** [SnappyArrayWriter]: [base_] is the start of the array; [op_limit_] is set by
    [SetExpectedLength]. *)
Record SnappyArrayWriter := { dst : list Z; op_ : nat; op_limit_ : nat }.
Definition new_SnappyArrayWriter (d : list Z) : SnappyArrayWriter := {| dst := d; op_ := 0; op_limit_ := 0 |}.
Definition space_left (w : SnappyArrayWriter) : Z := w64 (Z.of_nat (op_limit_ w) - Z.of_nat (op_ w)).
Definition advance (w : SnappyArrayWriter) (mem : list Z) (len : Z) : SnappyArrayWriter :=
  {| dst := mem; op_ := op_ w + Z.to_nat len; op_limit_ := op_limit_ w |}.

Definition array_SetExpectedLength (len : Z) (w : SnappyArrayWriter) : SnappyArrayWriter :=
  {| dst := dst w; op_ := op_ w; op_limit_ := op_ w + Z.to_nat len |}.
Definition array_CheckLength (w : SnappyArrayWriter) : bool := (op_ w =? op_limit_ w)%nat.
Definition array_Append (ip : list Z) (len : Z) (w : SnappyArrayWriter) : option (bool * SnappyArrayWriter) :=
  if space_left w <? len then Some (false, w)
  else
    mem ← memcpy ip 0 (dst w) (op_ w) (Z.to_nat len);
    Some (true, advance w mem len).
Definition array_TryFastAppend (ip : list Z) (available len : Z) (w : SnappyArrayWriter)
    : option (bool * SnappyArrayWriter) :=
  if (len <=? 16) && (16 + Z.of_nat kMaximumTagLength <=? available) && (16 <=? space_left w) then
    mem ← UnalignedCopy64 ip 0 (dst w) (op_ w);
    mem ← UnalignedCopy64 ip 8 mem (op_ w + 8);
    Some (true, advance w mem len)
  else Some (false, w).
Definition array_AppendFromSelf (offset len : Z) (w : SnappyArrayWriter) : option (bool * SnappyArrayWriter) :=
  let op := op_ w in
  let produced := Z.of_nat op in
  if produced <=? w64 (offset - 1) then Some (false, w)
  else if (len <=? 16) && (8 <=? offset) && (16 <=? space_left w) then
    let src := (op - Z.to_nat offset)%nat in
    mem ← UnalignedCopy64 (dst w) src (dst w) op;
    mem ← UnalignedCopy64 mem (src + 8) mem (op + 8);
    Some (true, advance w mem len)
  else if len + kMaxIncrementCopyOverflow <=? space_left w then
    mem ← IncrementalCopyFastPath (op - Z.to_nat offset) op len (dst w);
    Some (true, advance w mem len)
  else if space_left w <? len then Some (false, w)
  else
    mem ← IncrementalCopy (op - Z.to_nat offset) op len (dst w);
    Some (true, advance w mem len).

(** [SnappyDecompressionValidator] *)
Record SnappyDecompressionValidator := { expected_ : Z; produced_ : Z }.
Definition new_SnappyDecompressionValidator : SnappyDecompressionValidator := {| expected_ := 0; produced_ := 0 |}.
Definition validator_SetExpectedLength (len : Z) (w : SnappyDecompressionValidator) : SnappyDecompressionValidator :=
  {| expected_ := len; produced_ := produced_ w |}.
Definition validator_CheckLength (w : SnappyDecompressionValidator) : bool := expected_ w =? produced_ w.
Definition validator_Append (ip : list Z) (len : Z) (w : SnappyDecompressionValidator)
    : option (bool * SnappyDecompressionValidator) :=
  let produced := w64 (produced_ w + len) in
  Some (produced <=? expected_ w, {| expected_ := expected_ w; produced_ := produced |}).
Definition validator_TryFastAppend (ip : list Z) (available len : Z) (w : SnappyDecompressionValidator)
    : option (bool * SnappyDecompressionValidator) := Some (false, w).
Definition validator_AppendFromSelf (offset len : Z) (w : SnappyDecompressionValidator)
    : option (bool * SnappyDecompressionValidator) :=
  if produced_ w <=? w64 (offset - 1) then Some (false, w)
  else
    let produced := w64 (produced_ w + len) in
    Some (produced <=? expected_ w, {| expected_ := expected_ w; produced_ := produced |}).

(** ** The copies of the array writer *)

Lemma bytes_store mem p bs mem' : bytes mem -> bytes bs -> store mem p bs = Some mem' -> bytes mem'.
Proof.
  intros Hm Hb. unfold store. destruct (_ <=? _)%nat; [|done]. intros [= <-].
  rewrite !bytes_app. auto with words.
Qed.

Lemma bytes_copy64 from src mem p mem' : bytes mem -> UnalignedCopy64 from src mem p = Some mem' -> bytes mem'.
Proof.
  intros Hm. unfold UnalignedCopy64, UNALIGNED_STORE64. destruct (UNALIGNED_LOAD64 from src) as [v|]; [|done]. cbn.
  apply bytes_store; auto with words.
Qed.

Lemma IncrementalCopy_loop_spec n off P mem :
  P `prefix_of` mem -> bytes mem -> (0 < off <= length P)%nat -> (length P + S n <= length mem)%nat ->
  exists mem', IncrementalCopy_loop n (length P - off) (length P) mem = Some mem' /\ length mem' = length mem /\ bytes mem'
    /\ self_copy off (S n) P `prefix_of` mem'.
Proof.
  revert P mem. induction n as [|n IH]; intros P mem Hp Hb Ho Hl; cbn [IncrementalCopy_loop self_copy].
  all: assert (mem !! (length P - off)%nat = Some (P !!! (length P - off)%nat)) as Hc
      by (apply (prefix_lookup_Some P mem); [|done]; apply list_lookup_lookup_total_lt; lia).
  all: rewrite Hc; cbn [mbind option_bind]; set (c := P !!! _) in *.
  all: destruct (store_prefix mem P [c] 1 Hp) as (mem1 & Hs & Hl1 & Hp1); [cbn; lia|]; rewrite Hs; cbn [mbind option_bind].
  all: assert (bytes mem1) as Hb1 by (eapply bytes_store; [..|exact Hs]; [done|]; apply bytes_1; by apply (Forall_lookup_1 is8 mem (length P - off)%nat)).
  - by exists mem1.
  - destruct (IH (P ++ [c]) mem1) as (mem' & Hr & Hl2 & Hb2 & Hp2); [done..|rewrite length_app; cbn; lia|rewrite length_app; cbn; lia|].
    exists mem'. rewrite length_app in Hr. cbn [length] in Hr.
    replace (length P + 1 - off)%nat with (S (length P - off)) in Hr by lia. rewrite Nat.add_1_r in Hr.
    split_and!; [done|lia|done|]. exact Hp2.
Qed.

Lemma origin_back n off k i :
  (0 < off <= n)%nat -> (n <= i)%nat -> (n - off + k * off <= i)%nat -> (1 <= k)%nat -> origin n off (i - k * off) = origin n off i.
Proof.
  intros Ho Hi Hk H1. unfold origin. rewrite (decide_False (P := (i < n)%nat)) by lia. case_decide.
  - assert ((i - n) mod off = i - k * off - (n - off))%nat as ->; [|lia].
    symmetry. apply (Nat.mod_unique _ _ (k - 1)); [lia|]. nia.
  - f_equal. replace (i - n)%nat with (i - k * off - n + k * off)%nat by lia. by rewrite Nat.Div0.mod_add.
Qed.

(** The array holds the copy up to position [n]. *)
Definition copied (P : list Z) (off n len : nat) (mem : list Z) : Prop :=
  length mem = len /\ bytes mem /\ forall i, (i < n)%nat -> mem !! i = P !! origin (length P) off i.

(** A copy of eight bytes from a multiple of the distance back extends it. *)
Lemma copied_step P off k src op m len mem :
  (0 < off <= length P)%nat -> copied P off op len mem -> (length P <= op)%nat -> (length P - off <= src)%nat ->
  (op = src + k * off)%nat -> (1 <= k)%nat -> (m <= 8)%nat -> (m <= k * off)%nat -> (op + 8 <= len)%nat ->
  exists mem', UnalignedCopy64 mem src mem op = Some mem' /\ copied P off (op + m) len mem'.
Proof.
  intros Ho (Hl & Hb & Hi) Hop Hsrc E Hk Hm Hmk Hlen.
  destruct (copy64_lookup mem src mem op) as (mem' & Hc & Hl' & Hi'); [done|lia|lia|].
  exists mem'. split; [done|]. split; [lia|]. split; [by eapply bytes_copy64|]. intros i Hin. rewrite Hi'. case_decide.
  - rewrite Hi by lia. f_equal. replace (src + (i - op))%nat with (i - k * off)%nat by lia. apply origin_back; lia.
  - apply Hi. lia.
Qed.

Lemma expand_loop_spec fuel P off k op len n mem :
  (0 < off <= length P)%nat -> copied P off op n mem -> (op = length P - off + k * off)%nat ->
  (length P + 11 <= n)%nat \/ (8 <= off)%nat ->
  (k = 1 /\ 4 <= fuel \/ k = 2 /\ 3 <= fuel \/ k = 4 /\ 2 <= fuel \/ k = 8 /\ 1 <= fuel)%nat ->
  exists k' op' len' mem', expand_loop fuel (length P - off) op len mem = Some (op', len', mem')
    /\ copied P off op' n mem' /\ op' = (length P - off + k' * off)%nat /\ (1 <= k')%nat /\ (8 <= k' * off)%nat
    /\ Z.of_nat op' + len' = Z.of_nat op + len.
Proof.
  intros Ho. revert k op len mem. induction fuel as [|fuel IH]; intros k op len mem Hc E Hn Hk; [lia|].
  cbn [expand_loop]. destruct (Nat.ltb_spec (op - (length P - off)) 8).
  - destruct (copied_step P off k (length P - off) op (k * off) n mem) as (mem1 & -> & Hc1); [done|done|nia..|].
    cbn [mbind option_bind].
    destruct (IH (2 * k)%nat (op + (op - (length P - off)))%nat (len - Z.of_nat (op - (length P - off)))%Z mem1)
      as (k' & op' & len' & mem' & -> & Hr); [|lia|lia|lia|].
    + by replace (op + (op - (length P - off)))%nat with (op + k * off)%nat by lia.
    + exists k', op', len', mem'. split; [done|]. destruct Hr as (?&?&?&?&?). split_and!; [done..|lia].
  - exists k, op, len, mem. split_and!; [done..|lia|lia|lia].
Qed.

Lemma copy8_loop_spec fuel P off k src op len n mem :
  (0 < off <= length P)%nat -> copied P off op n mem -> (length P <= op)%nat -> (length P - off <= src)%nat ->
  (op = src + k * off)%nat -> (1 <= k)%nat -> (8 <= k * off)%nat ->
  len <= Z.of_nat fuel -> (0 < len -> Z.of_nat op + len + 7 <= Z.of_nat n) ->
  exists mem', copy8_loop fuel src op len mem = Some mem' /\ copied P off (Z.to_nat (Z.of_nat op + len)) n mem'.
Proof.
  intros Ho. revert src op len mem. induction fuel as [|fuel IH]; intros src op len mem Hc Hop Hsrc E Hk H8 Hf Hn;
    cbn [copy8_loop]; destruct (Z.ltb_spec 0 len); try lia.
  - exists mem. split; [done|]. destruct Hc as (?&?&Hi). split_and!; [done..|]. intros i ?. apply Hi. lia.
  - destruct (copied_step P off k src op 8 n mem) as (mem1 & -> & Hc1); [done|done|lia..|]. cbn [mbind option_bind].
    destruct (IH (src + 8)%nat (op + 8)%nat (len - 8)%Z mem1) as (mem' & -> & Hr); [done|lia..|].
    exists mem'. split; [done|]. by replace (Z.of_nat op + len) with (Z.of_nat (op + 8) + (len - 8)) by lia.
  - exists mem. split; [done|]. destruct Hc as (?&?&Hi). split_and!; [done..|]. intros i ?. apply Hi. lia.
Qed.

Lemma prefix_copied P off mem : P `prefix_of` mem -> bytes mem -> copied P off (length P) (length mem) mem.
Proof.
  intros [k ->] Hb. split_and!; [done..|]. intros i Hi. unfold origin. rewrite decide_True by done. by rewrite lookup_app_l.
Qed.

Lemma copied_prefix P off len n mem :
  (0 < off <= length P)%nat -> (length P + len <= n)%nat -> (n <= length mem)%nat -> copied P off n (length mem) mem ->
  self_copy off len P `prefix_of` mem.
Proof. intros Ho Hn Hl (_&_&Hi). apply self_copy_prefix; [done|lia|]. intros i ?. apply Hi. lia. Qed.

(** At most ten bytes behind the copy are written. *)
Lemma IncrementalCopyFastPath_spec off len P mem :
  P `prefix_of` mem -> bytes mem -> (0 < off <= length P)%nat -> 1 <= len ->
  Z.of_nat (length P) + len + kMaxIncrementCopyOverflow <= Z.of_nat (length mem) ->
  exists mem', IncrementalCopyFastPath (length P - off) (length P) len mem = Some mem' /\ length mem' = length mem /\ bytes mem'
    /\ self_copy off (Z.to_nat len) P `prefix_of` mem'.
Proof.
  intros Hp Hb Ho Hl Hn. unfold kMaxIncrementCopyOverflow in Hn. unfold IncrementalCopyFastPath.
  destruct (expand_loop_spec 4 P off 1 (length P) len (length mem) mem) as (k & op & len' & mem1 & -> & Hc & E & Hk & H8 & Hs);
    [done|by apply prefix_copied|lia..|]. cbn [mbind option_bind].
  destruct (copy8_loop_spec (Z.to_nat len') P off k (length P - off) op len' (length mem) mem1) as (mem' & -> & Hc');
    [done..|nia|lia|lia|lia|lia|lia|lia|].
  exists mem'. split; [done|]. pose proof Hc' as (Hl' & Hb' & _). split_and!; [done..|].
  rewrite <- Hl' in Hc'. eapply copied_prefix; [done| | |exact Hc']; lia.
Qed.

(** ** The two writers keep the promises *)

Record array_holds (room : nat) (w : SnappyArrayWriter) (out : list Z) (lim : Z) : Prop := {
  ah_room : length (dst w) = room;
  ah_prefix : out `prefix_of` dst w;
  ah_op : op_ w = length out;
  ah_limit : Z.of_nat (op_limit_ w) = lim;
  ah_fits : (length out <= op_limit_ w <= length (dst w))%nat;
  ah_bytes : bytes (dst w);
  ah_32 : is32 lim }.

Lemma array_space room w out lim : array_holds room w out lim -> space_left w = lim - Z.of_nat (length out).
Proof.
  intros [Hroom Hp Ho Hl Hf Hb H32]. unfold space_left. rewrite Ho, Hl. apply w64_small. unfold is32, is64 in *. lia.
Qed.

(** An array that holds more is what [advance] describes. *)
Lemma array_advance room w out lim mem bs len :
  array_holds room w out lim -> length mem = length (dst w) -> bytes mem -> out ++ bs `prefix_of` mem ->
  Z.of_nat (length bs) = len -> Z.of_nat (length out) + len <= lim -> array_holds room (advance w mem len) (out ++ bs) lim.
Proof.
  intros [Hroom Hp Ho Hl Hf Hb H32] Hm Hbm Hpm Hlen Hlim. split; cbn; try done.
  - congruence.
  - rewrite Ho, length_app. lia.
  - rewrite Hm, length_app. lia.
Qed.

Lemma self_copy_split off len out : exists bs, self_copy off len out = out ++ bs /\ length bs = len.
Proof.
  revert out. induction len as [|len IH]; intros out; cbn [self_copy]; [exists []; by rewrite app_nil_r|].
  destruct (IH (out ++ [out !!! (length out - off)%nat])) as (bs & -> & Hl). eexists. rewrite <- app_assoc. split; [done|].
  cbn. lia.
Qed.

Lemma array_copied room w out lim mem off len :
  array_holds room w out lim -> length mem = length (dst w) -> bytes mem -> self_copy off (Z.to_nat len) out `prefix_of` mem ->
  1 <= len -> Z.of_nat (length out) + len <= lim -> array_holds room (advance w mem len) (self_copy off (Z.to_nat len) out) lim.
Proof.
  intros Hw Hm Hb Hp Hl Hlim. destruct (self_copy_split off (Z.to_nat len) out) as (bs & E & Hbs). rewrite E in *.
  apply (array_advance room w out lim); [done..|lia|done].
Qed.

Lemma array_Append_holds room w out lim ip len :
  array_holds room w out lim -> bytes ip -> 0 <= len <= Z.of_nat (length ip) ->
  exists ok w', array_Append ip len w = Some (ok, w')
    /\ if ok then array_holds room w' (out ++ take (Z.to_nat len) ip) lim else lim < Z.of_nat (length out) + len.
Proof.
  intros Hw Hip Hlen. unfold array_Append. rewrite (array_space room w out lim Hw).
  destruct (Z.ltb_spec (lim - Z.of_nat (length out)) len) as [Hs|Hs]; [exists false, w; split; [done|]; cbn; lia|].
  pose proof Hw as [Hroom Hp Ho Hl Hf Hb H32]. unfold memcpy. rewrite load_Some, drop_0 by lia. cbn [mbind option_bind]. rewrite Ho.
  set (bs := take (Z.to_nat len) ip). assert (length bs = Z.to_nat len) as Hbs by (unfold bs; rewrite length_take; lia).
  destruct (store_prefix (dst w) out bs (length bs) Hp) as (mem & Hs' & Hm & Hpm); [lia|]. rewrite Hs'. cbn [mbind option_bind].
  rewrite take_ge in Hpm by done.
  exists true, (advance w mem len). split; [done|]. apply array_advance; [done|done| |done|lia|lia].
  eapply bytes_store; [done| |exact Hs']. unfold bs. auto with words.
Qed.

(** Two copies of eight bytes behind what there is. *)
Lemma copy16 from src P mem :
  bytes from -> P `prefix_of` mem -> bytes mem -> (src + 16 <= length from)%nat -> (length P + 16 <= length mem)%nat ->
  exists mem', (mem1 ← UnalignedCopy64 from src mem (length P); UnalignedCopy64 from (src + 8) mem1 (length P + 8)) = Some mem'
    /\ length mem' = length mem /\ bytes mem' /\ P ++ take 16 (drop src from) `prefix_of` mem'.
Proof.
  intros Hf Hp Hb Hs Hl.
  destruct (copy64_lookup from src mem (length P)) as (mem1 & H1 & Hl1 & Hi1); [done|lia|lia|]. rewrite H1. cbn [mbind option_bind].
  destruct (copy64_lookup from (src + 8) mem1 (length P + 8)) as (mem2 & H2 & Hl2 & Hi2); [done|lia|lia|].
  assert (bytes mem2) by (eapply bytes_copy64; [|done]; by eapply bytes_copy64).
  exists mem2. split_and!; [done|lia|done|]. exists (drop (length P + 16) mem2).
  rewrite <- (take_drop (length P + 16) mem2) at 1. f_equal. apply list_eq. intros i.
  destruct (decide (i < length P + 16)%nat); [|rewrite !lookup_ge_None_2; [done|rewrite length_app, length_take, length_drop; lia|rewrite length_take; lia]].
  rewrite lookup_take_lt, Hi2, Hi1 by done. destruct (decide (i < length P)%nat).
  - rewrite !decide_False by lia. rewrite lookup_app_l by lia. destruct Hp as [k ->]. by rewrite lookup_app_l.
  - rewrite lookup_app_r, lookup_take_lt, lookup_drop by lia. repeat case_decide; try lia; f_equal; lia.
Qed.

Lemma array_TryFastAppend_holds room w out lim ip available len :
  array_holds room w out lim -> bytes ip -> 0 <= available <= Z.of_nat (length ip) -> 1 <= len <= 64 ->
  exists ok w', array_TryFastAppend ip available len w = Some (ok, w')
    /\ if ok then len < 61 /\ len + Z.of_nat kMaximumTagLength <= available /\ array_holds room w' (out ++ take (Z.to_nat len) ip) lim
       else array_holds room w' out lim.
Proof.
  intros Hw Hip Hav Hlen. unfold array_TryFastAppend, kMaximumTagLength. rewrite (array_space room w out lim Hw).
  destruct (Z.leb_spec len 16); [|by exists false, w].
  destruct (Z.leb_spec (16 + Z.of_nat 5) available); [|by exists false, w].
  destruct (Z.leb_spec 16 (lim - Z.of_nat (length out))); [|by exists false, w]. cbn [andb].
  pose proof Hw as [Hroom Hp Ho Hl Hf Hb H32]. rewrite Ho.
  destruct (copy16 ip 0 out (dst w)) as (mem & Hc & Hm & Hbm & Hpm); [done..|lia|lia|].
  destruct (UnalignedCopy64 ip 0 (dst w) (length out)) as [mem1|]; [|done]. cbn [mbind option_bind Nat.add] in *.
  rewrite Hc. exists true, (advance w mem len). cbn [mbind option_bind]. split; [done|]. split; [lia|]. split; [lia|].
  apply array_advance; [done..| |rewrite length_take; lia|lia]. rewrite drop_0 in Hpm.
  etrans; [|exact Hpm]. apply prefix_app. replace (Z.to_nat len) with (Z.to_nat len `min` 16)%nat by lia.
  rewrite <- take_take. apply prefix_take.
Qed.

(** [produced <= offset - 1u] is true for an offset of zero too. *)
Lemma offset_check n offset :
  is32 offset -> is32 n -> (n <=? w64 (offset - 1)) = negb ((1 <=? offset) && (offset <=? n)).
Proof.
  intros Ho Hn. unfold is32 in *. destruct (decide (offset = 0)) as [->|].
  - change (w64 (0 - 1)) with 0xffff_ffff_ffff_ffff. apply Z.leb_le. lia.
  - rewrite w64_small by (unfold is64; lia). destruct (Z.leb_spec 1 offset); [|lia]. cbn [andb].
    destruct (Z.leb_spec n (offset - 1)), (Z.leb_spec offset n); try done; lia.
Qed.

Lemma array_AppendFromSelf_holds room w out lim offset len :
  array_holds room w out lim -> is32 offset -> 1 <= len <= 64 ->
  exists ok w', array_AppendFromSelf offset len w = Some (ok, w')
    /\ if ok then 1 <= offset <= Z.of_nat (length out) /\ array_holds room w' (self_copy (Z.to_nat offset) (Z.to_nat len) out) lim
       else ~ (1 <= offset <= Z.of_nat (length out)) \/ lim < Z.of_nat (length out) + len.
Proof.
  intros Hw Hoff Hlen. unfold array_AppendFromSelf. rewrite (array_space room w out lim Hw).
  pose proof Hw as [Hroom Hp Ho Hl Hf Hb H32]. rewrite Ho, offset_check by (done || unfold is32 in *; lia).
  destruct (Z.leb_spec 1 offset); [|exists false, w; split; [done|]; left; lia].
  destruct (Z.leb_spec offset (Z.of_nat (length out))); [|exists false, w; split; [done|]; left; lia]. cbn [andb negb].
  set (off := Z.to_nat offset). assert (0 < off <= length out)%nat by lia.
  destruct ((len <=? 16) && (8 <=? offset) && (16 <=? lim - Z.of_nat (length out))) eqn:Ef.
  { apply andb_true_iff in Ef as [[E1%Z.leb_le E2%Z.leb_le]%andb_true_iff E3%Z.leb_le].
    destruct (copied_step out off 1 (length out - off) (length out) 8 (length (dst w)) (dst w)) as (m1 & -> & Hc1);
      [done|by apply prefix_copied|lia..|]. cbn [mbind option_bind].
    destruct (copied_step out off 1 (length out - off + 8) (length out + 8) 8 (length (dst w)) m1) as (m2 & -> & Hc2);
      [done..|lia|lia|lia|lia|lia|lia|lia|]. cbn [mbind option_bind].
    exists true, (advance w m2 len). split; [done|]. split; [lia|]. pose proof Hc2 as (Hm & Hbm & _).
    apply array_copied; [done..| |lia|lia]. rewrite <- Hm in Hc2. eapply copied_prefix; [done| | |exact Hc2]; lia. }
  destruct (Z.leb_spec (len + kMaxIncrementCopyOverflow) (lim - Z.of_nat (length out))).
  - destruct (IncrementalCopyFastPath_spec off len out (dst w)) as (mem & -> & Hm & Hbm & Hpm); [done..|lia|lia|]. cbn [mbind option_bind].
    exists true, (advance w mem len). split; [done|]. split; [lia|]. unfold kMaxIncrementCopyOverflow in *.
    by apply array_copied; [..|lia|lia].
  - destruct (Z.ltb_spec (lim - Z.of_nat (length out)) len); [exists false, w; split; [done|]; right; lia|]. unfold IncrementalCopy.
    destruct (IncrementalCopy_loop_spec (Z.to_nat (len - 1)) off out (dst w)) as (mem & -> & Hm & Hbm & Hpm); [done..|lia|]. cbn [mbind option_bind].
    exists true, (advance w mem len). split; [done|]. split; [lia|].
    replace (S (Z.to_nat (len - 1))) with (Z.to_nat len) in Hpm by lia. by apply array_copied; [..|lia|lia].
Qed.

#[export] Instance SnappyArrayWriter_Writer : Writer SnappyArrayWriter := {|
  SetExpectedLength := array_SetExpectedLength; CheckLength := array_CheckLength; Append := array_Append;
  TryFastAppend := array_TryFastAppend; AppendFromSelf := array_AppendFromSelf |}.

(** The size of the array, [room], does not change. *)
Program Definition array_laws (room : nat) : WriterLaws SnappyArrayWriter := {|
  fresh w lim := op_ w = 0%nat /\ bytes (dst w) /\ length (dst w) = room /\ lim <= Z.of_nat room;
  holds := array_holds room |}.
Next Obligation.
  intros room w lim (H0 & Hb & Hr & Hl) H32. unfold is32 in H32. split; cbn; try done; rewrite ?H0; try lia. apply prefix_nil.
Qed.
Next Obligation. intros room w out lim [Hroom Hp Ho Hl Hf Hb H32]. lia. Qed.
Next Obligation.
  intros room w out lim [Hroom Hp Ho Hl Hf Hb H32]. cbn. unfold array_CheckLength. rewrite Ho, <- Hl.
  destruct (Nat.eqb_spec (length out) (op_limit_ w)), (Z.eqb_spec (Z.of_nat (length out)) (Z.of_nat (op_limit_ w))); try done; lia.
Qed.
Next Obligation. intros room w out lim ip len Hw Hip Hlen _. by apply array_Append_holds. Qed.
Next Obligation. intros room w out lim ip available len. apply array_TryFastAppend_holds. Qed.
Next Obligation. intros room w out lim offset len. apply array_AppendFromSelf_holds. Qed.

Definition validator_holds (w : SnappyDecompressionValidator) (out : list Z) (lim : Z) : Prop :=
  expected_ w = lim /\ produced_ w = Z.of_nat (length out) /\ Z.of_nat (length out) <= lim /\ is32 lim.

#[export] Instance SnappyDecompressionValidator_Writer : Writer SnappyDecompressionValidator := {|
  SetExpectedLength := validator_SetExpectedLength; CheckLength := validator_CheckLength; Append := validator_Append;
  TryFastAppend := validator_TryFastAppend; AppendFromSelf := validator_AppendFromSelf |}.

#[export] Program Instance validator_laws : WriterLaws SnappyDecompressionValidator := {|
  fresh w _ := produced_ w = 0; holds := validator_holds |}.
Next Obligation. intros w lim H0 H32. unfold is32 in H32. split_and!; cbn; [done..|lia|done]. Qed.
Next Obligation. intros w out lim (?&?&?&?). done. Qed.
Next Obligation. intros w out lim (He&Hp&Hl&_). cbn. unfold validator_CheckLength. rewrite He, Hp. apply Z.eqb_sym. Qed.
Next Obligation.
  intros w out lim ip len (He&Hp&Hl&H32) Hip Hlen Hbig. cbn. unfold validator_Append. rewrite Hp, He.
  rewrite w64_small by (unfold is32, is64 in *; lia). do 2 eexists. split; [done|].
  destruct (Z.leb_spec (Z.of_nat (length out) + len) lim); [|lia].
  split_and!; cbn; [done|..|done]; rewrite length_app, length_take; lia.
Qed.
Next Obligation. intros w out lim ip available len Hw _ _ _. by exists false, w. Qed.
Next Obligation.
  intros w out lim offset len (He&Hp&Hl&H32) Hoff Hlen. cbn. unfold validator_AppendFromSelf. rewrite Hp, He.
  rewrite offset_check by (done || unfold is32 in *; lia).
  destruct (Z.leb_spec 1 offset); [|exists false, w; split; [done|]; left; lia].
  destruct (Z.leb_spec offset (Z.of_nat (length out))); [|exists false, w; split; [done|]; left; lia]. cbn [andb negb].
  rewrite w64_small by (unfold is32, is64 in *; lia). do 2 eexists. split; [done|].
  destruct (Z.leb_spec (Z.of_nat (length out) + len) lim); [|right; lia].
  split; [lia|]. split_and!; cbn; [done|..|done]; rewrite length_self_copy; lia.
Qed.
