(* ===== verification/SnappyDecompress.v ===== *)
(** * Decompression of Snappy: src/packages/Snappy.1.1.1.7/lib/native/src/snappy.cc,
    snappy-sinksource.cc and include/snappy-sinksource.h

    The decompressor reads tags from a source that hands out its bytes in regions of any
    size, and calls a writer for each element.  Both are interfaces, the classes [Source] and
    [Writer]; their laws are what the comments in the headers promise.  The theorems are proved
    against the interfaces, for every cut of the text into regions, and hold for the
    writer to an array and for the validator. *)
From stdpp Require Import base numbers option list.
From S2P Require Import Prelude Coding SnappyFormat SnappyWriter.
Open Scope Z_scope.
Open Scope word_scope.

(** ** Sources *)

Class Source (S : Type) := {
  Available : S -> nat;
  Peek : S -> list Z;
  Skip : nat -> S -> option S;
  contents : S -> list Z;
  Available_contents s : Available s = length (contents s);
  Peek_contents s : Peek s `prefix_of` contents s;
  Peek_empty s : Peek s = [] -> contents s = [];
  Skip_contents n s :
    (n <= length (contents s))%nat -> exists s', Skip n s = Some s' /\ contents s' = drop n (contents s) }.

(** [ByteArraySource]: the bytes from [ptr_] on, [left_] of them. *)
Record ByteArraySource := { left_bytes : list Z }.
Definition ByteArraySource_Available (s : ByteArraySource) : nat := length (left_bytes s).
Definition ByteArraySource_Peek (s : ByteArraySource) : list Z := left_bytes s.
Definition ByteArraySource_Skip (n : nat) (s : ByteArraySource) : option ByteArraySource :=
  if (n <=? length (left_bytes s))%nat then Some {| left_bytes := drop n (left_bytes s) |} else None.

#[export] Program Instance ByteArraySource_Source : Source ByteArraySource := {|
  Available := ByteArraySource_Available; Peek := ByteArraySource_Peek; Skip := ByteArraySource_Skip;
  contents := left_bytes |}.
Next Obligation. done. Qed.
Next Obligation. done. Qed.
Next Obligation. done. Qed.
Next Obligation.
  intros n s H. unfold ByteArraySource_Skip. rewrite (proj2 (Nat.leb_le _ _) H). by eexists.
Qed.

(** ** The decompressor *)

Section decompressor.
Context {S : Type} `{Source S}.

(** The pointers [ip_] and [ip_limit_] are positions in [scratch_] or in the region that the
    source has handed out last. *)
Record SnappyDecompressor := {
  reader_ : S;
  in_scratch : bool;
  region : list Z;
  ip_ : nat;
  ip_limit_ : nat;
  peeked_ : nat;
  eof_ : bool;
  scratch_ : list Z }.

Definition buf (d : SnappyDecompressor) : list Z := if in_scratch d then scratch_ d else region d.

(** [scratch] is what the array of five bytes holds before it is written. *)
Definition new_SnappyDecompressor (reader : S) (scratch : list Z) : SnappyDecompressor :=
  {| reader_ := reader; in_scratch := false; region := []; ip_ := 0; ip_limit_ := 0; peeked_ := 0; eof_ := false;
     scratch_ := scratch |}.

(** A length in a [uint32]. *)
Definition n32 (n : nat) : nat := Z.to_nat (w32 (Z.of_nat n)).

Definition set_ip (d : SnappyDecompressor) (ip : nat) : SnappyDecompressor :=
  {| reader_ := reader_ d; in_scratch := in_scratch d; region := region d; ip_ := ip; ip_limit_ := ip_limit_ d;
     peeked_ := peeked_ d; eof_ := eof_ d; scratch_ := scratch_ d |}.

(** [reader_->Skip(peeked_)] and [Peek] of the next region; without one, the pointers stay. *)
Definition next_region (d : SnappyDecompressor) : option (bool * SnappyDecompressor) :=
  reader ← Skip (peeked_ d) (reader_ d);
  let p := Peek reader in
  let n := length p in
  Some (if (n =? 0)%nat
        then (false, {| reader_ := reader; in_scratch := in_scratch d; region := region d; ip_ := ip_ d; ip_limit_ := ip_limit_ d;
                        peeked_ := n32 n; eof_ := eof_ d; scratch_ := scratch_ d |})
        else (true, {| reader_ := reader; in_scratch := false; region := p; ip_ := 0; ip_limit_ := n;
                       peeked_ := n32 n; eof_ := eof_ d; scratch_ := scratch_ d |})).

Definition set_eof (d : SnappyDecompressor) : SnappyDecompressor :=
  {| reader_ := reader_ d; in_scratch := in_scratch d; region := region d; ip_ := ip_ d; ip_limit_ := ip_limit_ d;
     peeked_ := peeked_ d; eof_ := true; scratch_ := scratch_ d |}.

(** The pointers into [scratch_], with nothing peeked. *)
Definition use_scratch (d : SnappyDecompressor) (reader : S) (scratch : list Z) (limit : nat) : SnappyDecompressor :=
  {| reader_ := reader; in_scratch := true; region := region d; ip_ := 0; ip_limit_ := limit; peeked_ := 0;
     eof_ := eof_ d; scratch_ := scratch |}.

(** [while (nbuf < needed)]: every turn adds a byte at least. *)
Fixpoint stitch (fuel nbuf needed : nat) (reader : S) (scratch : list Z) : option (bool * S * list Z) :=
  if (nbuf <? needed)%nat then
    match fuel with
    | O => None
    | Datatypes.S fuel' =>
        let src := Peek reader in
        if (length src =? 0)%nat then Some (false, reader, scratch)
        else
          let to_add := Nat.min (needed - nbuf) (n32 (length src)) in
          scratch ← memcpy src 0 scratch nbuf to_add;
          reader ← Skip to_add reader;
          stitch fuel' (nbuf + to_add) needed reader scratch
    end
  else Some (true, reader, scratch).

Definition RefillTag (d : SnappyDecompressor) : option (bool * SnappyDecompressor) :=
  '(ok, d) ← (if (ip_ d =? ip_limit_ d)%nat then next_region d else Some (true, d));
  if negb ok then Some (false, set_eof d)
  else
    c ← buf d !! ip_ d;
    let needed := (Z.to_nat (entry c >> 11) + 1)%nat in
    let nbuf := n32 (ip_limit_ d - ip_ d) in
    if (nbuf <? needed)%nat then
      scratch ← memcpy (buf d) (ip_ d) (scratch_ d) 0 nbuf;
      reader ← Skip (peeked_ d) (reader_ d);
      '(ok, reader, scratch) ← stitch kMaximumTagLength nbuf needed reader scratch;
      Some (ok, use_scratch d reader scratch needed)
    else if (nbuf <? kMaximumTagLength)%nat then
      scratch ← memcpy (buf d) (ip_ d) (scratch_ d) 0 nbuf;
      reader ← Skip (peeked_ d) (reader_ d);
      Some (true, use_scratch d reader scratch nbuf)
    else Some (true, d).

Definition MAYBE_REFILL (d : SnappyDecompressor) : option (bool * SnappyDecompressor) :=
  if (ip_limit_ d - ip_ d <? kMaximumTagLength)%nat then RefillTag d else Some (true, d).

(** [ReadUncompressedLength]: [n] is the number of turns before [shift >= 32]. *)
Fixpoint ReadUncompressedLength_loop (n : nat) (shift result : Z) (reader : S) : option (option Z * S) :=
  match n with
  | O => Some (None, reader)
  | Datatypes.S n' =>
      match Peek reader with
      | [] => Some (None, reader)
      | c :: _ =>
          reader ← Skip 1 reader;
          let result := result .| (c .& 0x7f) << shift in
          if c <? 128 then Some (Some result, reader) else ReadUncompressedLength_loop n' (shift + 7) result reader
      end
  end.
Definition ReadUncompressedLength (reader : S) : option (option Z * S) := ReadUncompressedLength_loop 5 0 0 reader.

Context {W : Type} `{Writer W}.

(** [while (avail < literal_length)]: a literal that goes on in the next regions. *)
Fixpoint literal_loop (fuel : nat) (literal_length : Z) (d : SnappyDecompressor) (w : W)
    : option (bool * Z * SnappyDecompressor * W) :=
  let avail := Z.of_nat (ip_limit_ d - ip_ d) in
  if avail <? literal_length then
    match fuel with
    | O => None
    | Datatypes.S fuel' =>
        '(ok, w) ← Append (drop (ip_ d) (buf d)) avail w;
        if negb ok then Some (false, literal_length, d, w)
        else
          '(ok, d) ← next_region d;
          if negb ok then Some (false, literal_length - avail, d, w)
          else literal_loop fuel' (literal_length - avail) d w
    end
  else Some (true, literal_length, d, w).

(** The length of a long literal is in the bytes behind the tag. *)
Definition long_literal (literal_length : Z) (d : SnappyDecompressor) : option (Z * SnappyDecompressor) :=
  if 61 <=? literal_length then
    let literal_length_length := Z.to_nat (literal_length - 60) in
    v ← UNALIGNED_LOAD32 (buf d) (ip_ d);
    mask ← wordmask !! literal_length_length;
    Some (w32 ((v .& mask) + 1), set_ip d (ip_ d + literal_length_length))
  else Some (literal_length, d).

(** The two branches of a turn of [for ( ;; )], behind the tag [c]; the result says whether
    the loop goes on. *)
Definition literal_tag (fuel : nat) (c : Z) (d : SnappyDecompressor) (w : W) : option (bool * SnappyDecompressor * W) :=
  let literal_length := (c >> 2) + 1 in
  '(fast, w) ← TryFastAppend (drop (ip_ d) (buf d)) (Z.of_nat (ip_limit_ d) - Z.of_nat (ip_ d)) literal_length w;
  if fast : bool then Some (true, set_ip d (ip_ d + Z.to_nat literal_length), w)
  else
    '(literal_length, d) ← long_literal literal_length d;
    '(ok, literal_length, d, w) ← literal_loop fuel literal_length d w;
    if negb ok then Some (false, d, w)
    else
      '(ok, w) ← Append (drop (ip_ d) (buf d)) literal_length w;
      if negb ok then Some (false, d, w)
      else
        '(ok, d) ← MAYBE_REFILL (set_ip d (ip_ d + Z.to_nat literal_length));
        Some (ok, d, w).
Definition copy_tag (c : Z) (d : SnappyDecompressor) (w : W) : option (bool * SnappyDecompressor * W) :=
  let entry := entry c in
  v ← UNALIGNED_LOAD32 (buf d) (ip_ d);
  mask ← wordmask !! Z.to_nat (entry >> 11);
  let trailer := v .& mask in
  let length := entry .& 0xff in
  let d := set_ip d (ip_ d + Z.to_nat (entry >> 11)) in
  let copy_offset := entry .& 0x700 in
  '(ok, w) ← AppendFromSelf (copy_offset +w trailer) length w;
  if negb ok then Some (false, d, w)
  else
    '(ok, d) ← MAYBE_REFILL d;
    Some (ok, d, w).
Definition decompress_turn (fuel : nat) (d : SnappyDecompressor) (w : W) : option (bool * SnappyDecompressor * W) :=
  c ← buf d !! ip_ d;
  let d := set_ip d (ip_ d + 1) in
  if c .& 3 =? LITERAL then literal_tag fuel c d w else copy_tag c d w.

Fixpoint decompress_loop (fuel : nat) (d : SnappyDecompressor) (w : W) : option (SnappyDecompressor * W) :=
  match fuel with
  | O => None
  | Datatypes.S fuel' =>
      '(go, d, w) ← decompress_turn fuel d w;
      if go : bool then decompress_loop fuel' d w else Some (d, w)
  end.

Definition DecompressAllTags (fuel : nat) (d : SnappyDecompressor) (w : W) : option (SnappyDecompressor * W) :=
  '(ok, d) ← MAYBE_REFILL d;
  if negb ok then Some (d, w) else decompress_loop fuel d w.

(** Every tag takes a byte of what is available. *)
Definition InternalUncompressAllTags (d : SnappyDecompressor) (w : W) (uncompressed_len : Z)
    : option (bool * SnappyDecompressor * W) :=
  let w := SetExpectedLength uncompressed_len w in
  '(d, w) ← DecompressAllTags (Available (reader_ d)) d w;
  Some (eof_ d && CheckLength w, d, w).

(** The source is returned as the destructor of the decompressor leaves it. *)
Definition InternalUncompress (scratch : list Z) (r : S) (w : W) : option (bool * S * W) :=
  '(len, r) ← ReadUncompressedLength r;
  match len with
  | None => Some (false, r, w)
  | Some uncompressed_len =>
      '(ok, d, w) ← InternalUncompressAllTags (new_SnappyDecompressor r scratch) w uncompressed_len;
      r ← Skip (peeked_ d) (reader_ d);
      Some (ok, r, w)
  end.
End decompressor.

Arguments SnappyDecompressor : clear implicits.

(** ** The decompressor against the reference *)

(** The bytes of a word below a mask. *)
Lemma wordmask_spec k bs :
  (k <= 4)%nat -> bytes bs -> length bs = 4%nat ->
  exists mask, wordmask !! k = Some mask /\ le_val bs .& mask = le_val (take k bs).
Proof.
  intros Hk Hb Hl. exists (Z.ones (8 * Z.of_nat k)). split.
  { destruct k as [|[|[|[|[|]]]]]; try reflexivity. lia. }
  rewrite Z.land_ones by lia. rewrite <- (take_drop k bs) at 1. rewrite le_val_app, length_take.
  replace (k `min` length bs)%nat with k by lia.
  replace (2 ^ (8 * Z.of_nat k)) with (0x100 ^ Z.of_nat k) by (rewrite Z.pow_mul_r by lia; reflexivity).
  rewrite Z.mul_comm, Z_mod_plus_full. apply Z.mod_small.
  pose proof (le_val_bound (take k bs) ltac:(auto with words)) as H. rewrite length_take in H.
  by replace (k `min` length bs)%nat with k in H by lia.
Qed.

Lemma n32_small n : Z.of_nat n < 0x1_0000_0000 -> n32 n = n.
Proof. intros H. unfold n32. rewrite w32_small by (unfold is32; lia). lia. Qed.

Section correct.
Context {S : Type} `{Source S} {W : Type} `{WriterLaws W}.
Implicit Types d : SnappyDecompressor S.

Definition ahead d : list Z := drop (peeked_ d) (contents (reader_ d)).
Definition seg d : list Z := take (ip_limit_ d - ip_ d) (drop (ip_ d) (buf d)).
(** What is still to be read. *)
Definition rest d : list Z := seg d ++ ahead d.

Record dec_ok d : Prop := {
  ok_ip : (ip_ d <= ip_limit_ d)%nat;
  ok_limit : (ip_limit_ d <= length (buf d))%nat;
  ok_peeked : (peeked_ d <= length (contents (reader_ d)))%nat;
  ok_scratch : length (scratch_ d) = 5%nat;
  ok_bytes : bytes (scratch_ d) /\ bytes (region d) /\ bytes (contents (reader_ d));
  ok_small : Z.of_nat (length (contents (reader_ d))) < 0x1_0000_0000 /\ Z.of_nat (length (region d)) < 0x1_0000_0000;
  ok_eof : eof_ d = false }.

(** The next tag is complete, and the four bytes behind it can be loaded. *)
Definition ready d : Prop :=
  dec_ok d /\ (ip_ d + 5 <= length (buf d))%nat
  /\ exists c, buf d !! ip_ d = Some c /\ (Datatypes.S (extra_bytes c) <= ip_limit_ d - ip_ d)%nat.

Lemma bytes_buf d : dec_ok d -> bytes (buf d).
Proof. intros [_ _ _ _ (?&?&?) _ _]. unfold buf. by destruct (in_scratch d). Qed.

Lemma length_seg d : dec_ok d -> length (seg d) = (ip_limit_ d - ip_ d)%nat.
Proof. intros [? ? _ _ _ _ _]. unfold seg. rewrite length_take, length_drop. lia. Qed.

Lemma length_buf_small d : dec_ok d -> Z.of_nat (length (buf d)) < 0x1_0000_0000.
Proof. intros [_ _ _ Hs _ [_ ?] _]. unfold buf. destruct (in_scratch d); lia. Qed.

Lemma set_ip_ok d n : dec_ok d -> (n <= ip_limit_ d - ip_ d)%nat -> dec_ok (set_ip d (ip_ d + n)).
Proof. intros [? ? ? ? ? ? ?] Hn. split; try done. cbn. lia. Qed.

Lemma rest_set_ip d n :
  dec_ok d -> (n <= ip_limit_ d - ip_ d)%nat -> rest d = take n (drop (ip_ d) (buf d)) ++ rest (set_ip d (ip_ d + n)).
Proof.
  intros Hok Hn. unfold rest. rewrite app_assoc. change (ahead (set_ip d (ip_ d + n))) with (ahead d). f_equal. unfold seg.
  cbn [ip_ ip_limit_ set_ip]. change (buf (set_ip d (ip_ d + n))) with (buf d). rewrite <- drop_drop.
  set (l := drop (ip_ d) (buf d)). rewrite <- (take_drop n (take _ l)), take_take, take_drop_commute.
  replace (n + (ip_limit_ d - (ip_ d + n)))%nat with (ip_limit_ d - ip_ d)%nat by lia.
  by replace (n `min` (ip_limit_ d - ip_ d))%nat with n by lia.
Qed.

Lemma next_region_spec d :
  dec_ok d ->
  exists ok d', next_region d = Some (ok, d') /\ (peeked_ d' <= length (contents (reader_ d')))%nat /\ eof_ d' = false
    /\ if ok then dec_ok d' /\ rest d' = ahead d /\ (0 < ip_limit_ d' - ip_ d')%nat else ahead d = [] /\ ahead d' = [].
Proof.
  intros [? ? Hp Hs (Hb1 & Hb2 & Hb3) [Hsm ?] He]. unfold next_region, ahead.
  destruct (Skip_contents (peeked_ d) (reader_ d) Hp) as (r & -> & Hc). cbn [mbind option_bind]. rewrite <- Hc.
  assert (length (contents r) <= length (contents (reader_ d)))%nat by (rewrite Hc, length_drop; lia).
  destruct (Peek_contents r) as [more Hm]. pose proof (f_equal length Hm) as Hlen. rewrite length_app in Hlen.
  destruct (Nat.eqb_spec (length (Peek r)) 0) as [E|E]; do 2 eexists; (split; [done|]); cbn.
  - apply nil_length_inv in E. rewrite E, (Peek_empty r E). by rewrite drop_nil.
  - rewrite n32_small by lia. split; [lia|]. split; [done|]. split_and!; [|..|lia].
    + assert (bytes (contents r)) by (rewrite Hc; auto with words).
      assert (bytes (Peek r)) by (apply (proj1 (bytes_app (Peek r) more)); by rewrite <- Hm).
      split; cbn; try done; lia.
    + unfold rest, seg, ahead. cbn. rewrite Nat.sub_0_r, drop_0, take_ge by done.
      rewrite Hm at 1. by rewrite drop_app_length.
Qed.

Lemma stitch_spec fuel nbuf needed reader scratch :
  (nbuf <= needed <= 5)%nat -> (needed - nbuf <= fuel)%nat -> length scratch = 5%nat -> bytes scratch -> bytes (contents reader) ->
  Z.of_nat (length (contents reader)) < 0x1_0000_0000 ->
  exists ok reader' scratch', stitch fuel nbuf needed reader scratch = Some (ok, reader', scratch')
    /\ length scratch' = 5%nat /\ bytes scratch'
    /\ if ok then (needed - nbuf <= length (contents reader))%nat
         /\ take needed scratch' = take nbuf scratch ++ take (needed - nbuf) (contents reader)
         /\ contents reader' = drop (needed - nbuf) (contents reader)
       else (length (contents reader) < needed - nbuf)%nat.
Proof.
  revert nbuf reader scratch. induction fuel as [|fuel IH]; intros nbuf reader scratch Hn Hf Hl Hb Hbc Hsm; cbn [stitch];
    destruct (Nat.ltb_spec nbuf needed) as [Hlt|Hge]; try lia.
  1, 3: assert (nbuf = needed) as -> by lia; exists true, reader, scratch; rewrite Nat.sub_diag, drop_0; cbn [take];
    rewrite app_nil_r; split_and!; (done || lia).
  destruct (Peek_contents reader) as [more Hm]. pose proof (f_equal length Hm) as Hlen. rewrite length_app in Hlen.
  destruct (Nat.eqb_spec (length (Peek reader)) 0) as [E|E].
  { apply nil_length_inv in E. exists false, reader, scratch. rewrite (Peek_empty _ E). cbn. split_and!; (done || lia). }
  rewrite n32_small by lia. set (k := ((needed - nbuf) `min` length (Peek reader))%nat).
  assert (bytes (Peek reader)) by (apply (proj1 (bytes_app (Peek reader) more)); by rewrite <- Hm).
  assert (take nbuf scratch `prefix_of` scratch) as Hpre by (exists (drop nbuf scratch); by rewrite take_drop).
  assert (length (take nbuf scratch) = nbuf) as Hln by (rewrite length_take; lia).
  unfold memcpy. rewrite load_Some, drop_0 by lia. cbn [mbind option_bind].
  assert (length (take k (Peek reader)) = k) as Hlk by (rewrite length_take; lia).
  destruct (store_prefix scratch _ (take k (Peek reader)) k Hpre) as (sc & Hs & Hls & Hp); [lia|]. rewrite Hln in Hs. rewrite Hs.
  cbn [mbind option_bind]. destruct (Skip_contents k reader) as (r & -> & Hc); [lia|]. cbn [mbind option_bind].
  assert (bytes sc) by (eapply bytes_store; [exact Hb| |exact Hs]; auto with words).
  destruct (IH (nbuf + k)%nat r sc) as (ok & r' & sc' & -> & Hl' & Hb' & Hr); [lia|lia|lia|done|rewrite Hc; auto with words|rewrite Hc, length_drop; lia|].
  exists ok, r', sc'. split_and!; [done..|]. rewrite Hc in Hr. rewrite length_drop in Hr. destruct ok; [|lia].
  destruct Hr as (Hr1 & Hr2 & Hr3). split_and!; [lia| |].
  - rewrite Hr2. assert (take (nbuf + k) sc = take nbuf scratch ++ take k (Peek reader)) as ->.
    { destruct Hp as [t ->]. rewrite take_take, Nat.min_id, take_app_le by (rewrite length_app; lia). rewrite take_ge; [done|]. rewrite length_app. lia. }
    rewrite <- app_assoc. f_equal. replace (needed - nbuf)%nat with (k + (needed - (nbuf + k)))%nat by lia.
    rewrite <- take_take_drop. f_equal. rewrite Hm, take_app_le by lia. done.
  - rewrite Hr3, drop_drop. f_equal. lia.
Qed.

Lemma rest_cons d : dec_ok d -> (0 < ip_limit_ d - ip_ d)%nat ->
  exists c, buf d !! ip_ d = Some c /\ is8 c /\ rest d = c :: rest (set_ip d (ip_ d + 1)).
Proof.
  intros Hok Hl. pose proof Hok as [? ? _ _ _ _ _].
  destruct (lookup_lt_is_Some_2 (buf d) (ip_ d)) as [c Hc]; [lia|]. exists c. split; [done|]. split.
  - apply (Forall_lookup_1 is8 (buf d) (ip_ d)); [by apply bytes_buf|done].
  - rewrite (rest_set_ip d 1) by (done || lia). by rewrite (drop_S _ _ _ Hc).
Qed.

(** The pointers are moved to [scratch_], which starts with what was left of the region. *)
Lemma scratch_move d n : dec_ok d -> n = (ip_limit_ d - ip_ d)%nat -> (n <= 5)%nat ->
  exists sc, memcpy (buf d) (ip_ d) (scratch_ d) 0 n = Some sc /\ length sc = 5%nat /\ bytes sc /\ take n sc = seg d.
Proof.
  intros Hok -> Hn. pose proof (length_seg d Hok) as Hls. pose proof (bytes_buf d Hok) as Hbb.
  pose proof Hok as [? ? _ Hsc (Hb & _) _ _]. unfold memcpy. rewrite load_Some by lia. cbn [mbind option_bind]. fold (seg d).
  destruct (store_prefix (scratch_ d) [] (seg d) (length (seg d))) as (sc & Hs & Hl & Hp); [apply prefix_nil|cbn; lia|].
  cbn [length app] in Hs, Hp. rewrite Hs. exists sc. split_and!; [done|lia| |].
  - eapply bytes_store; [exact Hb| |exact Hs]. unfold seg. auto with words.
  - rewrite take_ge in Hp by done. destruct Hp as [k ->]. rewrite <- Hls. apply take_app_length.
Qed.

Lemma use_scratch_ready d reader sc c n :
  dec_ok d -> length sc = 5%nat -> bytes sc -> bytes (contents reader) ->
  Z.of_nat (length (contents reader)) < 0x1_0000_0000 -> (n <= 5)%nat -> (Datatypes.S (extra_bytes c) <= n)%nat ->
  take n sc ++ contents reader = rest d -> buf d !! ip_ d = Some c -> (ip_ d < ip_limit_ d)%nat ->
  ready (use_scratch d reader sc n) /\ rest (use_scratch d reader sc n) = rest d.
Proof.
  intros Hok Hl Hb Hbc Hsm Hn Hx Hr Hc Hlt. pose proof Hok as [? ? ? ? (?&?&?) [? ?] ?].
  assert (rest (use_scratch d reader sc n) = rest d) as Hrest.
  { rewrite <- Hr. unfold rest, seg, ahead. cbn. by rewrite Nat.sub_0_r, !drop_0. }
  assert (dec_ok (use_scratch d reader sc n)) as Hok'.
  { split; cbn; (done || lia || (unfold buf; cbn; lia)). }
  split; [|done]. split; [done|]. split; [unfold buf; cbn; lia|]. exists c. cbn. split; [|lia].
  destruct (rest_cons _ Hok') as (c' & Hc' & _ & E'); [cbn; lia|].
  destruct (rest_cons d Hok) as (c2 & Hc2 & _ & E); [lia|]. cbn in Hc'. congruence.
Qed.

(** What a refill achieves: the next tag is ready; or the input is at its end, or in the
    middle of a tag. *)
Definition refilled (l : list Z) (ok : bool) d' : Prop :=
  (peeked_ d' <= length (contents (reader_ d')))%nat
  /\ if ok then ready d' /\ rest d' = l
     else if eof_ d' then l = [] /\ ahead d' = [] else l <> [] /\ read_element l = None.

Lemma RefillTag_spec d : dec_ok d -> exists ok d', RefillTag d = Some (ok, d') /\ refilled (rest d) ok d'.
Proof.
  intros Hok0. unfold RefillTag.
  assert (exists ok d1, (if (ip_ d =? ip_limit_ d)%nat then next_region d else Some (true, d)) = Some (ok, d1)
    /\ if ok then dec_ok d1 /\ rest d1 = rest d /\ (0 < ip_limit_ d1 - ip_ d1)%nat
       else rest d = [] /\ ahead d1 = [] /\ (peeked_ d1 <= length (contents (reader_ d1)))%nat) as (ok & d1 & -> & Hd1f).
  { destruct (Nat.eqb_spec (ip_ d) (ip_limit_ d)) as [E|E].
    - destruct (next_region_spec d Hok0) as (ok & d1 & -> & Hp & _ & Hd1). exists ok, d1. split; [done|].
      assert (rest d = ahead d) as -> by (unfold rest, seg; by rewrite E, Nat.sub_diag).
      destruct ok; [done|]. by destruct Hd1.
    - exists true, d. split; [done|]. pose proof Hok0 as [? _ _ _ _ _ _]. split_and!; [done..|lia]. }
  cbn [mbind option_bind]. destruct ok; cbn [negb]; [|destruct Hd1f as (-> & Ha & Hp); exists false, (set_eof d1); by split].
  destruct Hd1f as (Hok & <- & Hlt). clear d Hok0. rename d1 into d.
  destruct (rest_cons d Hok Hlt) as (c & Hc & H8 & Hrest). rewrite Hc. cbn [mbind option_bind].
  rewrite (entry_extra c H8), Nat2Z.id. pose proof (extra_bytes_4 c H8).
  pose proof Hok as [Hi1 Hi2 Hpk Hsc (Hb1 & Hb2 & Hb3) [Hsm Hsr] Heof].
  rewrite n32_small by (pose proof (length_buf_small d Hok); lia). set (nbuf := (ip_limit_ d - ip_ d)%nat) in *.
  destruct (Skip_contents (peeked_ d) (reader_ d) Hpk) as (r & Hsk & Hr).
  assert (bytes (contents r)) by (rewrite Hr; auto with words).
  assert (Z.of_nat (length (contents r)) < 0x1_0000_0000) by (rewrite Hr, length_drop; lia).
  pose proof (length_seg d Hok) as Hseg. fold nbuf in Hseg.
  destruct (Nat.ltb_spec nbuf (extra_bytes c + 1)).
  - destruct (scratch_move d nbuf Hok eq_refl) as (sc & -> & Hl & Hb & Hsg); [lia|]. cbn [mbind option_bind]. rewrite Hsk. cbn [mbind option_bind].
    destruct (stitch_spec kMaximumTagLength nbuf (extra_bytes c + 1) r sc) as (ok & r' & sc' & -> & Hl' & Hb' & Hs);
      [lia|unfold kMaximumTagLength; lia|done..|]. cbn [mbind option_bind]. rewrite Hr, Hsg in Hs.
    exists ok, (use_scratch d r' sc' (extra_bytes c + 1)). split; [done|]. split; [cbn; lia|]. destruct ok.
    + destruct Hs as (Hs1 & Hs2 & Hs3). apply (use_scratch_ready d r' sc' c); try done; try lia.
      * rewrite Hs3. auto with words.
      * rewrite Hs3, length_drop, length_drop. lia.
      * rewrite Hs2, Hs3, <- app_assoc, take_drop. done.
    + cbn. rewrite Heof. rewrite Hrest. split; [done|]. cbn [read_element].
      assert (length (rest d) = nbuf + length (ahead d))%nat as Hlen by (unfold rest; rewrite length_app; lia).
      rewrite Hrest in Hlen. cbn [length] in Hlen. unfold ahead in Hlen. by rewrite (proj2 (Nat.ltb_lt _ _)) by lia.
  - unfold kMaximumTagLength. destruct (Nat.ltb_spec nbuf 5).
    + destruct (scratch_move d nbuf Hok eq_refl) as (sc & -> & Hl & Hb & Hsg); [lia|]. cbn [mbind option_bind]. rewrite Hsk. cbn [mbind option_bind].
      exists true, (use_scratch d r sc nbuf). split; [done|]. split; [cbn; lia|].
      apply (use_scratch_ready d r sc c); try done; try lia. by rewrite Hsg, Hr.
    + exists true, d. split; [done|]. split; [done|]. split; [|done]. split; [done|]. split; [lia|]. exists c. split; [done|lia].
Qed.

Lemma MAYBE_REFILL_spec d : dec_ok d -> exists ok d', MAYBE_REFILL d = Some (ok, d') /\ refilled (rest d) ok d'.
Proof.
  intros Hok. unfold MAYBE_REFILL, kMaximumTagLength. destruct (Nat.ltb_spec (ip_limit_ d - ip_ d) 5); [by apply RefillTag_spec|].
  exists true, d. split; [done|]. pose proof Hok as [? ? ? _ _ _ _]. split; [done|]. split; [|done]. split; [done|]. split; [lia|].
  destruct (rest_cons d Hok) as (c & Hc & H8 & _); [lia|]. exists c. split; [done|]. pose proof (extra_bytes_4 c H8). lia.
Qed.

Lemma buf_bytes_at d n : dec_ok d -> bytes (drop n (buf d)).
Proof. intros Hok. apply bytes_drop. by apply bytes_buf. Qed.

(** A literal is received up to the region in which it ends; if there is none, the input is
    too short or the result too long. *)
Lemma literal_loop_spec fuel len d w out lim :
  dec_ok d -> holds w out lim -> 0 <= len <= 0x1_0000_0000 ->
  (length (rest d) + (if decide (ip_ d = ip_limit_ d) then 1 else 0) <= fuel)%nat ->
  exists ok len' d' w', literal_loop fuel len d w = Some (ok, len', d', w')
    /\ if ok then dec_ok d' /\ 0 <= len' <= Z.of_nat (ip_limit_ d' - ip_ d')
         /\ exists part, rest d = part ++ rest d' /\ len = Z.of_nat (length part) + len' /\ holds w' (out ++ part) lim
       else (peeked_ d' <= length (contents (reader_ d')))%nat /\ eof_ d' = false
         /\ (Z.of_nat (length (rest d)) < len \/ lim < Z.of_nat (length out) + len).
Proof.
  revert len d w out. induction fuel as [|fuel IH]; intros len d w out Hok Hw Hlen Hf; cbn [literal_loop];
    destruct (Z.ltb_spec (Z.of_nat (ip_limit_ d - ip_ d)) len) as [Hlt|Hge].
  2, 4: exists true, len, d, w; split; [done|]; split_and!; [done|lia|lia|]; exists []; rewrite app_nil_r; split_and!; [done|cbn; lia|done].
  { exfalso. pose proof (length_seg d Hok). unfold rest in Hf. rewrite length_app in Hf. pose proof Hok as [? _ _ _ _ _ _]. case_decide; lia. }
  pose proof Hok as [Hi1 Hi2 Hpk _ _ _ Heof]. pose proof (length_seg d Hok) as Hseg.
  assert (length (rest d) = ip_limit_ d - ip_ d + length (ahead d))%nat as Hlr by (unfold rest; rewrite length_app; lia).
  destruct (Append_holds w out lim (drop (ip_ d) (buf d)) (Z.of_nat (ip_limit_ d - ip_ d)) Hw (buf_bytes_at d _ Hok)) as (ok & w1 & -> & Hw1);
    [rewrite length_drop; lia|lia|]. cbn [mbind option_bind]. rewrite Nat2Z.id in Hw1. fold (seg d) in Hw1.
  destruct ok; cbn [negb]; [|exists false, len, d, w1; split_and!; [done..|lia]].
  destruct (next_region_spec d Hok) as (ok & d1 & -> & Hp1 & He1 & Hd1). cbn [mbind option_bind].
  destruct ok; cbn [negb].
  2: { destruct Hd1 as [E _]. do 4 eexists. split; [done|]. split_and!; [done..|]. rewrite Hlr, E. left. cbn. lia. }
  destruct Hd1 as (Hok1 & Hr1 & Hne).
  destruct (IH (len - Z.of_nat (ip_limit_ d - ip_ d))%Z d1 w1 (out ++ seg d)) as (ok & len' & d' & w' & -> & Hr); [done..|lia| |].
  { rewrite Hr1. rewrite decide_False by lia. case_decide; lia. }
  exists ok, len', d', w'. split; [done|]. destruct ok.
  - destruct Hr as (Hok' & Hl' & part & E & El & Hw'). split_and!; [done|lia|lia|]. exists (seg d ++ part).
    rewrite <- !app_assoc in *. split_and!; [|rewrite length_app; lia|done]. unfold rest at 1. by rewrite <- Hr1, E.
  - destruct Hr as (? & ? & Hr). split_and!; [done..|]. rewrite Hr1, length_app in Hr. lia.
Qed.

(** What a turn of the loop achieves: one element of the reference. *)
Definition turned (l out : list Z) (lim : Z) (go : bool) d' (w' : W) : Prop :=
  (peeked_ d' <= length (contents (reader_ d')))%nat
  /\ if go || eof_ d' then
       exists e l' out', read_element l = Some (e, l') /\ apply_element e out = Some out' /\ holds w' out' lim
         /\ if go then ready d' /\ l' = rest d' else l' = [] /\ ahead d' = []
     else forall out', decode l out = Some out' -> lim < Z.of_nat (length out').

Lemma turn_done l out lim e out' d w :
  dec_ok d -> read_element l = Some (e, rest d) -> apply_element e out = Some out' -> holds w out' lim ->
  exists go d', MAYBE_REFILL d = Some (go, d') /\ turned l out lim go d' w.
Proof.
  intros Hok Hr Ha Hw. destruct (MAYBE_REFILL_spec d Hok) as (ok & d' & Hm & Hp & Hd). exists ok, d'. split; [done|].
  split; [done|]. destruct ok; cbn [orb].
  { destruct Hd as [Hd1 Hd2]. exists e, (rest d), out'. split_and!; done. }
  destruct (eof_ d').
  - destruct Hd as [Hd1 Hd2]. rewrite Hd1 in Hr. exists e, [], out'. split_and!; done.
  - destruct Hd as [Hd1 Hd2]. intros o Ho. rewrite decode_step in Ho by (by intros ->). rewrite Hr in Ho. cbn [mbind option_bind] in Ho.
    rewrite Ha in Ho. cbn [mbind option_bind] in Ho. rewrite decode_step in Ho by done. by rewrite Hd2 in Ho.
Qed.

(** A turn that stops for an element that does not fit or has nothing to copy from. *)
Lemma turn_failed l out lim d w :
  (peeked_ d <= length (contents (reader_ d)))%nat -> eof_ d = false -> l <> [] ->
  (forall e l' out', read_element l = Some (e, l') -> apply_element e out = Some out' -> lim < Z.of_nat (length out')) ->
  turned l out lim false d w.
Proof.
  intros Hp He Hl Hf. split; [done|]. rewrite He. cbn [orb]. intros out' Ho. rewrite decode_step in Ho by done.
  destruct (read_element l) as [[e l']|] eqn:Er; [|done]. cbn [mbind option_bind] in Ho.
  destruct (apply_element e out) as [o|] eqn:Ea; [|done]. cbn [mbind option_bind] in Ho.
  specialize (Hf e l' o eq_refl Ea). apply decode_longer in Ho. lia.
Qed.

(** The element that begins with [c], and the distance to it. *)
Lemma read_literal c r :
  c mod 4 = 0 -> (extra_bytes c <= length r)%nat ->
  let len := w32 ((if c / 4 <? 60 then c / 4 else le_val (take (extra_bytes c) r)) + 1) in
  read_element (c :: r) = if Z.of_nat (length (drop (extra_bytes c) r)) <? len then None
    else Some (Literal (take (Z.to_nat len) (drop (extra_bytes c) r)), drop (Z.to_nat len) (drop (extra_bytes c) r)).
Proof. intros Hc Hx. cbn [read_element]. rewrite (proj2 (Nat.ltb_ge _ _) Hx). by rewrite Hc. Qed.

Lemma read_copy c r :
  is8 c -> c mod 4 <> 0 -> bytes r -> (extra_bytes c <= length r)%nat ->
  read_element (c :: r) = Some (Copy ((entry c .& 0x700) +w le_val (take (extra_bytes c) r)) (entry c .& 0xff), drop (extra_bytes c) r)
  /\ 1 <= entry c .& 0xff <= 64.
Proof.
  intros H8 Hc Hb Hx. cbn [read_element]. rewrite (proj2 (Nat.ltb_ge _ _) Hx), (proj2 (Z.eqb_neq _ _) Hc).
  rewrite (entry_offset c H8 Hc), (entry_length c H8 Hc). set (x := le_val _).
  assert (0 <= x < 0x100 ^ Z.of_nat (extra_bytes c)) as Hxb.
  { pose proof (le_val_bound (take (extra_bytes c) r) ltac:(auto with words)) as Hv. rewrite length_take in Hv.
    by replace (extra_bytes c `min` length r)%nat with (extra_bytes c) in Hv by lia. }
  unfold is8 in H8. destruct (Z.eqb_spec (c mod 4) 1) as [E|E].
  - assert (extra_bytes c = 1%nat) as E1 by (unfold extra_bytes; by rewrite E). rewrite E1 in Hxb. change (0x100 ^ Z.of_nat 1) with 0x100 in Hxb.
    pose proof (Z.mod_pos_bound (c / 4) 8 ltac:(lia)). split; [|lia]. do 3 f_equal. unfold add32. symmetry. apply w32_small.
    assert (0 <= c / 32 < 8) by (split; [apply Z.div_pos|apply Z.div_lt_upper_bound]; lia). unfold is32. lia.
  - assert (0 <= c / 4 < 64) by (split; [apply Z.div_pos|apply Z.div_lt_upper_bound]; lia). split; [|lia].
    do 3 f_equal. unfold add32. rewrite Z.add_0_l. symmetry. apply w32_small.
    assert (0x100 ^ Z.of_nat (extra_bytes c) <= 0x100 ^ 4) as Hle
      by (apply Z.pow_le_mono_r; [lia|]; pose proof (extra_bytes_4 c H8); lia).
    change (0x100 ^ 4) with 0x1_0000_0000 in Hle. unfold is32. lia.
Qed.

(** The rest of a turn for a literal of [len] bytes. *)
Lemma literal_turn fuel len d w l out lim :
  dec_ok d -> holds w out lim -> is32 len -> (length (rest d) + 1 <= fuel)%nat -> l <> [] ->
  read_element l = (if Z.of_nat (length (rest d)) <? len then None
    else Some (Literal (take (Z.to_nat len) (rest d)), drop (Z.to_nat len) (rest d))) ->
  exists go d' w',
    ('(ok, literal_length, d, w) ← literal_loop fuel len d w;
     if negb ok then Some (false, d, w)
     else
       '(ok, w) ← Append (drop (ip_ d) (buf d)) literal_length w;
       if negb ok then Some (false, d, w)
       else '(ok, d) ← MAYBE_REFILL (set_ip d (ip_ d + Z.to_nat literal_length)); Some (ok, d, w)) = Some (go, d', w')
    /\ turned l out lim go d' w'.
Proof.
  intros Hok Hw Hlen Hf Hl Hr. unfold is32 in Hlen.
  destruct (literal_loop_spec fuel len d w out lim Hok Hw) as (ok & len' & d1 & w1 & -> & Hd1f); [lia|case_decide; lia|].
  cbn [mbind option_bind]. destruct ok; cbn [negb].
  2: { destruct Hd1f as (Hp & He & Hbad). exists false, d1, w1. split; [done|]. apply turn_failed; [done..|].
    intros e l' out' Er Ea. rewrite Hr in Er. destruct (Z.ltb_spec (Z.of_nat (length (rest d))) len); [done|].
    injection Er as <- <-. injection Ea as <-. rewrite length_app, length_take. lia. }
  destruct Hd1f as (Hok1 & Hl1 & part & E & El & Hw1). pose proof Hok1 as [Hi1 Hi2 Hp1 _ _ _ He1].
  destruct (Append_holds w1 (out ++ part) lim (drop (ip_ d1) (buf d1)) len' Hw1 (buf_bytes_at d1 _ Hok1)) as (ok & w2 & -> & Hw2);
    [rewrite length_drop; lia|lia|]. cbn [mbind option_bind].
  pose proof (rest_set_ip d1 (Z.to_nat len') Hok1 ltac:(lia)) as E1. set (bs := take (Z.to_nat len') _) in *.
  assert (length bs = Z.to_nat len') as Hbs by (unfold bs; rewrite length_take, length_drop; lia).
  assert (read_element l = Some (Literal (part ++ bs), rest (set_ip d1 (ip_ d1 + Z.to_nat len')))) as Hr'.
  { rewrite Hr, E, E1, app_assoc. rewrite (proj2 (Z.ltb_ge _ _)) by (rewrite !length_app; lia).
    assert (Z.to_nat len = length (part ++ bs)) as -> by (rewrite length_app; lia). by rewrite take_app_length, drop_app_length. }
  destruct ok; cbn [negb].
  - destruct (turn_done l out lim (Literal (part ++ bs)) (out ++ part ++ bs) (set_ip d1 (ip_ d1 + Z.to_nat len')) w2)
      as (go & d' & -> & Ht); [apply set_ip_ok; [done|lia]|done|done|by rewrite app_assoc|].
    exists go, d', w2. by split.
  - exists false, d1, w2. split; [done|]. apply turn_failed; [done..|].
    intros e l' out' Er Ea. rewrite Hr' in Er. injection Er as <- <-. injection Ea as <-. rewrite !length_app in *. lia.
Qed.

Lemma fast_turn d n l bs out lim w :
  dec_ok d -> (n + 5 <= ip_limit_ d - ip_ d)%nat -> bs = take n (drop (ip_ d) (buf d)) ->
  read_element l = Some (Literal (take n (rest d)), drop n (rest d)) -> holds w (out ++ bs) lim ->
  turned l out lim true (set_ip d (ip_ d + n)) w.
Proof.
  intros Hok Hn -> Hr Hw. pose proof (set_ip_ok d n Hok ltac:(lia)) as Hok'. pose proof Hok' as [Hi1 Hi2 Hp _ _ _ _].
  pose proof (rest_set_ip d n Hok ltac:(lia)) as E. set (bs := take n (drop (ip_ d) (buf d))) in *. cbn [ip_ ip_limit_ set_ip] in *.
  assert (length bs = n) as Hbs by (unfold bs; rewrite length_take, length_drop; pose proof Hok as [? ? _ _ _ _ _]; lia).
  split; [done|]. cbn [orb]. exists (Literal bs), (rest (set_ip d (ip_ d + n))), (out ++ bs). split_and!; [|done..| |done].
  - rewrite Hr. rewrite E. replace n with (length bs) at 1 3 by done. by rewrite take_app_length, drop_app_length.
  - split; [done|]. cbn [ip_ ip_limit_ set_ip]. split; [lia|]. destruct (rest_cons _ Hok') as (c & Hc & H8 & _); [cbn; lia|].
    exists c. split; [done|]. pose proof (extra_bytes_4 c H8). cbn. lia.
Qed.

Lemma tag_bits c : is8 c -> c .& 3 = c mod 4 /\ c >> 2 = c / 4 /\ 0 <= c / 4 < 64.
Proof.
  intros Hc. unfold is8 in Hc. split_and!.
  - change 3 with (Z.ones 2). by rewrite Z.land_ones by lia.
  - by rewrite Z.shiftr_div_pow2 by lia.
  - apply Z.div_pos; lia.
  - apply Z.div_lt_upper_bound; lia.
Qed.

Lemma bytes_rest d : dec_ok d -> bytes (rest d).
Proof.
  intros Hok. unfold rest, seg, ahead. apply bytes_app. split; [apply bytes_take, buf_bytes_at, Hok|].
  destruct Hok as [_ _ _ _ (_&_&?) _ _]. auto with words.
Qed.

(** The trailer of a tag, which is loaded as a word and masked. *)
Lemma load_trailer d k :
  dec_ok d -> (k <= 4)%nat -> (k <= ip_limit_ d - ip_ d)%nat -> (ip_ d + 4 <= length (buf d))%nat ->
  exists v mask, UNALIGNED_LOAD32 (buf d) (ip_ d) = Some v /\ wordmask !! k = Some mask /\ v .& mask = le_val (take k (rest d)).
Proof.
  intros Hok Hk Hl Hb. unfold UNALIGNED_LOAD32. rewrite load_Some by done.
  destruct (wordmask_spec k (take 4 (drop (ip_ d) (buf d)))) as (mask & Hm & E); [done|apply bytes_take, buf_bytes_at, Hok|rewrite length_take, length_drop; lia|].
  exists (le_val (take 4 (drop (ip_ d) (buf d)))), mask. split_and!; [done..|]. rewrite E, take_take. f_equal.
  rewrite (rest_set_ip d k Hok Hl). rewrite take_app_le by (rewrite length_take, length_drop; pose proof Hok as [? ? _ _ _ _ _]; lia).
  rewrite take_take. f_equal. lia.
Qed.

(** The bytes behind a tag are consumed with it. *)
Lemma behind_trailer d k :
  dec_ok d -> (k <= ip_limit_ d - ip_ d)%nat -> drop k (rest d) = rest (set_ip d (ip_ d + k)).
Proof.
  intros Hok Hk. rewrite (rest_set_ip d k Hok Hk). pose proof Hok as [? ? _ _ _ _ _].
  rewrite drop_app_le by (rewrite length_take, length_drop; lia). rewrite drop_ge; [done|]. rewrite length_take. lia.
Qed.

Lemma rest_long d n : dec_ok d -> (n <= ip_limit_ d - ip_ d)%nat -> (n <= length (rest d))%nat.
Proof. intros Hok Hn. unfold rest. rewrite length_app, (length_seg d Hok). lia. Qed.

Lemma literal_tag_spec fuel c d w out lim :
  dec_ok d -> is8 c -> c mod 4 = 0 -> (extra_bytes c <= ip_limit_ d - ip_ d)%nat -> (ip_ d + 4 <= length (buf d))%nat ->
  holds w out lim -> (length (rest d) + 1 <= fuel)%nat ->
  exists go d' w', literal_tag fuel c d w = Some (go, d', w') /\ turned (c :: rest d) out lim go d' w'.
Proof.
  intros Hok H8 E0 Hx H5 Hw Hf. unfold literal_tag. pose proof Hok as [Hi1 Hi2 Hp _ _ _ _].
  pose proof (extra_bytes_4 c H8) as H4. destruct (tag_bits c H8) as (_ & -> & H64).
  pose proof (read_literal c (rest d) E0 (rest_long d _ Hok Hx)) as Hr. cbn zeta in Hr. rewrite (behind_trailer d _ Hok Hx) in Hr.
  destruct (TryFastAppend_holds w out lim (drop (ip_ d) (buf d)) (Z.of_nat (ip_limit_ d) - Z.of_nat (ip_ d)) (c / 4 + 1) Hw (buf_bytes_at d _ Hok))
    as (fast & w1 & -> & Hw1); [rewrite length_drop; lia|lia|]. cbn [mbind option_bind].
  assert (extra_bytes c = if c / 4 <? 60 then 0%nat else Z.to_nat (c / 4 - 59)) as Ex by (unfold extra_bytes; by rewrite E0).
  destruct fast.
  - destruct Hw1 as (Hl61 & Hav & Hw1). unfold kMaximumTagLength in Hav. do 3 eexists. split; [done|].
    rewrite (proj2 (Z.ltb_lt _ _)) in Ex, Hr by lia. rewrite <- (behind_trailer d _ Hok Hx), Ex, drop_0, w32_small in Hr by (unfold is32; lia).
    rewrite (proj2 (Z.ltb_ge _ _)) in Hr by (pose proof (rest_long d (Z.to_nat (c / 4 + 1)) Hok ltac:(lia)); lia).
    eapply fast_turn; [done|lia|done|exact Hr|done].
  - unfold long_literal. destruct (Z.leb_spec 61 (c / 4 + 1)).
    + destruct (load_trailer d (extra_bytes c) Hok) as (v & mask & -> & Hm & Hvm); [lia..|].
      rewrite (proj2 (Z.ltb_ge _ _)) in Ex, Hr by lia. cbn [mbind option_bind].
      replace (c / 4 + 1 - 60) with (c / 4 - 59) by lia. rewrite <- Ex, Hm. cbn [mbind option_bind]. rewrite Hvm.
      apply literal_turn; [by apply set_ip_ok|done|apply is32_w32|rewrite <- (behind_trailer d _ Hok Hx), length_drop; lia|done|exact Hr].
    + rewrite (proj2 (Z.ltb_lt _ _)) in Ex, Hr by lia. cbn [mbind option_bind].
      rewrite <- (behind_trailer d _ Hok Hx), Ex, drop_0, w32_small in Hr by (unfold is32; lia).
      apply literal_turn; [done|done|unfold is32; lia|lia|done|exact Hr].
Qed.

Lemma copy_tag_spec c d w out lim :
  dec_ok d -> is8 c -> c mod 4 <> 0 -> (extra_bytes c <= ip_limit_ d - ip_ d)%nat -> (ip_ d + 4 <= length (buf d))%nat ->
  holds w out lim ->
  exists go d' w', copy_tag c d w = Some (go, d', w') /\ turned (c :: rest d) out lim go d' w'.
Proof.
  intros Hok H8 E0 Hx H5 Hw. unfold copy_tag. pose proof (extra_bytes_4 c H8) as H4.
  destruct (load_trailer d (extra_bytes c) Hok) as (v & mask & -> & Hm & Hvm); [lia..|]. cbn [mbind option_bind].
  rewrite (entry_extra c H8), Nat2Z.id, Hm. cbn [mbind option_bind]. rewrite Hvm.
  destruct (read_copy c (rest d) H8 E0 (bytes_rest d Hok) (rest_long d _ Hok Hx)) as [Hr Hl64].
  rewrite (behind_trailer d _ Hok Hx) in Hr. pose proof (set_ip_ok d (extra_bytes c) Hok Hx) as Hok2.
  set (offset := _ +w _) in *. assert (is32 offset) as Hoff by apply is32_add.
  destruct (AppendFromSelf_holds w out lim offset (entry c .& 0xff) Hw Hoff Hl64) as (ok & w1 & -> & Hw1). cbn [mbind option_bind].
  destruct ok; cbn [negb].
  - destruct Hw1 as [Ho Hw1]. edestruct (turn_done (c :: rest d) out lim) as (go & d' & -> & Ht); [exact Hok2|exact Hr| |exact Hw1|].
    + cbn. by rewrite (proj2 (Z.leb_le _ _)), (proj2 (Z.leb_le _ _)) by lia.
    + exists go, d', w1. by split.
  - pose proof Hok2 as [_ _ ? _ _ _ ?]. do 3 eexists. split; [done|]. apply turn_failed; [done..|]. intros e l' out' Er Ea.
    rewrite Hr in Er. injection Er as <- <-. cbn in Ea. destruct Hw1 as [Ho|Hbig].
    + destruct (Z.leb_spec 1 offset), (Z.leb_spec offset (Z.of_nat (length out))); cbn in Ea; try done. lia.
    + destruct (_ && _); [|done]. injection Ea as <-. rewrite length_self_copy. lia.
Qed.

Lemma decompress_turn_spec fuel d w out lim :
  ready d -> holds w out lim -> (length (rest d) <= fuel)%nat ->
  exists go d' w', decompress_turn fuel d w = Some (go, d', w') /\ turned (rest d) out lim go d' w'.
Proof.
  intros (Hok & H5 & c & Hc & Hx) Hw Hf. unfold decompress_turn. rewrite Hc. cbn [mbind option_bind].
  destruct (rest_cons d Hok) as (c' & Hc' & H8 & Hrest); [lia|]. rewrite Hc in Hc'. injection Hc' as <-.
  pose proof (set_ip_ok d 1 Hok ltac:(lia)) as Hok1. rewrite Hrest in *. cbn [length] in Hf.
  destruct (tag_bits c H8) as (-> & _ & _). assert (buf (set_ip d (ip_ d + 1)) = buf d) as Hbuf by done.
  destruct (Z.eqb_spec (c mod 4) LITERAL).
  - apply literal_tag_spec; rewrite ?Hbuf; cbn [ip_ ip_limit_ set_ip]; (done || lia).
  - apply copy_tag_spec; rewrite ?Hbuf; cbn [ip_ ip_limit_ set_ip]; (done || lia).
Qed.

(** What the loop achieves: the whole of the reference. *)
Definition decompressed (l out : list Z) (lim : Z) d' (w' : W) : Prop :=
  (peeked_ d' <= length (contents (reader_ d')))%nat
  /\ if eof_ d' then ahead d' = [] /\ exists out', decode l out = Some out' /\ holds w' out' lim
     else forall out', decode l out = Some out' -> lim < Z.of_nat (length out').

Lemma decompress_loop_spec fuel d w out lim :
  ready d -> holds w out lim -> (length (rest d) <= fuel)%nat ->
  exists d' w', decompress_loop fuel d w = Some (d', w') /\ decompressed (rest d) out lim d' w'.
Proof.
  revert d w out. induction fuel as [|fuel IH]; intros d w out Hd Hw Hf.
  all: assert (rest d <> []) as Hne by (destruct Hd as (Hok & _ & c & Hc & Hx); destruct (rest_cons d Hok) as (? & _ & _ & ->); [lia|done]).
  { destruct (rest d); [done|cbn in Hf; lia]. }
  cbn [decompress_loop]. destruct (decompress_turn_spec (Datatypes.S fuel) d w out lim Hd Hw Hf) as (go & d1 & w1 & -> & Hp & Ht).
  cbn [mbind option_bind]. destruct go; cbn [orb] in Ht.
  - destruct Ht as (e & l' & out1 & Hr & Ha & Hw1 & Hd1 & ->). pose proof (read_element_shorter _ _ _ Hr).
    destruct (IH d1 w1 out1 Hd1 Hw1) as (d' & w' & -> & Hp' & Hres); [lia|]. exists d', w'. split; [done|].
    split; [done|]. rewrite (decode_step (rest d)) by done. rewrite Hr. cbn [mbind option_bind]. rewrite Ha. exact Hres.
  - exists d1, w1. split; [done|]. split; [done|]. destruct (eof_ d1); [|done].
    destruct Ht as (e & l' & out1 & Hr & Ha & Hw1 & -> & Hah). split; [done|]. exists out1. split; [|done].
    rewrite decode_step by done. rewrite Hr. cbn [mbind option_bind]. by rewrite Ha.
Qed.

Lemma DecompressAllTags_spec fuel d w out lim :
  dec_ok d -> holds w out lim -> (length (rest d) <= fuel)%nat ->
  exists d' w', DecompressAllTags fuel d w = Some (d', w') /\ decompressed (rest d) out lim d' w'.
Proof.
  intros Hok Hw Hf. unfold DecompressAllTags. destruct (MAYBE_REFILL_spec d Hok) as (ok & d1 & -> & Hp & Hd1). cbn [mbind option_bind].
  destruct ok; cbn [negb].
  - destruct Hd1 as [Hd1 E]. rewrite <- E in *. by apply decompress_loop_spec.
  - exists d1, w. split; [done|]. split; [done|]. destruct (eof_ d1).
    + destruct Hd1 as [-> Ha]. split; [done|]. by exists out.
    + destruct Hd1 as [Hne Hr]. intros out' Ho. rewrite decode_step in Ho by done. by rewrite Hr in Ho.
Qed.

Lemma ReadUncompressedLength_loop_spec n shift result r :
  bytes (contents r) -> is32 result ->
  exists v r', ReadUncompressedLength_loop n shift result r = Some (v, r') /\ (length (contents r') <= length (contents r))%nat
    /\ GetVarint_loop shl32 n shift result (contents r) = (fun v => (v, contents r')) <$> v /\ (forall x, v = Some x -> is32 x).
Proof.
  revert shift result r. induction n as [|n IH]; intros shift result r Hb H32; cbn [ReadUncompressedLength_loop GetVarint_loop].
  { exists None, r. by destruct (contents r). }
  destruct (Peek_contents r) as [more Hm]. destruct (Peek r) as [|c p] eqn:Ep.
  { exists None, r. by rewrite (Peek_empty r Ep). }
  destruct (Skip_contents 1 r) as (r1 & -> & Hr1); [rewrite Hm; cbn; lia|]. cbn [mbind option_bind]. rewrite Hm in *. cbn [app] in Hr1. rewrite skipn_cons, drop_0 in Hr1.
  apply bytes_cons in Hb as [H8 Hb]. cbn [app GetVarint_loop]. destruct (byte_bits c H8) as [Eb El]. rewrite Eb.
  assert (is32 (result .| (c .& 127) << shift)) by auto with words.
  destruct (Z.ltb_spec c 128); cbn [negb].
  - rewrite El in * by done. eexists _, r1. split; [done|]. rewrite Hr1. cbn [app length fmap option_fmap option_map]. split_and!; [lia|done|]. by intros x [= <-].
  - destruct (IH (shift + 7)%Z (result .| (c .& 127) << shift) r1) as (v & r' & -> & Hl & E & Hv); [by rewrite Hr1|done|].
    exists v, r'. split; [done|]. rewrite Hr1 in *. cbn [app length]. split_and!; [lia|done|done].
Qed.

Lemma GetVarint32Ptr_fallback l : bytes l -> GetVarint32Ptr l = GetVarint32PtrFallback l.
Proof.
  intros Hb. destruct l as [|b l]; [done|]. apply bytes_cons in Hb as [H8 _]. unfold GetVarint32Ptr, GetVarint32PtrFallback.
  cbn [GetVarint_loop]. destruct (b .& 128 =? 0); [|done]. cbn [negb]. rewrite Z.lor_0_l, shl32_0; [done|]. unfold is8, is32 in *. lia.
Qed.

Lemma bytes_GetVarint_loop n shift result l v l' : bytes l -> GetVarint_loop shl32 n shift result l = Some (v, l') -> bytes l'.
Proof.
  revert shift result l. induction n as [|n IH]; intros shift result l Hb E; [by destruct l|]. destruct l as [|x l]; [done|].
  apply bytes_cons in Hb as [_ Hb]. cbn [GetVarint_loop] in E. destruct (negb _); [by eapply IH|]. by injection E as _ <-.
Qed.

(** For every cut of the text into regions: the decompressor returns; it succeeds exactly on
    the texts that have a meaning; then the writer has received it and the source is empty. *)
Lemma InternalUncompress_spec scratch r w :
  bytes (contents r) -> Z.of_nat (length (contents r)) < 0x1_0000_0000 -> bytes scratch -> length scratch = 5%nat ->
  (forall n l, GetVarint32Ptr (contents r) = Some (n, l) -> fresh w n) ->
  exists ok r' w', InternalUncompress scratch r w = Some (ok, r', w')
    /\ if ok then contents r' = [] /\ exists out, meaning (contents r) = Some out /\ holds w' out (Z.of_nat (length out))
       else meaning (contents r) = None.
Proof.
  intros Hb Hsm Hbs Hls Hw. unfold InternalUncompress, ReadUncompressedLength.
  destruct (ReadUncompressedLength_loop_spec 5 0 0 r Hb) as (v & r1 & -> & Hl & E & Hv); [unfold is32; lia|].
  cbn [mbind option_bind]. fold (GetVarint32PtrFallback (contents r)) in E. rewrite <- GetVarint32Ptr_fallback in E by done.
  unfold meaning. rewrite E. destruct v as [n|]; cbn [fmap option_fmap option_map mbind option_bind]; [|by exists false, r1, w].
  specialize (Hv n eq_refl). specialize (Hw n _ E). unfold InternalUncompressAllTags.
  assert (bytes (contents r1)) as Hb1 by (rewrite GetVarint32Ptr_fallback in E by done; exact (bytes_GetVarint_loop _ _ _ _ _ _ Hb E)).
  set (d0 := new_SnappyDecompressor r1 scratch).
  assert (dec_ok d0) as Hok0 by (split; cbn; (done || lia || (split_and!; (done || lia || auto with words)))).
  assert (rest d0 = contents r1) as Hr0 by done.
  destruct (DecompressAllTags_spec (Available (reader_ d0)) d0 (SetExpectedLength n w) [] n) as (d' & w' & -> & Hp & Hd);
    [done|by apply SetExpectedLength_holds|rewrite Hr0; cbn; rewrite Available_contents; lia|].
  cbn [mbind option_bind]. rewrite Hr0 in Hd.
  destruct (Skip_contents (peeked_ d') (reader_ d') Hp) as (r' & -> & Hr'). cbn [mbind option_bind]. do 3 eexists. split; [done|].
  destruct (eof_ d'); cbn [andb].
  - destruct Hd as [Ha (out & Ho & Hh)]. rewrite Ho. cbn [mbind option_bind]. rewrite (CheckLength_holds w' out n Hh).
    destruct (Z.eqb_spec (Z.of_nat (length out)) n) as [<-|]; [|done]. split; [by rewrite Hr'|]. by exists out.
  - destruct (decode (contents r1) []) as [out|]; [|done]. specialize (Hd out eq_refl). cbn [mbind option_bind].
    by rewrite (proj2 (Z.eqb_neq _ _)) by lia.
Qed.
End correct.

(** ** The functions for arrays and strings *)

(** [bool GetUncompressedLength(const char* start, size_t n, size_t* result)] *)
Definition GetUncompressedLength (start : list Z) : option Z := fst <$> Parse32WithLimit start.

(** [bool GetUncompressedLength(Source* source, uint32* result)], with the destructor of the
    decompressor, which has peeked at nothing. *)
Definition GetUncompressedLength_Source {S : Type} `{Source S} (source : S) : option (option Z * S) :=
  '(result, source) ← ReadUncompressedLength source;
  source ← Skip 0 source;
  Some (result, source).

(** [bool RawUncompress(Source* compressed, char* uncompressed)]: the array is returned as it is
    left. *)
Definition RawUncompress_Source {S : Type} `{Source S} (scratch : list Z) (compressed : S) (uncompressed : list Z)
    : option (bool * S * list Z) :=
  '(ok, compressed, w) ← InternalUncompress scratch compressed (new_SnappyArrayWriter uncompressed);
  Some (ok, compressed, dst w).

Definition RawUncompress (scratch compressed uncompressed : list Z) : option (bool * list Z) :=
  '(ok, _, mem) ← RawUncompress_Source scratch {| left_bytes := compressed |} uncompressed;
  Some (ok, mem).

(** [string::resize] cuts or adds zeros. *)
Definition string_resize (s : list Z) (n : nat) : list Z := take n s ++ replicate (n - length s) 0.

(** [max_size] is that of strings. *)
Definition Uncompress (max_size : Z) (scratch compressed uncompressed : list Z) : option (bool * list Z) :=
  match GetUncompressedLength compressed with
  | None => Some (false, uncompressed)
  | Some ulength =>
      if max_size <? ulength then Some (false, uncompressed)
      else RawUncompress scratch compressed (string_resize uncompressed (Z.to_nat ulength))
  end.

Definition IsValidCompressedBuffer (scratch compressed : list Z) : option bool :=
  '(ok, _, _) ← InternalUncompress scratch {| left_bytes := compressed |} new_SnappyDecompressionValidator;
  Some ok.

(** ** What they do *)

Lemma length_string_resize s n : length (string_resize s n) = n.
Proof. unfold string_resize. rewrite length_app, length_take, length_replicate. lia. Qed.

Lemma bytes_string_resize s n : bytes s -> bytes (string_resize s n).
Proof. intros Hs. unfold string_resize. apply bytes_app. auto with words. Qed.

Lemma RawUncompress_Source_spec {S : Type} `{Source S} (scratch : list Z) (r : S) (mem : list Z) :
  bytes (contents r) -> Z.of_nat (length (contents r)) < 0x1_0000_0000 -> bytes scratch -> length scratch = 5%nat -> bytes mem ->
  (forall n l, GetVarint32Ptr (contents r) = Some (n, l) -> n <= Z.of_nat (length mem)) ->
  exists r' mem', RawUncompress_Source scratch r mem = Some (bool_decide (is_Some (meaning (contents r))), r', mem')
    /\ forall out, meaning (contents r) = Some out -> out `prefix_of` mem' /\ length mem' = length mem /\ contents r' = [].
Proof.
  intros Hb Hl Hbs Hls Hm Hn. unfold RawUncompress_Source. pose (array_laws (length mem)) as laws.
  destruct (InternalUncompress_spec scratch r (new_SnappyArrayWriter mem)) as (ok & r' & w' & -> & Hr); [done..| |].
  { intros n l E. by split_and!; [..|eapply Hn]. }
  cbn [mbind option_bind]. exists r', (dst w'). destruct ok.
  - destruct Hr as [Hr (out & Ho & [Hroom Hp _ _ _ _ _])]. rewrite bool_decide_eq_true_2 by (by exists out).
    split; [done|]. intros o Ho'. by simplify_eq.
  - rewrite Hr, bool_decide_eq_false_2 by apply is_Some_None. by split.
Qed.

Lemma IsValid_spec scratch data :
  bytes data -> Z.of_nat (length data) < 0x1_0000_0000 -> bytes scratch -> length scratch = 5%nat ->
  IsValidCompressedBuffer scratch data = Some (bool_decide (is_Some (meaning data))).
Proof.
  intros Hb Hl Hbs Hls. unfold IsValidCompressedBuffer.
  destruct (InternalUncompress_spec scratch {| left_bytes := data |} new_SnappyDecompressionValidator) as (ok & r' & w' & -> & Hr); [done..|].
  cbn [mbind option_bind]. f_equal. change (contents {| left_bytes := data |}) with data in Hr. symmetry. destruct ok.
  - destruct Hr as [_ (out & -> & _)]. by apply bool_decide_eq_true_2.
  - rewrite Hr. by apply bool_decide_eq_false_2, is_Some_None.
Qed.

Lemma meaning_length data n l out : GetVarint32Ptr data = Some (n, l) -> meaning data = Some out -> n = Z.of_nat (length out).
Proof.
  intros E. unfold meaning. rewrite E. cbn [mbind option_bind]. destruct (decode l []) as [o|]; [|done]. cbn [mbind option_bind].
  destruct (Z.eqb_spec (Z.of_nat (length o)) n); [|done]. by intros [= ->].
Qed.

Lemma GetVarint_loop_is32 n shift result l v l' :
  bytes l -> is32 result -> GetVarint_loop shl32 n shift result l = Some (v, l') -> is32 v.
Proof.
  revert shift result l. induction n as [|n IH]; intros shift result l Hb Hr E; [by destruct l|]. destruct l as [|x l]; [done|].
  apply bytes_cons in Hb as [_ Hb]. cbn [GetVarint_loop] in E. destruct (negb _); [eapply IH; [exact Hb| |exact E]; auto with words|].
  injection E as <- _. auto with words.
Qed.

Lemma GetUncompressedLength_is32 data n : bytes data -> GetUncompressedLength data = Some n -> is32 n.
Proof.
  intros Hb. unfold GetUncompressedLength. destruct (Parse32WithLimit data) as [[n' l]|] eqn:E; [|done]. intros [= ->].
  apply Parse32_Get in E; [|done]. rewrite GetVarint32Ptr_fallback in E by done. eapply GetVarint_loop_is32; [exact Hb| |exact E]. unfold is32. lia.
Qed.

(** The string is the meaning when the length can be read strictly. *)
Lemma RawUncompress_exact scratch data n mem :
  bytes data -> Z.of_nat (length data) < 0x1_0000_0000 -> bytes scratch -> length scratch = 5%nat -> bytes mem ->
  GetUncompressedLength data = Some n -> Z.of_nat (length mem) = n ->
  exists mem', RawUncompress scratch data mem = Some (bool_decide (is_Some (meaning data)), mem')
    /\ forall out, meaning data = Some out -> mem' = out.
Proof.
  intros Hb Hl Hbs Hls Hm Hn Hlen. unfold GetUncompressedLength in Hn.
  destruct (Parse32WithLimit data) as [[n' l]|] eqn:E; [|done]. injection Hn as ->. apply Parse32_Get in E; [|done].
  unfold RawUncompress. destruct (RawUncompress_Source_spec scratch {| left_bytes := data |} mem) as (r' & mem' & -> & Hr); [done..| |].
  { intros n1 l1 E1. cbn in E1. rewrite E in E1. injection E1 as <- <-. lia. }
  cbn [mbind option_bind]. change (contents {| left_bytes := data |}) with data in Hr. exists mem'. split; [done|]. intros out Ho.
  destruct (Hr out Ho) as (Hp & Hlm & _). pose proof (meaning_length _ _ _ _ E Ho). symmetry. apply prefix_length_eq; [done|lia].
Qed.

(** ** Sources in pieces *)

Record Pieces := { pieces : list (list Z) }.
Fixpoint skip_pieces (n : nat) (l : list (list Z)) : option (list (list Z)) :=
  match l with
  | [] => match n with O => Some [] | _ => None end
  | p :: l => if (n <? length p)%nat then Some (drop n p :: l) else skip_pieces (n - length p) l
  end.
Fixpoint first_piece (l : list (list Z)) : list Z :=
  match l with [] => [] | [] :: l => first_piece l | p :: _ => p end.
#[export] Program Instance Pieces_Source : Source Pieces := {|
  Available s := length (concat (pieces s));
  Peek s := first_piece (pieces s);
  Skip n s := Build_Pieces <$> skip_pieces n (pieces s);
  contents s := concat (pieces s) |}.
Next Obligation. done. Qed.
Next Obligation.
  intros [l]. cbn. induction l as [|[|x p] l IH]; [apply prefix_nil|exact IH|]. cbn. rewrite app_comm_cons. by apply prefix_app_r.
Qed.
Next Obligation.
  intros [l]. cbn. induction l as [|[|x p] l IH]; [done|exact IH|done].
Qed.
Next Obligation.
  intros n [l]. cbn. revert n. induction l as [|p l IH]; intros n Hn; cbn [concat skip_pieces] in *.
  - destruct n; [|cbn in Hn; lia]. by eexists.
  - rewrite length_app in Hn. destruct (Nat.ltb_spec n (length p)).
    + eexists. split; [done|]. cbn. by rewrite drop_app_le by lia.
    + destruct (IH (n - length p)%nat ltac:(lia)) as (s' & E & Hs). exists s'. split; [done|].
      rewrite Hs, drop_app_ge by lia. done.
Qed.

(** ** The claims *)

(** C20: Decompression from any source, in regions of any size, into an array that has
    room for the length that the text announces.  Whatever the text is, every read of the
    input, of the scratch buffer and of the output and every write is inside its array,
    and the function returns; it returns true exactly if the text has a meaning by the
    format, in which the length of a literal has 32 bits, and then the array starts with it,
    keeps its size, and the source is used up. *)
Theorem uncompress_meaning {S : Type} `{Source S} (scratch : list Z) (r : S) (mem : list Z) :
  bytes (contents r) -> Z.of_nat (length (contents r)) < 0x1_0000_0000 -> bytes scratch -> length scratch = 5%nat -> bytes mem ->
  (forall n l, GetVarint32Ptr (contents r) = Some (n, l) -> n <= Z.of_nat (length mem)) ->
  exists r' mem', RawUncompress_Source scratch r mem = Some (bool_decide (is_Some (meaning (contents r))), r', mem')
    /\ forall out, meaning (contents r) = Some out -> out `prefix_of` mem' /\ length mem' = length mem /\ contents r' = [].
Proof. apply RawUncompress_Source_spec. Qed.

(** Twelve bytes in three pieces: the literal "ab" and a copy of ten bytes from two back. *)
Definition ab_pieces : Pieces := {| pieces := [[12; 4]; [97]; [98; 25]; [2]] |}.
Lemma uncompress_meaning_witness :
  meaning (contents ab_pieces) = Some [97; 98; 97; 98; 97; 98; 97; 98; 97; 98; 97; 98]
  /\ exists r', RawUncompress_Source (replicate 5 7) ab_pieces (replicate 12 0) = Some (true, r', [97; 98; 97; 98; 97; 98; 97; 98; 97; 98; 97; 98]).
Proof.
  assert (meaning (contents ab_pieces) = Some [97; 98; 97; 98; 97; 98; 97; 98; 97; 98; 97; 98]) as Hm by reflexivity.
  split; [exact Hm|].
  destruct (uncompress_meaning (replicate 5 7) ab_pieces (replicate 12 0)) as (r' & mem' & E & Hr).
  - byte_list.
  - reflexivity.
  - byte_list.
  - reflexivity.
  - apply bytes_replicate.
  - intros n l E. vm_compute in E. injection E as <- <-. reflexivity.
  - exists r'. rewrite E. rewrite Hm. destruct (Hr _ Hm) as (Hp & Hl & _). do 2 f_equal. symmetry.
    by apply prefix_length_eq; [|rewrite Hl].
Defined.

(** The validator and the decompressor agree: a buffer is valid exactly if decompression
    into an array with room succeeds. *)
Theorem valid_iff_uncompressed (scratch data mem : list Z) :
  bytes data -> Z.of_nat (length data) < 0x1_0000_0000 -> bytes scratch -> length scratch = 5%nat -> bytes mem ->
  (forall n l, GetVarint32Ptr data = Some (n, l) -> n <= Z.of_nat (length mem)) ->
  IsValidCompressedBuffer scratch data = fst <$> RawUncompress scratch data mem.
Proof.
  intros Hb Hl Hbs Hls Hm Hn. rewrite IsValid_spec by done. unfold RawUncompress.
  by destruct (RawUncompress_Source_spec scratch {| left_bytes := data |} mem) as (r' & mem' & -> & _).
Qed.

Lemma valid_iff_uncompressed_witness :
  IsValidCompressedBuffer (replicate 5 7) [2; 0; 97; 5; 1] = fst <$> RawUncompress (replicate 5 7) [2; 0; 97; 5; 1] (replicate 2 0)
  /\ fst <$> RawUncompress (replicate 5 7) [2; 0; 97; 5; 1] (replicate 2 0) = Some false.
Proof.
  split; [|reflexivity]. apply (valid_iff_uncompressed (replicate 5 7) [2; 0; 97; 5; 1] (replicate 2 0)).
  - byte_list.
  - reflexivity.
  - byte_list.
  - reflexivity.
  - apply bytes_replicate.
  - intros n l E. vm_compute in E. injection E as <- <-. reflexivity.
Defined.

(** Uncompress into a string: if the length is a proper 32-bit number that strings can
    have, the result is true exactly if the text has a meaning, and the string is then it. *)
Theorem uncompress_string (max_size n : Z) (scratch data s : list Z) :
  bytes data -> Z.of_nat (length data) < 0x1_0000_0000 -> bytes scratch -> length scratch = 5%nat -> bytes s ->
  GetUncompressedLength data = Some n -> n <= max_size ->
  exists s', Uncompress max_size scratch data s = Some (bool_decide (is_Some (meaning data)), s')
    /\ forall out, meaning data = Some out -> s' = out.
Proof.
  intros Hb Hl Hbs Hls Hs Hn Hmax. unfold Uncompress. rewrite Hn, (proj2 (Z.ltb_ge _ _) Hmax).
  pose proof (GetUncompressedLength_is32 data n Hb Hn) as [H0 _].
  apply (RawUncompress_exact scratch data n); [done..|by apply bytes_string_resize|done|]. rewrite length_string_resize. lia.
Qed.

(** A length of five bytes whose last one is 16 or more: the validator takes it, modulo
    [2^32], but Uncompress refuses it. *)
Theorem valid_but_refused (max_size : Z) (s : list Z) :
  let data := [0x81; 0x80; 0x80; 0x80; 0x10; 0; 97] in
  IsValidCompressedBuffer (replicate 5 0) data = Some true /\ Uncompress max_size (replicate 5 0) data s = Some (false, s).
Proof. split; reflexivity. Qed.

(** The longest length of a literal, [2^32], is computed as 0: the text is accepted as an empty
    one, into an array and by the validator. *)
Theorem longest_literal_empty :
  let data := [0; 0xfc; 0xff; 0xff; 0xff; 0xff] in
  RawUncompress (replicate 5 0) data [] = Some (true, []) /\ IsValidCompressedBuffer (replicate 5 0) data = Some true.
Proof. split; reflexivity. Qed.
