(* ===== verification/SnappyMatch.v ===== *)
(** * Matches in Snappy: src/packages/Snappy.1.1.1.7/lib/native/include/snappy-internal.h and
    snappy-stubs-internal.h

    The bit operations and the comparison of two places in the input, in the two versions
    that the build chooses from: for x86-64 and for the rest. *)
From stdpp Require Import base numbers option list.
From S2P Require Import Prelude Coding SnappyFormat.
Open Scope Z_scope.
Open Scope word_scope.

(** ** Bits, in the portable versions *)

(** [for (int i = 4; i >= 0; --i)] with [shift = 1 << i]. *)
Definition Log2Floor (n : Z) : Z :=
  if n =? 0 then -1
  else
    snd (foldl (fun '(value, log) shift =>
           let x := value >> shift in
           if negb (x =? 0) then (x, log + shift) else (value, log)) (n, 0) [16; 8; 4; 2; 1]).

Definition FindLSBSetNonZero (n : Z) : Z :=
  snd (foldl (fun '(n, rc) shift =>
         let x := n << shift in
         if negb (x =? 0) then (x, rc - shift) else (n, rc)) (n, 31) [16; 8; 4; 2; 1]).

Definition FindLSBSetNonZero64 (n : Z) : Z :=
  let bottombits := w32 n in
  if bottombits =? 0 then 32 + FindLSBSetNonZero (w32 (n >> 32)) else FindLSBSetNonZero bottombits.

(** ** The comparison

    [s1] and [s2] are positions in the input, [s2_limit] is its end.  The loops pass over
    bytes before [s2_limit]. *)

Section match_length.
Context (input : list Z) (s2_limit : nat).

Fixpoint match_bytes (fuel : nat) (s1 s2 matched : nat) : option nat :=
  if (s2 <? s2_limit)%nat then
    match fuel with
    | O => None
    | S fuel' =>
        a ← input !! (s1 + matched)%nat;
        b ← input !! s2;
        if a =? b then match_bytes fuel' s1 (S s2) (S matched) else Some matched
    end
  else Some matched.

(** [#if defined(ARCH_K8)] *)
Fixpoint match_words64 (fuel : nat) (s1 s2 matched : nat) : option nat :=
  if (s2 + 8 <=? s2_limit)%nat then
    match fuel with
    | O => None
    | S fuel' =>
        b ← UNALIGNED_LOAD64 input s2;
        a ← UNALIGNED_LOAD64 input (s1 + matched);
        if b =? a then match_words64 fuel' s1 (s2 + 8) (matched + 8)
        else
          let x := b .^ a in
          let matching_bits := FindLSBSetNonZero64 x in
          Some (matched + Z.to_nat (matching_bits >> 3))%nat
    end
  else match_bytes (s2_limit - s2) s1 s2 matched.
Definition FindMatchLength_K8 (s1 s2 : nat) : option nat := match_words64 (s2_limit - s2) s1 s2 0.

(** [#else] *)
Fixpoint match_words32 (fuel : nat) (s1 s2 matched : nat) : option nat :=
  if (s2 + 4 <=? s2_limit)%nat then
    match fuel with
    | O => None
    | S fuel' =>
        b ← UNALIGNED_LOAD32 input s2;
        a ← UNALIGNED_LOAD32 input (s1 + matched);
        if b =? a then match_words32 fuel' s1 (s2 + 4) (matched + 4)
        else
          let x := b .^ a in
          let matching_bits := FindLSBSetNonZero x in
          Some (matched + Z.to_nat (matching_bits >> 3))%nat
    end
  else match_bytes (s2_limit - s2) s1 s2 matched.
Definition FindMatchLength_portable (s1 s2 : nat) : option nat := match_words32 (s2_limit - s2) s1 s2 0.

Definition FindMatchLength (arch_k8 : bool) (s1 s2 : nat) : option nat :=
  if arch_k8 then FindMatchLength_K8 s1 s2 else FindMatchLength_portable s1 s2.
End match_length.

(** ** The lowest bit *)

(** Bit [r] is the lowest one of [n]. *)
Definition lowest (n r : Z) : Prop := 0 <= r /\ Z.testbit n r = true /\ forall j, 0 <= j < r -> Z.testbit n j = false.

Lemma shl32_testbit n s i : 0 <= s -> 0 <= i < 32 -> Z.testbit (n << s) i = Z.testbit n (i - s).
Proof.
  intros Hs Hi. unfold shl32, w32. change 0x1_0000_0000 with (2 ^ 32). rewrite Z.mod_pow2_bits_low by lia. apply Z.shiftl_spec. lia.
Qed.

Lemma shl32_zero n s i : 0 <= s -> n << s = 0 -> 0 <= i -> i + s < 32 -> Z.testbit n i = false.
Proof.
  intros Hs E Hi His. pose proof (shl32_testbit n s (i + s) Hs ltac:(lia)) as H. rewrite E, Z.bits_0 in H.
  by replace (i + s - s) with i in H by lia.
Qed.

(** The loop keeps [n] the original number moved left by [31 - rc], and not zero; after the
    turn for [shift] all bits below [32 - shift] are clear. *)
Definition lsb_inv (n0 shift : Z) (st : Z * Z) : Prop :=
  is32 (fst st) /\ fst st <> 0 /\ 0 <= snd st <= 31
  /\ (forall i, 0 <= i < 32 -> Z.testbit (fst st) i = Z.testbit n0 (i - (31 - snd st)))
  /\ (forall i, 0 <= i -> i + shift < 32 -> Z.testbit (fst st) i = false).

Lemma lsb_step n0 shift n rc :
  0 < shift -> (forall i, i < 0 -> Z.testbit n0 i = false) -> lsb_inv n0 (2 * shift) (n, rc) ->
  lsb_inv n0 shift (if negb (n << shift =? 0) then (n << shift, rc - shift) else (n, rc)).
Proof.
  intros Hs Hneg (H32 & Hnz & Hrc & Hb & Hlow). cbn [fst snd] in *. destruct (Z.eqb_spec (n << shift) 0) as [E|E]; cbn [negb].
  - split_and!; cbn; [done|done|lia|lia|done|]. intros i Hi His. apply (shl32_zero n shift); (done || lia).
  - assert (0 <= rc - shift) as Hge.
    { destruct (decide (0 <= rc - shift)) as [|Hlt]; [done|]. exfalso. apply E. apply Z.bits_inj'. intros i Hi. rewrite Z.bits_0.
      destruct (decide (i < 32)) as [Hi32|Hi32].
      - rewrite shl32_testbit by lia. destruct (decide (i - shift < 0)); [by apply Z.testbit_neg_r|].
        rewrite Hb by lia. apply Hneg. lia.
      - pose proof (proj1 (is32_testbit _) (is32_shl n shift)) as [_ Ht]. apply Ht. lia. }
    split_and!; cbn [fst snd]; [apply is32_shl|done|lia|lia| |].
    + intros i Hi. rewrite shl32_testbit by lia. destruct (decide (i - shift < 0)).
      * rewrite Z.testbit_neg_r by lia. symmetry. apply Hneg. lia.
      * rewrite Hb by lia. f_equal. lia.
    + intros i Hi His. rewrite shl32_testbit by lia. destruct (decide (i - shift < 0)); [by apply Z.testbit_neg_r|].
      apply Hlow; lia.
Qed.

Lemma FindLSBSetNonZero_spec n : is32 n -> n <> 0 -> lowest n (FindLSBSetNonZero n).
Proof.
  intros H32 Hnz. assert (forall i, i < 0 -> Z.testbit n i = false) as Hneg by (intros; by apply Z.testbit_neg_r).
  assert (lsb_inv n 32 (n, 31)) as H0.
  { split_and!; cbn; [done|done|lia|lia| |lia]. intros i Hi. f_equal. lia. }
  unfold FindLSBSetNonZero. cbn [foldl].
  pose proof (lsb_step n 16 n 31 ltac:(lia) Hneg H0) as H1. destruct (if negb (n << 16 =? 0) then _ else _) as [n1 r1].
  pose proof (lsb_step n 8 n1 r1 ltac:(lia) Hneg H1) as H2. destruct (if negb (n1 << 8 =? 0) then _ else _) as [n2 r2].
  pose proof (lsb_step n 4 n2 r2 ltac:(lia) Hneg H2) as H3. destruct (if negb (n2 << 4 =? 0) then _ else _) as [n3 r3].
  pose proof (lsb_step n 2 n3 r3 ltac:(lia) Hneg H3) as H4. destruct (if negb (n3 << 2 =? 0) then _ else _) as [n4 r4].
  pose proof (lsb_step n 1 n4 r4 ltac:(lia) Hneg H4) as H5. destruct (if negb (n4 << 1 =? 0) then _ else _) as [n5 r5].
  cbn [snd]. destruct H5 as (Hn & Hn5 & Hr & Hb & Hlow). cbn [fst snd] in *. split_and!; [lia| |].
  - destruct (Z.testbit n r5) eqn:E; [done|]. exfalso. apply Hn5. apply Z.bits_inj'. intros i Hi. rewrite Z.bits_0.
    destruct (decide (i < 31)); [apply Hlow; lia|]. destruct (decide (i = 31)) as [->|].
    + rewrite Hb by lia. by replace (31 - (31 - r5)) with r5 by lia.
    + apply is32_testbit in Hn as [_ Hn]. apply Hn. lia.
  - intros j Hj. specialize (Hb (j + (31 - r5)) ltac:(lia)). replace (j + (31 - r5) - (31 - r5)) with j in Hb by lia. rewrite <- Hb.
    apply Hlow; lia.
Qed.

Lemma FindLSBSetNonZero64_spec n : is64 n -> n <> 0 -> lowest n (FindLSBSetNonZero64 n).
Proof.
  intros H64 Hnz. unfold is64 in H64. unfold FindLSBSetNonZero64.
  assert (forall i, 0 <= i < 32 -> Z.testbit (w32 n) i = Z.testbit n i) as Hlow.
  { intros i Hi. unfold w32. change 0x1_0000_0000 with (2 ^ 32). apply Z.mod_pow2_bits_low; lia. }
  assert (w32 (n >> 32) = n >> 32) as Eh.
  { apply w32_small. unfold is32. rewrite Z.shiftr_div_pow2 by lia. split; [apply Z.div_pos; lia|]. apply Z.div_lt_upper_bound; lia. }
  destruct (Z.eqb_spec (w32 n) 0) as [E|E].
  - assert (forall i, 0 <= i < 32 -> Z.testbit n i = false) as Hz by (intros i Hi; by rewrite <- Hlow, E, Z.bits_0 by done).
    assert (n >> 32 <> 0) as Hh.
    { intros E2. apply Hnz. apply Z.bits_inj'. intros i Hi. rewrite Z.bits_0. destruct (decide (i < 32)); [apply Hz; lia|].
      pose proof (Z.shiftr_spec n 32 (i - 32) ltac:(lia)) as Hs. rewrite E2, Z.bits_0 in Hs. by replace (i - 32 + 32) with i in Hs by lia. }
    destruct (FindLSBSetNonZero_spec (w32 (n >> 32)) (is32_w32 _)) as (H0 & H1 & H2); [by rewrite Eh|]. rewrite Eh in *. split_and!; [lia| |].
    + rewrite Z.shiftr_spec in H1 by lia. by rewrite Z.add_comm.
    + intros j Hj. destruct (decide (j < 32)); [apply Hz; lia|]. specialize (H2 (j - 32) ltac:(lia)).
      rewrite Z.shiftr_spec in H2 by lia. by replace (j - 32 + 32) with j in H2 by lia.
  - destruct (FindLSBSetNonZero_spec (w32 n) (is32_w32 _) E) as (H0 & H1 & H2).
    assert (FindLSBSetNonZero (w32 n) < 32) as H3.
    { destruct (decide (FindLSBSetNonZero (w32 n) < 32)); [done|]. pose proof (proj1 (is32_testbit _) (is32_w32 n)) as [_ Ht].
      rewrite Ht in H1; [done|lia]. }
    split_and!; [lia|by rewrite <- Hlow|]. intros j Hj. rewrite <- Hlow by lia. by apply H2.
Qed.

(** ** The first byte that differs *)

Lemma byte_above b j : is8 b -> 8 <= j -> Z.testbit b j = false.
Proof. intros Hb Hj. unfold is8 in Hb. apply (proj1 (lt_pow2_testbit b 8 ltac:(lia) ltac:(lia))); lia. Qed.

Lemma le_val_testbit l i b j :
  bytes l -> l !! i = Some b -> 0 <= j < 8 -> Z.testbit (le_val l) (8 * Z.of_nat i + j) = Z.testbit b j.
Proof.
  intros Hl. revert i. induction Hl as [|x l Hx Hl IH]; intros i Hi Hj; [done|]. change (le_val (x :: l)) with (x + 0x100 * le_val l).
  assert (x + 0x100 * le_val l = Z.lor x (Z.shiftl (le_val l) 8)) as ->.
  { rewrite lor_shiftl_add by (unfold is8 in Hx; lia). lia. }
  rewrite Z.lor_spec. destruct i as [|i]; cbn in Hi.
  - injection Hi as ->. rewrite Z.shiftl_spec_low by lia. by rewrite orb_false_r.
  - rewrite byte_above by (done || lia). rewrite Z.shiftl_spec by lia. cbn [orb]. rewrite <- (IH i Hi Hj). f_equal. lia.
Qed.

Lemma le_val_above l j : bytes l -> 8 * Z.of_nat (length l) <= j -> Z.testbit (le_val l) j = false.
Proof.
  intros Hl Hj. pose proof (le_val_bound l Hl) as Hb.
  replace (0x100 ^ Z.of_nat (length l)) with (2 ^ (8 * Z.of_nat (length l))) in Hb by (rewrite Z.pow_mul_r by lia; done).
  apply (proj1 (lt_pow2_testbit (le_val l) (8 * Z.of_nat (length l)) ltac:(lia) ltac:(lia))); lia.
Qed.

Lemma lowest_byte la lb r :
  bytes la -> bytes lb -> length la = length lb -> lowest (le_val lb .^ le_val la) r ->
  let k := Z.to_nat (r >> 3) in
  (k < length la)%nat /\ (forall i, (i < k)%nat -> la !! i = lb !! i) /\ la !! k <> lb !! k.
Proof.
  intros Ha Hb Hl (H0 & H1 & H2). cbn zeta. rewrite Z.shiftr_div_pow2 by lia. change (2 ^ 3) with 8.
  pose proof (Z.div_mod r 8 ltac:(lia)) as Er. pose proof (Z.mod_pos_bound r 8 ltac:(lia)) as Hm.
  pose proof (Z.div_pos r 8 ltac:(lia) ltac:(lia)) as Hd. rewrite Z.lxor_spec in H1.
  assert (r < 8 * Z.of_nat (length la)) as Hr.
  { destruct (decide (r < 8 * Z.of_nat (length la))); [done|]. rewrite !le_val_above in H1 by (done || lia). done. }
  split; [lia|]. split.
  - intros i Hi. destruct (lookup_lt_is_Some_2 la i) as [a Ea]; [lia|]. destruct (lookup_lt_is_Some_2 lb i) as [b Eb]; [lia|].
    rewrite Ea, Eb. f_equal. apply Z.bits_inj'. intros j Hj. destruct (decide (j < 8)).
    + specialize (H2 (8 * Z.of_nat i + j) ltac:(lia)). rewrite Z.lxor_spec in H2.
      rewrite (le_val_testbit la i a j Ha Ea), (le_val_testbit lb i b j Hb Eb) in H2 by lia. by destruct (Z.testbit a j), (Z.testbit b j).
    + rewrite !byte_above; [done|..]; try lia; [by apply (Forall_lookup_1 is8 lb i)|by apply (Forall_lookup_1 is8 la i)].
  - destruct (lookup_lt_is_Some_2 la (Z.to_nat (r / 8))) as [a Ea]; [lia|].
    destruct (lookup_lt_is_Some_2 lb (Z.to_nat (r / 8))) as [b Eb]; [lia|]. rewrite Ea, Eb. intros [= ->].
    replace r with (8 * Z.of_nat (Z.to_nat (r / 8)) + r mod 8) in H1 at 1 2 by lia.
    rewrite (le_val_testbit la _ b _ Ha Ea), (le_val_testbit lb _ b _ Hb Eb) in H1 by lia. by destruct (Z.testbit b (r mod 8)).
Qed.

(** ** The length of a match *)

Section match_proofs.
Context (input : list Z) (limit : nat) (Hbytes : bytes input) (Hlimit : (limit <= length input)%nat).

Definition agree (s1 s2 m : nat) : Prop := forall i, (i < m)%nat -> input !! (s1 + i)%nat = input !! (s2 + i)%nat.

(** The largest [m] such that [m] bytes agree before the limit. *)
Definition longest_match (s1 s2 m : nat) : Prop :=
  (s2 + m <= limit)%nat /\ agree s1 s2 m /\ ((s2 + m)%nat = limit \/ input !! (s1 + m)%nat <> input !! (s2 + m)%nat).

Lemma longest_match_unique s1 s2 m m' : longest_match s1 s2 m -> longest_match s1 s2 m' -> m = m'.
Proof.
  intros (H1 & H2 & H3) (H1' & H2' & H3'). destruct (lt_eq_lt_dec m m') as [[Hlt|]|Hlt]; [|done|].
  - destruct H3 as [H3|H3]; [lia|]. destruct H3. by apply H2'.
  - destruct H3' as [H3'|H3']; [lia|]. destruct H3'. by apply H2.
Qed.

Lemma agree_word s1 s2 m k :
  agree s1 s2 m -> (s1 + m + k <= length input)%nat -> (s2 + m + k <= length input)%nat ->
  take k (drop (s1 + m) input) = take k (drop (s2 + m) input) -> agree s1 s2 (m + k).
Proof.
  intros Ha H1 H2 E i Hi. destruct (decide (i < m)%nat); [by apply Ha|].
  pose proof (f_equal (.!! (i - m)%nat) E) as Ei. cbn in Ei. rewrite !lookup_take_lt, !lookup_drop in Ei by lia.
  by replace (s1 + m + (i - m))%nat with (s1 + i)%nat in Ei by lia; replace (s2 + m + (i - m))%nat with (s2 + i)%nat in Ei by lia.
Qed.

Lemma match_bytes_spec fuel s1 s2 m :
  (s1 <= s2)%nat -> agree s1 s2 m -> (s2 + m <= limit)%nat -> (limit - (s2 + m) <= fuel)%nat ->
  exists m', match_bytes input limit fuel s1 (s2 + m) m = Some m' /\ longest_match s1 s2 m'.
Proof.
  intros H12. revert m. induction fuel as [|fuel IH]; intros m Ha Hm Hf; cbn [match_bytes];
    destruct (Nat.ltb_spec (s2 + m) limit) as [Hlt|Hge]; try lia.
  1, 3: exists m; split; [done|]; split_and!; [lia|done|left; lia].
  destruct (lookup_lt_is_Some_2 input (s1 + m)) as [a Ea]; [lia|]. destruct (lookup_lt_is_Some_2 input (s2 + m)) as [b Eb]; [lia|].
  rewrite Ea, Eb. cbn [mbind option_bind]. destruct (Z.eqb_spec a b) as [->|Hne].
  - destruct (IH (S m)) as (m' & E & Hr); [|lia|lia|exists m'; split; [by rewrite <- Nat.add_succ_r|done]].
    intros i Hi. destruct (decide (i = m)) as [->|]; [congruence|apply Ha; lia].
  - exists m. split; [done|]. split_and!; [lia|done|]. right. congruence.
Qed.

(** A word that differs ends the match. *)
Lemma word_differs s1 s2 m k r :
  (s1 <= s2)%nat -> agree s1 s2 m -> (s2 + m + k <= limit)%nat ->
  lowest (le_val (take k (drop (s2 + m) input)) .^ le_val (take k (drop (s1 + m) input))) r ->
  longest_match s1 s2 (m + Z.to_nat (r >> 3)).
Proof.
  intros H12 Ha Hk Hr. apply lowest_byte in Hr as (H1 & H2 & H3); [|auto with words..|rewrite !length_take, !length_drop; lia].
  set (j := Z.to_nat (r >> 3)) in *. rewrite length_take, length_drop in H1. split_and!; [lia| |right].
  - intros i Hi. destruct (decide (i < m)%nat); [by apply Ha|]. specialize (H2 (i - m)%nat ltac:(lia)).
    rewrite !lookup_take_lt, !lookup_drop in H2 by lia.
    by replace (s1 + m + (i - m))%nat with (s1 + i)%nat in H2 by lia; replace (s2 + m + (i - m))%nat with (s2 + i)%nat in H2 by lia.
  - rewrite !lookup_take_lt, !lookup_drop in H3 by lia. by rewrite !Nat.add_assoc.
Qed.

Lemma load_words_differ s1 s2 k :
  (s1 + k <= length input)%nat -> (s2 + k <= length input)%nat ->
  let a := le_val (take k (drop s1 input)) in let b := le_val (take k (drop s2 input)) in
  0 <= b .^ a < 0x100 ^ Z.of_nat k /\ (b .^ a = 0 -> b = a)
  /\ (b = a -> take k (drop s1 input) = take k (drop s2 input)).
Proof.
  intros H1 H2. cbn zeta. set (la := take k (drop s1 input)). set (lb := take k (drop s2 input)).
  assert (length la = k) as Hla by (unfold la; rewrite length_take, length_drop; lia).
  assert (length lb = k) as Hlb by (unfold lb; rewrite length_take, length_drop; lia).
  assert (bytes la) as Ba by (unfold la; auto with words). assert (bytes lb) as Bb by (unfold lb; auto with words).
  split_and!.
  - apply Z.lxor_nonneg. pose proof (le_val_bound la Ba). pose proof (le_val_bound lb Bb). lia.
  - replace (0x100 ^ Z.of_nat k) with (2 ^ (8 * Z.of_nat k)) by (rewrite Z.pow_mul_r by lia; done).
    apply lt_pow2_testbit; [apply Z.lxor_nonneg; pose proof (le_val_bound la Ba); pose proof (le_val_bound lb Bb); lia|lia|].
    intros i Hi. rewrite Z.lxor_spec, !le_val_above by (done || lia). done.
  - apply Z.lxor_eq.
  - intros E. symmetry. apply le_val_inj; [done..|lia|done].
Qed.

Lemma match_words64_spec fuel s1 s2 m :
  (s1 <= s2)%nat -> agree s1 s2 m -> (s2 + m <= limit)%nat -> (limit - (s2 + m) <= fuel)%nat ->
  exists m', match_words64 input limit fuel s1 (s2 + m) m = Some m' /\ longest_match s1 s2 m'.
Proof.
  intros H12. revert m. induction fuel as [|fuel IH]; intros m Ha Hm Hf; cbn [match_words64];
    destruct (Nat.leb_spec (s2 + m + 8) limit) as [Hle|Hgt]; try lia.
  1, 3: apply match_bytes_spec; (done || lia).
  unfold UNALIGNED_LOAD64. rewrite !load_Some by lia. cbn [fmap option_fmap option_map mbind option_bind].
  destruct (load_words_differ (s1 + m) (s2 + m) 8) as (Hb & Hz & He); [lia..|].
  destruct (Z.eqb_spec (le_val (take 8 (drop (s2 + m) input))) (le_val (take 8 (drop (s1 + m) input)))) as [E|E].
  - rewrite <- Nat.add_assoc. apply IH; [|lia..]. apply agree_word; [done|lia|lia|by apply He].
  - eexists. split; [done|]. apply (word_differs s1 s2 m 8); [done..|]. apply FindLSBSetNonZero64_spec; [done|]. intros E0. by apply E, Hz.
Qed.

Lemma match_words32_spec fuel s1 s2 m :
  (s1 <= s2)%nat -> agree s1 s2 m -> (s2 + m <= limit)%nat -> (limit - (s2 + m) <= fuel)%nat ->
  exists m', match_words32 input limit fuel s1 (s2 + m) m = Some m' /\ longest_match s1 s2 m'.
Proof.
  intros H12. revert m. induction fuel as [|fuel IH]; intros m Ha Hm Hf; cbn [match_words32];
    destruct (Nat.leb_spec (s2 + m + 4) limit) as [Hle|Hgt]; try lia.
  1, 3: apply match_bytes_spec; (done || lia).
  unfold UNALIGNED_LOAD32. rewrite !load_Some by lia. cbn [fmap option_fmap option_map mbind option_bind].
  destruct (load_words_differ (s1 + m) (s2 + m) 4) as (Hb & Hz & He); [lia..|].
  destruct (Z.eqb_spec (le_val (take 4 (drop (s2 + m) input))) (le_val (take 4 (drop (s1 + m) input)))) as [E|E].
  - rewrite <- Nat.add_assoc. apply IH; [|lia..]. apply agree_word; [done|lia|lia|by apply He].
  - eexists. split; [done|]. apply (word_differs s1 s2 m 4); [done..|]. apply FindLSBSetNonZero_spec; [done|]. intros E0. by apply E, Hz.
Qed.

(** Both versions find the longest match. *)
Lemma FindMatchLength_longest arch_k8 s1 s2 :
  (s1 <= s2 <= limit)%nat -> exists m, FindMatchLength input limit arch_k8 s1 s2 = Some m /\ longest_match s1 s2 m.
Proof.
  intros H12. assert (agree s1 s2 0) as H0 by (intros i Hi; lia). unfold FindMatchLength, FindMatchLength_K8, FindMatchLength_portable.
  destruct arch_k8.
  - destruct (match_words64_spec (limit - s2) s1 s2 0) as (m & E & Hm); [lia|done|lia|lia|]. rewrite Nat.add_0_r in E. by exists m.
  - destruct (match_words32_spec (limit - s2) s1 s2 0) as (m & E & Hm); [lia|done|lia|lia|]. rewrite Nat.add_0_r in E. by exists m.
Qed.
End match_proofs.

(** The comparison for x86-64, by words of eight bytes, and the portable one, by four,
    return the same number, which is the largest one such that so many bytes agree before
    the limit; neither reads at or behind the limit. *)
Theorem match_length_longest (input : list Z) (s1 s2 limit : nat) :
  bytes input -> (s1 <= s2 <= limit)%nat -> (limit <= length input)%nat ->
  exists m, FindMatchLength_K8 (take limit input) limit s1 s2 = Some m
    /\ FindMatchLength_portable (take limit input) limit s1 s2 = Some m
    /\ longest_match (take limit input) limit s1 s2 m.
Proof.
  intros Hb Hs Hl. assert (limit <= length (take limit input))%nat as Hl' by (rewrite length_take; lia).
  assert (bytes (take limit input)) as Hb' by auto with words.
  destruct (FindMatchLength_longest (take limit input) limit Hb' Hl' true s1 s2 Hs) as (m & E & Hm).
  destruct (FindMatchLength_longest (take limit input) limit Hb' Hl' false s1 s2 Hs) as (m' & E' & Hm').
  assert (m = m') as <- by (by eapply longest_match_unique). by exists m.
Qed.

Lemma match_length_longest_witness :
  exists m, FindMatchLength_K8 (take 19 (concat (replicate 4 [1; 2; 3; 4; 5]))) 19 0 5 = Some m
    /\ FindMatchLength_portable (take 19 (concat (replicate 4 [1; 2; 3; 4; 5]))) 19 0 5 = Some m /\ m = 14%nat.
Proof.
  destruct (match_length_longest (concat (replicate 4 [1; 2; 3; 4; 5])) 0 5 19) as (m & E1 & E2 & _).
  - byte_list.
  - lia.
  - cbn. lia.
  - exists m. split; [exact E1|]. split; [exact E2|]. vm_compute in E1. by injection E1 as <-.
Defined.
