(* ===== verification/SnappyCompress.v ===== *)
(** * Compression of Snappy: src/packages/Snappy.1.1.1.7/lib/native/src/snappy.cc and
    snappy-sinksource.cc

    The input is cut into blocks of 64 kB.  In each block a table of hashes leads to earlier
    places with the same four bytes; what is found becomes copies, the rest literals.  The
    output array is written without checks, and also behind the end of what is produced:
    the theorems show that [MaxCompressedLength] bytes are enough for all of it. *)
From stdpp Require Import base numbers option list.
From S2P Require Import Prelude Coding SnappyFormat SnappyMatch SnappyWriter SnappyDecompress.
Open Scope Z_scope.
Open Scope word_scope.

(** ** Elements *)

Definition MaxCompressedLength (source_len : Z) : Z := w64 (32 + source_len + source_len / 6).

(** An output pointer: the array and the position [op]. *)
Definition output : Type := list Z * nat.

(** [*op++ = c] *)
Definition put (c : Z) (o : output) : option output :=
  mem ← store (fst o) (snd o) [w8 c];
  Some (mem, S (snd o)).

(** [while (n > 0)]: an [int] has four bytes. *)
Fixpoint put_length (fuel : nat) (n count : Z) (o : output) : option (Z * output) :=
  if 0 <? n then
    match fuel with
    | O => None
    | S fuel' =>
        o ← put (n .& 0xff) o;
        put_length fuel' (n >> 8) (count + 1) o
    end
  else Some (count, o).

Definition put_input (input : list Z) (literal len : nat) (o : output) : option output :=
  mem ← memcpy input literal (fst o) (snd o) len;
  Some (mem, (snd o + len)%nat).

(** The length in upcoming bytes; the tag in front of them is written last. *)
Definition put_long_header (n : Z) (o : output) : option output :=
  let base := snd o in
  '(count, o) ← put_length 4 n 0 (fst o, S base);
  mem ← store (fst o) base [w8 (LITERAL .| Z.shiftl (59 + count) 2)];
  Some (mem, snd o).

Definition EmitLiteral (input : list Z) (literal len : nat) (allow_fast_path : bool) (o : output) : option output :=
  let n := Z.of_nat len - 1 in
  if n <? 60 then
    o ← put (LITERAL .| Z.shiftl n 2) o;
    if allow_fast_path && (len <=? 16)%nat then
      mem ← UnalignedCopy64 input literal (fst o) (snd o);
      mem ← UnalignedCopy64 input (literal + 8) mem (snd o + 8);
      Some (mem, (snd o + len)%nat)
    else put_input input literal len o
  else
    o ← put_long_header n o;
    put_input input literal len o.

Definition EmitCopyLessThan64 (offset len : Z) (o : output) : option output :=
  if (len <? 12) && (offset <? 2048) then
    let len_minus_4 := len - 4 in
    o ← put (COPY_1_BYTE_OFFSET + Z.shiftl len_minus_4 2 + Z.shiftl (offset >> 8) 5) o;
    put (offset .& 0xff) o
  else
    o ← put (COPY_2_BYTE_OFFSET + Z.shiftl (len - 1) 2) o;
    mem ← UNALIGNED_STORE16 (fst o) (snd o) (w16 offset);
    Some (mem, (snd o + 2)%nat).

(** [while (len >= 68)] *)
Fixpoint emit_copies (fuel : nat) (offset len : Z) (o : output) : option (Z * output) :=
  if 68 <=? len then
    match fuel with
    | O => None
    | S fuel' =>
        o ← EmitCopyLessThan64 offset 64 o;
        emit_copies fuel' offset (len - 64) o
    end
  else Some (len, o).
Definition EmitCopy (offset len : Z) (o : output) : option output :=
  '(len, o) ← emit_copies (Z.to_nat len) offset len o;
  '(len, o) ←
    (if 64 <? len then
       o ← EmitCopyLessThan64 offset 60 o;
       Some (len - 60, o)
     else Some (len, o));
  EmitCopyLessThan64 offset len o.

(** ** The table of hashes *)

Definition HashBytes (bytes shift : Z) : Z := w32 (bytes * 0x1e35a7bd) >> shift.
Definition Hash (input : list Z) (p : nat) (shift : Z) : option Z :=
  v ← UNALIGNED_LOAD32 input p;
  Some (HashBytes v shift).

Definition kBlockSize : nat := Z.to_nat 65536.
Definition kMaxHashTableSize : Z := 16384.

(** [while (htsize < kMaxHashTableSize && htsize < input_size)], from 256 to 2^14. *)
Fixpoint htsize_loop (fuel : nat) (htsize input_size : Z) : Z :=
  match fuel with
  | O => htsize
  | S fuel' =>
      if (htsize <? kMaxHashTableSize) && (htsize <? input_size) then htsize_loop fuel' (Z.shiftl htsize 1) input_size else htsize
  end.
(** The entries of the table that are used, cleared. *)
Definition GetHashTable (input_size : nat) : list Z * Z :=
  let htsize := htsize_loop 6 256 (Z.of_nat input_size) in
  (replicate (Z.to_nat htsize) 0, htsize).

Definition table_set (table : list Z) (hash : Z) (v : nat) : option (list Z) :=
  if hash <? Z.of_nat (length table) then Some (<[Z.to_nat hash := w16 (Z.of_nat v)]> table) else None.

(** ** A block *)

Definition kInputMarginBytes : nat := 15.

Section fragment.
Context (arch_k8 : bool) (input : list Z) (shift : Z).
Let ip_end : nat := length input.
Let ip_limit : nat := length input - kInputMarginBytes.

(** [GetUint32AtOffset(GetEightBytesAt(ptr), offset)], with a load of eight bytes and shifts or
    with a load of four. *)
Definition GetUint32AtOffset (ptr offset : nat) : option Z :=
  if arch_k8 then
    v ← UNALIGNED_LOAD64 input ptr;
    Some (w32 (v >> (8 * Z.of_nat offset)))
  else UNALIGNED_LOAD32 input (ptr + offset).

(** The search for a match: [None] inside is [goto emit_remainder].  The counter [skip] starts at
    32 and a block has 65536 bytes, so that it does not overflow. *)
Fixpoint scan (fuel : nat) (next_ip : nat) (next_hash skip : Z) (table : list Z) : option (option (nat * nat * list Z)) :=
  match fuel with
  | O => None
  | S fuel' =>
      let ip := next_ip in
      let hash := next_hash in
      let bytes_between_hash_lookups := skip >> 5 in
      let next_ip := (ip + Z.to_nat bytes_between_hash_lookups)%nat in
      if (ip_limit <? next_ip)%nat then Some None
      else
        next_hash ← Hash input next_ip shift;
        candidate ← table !! Z.to_nat hash;
        table ← table_set table hash ip;
        a ← UNALIGNED_LOAD32 input ip;
        b ← UNALIGNED_LOAD32 input (Z.to_nat candidate);
        if negb (a =? b) then scan fuel' next_ip next_hash (skip + 1) table
        else Some (Some (ip, Z.to_nat candidate, table))
  end.

(** The copies from a match on; [inl] is [goto emit_remainder] and [inr] the next search, both
    with [next_emit]. *)
Fixpoint copies (fuel : nat) (ip candidate : nat) (table : list Z) (o : output)
    : option (nat * output + nat * Z * list Z * output) :=
  match fuel with
  | O => None
  | S fuel' =>
      let base := ip in
      m ← FindMatchLength input ip_end arch_k8 (candidate + 4) (ip + 4);
      let matched := (4 + m)%nat in
      let ip := (ip + matched)%nat in
      let offset := Z.of_nat base - Z.of_nat candidate in
      o ← EmitCopy offset (Z.of_nat matched) o;
      let insert_tail := (ip - 1)%nat in
      if (ip_limit <=? ip)%nat then Some (inl (ip, o))
      else
        v0 ← GetUint32AtOffset insert_tail 0;
        table ← table_set table (HashBytes v0 shift) (ip - 1);
        v1 ← GetUint32AtOffset insert_tail 1;
        let cur_hash := HashBytes v1 shift in
        candidate ← table !! Z.to_nat cur_hash;
        candidate_bytes ← UNALIGNED_LOAD32 input (Z.to_nat candidate);
        table ← table_set table cur_hash ip;
        if v1 =? candidate_bytes then copies fuel' ip (Z.to_nat candidate) table o
        else
          v2 ← GetUint32AtOffset insert_tail 2;
          Some (inr (ip, HashBytes v2 shift, table, o))
  end.

(** [for (uint32 next_hash = Hash(++ip, shift); ; )] until [emit_remainder], with [next_emit]. *)
Fixpoint fragment_loop (fuel : nat) (ip : nat) (next_hash : Z) (next_emit : nat) (table : list Z) (o : output)
    : option (nat * output) :=
  match fuel with
  | O => None
  | S fuel' =>
      found ← scan (length input) ip next_hash 32 table;
      match found with
      | None => Some (next_emit, o)
      | Some (ip, candidate, table) =>
          o ← EmitLiteral input next_emit (ip - next_emit) true o;
          r ← copies (length input) ip candidate table o;
          match r with
          | inl (next_emit, o) => Some (next_emit, o)
          | inr (next_emit, next_hash, table, o) => fragment_loop fuel' (S next_emit) next_hash next_emit table o
          end
      end
  end.
End fragment.

Definition CompressFragment (arch_k8 : bool) (input : list Z) (table : list Z) (table_size : Z) (o : output) : option output :=
  let shift := 32 - Log2Floor table_size in
  '(next_emit, o) ←
    (if (kInputMarginBytes <=? length input)%nat then
       next_hash ← Hash input 1 shift;
       fragment_loop arch_k8 input shift (length input) 1 next_hash 0 table o
     else Some (0%nat, o));
  if (next_emit <? length input)%nat then EmitLiteral input next_emit (length input - next_emit) false o else Some o.

(** ** The whole input *)

Section compress.
Context (arch_k8 : bool) {S : Type} `{Source S}.

(** [while (bytes_read < num_to_read)]: a block from several regions. *)
Fixpoint gather (fuel : nat) (reader : S) (scratch : list Z) (num_to_read : nat) : option (list Z * S) :=
  if (length scratch <? num_to_read)%nat then
    match fuel with
    | O => None
    | Datatypes.S fuel' =>
        let fragment := Peek reader in
        let n := Nat.min (length fragment) (num_to_read - length scratch) in
        reader ← Skip n reader;
        gather fuel' reader (scratch ++ take n fragment) num_to_read
    end
  else Some (scratch, reader).

(** The next block, the source, and how far the source is advanced when the block is done. *)
Definition next_block (reader : S) (num_to_read : nat) : option (list Z * S * nat) :=
  let fragment := Peek reader in
  let bytes_read := length fragment in
  if (num_to_read <=? bytes_read)%nat then Some (take num_to_read fragment, reader, num_to_read)
  else
    reader ← Skip bytes_read reader;
    '(scratch, reader) ← gather num_to_read reader fragment num_to_read;
    Some (scratch, reader, 0%nat).

(** [while (N > 0)], with the array and position of an [UncheckedByteArraySink], whose append buffer
    is the place it writes to. *)
Fixpoint Compress_loop (fuel N : nat) (reader : S) (o : output) : option (S * output) :=
  if (0 <? N)%nat then
    match fuel with
    | O => None
    | Datatypes.S fuel' =>
        let num_to_read := Nat.min N kBlockSize in
        '(fragment, reader, pending_advance) ← next_block reader num_to_read;
        let '(table, table_size) := GetHashTable num_to_read in
        o ← CompressFragment arch_k8 fragment table table_size o;
        reader ← Skip pending_advance reader;
        Compress_loop fuel' (N - num_to_read) reader o
    end
  else Some (reader, o).

(** [size_t Compress(Source* reader, Sink* writer)]; the number of bytes written is the distance of
    the positions. *)
Definition Compress_Source (reader : S) (o : output) : option (S * output) :=
  let N := Available reader in
  let ulength := Encode32 (w32 (Z.of_nat N)) in
  mem ← store (fst o) (snd o) ulength;
  Compress_loop N N reader (mem, (snd o + length ulength)%nat).
End compress.

(** The array after the call and the length of the result. *)
Definition RawCompress (arch_k8 : bool) (input compressed : list Z) : option (list Z * nat) :=
  '(_, o) ← Compress_Source arch_k8 {| left_bytes := input |} (compressed, 0%nat);
  Some o.

Definition Compress (arch_k8 : bool) (input compressed : list Z) : option (list Z) :=
  let compressed := string_resize compressed (Z.to_nat (MaxCompressedLength (Z.of_nat (length input)))) in
  '(mem, compressed_length) ← RawCompress arch_k8 input compressed;
  Some (string_resize mem compressed_length).

(** ** Elements are written as the reference reads them *)

(** The array has [room] bytes and starts with [Q], behind which [op] points. *)
Definition out_at (o : output) (Q : list Z) (room : nat) : Prop :=
  Q `prefix_of` fst o /\ snd o = length Q /\ length (fst o) = room /\ bytes (fst o).

Lemma store_out mem Q bs n room :
  out_at (mem, length Q) Q room -> bytes bs -> (length Q + length bs <= room)%nat -> (n <= length bs)%nat ->
  exists mem', store mem (length Q) bs = Some mem' /\ out_at (mem', (length Q + n)%nat) (Q ++ take n bs) room.
Proof.
  intros (Hp & _ & Hl & Hb) Hbs Hr Hn. cbn in *. destruct (store_prefix mem Q bs n Hp) as (mem' & Hs & Hl' & Hp'); [lia|].
  exists mem'. split; [done|]. split_and!; cbn; [done|rewrite length_app, length_take; lia|lia|exact (bytes_store _ _ _ _ Hb Hbs Hs)].
Qed.

Lemma put_out c o Q room :
  out_at o Q room -> (length Q < room)%nat -> exists o', put c o = Some o' /\ out_at o' (Q ++ [w8 c]) room.
Proof.
  intros Ho Hr. destruct o as [mem op]. pose proof Ho as (_ & Hop & _ & _). cbn in Hop. subst op. unfold put. cbn [fst snd].
  destruct (store_out mem Q [w8 c] 1 room Ho) as (mem' & -> & Ho'); [auto with words|cbn; lia|done|]. cbn [mbind option_bind].
  eexists. split; [done|]. by rewrite <- Nat.add_1_r.
Qed.

Lemma put_length_out fuel n count o Q room :
  out_at o Q room -> 0 <= n < 0x100 ^ Z.of_nat fuel -> (length Q + fuel <= room)%nat ->
  exists k o', put_length fuel n count o = Some (count + Z.of_nat k, o') /\ out_at o' (Q ++ le_bytes k n) room
    /\ (k <= fuel)%nat /\ n < 0x100 ^ Z.of_nat k /\ forall j, n < 0x100 ^ Z.of_nat j -> (k <= j)%nat.
Proof.
  revert n count o Q. induction fuel as [|fuel IH]; intros n count o Q Ho Hn Hr; cbn [put_length]; destruct (Z.ltb_spec 0 n) as [Hp|Hp].
  1: cbn in Hn; lia.
  1, 3: exists 0%nat, o; rewrite Z.add_0_r; split_and!; [done|by rewrite app_nil_r|lia|cbn; lia|lia].
  destruct (put_out (n .& 0xff) o Q room Ho) as (o1 & -> & Ho1); [lia|]. cbn [mbind option_bind].
  rewrite Nat2Z.inj_succ, Z.pow_succ_r in Hn by lia.
  assert (n >> 8 = n / 0x100) as E8 by (by rewrite Z.shiftr_div_pow2 by lia).
  destruct (IH (n >> 8) (count + 1)%Z o1 (Q ++ [w8 (n .& 0xff)])) as (k & o' & E & Ho' & Hk & Hb & Hmin); [done| |rewrite length_app; cbn; lia|].
  { rewrite E8. split; [apply Z.div_pos; lia|]. apply Z.div_lt_upper_bound; lia. }
  exists (S k), o'. rewrite E. replace (count + 1 + Z.of_nat k) with (count + Z.of_nat (S k)) by lia. split; [done|].
  rewrite E8 in *. split; [|split; [lia|split]].
  - rewrite <- app_assoc in Ho'. cbn [app] in Ho'. change (le_bytes (S k) n) with (n mod 0x100 :: le_bytes k (n / 0x100)).
    replace (n mod 0x100) with (w8 (n .& 0xff)); [done|]. change 0xff with (Z.ones 8). rewrite Z.land_ones by lia. unfold w8.
    change (2 ^ 8) with 0x100. by rewrite Z.mod_mod.
  - rewrite Nat2Z.inj_succ, Z.pow_succ_r by lia. pose proof (Z.div_mod n 0x100 ltac:(lia)). pose proof (Z.mod_pos_bound n 0x100 ltac:(lia)). lia.
  - intros [|j] Hj; [cbn in Hj; lia|]. rewrite Nat2Z.inj_succ, Z.pow_succ_r in Hj by lia. specialize (Hmin j).
    assert (n / 0x100 < 0x100 ^ Z.of_nat j) by (apply Z.div_lt_upper_bound; lia). lia.
Qed.

Lemma put_input_out input literal len o Q room :
  out_at o Q room -> bytes input -> (literal + len <= length input)%nat -> (length Q + len <= room)%nat ->
  exists o', put_input input literal len o = Some o' /\ out_at o' (Q ++ take len (drop literal input)) room.
Proof.
  intros Ho Hb Hl Hr. destruct o as [mem op]. pose proof Ho as (_ & Hop & _ & _). cbn in Hop. subst op. unfold put_input, memcpy. cbn [fst snd].
  rewrite load_Some by done. cbn [mbind option_bind]. set (bs := take len (drop literal input)).
  assert (length bs = len) as Hbs by (unfold bs; rewrite length_take, length_drop; lia).
  destruct (store_out mem Q bs len room Ho) as (mem' & -> & Ho'); [unfold bs; auto with words|lia|lia|]. cbn [mbind option_bind].
  eexists. split; [done|]. by rewrite take_ge in Ho' by lia.
Qed.

(** A byte inside what has been produced is replaced. *)
Lemma store_inside mem op Q x R c room :
  out_at (mem, op) (Q ++ x :: R) room -> is8 c ->
  exists mem', store mem (length Q) [c] = Some mem' /\ out_at (mem', op) (Q ++ c :: R) room.
Proof.
  intros (Hp & Hop & Hl & Hb) Hc. cbn in *. destruct Hp as [t Ht]. rewrite Ht. rewrite <- app_assoc. cbn [app].
  rewrite store_Some by (rewrite length_app; cbn; lia). eexists. split; [done|].
  rewrite take_app_length, drop_app_ge by (cbn; lia). replace (length Q + length [c] - length Q)%nat with 1%nat by (cbn; lia). cbn [drop].
  rewrite drop_0. split_and!; cbn [fst snd].
  - exists t. by rewrite <- !app_assoc.
  - rewrite Hop, !length_app. done.
  - rewrite <- Hl, Ht, !length_app. cbn [length]. lia.
  - rewrite Ht, <- app_assoc in Hb. rewrite !bytes_app, bytes_cons in Hb. destruct Hb as (? & (? & ?) & ?).
    rewrite !bytes_app. split_and!; auto with words.
Qed.

Definition literal_header (len : nat) : nat := if (len <=? 60)%nat then 1 else if (len <=? 256)%nat then 2 else 3.

Lemma decode_short n bs P : 0 <= n < 60 -> Z.of_nat (length bs) = n + 1 -> decode (4 * n :: bs) P = Some (P ++ bs).
Proof.
  intros Hn Hl. rewrite decode_step by done.
  assert ((4 * n) mod 4 = 0) as E1 by (by rewrite Z.mul_comm, Z_mod_mult).
  assert ((4 * n) / 4 = n) as E2 by (rewrite Z.mul_comm; by apply Z.div_mul).
  assert (extra_bytes (4 * n) = 0%nat) as Ex by (unfold extra_bytes; rewrite E1, E2; by rewrite (proj2 (Z.ltb_lt _ _)) by lia).
  rewrite read_literal; [|done|rewrite Ex; lia]. rewrite Ex.
  rewrite E2, (proj2 (Z.ltb_lt n 60)) by lia. rewrite w32_small by (unfold is32; lia). rewrite drop_0, (proj2 (Z.ltb_ge _ _)) by lia. cbn [mbind option_bind apply_element].
  rewrite take_ge, drop_ge by lia. apply decode_nil.
Qed.

Lemma decode_long k n bs P :
  (1 <= k <= 3)%nat -> 0 <= n < 0x100 ^ Z.of_nat k -> Z.of_nat (length bs) = n + 1 ->
  decode (4 * (59 + Z.of_nat k) :: le_bytes k n ++ bs) P = Some (P ++ bs).
Proof.
  intros Hk Hn Hl. rewrite decode_step by done. set (t := 4 * (59 + Z.of_nat k)).
  assert (t mod 4 = 0) as E1 by (unfold t; by rewrite Z.mul_comm, Z_mod_mult).
  assert (t / 4 = 59 + Z.of_nat k) as E2 by (unfold t; rewrite Z.mul_comm; by apply Z.div_mul).
  assert (extra_bytes t = k) as Ex.
  { unfold extra_bytes. rewrite E1, E2, (proj2 (Z.ltb_ge _ _)) by lia. cbn. lia. }
  pose proof (length_le_bytes k n) as Hlb.
  rewrite read_literal; [|done|rewrite Ex, length_app; lia]. rewrite Ex, E2, (proj2 (Z.ltb_ge (59 + Z.of_nat k) 60)) by lia.
  assert (take k (le_bytes k n ++ bs) = le_bytes k n) as -> by (rewrite take_app_le, take_ge by lia; done).
  assert (drop k (le_bytes k n ++ bs) = bs) as -> by (rewrite drop_app_ge, Hlb, Nat.sub_diag by lia; done).
  assert (0x100 ^ Z.of_nat k <= 0x100 ^ 3) as Hk3 by (apply Z.pow_le_mono_r; lia). change (0x100 ^ 3) with 0x100_0000 in Hk3.
  rewrite le_val_le_bytes, Z.mod_small by done. rewrite w32_small by (unfold is32; lia). rewrite (proj2 (Z.ltb_ge _ _)) by lia. cbn [mbind option_bind apply_element].
  rewrite take_ge, drop_ge by lia. apply decode_nil.
Qed.

Lemma literal_tag_byte n : 0 <= n < 64 -> w8 (LITERAL .| Z.shiftl n 2) = 4 * n.
Proof.
  intros Hn. unfold LITERAL. rewrite Z.lor_0_l, Z.shiftl_mul_pow2 by lia. change (2 ^ 2) with 4. rewrite w8_small by (unfold is8; lia). lia.
Qed.

Lemma prefix_shorter (P l : list Z) n m : (n <= m)%nat -> P ++ take n l `prefix_of` P ++ take m l.
Proof. intros H. apply prefix_app. replace n with (n `min` m)%nat by lia. rewrite <- take_take. apply prefix_take. Qed.

(** Two copies of eight bytes write sixteen, of which [len] count. *)
Lemma put_input_fast input literal len o Q room :
  out_at o Q room -> bytes input -> (literal + 16 <= length input)%nat -> (length Q + 16 <= room)%nat -> (len <= 16)%nat ->
  exists o', (mem ← UnalignedCopy64 input literal (fst o) (snd o); mem ← UnalignedCopy64 input (literal + 8) mem (snd o + 8);
      Some (mem, (snd o + len)%nat)) = Some o' /\ out_at o' (Q ++ take len (drop literal input)) room.
Proof.
  intros (Hp & Hop & Hl & Hb) Hbi Hli Hr Hlen. rewrite Hop.
  destruct (copy16 input literal Q (fst o) Hbi Hp Hb Hli) as (mem & Hc & Hlm & Hbm & Hpm); [lia|].
  destruct (UnalignedCopy64 input literal (fst o) (length Q)) as [m1|]; [|done]. cbn [mbind option_bind] in *. rewrite Hc. cbn [mbind option_bind].
  eexists. split; [done|]. split_and!; cbn; [|rewrite length_app, length_take, length_drop; lia|lia|done].
  etrans; [|exact Hpm]. by apply prefix_shorter.
Qed.

Lemma put_length_bound k n :
  (k <= 4)%nat -> 59 < n < 65536 -> n < 0x100 ^ Z.of_nat k -> (forall j, n < 0x100 ^ Z.of_nat j -> (k <= j)%nat) ->
  (1 + k)%nat = literal_header (Z.to_nat (n + 1)).
Proof.
  intros Hk Hn Hb Hmin. unfold literal_header. destruct (Nat.leb_spec (Z.to_nat (n + 1)) 60); [lia|].
  destruct (Nat.leb_spec (Z.to_nat (n + 1)) 256).
  - assert (k <= 1)%nat by (apply Hmin; change (0x100 ^ Z.of_nat 1) with 0x100; lia). destruct k; [cbn in Hb; lia|lia].
  - assert (k <= 2)%nat by (apply Hmin; change (0x100 ^ Z.of_nat 2) with 0x10000; lia).
    destruct k as [|[|k]]; [cbn in Hb; lia|change (0x100 ^ Z.of_nat 1) with 0x100 in Hb; lia|lia].
Qed.

Lemma put_long_header_out n o Q room :
  out_at o Q room -> 60 <= n < 65536 -> (length Q + 5 <= room)%nat ->
  exists k o', put_long_header n o = Some o' /\ out_at o' (Q ++ 4 * (59 + Z.of_nat k) :: le_bytes k n) room
    /\ (1 <= k <= 4)%nat /\ n < 0x100 ^ Z.of_nat k /\ (1 + k)%nat = literal_header (Z.to_nat (n + 1)).
Proof.
  intros Ho Hn Hr. destruct o as [mem op]. pose proof Ho as (Hp & Hop & Hroom & Hbm). cbn in Hp, Hop, Hroom, Hbm. subst op.
  unfold put_long_header. cbn [fst snd]. destruct (lookup_lt_is_Some_2 mem (length Q)) as [x Hx]; [lia|].
  assert (out_at (mem, S (length Q)) (Q ++ [x]) room) as Ho1.
  { split_and!; cbn; [|rewrite length_app; cbn; lia|done|done]. destruct Hp as [t ->]. rewrite lookup_app_r, Nat.sub_diag in Hx by lia.
    destruct t as [|y t]; [done|]. injection Hx as ->. exists t. by rewrite <- app_assoc. }
  destruct (put_length_out 4 n 0 (mem, S (length Q)) (Q ++ [x]) room Ho1) as (k & [m2 op2] & -> & Ho2 & Hk & Hnk & Hmin);
    [change (0x100 ^ Z.of_nat 4) with 0x1_0000_0000; lia|rewrite length_app; cbn; lia|].
  cbn [mbind option_bind fst snd]. rewrite Z.add_0_l. rewrite <- app_assoc in Ho2. cbn [app] in Ho2.
  destruct (store_inside m2 op2 Q x (le_bytes k n) (w8 (LITERAL .| Z.shiftl (59 + Z.of_nat k) 2)) room Ho2 (is8_w8 _)) as (m3 & -> & Ho3).
  cbn [mbind option_bind]. rewrite literal_tag_byte in Ho3 by lia.
  pose proof (put_length_bound k n Hk ltac:(lia) Hnk Hmin) as Hh. exists k. eexists. split; [done|]. split; [done|]. split; [|done].
  destruct k; [cbn in Hnk; lia|lia].
Qed.

Lemma EmitLiteral_out input literal len fast o Q room :
  out_at o Q room -> bytes input -> (1 <= len)%nat -> Z.of_nat len <= 65536 -> (literal + len <= length input)%nat -> (length Q + len + 5 <= room)%nat ->
  (fast = true -> (literal + 16 <= length input)%nat /\ (length Q + 17 <= room)%nat) ->
  exists enc o', EmitLiteral input literal len fast o = Some o' /\ out_at o' (Q ++ enc) room
    /\ length enc = (len + literal_header len)%nat /\ forall P, decode enc P = Some (P ++ take len (drop literal input)).
Proof.
  intros Ho Hb Hlen Hlen2 Hl Hr Hf. unfold EmitLiteral. set (n := Z.of_nat len - 1). set (bs := take len (drop literal input)).
  assert (length bs = len) as Hbs by (unfold bs; rewrite length_take, length_drop; lia).
  destruct (Z.ltb_spec n 60) as [Hn|Hn].
  - destruct (put_out (LITERAL .| Z.shiftl n 2) o Q room Ho) as (o1 & -> & Ho1); [lia|]. cbn [mbind option_bind].
    rewrite literal_tag_byte in Ho1 by lia. exists (4 * n :: bs).
    assert (length (4 * n :: bs) = (len + literal_header len)%nat) as Hh.
    { unfold literal_header. rewrite (proj2 (Nat.leb_le _ _)) by lia. cbn. lia. }
    assert (forall P, decode (4 * n :: bs) P = Some (P ++ bs)) as Hd by (intros P; apply decode_short; lia).
    assert (length (Q ++ [4 * n]) = S (length Q)) as HQ by (rewrite length_app; cbn; lia).
    assert (forall o', out_at o' ((Q ++ [4 * n]) ++ bs) room -> out_at o' (Q ++ 4 * n :: bs) room) as Hassoc by (intros o'; by rewrite <- app_assoc).
    destruct (fast && (len <=? 16)%nat) eqn:Ef.
    + apply andb_true_iff in Ef as [-> E16%Nat.leb_le]. destruct (Hf eq_refl) as [Hf1 Hf2].
      destruct (put_input_fast input literal len o1 (Q ++ [4 * n]) room) as (o' & E & Ho'); [done..|lia|lia|]. exists o'.
      split_and!; [exact E|by apply Hassoc|done..].
    + destruct (put_input_out input literal len o1 (Q ++ [4 * n]) room) as (o' & -> & Ho'); [done..|lia|]. exists o'. by split_and!; [|apply Hassoc|..].
  - destruct (put_long_header_out n o Q room Ho) as (k & o1 & -> & Ho1 & Hk & Hnk & Hh); [lia|lia|]. cbn [mbind option_bind].
    replace (Z.to_nat (n + 1)) with len in Hh by lia.
    assert (literal_header len <= 3)%nat by (unfold literal_header; destruct (len <=? 60)%nat, (len <=? 256)%nat; lia).
    destruct (put_input_out input literal len o1 _ room Ho1 Hb Hl) as (o' & -> & Ho');
      [rewrite length_app; cbn [length]; rewrite length_le_bytes; lia|].
    exists (4 * (59 + Z.of_nat k) :: le_bytes k n ++ bs), o'. split_and!; [done| | |].
    + by rewrite <- app_assoc in Ho'.
    + cbn [length]. rewrite length_app, length_le_bytes. lia.
    + intros P. apply decode_long; lia.
Qed.

(** [enc] stands for a copy of [len] bytes from [offset] back. *)
Definition copies_back (enc : list Z) (offset len : Z) : Prop :=
  forall P, offset <= Z.of_nat (length P) -> decode enc P = Some (self_copy (Z.to_nat offset) (Z.to_nat len) P).

Lemma copies_back_intro enc offset len :
  1 <= offset -> enc <> [] -> read_element enc = Some (Copy offset len, []) -> copies_back enc offset len.
Proof.
  intros Ho Hne Hr P HP. rewrite decode_step, Hr by done. cbn [mbind option_bind apply_element].
  rewrite (proj2 (Z.leb_le _ _) Ho), (proj2 (Z.leb_le _ _) HP). apply decode_nil.
Qed.

Lemma copy1_element a h low :
  0 <= a < 8 -> 0 <= h < 8 -> 0 <= low < 0x100 -> read_element [1 + 4 * a + 32 * h; low] = Some (Copy (h * 0x100 + low) (4 + a), []).
Proof.
  intros Ha Hh Hl. cbn [read_element]. set (t := 1 + 4 * a + 32 * h).
  assert (t mod 4 = 1) as E1 by (symmetry; apply (Z.mod_unique _ _ (a + 8 * h)); lia).
  assert (t / 4 = a + 8 * h) as E2 by (symmetry; apply (Z.div_unique _ _ _ 1); lia).
  assert ((a + 8 * h) mod 8 = a) as E3 by (symmetry; apply (Z.mod_unique _ _ h); lia).
  assert (t / 32 = h) as E4 by (symmetry; apply (Z.div_unique _ _ _ (1 + 4 * a)); lia).
  unfold extra_bytes. rewrite E1, E2, E3, E4. cbn. do 3 f_equal. unfold le_val. lia.
Qed.

Lemma copy2_element n offset :
  0 <= n < 64 -> 0 <= offset < 0x1_0000 -> read_element (2 + 4 * n :: le_bytes 2 offset) = Some (Copy offset (n + 1), []).
Proof.
  intros Hn Ho. cbn [read_element]. set (t := 2 + 4 * n).
  assert (t mod 4 = 2) as E1 by (symmetry; apply (Z.mod_unique _ _ n); lia).
  assert (t / 4 = n) as E2 by (symmetry; apply (Z.div_unique _ _ _ 2); lia).
  unfold extra_bytes. rewrite E1, E2. cbn [Z.eqb Pos.eqb]. rewrite length_le_bytes. cbn [Nat.ltb Nat.leb].
  rewrite take_ge, drop_ge by (rewrite length_le_bytes; lia). rewrite le_val_le_bytes. change (0x100 ^ Z.of_nat 2) with 0x1_0000.
  by rewrite Z.mod_small.
Qed.

Lemma EmitCopyLessThan64_out offset len o Q room :
  out_at o Q room -> 1 <= offset < 65536 -> 4 <= len <= 64 -> (length Q + 3 <= room)%nat ->
  exists enc o', EmitCopyLessThan64 offset len o = Some o' /\ out_at o' (Q ++ enc) room /\ (length enc <= 3)%nat /\ copies_back enc offset len.
Proof.
  intros Ho Hoff Hlen Hr. unfold EmitCopyLessThan64. destruct ((len <? 12) && (offset <? 2048)) eqn:E.
  - apply andb_true_iff in E as [E1%Z.ltb_lt E2%Z.ltb_lt].
    assert (offset >> 8 = offset / 0x100) as -> by (by rewrite Z.shiftr_div_pow2 by lia).
    assert (offset .& 0xff = offset mod 0x100) as -> by (change 0xff with (Z.ones 8); by rewrite Z.land_ones by lia).
    pose proof (Z.div_mod offset 0x100 ltac:(lia)). pose proof (Z.mod_pos_bound offset 0x100 ltac:(lia)).
    assert (0 <= offset / 0x100 < 8) by lia. set (h := offset / 0x100) in *. set (low := offset mod 0x100) in *.
    set (c := COPY_1_BYTE_OFFSET + _ + _). assert (w8 c = 1 + 4 * (len - 4) + 32 * h) as Ec.
    { unfold c, COPY_1_BYTE_OFFSET. rewrite !Z.shiftl_mul_pow2 by lia. change (2 ^ 2) with 4. change (2 ^ 5) with 32.
      rewrite w8_small by (unfold is8; lia). lia. }
    destruct (put_out c o Q room Ho) as (o1 & -> & Ho1); [lia|]. cbn [mbind option_bind].
    destruct (put_out low o1 _ room Ho1) as (o2 & -> & Ho2); [rewrite length_app; cbn; lia|].
    exists [w8 c; w8 low], o2. split_and!; [done|by rewrite <- app_assoc in Ho2|cbn; lia|]. rewrite Ec, (w8_small low) by done.
    apply copies_back_intro; [lia|done|]. rewrite copy1_element by lia. do 3 f_equal; lia.
  - set (c := COPY_2_BYTE_OFFSET + _). assert (w8 c = 2 + 4 * (len - 1)) as Ec.
    { unfold c, COPY_2_BYTE_OFFSET. rewrite Z.shiftl_mul_pow2 by lia. change (2 ^ 2) with 4. rewrite w8_small by (unfold is8; lia). lia. }
    destruct (put_out c o Q room Ho) as ([m1 op1] & -> & Ho1); [lia|]. cbn [mbind option_bind fst snd]. unfold UNALIGNED_STORE16.
    pose proof Ho1 as (_ & Hop & _ & _). cbn in Hop. subst op1.
    destruct (store_out m1 (Q ++ [w8 c]) (le_bytes 2 (w16 offset)) 2 room Ho1) as (m2 & -> & Ho2);
      [auto with words|rewrite length_app, length_le_bytes; cbn; lia|by rewrite length_le_bytes|]. cbn [mbind option_bind].
    exists (w8 c :: le_bytes 2 (w16 offset)). eexists. split_and!; [done| |cbn; by rewrite length_le_bytes|].
    + by rewrite take_ge, <- app_assoc in Ho2 by (by rewrite length_le_bytes).
    + rewrite Ec. assert (w16 offset = offset) as -> by (apply Z.mod_small; lia).
      apply copies_back_intro; [lia|done|]. rewrite copy2_element by lia. do 3 f_equal; lia.
Qed.

Lemma copies_back_app e1 e2 offset a b :
  1 <= offset -> 0 <= a -> 0 <= b -> copies_back e1 offset a -> copies_back e2 offset b -> copies_back (e1 ++ e2) offset (a + b).
Proof.
  intros Ho Ha Hb H1 H2 P HP. rewrite (decode_app _ _ _ _ (H1 P HP)). rewrite H2 by (rewrite length_self_copy; lia).
  by rewrite Z2Nat.inj_add, self_copy_add.
Qed.

Lemma emit_copies_out fuel offset len o Q room :
  out_at o Q room -> 1 <= offset < 65536 -> 4 <= len <= Z.of_nat fuel -> Z.of_nat (length Q) + len <= Z.of_nat room ->
  exists enc len' o', emit_copies fuel offset len o = Some (len', o') /\ out_at o' (Q ++ enc) room /\ 4 <= len' < 68
    /\ Z.of_nat (length enc) <= len - len' /\ copies_back enc offset (len - len').
Proof.
  revert len o Q. induction fuel as [|fuel IH]; intros len o Q Ho Hoff Hlen Hr; cbn [emit_copies]; destruct (Z.leb_spec 68 len); [lia|lia| |].
  - destruct (EmitCopyLessThan64_out offset 64 o Q room Ho Hoff ltac:(lia)) as (e1 & o1 & -> & Ho1 & Hl1 & Hc1); [lia|]. cbn [mbind option_bind].
    destruct (IH (len - 64)%Z o1 (Q ++ e1) Ho1 Hoff) as (e2 & len' & o' & -> & Ho' & Hl' & He & Hc2); [lia|rewrite length_app; lia|].
    exists (e1 ++ e2), len', o'. split_and!; [done|by rewrite app_assoc|lia|lia|rewrite length_app; lia|].
    replace (len - len') with (64 + (len - 64 - len')) by lia. apply copies_back_app; (done || lia).
  - exists [], len, o. rewrite app_nil_r, Z.sub_diag. split_and!; [done|done|lia|lia|cbn; lia|]. by intros P _.
Qed.

(** Every copy of four bytes or more takes three bytes at most. *)
Lemma EmitCopy_out offset len o Q room :
  out_at o Q room -> 1 <= offset < 65536 -> 4 <= len -> Z.of_nat (length Q) + len <= Z.of_nat room ->
  exists enc o', EmitCopy offset len o = Some o' /\ out_at o' (Q ++ enc) room /\ Z.of_nat (length enc) <= len - 1 /\ copies_back enc offset len.
Proof.
  intros Ho Hoff Hlen Hr. unfold EmitCopy.
  destruct (emit_copies_out (Z.to_nat len) offset len o Q room) as (e1 & l1 & o1 & -> & Ho1 & Hl1 & He1 & Hc1); [done|done|lia|lia|]. cbn [mbind option_bind].
  assert (exists e2 l2 o2, (if 64 <? l1 then o ← EmitCopyLessThan64 offset 60 o1; Some (l1 - 60, o) else Some (l1, o1)) = Some (l2, o2)
    /\ out_at o2 ((Q ++ e1) ++ e2) room /\ 4 <= l2 <= 64 /\ Z.of_nat (length e2) <= l1 - l2 /\ copies_back e2 offset (l1 - l2))
    as (e2 & l2 & o2 & -> & Ho2 & Hl2 & He2 & Hc2).
  { destruct (Z.ltb_spec 64 l1).
    - destruct (EmitCopyLessThan64_out offset 60 o1 (Q ++ e1) room Ho1 Hoff ltac:(lia)) as (e2 & o2 & -> & Ho2 & Hl2 & Hc2); [rewrite length_app; lia|].
      exists e2, (l1 - 60), o2. split_and!; [done|done|lia|lia|lia|]. by replace (l1 - (l1 - 60)) with 60 by lia.
    - exists [], l1, o1. rewrite app_nil_r, Z.sub_diag. split_and!; [done|done|lia|lia|cbn; lia|]. by intros P _. }
  cbn [mbind option_bind].
  destruct (EmitCopyLessThan64_out offset l2 o2 ((Q ++ e1) ++ e2) room Ho2 Hoff Hl2) as (e3 & o3 & -> & Ho3 & Hl3 & Hc3); [rewrite !length_app; lia|].
  exists (e1 ++ e2 ++ e3), o3. split_and!; [done|by rewrite !app_assoc|rewrite !length_app; lia|].
  replace len with (len - l1 + (l1 - l2 + l2)) by lia. repeat (apply copies_back_app; [lia|lia|lia| |]); done.
Qed.

(** ** A block is coded *)

Section fragment_proofs.
Context (arch_k8 : bool) (input : list Z) (shift : Z) (Hbytes : bytes input) (Hblock : Z.of_nat (length input) <= 65536)
  (Hshift : 0 <= shift <= 32).
Notation n := (length input).
Notation limit := (length input - kInputMarginBytes)%nat.

Definition hash_ok (h : Z) : Prop := 0 <= h < 2 ^ (32 - shift).

(** The entries of the table are positions before [lim]. *)
Definition table_ok (table : list Z) (lim : nat) : Prop :=
  Z.of_nat (length table) = 2 ^ (32 - shift) /\ Forall (fun x => 0 <= x < Z.of_nat lim) table.

Lemma HashBytes_ok v : hash_ok (HashBytes v shift).
Proof.
  unfold hash_ok, HashBytes. pose proof (is32_w32 (v * 0x1e35a7bd)) as [H1 H2]. rewrite Z.shiftr_div_pow2 by lia.
  assert (0 < 2 ^ shift) by (apply Z.pow_pos_nonneg; lia). split; [apply Z.div_pos; lia|]. apply Z.div_lt_upper_bound; [lia|].
  rewrite <- Z.pow_add_r by lia. by replace (shift + (32 - shift)) with 32 by lia.
Qed.

Lemma Hash_Some p : (p + 4 <= n)%nat -> exists h, Hash input p shift = Some h /\ hash_ok h.
Proof.
  intros Hp. unfold Hash, UNALIGNED_LOAD32. rewrite load_Some by done. cbn. eexists. split; [done|]. apply HashBytes_ok.
Qed.

Lemma table_get_ok table lim h : table_ok table lim -> hash_ok h -> exists c, table !! Z.to_nat h = Some c /\ 0 <= c < Z.of_nat lim.
Proof.
  intros [Hl Ht] Hh. unfold hash_ok in Hh. destruct (lookup_lt_is_Some_2 table (Z.to_nat h)) as [c Hc]; [lia|].
  exists c. split; [done|]. exact (Forall_lookup_1 _ _ _ _ Ht Hc).
Qed.

Lemma table_set_ok table lim lim' h v :
  table_ok table lim -> hash_ok h -> (lim <= lim')%nat -> (v < lim')%nat -> (v < n)%nat ->
  exists table', table_set table h v = Some table' /\ table_ok table' lim'.
Proof.
  intros [Hl Ht] Hh Hlim Hv Hn. unfold hash_ok in Hh. unfold table_set. rewrite (proj2 (Z.ltb_lt _ _)) by lia. eexists. split; [done|].
  split; [by rewrite length_insert|]. apply Forall_insert; [eapply Forall_impl; [exact Ht|]; cbn; lia|].
  assert (w16 (Z.of_nat v) = Z.of_nat v) as -> by (apply Z.mod_small; lia). lia.
Qed.

Lemma load32_Some p : (p + 4 <= n)%nat -> UNALIGNED_LOAD32 input p = Some (le_val (take 4 (drop p input))).
Proof. intros Hp. unfold UNALIGNED_LOAD32. by rewrite load_Some. Qed.

Lemma load32_eq p q : (p + 4 <= n)%nat -> (q + 4 <= n)%nat ->
  le_val (take 4 (drop p input)) = le_val (take 4 (drop q input)) -> take 4 (drop p input) = take 4 (drop q input).
Proof. intros Hp Hq. apply le_val_inj; [auto with words..|rewrite !length_take, !length_drop; lia]. Qed.

(** Eight bytes loaded at once and four at an offset. *)
Lemma GetUint32AtOffset_Some ptr off :
  (ptr + 8 <= n)%nat -> (off <= 4)%nat -> GetUint32AtOffset arch_k8 input ptr off = Some (le_val (take 4 (drop (ptr + off) input))).
Proof.
  intros Hp Ho. unfold GetUint32AtOffset. destruct arch_k8; [|apply load32_Some; lia].
  unfold UNALIGNED_LOAD64. rewrite load_Some by done. cbn [fmap option_fmap option_map mbind option_bind]. f_equal.
  set (l := drop ptr input). assert (8 <= length l)%nat as Hl by (unfold l; rewrite length_drop; lia).
  assert (take 8 l = take off l ++ take 4 (drop off l) ++ take (4 - off) (drop (off + 4) l)) as ->.
  { rewrite <- (drop_drop l), take_take_drop, take_take_drop. f_equal. lia. }
  rewrite !le_val_app, !length_take, !length_drop. replace (off `min` length l)%nat with off by lia.
  replace (4 `min` (length l - off))%nat with 4%nat by lia. change (0x100 ^ Z.of_nat 4) with 0x1_0000_0000.
  pose proof (le_val_bound (take off l)) as Ha. pose proof (le_val_bound (take 4 (drop off l))) as Hb.
  assert (bytes l) as Hbl by (unfold l; auto with words). specialize (Ha ltac:(auto with words)). specialize (Hb ltac:(auto with words)).
  rewrite !length_take in Ha, Hb. rewrite length_drop in Hb. replace (off `min` length l)%nat with off in Ha by lia.
  replace (4 `min` (length l - off))%nat with 4%nat in Hb by lia. change (0x100 ^ Z.of_nat 4) with 0x1_0000_0000 in Hb.
  rewrite Z.shiftr_div_pow2 by lia. replace (2 ^ (8 * Z.of_nat off)) with (0x100 ^ Z.of_nat off) by (rewrite Z.pow_mul_r by lia; done).
  rewrite (Z.mul_comm (0x100 ^ _)), Z.div_add by lia. rewrite (Z.div_small (le_val (take off l))) by lia. rewrite Z.add_0_l. unfold w32.
  rewrite (Z.mul_comm 0x1_0000_0000), Z_mod_plus_full, Z.mod_small by lia. unfold l. by rewrite drop_drop.
Qed.

Lemma scan_spec fuel next_ip next_hash skip table :
  table_ok table next_ip -> hash_ok next_hash -> 32 <= skip -> (1 <= next_ip <= n)%nat -> (n + 1 <= fuel + next_ip)%nat ->
  exists r, scan input shift fuel next_ip next_hash skip table = Some r /\
    match r with
    | None => True
    | Some (ip, cand, table') => (next_ip <= ip < limit)%nat /\ (cand < ip)%nat
        /\ take 4 (drop ip input) = take 4 (drop cand input) /\ table_ok table' (S ip)
    end.
Proof.
  revert next_ip next_hash skip table. induction fuel as [|fuel IH]; intros ip h skip table Ht Hh Hs Hip Hf; [lia|]. cbn [scan].
  assert (1 <= skip >> 5) as Hb by (rewrite Z.shiftr_div_pow2 by lia; change (2 ^ 5) with 32; apply Z.div_le_lower_bound; lia).
  set (next := (ip + Z.to_nat (skip >> 5))%nat). unfold kInputMarginBytes. destruct (Nat.ltb_spec (n - 15) next); [by exists None|].
  destruct (Hash_Some next) as (h' & -> & Hh'); [lia|]. cbn [mbind option_bind].
  destruct (table_get_ok table ip h Ht Hh) as (c & -> & Hc). cbn [mbind option_bind].
  destruct (table_set_ok table ip (S ip) h ip Ht Hh) as (t' & -> & Ht'); [lia..|]. cbn [mbind option_bind].
  rewrite !load32_Some by lia. cbn [mbind option_bind].
  destruct (Z.eqb_spec (le_val (take 4 (drop ip input))) (le_val (take 4 (drop (Z.to_nat c) input)))) as [E|E]; cbn [negb].
  - eexists. split; [done|]. split_and!; [lia|lia|lia|apply load32_eq; [lia|lia|done]|done].
  - destruct (IH next h' (skip + 1)%Z t') as (r & -> & Hr); [|done|lia|lia|lia|].
    + destruct Ht' as [Hl Hall]. split; [done|]. eapply Forall_impl; [exact Hall|]. cbn. lia.
    + exists r. split; [done|]. destruct r as [[[ip' c'] t'']|]; [|done]. destruct Hr as (Hr1 & Hr2). unfold kInputMarginBytes in Hr1. split; [lia|done].
Qed.

(** ** The state of a block: what was written stands for the first [e] bytes *)

Context (P : list Z) (room : nat) (Hroom : 65 * Z.of_nat (length P) + 66 * Z.of_nat n + 65 * 20 <= 65 * Z.of_nat room).

Definition coded (o : output) (e : nat) (slack : Z) : Prop :=
  exists enc, out_at o (P ++ enc) room /\ 65 * Z.of_nat (length enc) <= 66 * Z.of_nat e + slack
    /\ forall X, decode enc X = Some (X ++ take e input).

Lemma self_copy_match cand ip m :
  (cand < ip)%nat -> (ip + m <= n)%nat -> agree input cand ip m -> self_copy (ip - cand) m (take ip input) = take (ip + m) input.
Proof.
  intros Hc. induction m as [|m IH]; intros Hm Ha; [by rewrite Nat.add_0_r|].
  rewrite <- Nat.add_1_r, self_copy_add, IH; [|lia|intros i Hi; apply Ha; lia]. cbn [self_copy].
  destruct (lookup_lt_is_Some_2 input (ip + m)) as [x Hx]; [lia|]. rewrite Nat.add_assoc, Nat.add_1_r, (take_S_r _ _ _ Hx). do 2 f_equal.
  apply list_lookup_total_correct. rewrite length_take, lookup_take_lt by lia.
  rewrite <- Hx, <- Ha by lia. f_equal. lia.
Qed.

Lemma coded_copy o ip cand m slack :
  coded o ip slack -> slack <= 69 -> (cand < ip)%nat -> (4 <= m)%nat -> (ip + m <= n)%nat -> agree input cand ip m ->
  exists o', EmitCopy (Z.of_nat ip - Z.of_nat cand) (Z.of_nat m) o = Some o' /\ coded o' (ip + m) 0.
Proof.
  intros (enc & Ho & Hs & Hd) Hsl Hc Hm Hn Ha.
  destruct (EmitCopy_out (Z.of_nat ip - Z.of_nat cand) (Z.of_nat m) o (P ++ enc) room Ho) as (e2 & o' & -> & Ho' & He2 & Hc2); [lia|lia|rewrite length_app; lia|].
  exists o'. split; [done|]. exists (enc ++ e2). split_and!; [by rewrite app_assoc|rewrite length_app; lia|].
  intros X. rewrite (decode_app _ _ _ _ (Hd X)), Hc2 by (rewrite length_app, length_take; lia).
  replace (Z.to_nat (Z.of_nat ip - Z.of_nat cand)) with (ip - cand)%nat by lia. rewrite Nat2Z.id, self_copy_app by (rewrite length_take; lia).
  by rewrite self_copy_match.
Qed.

Lemma coded_literal o e ip fast :
  coded o e 0 -> (e < ip <= n)%nat -> (fast = true -> (e + 16 <= n)%nat) ->
  exists o', EmitLiteral input e (ip - e) fast o = Some o' /\ coded o' ip 69.
Proof.
  intros (enc & Ho & Hs & Hd) Hip Hf.
  destruct (EmitLiteral_out input e (ip - e) fast o (P ++ enc) room Ho Hbytes) as (e2 & o' & -> & Ho' & He2 & Hd2); [lia|lia|lia|rewrite length_app; lia| |].
  { intros Hfast. specialize (Hf Hfast). rewrite length_app. lia. }
  exists o'. split; [done|]. exists (enc ++ e2). split_and!; [by rewrite app_assoc| |].
  - rewrite length_app, He2. unfold literal_header. destruct (Nat.leb_spec (ip - e) 60), (Nat.leb_spec (ip - e) 256); lia.
  - intros X. rewrite (decode_app _ _ _ _ (Hd X)), Hd2, <- app_assoc, take_take_drop. do 3 f_equal. lia.
Qed.

Lemma agree4 cand ip m : (cand < ip)%nat -> (ip + 4 <= n)%nat ->
  take 4 (drop ip input) = take 4 (drop cand input) -> agree input (cand + 4) (ip + 4) m -> agree input cand ip (4 + m).
Proof.
  intros Hc Hip E Ha i Hi. destruct (decide (i < 4)%nat).
  - pose proof (f_equal (.!! i) E) as Ei. cbn in Ei. by rewrite !lookup_take_lt, !lookup_drop in Ei by lia.
  - specialize (Ha (i - 4)%nat ltac:(lia)). by replace (cand + 4 + (i - 4))%nat with (cand + i)%nat in Ha by lia;
      replace (ip + 4 + (i - 4))%nat with (ip + i)%nat in Ha by lia.
Qed.

Lemma copies_spec fuel ip cand table o slack :
  coded o ip slack -> slack <= 69 -> (cand < ip < limit)%nat -> take 4 (drop ip input) = take 4 (drop cand input) ->
  table_ok table (S ip) -> (n <= fuel + ip)%nat ->
  exists r, copies arch_k8 input shift fuel ip cand table o = Some r /\
    match r with
    | inl (e, o') => (e <= n)%nat /\ coded o' e 0
    | inr (e, h, table', o') => (ip < e < limit)%nat /\ hash_ok h /\ table_ok table' (S e) /\ coded o' e 0
    end.
Proof.
  revert ip cand table o slack. unfold kInputMarginBytes.
  induction fuel as [|fuel IH]; intros ip cand table o slack Ho Hsl Hip E Ht Hf; [lia|]. cbn [copies]. unfold kInputMarginBytes.
  destruct (FindMatchLength_longest input n Hbytes ltac:(lia) arch_k8 (cand + 4) (ip + 4)) as (m & -> & Hm1 & Hm2 & _); [lia|]. cbn [mbind option_bind].
  destruct (coded_copy o ip cand (4 + m) slack Ho Hsl) as (o1 & -> & Ho1); [lia|lia|lia|apply agree4; (done || lia)|]. cbn [mbind option_bind].
  set (ip1 := (ip + (4 + m))%nat) in *. destruct (Nat.leb_spec (n - 15) ip1); [eexists; split; [done|]; split; [lia|done]|].
  rewrite !GetUint32AtOffset_Some by lia. cbn [mbind option_bind].
  set (v0 := le_val (take 4 (drop (ip1 - 1 + 0) input))).
  destruct (table_set_ok table (S ip) ip1 (HashBytes v0 shift) (ip1 - 1) Ht (HashBytes_ok _)) as (t1 & -> & Ht1); [lia..|]. cbn [mbind option_bind].
  set (v1 := le_val (take 4 (drop (ip1 - 1 + 1) input))).
  destruct (table_get_ok t1 ip1 (HashBytes v1 shift) Ht1 (HashBytes_ok _)) as (c & -> & Hc). cbn [mbind option_bind].
  rewrite load32_Some by lia. cbn [mbind option_bind].
  destruct (table_set_ok t1 ip1 (S ip1) (HashBytes v1 shift) ip1 Ht1 (HashBytes_ok _)) as (t2 & -> & Ht2); [lia..|]. cbn [mbind option_bind].
  destruct (Z.eqb_spec v1 (le_val (take 4 (drop (Z.to_nat c) input)))) as [Ev|Ev].
  - destruct (IH ip1 (Z.to_nat c) t2 o1 0 Ho1) as (r & -> & Hr); [lia|lia| |done|lia|].
    + unfold v1 in Ev. replace (ip1 - 1 + 1)%nat with ip1 in Ev by lia. apply load32_eq; (done || lia).
    + exists r. split; [done|]. destruct r as [[e o']|[[[e h] t'] o']]; [done|]. destruct Hr as (Hr1 & Hr2). split; [lia|done].
  - eexists. split; [done|]. split; [lia|]. split; [apply HashBytes_ok|]. by split.
Qed.

Lemma fragment_loop_spec fuel h e table o :
  coded o e 0 -> table_ok table (S e) -> hash_ok h -> (e < n)%nat -> (n <= fuel + e)%nat ->
  exists e' o', fragment_loop arch_k8 input shift fuel (S e) h e table o = Some (e', o') /\ (e' <= n)%nat /\ coded o' e' 0.
Proof.
  revert h e table o. induction fuel as [|fuel IH]; intros h e table o Ho Ht Hh He Hf; [lia|]. cbn [fragment_loop].
  destruct (scan_spec n (S e) h 32 table Ht Hh) as (r & -> & Hr); [lia..|]. cbn [mbind option_bind].
  destruct r as [[[ip cand] t1]|]; [|exists e, o; split_and!; [done|lia|done]]. destruct Hr as (Hip & Hc & E4 & Ht1). unfold kInputMarginBytes in Hip.
  destruct (coded_literal o e ip true Ho) as (o1 & -> & Ho1); [lia|lia|]. cbn [mbind option_bind].
  destruct (copies_spec n ip cand t1 o1 69 Ho1) as (r & -> & Hr); [lia|unfold kInputMarginBytes; lia|done|done|lia|]. cbn [mbind option_bind].
  destruct r as [[e' o']|[[[e' h'] t'] o']]; [by exists e', o'|]. destruct Hr as (He' & Hh' & Ht' & Ho'). apply IH; (done || lia).
Qed.
End fragment_proofs.

(** The table has a power of two entries, all zero. *)
Lemma GetHashTable_spec n :
  let '(table, size) := GetHashTable n in
  table_ok (32 - Log2Floor size) table 1 /\ 0 <= 32 - Log2Floor size <= 32.
Proof.
  unfold GetHashTable, table_ok. rewrite length_replicate.
  assert (exists k, In k [8; 9; 10; 11; 12; 13; 14] /\ htsize_loop 6 256 (Z.of_nat n) = 2 ^ k) as (k & Hk & ->).
  { cbn [htsize_loop]. repeat match goal with |- context [if ?b then _ else _] => destruct b end;
      [exists 14|exists 13|exists 12|exists 11|exists 10|exists 9|exists 8]; (split; [cbn; tauto|reflexivity]). }
  cbn in Hk. assert (Log2Floor (2 ^ k) = k) as -> by (repeat destruct Hk as [<-|Hk]; [reflexivity..|done]).
  assert (8 <= k <= 14) by (repeat destruct Hk as [<-|Hk]; [lia..|done]).
  replace (32 - (32 - k)) with k by lia. pose proof (Z.pow_pos_nonneg 2 k ltac:(lia) ltac:(lia)).
  split_and!; [lia|apply Forall_replicate; lia|lia|lia].
Qed.

Lemma CompressFragment_spec arch_k8 input o P room :
  bytes input -> Z.of_nat (length input) <= 65536 -> out_at o P room ->
  65 * Z.of_nat (length P) + 66 * Z.of_nat (length input) + 65 * 20 <= 65 * Z.of_nat room ->
  exists enc o', (let '(table, size) := GetHashTable (length input) in CompressFragment arch_k8 input table size o) = Some o'
    /\ out_at o' (P ++ enc) room /\ 65 * Z.of_nat (length enc) <= 66 * Z.of_nat (length input) + 69
    /\ forall X, decode enc X = Some (X ++ input).
Proof.
  intros Hb Hn Ho Hr. pose proof (GetHashTable_spec (length input)) as Hg. destruct (GetHashTable (length input)) as [table size].
  destruct Hg as [Ht Hs]. unfold CompressFragment. set (shift := 32 - Log2Floor size) in *.
  assert (coded input P room o 0 0) as H0.
  { exists []. split_and!; [by rewrite app_nil_r|done|]. intros X. by rewrite take_0, app_nil_r. }
  assert (exists e o1, (if (kInputMarginBytes <=? length input)%nat then
      next_hash ← Hash input 1 shift; fragment_loop arch_k8 input shift (length input) 1 next_hash 0 table o else Some (0%nat, o)) = Some (e, o1)
    /\ (e <= length input)%nat /\ coded input P room o1 e 0) as (e & o1 & -> & He & Ho1).
  { unfold kInputMarginBytes. destruct (Nat.leb_spec 15 (length input)); [|exists 0%nat, o; split_and!; [done|lia|done]].
    destruct (Hash_Some input shift Hs 1) as (h & -> & Hh); [lia|]. cbn [mbind option_bind].
    apply fragment_loop_spec; (done || lia). }
  cbn [mbind option_bind]. destruct (Nat.ltb_spec e (length input)).
  - destruct (coded_literal input Hb Hn P room Hr o1 e (length input) false Ho1) as (o2 & -> & enc & Ho2 & Hs2 & Hd2); [lia|done|].
    exists enc, o2. rewrite take_ge in Hd2 by lia. by split_and!.
  - destruct Ho1 as (enc & Ho1 & Hs1 & Hd1). rewrite take_ge in Hd1 by lia. exists enc, o1. split_and!; [done|done|lia|done].
Qed.

(** ** All blocks *)

Section compress_proofs.
Context (arch_k8 : bool) {S : Type} `{Source S}.

Lemma gather_spec fuel reader scratch num :
  (length scratch <= num)%nat -> (num - length scratch <= fuel)%nat -> (num - length scratch <= length (contents reader))%nat ->
  exists reader', gather fuel reader scratch num = Some (scratch ++ take (num - length scratch) (contents reader), reader')
    /\ contents reader' = drop (num - length scratch) (contents reader).
Proof.
  revert reader scratch. induction fuel as [|fuel IH]; intros reader scratch Hs Hf Hc; cbn [gather];
    destruct (Nat.ltb_spec (length scratch) num) as [Hlt|Hge]; try lia.
  1, 3: exists reader; replace (num - length scratch)%nat with 0%nat by lia; rewrite take_0, drop_0, app_nil_r; done.
  destruct (Peek_contents reader) as [more Hm]. pose proof (f_equal length Hm) as Hl. rewrite length_app in Hl.
  set (k := (length (Peek reader) `min` (num - length scratch))%nat).
  assert (1 <= k)%nat as Hk.
  { assert (length (Peek reader) <> 0%nat); [|lia]. intros E%nil_length_inv. rewrite (Peek_empty reader E) in Hc. cbn in Hc. lia. }
  destruct (Skip_contents k reader) as (r1 & -> & Hr1); [lia|]. cbn [mbind option_bind].
  assert (length (take k (Peek reader)) = k) as Hlk by (rewrite length_take; lia).
  destruct (IH r1 (scratch ++ take k (Peek reader))) as (r' & -> & Hr'); [rewrite length_app; lia|rewrite length_app; lia|rewrite Hr1, length_app, length_drop; lia|].
  exists r'. rewrite length_app, Hlk, Hr1 in *. rewrite drop_drop in Hr'.
  replace (num - (length scratch + k))%nat with (num - length scratch - k)%nat in * by lia.
  assert (take k (Peek reader) = take k (contents reader)) as -> by (rewrite Hm, take_app_le by lia; done).
  rewrite <- app_assoc, take_take_drop. split; [do 4 f_equal; lia|]. rewrite Hr'. f_equal. lia.
Qed.

Lemma next_block_spec reader num :
  (num <= length (contents reader))%nat ->
  exists reader' adv, next_block reader num = Some (take num (contents reader), reader', adv)
    /\ (adv <= length (contents reader'))%nat /\ drop adv (contents reader') = drop num (contents reader).
Proof.
  intros Hn. unfold next_block. destruct (Peek_contents reader) as [more Hm]. pose proof (f_equal length Hm) as Hl. rewrite length_app in Hl.
  destruct (Nat.leb_spec num (length (Peek reader))).
  - exists reader, num. split_and!; [|done|done]. do 3 f_equal. rewrite Hm, take_app_le by lia. done.
  - destruct (Skip_contents (length (Peek reader)) reader) as (r1 & -> & Hr1); [lia|]. cbn [mbind option_bind].
    destruct (gather_spec num r1 (Peek reader) num) as (r2 & -> & Hr2); [lia|lia|rewrite Hr1, length_drop; lia|]. cbn [mbind option_bind].
    exists r2, 0%nat. rewrite Hr1 in *. split_and!; [|lia|].
    + do 3 f_equal. rewrite Hm at 2. rewrite take_app_ge by lia. f_equal. rewrite Hm. by rewrite drop_app_length.
    + rewrite drop_0, Hr2, drop_drop. f_equal. lia.
Qed.

Lemma Compress_loop_spec fuel N reader o P room :
  N = length (contents reader) -> (N <= fuel)%nat -> bytes (contents reader) -> out_at o P room ->
  ((0 < N)%nat -> 6 * Z.of_nat (length P) + 7 * Z.of_nat N + 132 <= 6 * Z.of_nat room) ->
  exists enc reader' o', Compress_loop arch_k8 fuel N reader o = Some (reader', o') /\ out_at o' (P ++ enc) room
    /\ contents reader' = [] /\ 6 * Z.of_nat (length enc) <= 7 * Z.of_nat N + 7 /\ (N = 0%nat -> length enc = 0%nat)
    /\ forall X, decode enc X = Some (X ++ contents reader).
Proof.
  assert (Z.of_nat kBlockSize = 65536) as HB by (unfold kBlockSize; lia).
  revert N reader o P. induction fuel as [|fuel IH]; intros N reader o P HN Hf Hb Ho Hr; cbn [Compress_loop]; destruct (Nat.ltb_spec 0 N) as [Hp|Hp]; try lia.
  1, 3: assert (contents reader = []) as E by (apply nil_length_inv; lia); exists [], reader, o; rewrite app_nil_r, E;
    split_and!; [done..|cbn; lia|done|]; intros X; by rewrite app_nil_r.
  set (num := (N `min` kBlockSize)%nat). destruct (next_block_spec reader num) as (r1 & adv & -> & Hadv & Hr1); [lia|]. cbn [mbind option_bind].
  set (frag := take num (contents reader)). assert (length frag = num) as Hfl by (unfold frag; rewrite length_take; lia).
  destruct (CompressFragment_spec arch_k8 frag o P room) as (e1 & o1 & E1 & Ho1 & Hs1 & Hd1); [unfold frag; auto with words|lia|done|lia|].
  rewrite Hfl in E1. destruct (GetHashTable num) as [table size]. rewrite E1. cbn [mbind option_bind].
  destruct (Skip_contents adv r1 Hadv) as (r2 & -> & Hr2). cbn [mbind option_bind]. rewrite Hr1 in Hr2.
  destruct (IH (N - num)%nat r2 o1 (P ++ e1)) as (e2 & r' & o' & -> & Ho' & Hr' & Hs2 & Hz2 & Hd2);
    [rewrite Hr2, length_drop; lia|lia|rewrite Hr2; auto with words|done|rewrite length_app; lia|].
  exists (e1 ++ e2), r', o'. split_and!; [done|by rewrite app_assoc|done|rewrite length_app; lia|lia|].
  intros X. rewrite (decode_app _ _ _ _ (Hd1 X)), Hd2, Hr2, <- app_assoc. unfold frag. by rewrite take_drop.
Qed.
End compress_proofs.

Lemma MaxCompressedLength_small n : 0 <= n < 0x1_0000_0000 -> MaxCompressedLength n = 32 + n + n / 6.
Proof.
  intros Hn. unfold MaxCompressedLength. apply w64_small. unfold is64. pose proof (Z.div_pos n 6 ltac:(lia) ltac:(lia)).
  assert (n / 6 <= n) by (apply Z.div_le_upper_bound; lia). lia.
Qed.

(** ** The result *)

(** What compression leaves in an array of [room] bytes, from any source. *)
Lemma Compress_Source_spec arch_k8 {S : Type} `{Source S} (reader : S) mem :
  let N := Z.of_nat (length (contents reader)) in
  bytes (contents reader) -> N < 0x1_0000_0000 -> bytes mem -> MaxCompressedLength N <= Z.of_nat (length mem) ->
  exists reader' mem' len, Compress_Source arch_k8 reader (mem, 0%nat) = Some (reader', (mem', len))
    /\ contents reader' = [] /\ length mem' = length mem /\ Z.of_nat len <= MaxCompressedLength N /\ bytes (take len mem')
    /\ GetUncompressedLength (take len mem') = Some N /\ meaning (take len mem') = Some (contents reader).
Proof.
  intros N Hb HN Hbm Hroom. rewrite MaxCompressedLength_small in * by lia. unfold Compress_Source. rewrite Available_contents.
  assert (is32 N) as H32 by (unfold is32; lia). fold N. rewrite w32_small by done. cbn [fst snd].
  pose proof (Z.div_mod N 6 ltac:(lia)) as HN6. pose proof (Z.mod_pos_bound N 6 ltac:(lia)) as Hm6.
  assert (length (Encode32 N) <= 5)%nat as Hl5 by (rewrite Encode32_Varint; by apply length_EncodeVarint32).
  assert (bytes (Encode32 N)) as Hbe by (rewrite Encode32_Varint; by apply bytes_EncodeVarint32).
  destruct (store_out mem [] (Encode32 N) (length (Encode32 N)) (length mem)) as (m1 & E1 & Ho1); [|done|cbn; lia|lia|].
  { by split_and!; [apply prefix_nil|..]. }
  cbn [length Nat.add app] in *. rewrite E1. cbn [mbind option_bind]. rewrite take_ge in Ho1 by lia.
  destruct (Compress_loop_spec arch_k8 (length (contents reader)) (length (contents reader)) reader (m1, length (Encode32 N)) (Encode32 N) (length mem))
    as (enc & reader' & [mem' len] & -> & (Hp & Hop & Hlm & Hbm') & Hr' & Hs & Hz & Hd); [done..|lia|].
  cbn [fst snd] in *. exists reader', mem', len. subst len.
  assert (take (length (Encode32 N ++ enc)) mem' = Encode32 N ++ enc) as E by (destruct Hp as [t ->]; apply take_app_length).
  assert (bytes (Encode32 N ++ enc)) as Hbc by (rewrite <- E; auto with words).
  rewrite E. split_and!; [done|done|done|rewrite length_app; lia|done| |].
  - unfold GetUncompressedLength. rewrite Parse32_Encode32; [done|done|]. by apply bytes_app in Hbc as [_ ?].
  - unfold meaning. rewrite Encode32_Varint, GetVarint32_Encode by done. cbn [mbind option_bind]. rewrite (Hd []), app_nil_l. cbn [mbind option_bind].
    by rewrite Z.eqb_refl.
Qed.

Lemma RawCompress_spec arch_k8 input mem :
  let N := Z.of_nat (length input) in
  bytes input -> N < 0x1_0000_0000 -> bytes mem -> MaxCompressedLength N <= Z.of_nat (length mem) ->
  exists mem' len, RawCompress arch_k8 input mem = Some (mem', len) /\ length mem' = length mem
    /\ Z.of_nat len <= MaxCompressedLength N /\ bytes (take len mem')
    /\ GetUncompressedLength (take len mem') = Some N /\ meaning (take len mem') = Some input.
Proof.
  intros N Hb HN Hbm Hr. unfold RawCompress.
  destruct (Compress_Source_spec arch_k8 {| left_bytes := input |} mem) as (r' & mem' & len & -> & _ & Hl & Hlen & Hbt & Hg & Hm); [done..|].
  cbn [mbind option_bind]. exists mem', len. by split_and!.
Qed.

(** C21: Compression from any source, in regions of any size, on either kind of machine, into
    an array of [MaxCompressedLength] bytes: although elements are written sixteen and eight
    bytes at a time, no access is outside the input, the table or the array; the function
    returns, uses up the source, needs no more than [MaxCompressedLength] bytes, and what
    they mean by the format is the input. *)
Theorem compress_meaning (arch_k8 : bool) {S : Type} `{Source S} (reader : S) (mem : list Z) :
  let N := Z.of_nat (length (contents reader)) in
  bytes (contents reader) -> N < 0x1_0000_0000 -> bytes mem -> MaxCompressedLength N <= Z.of_nat (length mem) ->
  exists reader' mem' len, Compress_Source arch_k8 reader (mem, 0%nat) = Some (reader', (mem', len))
    /\ contents reader' = [] /\ length mem' = length mem /\ Z.of_nat len <= MaxCompressedLength N
    /\ meaning (take len mem') = Some (contents reader).
Proof.
  intros N Hb HN Hbm Hr. destruct (Compress_Source_spec arch_k8 reader mem) as (r' & mem' & len & E & H1 & H2 & H3 & _ & _ & H4); [done..|].
  exists r', mem', len. by split_and!.
Qed.

(** Twenty-eight bytes in three regions, with a repetition. *)
Definition seven : list Z := [1; 2; 3; 4; 5; 6; 7].
Definition seven_pieces : Pieces := {| pieces := [seven ++ [1]; [2; 3; 4; 5]; [6; 7] ++ seven ++ seven] |}.
Lemma compress_meaning_witness :
  exists reader' mem' len, Compress_Source true seven_pieces (replicate 64 0, 0%nat) = Some (reader', (mem', len))
    /\ meaning (take len mem') = Some (seven ++ seven ++ seven ++ seven).
Proof.
  destruct (compress_meaning true seven_pieces (replicate 64 0)) as (r' & mem' & len & E & _ & _ & _ & Hm).
  - byte_list.
  - reflexivity.
  - apply bytes_replicate.
  - vm_compute. discriminate.
  - exists r', mem', len. split; [exact E|exact Hm].
Defined.

(** C22: The round trip: every string whose compressed form can have no more than 4 GB is
    compressed, the validator accepts the result, and it is decompressed to the string. *)
Theorem snappy_roundtrip (arch_k8 : bool) (max_size : Z) (input s t scratch : list Z) :
  let N := Z.of_nat (length input) in
  bytes input -> N < 0x1_0000_0000 -> MaxCompressedLength N < 0x1_0000_0000 -> N <= max_size ->
  bytes s -> bytes t -> bytes scratch -> length scratch = 5%nat ->
  exists c, Compress arch_k8 input s = Some c /\ Z.of_nat (length c) <= MaxCompressedLength N
    /\ IsValidCompressedBuffer scratch c = Some true /\ Uncompress max_size scratch c t = Some (true, input).
Proof.
  intros N Hb HN Hc32 Hmax Hs Ht Hsc Hl5. unfold Compress. fold N.
  assert (0 <= MaxCompressedLength N) as H0 by (rewrite MaxCompressedLength_small by lia; pose proof (Z.div_pos N 6); lia).
  destruct (RawCompress_spec arch_k8 input (string_resize s (Z.to_nat (MaxCompressedLength N)))) as (mem' & len & -> & Hlm & Hlen & Hbt & Hg & Hm);
    [done|done|by apply bytes_string_resize|fold N; rewrite length_string_resize; lia|]. cbn [mbind option_bind]. rewrite length_string_resize in Hlm. fold N in Hlen, Hg.
  assert (string_resize mem' len = take len mem') as ->.
  { unfold string_resize. replace (len - length mem')%nat with 0%nat by lia. by rewrite app_nil_r. }
  set (c := take len mem') in *. exists c. split; [done|].
  assert (Z.of_nat (length c) <= MaxCompressedLength N) as Hc by (unfold c; rewrite length_take; lia).
  split; [done|]. split.
  - rewrite IsValid_spec by (done || lia). f_equal. apply bool_decide_eq_true_2. by exists input.
  - unfold Uncompress. rewrite Hg, (proj2 (Z.ltb_ge _ _) Hmax).
    destruct (RawUncompress_exact scratch c N (string_resize t (Z.to_nat N))) as (m' & -> & Hm');
      [done|lia|done|done|by apply bytes_string_resize|done|rewrite length_string_resize; lia|].
    rewrite (Hm' input Hm). rewrite bool_decide_eq_true_2 by (by exists input). done.
Qed.

Lemma snappy_roundtrip_witness :
  exists c, Compress false (seven ++ seven ++ seven ++ seven) [] = Some c /\ length c = 12%nat
    /\ Uncompress 0x7fff_ffff (replicate 5 0) c [] = Some (true, seven ++ seven ++ seven ++ seven).
Proof.
  destruct (snappy_roundtrip false 0x7fff_ffff (seven ++ seven ++ seven ++ seven) [] [] (replicate 5 0)) as (c & E & _ & _ & Hc).
  - byte_list.
  - reflexivity.
  - reflexivity.
  - vm_compute. discriminate.
  - constructor.
  - constructor.
  - apply bytes_replicate.
  - reflexivity.
  - vm_compute in E. injection E as <-. eexists. split; [reflexivity|]. split; [reflexivity|exact Hc].
Defined.
