(* ===== verification/SnappyIOVec.v ===== *)
(** * Decompression of Snappy into several arrays:
    src/packages/Snappy.1.1.1.7/lib/native/src/snappy.cc, SnappyIOVecWriter

    The writer for arrays that are filled one after the other, on systems other than
    Windows.  It keeps the promises of the class [WriterLaws] when the arrays together have
    room for the length that the text announces. *)
From stdpp Require Import base numbers option list.
From S2P Require Import Prelude Coding SnappyFormat SnappyWriter SnappyDecompress.
Open Scope Z_scope.
Open Scope word_scope.

Record SnappyIOVecWriter := {
  output_iov_ : list (list Z);
  curr_iov_index_ : nat;
  curr_iov_written_ : nat;
  total_written_ : Z;
  output_limit_ : Z }.

(** [output_limit_(-1)] *)
Definition new_SnappyIOVecWriter (iov : list (list Z)) : SnappyIOVecWriter :=
  {| output_iov_ := iov; curr_iov_index_ := 0; curr_iov_written_ := 0; total_written_ := 0; output_limit_ := w64 (-1) |}.

Definition iovec_SetExpectedLength (len : Z) (w : SnappyIOVecWriter) : SnappyIOVecWriter :=
  {| output_iov_ := output_iov_ w; curr_iov_index_ := curr_iov_index_ w; curr_iov_written_ := curr_iov_written_ w;
     total_written_ := total_written_ w; output_limit_ := len |}.
Definition iovec_CheckLength (w : SnappyIOVecWriter) : bool := total_written_ w =? output_limit_ w.

(** The next array, and [n] bytes written to the current one, which is then [mem]. *)
Definition next_iov (w : SnappyIOVecWriter) : SnappyIOVecWriter :=
  {| output_iov_ := output_iov_ w; curr_iov_index_ := curr_iov_index_ w + 1; curr_iov_written_ := 0;
     total_written_ := total_written_ w; output_limit_ := output_limit_ w |}.
Definition wrote (w : SnappyIOVecWriter) (mem : list Z) (n : nat) : SnappyIOVecWriter :=
  {| output_iov_ := <[curr_iov_index_ w := mem]> (output_iov_ w); curr_iov_index_ := curr_iov_index_ w;
     curr_iov_written_ := curr_iov_written_ w + n; total_written_ := total_written_ w + Z.of_nat n;
     output_limit_ := output_limit_ w |}.

(** [while (len > 0)]: a turn writes a byte or is the only one for an empty array. *)
Fixpoint iovec_append_loop (fuel : nat) (ip : list Z) (len : nat) (w : SnappyIOVecWriter) : option (bool * SnappyIOVecWriter) :=
  if (0 <? len)%nat then
    match fuel with
    | O => None
    | S fuel' =>
        iov ← output_iov_ w !! curr_iov_index_ w;
        let full := (length iov <=? curr_iov_written_ w)%nat in
        if full && (length (output_iov_ w) <=? curr_iov_index_ w + 1)%nat then Some (false, w)
        else
          let w := if full then next_iov w else w in
          iov ← output_iov_ w !! curr_iov_index_ w;
          let to_write := Nat.min len (length iov - curr_iov_written_ w) in
          mem ← memcpy ip 0 iov (curr_iov_written_ w) to_write;
          iovec_append_loop fuel' (drop to_write ip) (len - to_write) (wrote w mem to_write)
    end
  else Some (true, w).
Definition iovec_Append (ip : list Z) (len : Z) (w : SnappyIOVecWriter) : option (bool * SnappyIOVecWriter) :=
  if output_limit_ w <? w64 (total_written_ w + len) then Some (false, w)
  else iovec_append_loop (Z.to_nat len + length (output_iov_ w)) ip (Z.to_nat len) w.

Definition iovec_TryFastAppend (ip : list Z) (available len : Z) (w : SnappyIOVecWriter) : option (bool * SnappyIOVecWriter) :=
  let space_left := w64 (output_limit_ w - total_written_ w) in
  if (len <=? 16) && (16 + Z.of_nat kMaximumTagLength <=? available) && (16 <=? space_left) then
    iov ← output_iov_ w !! curr_iov_index_ w;
    if 16 <=? w64 (Z.of_nat (length iov) - Z.of_nat (curr_iov_written_ w)) then
      mem ← UnalignedCopy64 ip 0 iov (curr_iov_written_ w);
      mem ← UnalignedCopy64 ip 8 mem (curr_iov_written_ w + 8);
      Some (true, wrote w mem (Z.to_nat len))
    else Some (false, w)
  else Some (false, w).

(** [while (offset > 0)]: back to the array in which the copy starts. *)
Fixpoint locate (iov : list (list Z)) (from_iov_index from_iov_offset offset : nat) : option (nat * nat) :=
  if (offset <=? from_iov_offset)%nat then Some (from_iov_index, (from_iov_offset - offset)%nat)
  else
    match from_iov_index with
    | O => None
    | S index =>
        prev ← iov !! index;
        locate iov index (length prev) (offset - from_iov_offset)
    end.

(** [while (len > 0)] of AppendFromSelf; what the calls of Append return is not looked at. *)
Fixpoint iovec_copy_loop (fuel : nat) (from_iov_index from_iov_offset len : nat) (w : SnappyIOVecWriter)
    : option (bool * SnappyIOVecWriter) :=
  if (0 <? len)%nat then
    match fuel with
    | O => None
    | S fuel' =>
        if negb (from_iov_index =? curr_iov_index_ w)%nat then
          from ← output_iov_ w !! from_iov_index;
          let to_copy := Nat.min (length from - from_iov_offset) len in
          '(_, w) ← iovec_Append (drop from_iov_offset from) (Z.of_nat to_copy) w;
          let len := (len - to_copy)%nat in
          if (0 <? len)%nat then iovec_copy_loop fuel' (from_iov_index + 1) 0 len w
          else iovec_copy_loop fuel' from_iov_index from_iov_offset len w
        else
          iov ← output_iov_ w !! curr_iov_index_ w;
          let to_copy := Nat.min (length iov - curr_iov_written_ w) len in
          if (to_copy =? 0)%nat then
            if (length (output_iov_ w) <=? curr_iov_index_ w + 1)%nat then Some (false, w)
            else iovec_copy_loop fuel' from_iov_index from_iov_offset len (next_iov w)
          else
            mem ← IncrementalCopy from_iov_offset (curr_iov_written_ w) (Z.of_nat to_copy) iov;
            iovec_copy_loop fuel' from_iov_index (from_iov_offset + to_copy) (len - to_copy) (wrote w mem to_copy)
    end
  else Some (true, w).

Definition iovec_AppendFromSelf (offset len : Z) (w : SnappyIOVecWriter) : option (bool * SnappyIOVecWriter) :=
  if (total_written_ w <? offset) || (offset =? 0) then Some (false, w)
  else
    let space_left := w64 (output_limit_ w - total_written_ w) in
    if space_left <? len then Some (false, w)
    else
      '(from_iov_index, from_iov_offset) ← locate (output_iov_ w) (curr_iov_index_ w) (curr_iov_written_ w) (Z.to_nat offset);
      iovec_copy_loop (2 * Z.to_nat len + 2 * length (output_iov_ w) + 1) from_iov_index from_iov_offset (Z.to_nat len) w.

#[export] Instance SnappyIOVecWriter_Writer : Writer SnappyIOVecWriter := {|
  SetExpectedLength := iovec_SetExpectedLength; CheckLength := iovec_CheckLength; Append := iovec_Append;
  TryFastAppend := iovec_TryFastAppend; AppendFromSelf := iovec_AppendFromSelf |}.

Definition RawUncompressToIOVec_Source {S : Type} `{Source S} (scratch : list Z) (compressed : S) (iov : list (list Z))
    : option (bool * S * list (list Z)) :=
  '(ok, compressed, w) ← InternalUncompress scratch compressed (new_SnappyIOVecWriter iov);
  Some (ok, compressed, output_iov_ w).
Definition RawUncompressToIOVec (scratch compressed : list Z) (iov : list (list Z)) : option (bool * list (list Z)) :=
  '(ok, _, iov) ← RawUncompressToIOVec_Source scratch {| left_bytes := compressed |} iov;
  Some (ok, iov).

(** ** The promises of a writer *)

Definition capacity (sizes : list nat) : nat := sum_list sizes.
(** The number of bytes before position [o] of array [i]. *)
Definition fpos (sizes : list nat) (i o : nat) : nat := (sum_list (take i sizes) + o)%nat.

(** The arrays before the current one are full. *)
Record iovec_holds (sizes : list nat) (w : SnappyIOVecWriter) (out : list Z) (lim : Z) : Prop := {
  vh_sizes : length <$> output_iov_ w = sizes;
  vh_bytes : Forall bytes (output_iov_ w);
  vh_out : out = concat (take (curr_iov_index_ w) (output_iov_ w))
                 ++ take (curr_iov_written_ w) (default [] (output_iov_ w !! curr_iov_index_ w));
  vh_written : (curr_iov_written_ w <= length (default [] (output_iov_ w !! curr_iov_index_ w)))%nat;
  vh_total : total_written_ w = Z.of_nat (length out);
  vh_limit : output_limit_ w = lim;
  vh_fits : Z.of_nat (length out) <= lim <= Z.of_nat (capacity sizes);
  vh_32 : is32 lim }.

Lemma length_concat_sizes (l : list (list Z)) : length (concat l) = sum_list (length <$> l).
Proof. induction l as [|x l IH]; [done|]. cbn. by rewrite length_app, IH. Qed.

Lemma length_concat_take (l : list (list Z)) i : length (concat (take i l)) = sum_list (take i (length <$> l)).
Proof. by rewrite length_concat_sizes, fmap_take. Qed.

Lemma sum_take_S (l : list nat) i n : l !! i = Some n -> sum_list (take (S i) l) = (sum_list (take i l) + n)%nat.
Proof. intros H. rewrite (take_S_r _ _ _ H), sum_list_with_app. cbn. lia. Qed.

Lemma sum_take_le (l : list nat) i j : (i <= j)%nat -> (sum_list (take i l) <= sum_list (take j l))%nat.
Proof.
  intros Hij. rewrite <- (take_drop i (take j l)), take_take, sum_list_with_app. replace (i `min` j)%nat with i by lia. lia.
Qed.

Lemma sizes_lookup sizes w i mem :
  length <$> output_iov_ w = sizes -> output_iov_ w !! i = Some mem -> sizes !! i = Some (length mem).
Proof. intros <- H. by rewrite list_lookup_fmap, H. Qed.

(** While there is room, there is a current array. *)
Lemma iovec_current sizes w out lim :
  iovec_holds sizes w out lim -> Z.of_nat (length out) < lim ->
  exists mem, output_iov_ w !! curr_iov_index_ w = Some mem /\ (curr_iov_written_ w <= length mem)%nat
    /\ out = concat (take (curr_iov_index_ w) (output_iov_ w)) ++ take (curr_iov_written_ w) mem /\ bytes mem
    /\ length out = fpos sizes (curr_iov_index_ w) (curr_iov_written_ w)
    /\ ((length mem <= curr_iov_written_ w)%nat -> (curr_iov_index_ w + 1 < length (output_iov_ w))%nat).
Proof.
  intros [Hs Hb Ho Hw Ht Hl Hf H32] Hlt. destruct (output_iov_ w !! curr_iov_index_ w) as [mem|] eqn:E; cbn [default] in *.
  - pose proof (sizes_lookup _ _ _ _ Hs E) as Hsz.
    assert (length out = fpos sizes (curr_iov_index_ w) (curr_iov_written_ w)) as Hlen.
    { rewrite Ho at 1. rewrite length_app, length_concat_take, Hs, length_take. unfold fpos. cbn in Hw. unfold id in *. lia. }
    exists mem. split_and!; try done; [exact (Forall_lookup_1 _ _ _ _ Hb E)|]. intros Hfull.
    destruct (decide (curr_iov_index_ w + 1 < length (output_iov_ w))%nat) as [|Hge]; [done|]. exfalso.
    assert (sum_list (take (S (curr_iov_index_ w)) sizes) = capacity sizes) as Hall.
    { unfold capacity. f_equal. apply take_ge. rewrite <- Hs, length_fmap. lia. }
    rewrite (sum_take_S _ _ _ Hsz) in Hall. unfold fpos in Hlen. lia.
  - exfalso. apply lookup_ge_None_1 in E. cbn in Hw. unfold id in *. cbn in Hw. rewrite take_nil, app_nil_r in Ho.
    assert (length out = capacity sizes); [|lia]. rewrite Ho, length_concat_take, Hs. unfold capacity. f_equal. apply take_ge. rewrite <- Hs, length_fmap. lia.
Qed.

Lemma next_iov_holds sizes w out lim :
  iovec_holds sizes w out lim -> Z.of_nat (length out) < lim ->
  (forall mem, output_iov_ w !! curr_iov_index_ w = Some mem -> (length mem <= curr_iov_written_ w)%nat) ->
  iovec_holds sizes (next_iov w) out lim.
Proof.
  intros Hw Hlt Hfull. destruct (iovec_current _ _ _ _ Hw Hlt) as (mem & E & Hk & Ho & _ & _). pose proof Hw as [Hs Hb _ _ Ht Hl Hf H32].
  specialize (Hfull mem E). split; cbn; try done; [|lia]. rewrite take_0, app_nil_r, Nat.add_1_r, (take_S_r _ _ _ E), concat_app. cbn [concat].
  rewrite app_nil_r. rewrite Ho at 1. by rewrite (take_ge mem) by lia.
Qed.

Lemma wrote_holds sizes w out lim mem mem' bs n :
  iovec_holds sizes w out lim -> output_iov_ w !! curr_iov_index_ w = Some mem -> length mem' = length mem -> bytes mem' ->
  take (curr_iov_written_ w) mem ++ bs `prefix_of` mem' -> length bs = n -> (curr_iov_written_ w + n <= length mem)%nat ->
  Z.of_nat (length out + n) <= lim ->
  iovec_holds sizes (wrote w mem' n) (out ++ bs) lim.
Proof.
  intros [Hs Hb Ho Hw Ht Hl Hf H32] E Hlm Hbm Hp Hn Hk Hlim. pose proof (lookup_lt_Some _ _ _ E) as Hi. rewrite E in Ho, Hw. cbn in Ho, Hw. unfold id in *.
  split; cbn; try done.
  - rewrite <- Hs. apply list_eq. intros j. rewrite !list_lookup_fmap. destruct (decide (j = curr_iov_index_ w)) as [->|].
    + rewrite list_lookup_insert_eq by done. rewrite E. cbn. by rewrite Hlm.
    + by rewrite list_lookup_insert_ne by done.
  - by apply Forall_insert.
  - rewrite list_lookup_insert_eq by done. cbn. rewrite take_insert_ge by lia. rewrite Ho at 1. rewrite <- app_assoc. f_equal.
    assert (length (take (curr_iov_written_ w) mem ++ bs) = curr_iov_written_ w + n)%nat as Hlen by (rewrite length_app, length_take; lia).
    destruct Hp as [t ->]. rewrite <- Hlen. unfold id. by rewrite take_app_length.
  - rewrite list_lookup_insert_eq by done. cbn. unfold id. lia.
  - rewrite length_app. lia.
  - rewrite length_app. lia.
Qed.

Lemma iovec_append_loop_spec fuel sizes ip len w out lim :
  iovec_holds sizes w out lim -> bytes ip -> (len <= length ip)%nat -> Z.of_nat (length out + len) <= lim ->
  (len + (length (output_iov_ w) - curr_iov_index_ w) <= fuel)%nat ->
  exists w', iovec_append_loop fuel ip len w = Some (true, w') /\ iovec_holds sizes w' (out ++ take len ip) lim
    /\ (curr_iov_index_ w <= curr_iov_index_ w')%nat.
Proof.
  revert ip len w out. induction fuel as [|fuel IH]; intros ip len w out Hw Hip Hlen Hlim Hf; cbn [iovec_append_loop];
    destruct (Nat.ltb_spec 0 len) as [Hp|Hz]; try lia.
  1, 3: assert (len = 0%nat) as -> by lia; exists w; rewrite take_0, app_nil_r; done.
  destruct (iovec_current _ _ _ _ Hw) as (mem & E & Hk & _ & _ & _ & Hnext); [lia|]. rewrite E. cbn [mbind option_bind].
  pose proof (lookup_lt_Some _ _ _ E) as Hi. set (full := (length mem <=? curr_iov_written_ w)%nat).
  assert (full && (length (output_iov_ w) <=? curr_iov_index_ w + 1)%nat = false) as ->.
  { unfold full. destruct (Nat.leb_spec (length mem) (curr_iov_written_ w)) as [Hfull|]; [|done]. specialize (Hnext Hfull).
    destruct (Nat.leb_spec (length (output_iov_ w)) (curr_iov_index_ w + 1)); [lia|done]. }
  set (w1 := if full then next_iov w else w).
  assert (iovec_holds sizes w1 out lim /\ output_iov_ w1 = output_iov_ w /\ (curr_iov_index_ w <= curr_iov_index_ w1)%nat
    /\ (curr_iov_index_ w < curr_iov_index_ w1 \/ curr_iov_written_ w1 < length mem /\ curr_iov_index_ w1 = curr_iov_index_ w)%nat) as (Hw1 & Eo & Hi1 & Hprog).
  { unfold w1, full. destruct (Nat.leb_spec (length mem) (curr_iov_written_ w)); [|split_and!; (done || lia)].
    split_and!; [|done|cbn; lia|cbn; lia]. apply next_iov_holds; [done|lia|]. intros m Em. by simplify_eq. }
  clearbody w1. clear full Hnext. destruct (iovec_current _ _ _ _ Hw1) as (mem1 & E1 & Hk1 & _ & Hb1 & _ & _); [lia|]. rewrite E1. cbn [mbind option_bind].
  pose proof (lookup_lt_Some _ _ _ E1) as Hi1'. rewrite Eo in Hi1'.
  set (n := (len `min` (length mem1 - curr_iov_written_ w1))%nat). unfold memcpy. rewrite load_Some, drop_0 by lia. cbn [mbind option_bind].
  assert (length (take n ip) = n) as Hn by (rewrite length_take; lia).
  assert (take (curr_iov_written_ w1) mem1 `prefix_of` mem1) as Hpre by apply prefix_take.
  assert (length (take (curr_iov_written_ w1) mem1) = curr_iov_written_ w1) as Hlk by (rewrite length_take; lia).
  destruct (store_prefix mem1 _ (take n ip) n Hpre) as (mem2 & Hs & Hl2 & Hp2); [lia|]. rewrite Hlk in Hs. rewrite Hs. cbn [mbind option_bind].
  rewrite (take_ge (take n ip)) in Hp2 by lia.
  assert (iovec_holds sizes (wrote w1 mem2 n) (out ++ take n ip) lim) as Hw2.
  { eapply wrote_holds; [done|done|done| |done|done|lia|lia]. eapply bytes_store; [exact Hb1| |exact Hs]. auto with words. }
  destruct (IH (drop n ip) (len - n)%nat (wrote w1 mem2 n) (out ++ take n ip) Hw2) as (w' & -> & Hw' & Hi'); [auto with words|rewrite length_drop; lia|rewrite length_app; lia| |].
  { cbn. rewrite length_insert, Eo. destruct Hprog as [?|[? Ei]]; [lia|]. rewrite Eo, Ei, E in E1. injection E1 as <-. rewrite Ei. lia. }
  exists w'. split; [done|]. split; [|cbn in Hi'; lia]. rewrite <- app_assoc, take_take_drop in Hw'. by replace (n + (len - n))%nat with len in Hw' by lia.
Qed.

Lemma iovec_Append_spec sizes ip len w out lim :
  iovec_holds sizes w out lim -> bytes ip -> 0 <= len <= Z.of_nat (length ip) -> len <= 0x1_0000_0000 ->
  exists ok w', iovec_Append ip len w = Some (ok, w')
    /\ if ok then iovec_holds sizes w' (out ++ take (Z.to_nat len) ip) lim /\ (curr_iov_index_ w <= curr_iov_index_ w')%nat
       else lim < Z.of_nat (length out) + len.
Proof.
  intros Hw Hip Hlen Hbig. pose proof Hw as [_ _ _ _ Ht Hl Hf H32]. unfold iovec_Append. rewrite Ht, Hl, w64_small by (unfold is32, is64 in *; lia).
  destruct (Z.ltb_spec lim (Z.of_nat (length out) + len)); [exists false, w; split; [done|]; lia|].
  destruct (iovec_append_loop_spec (Z.to_nat len + length (output_iov_ w)) sizes ip (Z.to_nat len) w out lim Hw Hip) as (w' & -> & Hw'); [lia..|].
  by exists true, w'.
Qed.

Lemma iovec_TryFastAppend_holds sizes w out lim ip available len :
  iovec_holds sizes w out lim -> bytes ip -> 0 <= available <= Z.of_nat (length ip) -> 1 <= len <= 64 ->
  exists ok w', iovec_TryFastAppend ip available len w = Some (ok, w')
    /\ if ok then len < 61 /\ len + Z.of_nat kMaximumTagLength <= available /\ iovec_holds sizes w' (out ++ take (Z.to_nat len) ip) lim
       else iovec_holds sizes w' out lim.
Proof.
  intros Hw Hip Hav Hlen. pose proof Hw as [_ _ _ _ Ht Hl Hf H32]. unfold iovec_TryFastAppend, kMaximumTagLength.
  rewrite Ht, Hl, w64_small by (unfold is32, is64 in *; lia).
  destruct ((len <=? 16) && (16 + Z.of_nat 5 <=? available) && (16 <=? lim - Z.of_nat (length out))) eqn:Ef; [|by exists false, w].
  apply andb_true_iff in Ef as [[E1%Z.leb_le E2%Z.leb_le]%andb_true_iff E3%Z.leb_le].
  destruct (iovec_current _ _ _ _ Hw) as (mem & E & Hk & _ & Hb & Hpos & _); [lia|]. rewrite E. cbn [mbind option_bind].
  destruct (Z.leb_spec 16 (w64 (Z.of_nat (length mem) - Z.of_nat (curr_iov_written_ w)))) as [H16|]; [|by exists false, w].
  assert (16 <= Z.of_nat (length mem) - Z.of_nat (curr_iov_written_ w)) as Hsp.
  { revert H16. unfold w64. intros H16. pose proof (Z.mod_le (Z.of_nat (length mem) - Z.of_nat (curr_iov_written_ w)) 0x1_0000_0000_0000_0000 ltac:(lia) ltac:(lia)). lia. }
  assert (length (take (curr_iov_written_ w) mem) = curr_iov_written_ w) as Hlk by (rewrite length_take; lia).
  destruct (copy16 ip 0 (take (curr_iov_written_ w) mem) mem) as (mem2 & Hc & Hl2 & Hb2 & Hp2); [done|apply prefix_take|done|lia|lia|]. rewrite Hlk in Hc.
  destruct (UnalignedCopy64 ip 0 mem (curr_iov_written_ w)) as [m1|]; [|done]. cbn [mbind option_bind Nat.add] in *. rewrite Hc. cbn [mbind option_bind].
  exists true, (wrote w mem2 (Z.to_nat len)). split; [done|]. split; [lia|]. split; [lia|].
  eapply wrote_holds; [done|done|done|done| |rewrite length_take; lia|lia|lia]. rewrite drop_0 in Hp2. etrans; [|exact Hp2].
  apply prefix_app. replace (Z.to_nat len) with (Z.to_nat len `min` 16)%nat by lia. rewrite <- take_take. apply prefix_take.
Qed.

(** Going back from a position by [offset]. *)
Lemma locate_spec iov i o offset :
  (offset <= fpos (length <$> iov) i o)%nat -> (i <= length iov)%nat ->
  exists f fo, locate iov i o offset = Some (f, fo) /\ (f <= i)%nat /\ (fpos (length <$> iov) f fo + offset = fpos (length <$> iov) i o)%nat
    /\ (if decide (f = i) then (fo <= o)%nat else exists mem, iov !! f = Some mem /\ (fo <= length mem)%nat).
Proof.
  revert o offset. induction i as [|i IH]; intros o offset Ho Hi; cbn [locate]; destruct (Nat.leb_spec offset o) as [Hle|Hgt].
  1, 3: eexists _, _; split; [done|]; split; [lia|]; unfold fpos in *; rewrite decide_True by done; lia.
  - unfold fpos in Ho. rewrite take_0 in Ho. cbn in Ho. lia.
  - destruct (lookup_lt_is_Some_2 iov i) as [prev E]; [lia|]. rewrite E. cbn [mbind option_bind].
    assert ((length <$> iov) !! i = Some (length prev)) as Hsz by (by rewrite list_lookup_fmap, E).
    assert (fpos (length <$> iov) (S i) o = fpos (length <$> iov) i (length prev) + o)%nat as Hf by (unfold fpos; rewrite (sum_take_S _ _ _ Hsz); lia).
    destruct (IH (length prev) (offset - o)%nat) as (f & fo & -> & Hfi & Hpos & Hfo); [lia|lia|]. exists f, fo. split; [done|]. split; [lia|]. split; [lia|].
    rewrite decide_False by lia. case_decide; [subst f; by exists prev|done].
Qed.

(** A short copy is a part of what there is. *)
Lemma self_copy_short off n out : (n <= off <= length out)%nat -> self_copy off n out = out ++ take n (drop (length out - off) out).
Proof.
  intros H. revert H. induction n as [|n IH]; intros H; [by rewrite take_0, app_nil_r|].
  rewrite <- Nat.add_1_r, self_copy_add, IH by lia. cbn [self_copy]. set (k := (length out - off)%nat).
  destruct (lookup_lt_is_Some_2 out (k + n)) as [x Hx]; [lia|]. rewrite Nat.add_1_r, (take_S_r _ n x) by (by rewrite lookup_drop).
  rewrite <- app_assoc. do 3 f_equal. apply list_lookup_total_correct. rewrite length_app, length_take, length_drop.
  rewrite lookup_app_l by lia. rewrite <- Hx. f_equal. lia.
Qed.

(** The bytes of an array that is full are at their place in what has been produced. *)
Lemma iovec_source sizes w out lim f fo mem n :
  iovec_holds sizes w out lim -> (f < curr_iov_index_ w)%nat -> output_iov_ w !! f = Some mem -> (fo + n <= length mem)%nat ->
  take n (drop fo mem) = take n (drop (fpos sizes f fo) out) /\ (fpos sizes f fo + (length mem - fo) <= length out)%nat.
Proof.
  intros [Hs Hb Ho _ _ _ _ _] Hf E Hn.
  assert (out = concat (take f (output_iov_ w)) ++ mem ++ drop (length (concat (take (S f) (output_iov_ w)))) out) as Hd.
  { assert (concat (take (S f) (output_iov_ w)) `prefix_of` out) as [t Ht].
    { rewrite Ho. apply prefix_app_r. exists (concat (take (curr_iov_index_ w - S f) (drop (S f) (output_iov_ w)))).
      rewrite <- concat_app, take_take_drop. do 2 f_equal. lia. }
    rewrite Ht at 1. rewrite Ht at 1. rewrite drop_app_length. rewrite (take_S_r _ _ _ E), concat_app. cbn [concat]. by rewrite app_nil_r, <- app_assoc. }
  pose proof (length_concat_take (output_iov_ w) f) as Hlc. rewrite Hs in Hlc. unfold fpos. set (t := drop _ out) in Hd. clearbody t.
  rewrite Hd. rewrite !length_app, Hlc. split; [|lia]. rewrite drop_app_ge by lia. replace (sum_list (take f sizes) + fo - length (concat (take f (output_iov_ w))))%nat with fo by lia.
  rewrite drop_app_le, take_app_le by (rewrite ?length_drop; lia). done.
Qed.

Lemma fpos_mono sizes f i o : (f < i)%nat -> forall n, sizes !! f = Some n -> (fpos sizes f n <= fpos sizes i o)%nat.
Proof. intros Hf n Hn. unfold fpos. pose proof (sum_take_le sizes (S f) i ltac:(lia)). rewrite (sum_take_S _ _ _ Hn) in *. lia. Qed.

(** The position from which the copy goes on is [off] before the end. *)
Definition from_ok (sizes : list nat) (w : SnappyIOVecWriter) (off f fo : nat) : Prop :=
  (f <= curr_iov_index_ w)%nat /\ (fpos sizes f fo + off)%nat = fpos sizes (curr_iov_index_ w) (curr_iov_written_ w)
  /\ (if decide (f = curr_iov_index_ w) then True else exists n, sizes !! f = Some n /\ (fo <= n)%nat).

(** One turn for the part of the copy that is in an array before the current one. *)
Lemma copy_from_before sizes w out lim off f fo mem len :
  iovec_holds sizes w out lim -> from_ok sizes w off f fo -> f <> curr_iov_index_ w -> output_iov_ w !! f = Some mem ->
  length out = fpos sizes (curr_iov_index_ w) (curr_iov_written_ w) ->
  let n := Nat.min (length mem - fo) len in Z.of_nat (length out + len) <= lim ->
  exists w1, iovec_Append (drop fo mem) (Z.of_nat n) w = Some (true, w1) /\ iovec_holds sizes w1 (self_copy off n out) lim
    /\ (curr_iov_index_ w <= curr_iov_index_ w1)%nat /\ (n <= off)%nat.
Proof.
  intros Hw (Hf1 & Hf2 & Hf3) Hne E Hout n Hlim. pose proof Hw as [Hs Hb _ _ _ _ Hfit H32]. rewrite decide_False in Hf3 by done.
  destruct Hf3 as (m & Hm & Hfo). rewrite (sizes_lookup _ _ _ _ Hs E) in Hm. injection Hm as <-.
  destruct (iovec_source sizes w out lim f fo mem n Hw) as [Hsrc Hlen]; [lia|done|lia|].
  destruct (iovec_Append_spec sizes (drop fo mem) (Z.of_nat n) w out lim Hw) as (ok & w1 & -> & Hw1);
    [apply bytes_drop; exact (Forall_lookup_1 _ _ _ _ Hb E)|rewrite length_drop; lia|unfold is32 in H32; lia|].
  destruct ok; [|lia]. destruct Hw1 as [Hw1 Hi1]. exists w1. split; [done|]. split; [|split; [done|lia]].
  rewrite Nat2Z.id, Hsrc in Hw1. rewrite self_copy_short by lia. by replace (length out - off)%nat with (fpos sizes f fo) by lia.
Qed.

(** One turn inside the current array. *)
Lemma copy_inside sizes w out lim off fo mem n :
  iovec_holds sizes w out lim -> from_ok sizes w off (curr_iov_index_ w) fo -> (0 < off)%nat -> output_iov_ w !! curr_iov_index_ w = Some mem ->
  out = concat (take (curr_iov_index_ w) (output_iov_ w)) ++ take (curr_iov_written_ w) mem -> bytes mem ->
  (0 < n)%nat -> (curr_iov_written_ w + n <= length mem)%nat -> Z.of_nat (length out + n) <= lim ->
  exists mem', IncrementalCopy fo (curr_iov_written_ w) (Z.of_nat n) mem = Some mem' /\ iovec_holds sizes (wrote w mem' n) (self_copy off n out) lim.
Proof.
  intros Hw (_ & Hf2 & _) Hoff E Ho Hb Hn Hk Hlim. unfold fpos in Hf2. set (k := curr_iov_written_ w) in *.
  set (P := take k mem). assert (length P = k) as HP by (unfold P; rewrite length_take; lia).
  unfold IncrementalCopy. replace (Z.to_nat (Z.of_nat n - 1)) with (n - 1)%nat by lia.
  destruct (IncrementalCopy_loop_spec (n - 1) off P mem) as (mem' & Hc & Hl' & Hb' & Hp'); [apply prefix_take|done|lia|lia|].
  rewrite HP in Hc. replace (k - off)%nat with fo in Hc by lia. exists mem'. split; [done|]. replace (S (n - 1)) with n in Hp' by lia.
  destruct (self_copy_split off n P) as (bs & Eb & Hbs). rewrite Ho at 1. fold P. rewrite self_copy_app by lia. rewrite Eb, app_assoc.
  unfold P at 1. rewrite <- Ho. eapply wrote_holds; [done|done|done|done| |done|done|done]. fold k. fold P. by rewrite <- Eb.
Qed.

Lemma iovec_copy_loop_spec fuel sizes w out lim off f fo len :
  iovec_holds sizes w out lim -> (0 < off)%nat -> ((0 < len)%nat -> from_ok sizes w off f fo) -> Z.of_nat (length out + len) <= lim ->
  ((0 < len)%nat -> len + (length (output_iov_ w) - f) + (length (output_iov_ w) - curr_iov_index_ w) <= fuel)%nat ->
  exists w', iovec_copy_loop fuel f fo len w = Some (true, w') /\ iovec_holds sizes w' (self_copy off len out) lim.
Proof.
  revert w out f fo len. induction fuel as [|fuel IH]; intros w out f fo len Hw Hoff Hfrom Hlim Hf; cbn [iovec_copy_loop];
    destruct (Nat.ltb_spec 0 len) as [Hp|Hz].
  2, 4: assert (len = 0%nat) as -> by lia; by exists w.
  1: lia.
  specialize (Hfrom Hp). specialize (Hf Hp). pose proof Hfrom as (Hf1 & Hf2 & Hf3). pose proof Hw as [Hs _ _ _ _ _ _ _].
  assert (length (output_iov_ w) = length sizes) as Hls by (by rewrite <- Hs, length_fmap).
  destruct (iovec_current _ _ _ _ Hw) as (mem & E & Hk & Ho & Hb & Hpos & Hnext); [lia|]. pose proof (lookup_lt_Some _ _ _ E) as Hi.
  destruct (Nat.eqb_spec f (curr_iov_index_ w)) as [->|Hne]; cbn [negb].
  - rewrite E. cbn [mbind option_bind]. set (n := ((length mem - curr_iov_written_ w) `min` len)%nat).
    destruct (Nat.eqb_spec n 0) as [Hn|Hn].
    + destruct (Nat.leb_spec (length (output_iov_ w)) (curr_iov_index_ w + 1)); [lia|].
      apply IH; [|done| |lia|cbn; lia].
      * apply next_iov_holds; [done|lia|]. intros m Em. rewrite E in Em. injection Em as <-. lia.
      * intros _. pose proof (sizes_lookup _ _ _ _ Hs E) as Hsz. split; [cbn; lia|]. cbn. split.
        -- unfold fpos in *. rewrite Nat.add_1_r, (sum_take_S _ _ _ Hsz). lia.
        -- rewrite decide_False by lia. exists (length mem). split; [done|]. unfold fpos in Hf2. lia.
    + destruct (copy_inside sizes w out lim off fo mem n) as (mem' & -> & Hw'); [done..|lia|lia|lia|]. cbn [mbind option_bind].
      destruct (IH (wrote w mem' n) (self_copy off n out) (curr_iov_index_ w) (fo + n)%nat (len - n)%nat Hw' Hoff) as (w2 & -> & Hw2).
      * intros _. split; [cbn; lia|]. cbn. split; [unfold fpos in *; lia|]. by rewrite decide_True.
      * rewrite length_self_copy. lia.
      * intros _. cbn. rewrite length_insert. lia.
      * exists w2. split; [done|]. rewrite <- self_copy_add in Hw2. by replace (n + (len - n))%nat with len in Hw2 by lia.
  - destruct (lookup_lt_is_Some_2 (output_iov_ w) f) as [from Ef]; [lia|]. rewrite Ef. cbn [mbind option_bind].
    pose proof (sizes_lookup _ _ _ _ Hs Ef) as Hsz. rewrite decide_False in Hf3 by done. destruct Hf3 as (m & Hm & Hfo). rewrite Hsz in Hm. injection Hm as <-.
    set (n := ((length from - fo) `min` len)%nat).
    destruct (copy_from_before sizes w out lim off f fo from len) as (w1 & E1 & Hw1 & Hi1 & Hno); [done..|]. fold n in E1, Hw1, Hno. rewrite E1. cbn [mbind option_bind].
    pose proof Hw1 as [Hs1 _ _ _ _ _ _ _]. assert (length (output_iov_ w1) = length sizes) as Hls1 by (by rewrite <- Hs1, length_fmap).
    assert (forall l, self_copy off l (self_copy off n out) = self_copy off (n + l) out) as Hadd by (intros l; by rewrite self_copy_add).
    destruct (Nat.ltb_spec 0 (len - n)) as [Hr|Hr].
    + destruct (IH w1 (self_copy off n out) (f + 1)%nat 0%nat (len - n)%nat Hw1 Hoff) as (w2 & -> & Hw2).
      * intros _. destruct (iovec_current _ _ _ _ Hw1) as (mem1 & E1' & _ & _ & _ & Hpos1 & _); [rewrite length_self_copy; lia|].
        rewrite length_self_copy in Hpos1. split; [lia|]. split; [unfold fpos in *; rewrite Nat.add_1_r, (sum_take_S _ _ _ Hsz); lia|].
        case_decide; [done|]. destruct (lookup_lt_is_Some_2 sizes (f + 1)) as [m Hm]; [apply lookup_lt_Some in E1'; lia|]. exists m. split; [done|lia].
      * rewrite length_self_copy. lia.
      * intros _. rewrite Hls1. lia.
      * exists w2. split; [done|]. rewrite Hadd in Hw2. by replace (n + (len - n))%nat with len in Hw2 by lia.
    + assert (len - n = 0)%nat as Hz by lia. rewrite Hz. exists w1. split; [by destruct fuel|]. by replace len with n by lia.
Qed.

Lemma iovec_AppendFromSelf_holds sizes w out lim offset len :
  iovec_holds sizes w out lim -> is32 offset -> 1 <= len <= 64 ->
  exists ok w', iovec_AppendFromSelf offset len w = Some (ok, w')
    /\ if ok then 1 <= offset <= Z.of_nat (length out) /\ iovec_holds sizes w' (self_copy (Z.to_nat offset) (Z.to_nat len) out) lim
       else ~ (1 <= offset <= Z.of_nat (length out)) \/ lim < Z.of_nat (length out) + len.
Proof.
  intros Hw Hoff Hlen. pose proof Hw as [Hs _ _ _ Ht Hl Hf H32]. unfold iovec_AppendFromSelf. rewrite Ht, Hl. unfold is32 in Hoff.
  destruct (Z.ltb_spec (Z.of_nat (length out)) offset); [exists false, w; split; [done|]; left; lia|].
  destruct (Z.eqb_spec offset 0); [exists false, w; split; [done|]; left; lia|]. cbn [orb].
  rewrite w64_small by (unfold is32, is64 in *; lia). destruct (Z.ltb_spec (lim - Z.of_nat (length out)) len); [exists false, w; split; [done|]; right; lia|].
  destruct (iovec_current _ _ _ _ Hw) as (mem & E & Hk & _ & _ & Hpos & _); [lia|]. pose proof (lookup_lt_Some _ _ _ E) as Hi.
  destruct (locate_spec (output_iov_ w) (curr_iov_index_ w) (curr_iov_written_ w) (Z.to_nat offset)) as (f & fo & -> & Hfi & Hfp & Hfo);
    [rewrite Hs; lia|lia|]. cbn [mbind option_bind]. rewrite Hs in Hfp.
  edestruct (iovec_copy_loop_spec) as (w' & -> & Hw'); [exact Hw| | | | |].
  5: { exists true, w'. split; [done|]. split; [lia|]. exact Hw'. }
  - lia.
  - intros _. split; [done|]. split; [done|]. case_decide; [done|]. destruct Hfo as (m & Em & Hm). exists (length m). split; [|done]. by eapply sizes_lookup.
  - lia.
  - lia.
Qed.

(** The sizes of the arrays do not change. *)
Program Definition iovec_laws (sizes : list nat) : WriterLaws SnappyIOVecWriter := {|
  fresh w lim := exists iov, w = new_SnappyIOVecWriter iov /\ Forall bytes iov /\ length <$> iov = sizes /\ lim <= Z.of_nat (capacity sizes);
  holds := iovec_holds sizes |}.
Next Obligation.
  intros sizes w lim (iov & -> & Hb & Hs & Hl) H32. unfold is32 in H32. split; cbn; (done || lia).
Qed.
Next Obligation. intros sizes w out lim [_ _ _ _ _ _ Hf _]. lia. Qed.
Next Obligation. intros sizes w out lim [_ _ _ _ Ht Hl _ _]. cbn. unfold iovec_CheckLength. by rewrite Ht, Hl. Qed.
Next Obligation.
  intros sizes w out lim ip len Hw Hip Hlen Hbig. cbn. destruct (iovec_Append_spec sizes ip len w out lim Hw Hip Hlen Hbig) as (ok & w' & -> & Hr).
  exists ok, w'. split; [done|]. destruct ok; [by destruct Hr|done].
Qed.
Next Obligation. intros sizes w out lim ip available len. apply iovec_TryFastAppend_holds. Qed.
Next Obligation. intros sizes w out lim offset len. apply iovec_AppendFromSelf_holds. Qed.

Lemma iovec_prefix sizes w out lim : iovec_holds sizes w out lim -> out `prefix_of` concat (output_iov_ w).
Proof.
  intros [_ _ Ho _ _ _ _ _]. rewrite <- (take_drop (curr_iov_index_ w) (output_iov_ w)) at 1. rewrite concat_app, Ho. apply prefix_app.
  destruct (output_iov_ w !! curr_iov_index_ w) as [mem|] eqn:E; cbn; [|rewrite take_nil; apply prefix_nil].
  rewrite (drop_S _ _ _ E). cbn [concat]. apply prefix_app_r, prefix_take.
Qed.

(** C39: Decompression into several arrays that together have room for the announced length:
    every access is inside one of the arrays, also where a copy crosses from one to the
    next; the result is true exactly if the text has a meaning, and the arrays one after
    the other then start with it and keep their sizes. *)
Theorem uncompress_iovec {S : Type} `{Source S} (scratch : list Z) (r : S) (iov : list (list Z)) :
  bytes (contents r) -> Z.of_nat (length (contents r)) < 0x1_0000_0000 -> bytes scratch -> length scratch = 5%nat -> Forall bytes iov ->
  (forall n l, GetVarint32Ptr (contents r) = Some (n, l) -> n <= Z.of_nat (length (concat iov))) ->
  exists r' iov', RawUncompressToIOVec_Source scratch r iov = Some (bool_decide (is_Some (meaning (contents r))), r', iov')
    /\ forall out, meaning (contents r) = Some out -> out `prefix_of` concat iov' /\ length <$> iov' = length <$> iov /\ contents r' = [].
Proof.
  intros Hb Hl Hbs Hls Hm Hn. unfold RawUncompressToIOVec_Source. pose (iovec_laws (length <$> iov)) as laws.
  destruct (InternalUncompress_spec scratch r (new_SnappyIOVecWriter iov)) as (ok & r' & w' & -> & Hr); [done..| |].
  { intros n l E. exists iov. split_and!; [done..|]. unfold capacity. rewrite <- length_concat_sizes. by eapply Hn. }
  cbn [mbind option_bind]. exists r', (output_iov_ w'). destruct ok.
  - destruct Hr as [Hr (out & Ho & Hh)]. rewrite bool_decide_eq_true_2 by (by exists out).
    split; [done|]. intros o Ho'. simplify_eq. split; [exact (iovec_prefix _ _ _ _ Hh)|]. by destruct Hh.
  - rewrite Hr, bool_decide_eq_false_2 by apply is_Some_None. by split.
Qed.

(** The twelve bytes in arrays of 5, 0, 3 and 4. *)
Definition some_iov : list (list Z) := [replicate 5 0; []; replicate 3 0; replicate 4 0].
Lemma uncompress_iovec_witness :
  exists r' iov', RawUncompressToIOVec_Source (replicate 5 7) ab_pieces some_iov = Some (true, r', iov')
    /\ iov' = [[97; 98; 97; 98; 97]; []; [98; 97; 98]; [97; 98; 97; 98]] /\ contents r' = [].
Proof.
  assert (meaning (contents ab_pieces) = Some [97; 98; 97; 98; 97; 98; 97; 98; 97; 98; 97; 98]) as Hm by reflexivity.
  destruct (uncompress_iovec (replicate 5 7) ab_pieces some_iov) as (r' & iov' & E & Hr).
  - byte_list.
  - reflexivity.
  - byte_list.
  - reflexivity.
  - repeat (constructor; [byte_list|]); constructor.
  - intros n l El. vm_compute in El. injection El as <- <-. reflexivity.
  - exists r', iov'. destruct (Hr _ Hm) as (_ & _ & Hc). rewrite Hm in E. split; [exact E|]. split; [|exact Hc].
    vm_compute in E. by injection E as _ <-.
Defined.
