(* ===== verification/SnappyPort.v ===== *)
(** * Snappy in LevelDB: src/packages/LevelDB.1.16.0.5/lib/native/src/port/port_win.h and
    table/format.cc

    The functions through which tables are compressed.  They satisfy the class
    [Compression], so that what is proved of tables, versions and memory tables holds with
    Snappy, as the program is built ([LEVELDB_WITH_SNAPPY] in LevelDB.props). *)
From stdpp Require Import base numbers option list.
From S2P Require Import Prelude Coding Crc32c SkipList DbFormat WriteBatch Bloom FilterBlock TableBlock TableFile.
From S2P Require Import SnappyFormat SnappyMatch SnappyWriter SnappyDecompress SnappyCompress.
Open Scope Z_scope.
Open Scope word_scope.

Section port.
(** The build, what the scratch buffer of a decompressor holds at first, and what [new char[n]]
    returns. *)
Context (arch_k8 : bool) (scratch : list Z) (new_array : nat -> list Z).

(** [bool Snappy_Compress(const char* input, size_t length, std::string* output)] *)
Definition port_Snappy_Compress (input output : list Z) : option (list Z) :=
  let output := string_resize output (Z.to_nat (MaxCompressedLength (Z.of_nat (length input)))) in
  '(output, outlen) ← RawCompress arch_k8 input output;
  Some (string_resize output outlen).
Definition port_Snappy_GetUncompressedLength (input : list Z) : option Z := GetUncompressedLength input.
Definition port_Snappy_Uncompress (input output : list Z) : option (bool * list Z) := RawUncompress scratch input output.

(** The case [kSnappyCompression] of [ReadBlock]: inside, [None] is a corrupted block. *)
Definition uncompress_block (data : list Z) : option (option (list Z)) :=
  match port_Snappy_GetUncompressedLength data with
  | None => Some None
  | Some ulength =>
      '(ok, ubuf) ← port_Snappy_Uncompress data (new_array (Z.to_nat ulength));
      Some (if ok : bool then Some ubuf else None)
  end.

Lemma port_Snappy_Compress_spec input output :
  bytes input -> Z.of_nat (length input) < 0x1_0000_0000 -> bytes output ->
  exists c, port_Snappy_Compress input output = Some c /\ bytes c
    /\ GetUncompressedLength c = Some (Z.of_nat (length input)) /\ meaning c = Some input.
Proof.
  intros Hb Hl Ho. unfold port_Snappy_Compress. set (N := Z.of_nat (length input)).
  assert (0 <= MaxCompressedLength N) as H0 by (rewrite MaxCompressedLength_small by lia; pose proof (Z.div_pos N 6); lia).
  destruct (RawCompress_spec arch_k8 input (string_resize output (Z.to_nat (MaxCompressedLength N)))) as (mem & len & -> & Hlm & Hlen & Hbt & Hg & Hm);
    [done|done|by apply bytes_string_resize|fold N; rewrite length_string_resize; lia|]. cbn [mbind option_bind]. rewrite length_string_resize in Hlm. fold N in Hlen.
  assert (string_resize mem len = take len mem) as ->.
  { unfold string_resize. replace (len - length mem)%nat with 0%nat by lia. by rewrite app_nil_r. }
  by exists (take len mem).
Qed.

Context (Hscratch : bytes scratch) (Hscratch5 : length scratch = 5%nat)
  (Hnew : forall n, length (new_array n) = n /\ bytes (new_array n)).

Lemma uncompress_block_spec data :
  bytes data -> Z.of_nat (length data) < 0x1_0000_0000 ->
  uncompress_block data = Some (if GetUncompressedLength data then meaning data else None).
Proof.
  intros Hb Hl. unfold uncompress_block, port_Snappy_GetUncompressedLength, port_Snappy_Uncompress.
  destruct (GetUncompressedLength data) as [n|] eqn:E; [|done]. pose proof (GetUncompressedLength_is32 data n Hb E) as [H0 _].
  destruct (Hnew (Z.to_nat n)) as [Hn1 Hn2].
  destruct (RawUncompress_exact scratch data n (new_array (Z.to_nat n))) as (mem & -> & Hm); [done..|lia|]. cbn [mbind option_bind]. f_equal.
  destruct (meaning data) as [out|]; [|by rewrite bool_decide_eq_false_2 by apply is_Some_None].
  rewrite bool_decide_eq_true_2 by (by exists out). f_equal. by apply Hm.
Qed.

(** The builder of tables clears the string before it is used again. *)
Program Definition snappy_port : Compression := {|
  Snappy_Compress raw := port_Snappy_Compress raw [];
  Snappy_Uncompress c := r ← uncompress_block c; r |}.
Next Obligation.
  intros raw c Hb Hr Hc E. destruct (port_Snappy_Compress_spec raw [] Hb Hr bytes_nil) as (c' & E' & Hbc & Hg & Hm).
  rewrite E in E'. injection E' as <-. rewrite uncompress_block_spec by done. cbn [mbind option_bind]. by rewrite Hg.
Qed.
Next Obligation.
  intros raw c Hb Hr E. destruct (port_Snappy_Compress_spec raw [] Hb Hr bytes_nil) as (c' & E' & Hbc & _).
  by rewrite E in E'; injection E' as <-.
Qed.
End port.

(** C23: A block that was written with Snappy may come back from the disk with any contents:
    decompression into a new array of the announced length stays inside it, and gives what
    the format says or reports corruption; what was not damaged gives the block. *)
Theorem block_uncompress_safe (arch_k8 : bool) (scratch data raw : list Z) (new_array : nat -> list Z) :
  bytes scratch -> length scratch = 5%nat -> (forall n, length (new_array n) = n /\ bytes (new_array n)) ->
  bytes data -> Z.of_nat (length data) < 0x1_0000_0000 -> bytes raw -> Z.of_nat (length raw) < 0x1_0000_0000 ->
  uncompress_block scratch new_array data = Some (if GetUncompressedLength data then meaning data else None)
  /\ (port_Snappy_Compress arch_k8 raw [] = Some data -> uncompress_block scratch new_array data = Some (Some raw)).
Proof.
  intros Hs H5 Hn Hb Hl Hbr Hr. pose proof (uncompress_block_spec scratch new_array Hs H5 Hn data Hb Hl) as E. split; [done|].
  intros Hc. destruct (port_Snappy_Compress_spec arch_k8 raw [] Hbr Hr bytes_nil) as (c' & Hc' & _ & Hg & Hm).
  rewrite Hc in Hc'. injection Hc' as <-. by rewrite E, Hg, Hm.
Qed.

Definition zeros (n : nat) : list Z := replicate n 0.
Lemma zeros_new n : length (zeros n) = n /\ bytes (zeros n).
Proof. split; [apply length_replicate|apply bytes_replicate]. Qed.

Lemma block_uncompress_safe_witness :
  uncompress_block (zeros 5) zeros [20; 4; 7; 8; 70; 2; 0] = Some (Some (concat (replicate 10 [7; 8])))
  /\ uncompress_block (zeros 5) zeros [20; 4; 7; 8; 70; 3; 0] = Some None.
Proof.
  split.
  - apply (block_uncompress_safe true (zeros 5) [20; 4; 7; 8; 70; 2; 0] (concat (replicate 10 [7; 8])) zeros).
    + apply bytes_replicate.
    + reflexivity.
    + apply zeros_new.
    + byte_list.
    + reflexivity.
    + byte_list.
    + reflexivity.
    + reflexivity.
  - reflexivity.
Defined.

(** A table file whose blocks are compressed, and searches in it. *)
Definition snappy : Compression := snappy_port true (zeros 5) zeros (bytes_replicate 5) eq_refl zeros_new.
Definition long_letters : list (list Z * list Z) :=
  map (fun '(c, seq, t, v) => ([c] ++ EncodeFixed64 (PackSequenceAndType seq t), v))
    [(97, 5, 1, replicate 40 1); (97, 2, 1, [2]); (98, 7, 0, []); (98, 3, 1, replicate 30 3); (100, 6, 1, [4])].
Example snappy_table :
  let policy := InternalFilterPolicy (bloom_policy 10) in
  let file := @build_table policy snappy 2 200 kSnappyCompression (Some [98]) long_letters in
  let raw := @build_table policy snappy 2 200 kNoCompression (Some [98]) long_letters in
  let get k :=
    match @Table_Open snappy (Some [98]) file (Z.of_nat (length file)) with
    | Some (inr t) => @InternalGet policy snappy t true k
    | _ => None
    end in
  (length file < length raw)%nat
  /\ get ([98] ++ EncodeFixed64 (PackSequenceAndType 6 1))
    = Some (Some ([98] ++ EncodeFixed64 (PackSequenceAndType 3 1), replicate 30 3), OK).
Proof. vm_compute. split; [lia|reflexivity]. Qed.
