(* ===== verification/SnappyC.v ===== *)
(** * The C interface of Snappy: src/packages/Snappy.1.1.1.7/lib/native/src/snappy-c.cc

    Functions that check the sizes of buffers and report what is wrong as a status. *)
From stdpp Require Import base numbers option list.
From S2P Require Import Prelude Coding SnappyFormat SnappyMatch SnappyWriter SnappyDecompress SnappyCompress.
Open Scope Z_scope.
Open Scope word_scope.

Inductive snappy_status := SNAPPY_OK | SNAPPY_INVALID_INPUT | SNAPPY_BUFFER_TOO_SMALL.

Definition snappy_max_compressed_length (source_length : Z) : Z := MaxCompressedLength source_length.

(** The status, the buffer and the length behind the pointer after the call. *)
Definition snappy_compress (arch_k8 : bool) (input compressed : list Z) (compressed_length : Z)
    : option (snappy_status * list Z * Z) :=
  if compressed_length <? snappy_max_compressed_length (Z.of_nat (length input))
  then Some (SNAPPY_BUFFER_TOO_SMALL, compressed, compressed_length)
  else
    '(compressed, len) ← RawCompress arch_k8 input compressed;
    Some (SNAPPY_OK, compressed, Z.of_nat len).

Definition snappy_uncompress (scratch compressed uncompressed : list Z) (uncompressed_length : Z)
    : option (snappy_status * list Z * Z) :=
  match GetUncompressedLength compressed with
  | None => Some (SNAPPY_INVALID_INPUT, uncompressed, uncompressed_length)
  | Some real_uncompressed_length =>
      if uncompressed_length <? real_uncompressed_length then Some (SNAPPY_BUFFER_TOO_SMALL, uncompressed, uncompressed_length)
      else
        '(ok, uncompressed) ← RawUncompress scratch compressed uncompressed;
        Some (if ok : bool then (SNAPPY_OK, uncompressed, real_uncompressed_length)
              else (SNAPPY_INVALID_INPUT, uncompressed, uncompressed_length))
  end.

Definition snappy_uncompressed_length (compressed : list Z) : snappy_status * option Z :=
  match GetUncompressedLength compressed with
  | Some result => (SNAPPY_OK, Some result)
  | None => (SNAPPY_INVALID_INPUT, None)
  end.

Definition snappy_validate_compressed_buffer (scratch compressed : list Z) : option snappy_status :=
  ok ← IsValidCompressedBuffer scratch compressed;
  Some (if ok : bool then SNAPPY_OK else SNAPPY_INVALID_INPUT).

(** ** The status of every call *)

Lemma snappy_compress_status arch_k8 input mem :
  let N := Z.of_nat (length input) in
  bytes input -> N < 0x1_0000_0000 -> bytes mem ->
  if Z.of_nat (length mem) <? MaxCompressedLength N
  then snappy_compress arch_k8 input mem (Z.of_nat (length mem)) = Some (SNAPPY_BUFFER_TOO_SMALL, mem, Z.of_nat (length mem))
  else exists mem' len, snappy_compress arch_k8 input mem (Z.of_nat (length mem)) = Some (SNAPPY_OK, mem', Z.of_nat len)
    /\ meaning (take len mem') = Some input /\ snappy_uncompressed_length (take len mem') = (SNAPPY_OK, Some N).
Proof.
  intros N Hb HN Hm. unfold snappy_compress, snappy_max_compressed_length. fold N.
  destruct (Z.ltb_spec (Z.of_nat (length mem)) (MaxCompressedLength N)); [done|].
  destruct (RawCompress_spec arch_k8 input mem) as (mem' & len & -> & _ & _ & _ & Hg & Hmean); [done..|]. cbn [mbind option_bind].
  exists mem', len. split_and!; [done..|]. unfold snappy_uncompressed_length. by rewrite Hg.
Qed.

Lemma snappy_uncompress_status scratch data mem :
  bytes data -> Z.of_nat (length data) < 0x1_0000_0000 -> bytes scratch -> length scratch = 5%nat -> bytes mem ->
  exists status mem' len, snappy_uncompress scratch data mem (Z.of_nat (length mem)) = Some (status, mem', len)
    /\ status = match GetUncompressedLength data with
                | None => SNAPPY_INVALID_INPUT
                | Some n => if Z.of_nat (length mem) <? n then SNAPPY_BUFFER_TOO_SMALL
                            else if meaning data then SNAPPY_OK else SNAPPY_INVALID_INPUT
                end
    /\ (status = SNAPPY_OK -> meaning data = Some (take (Z.to_nat len) mem')).
Proof.
  intros Hb Hl Hbs Hls Hm. unfold snappy_uncompress.
  destruct (GetUncompressedLength data) as [n|] eqn:E; [|by do 3 eexists].
  destruct (Z.ltb_spec (Z.of_nat (length mem)) n); [by do 3 eexists|].
  assert (exists l, GetVarint32Ptr data = Some (n, l)) as [l Hg].
  { unfold GetUncompressedLength in E. destruct (Parse32WithLimit data) as [[n' l]|] eqn:Ep; [|done]. injection E as ->. exists l. by apply Parse32_Get. }
  unfold RawUncompress. destruct (RawUncompress_Source_spec scratch {| left_bytes := data |} mem) as (r' & mem' & -> & Hr); [done..| |].
  { intros n1 l1 E1. cbn in E1. rewrite Hg in E1. injection E1 as <- <-. lia. }
  change (contents {| left_bytes := data |}) with data in *. cbn [mbind option_bind]. destruct (meaning data) as [out|] eqn:Em.
  - rewrite bool_decide_eq_true_2 by done. do 3 eexists. split; [done|]. split; [done|]. intros _. destruct (Hr out eq_refl) as ([t ->] & _ & _).
    pose proof (meaning_length _ _ _ _ Hg Em) as ->. by rewrite Nat2Z.id, take_app_length.
  - rewrite bool_decide_eq_false_2 by apply is_Some_None. by do 3 eexists.
Qed.

(** The C interface, with the size of each buffer as its length: no call has an access
    outside a buffer, and the status says what happened.  A buffer that is too small is
    refused and left alone; text without a length or without a meaning is invalid; in the
    other cases the call succeeds, and the buffer holds the compressed or decompressed text. *)
Theorem c_interface_status (arch_k8 : bool) (scratch input data mem : list Z) :
  let N := Z.of_nat (length input) in
  bytes input -> N < 0x1_0000_0000 -> bytes data -> Z.of_nat (length data) < 0x1_0000_0000 ->
  bytes scratch -> length scratch = 5%nat -> bytes mem ->
  (if Z.of_nat (length mem) <? MaxCompressedLength N
   then snappy_compress arch_k8 input mem (Z.of_nat (length mem)) = Some (SNAPPY_BUFFER_TOO_SMALL, mem, Z.of_nat (length mem))
   else exists mem' len, snappy_compress arch_k8 input mem (Z.of_nat (length mem)) = Some (SNAPPY_OK, mem', Z.of_nat len)
     /\ meaning (take len mem') = Some input /\ snappy_uncompressed_length (take len mem') = (SNAPPY_OK, Some N))
  /\ (exists status mem' len, snappy_uncompress scratch data mem (Z.of_nat (length mem)) = Some (status, mem', len)
     /\ status = match GetUncompressedLength data with
                 | None => SNAPPY_INVALID_INPUT
                 | Some n => if Z.of_nat (length mem) <? n then SNAPPY_BUFFER_TOO_SMALL
                             else if meaning data then SNAPPY_OK else SNAPPY_INVALID_INPUT
                 end
     /\ (status = SNAPPY_OK -> meaning data = Some (take (Z.to_nat len) mem')))
  /\ snappy_validate_compressed_buffer scratch data = Some (if meaning data then SNAPPY_OK else SNAPPY_INVALID_INPUT).
Proof.
  intros N Hb HN Hd Hdl Hs H5 Hm. split; [by apply snappy_compress_status|]. split; [by apply snappy_uncompress_status|].
  unfold snappy_validate_compressed_buffer. rewrite IsValid_spec by done. cbn [mbind option_bind]. f_equal.
  destruct (meaning data) as [out|]; [by rewrite bool_decide_eq_true_2 by done|]. by rewrite bool_decide_eq_false_2 by apply is_Some_None.
Qed.

Lemma c_interface_status_witness :
  snappy_compress true [1; 2; 3] (replicate 34 0) 34 = Some (SNAPPY_BUFFER_TOO_SMALL, replicate 34 0, 34)
  /\ snappy_validate_compressed_buffer (replicate 5 0) [2; 0; 97; 5; 1] = Some SNAPPY_INVALID_INPUT.
Proof.
  destruct (c_interface_status true (replicate 5 0) [1; 2; 3] [2; 0; 97; 5; 1] (replicate 34 0)) as (H1 & _ & H2).
  - byte_list.
  - reflexivity.
  - byte_list.
  - reflexivity.
  - apply bytes_replicate.
  - reflexivity.
  - apply bytes_replicate.
  - split; [exact H1|exact H2].
Defined.
