(* ===== verification/Merger.v ===== *)
(** * Iterators and their merge: include/leveldb/iterator.h, table/merger.cc

    What an iterator over sorted entries promises (classes [InternalIterator] and
    [IteratorLaws]): where it stands in a list of entries after each call.  The merging
    iterator is written as in merger.cc, for children of any kind, and keeps the promise
    for the sorted union of their entries, in both directions and whenever the direction
    changes. *)
From stdpp Require Import base tactics numbers option list sorting sets.
From S2P Require Import Prelude Coding DbFormat SkipList TableBlock.
Open Scope Z_scope.

(** ** Iterators *)

(** [None] is a call that the code forbids by an assertion. *)
Class InternalIterator (I : Type) := {
  it_Valid : I -> bool;
  it_key : I -> option (list Z);
  it_value : I -> option (list Z);
  it_SeekToFirst : I -> option I;
  it_SeekToLast : I -> option I;
  it_Seek : list Z -> I -> option I;
  it_Next : I -> option I;
  it_Prev : I -> option I }.

Abbreviation entry := (list Z * list Z)%type.

(** The place [n] of a list, or none behind its end; the place before [n]. *)
Definition at_from (es : list entry) (n : nat) : option nat := if (n <? length es)%nat then Some n else None.
Definition at_before (n : nat) : option nat := match n with O => None | S m => Some m end.

(** How many entries satisfy a test. *)
Definition cnt (cut : entry -> bool) (es : list entry) : nat := length (List.filter cut es).

Section laws.
Context (compare_ : list Z -> list Z -> Z).

Definition is_lt (k : list Z) (e : entry) : bool := compare_ (fst e) k <? 0.
Definition is_le (k : list Z) (e : entry) : bool := compare_ (fst e) k <=? 0.
Definition entry_lt (x y : entry) : Prop := compare_ (fst x) (fst y) < 0.

(** [stands it es p]: the iterator goes over [es] and is at the place [p]. *)
Class IteratorLaws (I : Type) `{InternalIterator I} := {
  stands : I -> list entry -> option nat -> Prop;
  stands_Valid it es p : stands it es p -> it_Valid it = bool_decide (is_Some p);
  stands_at it es n : stands it es (Some n) -> exists e, es !! n = Some e /\ it_key it = Some (fst e) /\ it_value it = Some (snd e);
  SeekToFirst_stands it es p : stands it es p -> exists it', it_SeekToFirst it = Some it' /\ stands it' es (at_from es 0);
  SeekToLast_stands it es p : stands it es p -> exists it', it_SeekToLast it = Some it' /\ stands it' es (at_before (length es));
  Seek_stands k it es p : stands it es p -> exists it', it_Seek k it = Some it' /\ stands it' es (at_from es (cnt (is_lt k) es));
  Next_stands it es n : stands it es (Some n) -> exists it', it_Next it = Some it' /\ stands it' es (at_from es (S n));
  Prev_stands it es n : stands it es (Some n) -> exists it', it_Prev it = Some it' /\ stands it' es (at_before n) }.
End laws.
Arguments stands {_ _ _ _} _ _ _.

(** ** A list with a place in it *)

Record Cursor := { cur_entries : list entry; cur_at : option nat }.
Section cursor.
Context (compare_ : list Z -> list Z -> Z).
Definition cur_move (p : option nat) (c : Cursor) : Cursor := {| cur_entries := cur_entries c; cur_at := p |}.
Definition cur_entry (c : Cursor) : option entry := n ← cur_at c; cur_entries c !! n.
Definition Cursor_Iterator : InternalIterator Cursor := {|
  it_Valid c := bool_decide (is_Some (cur_at c));
  it_key c := fst <$> cur_entry c;
  it_value c := snd <$> cur_entry c;
  it_SeekToFirst c := Some (cur_move (at_from (cur_entries c) 0) c);
  it_SeekToLast c := Some (cur_move (at_before (length (cur_entries c))) c);
  it_Seek k c := Some (cur_move (at_from (cur_entries c) (cnt (is_lt compare_ k) (cur_entries c))) c);
  it_Next c := n ← cur_at c; Some (cur_move (at_from (cur_entries c) (S n)) c);
  it_Prev c := n ← cur_at c; Some (cur_move (at_before n) c) |}.
Definition cur_stands (c : Cursor) (es : list entry) (p : option nat) : Prop :=
  cur_entries c = es /\ cur_at c = p /\ forall n, p = Some n -> (n < length es)%nat.
End cursor.

Lemma at_from_bound es n m : at_from es n = Some m -> (m < length es)%nat.
Proof. unfold at_from. destruct (Nat.ltb_spec n (length es)); [|done]. by intros [= <-]. Qed.
Lemma at_from_lt es n : (n < length es)%nat -> at_from es n = Some n.
Proof. intros H. unfold at_from. by rewrite (proj2 (Nat.ltb_lt _ _) H). Qed.
Lemma at_from_ge es n : (length es <= n)%nat -> at_from es n = None.
Proof. intros H. unfold at_from. by rewrite (proj2 (Nat.ltb_ge _ _) H). Qed.
Lemma at_before_Some n m : at_before n = Some m -> n = S m.
Proof. destruct n; [done|]. by intros [= ->]. Qed.

Program Definition Cursor_laws compare_ : @IteratorLaws compare_ Cursor (Cursor_Iterator compare_) :=
  {| stands := cur_stands |}.
Next Obligation. by intros cmp c es p (_ & <- & _). Qed.
Next Obligation.
  intros cmp c es n (<- & E & Hn). destruct (lookup_lt_is_Some_2 (cur_entries c) n (Hn n eq_refl)) as [e He].
  exists e. cbn. unfold cur_entry. by rewrite E; cbn; rewrite He.
Qed.
Next Obligation. intros cmp c es p (<- & _ & _). eexists. split; [done|]. split_and!; [done..|]. intros n. apply at_from_bound. Qed.
Next Obligation.
  intros cmp c es p (<- & _ & _). eexists. split; [done|]. split_and!; [done..|]. cbn. intros n Hn%at_before_Some. lia.
Qed.
Next Obligation. intros cmp k c es p (<- & _ & _). eexists. split; [done|]. split_and!; [done..|]. intros n. apply at_from_bound. Qed.
Next Obligation.
  intros cmp c es n (<- & E & _). cbn. rewrite E. eexists. split; [done|]. split_and!; [done..|]. intros m. apply at_from_bound.
Qed.
Next Obligation.
  intros cmp c es n (<- & E & Hn). cbn. rewrite E. eexists. split; [done|]. split_and!; [done..|].
  intros m Hm%at_before_Some. specialize (Hn n eq_refl). lia.
Qed.

(** ** The merging iterator *)

Inductive Direction := kForward | kReverse.
Record MergingIterator (I : Type) := { children_ : list I; current_ : option nat; direction_ : Direction }.
Arguments children_ {_} _.
Arguments current_ {_} _.
Arguments direction_ {_} _.

Section merging.
Context {I : Type} `{InternalIterator I} (compare_ : list Z -> list Z -> Z).

Definition new_MergingIterator (children : list I) : MergingIterator I :=
  {| children_ := children; current_ := None; direction_ := kForward |}.

(** The loops of [FindSmallest] and [FindLargest], over the children with their numbers; [better]
    is the test for a new [smallest] or [largest]. *)
Fixpoint Find (better : list Z -> list Z -> bool) (l : list (nat * I)) (best : option (nat * I)) : option (option nat) :=
  match l with
  | [] => Some (fst <$> best)
  | (i, child) :: l' =>
      if it_Valid child then
        match best with
        | None => Find better l' (Some (i, child))
        | Some (_, b) =>
            k ← it_key child;
            bk ← it_key b;
            Find better l' (if better k bk then Some (i, child) else best)
        end
      else Find better l' best
  end.
Definition FindSmallest (children : list I) (d : Direction) : option (MergingIterator I) :=
  current ← Find (fun k smallest => compare_ k smallest <? 0) (imap pair children) None;
  Some {| children_ := children; current_ := current; direction_ := d |}.
Definition FindLargest (children : list I) (d : Direction) : option (MergingIterator I) :=
  current ← Find (fun k largest => 0 <? compare_ k largest) (reverse (imap pair children)) None;
  Some {| children_ := children; current_ := current; direction_ := d |}.

Definition Merging_Valid (mi : MergingIterator I) : bool := bool_decide (is_Some (current_ mi)).
Definition current_child (mi : MergingIterator I) : option I := c ← current_ mi; children_ mi !! c.
Definition Merging_key (mi : MergingIterator I) : option (list Z) := child ← current_child mi; it_key child.
Definition Merging_value (mi : MergingIterator I) : option (list Z) := child ← current_child mi; it_value child.

Definition each_child (f : nat -> I -> option I) (children : list I) : option (list I) :=
  mapM (fun '(i, child) => f i child) (imap pair children).

Definition Merging_SeekToFirst (mi : MergingIterator I) : option (MergingIterator I) :=
  children ← each_child (fun _ child => it_SeekToFirst child) (children_ mi);
  FindSmallest children kForward.
Definition Merging_SeekToLast (mi : MergingIterator I) : option (MergingIterator I) :=
  children ← each_child (fun _ child => it_SeekToLast child) (children_ mi);
  FindLargest children kReverse.
Definition Merging_Seek (target : list Z) (mi : MergingIterator I) : option (MergingIterator I) :=
  children ← each_child (fun _ child => it_Seek target child) (children_ mi);
  FindSmallest children kForward.

(** A child that is not the current one is put behind the key, or before it. *)
Definition child_after (key : list Z) (child : I) : option I :=
  child ← it_Seek key child;
  if it_Valid child then
    k ← it_key child;
    if compare_ key k =? 0 then it_Next child else Some child
  else Some child.
Definition child_before (key : list Z) (child : I) : option I :=
  child ← it_Seek key child;
  if it_Valid child then it_Prev child else it_SeekToLast child.

Definition Merging_Next (mi : MergingIterator I) : option (MergingIterator I) :=
  c ← current_ mi;
  key ← Merging_key mi;
  children ←
    (match direction_ mi with
     | kForward => Some (children_ mi)
     | kReverse => each_child (fun i child => if (i =? c)%nat then Some child else child_after key child) (children_ mi)
     end);
  child ← children !! c;
  child ← it_Next child;
  FindSmallest (<[c := child]> children) kForward.
Definition Merging_Prev (mi : MergingIterator I) : option (MergingIterator I) :=
  c ← current_ mi;
  key ← Merging_key mi;
  children ←
    (match direction_ mi with
     | kReverse => Some (children_ mi)
     | kForward => each_child (fun i child => if (i =? c)%nat then Some child else child_before key child) (children_ mi)
     end);
  child ← children !! c;
  child ← it_Prev child;
  FindLargest (<[c := child]> children) kReverse.

Definition Merging_Iterator : InternalIterator (MergingIterator I) := {|
  it_Valid := Merging_Valid; it_key := Merging_key; it_value := Merging_value;
  it_SeekToFirst := Merging_SeekToFirst; it_SeekToLast := Merging_SeekToLast; it_Seek := Merging_Seek;
  it_Next := Merging_Next; it_Prev := Merging_Prev |}.
End merging.

(** ** Cuts of sorted lists *)

Lemma elem_of_filter_b cut (es : list entry) x : x ∈ List.filter cut es <-> cut x = true /\ x ∈ es.
Proof. rewrite !list_elem_of_In, filter_In. tauto. Qed.
Lemma none_left cut es : (length es <= cnt cut es)%nat <-> forall y, y ∈ es -> cut y = true.
Proof.
  unfold cnt. induction es as [|x es IH]; cbn [List.filter length]; [split; [set_solver|cbn; lia]|].
  pose proof (List.filter_length_le cut es) as Hle. destruct (cut x) eqn:E; cbn [length].
  - rewrite <- Nat.succ_le_mono, IH. set_solver.
  - split; [lia|]. intros H. specialize (H x ltac:(set_solver)). congruence.
Qed.
Lemma none_cut cut es : cnt cut es = 0%nat <-> forall y, y ∈ es -> cut y = false.
Proof.
  unfold cnt. induction es as [|x es IH]; cbn [List.filter length]; [split; [set_solver|done]|].
  destruct (cut x) eqn:E; cbn [length].
  - split; [done|]. intros H. specialize (H x ltac:(set_solver)). congruence.
  - rewrite IH. set_solver.
Qed.
Lemma cnt_ext cut cut' es : (forall y, y ∈ es -> cut y = cut' y) -> cnt cut es = cnt cut' es.
Proof.
  unfold cnt. induction es as [|x es IH]; intros H; [done|]. cbn. rewrite (H x) by set_solver.
  destruct (cut' x); cbn [length]; rewrite IH by set_solver; done.
Qed.
Lemma cnt_all es : cnt (fun _ => true) es = length es.
Proof. unfold cnt. induction es; cbn; auto. Qed.
Lemma cnt_none es : cnt (fun _ => false) es = 0%nat.
Proof. by apply none_cut. Qed.
Lemma cnt_app cut es es' : cnt cut (es ++ es') = (cnt cut es + cnt cut es')%nat.
Proof. unfold cnt. by rewrite List.filter_app, length_app. Qed.

Section cuts.
Context (compare_ : list Z -> list Z -> Z) `{Ord : !KeyOrder compare_ (fun _ => True)}.
Notation lt := (entry_lt compare_).
Notation sorted := (StronglySorted lt).

Lemma entry_lt_trans x y z : lt x y -> lt y z -> lt x z.
Proof. unfold entry_lt. by apply compare_trans. Qed.
Lemma entry_lt_irrefl x : ~ lt x x.
Proof. unfold entry_lt. intros H. pose proof (proj1 (compare_anti (fst x) (fst x) I I) H). lia. Qed.
Lemma entry_lt_asym x y : lt x y -> ~ lt y x.
Proof. intros H1 H2. by apply (entry_lt_irrefl x), (entry_lt_trans x y x). Qed.
Lemma not_le_lt x y : ~ compare_ (fst x) (fst y) <= 0 -> lt y x.
Proof. intros H. unfold entry_lt. apply compare_anti; [done..|]. lia. Qed.

(** What is cut off is the front. *)
Definition front (cut : entry -> bool) : Prop := forall x y, cut y = true -> lt x y -> cut x = true.

Lemma front_split cut es : front cut -> sorted es -> es = List.filter cut es ++ List.filter (fun x => negb (cut x)) es.
Proof.
  intros Hc Hs. induction Hs as [|x es Hs IH Hx]; [done|]. cbn [List.filter]. destruct (cut x) eqn:E; cbn [negb app]; [by f_equal|].
  assert (List.filter cut es = []) as E'.
  { rewrite Forall_forall in Hx. clear IH Hs. induction es as [|y es IH]; [done|]. cbn. destruct (cut y) eqn:Ey.
    - rewrite (Hc x y Ey (Hx y ltac:(set_solver))) in E. done.
    - apply IH. set_solver. }
  rewrite E' in IH |- *. cbn [app] in *. by f_equal.
Qed.


(** The first entry that is left. *)
Lemma first_left cut es x :
  front cut -> sorted es -> es !! cnt cut es = Some x <->
  x ∈ es /\ cut x = false /\ forall y, y ∈ es -> cut y = false -> x = y \/ lt x y.
Proof.
  intros Hc Hs. pose proof (front_split cut es Hc Hs) as E. unfold cnt.
  assert (es !! length (List.filter cut es) = head (List.filter (fun x => negb (cut x)) es)) as ->.
  { transitivity ((List.filter cut es ++ List.filter (fun x => negb (cut x)) es) !! length (List.filter cut es)); [by rewrite <- E|].
    rewrite lookup_app_r, Nat.sub_diag by done. by destruct (List.filter (fun x => negb (cut x)) es). }
  assert (sorted (List.filter (fun x => negb (cut x)) es)) as Hs' by (rewrite E in Hs; by apply StronglySorted_app in Hs as (_ & _ & ?)).
  assert (forall y, y ∈ List.filter (fun x => negb (cut x)) es <-> cut y = false /\ y ∈ es) as Hin
    by (intros y; rewrite elem_of_filter_b, negb_true_iff; done).
  revert Hs' Hin. generalize (List.filter (fun x => negb (cut x)) es). intros l Hl Hin. destruct l as [|z l]; cbn [head].
  - split; [done|]. intros (H1 & H2 & _). pose proof (proj2 (Hin x) (conj H2 H1)) as Hx. by apply elem_of_nil in Hx.
  - apply StronglySorted_inv in Hl as [_ Hl]. rewrite Forall_forall in Hl. split.
    + intros [= ->]. destruct (proj1 (Hin x) ltac:(set_solver)) as [H1 H2]. split_and!; [done..|].
      intros y Hy Ey. pose proof (proj2 (Hin y) (conj Ey Hy)) as [->|Hy']%elem_of_cons; auto.
    + intros (H1 & H2 & H3). f_equal. pose proof (proj2 (Hin x) (conj H2 H1)) as [->|Hx]%elem_of_cons; [done|].
      destruct (proj1 (Hin z) ltac:(set_solver)) as [Hz1 Hz2]. destruct (H3 z Hz2 Hz1) as [->|Hlt]; [done|].
      by destruct (entry_lt_asym _ _ Hlt (Hl x Hx)).
Qed.

(** The last entry that is cut off. *)
Lemma last_cut cut es n x :
  front cut -> sorted es -> cnt cut es = S n -> es !! n = Some x <->
  x ∈ es /\ cut x = true /\ forall y, y ∈ es -> cut y = true -> x = y \/ lt y x.
Proof.
  intros Hc Hs. pose proof (front_split cut es Hc Hs) as E. unfold cnt. intros Hn.
  assert (es !! n = last (List.filter cut es)) as ->.
  { transitivity ((List.filter cut es ++ List.filter (fun x => negb (cut x)) es) !! n); [by rewrite <- E|].
    by rewrite lookup_app_l, last_lookup, Hn by lia. }
  assert (sorted (List.filter cut es)) as Hs' by (rewrite E in Hs; by apply StronglySorted_app in Hs as (_ & ? & _)).
  pose proof (elem_of_filter_b cut es) as Hin. revert Hs' Hin Hn. generalize (List.filter cut es). intros l Hl Hin Hn.
  destruct (exists_last (l := l)) as (l' & z & ->); [by destruct l|]. rewrite last_snoc. clear Hn.
  apply StronglySorted_app in Hl as (Hl & _ & _).
  assert (forall y, y ∈ l' -> lt y z) as Hz by (intros y Hy; apply Hl; set_solver). split.
  - intros [= ->]. destruct (proj1 (Hin x) ltac:(set_solver)) as [H1 H2]. split_and!; [done..|].
    intros y Hy Ey. pose proof (proj2 (Hin y) (conj Ey Hy)) as [Hy'|Hy']%elem_of_app; [auto|]. apply list_elem_of_singleton in Hy'. auto.
  - intros (H1 & H2 & H3). f_equal. pose proof (proj2 (Hin x) (conj H2 H1)) as [Hx|Hx]%elem_of_app.
    + destruct (proj1 (Hin z) ltac:(set_solver)) as [Hz1 Hz2]. destruct (H3 z Hz2 Hz1) as [->|Hlt]; [done|].
      by destruct (entry_lt_asym _ _ Hlt (Hz x Hx)).
    + by apply list_elem_of_singleton in Hx.
Qed.

Lemma front_lt k : front (is_lt compare_ k).
Proof.
  intros x y Hy Hxy. unfold is_lt in *. apply Z.ltb_lt in Hy. apply Z.ltb_lt. by apply (compare_trans _ (fst y)).
Qed.
Lemma front_le k : front (is_le compare_ k).
Proof.
  intros x y Hy Hxy. unfold is_le in *. apply Z.leb_le in Hy. apply Z.leb_le.
  destruct (Z.le_gt_cases (compare_ (fst x) k) 0) as [|Hgt]; [done|]. exfalso.
  apply compare_anti in Hgt; [|done..]. pose proof (compare_trans _ _ _ I I I Hgt Hxy) as Hky.
  apply compare_anti in Hky; [lia|done..].
Qed.

(** In a sorted list entries with the same key are the same. *)
Lemma sorted_same es x y : sorted es -> x ∈ es -> y ∈ es -> compare_ (fst x) (fst y) = 0 -> x = y.
Proof.
  intros Hs Hx Hy E. induction Hs as [|z es Hs IH Hz]; [set_solver|]. rewrite Forall_forall in Hz.
  assert (~ lt x y) as H1 by (unfold entry_lt; lia).
  assert (~ lt y x) as H2 by (unfold entry_lt; rewrite (compare_anti (fst y) (fst x)) by done; lia).
  apply elem_of_cons in Hx as [->|Hx], Hy as [->|Hy]; auto; exfalso; auto.
Qed.
Lemma cnt_places es n x :
  sorted es -> es !! n = Some x -> cnt (is_lt compare_ (fst x)) es = n /\ cnt (is_le compare_ (fst x)) es = S n.
Proof.
  intros Hs Hn. pose proof (lookup_lt_Some _ _ _ Hn) as Hl.
  rewrite <- (take_drop n es) in Hs |- *. rewrite (drop_S _ _ _ Hn) in Hs |- *. rewrite !cnt_app.
  apply StronglySorted_app in Hs as (Hlt & _ & Hs). apply StronglySorted_inv in Hs as [_ Hgt]. rewrite Forall_forall in Hgt.
  assert (compare_ (fst x) (fst x) = 0) as Hx.
  { pose proof (entry_lt_irrefl x) as Hi. unfold entry_lt in Hi. pose proof (proj2 (compare_anti (fst x) (fst x) I I)). lia. }
  assert (forall f, (forall y, y ∈ take n es -> f y = true) -> cnt f (take n es) = n) as Hfull.
  { intros f Hf. rewrite (cnt_ext f (fun _ => true)) by auto. rewrite cnt_all, length_take. lia. }
  assert (forall y, y ∈ drop (S n) es -> ~ compare_ (fst y) (fst x) <= 0) as Hbig.
  { intros y Hy Hle. specialize (Hgt y Hy). unfold entry_lt in Hgt. apply compare_anti in Hgt; [lia|done..]. }
  assert (forall y, y ∈ take n es -> compare_ (fst y) (fst x) < 0) as Hsmall by (intros y Hy; apply Hlt; set_solver).
  unfold is_lt, is_le. split.
  - rewrite Hfull by (intros y Hy; apply Z.ltb_lt; auto). unfold cnt at 1. cbn. rewrite Hx. cbn.
    pose proof (proj2 (none_cut (fun e => compare_ (fst e) (fst x) <? 0) (drop (S n) es))) as H0. unfold cnt in H0. rewrite H0; [lia|].
    intros y Hy. apply Z.ltb_ge. specialize (Hbig y Hy). lia.
  - rewrite Hfull by (intros y Hy; apply Z.leb_le; specialize (Hsmall y Hy); lia). unfold cnt at 1. cbn. rewrite Hx. cbn.
    pose proof (proj2 (none_cut (fun e => compare_ (fst e) (fst x) <=? 0) (drop (S n) es))) as H0. unfold cnt in H0. rewrite H0; [lia|].
    intros y Hy. apply Z.leb_gt. specialize (Hbig y Hy). lia.
Qed.
End cuts.

(** ** The merging iterator *)

Section merging_proofs.
Context {I : Type} (compare_ : list Z -> list Z -> Z) `{Ord : !KeyOrder compare_ (fun _ => True)}.
Context `{Itr : InternalIterator I} `{Laws : !IteratorLaws compare_ I}.
Notation lt := (entry_lt compare_).
Notation sorted := (StronglySorted lt).
Implicit Types (children : list I) (ess : list (list entry)) (es e : list entry).

(** Every child goes over its list and is at the place that [P] gives. *)
Definition all_stand children ess (P : nat -> list entry -> option nat) : Prop :=
  length children = length ess
  /\ forall i child e, children !! i = Some child -> ess !! i = Some e -> stands child e (P i e).

Lemma each_child_stand f children ess P P' :
  all_stand children ess P ->
  (forall i child e, ess !! i = Some e -> stands child e (P i e) -> exists child', f i child = Some child' /\ stands child' e (P' i e)) ->
  exists children', each_child f children = Some children' /\ all_stand children' ess P'.
Proof.
  intros [Hl Hc] Hf. unfold each_child.
  assert (forall i child, children !! i = Some child -> exists child' e, f i child = Some child' /\ ess !! i = Some e /\ stands child' e (P' i e)) as Hs.
  { intros i child Hi. destruct (lookup_lt_is_Some_2 ess i) as [e He]; [rewrite <- Hl; by eapply lookup_lt_Some|].
    destruct (Hf i child e He) as (child' & E & Hst); [by apply Hc|]. by exists child', e. }
  destruct (mapM (fun '(i, child) => f i child) (imap pair children)) as [children'|] eqn:E.
  - exists children'. split; [done|]. apply mapM_Some_1 in E. split.
    + pose proof (Forall2_length _ _ _ E) as Hl'. rewrite length_imap in Hl'. by rewrite <- Hl'.
    + intros i child' e Hi He. destruct (Forall2_lookup_r _ _ _ _ _ E Hi) as ([j child] & Hj & Ef).
      rewrite list_lookup_imap in Hj. apply fmap_Some in Hj as (ch & Hch & [= -> ->]).
      destruct (Hs i ch Hch) as (child'' & e' & E1 & E2 & E3). rewrite Ef in E1. by simplify_eq.
  - exfalso. apply eq_None_not_Some in E. apply E, mapM_is_Some_2, Forall_forall. intros [j child] Hin.
    apply list_elem_of_lookup in Hin as [i Hi]. rewrite list_lookup_imap in Hi. apply fmap_Some in Hi as (ch & Hch & [= -> ->]).
    destruct (Hs i ch Hch) as (child' & _ & E1 & _). by exists child'.
Qed.

(** [Find] returns a child whose key is not beaten. *)
Definition order (better : list Z -> list Z -> bool) : Prop :=
  (forall k, better k k = false) /\ forall a b c, better a b = true -> better b c = true -> better a c = true.
Definition keyed (l : list (nat * I)) : Prop := forall i child, (i, child) ∈ l -> it_Valid child = true -> is_Some (it_key child).
Definition best_of better (l : list (nat * I)) (best : option (nat * I)) : Prop :=
  match best with
  | None => forall i child, (i, child) ∈ l -> it_Valid child = false
  | Some (c, b) => (c, b) ∈ l /\ it_Valid b = true
      /\ forall i child k bk, (i, child) ∈ l -> it_Valid child = true -> it_key child = Some k -> it_key b = Some bk -> better k bk = false
  end.
Lemma Find_spec better l seen best :
  order better -> keyed (seen ++ l) -> best_of better seen best ->
  exists r, Find better l best = Some (fst <$> r) /\ best_of better (seen ++ l) r.
Proof.
  intros [Hirr Htr]. revert seen best. induction l as [|[i child] l IH]; intros seen best Hk Hb; cbn [Find].
  { exists best. by rewrite app_nil_r. }
  replace (seen ++ (i, child) :: l) with ((seen ++ [(i, child)]) ++ l) in * by (by rewrite <- app_assoc).
  destruct (it_Valid child) eqn:Hv.
  2: { apply IH; [done|]. destruct best as [[c b]|]; cbn in *.
       - destruct Hb as (H1 & H2 & H3). split_and!; [set_solver|done|]. intros j ch k bk [?|Hj]%elem_of_app; [eauto|].
         apply list_elem_of_singleton in Hj. simplify_eq. congruence.
       - intros j ch [?|Hj]%elem_of_app; [eauto|]. apply list_elem_of_singleton in Hj. by simplify_eq. }
  destruct (Hk i child ltac:(set_solver) Hv) as [k Ek]. destruct best as [[c b]|].
  - destruct Hb as (H1 & H2 & H3). destruct (Hk c b ltac:(set_solver) H2) as [bk Eb]. rewrite Ek, Eb. cbn [mbind option_bind].
    apply IH; [done|]. destruct (better k bk) eqn:Hbt; cbn.
    + split_and!; [set_solver|done|]. intros j ch k1 bk1 [Hj|Hj]%elem_of_app Hv1 E1 E2; simplify_eq.
      * destruct (better k1 k) eqn:E; [|done]. pose proof (Htr _ _ _ E Hbt). pose proof (H3 j ch k1 bk Hj Hv1 E1 Eb). congruence.
      * apply list_elem_of_singleton in Hj. by simplify_eq.
    + split_and!; [set_solver|done|]. intros j ch k1 bk1 [Hj|Hj]%elem_of_app Hv1 E1 E2; simplify_eq; [eauto|].
      apply list_elem_of_singleton in Hj. by simplify_eq.
  - apply IH; [done|]. cbn. split_and!; [set_solver|done|]. intros j ch k1 bk1 [Hj|Hj]%elem_of_app Hv1 E1 E2.
    + by rewrite (Hb j ch Hj) in Hv1.
    + apply list_elem_of_singleton in Hj. by simplify_eq.
Qed.

(** [es] is the sorted union of the lists of the children. *)
Record union es ess : Prop := {
  union_sorted : sorted es;
  union_parts i e : ess !! i = Some e -> sorted e;
  union_elem x : x ∈ es <-> exists i e, ess !! i = Some e /\ x ∈ e;
  union_once i j e e' x : ess !! i = Some e -> ess !! j = Some e' -> x ∈ e -> x ∈ e' -> i = j }.

(** The iterator is at [x]: going forward no child is before it, going back none behind it. *)
Definition merge_stands (mi : MergingIterator I) es (p : option nat) : Prop :=
  exists ess, union es ess /\
  match p with
  | None => current_ mi = None /\ exists P, all_stand (children_ mi) ess P
  | Some n => exists c x e, current_ mi = Some c /\ es !! n = Some x /\ ess !! c = Some e /\ x ∈ e
      /\ all_stand (children_ mi) ess
           (fun _ e => match direction_ mi with
                       | kForward => at_from e (cnt (is_lt compare_ (fst x)) e)
                       | kReverse => at_before (cnt (is_le compare_ (fst x)) e)
                       end)
  end.

Lemma all_stand_ext children ess P P' :
  all_stand children ess P -> (forall i e, ess !! i = Some e -> P i e = P' i e) -> all_stand children ess P'.
Proof. intros [Hl H] E. split; [done|]. intros i child e Hi He. rewrite <- (E i e He). by apply H. Qed.

Lemma all_stand_keyed children ess P l :
  all_stand children ess P -> (forall i child, (i, child) ∈ l <-> children !! i = Some child) -> keyed l.
Proof.
  intros [Hl H] Hin i child Hi%Hin Hv. destruct (lookup_lt_is_Some_2 ess i) as [e He]; [rewrite <- Hl; by eapply lookup_lt_Some|].
  pose proof (H i child e Hi He) as Hs. rewrite (stands_Valid _ _ _ _ Hs) in Hv. apply bool_decide_eq_true in Hv as [n En].
  rewrite En in Hs. by destruct (stands_at _ _ _ _ Hs) as (x & _ & -> & _).
Qed.
Lemma elem_of_imap_pair children i child : (i, child) ∈ imap pair children <-> children !! i = Some child.
Proof.
  rewrite list_elem_of_lookup. split.
  - intros [j Hj]. rewrite list_lookup_imap in Hj. by apply fmap_Some in Hj as (ch & Hch & [= -> ->]).
  - intros Hi. exists i. by rewrite list_lookup_imap, Hi.
Qed.

(** A child, its list and the entry it is at. *)
Lemma child_at children ess P i child e :
  all_stand children ess P -> children !! i = Some child -> ess !! i = Some e ->
  it_Valid child = bool_decide (is_Some (P i e))
  /\ forall n, P i e = Some n -> exists x, e !! n = Some x /\ it_key child = Some (fst x) /\ it_value child = Some (snd x).
Proof.
  intros [_ H] Hi He. pose proof (H i child e Hi He) as Hs. split; [by apply (stands_Valid _ _ _ _ Hs)|].
  intros n En. rewrite En in Hs. by apply (stands_at _ _ _ _ Hs).
Qed.
Lemma child_of children ess P i e : all_stand children ess P -> ess !! i = Some e -> exists child, children !! i = Some child.
Proof. intros [Hl _] He. apply lookup_lt_is_Some_2. rewrite Hl. by eapply lookup_lt_Some. Qed.
Lemma list_of children ess P i child : all_stand children ess P -> children !! i = Some child -> exists e, ess !! i = Some e.
Proof. intros [Hl _] He. apply lookup_lt_is_Some_2. rewrite <- Hl. by eapply lookup_lt_Some. Qed.

Lemma compare_self x : compare_ x x = 0.
Proof. pose proof (compare_anti x x Logic.I Logic.I). lia. Qed.
Lemma same_or_lt es x y : sorted es -> x ∈ es -> y ∈ es -> ~ compare_ (fst y) (fst x) < 0 -> x = y \/ lt x y.
Proof.
  intros Hs Hx Hy Hn. destruct (Z.eq_dec (compare_ (fst y) (fst x)) 0) as [E|E].
  - left. symmetry. by apply (sorted_same compare_ es).
  - right. unfold entry_lt. apply compare_anti; [done..|]. lia.
Qed.
Lemma lt_not x y : lt x y -> ~ compare_ (fst y) (fst x) <= 0.
Proof. unfold entry_lt. intros H%compare_anti; [lia|done..]. Qed.

Lemma FindSmallest_stands cut children es ess :
  union es ess -> front compare_ cut -> all_stand children ess (fun _ e => at_from e (cnt cut e)) ->
  exists mi, FindSmallest compare_ children kForward = Some mi /\ merge_stands mi es (at_from es (cnt cut es)).
Proof.
  intros HU Hc Hst. destruct (Find_spec (fun k sk => compare_ k sk <? 0) (imap pair children) [] None) as (r & Er & Hr).
  { split; [intros k; by rewrite compare_self|]. intros a b c ?%Z.ltb_lt ?%Z.ltb_lt. apply Z.ltb_lt. by apply (compare_trans a b c). }
  { apply (all_stand_keyed _ _ _ _ Hst). intros i child. apply elem_of_imap_pair. }
  { cbn. intros ? ? ?%elem_of_nil. done. }
  cbn [app] in Hr. unfold FindSmallest. rewrite Er. cbn [mbind option_bind]. eexists. split; [done|]. exists ess. split; [done|].
  destruct r as [[c b]|]; cbn [best_of fmap option_fmap option_map fst] in *.
  - destruct Hr as (Hb & Hv & Hbest). apply elem_of_imap_pair in Hb. destruct (list_of _ _ _ _ _ Hst Hb) as [e He].
    destruct (child_at _ _ _ _ _ _ Hst Hb He) as [Ev Ek]. rewrite Ev in Hv. apply bool_decide_eq_true in Hv as [n En].
    destruct (Ek n En) as (x & Hx & Kx & _). unfold at_from in En. destruct (Nat.ltb_spec (cnt cut e) (length e)); [|done]. injection En as <-.
    apply (first_left compare_ cut e x Hc (union_parts _ _ HU _ _ He)) in Hx as (Hxe & Hxc & _).
    assert (x ∈ es) as Hxes by (apply (union_elem _ _ HU); eauto).
    assert (forall y, y ∈ es -> cut y = false -> x = y \/ lt x y) as Hmin.
    { intros y Hy Hyc. apply (union_elem _ _ HU) in Hy as (j & ej & Hj & Hyj). destruct (child_of _ _ _ _ _ Hst Hj) as [ch Hch].
      destruct (child_at _ _ _ _ _ _ Hst Hch Hj) as [Evj Ekj]. assert (cnt cut ej < length ej)%nat as Hlt.
      { apply Nat.lt_nge. intros Hge. by rewrite (proj1 (none_left cut ej) Hge y Hyj) in Hyc. }
      rewrite (at_from_lt _ _ Hlt) in Evj, Ekj. destruct (Ekj _ eq_refl) as (z & Hz & Kz & _).
      apply (first_left compare_ cut ej z Hc (union_parts _ _ HU _ _ Hj)) in Hz as (Hzj & _ & Hzmin).
      pose proof (Hbest j ch (fst z) (fst x) (proj2 (elem_of_imap_pair _ _ _) Hch) Evj Kz Kx) as Hzx. apply Z.ltb_ge in Hzx.
      assert (z ∈ es) as Hzes by (apply (union_elem _ _ HU); eauto).
      destruct (same_or_lt es x z (union_sorted _ _ HU) Hxes Hzes ltac:(lia)) as [->|Hl1]; [auto|].
      destruct (Hzmin y Hyj Hyc) as [->|Hl2]; [auto|]. right. by apply (entry_lt_trans compare_ x z y). }
    pose proof (proj2 (first_left compare_ cut es x Hc (union_sorted _ _ HU)) (conj Hxes (conj Hxc Hmin))) as Hplace.
    rewrite (at_from_lt es) by (by eapply lookup_lt_Some). exists c, x, e. split_and!; [done..|]. cbn [children_ direction_].
    apply (all_stand_ext _ _ _ _ Hst). intros i ei Hi. f_equal. apply cnt_ext. intros y Hy.
    assert (y ∈ es) as Hyes by (apply (union_elem _ _ HU); eauto). unfold is_lt. destruct (cut y) eqn:Hcy; symmetry.
    + apply Z.ltb_lt. destruct (Z.lt_ge_cases (compare_ (fst y) (fst x)) 0) as [|Hge]; [done|]. exfalso.
      destruct (same_or_lt es x y (union_sorted _ _ HU) Hxes Hyes ltac:(lia)) as [->|Hl]; [congruence|]. by rewrite (Hc x y Hcy Hl) in Hxc.
    + apply Z.ltb_ge. destruct (Hmin y Hyes Hcy) as [->|Hl%lt_not]; [by rewrite compare_self|lia].
  - rewrite at_from_ge; [by split; [|eexists]|]. apply none_left. intros y Hy. apply (union_elem _ _ HU) in Hy as (j & ej & Hj & Hyj).
    destruct (child_of _ _ _ _ _ Hst Hj) as [ch Hch]. destruct (child_at _ _ _ _ _ _ Hst Hch Hj) as [Evj _].
    rewrite (Hr j ch (proj2 (elem_of_imap_pair _ _ _) Hch)) in Evj. symmetry in Evj. apply bool_decide_eq_false in Evj.
    apply (proj1 (none_left cut ej)); [|done]. apply Nat.nlt_ge. intros Hlt. apply Evj. rewrite at_from_lt by done. by eexists.
Qed.

Lemma FindLargest_stands cut children es ess :
  union es ess -> front compare_ cut -> all_stand children ess (fun _ e => at_before (cnt cut e)) ->
  exists mi, FindLargest compare_ children kReverse = Some mi /\ merge_stands mi es (at_before (cnt cut es)).
Proof.
  intros HU Hc Hst. assert (forall i child, (i, child) ∈ reverse (imap pair children) <-> children !! i = Some child) as Hin
    by (intros; rewrite elem_of_reverse; apply elem_of_imap_pair).
  destruct (Find_spec (fun k sk => 0 <? compare_ k sk) (reverse (imap pair children)) [] None) as (r & Er & Hr).
  { split; [intros k; by rewrite compare_self|]. intros a b c ?%Z.ltb_lt ?%Z.ltb_lt. apply Z.ltb_lt.
    apply compare_anti; [done..|]. apply (compare_trans c b a); [done..| |]; by apply compare_anti. }
  { by apply (all_stand_keyed _ _ _ _ Hst). }
  { cbn. intros ? ? ?%elem_of_nil. done. }
  cbn [app] in Hr. unfold FindLargest. rewrite Er. cbn [mbind option_bind]. eexists. split; [done|]. exists ess. split; [done|].
  destruct r as [[c b]|]; cbn [best_of fmap option_fmap option_map fst] in *.
  - destruct Hr as (Hb & Hv & Hbest). apply Hin in Hb. destruct (list_of _ _ _ _ _ Hst Hb) as [e He].
    destruct (child_at _ _ _ _ _ _ Hst Hb He) as [Ev Ek]. rewrite Ev in Hv. apply bool_decide_eq_true in Hv as [n En].
    destruct (Ek n En) as (x & Hx & Kx & _). apply at_before_Some in En.
    apply (last_cut compare_ cut e n x Hc (union_parts _ _ HU _ _ He) En) in Hx as (Hxe & Hxc & _).
    assert (x ∈ es) as Hxes by (apply (union_elem _ _ HU); eauto).
    assert (forall y, y ∈ es -> cut y = true -> x = y \/ lt y x) as Hmax.
    { intros y Hy Hyc. apply (union_elem _ _ HU) in Hy as (j & ej & Hj & Hyj). destruct (child_of _ _ _ _ _ Hst Hj) as [ch Hch].
      destruct (child_at _ _ _ _ _ _ Hst Hch Hj) as [Evj Ekj]. destruct (cnt cut ej) as [|m] eqn:Em.
      { by rewrite (proj1 (none_cut cut ej) Em y Hyj) in Hyc. }
      destruct (Ekj _ eq_refl) as (z & Hz & Kz & _).
      apply (last_cut compare_ cut ej m z Hc (union_parts _ _ HU _ _ Hj) Em) in Hz as (Hzj & _ & Hzmax).
      pose proof (Hbest j ch (fst z) (fst x) (proj2 (Hin _ _) Hch) Evj Kz Kx) as Hzx. apply Z.ltb_ge in Hzx.
      assert (z ∈ es) as Hzes by (apply (union_elem _ _ HU); eauto).
      destruct (same_or_lt es z x (union_sorted _ _ HU) Hzes Hxes) as [->|Hl1]; [rewrite (compare_anti (fst x)) by done; lia|auto|].
      destruct (Hzmax y Hyj Hyc) as [->|Hl2]; [auto|]. right. by apply (entry_lt_trans compare_ y z x). }
    destruct (cnt cut es) as [|m] eqn:Em; [by rewrite (proj1 (none_cut cut es) Em x Hxes) in Hxc|].
    pose proof (proj2 (last_cut compare_ cut es m x Hc (union_sorted _ _ HU) Em) (conj Hxes (conj Hxc Hmax))) as Hplace.
    exists c, x, e. split_and!; [done..|]. cbn [children_ direction_].
    apply (all_stand_ext _ _ _ _ Hst). intros i ei Hi. f_equal. apply cnt_ext. intros y Hy.
    assert (y ∈ es) as Hyes by (apply (union_elem _ _ HU); eauto). unfold is_le. destruct (cut y) eqn:Hcy; symmetry.
    + apply Z.leb_le. destruct (Hmax y Hyes Hcy) as [->|Hl]; [by rewrite compare_self|unfold entry_lt in Hl; lia].
    + apply Z.leb_gt. destruct (Z.le_gt_cases (compare_ (fst y) (fst x)) 0) as [Hle|]; [|done]. exfalso.
      destruct (same_or_lt es y x (union_sorted _ _ HU) Hyes Hxes) as [->|Hl]; [rewrite (compare_anti (fst x)) by done; lia|congruence|].
      by rewrite (Hc y x Hxc Hl) in Hcy.
  - assert (cnt cut es = 0%nat) as ->; [|by split; [|eexists]]. apply none_cut. intros y Hy. apply (union_elem _ _ HU) in Hy as (j & ej & Hj & Hyj).
    destruct (child_of _ _ _ _ _ Hst Hj) as [ch Hch]. destruct (child_at _ _ _ _ _ _ Hst Hch Hj) as [Evj _].
    rewrite (Hr j ch (proj2 (Hin _ _) Hch)) in Evj. symmetry in Evj. apply bool_decide_eq_false in Evj.
    apply (proj1 (none_cut cut ej)); [|done]. destruct (cnt cut ej) as [|m]; [done|]. exfalso. apply Evj. by eexists.
Qed.

(** *** The calls *)

Lemma merge_some mi es p : merge_stands mi es p -> exists ess P, union es ess /\ all_stand (children_ mi) ess P.
Proof. intros (ess & HU & H). exists ess. destruct p; [destruct H as (? & ? & ? & ? & ? & ? & ? & ?)|destruct H as (? & ? & ?)]; eauto. Qed.

Lemma Merging_SeekToFirst_stands mi es p :
  merge_stands mi es p -> exists mi', Merging_SeekToFirst compare_ mi = Some mi' /\ merge_stands mi' es (at_from es 0).
Proof.
  intros (ess & P & HU & Hst)%merge_some. unfold Merging_SeekToFirst.
  destruct (each_child_stand (fun _ child => it_SeekToFirst child) _ ess P (fun _ e => at_from e (cnt (fun _ => false) e)) Hst) as (ch & -> & Hch).
  { intros i child e He Hs. rewrite cnt_none. by eapply SeekToFirst_stands. }
  cbn [mbind option_bind]. destruct (FindSmallest_stands (fun _ => false) ch es ess HU) as (mi' & -> & Hm); [by intros ? ? ?|done|].
  rewrite cnt_none in Hm. by exists mi'.
Qed.
Lemma Merging_SeekToLast_stands mi es p :
  merge_stands mi es p -> exists mi', Merging_SeekToLast compare_ mi = Some mi' /\ merge_stands mi' es (at_before (length es)).
Proof.
  intros (ess & P & HU & Hst)%merge_some. unfold Merging_SeekToLast.
  destruct (each_child_stand (fun _ child => it_SeekToLast child) _ ess P (fun _ e => at_before (cnt (fun _ => true) e)) Hst) as (ch & -> & Hch).
  { intros i child e He Hs. rewrite cnt_all. by eapply SeekToLast_stands. }
  cbn [mbind option_bind]. destruct (FindLargest_stands (fun _ => true) ch es ess HU) as (mi' & -> & Hm); [by intros ? ? ?|done|].
  rewrite cnt_all in Hm. by exists mi'.
Qed.
Lemma Merging_Seek_stands k mi es p :
  merge_stands mi es p -> exists mi', Merging_Seek compare_ k mi = Some mi' /\ merge_stands mi' es (at_from es (cnt (is_lt compare_ k) es)).
Proof.
  intros (ess & P & HU & Hst)%merge_some. unfold Merging_Seek.
  destruct (each_child_stand (fun _ child => it_Seek k child) _ ess P (fun _ e => at_from e (cnt (is_lt compare_ k) e)) Hst) as (ch & -> & Hch).
  { intros i child e He Hs. by eapply Seek_stands. }
  cbn [mbind option_bind]. by apply (FindSmallest_stands _ _ _ ess); [|apply front_lt|].
Qed.

Lemma all_stand_insert children ess P c e child p :
  all_stand children ess P -> ess !! c = Some e -> stands child e p ->
  all_stand (<[c := child]> children) ess (fun i e => if (i =? c)%nat then p else P i e).
Proof.
  intros Hst He Hc. pose proof Hst as [Hl H]. split; [by rewrite length_insert|]. intros i ch ei Hi Hei.
  destruct (Nat.eqb_spec i c) as [->|Hne].
  - destruct (child_of _ _ _ _ _ Hst He) as [old Hold]. rewrite list_lookup_insert_eq in Hi by (by eapply lookup_lt_Some). by simplify_eq.
  - rewrite list_lookup_insert_ne in Hi by done. by apply H.
Qed.

(** The place of the current child, and those of the others. *)
Lemma merge_at mi es n :
  merge_stands mi es (Some n) -> exists ess c x e m, union es ess /\ current_ mi = Some c /\ es !! n = Some x /\ ess !! c = Some e
    /\ e !! m = Some x /\ Merging_key mi = Some (fst x) /\ Merging_value mi = Some (snd x)
    /\ cnt (is_lt compare_ (fst x)) e = m /\ cnt (is_le compare_ (fst x)) e = S m
    /\ (forall i ei, ess !! i = Some ei -> i <> c -> cnt (is_lt compare_ (fst x)) ei = cnt (is_le compare_ (fst x)) ei)
    /\ (forall i ei y, ess !! i = Some ei -> i <> c -> y ∈ ei -> compare_ (fst x) (fst y) <> 0)
    /\ all_stand (children_ mi) ess (fun i e =>
         match direction_ mi with
         | kForward => at_from e (cnt (is_lt compare_ (fst x)) e)
         | kReverse => at_before (cnt (is_le compare_ (fst x)) e)
         end).
Proof.
  intros (ess & HU & c & x & e & Hc & Hx & He & Hxe & Hst). apply list_elem_of_lookup in Hxe as [m Hm].
  destruct (cnt_places compare_ e m x (union_parts _ _ HU _ _ He) Hm) as [E1 E2].
  assert (x ∈ es) as Hxes by (by eapply list_elem_of_lookup_2). assert (x ∈ e) as Hxe by (by eapply list_elem_of_lookup_2).
  destruct (child_of _ _ _ _ _ Hst He) as [child Hch]. destruct (child_at _ _ _ _ _ _ Hst Hch He) as [_ Hk].
  destruct (Hk m) as (x' & Hx' & Kx & Vx).
  { destruct (direction_ mi); [|by rewrite E2]. rewrite E1. apply at_from_lt. by eapply lookup_lt_Some. }
  simplify_eq.
  assert (forall i ei y, ess !! i = Some ei -> i <> c -> y ∈ ei -> compare_ (fst x) (fst y) <> 0) as Hdiff.
  { intros i ei y Hi Hne Hy E. assert (y ∈ es) as Hyes by (apply (union_elem _ _ HU); eauto).
    apply Hne, (union_once _ _ HU i c ei e x); [done..| |done]. by rewrite (sorted_same compare_ es x y (union_sorted _ _ HU) Hxes Hyes E). }
  exists ess, c, x, e, (cnt (is_lt compare_ (fst x)) e). split_and!; [done..| | |done|done| |done|done].
  - unfold Merging_key, current_child. rewrite Hc. cbn [mbind option_bind]. rewrite Hch. cbn [mbind option_bind]. done.
  - unfold Merging_value, current_child. rewrite Hc. cbn [mbind option_bind]. rewrite Hch. cbn [mbind option_bind]. done.
  - intros i ei Hi Hne. apply cnt_ext. intros y Hy. unfold is_lt, is_le. pose proof (Hdiff i ei y Hi Hne Hy) as Hd.
    destruct (Z.ltb_spec (compare_ (fst y) (fst x)) 0), (Z.leb_spec (compare_ (fst y) (fst x)) 0); try done; try lia.
    exfalso. apply Hd. pose proof (compare_anti (fst x) (fst y) Logic.I Logic.I). pose proof (compare_anti (fst y) (fst x) Logic.I Logic.I). lia.
Qed.

Lemma child_after_stands k child e p :
  stands child e p -> sorted e -> (forall y, y ∈ e -> compare_ k (fst y) <> 0) ->
  exists child', child_after compare_ k child = Some child' /\ stands child' e (at_from e (cnt (is_lt compare_ k) e)).
Proof.
  intros Hs He Hd. unfold child_after. destruct (Seek_stands _ k child e p Hs) as (ch & -> & Hs'). cbn [mbind option_bind].
  rewrite (stands_Valid _ _ _ _ Hs'). case_bool_decide as Hv; [|by exists ch]. destruct Hv as [n En]. pose proof Hs' as Hs2. rewrite En in Hs2.
  destruct (stands_at _ _ _ _ Hs2) as (y & Hy & Ky & _). rewrite Ky. cbn [mbind option_bind].
  rewrite (proj2 (Z.eqb_neq _ _)) by (apply Hd; by eapply list_elem_of_lookup_2). by exists ch.
Qed.
Lemma child_before_stands k child e p :
  stands child e p -> exists child', child_before k child = Some child' /\ stands child' e (at_before (cnt (is_lt compare_ k) e)).
Proof.
  intros Hs. unfold child_before. destruct (Seek_stands _ k child e p Hs) as (ch & -> & Hs'). cbn [mbind option_bind].
  rewrite (stands_Valid _ _ _ _ Hs'). case_bool_decide as Hv.
  - destruct Hv as [n En]. rewrite En in Hs'. unfold at_from in En. destruct (Nat.ltb_spec (cnt (is_lt compare_ k) e) (length e)); [|done].
    injection En as ->. by apply Prev_stands.
  - destruct (SeekToLast_stands _ _ _ _ Hs') as (ch' & -> & Hs2). exists ch'. split; [done|].
    replace (cnt (is_lt compare_ k) e) with (length e); [done|]. apply Nat.le_antisymm; [|apply List.filter_length_le].
    apply Nat.nlt_ge. intros Hlt. apply Hv. rewrite at_from_lt by done. by eexists.
Qed.

Lemma Merging_Next_stands mi es n :
  merge_stands mi es (Some n) -> exists mi', Merging_Next compare_ mi = Some mi' /\ merge_stands mi' es (at_from es (S n)).
Proof.
  intros (ess & c & x & e & m & HU & Hc & Hx & He & Hm & Hk & _ & E1 & E2 & Hcnt & Hdiff & Hst)%merge_at.
  unfold Merging_Next. rewrite Hc, Hk. cbn [mbind option_bind].
  pose proof (lookup_lt_Some _ _ _ Hm) as Hml.
  pose (P1 := fun i e => if (i =? c)%nat then Some m else at_from e (cnt (is_le compare_ (fst x)) e)).
  assert (exists children, match direction_ mi with
    | kForward => Some (children_ mi)
    | kReverse => each_child (fun i child => if (i =? c)%nat then Some child else child_after compare_ (fst x) child) (children_ mi)
    end = Some children /\ all_stand children ess P1) as (children & -> & Hst1).
  { destruct (direction_ mi).
    - exists (children_ mi). split; [done|]. apply (all_stand_ext _ _ _ _ Hst). intros i ei Hi. unfold P1. destruct (Nat.eqb_spec i c) as [->|Hne].
      + simplify_eq. by apply at_from_lt.
      + by rewrite (Hcnt i ei Hi Hne).
    - eapply each_child_stand; [exact Hst|]. intros i child ei Hi Hs. unfold P1. cbn beta in Hs. destruct (Nat.eqb_spec i c) as [->|Hne].
      + simplify_eq. rewrite E2 in Hs. by exists child.
      + rewrite <- (Hcnt i ei Hi Hne). eapply child_after_stands; [done|by apply (union_parts _ _ HU _ _ Hi)|intros y; by apply (Hdiff i ei y)]. }
  cbn [mbind option_bind]. destruct (child_of _ _ _ _ _ Hst1 He) as [child Hch]. rewrite Hch. cbn [mbind option_bind].
  pose proof (proj2 Hst1 c child e Hch He) as Hs. unfold P1 in Hs. rewrite Nat.eqb_refl in Hs.
  destruct (Next_stands _ _ _ _ Hs) as (child' & -> & Hs'). cbn [mbind option_bind].
  destruct (FindSmallest_stands (is_le compare_ (fst x)) (<[c := child']> children) es ess HU (front_le _ _)) as (mi' & Em & Hmi).
  - apply (all_stand_ext _ _ _ _ (all_stand_insert _ _ _ _ _ _ _ Hst1 He Hs')). intros i ei Hi. unfold P1.
    destruct (Nat.eqb_spec i c) as [->|]; [|done]. by simplify_eq; rewrite E2.
  - destruct (cnt_places compare_ es n x (union_sorted _ _ HU) Hx) as [_ En]. rewrite En in Hmi. by exists mi'.
Qed.

Lemma Merging_Prev_stands mi es n :
  merge_stands mi es (Some n) -> exists mi', Merging_Prev compare_ mi = Some mi' /\ merge_stands mi' es (at_before n).
Proof.
  intros (ess & c & x & e & m & HU & Hc & Hx & He & Hm & Hk & _ & E1 & E2 & Hcnt & Hdiff & Hst)%merge_at.
  unfold Merging_Prev. rewrite Hc, Hk. cbn [mbind option_bind].
  pose proof (lookup_lt_Some _ _ _ Hm) as Hml.
  pose (P1 := fun i e => if (i =? c)%nat then Some m else at_before (cnt (is_lt compare_ (fst x)) e)).
  assert (exists children, match direction_ mi with
    | kForward => each_child (fun i child => if (i =? c)%nat then Some child else child_before (fst x) child) (children_ mi)
    | kReverse => Some (children_ mi)
    end = Some children /\ all_stand children ess P1) as (children & -> & Hst1).
  { destruct (direction_ mi).
    - eapply each_child_stand; [exact Hst|]. intros i child ei Hi Hs. unfold P1. cbn beta in Hs. destruct (Nat.eqb_spec i c) as [->|Hne].
      + simplify_eq. rewrite at_from_lt in Hs by done. by exists child.
      + by eapply child_before_stands.
    - exists (children_ mi). split; [done|]. apply (all_stand_ext _ _ _ _ Hst). intros i ei Hi. unfold P1. destruct (Nat.eqb_spec i c) as [->|Hne].
      + simplify_eq. by rewrite E2.
      + by rewrite (Hcnt i ei Hi Hne). }
  cbn [mbind option_bind]. destruct (child_of _ _ _ _ _ Hst1 He) as [child Hch]. rewrite Hch. cbn [mbind option_bind].
  pose proof (proj2 Hst1 c child e Hch He) as Hs. unfold P1 in Hs. rewrite Nat.eqb_refl in Hs.
  destruct (Prev_stands _ _ _ _ Hs) as (child' & -> & Hs'). cbn [mbind option_bind].
  destruct (FindLargest_stands (is_lt compare_ (fst x)) (<[c := child']> children) es ess HU (front_lt _ _)) as (mi' & Em & Hmi).
  - apply (all_stand_ext _ _ _ _ (all_stand_insert _ _ _ _ _ _ _ Hst1 He Hs')). intros i ei Hi. unfold P1.
    destruct (Nat.eqb_spec i c) as [->|]; [|done]. by simplify_eq.
  - destruct (cnt_places compare_ es n x (union_sorted _ _ HU) Hx) as [En _]. rewrite En in Hmi. by exists mi'.
Qed.

(** The merging iterator is an iterator over the union. *)
Program Definition Merging_laws : @IteratorLaws compare_ (MergingIterator I) (Merging_Iterator compare_) :=
  {| stands := merge_stands |}.
Next Obligation.
  intros mi es p (ess & _ & Hp). cbn. unfold Merging_Valid. destruct p; [by destruct Hp as (c & x & e & -> & _)|by destruct Hp as [-> _]].
Qed.
Next Obligation.
  intros mi es n (ess & c & x & e & m & _ & _ & Hx & _ & _ & Hk & Hv & _)%merge_at. by exists x.
Qed.
Next Obligation. apply Merging_SeekToFirst_stands. Qed.
Next Obligation. apply Merging_SeekToLast_stands. Qed.
Next Obligation. apply Merging_Seek_stands. Qed.
Next Obligation. apply Merging_Next_stands. Qed.
Next Obligation. apply Merging_Prev_stands. Qed.
End merging_proofs.

(** ** What a client sees *)

Inductive command := ToFirst | ToLast | To (target : list Z) | ToNext | ToPrev.

(** A call of the client, who may move only a valid iterator. *)
Definition call {I} `{InternalIterator I} (c : command) (it : I) : option I :=
  match c with
  | ToFirst => it_SeekToFirst it
  | ToLast => it_SeekToLast it
  | To target => it_Seek target it
  | ToNext => if it_Valid it then it_Next it else None
  | ToPrev => if it_Valid it then it_Prev it else None
  end.
Definition current {I} `{InternalIterator I} (it : I) : option (option entry) :=
  if it_Valid it then
    k ← it_key it;
    v ← it_value it;
    Some (Some (k, v))
  else Some None.
(** The entries that are current after each of some calls; [None] is a forbidden call. *)
Fixpoint trace {I} `{InternalIterator I} (cs : list command) (it : I) : option (list (option entry)) :=
  match cs with
  | [] => Some []
  | c :: cs' =>
      it ← call c it;
      e ← current it;
      es ← trace cs' it;
      Some (e :: es)
  end.

Section traces.
Context (compare_ : list Z -> list Z -> Z).
Context {A B : Type} `{ItA : InternalIterator A} `{ItB : InternalIterator B} `{LA : !IteratorLaws compare_ A} `{LB : !IteratorLaws compare_ B}.

Lemma call_same c (a : A) (b : B) es p : stands a es p -> stands b es p ->
  (call c a = None /\ call c b = None) \/ exists a' b' p', call c a = Some a' /\ call c b = Some b' /\ stands a' es p' /\ stands b' es p'.
Proof.
  intros Ha Hb. destruct c; cbn [call].
  - right. destruct (SeekToFirst_stands _ _ _ _ Ha) as (a' & ? & ?), (SeekToFirst_stands _ _ _ _ Hb) as (b' & ? & ?). by exists a', b', (at_from es 0).
  - right. destruct (SeekToLast_stands _ _ _ _ Ha) as (a' & ? & ?), (SeekToLast_stands _ _ _ _ Hb) as (b' & ? & ?). by exists a', b', (at_before (length es)).
  - right. destruct (Seek_stands _ target _ _ _ Ha) as (a' & ? & ?), (Seek_stands _ target _ _ _ Hb) as (b' & ? & ?). by do 3 eexists.
  - rewrite (stands_Valid _ _ _ _ Ha), (stands_Valid _ _ _ _ Hb). destruct p as [n|]; [|by left]. right. rewrite bool_decide_eq_true_2 by (by eexists).
    destruct (Next_stands _ _ _ _ Ha) as (a' & ? & ?), (Next_stands _ _ _ _ Hb) as (b' & ? & ?). by do 3 eexists.
  - rewrite (stands_Valid _ _ _ _ Ha), (stands_Valid _ _ _ _ Hb). destruct p as [n|]; [|by left]. right. rewrite bool_decide_eq_true_2 by (by eexists).
    destruct (Prev_stands _ _ _ _ Ha) as (a' & ? & ?), (Prev_stands _ _ _ _ Hb) as (b' & ? & ?). by do 3 eexists.
Qed.
Lemma current_same (a : A) (b : B) es p : stands a es p -> stands b es p -> current a = current b.
Proof.
  intros Ha Hb. unfold current. rewrite (stands_Valid _ _ _ _ Ha), (stands_Valid _ _ _ _ Hb). destruct p as [n|]; [|done].
  destruct (stands_at _ _ _ _ Ha) as (x & Hx & -> & ->), (stands_at _ _ _ _ Hb) as (y & Hy & -> & ->). by simplify_eq.
Qed.
(** Lawful iterators at the same place of the same list cannot be told apart. *)
Lemma trace_same cs (a : A) (b : B) es p : stands a es p -> stands b es p -> trace cs a = trace cs b.
Proof.
  revert a b p. induction cs as [|c cs IH]; intros a b p Ha Hb; [done|]. cbn [trace].
  destruct (call_same c a b es p Ha Hb) as [[-> ->]|(a' & b' & p' & -> & -> & Ha' & Hb')]; [done|]. cbn [mbind option_bind].
  by rewrite (current_same _ _ _ _ Ha' Hb'), (IH _ _ _ Ha' Hb').
Qed.
End traces.

(** A cursor before the first call. *)
Definition new_Cursor (es : list entry) : Cursor := {| cur_entries := es; cur_at := None |}.
Lemma new_Cursor_stands es : cur_stands (new_Cursor es) es None.
Proof. by split_and!. Qed.

Section merging_claims.
Context {I : Type} (compare_ : list Z -> list Z -> Z) `{Ord : !KeyOrder compare_ (fun _ => True)}.
Context `{Itr : InternalIterator I} `{Laws : !IteratorLaws compare_ I}.
Notation sorted := (StronglySorted (entry_lt compare_)).

Lemma sorted_NoDup es : sorted es -> NoDup es.
Proof.
  induction 1 as [|x es Hs IH Hx]; [constructor|]. constructor; [|done]. rewrite Forall_forall in Hx. intros Hin.
  by apply (entry_lt_irrefl compare_ x), Hx.
Qed.
Lemma elem_of_concat (ess : list (list entry)) x : x ∈ concat ess <-> exists e, x ∈ e /\ e ∈ ess.
Proof.
  rewrite list_elem_of_In, in_concat. split; intros (e & H1 & H2); exists e; by rewrite ?list_elem_of_In in *.
Qed.
Lemma NoDup_concat_once (ess : list (list entry)) i j e e' x :
  NoDup (concat ess) -> ess !! i = Some e -> ess !! j = Some e' -> x ∈ e -> x ∈ e' -> i = j.
Proof.
  revert i j. induction ess as [|d ess IH]; intros i j Hn Hi Hj Hx Hx'; [done|]. cbn in Hn. apply NoDup_app in Hn as (_ & Hd & Hn).
  assert (forall n a, ess !! n = Some a -> x ∈ a -> x ∈ concat ess) as Hin by (intros n a Ha Hxa; apply elem_of_concat; exists a; split; [done|by eapply list_elem_of_lookup_2]).
  destruct i as [|i], j as [|j]; cbn in *; simplify_eq; [done|..|f_equal; by eapply IH].
  - destruct (Hd x Hx). by eapply Hin.
  - destruct (Hd x Hx'). by eapply Hin.
Qed.
Lemma union_concat es ess : sorted es -> es ≡ₚ concat ess -> Forall (StronglySorted (entry_lt compare_)) ess -> union compare_ es ess.
Proof.
  intros Hs Hp Hf. split.
  - done.
  - intros i e Hi. rewrite Forall_lookup in Hf. by eapply Hf.
  - intros x. rewrite Hp. split.
    + intros (e & Hx & (i & Hi)%list_elem_of_lookup)%elem_of_concat. by exists i, e.
    + intros (i & e & Hi & Hx). apply elem_of_concat. exists e. split; [done|]. by eapply list_elem_of_lookup_2.
  - intros i j e e' x Hi Hj. eapply NoDup_concat_once; [|done..]. rewrite <- Hp. by apply sorted_NoDup.
Qed.

Lemma new_MergingIterator_stands (children : list I) es ess :
  sorted es -> es ≡ₚ concat ess -> Forall (StronglySorted (entry_lt compare_)) ess ->
  Forall2 (fun child e => stands child e None) children ess -> merge_stands compare_ (new_MergingIterator children) es None.
Proof.
  intros Hs Hp Hf Hst. exists ess. split; [by apply union_concat|]. split; [done|]. exists (fun _ _ => None). split; [by eapply Forall2_length|].
  intros i child e Hi He. exact (Forall2_lookup_lr _ _ _ _ _ _ Hst Hi He).
Qed.

(** C19: the merging iterator over any lawful iterators cannot be told from an iterator over the
    sorted union of their entries: the same calls, forwards and backwards in any order, are allowed
    and show the same entries. *)
Theorem merging_iterator_merges (cs : list command) (children : list I) es ess :
  StronglySorted (entry_lt compare_) es -> es ≡ₚ concat ess ->
  Forall (StronglySorted (entry_lt compare_)) ess ->
  Forall2 (fun child e => stands child e None) children ess ->
  trace (H := Merging_Iterator compare_) cs (new_MergingIterator children)
  = trace (H := Cursor_Iterator compare_) cs (new_Cursor es).
Proof.
  intros Hs Hp Hf Hst.
  eapply (trace_same compare_ (LA := Merging_laws compare_) (LB := Cursor_laws compare_)); [|apply new_Cursor_stands].
  by eapply new_MergingIterator_stands.
Qed.
End merging_claims.

Definition child_entries : list (list entry) := [[([1], [10]); ([3], [30])]; []; [([2], [20])]].
Definition merged_entries : list entry := [([1], [10]); ([2], [20]); ([3], [30])].
Lemma merged_sorted : StronglySorted (entry_lt Bytewise_Compare) merged_entries.
Proof. repeat constructor. Qed.
Lemma children_sorted : Forall (StronglySorted (entry_lt Bytewise_Compare)) child_entries.
Proof. apply Forall_cons; split; [repeat constructor|apply Forall_cons; split; repeat constructor]. Qed.
Lemma children_new : Forall2 (fun child e => cur_stands child e None) (map new_Cursor child_entries) child_entries.
Proof. repeat (apply Forall2_cons; split; [apply new_Cursor_stands|]). constructor. Qed.
Lemma merging_iterator_merges_witness :
  trace (H := Merging_Iterator (H := Cursor_Iterator Bytewise_Compare) Bytewise_Compare) [ToFirst; ToNext; ToPrev; ToNext; ToNext; ToNext; To [2]; ToPrev; ToPrev; ToLast; ToPrev]
    (new_MergingIterator (map new_Cursor child_entries))
  = Some [Some ([1], [10]); Some ([2], [20]); Some ([1], [10]); Some ([2], [20]); Some ([3], [30]); None;
          Some ([2], [20]); Some ([1], [10]); None; Some ([3], [30]); Some ([2], [20])].
Proof.
  rewrite (merging_iterator_merges (Itr := Cursor_Iterator Bytewise_Compare) (Laws := Cursor_laws Bytewise_Compare) Bytewise_Compare _ _ merged_entries child_entries);
    [vm_compute; reflexivity|exact merged_sorted| |exact children_sorted|exact children_new].
  apply Permutation_skip, Permutation_swap.
Defined.
