(* ===== verification/DbIter.v ===== *)
(** * The iterator of the database: db/db_iter.cc

    Tables hold an entry for every update; the iterator of the database shows of each user
    key the newest value that its sequence number may see, and nothing of deleted keys.  It
    is written as in db_iter.cc, over any iterator that is lawful for internal keys, with
    its two directions, the skipping of hidden entries and the sampling of bytes read.  It
    is itself lawful (class [IteratorLaws]) for the list of visible values in the order of
    user keys, whatever sequence of calls is made. *)
From stdpp Require Import base tactics numbers option list sorting sets.
From S2P Require Import Prelude Coding DbFormat SkipList MemTable VersionSet Merger.
Open Scope Z_scope.
Open Scope word_scope.

Definition kReadBytesPeriod : Z := 1048576.

(** ** The iterator *)

Record DBState (I : Type) := {
  iter_ : I;
  status_ok : bool;
  saved_key_ : list Z;
  saved_value_ : list Z;
  db_direction : Direction;
  valid_ : bool }.
Arguments iter_ {_} _.
Arguments status_ok {_} _.
Arguments saved_key_ {_} _.
Arguments saved_value_ {_} _.
Arguments db_direction {_} _.
Arguments valid_ {_} _.

(** The counter of bytes, the generator, and the keys that were sampled ([RecordReadSample]). *)
Record Sampling := { bytes_counter_ : Z; read_rnd : Z; samples : list (list Z) }.
Definition DBIter (I : Type) : Type := (DBState I * Sampling)%type.

(** [rnd_.Uniform(2*config::kReadBytesPeriod)] *)
Definition RandomPeriod (rnd : Z) : Z * Z := let seed := Random_Next rnd in (seed mod (2 * kReadBytesPeriod), seed).

Section db_iter.
Context {I : Type} `{InternalIterator I} (sequence_ : Z) (fuel : nat).
Notation state := (DBState I).

Definition new_DBIter (iter : I) (seed : Z) : DBIter I :=
  let rnd := Random seed in
  let '(period, rnd) := RandomPeriod rnd in
  ({| iter_ := iter; status_ok := true; saved_key_ := []; saved_value_ := []; db_direction := kForward; valid_ := false |},
   {| bytes_counter_ := period; read_rnd := rnd; samples := [] |}).

Definition set_iter (it : I) (d : state) : state :=
  {| iter_ := it; status_ok := status_ok d; saved_key_ := saved_key_ d; saved_value_ := saved_value_ d; db_direction := db_direction d; valid_ := valid_ d |}.
Definition set_saved (k v : list Z) (d : state) : state :=
  {| iter_ := iter_ d; status_ok := status_ok d; saved_key_ := k; saved_value_ := v; db_direction := db_direction d; valid_ := valid_ d |}.
Definition set_valid (b : bool) (d : state) : state :=
  {| iter_ := iter_ d; status_ok := status_ok d; saved_key_ := saved_key_ d; saved_value_ := saved_value_ d; db_direction := db_direction d; valid_ := b |}.
Definition set_direction (dir : Direction) (d : state) : state :=
  {| iter_ := iter_ d; status_ok := status_ok d; saved_key_ := saved_key_ d; saved_value_ := saved_value_ d; db_direction := dir; valid_ := valid_ d |}.
Definition set_corrupt (d : state) : state :=
  {| iter_ := iter_ d; status_ok := false; saved_key_ := saved_key_ d; saved_value_ := saved_value_ d; db_direction := db_direction d; valid_ := valid_ d |}.

(** [while (bytes_counter_ < 0)]: of two periods that follow each other one is not zero, so two turns
    for each missing byte are enough. *)
Fixpoint sample_loop (turns : nat) (k : list Z) (s : Sampling) : option Sampling :=
  if bytes_counter_ s <? 0 then
    match turns with
    | O => None
    | S turns' =>
        let '(period, rnd) := RandomPeriod (read_rnd s) in
        sample_loop turns' k {| bytes_counter_ := bytes_counter_ s + period; read_rnd := rnd; samples := samples s ++ [k] |}
    end
  else Some s.

Definition ParseKey (d : DBIter I) : option (option ParsedInternalKey * DBIter I) :=
  let '(d, s) := d in
  k ← it_key (iter_ d);
  v ← it_value (iter_ d);
  let n := Z.of_nat (length k) + Z.of_nat (length v) in
  let left := bytes_counter_ s - n in
  s ← sample_loop (Z.to_nat (2 * - left)) k {| bytes_counter_ := left; read_rnd := read_rnd s; samples := samples s |};
  match ParseInternalKey k with
  | None => Some (None, (set_corrupt d, s))
  | Some ikey => Some (Some ikey, (d, s))
  end.

(** [do .. while (iter_->Valid())]; [skip] is [saved_key_] in all calls.  [fuel] is no less than the
    number of entries. *)
Fixpoint FindNextUserEntry_loop (n : nat) (skipping : bool) (d : DBIter I) : option (DBIter I) :=
  match n with
  | O => None
  | S n' =>
      let advance skipping (d : DBIter I) :=
        it ← it_Next (iter_ (fst d));
        let d := (set_iter it (fst d), snd d) in
        if it_Valid it then FindNextUserEntry_loop n' skipping d
        else Some (set_valid false (set_saved [] (saved_value_ (fst d)) (fst d)), snd d) in
      '(ikey, d) ← ParseKey d;
      match ikey with
      | Some ikey =>
          if pk_sequence ikey <=? sequence_ then
            if pk_type ikey =? kTypeDeletion then
              advance true (set_saved (pk_user_key ikey) (saved_value_ (fst d)) (fst d), snd d)
            else if skipping && (Bytewise_Compare (pk_user_key ikey) (saved_key_ (fst d)) <=? 0) then advance skipping d
            else Some (set_saved [] (saved_value_ (fst d)) (set_valid true (fst d)), snd d)
          else advance skipping d
      | None => advance skipping d
      end
  end.
Definition FindNextUserEntry (skipping : bool) (d : DBIter I) : option (DBIter I) := FindNextUserEntry_loop fuel skipping d.

Fixpoint FindPrevUserEntry_loop (n : nat) (value_type : Z) (d : DBIter I) : option (Z * DBIter I) :=
  match n with
  | O => None
  | S n' =>
      let advance value_type (d : DBIter I) :=
        it ← it_Prev (iter_ (fst d));
        let d := (set_iter it (fst d), snd d) in
        if it_Valid it then FindPrevUserEntry_loop n' value_type d else Some (value_type, d) in
      '(ikey, d) ← ParseKey d;
      match ikey with
      | Some ikey =>
          if pk_sequence ikey <=? sequence_ then
            if negb (value_type =? kTypeDeletion) && (Bytewise_Compare (pk_user_key ikey) (saved_key_ (fst d)) <? 0) then Some (value_type, d)
            else
              let value_type := pk_type ikey in
              if value_type =? kTypeDeletion then advance value_type (set_saved [] [] (fst d), snd d)
              else
                k ← it_key (iter_ (fst d));
                v ← it_value (iter_ (fst d));
                advance value_type (set_saved (ExtractUserKey k) v (fst d), snd d)
          else advance value_type d
      | None => advance value_type d
      end
  end.
Definition FindPrevUserEntry (d : DBIter I) : option (DBIter I) :=
  '(value_type, d) ← (if it_Valid (iter_ (fst d)) then FindPrevUserEntry_loop fuel kTypeDeletion d else Some (kTypeDeletion, d));
  if value_type =? kTypeDeletion then Some (set_direction kForward (set_saved [] [] (set_valid false (fst d))), snd d)
  else Some (set_valid true (fst d), snd d).

Definition DB_Next (d : DBIter I) : option (DBIter I) :=
  if valid_ (fst d) then
    match db_direction (fst d) with
    | kReverse =>
        let d := (set_direction kForward (fst d), snd d) in
        it ← (if it_Valid (iter_ (fst d)) then it_Next (iter_ (fst d)) else it_SeekToFirst (iter_ (fst d)));
        let d := (set_iter it (fst d), snd d) in
        if it_Valid it then FindNextUserEntry true d
        else Some (set_saved [] (saved_value_ (fst d)) (set_valid false (fst d)), snd d)
    | kForward =>
        k ← it_key (iter_ (fst d));
        FindNextUserEntry true (set_saved (ExtractUserKey k) (saved_value_ (fst d)) (fst d), snd d)
    end
  else None.

(** [while (true)]: back to the entries of the key before; [false] if there are none. *)
Fixpoint Prev_loop (n : nat) (d : state) : option (bool * state) :=
  match n with
  | O => None
  | S n' =>
      it ← it_Prev (iter_ d);
      let d := set_iter it d in
      if it_Valid it then
        k ← it_key it;
        if Bytewise_Compare (ExtractUserKey k) (saved_key_ d) <? 0 then Some (true, d) else Prev_loop n' d
      else Some (false, set_saved [] [] (set_valid false d))
  end.
Definition DB_Prev (d : DBIter I) : option (DBIter I) :=
  if valid_ (fst d) then
    match db_direction (fst d) with
    | kForward =>
        k ← it_key (iter_ (fst d));
        '(found, d1) ← Prev_loop fuel (set_saved (ExtractUserKey k) (saved_value_ (fst d)) (fst d));
        if found : bool then FindPrevUserEntry (set_direction kReverse d1, snd d) else Some (d1, snd d)
    | kReverse => FindPrevUserEntry d
    end
  else None.

Definition DB_Seek (target : list Z) (d : DBIter I) : option (DBIter I) :=
  let ikey := AppendInternalKey [] {| pk_user_key := target; pk_sequence := sequence_; pk_type := kValueTypeForSeek |} in
  let d := (set_saved ikey [] (set_direction kForward (fst d)), snd d) in
  it ← it_Seek ikey (iter_ (fst d));
  let d := (set_iter it (fst d), snd d) in
  if it_Valid it then FindNextUserEntry false d else Some (set_valid false (fst d), snd d).
Definition DB_SeekToFirst (d : DBIter I) : option (DBIter I) :=
  let d := (set_saved (saved_key_ (fst d)) [] (set_direction kForward (fst d)), snd d) in
  it ← it_SeekToFirst (iter_ (fst d));
  let d := (set_iter it (fst d), snd d) in
  if it_Valid it then FindNextUserEntry false d else Some (set_valid false (fst d), snd d).
Definition DB_SeekToLast (d : DBIter I) : option (DBIter I) :=
  let d := (set_saved (saved_key_ (fst d)) [] (set_direction kReverse (fst d)), snd d) in
  it ← it_SeekToLast (iter_ (fst d));
  FindPrevUserEntry (set_iter it (fst d), snd d).

Definition DB_Valid (d : DBIter I) : bool := valid_ (fst d).
Definition DB_key (d : DBIter I) : option (list Z) :=
  if valid_ (fst d) then
    match db_direction (fst d) with
    | kForward => ExtractUserKey <$> it_key (iter_ (fst d))
    | kReverse => Some (saved_key_ (fst d))
    end
  else None.
Definition DB_value (d : DBIter I) : option (list Z) :=
  if valid_ (fst d) then
    match db_direction (fst d) with
    | kForward => it_value (iter_ (fst d))
    | kReverse => Some (saved_value_ (fst d))
    end
  else None.
Definition DB_Iterator : InternalIterator (DBIter I) := {|
  it_Valid := DB_Valid; it_key := DB_key; it_value := DB_value;
  it_SeekToFirst := DB_SeekToFirst; it_SeekToLast := DB_SeekToLast; it_Seek := DB_Seek;
  it_Next := DB_Next; it_Prev := DB_Prev |}.
End db_iter.

(** ** What may be seen *)

(** Of entries in order, the first visible one of each user key counts; [hide] is the key whose
    entries are hidden. *)
Fixpoint view_from (s : Z) (hide : option (list Z)) (os : list op) : list entry :=
  match os with
  | [] => []
  | o :: os' =>
      if (MemTable.op_seq o <=? s) && negb (bool_decide (hide = Some (MemTable.op_key o))) then
        (if MemTable.op_type o =? kTypeValue then [(MemTable.op_key o, MemTable.op_value o)] else [])
        ++ view_from s (Some (MemTable.op_key o)) os'
      else view_from s hide os'
  end.
Definition view (s : Z) (os : list op) : list entry := view_from s None os.

Lemma lex_le_antisym a b : lex a b <= 0 -> lex b a <= 0 -> a = b.
Proof. intros H1 H2. apply lex_eq. rewrite lex_opp in H2. lia. Qed.

Section views.
Context (s : Z).
Notation seen o := (MemTable.op_seq o <= s).
Notation key_ o := (MemTable.op_key o).
Definition ordered (os : list op) : Prop := StronglySorted (fun o o' => lex (key_ o) (key_ o') <= 0) os.
Definition key_lt (x y : entry) : Prop := lex (fst x) (fst y) < 0.

Lemma view_hidden h o os : ~ (seen o /\ h <> Some (key_ o)) -> view_from s h (o :: os) = view_from s h os.
Proof.
  intros Hn. cbn [view_from]. destruct (Z.leb_spec (MemTable.op_seq o) s); [|done]. case_bool_decide; [done|]. tauto.
Qed.
Lemma view_shown h o os : seen o -> h <> Some (key_ o) ->
  view_from s h (o :: os)
  = (if MemTable.op_type o =? kTypeValue then [(key_ o, MemTable.op_value o)] else []) ++ view_from s (Some (key_ o)) os.
Proof. intros Hs Hh. cbn [view_from]. by rewrite (proj2 (Z.leb_le _ _) Hs), bool_decide_eq_false_2. Qed.

Lemma view_elem h os x : x ∈ view_from s h os -> exists o, o ∈ os /\ seen o /\ x = (key_ o, MemTable.op_value o) /\ MemTable.op_type o = kTypeValue.
Proof.
  revert h. induction os as [|o os IH]; intros h; [cbn; set_solver|].
  destruct (decide (seen o /\ h <> Some (key_ o))) as [[H1 H2]|Hn]; [rewrite view_shown by done|rewrite view_hidden by done].
  - intros [Hx|Hx]%elem_of_app.
    + destruct (Z.eqb_spec (MemTable.op_type o) kTypeValue); [|set_solver]. apply list_elem_of_singleton in Hx. exists o. set_solver.
    + apply IH in Hx as (o' & ? & ?). exists o'. set_solver.
  - intros Hx. apply IH in Hx as (o' & ? & ?). exists o'. set_solver.
Qed.

(** A hidden key that does not occur hides nothing. *)
Lemma view_no_key k os : (forall o, o ∈ os -> seen o -> key_ o <> k) -> view_from s (Some k) os = view s os.
Proof.
  intros Hk. unfold view. induction os as [|o os IH]; [done|]. destruct (decide (seen o)) as [Hs|Hn].
  - pose proof (Hk o ltac:(set_solver) Hs) as Hne. rewrite !view_shown by (done || congruence). done.
  - rewrite !view_hidden by tauto. apply IH. set_solver.
Qed.
Lemma view_app h os os' :
  (forall o o', o ∈ os -> o' ∈ os' -> seen o -> seen o' -> key_ o <> key_ o') ->
  (forall o', o' ∈ os' -> seen o' -> h <> Some (key_ o')) ->
  view_from s h (os ++ os') = view_from s h os ++ view s os'.
Proof.
  revert h. induction os as [|o os IH]; intros h Hd Hh.
  { cbn [app view_from]. destruct h as [k|]; [|done]. apply view_no_key. intros o' Ho' Hs E. apply (Hh o' Ho' Hs). by rewrite E. }
  cbn [app]. destruct (decide (seen o /\ h <> Some (key_ o))) as [[H1 H2]|Hn].
  - rewrite !view_shown, <- app_assoc by done. f_equal. apply IH; [set_solver|]. intros o' Ho' Hs [= E]. apply (Hd o o'); set_solver.
  - rewrite !view_hidden by done. apply IH; set_solver.
Qed.

Lemma ordered_app os os' : ordered (os ++ os') -> ordered os /\ ordered os' /\ forall o o', o ∈ os -> o' ∈ os' -> lex (key_ o) (key_ o') <= 0.
Proof. intros H. apply StronglySorted_app in H as (H1 & H2 & H3). by split_and!. Qed.

(** The keys of the view ascend, and lie behind a hidden key. *)
Lemma view_sorted h os :
  ordered os -> (forall o k, h = Some k -> o ∈ os -> lex k (key_ o) <= 0) ->
  StronglySorted key_lt (view_from s h os) /\ forall x k, h = Some k -> x ∈ view_from s h os -> lex k (fst x) < 0.
Proof.
  intros Ho. revert h. induction Ho as [|o os Ho IH Hall]; intros h Hh; [split; [constructor|cbn; set_solver]|].
  rewrite Forall_forall in Hall. destruct (decide (seen o /\ h <> Some (key_ o))) as [[H1 H2]|Hn].
  - rewrite view_shown by done. destruct (IH (Some (key_ o))) as [Hs Hx]; [intros o' k [= <-] Ho'; by apply Hall|].
    assert (forall (x : entry) k, h = Some k -> lex (key_ o) (fst x) <= 0 -> lex k (fst x) < 0) as Hk.
    { intros x k E Hle. specialize (Hh o k E ltac:(set_solver)). destruct (Z.eq_dec (lex k (key_ o)) 0) as [E0|]; [apply lex_eq in E0; congruence|].
      apply (lex_lt_le k (key_ o)); [lia|done]. }
    destruct (Z.eqb_spec (MemTable.op_type o) kTypeValue); cbn [app].
    + split; [constructor; [done|]; apply Forall_forall; intros x Hx'; by apply (Hx x)|].
      intros x k E [->|Hx']%elem_of_cons; apply Hk; [done|cbn; rewrite lex_refl; lia|done|].
      specialize (Hx x _ eq_refl Hx'). lia.
    + split; [done|]. intros x k E Hx'. apply Hk; [done|]. specialize (Hx x _ eq_refl Hx'). lia.
  - rewrite view_hidden by done. apply IH. intros o' k E Ho'. apply Hh; set_solver.
Qed.

(** A cut between the entries before a key and those from it on. *)
Record cut_at (os : list op) (m : nat) (k : list Z) : Prop := {
  cut_low o : o ∈ take m os -> seen o -> lex (key_ o) k < 0;
  cut_high o : o ∈ drop m os -> seen o -> lex k (key_ o) <= 0 }.

Lemma cut_view os m k :
  cut_at os m k -> view s os = view s (take m os) ++ view s (drop m os)
    /\ (forall x, x ∈ view s (take m os) -> lex (fst x) k < 0) /\ (forall x, x ∈ view s (drop m os) -> lex k (fst x) <= 0).
Proof.
  intros [Hl Hh]. split_and!.
  - unfold view. rewrite <- (take_drop m os) at 1. apply view_app; [|done]. intros o o' Ho Ho' Hs Hs' E.
    specialize (Hl o Ho Hs). specialize (Hh o' Ho' Hs'). rewrite E, lex_opp in Hl. lia.
  - intros x (o & Ho & Hs & -> & _)%view_elem. by apply Hl.
  - intros x (o & Ho & Hs & -> & _)%view_elem. by apply Hh.
Qed.

(** If the key is in the view, the cut is at its place. *)
Lemma cut_place os m k v i :
  ordered os -> cut_at os m k -> view s os !! i = Some (k, v) ->
  view s (take m os) = take i (view s os) /\ view s (drop m os) = (k, v) :: drop (S i) (view s os).
Proof.
  intros Ho Hc Hi. destruct (cut_view os m k Hc) as (E & Hl & Hh).
  destruct (view_sorted None os Ho ltac:(done)) as [Hs _]. fold (view s os) in Hs. rewrite E in Hs, Hi |- *.
  apply StronglySorted_app in Hs as (_ & _ & Hs).
  assert (length (view s (take m os)) <= i)%nat as Hge.
  { apply Nat.nlt_ge. intros Hlt. rewrite lookup_app_l in Hi by done. specialize (Hl _ (list_elem_of_lookup_2 _ _ _ Hi)).
    cbn in Hl. rewrite lex_refl in Hl. lia. }
  rewrite lookup_app_r in Hi by done. destruct (view s (drop m os)) as [|x l] eqn:Ed; [done|].
  destruct (i - length (view s (take m os)))%nat as [|j] eqn:Ej.
  - cbn in Hi. simplify_eq. assert (i = length (view s (take m os))) as -> by lia.
    rewrite take_app_length, drop_app_ge by lia. by replace (S _ - _)%nat with 1%nat by lia.
  - exfalso. cbn in Hi. apply StronglySorted_inv in Hs as [_ Hx]. rewrite Forall_forall in Hx.
    specialize (Hx _ (list_elem_of_lookup_2 _ _ _ Hi)). unfold key_lt in Hx. cbn in Hx. specialize (Hh x ltac:(set_solver)).
    rewrite lex_opp in Hh. lia.
Qed.

(** Hiding the first key of a view. *)
Lemma view_hide_first os k v rest :
  ordered os -> (forall o, o ∈ os -> seen o -> lex k (key_ o) <= 0) -> view s os = (k, v) :: rest -> view_from s (Some k) os = rest.
Proof.
  intros Ho. unfold view. induction Ho as [|o os Ho IH Hall]; intros Hk E; [done|]. destruct (decide (seen o)) as [Hs|Hn].
  2: { rewrite view_hidden in E |- * by tauto. apply IH; [set_solver|done]. }
  rewrite Forall_forall in Hall. rewrite view_shown in E by done.
  assert (forall o' k', Some (key_ o) = Some k' -> o' ∈ os -> lex k' (key_ o') <= 0) as Hb by (intros o' k' [= <-]; by apply Hall).
  destruct (view_sorted (Some (key_ o)) os Ho Hb) as [_ Hx].
  assert (key_ o = k) as Ek.
  { destruct (Z.eqb_spec (MemTable.op_type o) kTypeValue); cbn [app] in E; [by simplify_eq|].
    assert (lex (key_ o) k < 0) as Hlt by (apply (Hx (k, v) (key_ o) eq_refl); rewrite E; set_solver).
    specialize (Hk o ltac:(set_solver) Hs). rewrite lex_opp in Hk. lia. }
  rewrite view_hidden by (rewrite Ek; tauto). rewrite Ek in E, Hx. destruct (Z.eqb_spec (MemTable.op_type o) kTypeValue); cbn [app] in E; [by simplify_eq|].
  exfalso. assert (lex k k < 0) as Hlt by (apply (Hx (k, v) k eq_refl); rewrite E; set_solver). rewrite lex_refl in Hlt. lia.
Qed.
Lemma view_hide_empty h os : view s os = [] -> view_from s h os = [].
Proof.
  unfold view. induction os as [|o os IH]; intros E; [done|]. destruct (decide (seen o)) as [Hs|Hn].
  2: { rewrite view_hidden in E |- * by tauto. by apply IH. }
  rewrite view_shown in E by done. apply app_nil in E as [E1 E2]. destruct (decide (h = Some (key_ o))) as [->|Hne].
  - by rewrite view_hidden by tauto.
  - by rewrite view_shown, E1, E2 by done.
Qed.
End views.

(** ** Sampling *)

Definition seed_ok (r : Z) : Prop := 1 <= r <= 2147483646.

Lemma Random_Next_mod r : seed_ok r -> Random_Next r = (r * 16807) mod 2147483647 /\ seed_ok (Random_Next r).
Proof.
  intros Hr. unfold seed_ok in *. unfold Random_Next. set (p := r * 16807). rewrite w64_small by (unfold is64; lia).
  assert (p .& 2147483647 = p mod 2147483648) as -> by (change 2147483647 with (Z.ones 31); by rewrite Z.land_ones by lia).
  rewrite Z.shiftr_div_pow2 by lia. change (2 ^ 31) with 2147483648.
  pose proof (Z.div_mod p 2147483648 ltac:(lia)) as E. pose proof (Z.mod_pos_bound p 2147483648 ltac:(lia)) as Hb.
  set (q := p / 2147483648) in *. set (t := p mod 2147483648) in *. assert (0 <= q <= 16807) as Hq by (unfold p in E; lia).
  rewrite w32_small by (unfold is32; lia).
  assert (p mod 2147483647 <> 0) as Hne.
  { intros E0. apply Z.mod_divide in E0; [|lia]. unfold p in E0. rewrite Z.mul_comm in E0. apply Z.gauss in E0; [|reflexivity].
    apply Z.divide_pos_le in E0; lia. }
  assert (q + t = p mod 2147483647 \/ q + t = p mod 2147483647 + 2147483647) as Hcase.
  { pose proof (Z.div_mod p 2147483647 ltac:(lia)) as E1. pose proof (Z.mod_pos_bound p 2147483647 ltac:(lia)) as Hb1.
    assert (0 <= p / 2147483647 - q < 2) by lia. destruct (Z.eq_dec (p / 2147483647) q); [left|right]; lia. }
  pose proof (Z.mod_pos_bound p 2147483647 ltac:(lia)) as Hb1.
  fold p. destruct Hcase as [Hc|Hc]; rewrite Hc; clearbody p q t;
    [rewrite (proj2 (Z.ltb_ge _ _)) by lia|rewrite (proj2 (Z.ltb_lt _ _)) by lia]; lia.
Qed.

(** Multiples of the period do not follow each other. *)
Lemma no_two_zeros r : seed_ok r -> r mod (2 * kReadBytesPeriod) = 0 -> fst (RandomPeriod r) <> 0.
Proof.
  intros Hr E. unfold RandomPeriod. cbn [fst]. destruct (Random_Next_mod r Hr) as [-> _]. unfold seed_ok, kReadBytesPeriod in *.
  assert (forallb (fun m => negb ((Z.of_nat m * 2097152 * 16807) mod 2147483647 mod 2097152 =? 0)) (seq 1 1023) = true) as Hall
    by (vm_compute; reflexivity).
  rewrite forallb_forall in Hall. apply Z.mod_divide in E as [m E]; [|lia]. change (2 * 1048576) with 2097152 in *.
  specialize (Hall (Z.to_nat m) ltac:(apply Stdlib.Lists.List.in_seq; lia)). rewrite Z2Nat.id in Hall by lia.
  apply negb_true_iff, Z.eqb_neq in Hall. by rewrite E.
Qed.

Lemma RandomPeriod_ok r : seed_ok r -> 0 <= fst (RandomPeriod r) /\ seed_ok (snd (RandomPeriod r))
  /\ snd (RandomPeriod r) mod (2 * kReadBytesPeriod) = fst (RandomPeriod r).
Proof.
  intros Hr. unfold RandomPeriod. cbn [fst snd]. split_and!; [apply Z.mod_pos_bound; unfold kReadBytesPeriod; lia|by apply Random_Next_mod|done].
Qed.

(** Two turns for each byte are enough. *)
Lemma sample_loop_ends turns k s :
  seed_ok (read_rnd s) -> (Z.to_nat (2 * - bytes_counter_ s) <= turns)%nat ->
  exists s', sample_loop turns k s = Some s' /\ seed_ok (read_rnd s').
Proof.
  remember (Z.to_nat (- bytes_counter_ s)) as d eqn:Ed. revert turns s Ed. induction (lt_wf d) as [d _ IH]. intros turns s -> Hr Ht.
  destruct (Z.lt_ge_cases (bytes_counter_ s) 0) as [Hneg|Hpos].
  2: { exists s. destruct turns; cbn [sample_loop]; by rewrite (proj2 (Z.ltb_ge _ _) Hpos). }
  destruct turns as [|turns]; [lia|]. cbn [sample_loop]. rewrite (proj2 (Z.ltb_lt _ _) Hneg).
  destruct (RandomPeriod_ok _ Hr) as (H0 & H1 & H2). destruct (RandomPeriod (read_rnd s)) as [p r]. cbn [fst snd] in *.
  destruct (Z.eq_dec p 0) as [->|Hp].
  2: { apply (IH (Z.to_nat (- (bytes_counter_ s + p)))); cbn [bytes_counter_ read_rnd]; [lia|done|done|lia]. }
  pose proof (no_two_zeros r H1 H2) as Hp'. destruct turns as [|turns]; [lia|]. cbn [sample_loop bytes_counter_ read_rnd samples]. rewrite (proj2 (Z.ltb_lt _ _)) by lia.
  destruct (RandomPeriod_ok _ H1) as (H0' & H1' & _). destruct (RandomPeriod r) as [p' r']. cbn [fst snd] in *.
  apply (IH (Z.to_nat (- (bytes_counter_ s + 0 + p')))); cbn [bytes_counter_ read_rnd]; [lia|done|done|lia].
Qed.

(** ** The loops *)

Section db_iter_proofs.
Context {I : Type} `{Itr : InternalIterator I} `{Laws : !IteratorLaws InternalKey_Compare I}.
Context (s : Z) (fuel : nat) (os : list op).
Context (Hok : Forall MemTable.op_ok os) (Hsort : StronglySorted ikey_lt os) (Hfuel : (length os <= fuel)%nat).
Notation seen o := (MemTable.op_seq o <= s).
Notation key_ o := (MemTable.op_key o).
Notation es := (map op_kv os).

Lemma os_ordered : ordered os.
Proof.
  clear Hfuel. induction Hsort as [|o l Hl IH Ho]; [constructor|]. apply Forall_cons in Hok as [Ho1 Hok']. constructor; [by apply IH|].
  rewrite Forall_forall in Ho, Hok' |- *. intros o' Ho'. specialize (Ho o' Ho'). unfold ikey_lt in Ho.
  pose proof (user_key_le _ _ (Z.lt_le_incl _ _ Ho)) as Hle.
  by rewrite (proj1 (MemTable.op_ikey_parts o Ho1)), (proj1 (MemTable.op_ikey_parts o' (Hok' o' Ho'))) in Hle.
Qed.

Lemma place_lt n : (n < length es)%nat <-> (n < length os)%nat.
Proof. by rewrite length_map. Qed.

Lemma at_op it n o : stands it es (Some n) -> os !! n = Some o -> it_key it = Some (MemTable.op_ikey o) /\ it_value it = Some (MemTable.op_value o).
Proof.
  intros Hst Ho. destruct (stands_at _ _ _ _ Hst) as (e & He & -> & ->). rewrite list_lookup_fmap, Ho in He. by injection He as <-.
Qed.
Lemma at_some it n : stands it es (Some n) -> exists o, os !! n = Some o /\ MemTable.op_ok o.
Proof.
  intros Hst. destruct (stands_at _ _ _ _ Hst) as (e & He & _). rewrite list_lookup_fmap in He. apply fmap_Some in He as (o & Ho & _).
  exists o. split; [done|]. rewrite Forall_lookup in Hok. by eapply Hok.
Qed.

Lemma ParseInternalKey_op o : MemTable.op_ok o ->
  ParseInternalKey (MemTable.op_ikey o) = Some {| pk_user_key := key_ o; pk_sequence := MemTable.op_seq o; pk_type := MemTable.op_type o |}.
Proof.
  intros Ho. pose proof Ho as (Hs & Ht & _). unfold ParseInternalKey.
  rewrite (proj2 (Nat.ltb_ge _ _)) by (rewrite MemTable.length_op_ikey; lia).
  destruct (MemTable.op_ikey_parts o Ho) as [Ek Et]. rewrite Et, Ek, pack_type, pack_seq by done.
  by rewrite (proj2 (Z.leb_le _ _)) by (unfold is_type, kTypeDeletion, kTypeValue in *; lia).
Qed.

Lemma ParseKey_op d smp n o :
  stands (iter_ d) es (Some n) -> os !! n = Some o -> seed_ok (read_rnd smp) ->
  exists smp', ParseKey (d, smp) = Some (Some {| pk_user_key := key_ o; pk_sequence := MemTable.op_seq o; pk_type := MemTable.op_type o |}, (d, smp'))
    /\ seed_ok (read_rnd smp').
Proof.
  intros Hst Ho Hr. destruct (at_op _ _ _ Hst Ho) as [Hk Hv]. destruct (at_some _ _ Hst) as (o' & Ho' & Hoo). simplify_eq.
  unfold ParseKey. rewrite Hk, Hv. cbn [mbind option_bind].
  edestruct sample_loop_ends as (smp' & -> & Hr'); [|cbn [bytes_counter_]; reflexivity|]; [done|]. cbn [mbind option_bind].
  rewrite ParseInternalKey_op by done. by exists smp'.
Qed.

Definition hide_of (skipping : bool) (d : DBState I) : option (list Z) := if skipping then Some (saved_key_ d) else None.

(** Where [FindNextUserEntry] stops. *)
Definition next_found (h : option (list Z)) (i : nat) (dir : Direction) (r : DBIter I) : Prop :=
  seed_ok (read_rnd (snd r)) /\ db_direction (fst r) = dir
  /\ ((valid_ (fst r) = false /\ view_from s h (drop i os) = [] /\ exists q, stands (iter_ (fst r)) es q)
      \/ (valid_ (fst r) = true /\ exists j o, stands (iter_ (fst r)) es (Some j) /\ os !! j = Some o
          /\ view_from s h (drop i os) = (key_ o, MemTable.op_value o) :: view_from s (Some (key_ o)) (drop (S j) os))).

Lemma FindNext_spec n skipping d smp i :
  stands (iter_ d) es (Some i) -> (length os <= n + i)%nat -> seed_ok (read_rnd smp) ->
  (skipping = true -> forall o, o ∈ drop i os -> seen o -> lex (saved_key_ d) (key_ o) <= 0) ->
  exists r, FindNextUserEntry_loop s n skipping (d, smp) = Some r /\ next_found (hide_of skipping d) i (db_direction d) r.
Proof.
  revert skipping d smp i. induction n as [|n IH]; intros skipping d smp i Hst Hn Hr Hskip.
  { destruct (at_some _ _ Hst) as (o & Ho & _). pose proof (lookup_lt_Some _ _ _ Ho). lia. }
  destruct (at_some _ _ Hst) as (o & Ho & Hoo). pose proof (lookup_lt_Some _ _ _ Ho) as Hi. pose proof (drop_S _ _ _ Ho) as Ed.
  cbn [FindNextUserEntry_loop]. destruct (ParseKey_op d smp i o Hst Ho Hr) as (smp' & -> & Hr'). cbn [mbind option_bind pk_sequence pk_type pk_user_key].
  (* one step on *)
  assert (forall sk (d1 : DBState I), iter_ d1 = iter_ d -> db_direction d1 = db_direction d ->
    (sk = true -> forall o', o' ∈ drop (S i) os -> seen o' -> lex (saved_key_ d1) (key_ o') <= 0) ->
    view_from s (hide_of skipping d) (drop i os) = view_from s (hide_of sk d1) (drop (S i) os) ->
    exists r, (it ← it_Next (iter_ d1);
       if it_Valid it then FindNextUserEntry_loop s n sk (set_iter it d1, smp')
       else Some (set_valid false (set_saved [] (saved_value_ (set_iter it d1)) (set_iter it d1)), smp')) = Some r
      /\ next_found (hide_of skipping d) i (db_direction d) r) as Hadv.
  { intros sk d1 E1 E2 Hsk Ev. rewrite E1. destruct (Next_stands _ _ _ _ Hst) as (it & -> & Hst'). cbn [mbind option_bind].
    rewrite (stands_Valid _ _ _ _ Hst'). unfold next_found. rewrite Ev. case_bool_decide as Hv.
    - destruct Hv as [j Ej]. rewrite Ej in Hst'. assert (j = S i) as -> by (unfold at_from in Ej; destruct (_ <? _)%nat; congruence).
      destruct (IH sk (set_iter it d1) smp' (S i)) as (r & Er & Hr1); [done|lia|done|done|]. exists r. split; [done|]. by rewrite <- E2.
    - eexists. split; [done|]. split_and!; [done..|]. left. split_and!; [done| |by eexists]. rewrite drop_ge; [done|].
      apply Nat.nlt_ge. intros Hlt. apply Hv. rewrite at_from_lt by (by rewrite length_map). by eexists. }
  assert (forall o', o' ∈ drop (S i) os -> o' ∈ drop i os) as Hsub by (intros o' Ho'; rewrite Ed; set_solver).
  rewrite Ed in Hadv. destruct (Z.leb_spec (MemTable.op_seq o) s) as [Hsn|Hsn].
  2: { apply Hadv; [done..| |by rewrite view_hidden by lia]. intros E o' Ho'. by apply Hskip, Hsub. }
  destruct (Z.eqb_spec (MemTable.op_type o) kTypeDeletion) as [Et|Et].
  - cbn [fst snd]. apply Hadv; [done..| |].
    + intros _ o' Ho' _. cbn [set_saved saved_key_]. pose proof os_ordered as Hord. rewrite <- (take_drop i os), Ed in Hord.
      apply ordered_app in Hord as (_ & Hord & _). apply StronglySorted_inv in Hord as [_ Hord]. rewrite Forall_forall in Hord. by apply Hord.
    + cbn [hide_of set_saved saved_key_]. destruct (decide (hide_of skipping d = Some (key_ o))) as [E|E].
      * rewrite view_hidden by tauto. by rewrite E.
      * rewrite view_shown by done. by rewrite Et.
  - assert (MemTable.op_type o = kTypeValue) as Etv by (destruct Hoo as (_ & [?|?] & _); done).
    cbn [fst snd]. destruct skipping; cbn [andb].
    + unfold Bytewise_Compare. rewrite Slice_compare_lex. destruct (Z.leb_spec (lex (key_ o) (saved_key_ d)) 0) as [Hle|Hgt].
      * apply Hadv; [done..| |]; [intros _ o' Ho'; by apply Hskip, Hsub|]. rewrite view_hidden; [done|]. intros [_ Hne]. apply Hne. cbn. f_equal.
        apply lex_le_antisym; [apply Hskip; [done|rewrite Ed; set_solver|done]|done].
      * eexists. split; [done|]. split_and!; [done..|]. right. split; [done|]. exists i, o. split_and!; [done..|].
        rewrite Ed, view_shown; [by rewrite Etv|done|]. cbn. intros [= E]. rewrite E, lex_refl in Hgt. lia.
    + eexists. split; [done|]. split_and!; [done..|]. right. split; [done|]. exists i, o. split_and!; [done..|].
      rewrite Ed, view_shown by done. by rewrite Etv.
Qed.

(** The entries from place [a] to [b]. *)
Definition part (a b : nat) : list op := take (b - a) (drop a os).
Lemma part_S a b o : os !! a = Some o -> (a < b)%nat -> part a b = o :: part (S a) b.
Proof. intros Ho Hl. unfold part. rewrite (drop_S _ _ _ Ho). by replace (b - a)%nat with (S (b - S a)) by lia. Qed.
Lemma take_part a b : (a <= b)%nat -> take b os = take a os ++ part a b.
Proof. intros H. unfold part. rewrite take_take_drop. f_equal. lia. Qed.
Lemma ordered_part a b : ordered (part a b) /\ forall o o', o ∈ take a os -> o' ∈ part a b -> lex (key_ o) (key_ o') <= 0.
Proof.
  pose proof os_ordered as Hord. rewrite <- (take_drop a os) in Hord. apply ordered_app in Hord as (_ & Hord & Hle).
  rewrite <- (take_drop (b - a) (drop a os)) in Hord, Hle. apply ordered_app in Hord as (Hord & _). split; [done|].
  intros o o' Ho Ho'. apply Hle; [done|]. apply elem_of_app. by left.
Qed.

(** What [FindPrevUserEntry] knows of the entries [t] that it has passed. *)
Definition passed (t : list op) (vt : Z) (d : DBState I) : Prop :=
  (vt = kTypeDeletion /\ view s t = [])
  \/ (vt = kTypeValue /\ view s t = [(saved_key_ d, saved_value_ d)] /\ forall o, o ∈ t -> seen o -> lex (saved_key_ d) (key_ o) <= 0).

(** Where it stops: before the entries of the key that it has saved. *)
Definition prev_found (M : nat) (dir : Direction) (r : Z * DBIter I) : Prop :=
  let '(vt, (d, smp)) := r in
  seed_ok (read_rnd smp) /\ db_direction d = dir
  /\ exists m, (m <= M)%nat /\ stands (iter_ d) es (at_before m)
     /\ ((vt = kTypeDeletion /\ view s (take M os) = [])
         \/ (vt = kTypeValue /\ view s (take M os) = view s (take m os) ++ [(saved_key_ d, saved_value_ d)]
             /\ (forall o, o ∈ take m os -> lex (key_ o) (saved_key_ d) < 0)
             /\ forall o, o ∈ part m M -> seen o -> lex (saved_key_ d) (key_ o) <= 0)).

(** A visible entry in front of those passed. *)
Lemma passed_front o t vt d :
  ordered (o :: t) -> passed t vt d -> seen o -> (vt = kTypeDeletion \/ ~ lex (key_ o) (saved_key_ d) < 0) ->
  view s (o :: t) = if MemTable.op_type o =? kTypeValue then [(key_ o, MemTable.op_value o)] else [].
Proof.
  intros Hord Hp Hs Hvt. unfold view. rewrite view_shown by done.
  enough (view_from s (Some (key_ o)) t = []) as -> by apply app_nil_r.
  apply StronglySorted_inv in Hord as [Hord Hall]. rewrite Forall_forall in Hall. destruct Hp as [[_ E]|(Ev & E & Hge)].
  - by apply view_hide_empty.
  - destruct Hvt as [Hvt|Hvt]; [by rewrite Ev in Hvt|].
    assert ((saved_key_ d, saved_value_ d) ∈ view s t) as Hin by (rewrite E; set_solver).
    apply view_elem in Hin as (o2 & Ho2 & Hs2 & E2 & _). injection E2 as Ek Evl.
    assert (key_ o = saved_key_ d) as ->.
    { apply lex_le_antisym; [rewrite Ek; by apply Hall|]. rewrite lex_opp. lia. }
    by apply (view_hide_first s t _ (saved_value_ d)).
Qed.

Lemma FindPrev_spec n vt d smp m M :
  stands (iter_ d) es (Some m) -> (m < M <= length os)%nat -> (m < n)%nat -> seed_ok (read_rnd smp) -> passed (part (S m) M) vt d ->
  exists r, FindPrevUserEntry_loop s n vt (d, smp) = Some r /\ prev_found M (db_direction d) r.
Proof.
  revert vt d smp m. induction n as [|n IH]; intros vt d smp m Hst HM Hn Hr Hp; [lia|].
  destruct (at_some _ _ Hst) as (o & Ho & Hoo). destruct (at_op _ _ _ Hst Ho) as [Hk Hv].
  pose proof (part_S m M o Ho ltac:(lia)) as Ep. destruct (ordered_part m M) as [Hord _]. rewrite Ep in Hord.
  cbn [FindPrevUserEntry_loop]. destruct (ParseKey_op d smp m o Hst Ho Hr) as (smp' & -> & Hr'). cbn [mbind option_bind pk_sequence pk_type pk_user_key].
  assert (forall vt1 (d1 : DBState I), iter_ d1 = iter_ d -> db_direction d1 = db_direction d -> passed (part m M) vt1 d1 ->
    exists r, (it ← it_Prev (iter_ d1);
       if it_Valid it then FindPrevUserEntry_loop s n vt1 (set_iter it d1, smp') else Some (vt1, (set_iter it d1, smp'))) = Some r
      /\ prev_found M (db_direction d) r) as Hadv.
  { intros vt1 d1 E1 E2 Hp1. rewrite E1. destruct (Prev_stands _ _ _ _ Hst) as (it & -> & Hst'). cbn [mbind option_bind].
    rewrite (stands_Valid _ _ _ _ Hst'). destruct m as [|m]; cbn [at_before] in *.
    - rewrite bool_decide_eq_false_2 by apply is_Some_None. eexists. split; [done|]. cbn. split_and!; [done..|]. exists 0%nat. split; [lia|]. split; [done|].
      unfold part in *. rewrite Nat.sub_0_r, drop_0 in *. destruct Hp1 as [[-> E]|(-> & E & Hge)]; [by left|right]. split_and!; [done..| |done].
      intros o' Ho'. by apply elem_of_nil in Ho'.
    - rewrite bool_decide_eq_true_2 by (by eexists). rewrite <- E2. apply (IH vt1 (set_iter it d1) smp' m); [done|lia|lia|done|done]. }
  cbn [fst snd]. destruct (Z.leb_spec (MemTable.op_seq o) s) as [Hsn|Hsn].
  2: { apply Hadv; [done..|]. rewrite Ep. destruct Hp as [[-> E]|(-> & E & Hge)].
       - left. unfold view. by rewrite view_hidden by lia.
       - right. split_and!; [done|unfold view; by rewrite view_hidden by lia|]. intros o' [->|Ho']%elem_of_cons; [lia|by apply Hge]. }
  unfold Bytewise_Compare. rewrite Slice_compare_lex.
  destruct (negb (vt =? kTypeDeletion) && (lex (key_ o) (saved_key_ d) <? 0)) eqn:Eb.
  { (* stop *)
    apply andb_prop in Eb as [Eb1 Eb2]. apply negb_true_iff, Z.eqb_neq in Eb1. apply Z.ltb_lt in Eb2. destruct Hp as [[? _]|(-> & E & Hge)]; [done|].
    assert (forall o', o' ∈ take (S m) os -> lex (key_ o') (saved_key_ d) < 0) as Hlow.
    { intros o' Ho'. rewrite (take_S_r _ _ _ Ho) in Ho'. apply elem_of_app in Ho' as [Ho'|Ho']; [|by apply list_elem_of_singleton in Ho' as ->].
      apply (lex_le_lt _ (key_ o)); [|done]. apply (ordered_part m M); [done|]. rewrite Ep. set_solver. }
    eexists. split; [done|]. cbn. split_and!; [done..|]. exists (S m). split; [lia|]. split; [done|]. right. split_and!; [done| |done|done].
    rewrite (take_part (S m) M) by lia. rewrite <- E. apply view_app; [|done]. intros o1 o2 H1 H2 _ Hs2 E12.
    specialize (Hlow o1 H1). specialize (Hge o2 H2 Hs2). rewrite E12, lex_opp in Hlow. lia. }
  assert (vt = kTypeDeletion \/ ~ lex (key_ o) (saved_key_ d) < 0) as Hvt.
  { apply andb_false_iff in Eb as [Eb|Eb]; [left; apply negb_false_iff, Z.eqb_eq in Eb; done|right; apply Z.ltb_ge in Eb; lia]. }
  pose proof (passed_front o _ vt d Hord Hp Hsn Hvt) as Ev. rewrite <- Ep in Ev. destruct Hoo as (_ & [Et|Et] & _); rewrite Et in Ev |- *; cbn [Z.eqb] in Ev |- *.
  - apply Hadv; [done..|]. by left.
  - rewrite Hk, Hv. cbn [mbind option_bind]. apply Hadv; [done..|]. right. cbn [set_saved saved_key_ saved_value_].
    assert (ExtractUserKey (MemTable.op_ikey o) = key_ o) as -> by (apply MemTable.op_ikey_parts; rewrite Forall_lookup in Hok; by eapply Hok).
    split_and!; [done|done|]. intros o' Ho' _. rewrite Ep in Ho'. apply elem_of_cons in Ho' as [->|Ho']; [rewrite lex_refl; lia|].
    apply StronglySorted_inv in Hord as [_ Hord]. rewrite Forall_forall in Hord. by apply Hord.
Qed.

(** ** Where the iterator stands *)

Notation V := (view s os).
Definition db_stands (r : DBIter I) (es' : list entry) (p : option nat) : Prop :=
  let '(d, smp) := r in
  es' = V /\ seed_ok (read_rnd smp)
  /\ match p with
     | None => valid_ d = false /\ exists q, stands (iter_ d) es q
     | Some i => valid_ d = true /\
         match db_direction d with
         | kForward => exists j o, stands (iter_ d) es (Some j) /\ os !! j = Some o /\ V !! i = Some (key_ o, MemTable.op_value o)
             /\ drop (S i) V = view_from s (Some (key_ o)) (drop (S j) os)
         | kReverse => exists m, (m <= length os)%nat /\ stands (iter_ d) es (at_before m) /\ V !! i = Some (saved_key_ d, saved_value_ d)
             /\ cut_at s os m (saved_key_ d) /\ forall o, o ∈ take m os -> lex (key_ o) (saved_key_ d) < 0
         end
     end.

Lemma db_some r es' p : db_stands r es' p -> es' = V /\ seed_ok (read_rnd (snd r)) /\ exists q, stands (iter_ (fst r)) es q.
Proof.
  destruct r as [d smp]. intros (-> & Hr & Hp). split_and!; [done..|]. cbn [fst]. destruct p as [i|]; [|tauto].
  destruct Hp as [_ Hp]. destruct (db_direction d); [destruct Hp as (j & o & Hs & _)|destruct Hp as (m & _ & Hs & _)]; eauto.
Qed.

Lemma next_done h i k r : next_found h i kForward r -> drop k V = view_from s h (drop i os) -> db_stands r V (at_from V k).
Proof.
  destruct r as [d smp]. intros (Hr & Hd & Hf) E. cbn [fst snd] in *. rewrite <- E in Hf. destruct Hf as [(Hv & E0 & Hq)|(Hv & j & o & Hs & Ho & E0)].
  - rewrite at_from_ge; [done|]. apply (f_equal length) in E0. rewrite length_drop in E0. cbn in E0. lia.
  - assert (V !! k = Some (key_ o, MemTable.op_value o)) as Hk by (rewrite <- (Nat.add_0_r k), <- lookup_drop, E0; done).
    rewrite at_from_lt by (by eapply lookup_lt_Some). split_and!; [done..|]. rewrite Hd. exists j, o. split_and!; [done..|].
    rewrite (drop_S _ _ _ Hk) in E0. by injection E0.
Qed.

Lemma prev_done d smp M i :
  db_direction d = kReverse -> stands (iter_ d) es (at_before M) -> (M <= length os)%nat -> seed_ok (read_rnd smp) ->
  view s (take M os) = take i V -> (i <= length V)%nat ->
  exists r, FindPrevUserEntry s fuel (d, smp) = Some r /\ db_stands r V (at_before i).
Proof.
  intros Hd Hst HM Hr Ev Hi. unfold FindPrevUserEntry. cbn [fst]. rewrite (stands_Valid _ _ _ _ Hst).
  assert (forall d', (exists q, stands (iter_ d') es q) -> forall smp', seed_ok (read_rnd smp') -> view s (take M os) = [] ->
    db_stands (set_direction kForward (set_saved [] [] (set_valid false d')), smp') V (at_before i)) as Hend.
  { intros d' Hq smp' Hr' E0. rewrite Ev in E0. apply (f_equal length) in E0. rewrite length_take in E0. cbn in E0.
    assert (i = 0%nat) as -> by lia. by split_and!. }
  destruct M as [|m]; cbn [at_before] in *.
  { rewrite bool_decide_eq_false_2 by apply is_Some_None. cbn [mbind option_bind]. eexists. split; [done|]. by apply Hend; [eexists|..]. }
  rewrite bool_decide_eq_true_2 by (by eexists).
  destruct (FindPrev_spec fuel kTypeDeletion d smp m (S m) Hst ltac:(lia) ltac:(lia) Hr) as ([vt [d' smp']] & -> & Hf).
  { left. split; [done|]. unfold part. by rewrite Nat.sub_diag, take_0. }
  cbn [mbind option_bind]. destruct Hf as (Hr' & Hd' & m' & Hm' & Hst' & [[-> E0]|(-> & E0 & Hlow & Hpart)]).
  { eexists. split; [done|]. apply Hend; [by eexists|done|done]. }
  eexists. split; [done|]. cbn [fst snd]. pose proof (f_equal length E0) as El. rewrite Ev, length_take, length_app in El. cbn [length] in El.
  assert (i = S (length (view s (take m' os)))) as -> by lia. cbn [at_before]. split_and!; [done..|]. cbn [set_valid db_direction valid_]. rewrite Hd', Hd.
  exists m'. split; [lia|]. split_and!; [done| | |done].
  - rewrite <- (take_drop (S (length (view s (take m' os)))) V), <- Ev, E0, <- app_assoc.
    rewrite lookup_app_r, Nat.sub_diag by lia. done.
  - split; [intros o Ho _; by apply Hlow|]. intros o Ho Hs. cbn [set_valid saved_key_].
    assert (drop m' os = part m' (S m) ++ drop (S m) os) as Edr.
    { unfold part. rewrite <- (take_drop (S m - m') (drop m' os)) at 1. rewrite drop_drop. do 2 f_equal. lia. }
    rewrite Edr in Ho. apply elem_of_app in Ho as [Ho|Ho]; [by apply Hpart|].
    assert ((saved_key_ d', saved_value_ d') ∈ view s (take (S m) os)) as Hin by (rewrite E0; set_solver).
    apply view_elem in Hin as (o2 & Ho2 & _ & E2 & _). injection E2 as Ek _. rewrite Ek.
    pose proof os_ordered as Hord. rewrite <- (take_drop (S m) os) in Hord. apply ordered_app in Hord as (_ & _ & Hord). by apply Hord.
Qed.

(** ** The calls *)

(** After a seek of the inner iterator to place [m]. *)
Lemma seek_done d smp it m k :
  db_direction d = kForward -> seed_ok (read_rnd smp) -> stands it es (at_from es m) -> drop k V = view s (drop m os) ->
  exists r, (if it_Valid it then FindNextUserEntry s fuel false (set_iter it d, smp) else Some (set_valid false (set_iter it d), smp)) = Some r
    /\ db_stands r V (at_from V k).
Proof.
  intros Hd Hr Hst E. rewrite (stands_Valid _ _ _ _ Hst). destruct (Nat.lt_ge_cases m (length es)) as [Hlt|Hge].
  - rewrite at_from_lt in Hst |- * by done. rewrite bool_decide_eq_true_2 by (by eexists).
    destruct (FindNext_spec fuel false (set_iter it d) smp m) as (r & Er & Hf); [done|lia|done|done|].
    exists r. split; [done|]. cbn [set_iter db_direction] in Hf. rewrite Hd in Hf. by eapply next_done.
  - rewrite at_from_ge in Hst |- * by done. rewrite bool_decide_eq_false_2 by apply is_Some_None. eexists. split; [done|].
    rewrite (at_from_ge V k); [by split_and!; [..|by eexists]|]. rewrite length_map in Hge. rewrite (drop_ge os m Hge) in E.
    apply (f_equal length) in E. rewrite length_drop in E. cbn in E. lia.
Qed.

Lemma DB_SeekToFirst_stands r es' p : db_stands r es' p -> exists r', DB_SeekToFirst s fuel r = Some r' /\ db_stands r' es' (at_from es' 0).
Proof.
  intros (-> & Hr & q & Hst)%db_some. destruct r as [d smp]. unfold DB_SeekToFirst. cbn [fst snd] in *.
  cbn [set_saved set_direction iter_]. destruct (SeekToFirst_stands _ _ _ _ Hst) as (it & -> & Hst'). cbn [mbind option_bind].
  by apply (seek_done (set_saved (saved_key_ (set_direction kForward d)) [] (set_direction kForward d)) smp it 0 0).
Qed.
Lemma DB_SeekToLast_stands r es' p : db_stands r es' p -> exists r', DB_SeekToLast s fuel r = Some r' /\ db_stands r' es' (at_before (length es')).
Proof.
  intros (-> & Hr & q & Hst)%db_some. destruct r as [d smp]. unfold DB_SeekToLast. cbn [fst snd] in *.
  cbn [set_saved set_direction iter_]. destruct (SeekToLast_stands _ _ _ _ Hst) as (it & -> & Hst'). cbn [mbind option_bind].
  rewrite length_map in Hst'. apply (prev_done _ _ (length os)); [done|done|lia|done| |lia]. by rewrite !firstn_all.
Qed.

Lemma es_sorted : StronglySorted (entry_lt InternalKey_Compare) es.
Proof.
  clear Hok Hfuel. induction Hsort as [|o l Hl IH Ho]; [constructor|]. cbn [map]. constructor; [apply IH; done|].
  rewrite Forall_forall in Ho. apply Forall_forall. intros y (o' & -> & Ho')%list_elem_of_fmap. by apply Ho.
Qed.

(** The place that a seek finds cuts the entries at the user key. *)
Lemma seek_cut target : is_seq s ->
  cut_at s os (cnt (is_lt InternalKey_Compare (MemTable.op_ikey (MemTable.seek_op target s))) es) target.
Proof.
  intros Hs. set (ik := MemTable.op_ikey (MemTable.seek_op target s)). set (cut := is_lt InternalKey_Compare ik).
  pose proof (front_split InternalKey_Compare cut es (front_lt _ _) es_sorted) as E. fold (cnt cut es).
  assert (ExtractUserKey ik = target /\ key_tag ik = PackSequenceAndType s kValueTypeForSeek) as [Ek Et].
  { unfold ik, MemTable.op_ikey, MemTable.seek_op. cbn [MemTable.op_key MemTable.op_seq MemTable.op_type]. split; [apply ExtractUserKey_Encode|].
    apply key_tag_Encode. assert (is_type kValueTypeForSeek) by (by right). auto with leveldb. }
  assert (forall o, MemTable.op_ok o -> cut (op_kv o) = true <->
    lex (key_ o) target < 0 \/ (key_ o = target /\ PackSequenceAndType s kValueTypeForSeek < PackSequenceAndType (MemTable.op_seq o) (MemTable.op_type o))) as Hcut.
  { intros o Ho. unfold cut, is_lt. rewrite Z.ltb_lt. cbn [op_kv fst]. rewrite InternalKey_Compare_lt, Ek, Et.
    by destruct (MemTable.op_ikey_parts o Ho) as [-> ->]. }
  assert (forall o, o ∈ take (cnt cut es) os -> cut (op_kv o) = true) as Hlow.
  { intros o Ho. assert (op_kv o ∈ take (cnt cut es) es) as Hin by (rewrite <- fmap_take; by apply list_elem_of_fmap_2).
    assert (take (cnt cut es) es = List.filter cut es) as Etk by (rewrite E at 2; unfold cnt; by rewrite take_app_length).
    rewrite Etk in Hin. by apply elem_of_filter_b in Hin as [? _]. }
  assert (forall o, o ∈ drop (cnt cut es) os -> cut (op_kv o) = false) as Hhigh.
  { intros o Ho. assert (op_kv o ∈ drop (cnt cut es) es) as Hin by (rewrite <- fmap_drop; by apply list_elem_of_fmap_2).
    assert (drop (cnt cut es) es = List.filter (fun x => negb (cut x)) es) as Edr by (rewrite E at 2; unfold cnt; by rewrite drop_app_length).
    rewrite Edr in Hin. apply elem_of_filter_b in Hin as [Hin _]. by apply negb_true_iff in Hin. }
  rewrite Forall_forall in Hok. split; intros o Ho Hso.
  - assert (MemTable.op_ok o) as Hoo by (apply Hok; rewrite <- (take_drop (cnt cut es) os); set_solver).
    apply Hlow, (Hcut o Hoo) in Ho as [?|[_ Hlt]]; [done|]. exfalso. destruct Hoo as (H1 & H2 & _). rewrite MemTable.pack_lt in Hlt; [|done|by right|done|done].
    unfold is_type, kValueTypeForSeek, kTypeValue, kTypeDeletion in *. lia.
  - assert (MemTable.op_ok o) as Hoo by (apply Hok; rewrite <- (take_drop (cnt cut es) os); set_solver).
    apply Hhigh in Ho. destruct (Z.le_gt_cases (lex target (key_ o)) 0) as [|Hgt]; [done|]. exfalso.
    rewrite (proj2 (Hcut o Hoo)) in Ho; [done|]. left. rewrite lex_opp. lia.
Qed.

Lemma DB_Seek_stands target r es' p : is_seq s ->
  db_stands r es' p -> exists r', DB_Seek s fuel target r = Some r' /\ db_stands r' es' (at_from es' (cnt (is_lt Bytewise_Compare target) es')).
Proof.
  intros Hs (-> & Hr & q & Hst)%db_some. destruct r as [d smp]. unfold DB_Seek. cbn [fst snd] in *.
  change (AppendInternalKey [] _) with (MemTable.op_ikey (MemTable.seek_op target s)).
  cbn [set_saved set_direction iter_]. destruct (Seek_stands _ (MemTable.op_ikey (MemTable.seek_op target s)) _ _ _ Hst) as (it & -> & Hst'). cbn [mbind option_bind].
  eapply (seek_done (set_saved _ [] (set_direction kForward d)) smp it); [done|done|exact Hst'|].
  destruct (cut_view s os _ target (seek_cut target Hs)) as (E & Hlow & Hhigh). rewrite E at 2.
  set (a := view s (take _ os)) in *. set (b := view s (drop _ os)) in *. rewrite E.
  assert (cnt (is_lt Bytewise_Compare target) (a ++ b) = length a) as ->; [|by rewrite drop_app_length].
  rewrite cnt_app, <- (Nat.add_0_r (length a)). f_equal.
  - rewrite (cnt_ext _ (fun _ => true)), cnt_all; [done|]. intros x Hx. unfold is_lt, Bytewise_Compare. rewrite Slice_compare_lex. apply Z.ltb_lt. by apply Hlow.
  - apply none_cut. intros x Hx. unfold is_lt, Bytewise_Compare. rewrite Slice_compare_lex. apply Z.ltb_ge. specialize (Hhigh x Hx). rewrite lex_opp in Hhigh. lia.
Qed.

(** The entries from a place on have no smaller keys. *)
Lemma from_place j o o' : os !! j = Some o -> o' ∈ drop j os -> lex (key_ o) (key_ o') <= 0.
Proof.
  intros Ho Ho'. rewrite (drop_S _ _ _ Ho) in Ho'. apply elem_of_cons in Ho' as [->|Ho']; [rewrite lex_refl; lia|].
  pose proof os_ordered as Hord. rewrite <- (take_drop j os), (drop_S _ _ _ Ho) in Hord.
  apply ordered_app in Hord as (_ & Hord & _). apply StronglySorted_inv in Hord as [_ Hord]. rewrite Forall_forall in Hord. by apply Hord.
Qed.
Lemma to_place j o o' : os !! j = Some o -> o' ∈ take (S j) os -> lex (key_ o') (key_ o) <= 0.
Proof.
  intros Ho Ho'. rewrite (take_S_r _ _ _ Ho) in Ho'. apply elem_of_app in Ho' as [Ho'|Ho']; [|apply list_elem_of_singleton in Ho' as ->; rewrite lex_refl; lia].
  pose proof os_ordered as Hord. rewrite <- (take_drop j os), (drop_S _ _ _ Ho) in Hord. apply ordered_app in Hord as (_ & _ & Hord). apply Hord; set_solver.
Qed.

Lemma DB_Next_stands r es' i : db_stands r es' (Some i) -> exists r', DB_Next s fuel r = Some r' /\ db_stands r' es' (at_from es' (S i)).
Proof.
  destruct r as [d smp]. intros (-> & Hr & Hv & Hp). unfold DB_Next. cbn [fst snd]. rewrite Hv. destruct (db_direction d) eqn:Hd.
  - destruct Hp as (j & o & Hst & Ho & Hi & Ed). destruct (at_op _ _ _ Hst Ho) as [-> _]. cbn [mbind option_bind].
    assert (ExtractUserKey (MemTable.op_ikey o) = key_ o) as -> by (apply MemTable.op_ikey_parts; rewrite Forall_lookup in Hok; by eapply Hok).
    destruct (FindNext_spec fuel true (set_saved (key_ o) (saved_value_ d) d) smp j) as (r & Er & Hf); [done|lia|done|by intros _ o' Ho' _; apply (from_place j)|].
    exists r. split; [done|]. cbn [hide_of set_saved saved_key_ db_direction] in Hf. rewrite Hd in Hf. apply (next_done _ _ _ _ Hf).
    rewrite (drop_S os _ _ Ho), view_hidden by tauto. done.
  - destruct Hp as (m & Hm & Hst & Hi & Hcut & Hlow). cbn [set_direction iter_].
    destruct (cut_place s os m _ _ i os_ordered Hcut Hi) as [_ Ev].
    assert (exists it, (if it_Valid (iter_ d) then it_Next (iter_ d) else it_SeekToFirst (iter_ d)) = Some it /\ stands it es (at_from es m)) as (it & -> & Hst').
    { rewrite (stands_Valid _ _ _ _ Hst). destruct m as [|m]; cbn [at_before] in *.
      - rewrite bool_decide_eq_false_2 by apply is_Some_None. by eapply SeekToFirst_stands.
      - rewrite bool_decide_eq_true_2 by (by eexists). by apply Next_stands. }
    cbn [mbind option_bind]. assert (m < length os)%nat as Hlt.
    { apply Nat.nle_gt. intros Hge. by rewrite (drop_ge os m Hge) in Ev. }
    rewrite (stands_Valid _ _ _ _ Hst'). rewrite at_from_lt in Hst' |- * by (by rewrite length_map). rewrite bool_decide_eq_true_2 by (by eexists).
    destruct (FindNext_spec fuel true (set_iter it (set_direction kForward d)) smp m) as (r & Er & Hf); [done|lia|done| |].
    { intros _ o' Ho' Hs'. by apply (cut_high _ _ _ _ Hcut). }
    exists r. split; [done|]. apply (next_done _ _ _ _ Hf). cbn [hide_of set_iter set_direction saved_key_]. symmetry.
    apply (view_hide_first s _ _ (saved_value_ d)); [|by apply (cut_high _ _ _ _ Hcut)|done].
    pose proof os_ordered as Hord. rewrite <- (take_drop m os) in Hord. by apply ordered_app in Hord as (_ & ? & _).
Qed.

Lemma Prev_loop_spec n d j :
  stands (iter_ d) es (Some j) -> (j < n)%nat ->
  exists b d' m, Prev_loop n d = Some (b, d') /\ (m <= j)%nat /\ stands (iter_ d') es (at_before m) /\ b = (0 <? m)%nat
    /\ (forall o, o ∈ take m os -> lex (key_ o) (saved_key_ d) < 0)
    /\ (forall o, o ∈ part m j -> lex (saved_key_ d) (key_ o) <= 0)
    /\ (if b then db_direction d' = db_direction d /\ saved_key_ d' = saved_key_ d else valid_ d' = false).
Proof.
  revert d j. induction n as [|n IH]; intros d j Hst Hj; [lia|]. cbn [Prev_loop].
  destruct (Prev_stands _ _ _ _ Hst) as (it & -> & Hst'). cbn [mbind option_bind]. rewrite (stands_Valid _ _ _ _ Hst'). destruct j as [|j]; cbn [at_before] in *.
  { rewrite bool_decide_eq_false_2 by apply is_Some_None. exists false, (set_saved [] [] (set_valid false (set_iter it d))), 0%nat. split_and!; [done..| | |done].
    all: intros o Ho; unfold part in Ho; rewrite ?Nat.sub_diag, take_0 in Ho; by apply elem_of_nil in Ho. }
  rewrite bool_decide_eq_true_2 by (by eexists). destruct (at_some _ _ Hst') as (o & Ho & Hoo). destruct (at_op _ _ _ Hst' Ho) as [-> _].
  cbn [mbind option_bind]. rewrite (proj1 (MemTable.op_ikey_parts o Hoo)). unfold Bytewise_Compare. rewrite Slice_compare_lex. cbn [set_iter saved_key_].
  destruct (Z.ltb_spec (lex (key_ o) (saved_key_ d)) 0) as [Hlt|Hge].
  - exists true, (set_iter it d), (S j). split_and!; [done|lia|done|done| | |done|done].
    + intros o' Ho'. apply (lex_le_lt _ (key_ o)); [by apply (to_place j)|done].
    + intros o' Ho'. unfold part in Ho'. rewrite Nat.sub_diag, take_0 in Ho'. by apply elem_of_nil in Ho'.
  - destruct (IH (set_iter it d) j) as (b & d' & m & -> & Hm & Hst2 & Hb & Hl & Hh & Hd); [done|lia|]. exists b, d', m. split_and!; [done|lia|done..| |done].
    intros o' Ho'. assert (part m (S j) = part m j ++ [o]) as Ep.
    { pose proof (take_part m (S j) ltac:(lia)) as E1. rewrite (take_S_r _ _ _ Ho), (take_part m j), <- app_assoc in E1 by lia. by apply app_inv_head in E1. }
    rewrite Ep in Ho'. apply elem_of_app in Ho' as [Ho'|Ho']; [by apply Hh|]. apply list_elem_of_singleton in Ho' as ->. rewrite lex_opp. lia.
Qed.

Lemma DB_Prev_stands r es' i : db_stands r es' (Some i) -> exists r', DB_Prev s fuel r = Some r' /\ db_stands r' es' (at_before i).
Proof.
  destruct r as [d smp]. intros (-> & Hr & Hv & Hp). unfold DB_Prev. cbn [fst snd]. rewrite Hv.
  assert (forall x, V !! i = Some x -> (i <= length V)%nat) as Hil by (intros x Hx%lookup_lt_Some; lia). destruct (db_direction d) eqn:Hd.
  - destruct Hp as (j & o & Hst & Ho & Hi & Ed). pose proof (lookup_lt_Some _ _ _ Ho) as Hj. destruct (at_op _ _ _ Hst Ho) as [-> _]. cbn [mbind option_bind].
    assert (ExtractUserKey (MemTable.op_ikey o) = key_ o) as -> by (apply MemTable.op_ikey_parts; rewrite Forall_lookup in Hok; by eapply Hok).
    destruct (Prev_loop_spec fuel (set_saved (key_ o) (saved_value_ d) d) j Hst ltac:(lia)) as (b & d' & m & -> & Hm & Hst' & Hb & Hl & Hh & Hrest).
    cbn [mbind option_bind set_saved saved_key_ db_direction] in *.
    assert (cut_at s os m (key_ o)) as Hcut.
    { split; [intros o' Ho' _; by apply Hl|]. intros o' Ho' _. rewrite <- (take_drop (j - m) (drop m os)), drop_drop in Ho'.
      apply elem_of_app in Ho' as [Ho'|Ho']; [by apply Hh|]. apply (from_place j o o' Ho). by replace (m + (j - m))%nat with j in Ho' by lia. }
    destruct (cut_place s os m _ _ i os_ordered Hcut Hi) as [Ev _]. destruct b.
    + destruct Hrest as [Hd' Hk']. by apply (prev_done (set_direction kReverse d') smp m i); [done|done|lia|done|done|eapply Hil].
    + symmetry in Hb. apply Nat.ltb_ge in Hb. assert (m = 0%nat) as -> by lia. eexists. split; [done|].
      rewrite take_0 in Ev. assert (i = 0%nat) as ->.
      { apply (f_equal length) in Ev. rewrite length_take in Ev. specialize (Hil _ Hi). cbn in Ev. lia. }
      unfold db_stands; cbn [at_before fst snd]; split_and!; [done..|by eexists].
  - destruct Hp as (m & Hm & Hst & Hi & Hcut & Hlow). destruct (cut_place s os m _ _ i os_ordered Hcut Hi) as [Ev _].
    by apply (prev_done d smp m i); [done..|eapply Hil].
Qed.

Lemma db_stands_at r es' i : db_stands r es' (Some i) -> exists e, es' !! i = Some e /\ DB_key r = Some (fst e) /\ DB_value r = Some (snd e).
Proof.
  destruct r as [d smp]. intros (-> & Hr & Hv & Hp). unfold DB_key, DB_value. cbn [fst]. rewrite Hv. destruct (db_direction d).
  - destruct Hp as (j & o & Hst & Ho & Hi & _). eexists. split; [exact Hi|]. destruct (at_op _ _ _ Hst Ho) as [-> ->]. split; [|done].
    cbn. f_equal. apply MemTable.op_ikey_parts. rewrite Forall_lookup in Hok. by eapply Hok.
  - destruct Hp as (m & _ & _ & Hi & _). by eexists.
Qed.

(** The iterator of the database is an iterator over what may be seen. *)
Program Definition DB_laws (Hs : is_seq s) : @IteratorLaws Bytewise_Compare (DBIter I) (DB_Iterator s fuel) := {| stands := db_stands |}.
Next Obligation.
  intros Hs [d smp] es' p (_ & _ & Hp). cbn. unfold DB_Valid. cbn. destruct p; [by destruct Hp as [-> _]|by destruct Hp as [-> _]].
Qed.
Next Obligation. intros Hs. apply db_stands_at. Qed.
Next Obligation. intros Hs. apply DB_SeekToFirst_stands. Qed.
Next Obligation. intros Hs. apply DB_SeekToLast_stands. Qed.
Next Obligation. intros Hs k r es' p. by apply DB_Seek_stands. Qed.
Next Obligation. intros Hs. apply DB_Next_stands. Qed.
Next Obligation. intros Hs. apply DB_Prev_stands. Qed.

Lemma new_DBIter_stands it seed q : stands it es q -> db_stands (new_DBIter it seed) V None.
Proof.
  intros Hst. unfold new_DBIter. assert (seed_ok (Random seed)) as H0.
  { unfold seed_ok, Random. replace (seed .& 0x7fff_ffff) with (seed mod 2147483648) by (change 0x7fff_ffff with (Z.ones 31); by rewrite Z.land_ones by lia).
    pose proof (Z.mod_pos_bound seed 2147483648 ltac:(lia)) as Hb.
    destruct (Z.eqb_spec (seed mod 2147483648) 0), (Z.eqb_spec (seed mod 2147483648) 2147483647); cbn [orb]; lia. }
  destruct (RandomPeriod_ok _ H0) as (_ & H1 & _). destruct (RandomPeriod (Random seed)) as [p r]. by split_and!; [..|by eexists].
Qed.
End db_iter_proofs.

(** ** What is seen is the newest *)

Section newest.
Context (s : Z).
Notation key_ o := (MemTable.op_key o).
Notation seq_ o := (MemTable.op_seq o).

Lemma is_newest_exists k os : exists r, is_newest k s os r.
Proof.
  induction os as [|o os [r Hr]]; [exists None; cbn; set_solver|]. destruct (decide (key_ o = k /\ seq_ o <= s)) as [Hv|Hn].
  - destruct r as [o1|].
    + destruct Hr as (H1 & H2 & H3). destruct (Z.le_ge_cases (seq_ o) (seq_ o1)).
      * exists (Some o1). split_and!; [set_solver|done|]. intros o' [->|?]%elem_of_cons ?; auto.
      * exists (Some o). split_and!; [set_solver|done|]. intros o' [->|Ho']%elem_of_cons ?; [lia|]. specialize (H3 o' Ho' ltac:(done)). lia.
    + exists (Some o). split_and!; [set_solver|done|]. intros o' [->|Ho']%elem_of_cons ?; [lia|]. by destruct (Hr o').
  - exists r. destruct r as [o1|].
    + destruct Hr as (H1 & H2 & H3). split_and!; [set_solver|done|]. intros o' [->|?]%elem_of_cons ?; auto. done.
    + intros o' [->|?]%elem_of_cons; auto.
Qed.
Lemma is_newest_skip k o os r : ~ visible k s o -> is_newest k s (o :: os) (Some r) <-> is_newest k s os (Some r).
Proof.
  intros Hn. split; intros (H1 & H2 & H3); split_and!; [|done| |set_solver|done|].
  - apply elem_of_cons in H1 as [->|?]; done.
  - set_solver.
  - intros o' [->|?]%elem_of_cons ?; [done|auto].
Qed.

(** Operations are known by their sequence numbers, and of one key the newer come first. *)
Definition newer_first (os : list op) : Prop := StronglySorted (fun o o' => key_ o = key_ o' -> seq_ o' <= seq_ o) os.
Definition by_seq (os : list op) : Prop := forall o o', o ∈ os -> o' ∈ os -> seq_ o = seq_ o' -> o = o'.

Lemma is_newest_head o os r : newer_first (o :: os) -> by_seq (o :: os) -> seq_ o <= s -> is_newest (key_ o) s (o :: os) (Some r) <-> r = o.
Proof.
  intros Hn Hu Hs. apply StronglySorted_inv in Hn as [_ Hn]. rewrite Forall_forall in Hn. split.
  - intros (H1 & [Hk H2] & H3). apply Hu; [done|set_solver|]. specialize (H3 o ltac:(set_solver) (conj eq_refl Hs)).
    apply elem_of_cons in H1 as [->|H1]; [done|]. specialize (Hn r H1 (eq_sym Hk)). lia.
  - intros ->. split_and!; [set_solver|done|]. intros o' [->|Ho']%elem_of_cons [Hk _]; [lia|]. apply Hn; [done|by rewrite Hk].
Qed.

Lemma view_newest h os k v :
  ordered os -> newer_first os -> by_seq os -> (forall o c, h = Some c -> o ∈ os -> lex c (key_ o) <= 0) ->
  (k, v) ∈ view_from s h os <->
  h <> Some k /\ exists o, is_newest k s os (Some o) /\ MemTable.op_type o = kTypeValue /\ MemTable.op_value o = v.
Proof.
  revert h. induction os as [|o os IH]; intros h Ho Hn Hu Hh.
  { split; [intros []%elem_of_nil|]. intros (_ & o & (Hin & _) & _). by apply elem_of_nil in Hin. }
  pose proof Ho as [Ho' Hall]%StronglySorted_inv. pose proof Hn as [Hn' _]%StronglySorted_inv. rewrite Forall_forall in Hall.
  assert (by_seq os) as Hu' by (intros o1 o2 H1 H2; apply Hu; set_solver).
  assert (k <> key_ o \/ s < seq_ o -> (exists r, is_newest k s (o :: os) (Some r) /\ MemTable.op_type r = kTypeValue /\ MemTable.op_value r = v)
    <-> exists r, is_newest k s os (Some r) /\ MemTable.op_type r = kTypeValue /\ MemTable.op_value r = v) as Hskip.
  { intros Hne. assert (~ visible k s o) as Hnv by (intros [? ?]; destruct Hne; [congruence|lia]). by setoid_rewrite (is_newest_skip k o os _ Hnv). }
  destruct (decide (seq_ o <= s /\ h <> Some (key_ o))) as [[H1 H2]|Hhid].
  - rewrite view_shown, elem_of_app, (IH (Some (key_ o))) by (done || intros o' c [= <-] Hin; by apply Hall).
    destruct (decide (k = key_ o)) as [->|Hk].
    + setoid_rewrite (is_newest_head o os _ Hn Hu H1). destruct (Z.eqb_spec (MemTable.op_type o) kTypeValue) as [Ht|Ht].
      * rewrite list_elem_of_singleton. split; [|intros (_ & ? & -> & _ & <-); by left].
        intros [[= ->]|[[] _]]; [|done]. split; [done|]. by exists o.
      * split; [intros [[]%elem_of_nil|[[] _]]; done|]. by intros (_ & ? & -> & ? & _).
    + rewrite Hskip by (by left). split.
      * intros [Hin|[_ Hr]].
        { destruct (Z.eqb_spec (MemTable.op_type o) kTypeValue); [|by apply elem_of_nil in Hin]. by apply list_elem_of_singleton in Hin as [= -> _]. }
        split; [|done]. intros ->. destruct Hr as (r & (Hr & [Hkr _] & _) & _). destruct Hk. rewrite <- Hkr. apply lex_le_antisym.
        { rewrite Hkr. apply (Hh o k eq_refl). set_solver. } { by apply Hall. }
      * intros [_ Hr]. right. split; [congruence|done].
  - rewrite view_hidden by done. rewrite IH; [|done..|intros o' c E Hin; apply Hh; [done|set_solver]].
    destruct (decide (k = key_ o)) as [->|Hne]; [|by rewrite Hskip by (by left)].
    destruct (Z.lt_ge_cases s (seq_ o)); [by rewrite Hskip by (by right)|]. split; intros [Hk _]; by destruct Hhid; split; [lia|].
Qed.
End newest.

Section database_claims.
Context {I : Type} `{Itr : InternalIterator I} `{Laws : !IteratorLaws InternalKey_Compare I}.

Lemma sorted_newer_first os : Forall MemTable.op_ok os -> StronglySorted ikey_lt os -> newer_first os.
Proof.
  intros Hok. induction 1 as [|o os Hs IH Ho]; [constructor|]. apply Forall_cons in Hok as [H1 Hok]. constructor; [by apply IH|].
  rewrite Forall_forall in Ho, Hok |- *. intros o' Ho' Ek. specialize (Ho o' Ho'). specialize (Hok o' Ho'). apply InternalKey_Compare_lt in Ho.
  destruct (MemTable.op_ikey_parts o H1) as [E1 E2], (MemTable.op_ikey_parts o' Hok) as [E3 E4]. rewrite E1, E2, E3, E4, Ek in Ho.
  destruct Ho as [Ho|[_ Ho]]; [rewrite lex_refl in Ho; lia|]. destruct H1 as (? & ? & _), Hok as (? & ? & _). rewrite MemTable.pack_lt in Ho by done. lia.
Qed.
Lemma history_by_seq (all os : list op) :
  StronglySorted (fun o o' => MemTable.op_seq o < MemTable.op_seq o') all -> os ≡ₚ all -> by_seq os.
Proof.
  intros Hs Hp o o' Ho Ho' E. rewrite Hp in Ho, Ho'. clear Hp. induction Hs as [|x l Hl IH Hx]; [by apply elem_of_nil in Ho|].
  rewrite Forall_forall in Hx. apply elem_of_cons in Ho as [->|Ho], Ho' as [->|Ho'].
  - done.
  - specialize (Hx _ Ho'). lia.
  - specialize (Hx _ Ho). lia.
  - by apply IH.
Qed.

(** The view is what a search for each key answers. *)
Lemma view_answers s os all k v :
  Forall MemTable.op_ok os -> StronglySorted ikey_lt os ->
  StronglySorted (fun o o' => MemTable.op_seq o < MemTable.op_seq o') all -> os ≡ₚ all ->
  (k, v) ∈ view s os <-> MemTable.answer (MemTable.newest k s all) = MemTable.Found v.
Proof.
  intros Hok Hs Hall Hp. unfold view. rewrite view_newest; [|by apply os_ordered|by apply sorted_newer_first|by eapply history_by_seq|done].
  assert (forall r, is_newest k s os r -> MemTable.newest k s all = r) as Hr by (intros r; apply is_newest_newest; [done|]; intros o; by rewrite Hp).
  split.
  - intros (_ & o & Ho & Ht & <-). rewrite (Hr _ Ho). cbn. by rewrite Ht.
  - intros E. split; [done|]. destruct (is_newest_exists s k os) as [r Hn]. rewrite (Hr r Hn) in E. destruct r as [o|]; cbn in E; [|done].
    exists o. destruct (Z.eqb_spec (MemTable.op_type o) kTypeValue); [|done]. by injection E.
Qed.

(** C18: the iterator of the database at a sequence number, over the entries of all tables in the
    order of internal keys, cannot be told from an iterator over a list of user keys with their
    values: the list ascends, it has exactly the keys that a search at this number finds with the
    values that it finds, and every sequence of calls in both directions is answered from it.  The
    loops end within as many turns as there are entries. *)
Theorem database_iterator_shows_newest (s : Z) (fuel : nat) (os all : list op) (it : I) (seed : Z) :
  is_seq s -> Forall MemTable.op_ok os -> StronglySorted ikey_lt os -> (length os <= fuel)%nat ->
  StronglySorted (fun o o' => MemTable.op_seq o < MemTable.op_seq o') all -> os ≡ₚ all ->
  stands it (map op_kv os) None ->
  exists es, StronglySorted (entry_lt Bytewise_Compare) es
    /\ (forall k v, (k, v) ∈ es <-> MemTable.answer (MemTable.newest k s all) = MemTable.Found v)
    /\ forall cs, trace (H := DB_Iterator s fuel) cs (new_DBIter it seed)
                = trace (H := Cursor_Iterator Bytewise_Compare) cs (new_Cursor es).
Proof.
  intros Hs Hok Hsort Hf Hall Hp Hst. exists (view s os). split_and!.
  - destruct (view_sorted s None os (os_ordered os Hok Hsort)) as [Hv _]; [done|]. unfold view.
    induction Hv as [|x l _ IH Hx]; constructor; [done|]. apply (Forall_impl _ _ _ Hx).
    intros y. unfold key_lt, entry_lt, Bytewise_Compare. by rewrite Slice_compare_lex.
  - intros k v. by apply view_answers.
  - intros cs. apply (trace_same Bytewise_Compare (LA := DB_laws s fuel os Hok Hsort Hf Hs) (LB := Cursor_laws Bytewise_Compare) cs _ _ (view s os) None);
      [|apply new_Cursor_stands]. by eapply new_DBIter_stands.
Qed.
End database_claims.

(** A table in memory and an older one: [b] was deleted, [a] was overwritten, [c] came later. *)
Definition an_op (s t : Z) (k v : list Z) : op := {| MemTable.op_seq := s; MemTable.op_type := t; MemTable.op_key := k; MemTable.op_value := v |}.
Definition a_history : list op :=
  [an_op 1 1 [97] [1]; an_op 2 1 [98] [2]; an_op 3 0 [98] []; an_op 4 1 [97] [3]; an_op 5 1 [99] [5]; an_op 6 1 [100] [6]].
Definition tables : list (list op) :=
  [[an_op 4 1 [97] [3]; an_op 5 1 [99] [5]; an_op 6 1 [100] [6]]; [an_op 1 1 [97] [1]; an_op 3 0 [98] []; an_op 2 1 [98] [2]]].
Definition table_entries : list op :=
  [an_op 4 1 [97] [3]; an_op 1 1 [97] [1]; an_op 3 0 [98] []; an_op 2 1 [98] [2]; an_op 5 1 [99] [5]; an_op 6 1 [100] [6]].
Definition table_iterators : MergingIterator Cursor := new_MergingIterator (map (fun os => new_Cursor (map op_kv os)) tables).
Abbreviation table_Iterator := (Merging_Iterator (H := Cursor_Iterator InternalKey_Compare) InternalKey_Compare).

Example database_trace :
  trace (H := DB_Iterator (H := table_Iterator) 5 6) [ToFirst; ToNext; ToPrev; ToPrev; ToLast; ToPrev; ToNext; To [98]; ToPrev] (new_DBIter table_iterators 0xdeadbeef)
  = Some [Some ([97], [3]); Some ([99], [5]); Some ([97], [3]); None; Some ([99], [5]); Some ([97], [3]); Some ([99], [5]); Some ([99], [5]); Some ([97], [3])].
Proof. vm_compute. reflexivity. Qed.

Lemma table_iterators_stand : merge_stands (Itr := Cursor_Iterator InternalKey_Compare) (Laws := Cursor_laws InternalKey_Compare) InternalKey_Compare table_iterators (map op_kv table_entries) None.
Proof.
  apply (new_MergingIterator_stands (Itr := Cursor_Iterator InternalKey_Compare) (Laws := Cursor_laws InternalKey_Compare) InternalKey_Compare _ _ (map (map op_kv) tables)).
  - repeat constructor.
  - apply Permutation_skip. exact (Permutation_app_comm (map op_kv (tables !!! 1%nat)) (map op_kv (drop 1 (tables !!! 0%nat)))).
  - repeat constructor.
  - repeat (apply Forall2_cons; split; [apply new_Cursor_stands|]). constructor.
Qed.
Lemma tables_history : table_entries ≡ₚ a_history.
Proof.
  etransitivity; [|exact (Permutation_middle (take 3 a_history) (drop 4 a_history) (an_op 4 1 [97] [3]))].
  apply Permutation_skip, Permutation_skip, Permutation_swap.
Qed.
Lemma table_entries_ok : Forall MemTable.op_ok table_entries.
Proof.
  repeat (apply Forall_cons; split; [unfold MemTable.op_ok, is_seq, is_type, kMaxSequenceNumber, kTypeDeletion, kTypeValue; cbn; lia|]). constructor.
Qed.
Lemma database_iterator_shows_newest_witness :
  exists es, StronglySorted (entry_lt Bytewise_Compare) es
    /\ (forall k v, (k, v) ∈ es <-> MemTable.answer (MemTable.newest k 5 a_history) = MemTable.Found v)
    /\ forall cs, trace (H := DB_Iterator (H := table_Iterator) 5 6) cs (new_DBIter table_iterators 0xdeadbeef)
                = trace (H := Cursor_Iterator Bytewise_Compare) cs (new_Cursor es).
Proof.
  apply (database_iterator_shows_newest (Itr := table_Iterator)
    (Laws := Merging_laws (Itr := Cursor_Iterator InternalKey_Compare) (Laws := Cursor_laws InternalKey_Compare) InternalKey_Compare) 5 6 table_entries a_history).
  - unfold is_seq, kMaxSequenceNumber. lia.
  - exact table_entries_ok.
  - repeat constructor.
  - reflexivity.
  - repeat constructor.
  - exact tables_history.
  - exact table_iterators_stand.
Defined.
